(* ===== verification/_CoqProject ===== *)
-Q . S2P
Prelude.v
PyValue.v
PyJson.v
PyText.v
Session.v
Lifecycle.v
Transitions.v
SplitRules.v
CodRules.v
OrderDb.v
SagaOrchestrator.v
SagaReaper.v
OrderSystem.v
OrderReads.v
ReservationRules.v
InventoryService.v
PaymentService.v
EscrowService.v
Resilience.v
DispatchRules.v
Dispatcher.v
ReserveContract.v
Platform.v
CourierRules.v
ShipmentService.v
CartService.v
AuditLog.v
WebhookHandler.v
DlqReprocessor.v
NotificationWorker.v
SellerRules.v
SellerService.v
MediaRules.v
MediaService.v
ReviewRules.v
ReviewService.v
ReadModel.v
CatalogService.v
ReindexWorker.v
StreamProcessor.v
CreateOnce.v
Marketplace.v
FraudService.v
PriceBoard.v
TextLines.v
KafkaReplication.v
RedisTopology.v
Float64.v
RankingRules.v
SellerMetrics.v
Personalisation.v
SearchEngine.v
Tracing.v
SearchMapping.v
K8sGenerate.v
K8sValidate.v
BootstrapSchema.v
FixReplication.v
CheckRedis.v
Routing.v
SellerRoutes.v
MediaRoutes.v
OrderRoutes.v
ReviewRoutes.v
NotificationLoop.v
ReindexLoop.v
Connectors.v
StorageBootstrap.v
PlatformInit.v
Retention.v
