(* ===== verification/Prelude.v ===== *)
(** * Marketplace back end: a verification development

    A development of the Python services and workers of the repository: the
    rules modules, the handlers that read and write the databases, the loops of
    the workers, and the ways they meet.  Definitions keep the names of the
    source; a Module is a source module or the part of one it names.

    ** The program

    A buyer's cart is checked out into a saga of order-saga, which splits it by
    seller and asks, through its outbox table, for stock to be reserved.  The
    saga dispatcher claims commands from that table, calls inventory-service and
    payment-service behind circuit breakers, and reports back.  Each seller order
    then goes through the cash-on-delivery life: confirmed, dispatched by
    fulfillment-service, delivered, settled by the courier's remittance; delivery
    books an escrow entry in payment-service and consumes the reserved stock.
    Around that path stand seller onboarding, media, reviews (which ask
    order-saga whether a purchase happened), the audit log, payment-provider
    webhooks, notification delivery and the recovery of dead letters.

    What a buyer sees is a read model.  Catalog, pricing, inventory and the
    seller services announce their changes; the stream processor and the reindex
    worker write them into a search index, each field by its owner; search-service
    filters that index and ranks what the engine matched by relevance, the
    seller's record (order-saga, reviews), distance and the buyer's interests
    (personalisation-service).

    ** The files, and what they model

    Shared ground.
    - Prelude: dictionaries as insertion-ordered association lists, integer sums,
      [UPDATE ... WHERE] on a list of rows, stable sorting, bounded runs, the
      tactics and the hint databases [market] and [sums].
    - PyValue, PyJson, PyText: the part of Python's run time the code relies on:
      [int()], [str()], [repr()], [uuid.UUID()], truth tests, string methods,
      [json.dumps] in canonical form, [isoformat], [split] and [partition], and
      what [subprocess.run] returns.
    - TextLines: [splitlines], [rpartition] and [strip], with how they undo
      [join].
    - Float64: Python's float as a rational with its rounding to 53 bits, the
      error and monotonicity of every operation, and the class [Libm] of the
      functions the C library computes.
    - Session: the database session as a state and error monad with a committed
      and a working copy; a request is [run] on the committed one.
    - Lifecycle: tables whose rows announce their history in an outbox, rows
      seeded by a migration included; the specification the seller and media
      services are proved to refine.

    services/order-saga.
    - Transitions (transitions.py), SplitRules (split_rules.py), CodRules
      (cod_rules.py): the state machine, the split of a cart, the life of a
      seller order.
    - OrderDb (models.py), SagaOrchestrator and OrderReads (saga_orchestrator.py),
      SagaReaper (main.py): the tables, every handler, the reads, and one pass of
      each background loop.
    - OrderSystem: the handlers and the reaper as one transition system.

    services/inventory-service: ReservationRules, InventoryService.
    services/payment-service: PaymentService (charges, refunds), EscrowService
      (ledger_rules.py as Module LedgerRules, escrow_service.py).
    shared/libs/python-common/resilience.py: Resilience.
    workers/saga-dispatcher: DispatchRules, Dispatcher (Modules OutboxQueue and
      Dispatcher; the class [Gateway] is what the worker calls).
    ReserveContract and Platform: the class [InventoryContract] states what the
      inventory service promises the dispatcher; the reservation loop is proved
      against it and Platform discharges it with the service's own handlers
      behind their routes and breakers.
    services/fulfillment-service: CourierRules (courier_rules.py,
      courier_registry.py), ShipmentService.
    services/cart-service: CartService (Modules CartRules, CheckoutLock,
      CartService): requests suspended at every await.
    services/audit-service: AuditLog (Modules AuditRules, AuditService).
    workers/webhook-handler: WebhookHandler.
    shared/libs/python-common/kafka_client.py and workers/dlq-reprocessor:
      DlqReprocessor (Modules KafkaClient, DlqRules, DlqWorker).
    workers/notification-worker: NotificationWorker, and NotificationLoop (the
      provider, and the worker's loop over a batch).
    services/seller-service: SellerRules, SellerService.
    services/media-service: MediaRules, MediaService.
    services/reviews-service: ReviewRules, ReviewService, the latter over the
      order service's own transition system.
    services/pricing-, tax-, delivery-quote-, notification-, fulfillment-,
      promotion- and user-service: CreateOnce, the creation handlers these share
      line for line, and the deletion of retention.py, whose loop is Retention.
    services/fraud-service: FraudService.
    shared/libs/python-common/tracing.py, outbox.py, auth.py: Tracing.
    The routes of order-saga, seller-, media- and reviews-service: Routing (what
      they share), OrderRoutes, SellerRoutes, MediaRoutes, ReviewRoutes; an
      endpoint is its checks and the handler of the service's module.

    The read model and search.
    - ReadModel (read_model.py): who owns which field of a product document; the
      class [SearchIndex] of what the index does, with its laws, and an instance
      over finite maps.
    - CatalogService (services/catalog-service), ReindexWorker
      (workers/reindex-worker) with its loop in ReindexLoop, StreamProcessor
      (workers/stream-processor, and the filters of a search), SearchMapping (the
      creation of the index and of new fields).
    - Marketplace: seller-service, catalog and the index as one system.
    - PriceBoard: pricing, its outbox, Kafka's partition, the stream processor
      and search_rules.py as one system.
    - RankingRules (ranking_rules.py), SellerMetrics (seller_metrics.py,
      reviews_client.py), Personalisation (affinity_rules.py,
      services/personalisation-service), SearchEngine (search_engine.py,
      quality_lookup.py, affinity_lookup.py): one search from its request to its
      page, over the answers the other three compute.

    Operations (scripts/, fix_connectors.py).
    - KafkaReplication and RedisTopology (the rules of kafka_replication.py and
      redis_topology.py), FixReplication and CheckRedis (the scripts over them).
    - K8sGenerate (generate_k8s.py) and K8sValidate (validate_k8s.py, with the
      generated tree proved to pass it).
    - BootstrapSchema (bootstrap_schema.py), Connectors (fix_connectors.py),
      StorageBootstrap (bootstrap_storage.py), PlatformInit (init.py).
    A script runs over a function from the command it sends, and a world, to an
    answer and a world; what an honest cluster, Kafka Connect or object store
    does is a class ([Cluster], [Connect], [ObjectStore]).

    ** How state and operations correspond

    A table is a list of records with the columns of the model, in insertion
    order; a statement is a function on the list; a column update names the
    columns the statement sets.  A handler is a computation of the session monad
    in the order of the source, with its guards, its [HTTPException]s as [Http]
    and any other exception as [Raised].  Whether a commit succeeds is the
    argument [fault]; [uuid4] is a stream of identifiers and a table counts the
    draws; [now] is the time of the request in microseconds.  Where the code
    suspends and other requests can interfere (carts, audit appends, reviews,
    settlement files, verdicts on an asset, the dispatcher's breaker, notification
    workers), the request is split at that point and histories are sequences of
    moves.

    ** What the theorems show

    - Conservation and bounds: stock is conserved and never oversold, the books
      balance, refunds never exceed charges, a delivery splits to the last unit,
      a dead letter is retried at most three times a week.
    - At most once: a parcel is booked once, a remittance matches at most once in
      a file (and once in all while files do not overlap), a cart is handed over
      once, a webhook is emitted once, a saga event counts once, stock
      moves once for a seller order, a notification ends with its final answer, a
      creation with one key happens once.
    - The read model: the stream and the backfill write the same data of a
      product, a backfill repairs what the catalog owns, the products the index
      has for a seller who loses their standing disappear from search, the price
      shown is that of the last message whose write took effect.
    - Ranking: relevance outweighs everything at a factor of three, a seller
      better by a quarter outweighs distance, the order does not depend on the
      order of the hits; the record of a seller is a shrunk rate that moves the
      right way; interests nudge, survive the wire and can be forgotten; an
      outage of the lookups changes the order of a page and nothing else.
    - Termination: events and reaper passes move a saga at most four times, and a
      reaper pass compensates what it closes.
    - Agreement between parts: the dispatcher and the saga speak the same events,
      the reserved quantities are those the split promised, what the dispatcher
      reports of the stock is true, reviews rest on deliveries order-saga really
      went through.
    - Records and histories: a seller's record, the platform's seeded account
      included, and an asset's record are what their announced events say, the
      log's last hash commits to all of it, the audit log never forks, a courier's
      word is never guessed.
    - Operations: the replication repair leaves no topic short when the brokers
      it plans on are up, a bootstrap that
      reports no failure left every database current, a platform reported ready
      passed every check in order, the generated manifests pass the validator's
      checks and carry none of the secrets the generator recognises, the
      connectors are the declared ones, the bucket opens the public purposes
      alone, a row the listener saw carries the trace of its writer, and every
      route of a modelled router can be reached.
    - Errors: an error answer means nothing was committed, whichever commit fails;
      and some properties one would expect fail, which theorems, lemmas and
      examples prove on concrete or general inputs (a lost ban, an infected asset
      published again, one order settled by two files, an old price that comes
      back, a late report that overrules a moderator, a lost webhook, a stranded
      batch, and others).

    ** Bounds and fuel

    Recursion is structural, on the list of rows, messages or moves, or on text,
    with one exception: the backfill takes batches until one is short, and runs on
    a number of batches; with as many as there are rows and one more it ends
    (backfill_visits_every_product).  The five rounds of the visibility check, the
    ninety probes for Postgres and the sixty questions about a reassignment are
    the code's own; the wait for healthy containers runs on rounds, of which
    thirty-one are enough for its three hundred seconds, and the wait for Kafka
    Connect, which has no end of its own, on probes.  The search for connection
    strings is structural on the text, counting what is to be skipped.  Loops that
    do not end (the workers') are modelled one pass
    at a time and by histories of any length.  Integers are unbounded as in
    Python; column widths are part of [fault].  Floats are rounded to 53 bits,
    ties to even; the range of the exponent, NaN and the infinities are left out,
    except where a number is clamped right after it is read.

    ** Not modelled

    Parameters stand for what is not in the repository: the search engine, the
    object store's signer, SHA-256, HMAC and bcrypt, the JSON parser, pydantic's
    reading of an integer, [datetime.fromisoformat], the text of a float and the
    float of a text, the mathematical library, the answers of other services
    where they are not composed, OpenTelemetry and PyJWT, the framework's choice of
    a route and its validation of a body, and whatever the tools a script runs
    answer.  Logging and printing, the start-up code of the services, sleeping
    between passes and the routes of the other services, which only forward to a
    handler, are left out.  Handlers that overlap are modelled
    only where said above: the histories of the other services are sequences of
    whole requests.  Where a handler locks the row it decides on, one row is only
    ever handled so; where it does not, the sequence is an assumption.  The seller
    service takes no lock: its histories, and those of Marketplace, handle one
    seller request at a time, and the last part of SellerService shows what an
    overlap does.  In inventory-service the holds of an order are read before the
    row lock, so two releases of one order that overlap are not covered.

    Not modelled: database connections (an engine and a session factory of the
    library), and the one-off scripts at the root that rewrite configuration or
    source files once.  Outside the development: the JavaScript gateways, the
    migrations, but for the account one of them seeds (SellerService), and
    deployment files. *)

From stdpp Require Export base tactics strings gmap list pretty.
From Stdlib Require Export ZArith Lia Sorted.
From Stdlib Require OrderedTypeEx.

#[global] Open Scope Z_scope.

(** ** Notation scope and hint databases *)

Declare Scope py_scope.
Delimit Scope py_scope with py.

(** Python's [x in (a, b, ...)] on values with decidable equality. *)
Definition in_listb {A} `{EqDecision A} (x : A) (l : list A) : bool :=
  bool_decide (x ∈ l).

Notation "x 'in_' l" := (in_listb x l) (at level 70, no associativity) : py_scope.
Notation "a =?s b" := (bool_decide (a = b :> string)) (at level 70, no associativity) : py_scope.
#[global] Open Scope py_scope.

Create HintDb market.
Create Rewrite HintDb sums.

(** ** Tactics *)

(** Turn boolean tests in the context and the goal into propositions. *)
Ltac bool_to_prop :=
  repeat match goal with
  | H : bool_decide _ = true |- _ => apply bool_decide_eq_true in H
  | H : bool_decide _ = false |- _ => apply bool_decide_eq_false in H
  | H : (_ <=? _) = true |- _ => apply Z.leb_le in H
  | H : (_ <=? _) = false |- _ => apply Z.leb_gt in H
  | H : (_ <? _) = true |- _ => apply Z.ltb_lt in H
  | H : (_ <? _) = false |- _ => apply Z.ltb_ge in H
  | H : (_ =? _) = true |- _ => apply Z.eqb_eq in H
  | H : (_ =? _) = false |- _ => apply Z.eqb_neq in H
  | H : _ && _ = true |- _ => apply andb_true_iff in H as [? ?]
  | H : _ || _ = false |- _ => apply orb_false_iff in H as [? ?]
  | H : negb _ = true |- _ => apply negb_true_iff in H
  | H : negb _ = false |- _ => apply negb_false_iff in H
  end.

(** Case on the first [if] or [match] scrutinee in a hypothesis. *)
Ltac step_in H :=
  match type of H with
  | context [ match ?x with _ => _ end ] =>
      lazymatch x with
      | context [ match _ with _ => _ end ] => fail
      | _ => let E := fresh "E" in destruct x eqn:E
      end
  end.

Ltac steps_in H := repeat (step_in H; simplify_eq/=); bool_to_prop.

(** The same on the goal. *)
Ltac step_goal :=
  match goal with
  | |- context [ match ?x with _ => _ end ] =>
      lazymatch x with
      | context [ match _ with _ => _ end ] => fail
      | _ => let E := fresh "E" in destruct x eqn:E
      end
  end.

Ltac steps := repeat (step_goal; simplify_eq/=); bool_to_prop.

(** Decide a closed proposition by evaluation. *)
Ltac by_compute := apply (bool_decide_unpack _); vm_compute; first [exact I | fail].

(** Finite case analysis from membership in a literal list. *)
Ltac elem_cases H :=
  repeat match type of H with
  | _ ∈ [] => by apply not_elem_of_nil in H
  | _ ∈ _ :: _ => apply elem_of_cons in H as [H|H]; [simplify_eq|]
  end.

(** ** Python dictionaries as insertion-ordered association lists *)

Section dict.
Context {K V : Type} `{EqDecision K}.

Fixpoint dict_get (d : list (K * V)) (k : K) : option V :=
  match d with
  | [] => None
  | (k', v) :: d' => if decide (k = k') then Some v else dict_get d' k
  end.

(** [d[k] = v]: overwrite in place, or append at the end. *)
Fixpoint dict_set (d : list (K * V)) (k : K) (v : V) : list (K * V) :=
  match d with
  | [] => [(k, v)]
  | (k', v') :: d' =>
      if decide (k = k') then (k', v) :: d' else (k', v') :: dict_set d' k v
  end.

Lemma dict_get_elem d k v : dict_get d k = Some v → (k, v) ∈ d.
Proof.
  induction d as [|[k' v'] d IH]; simpl; [done|].
  case_decide; intros; simplify_eq; [left|right; auto].
Qed.

Lemma dict_get_set_eq d k v : dict_get (dict_set d k v) k = Some v.
Proof.
  induction d as [|[k' v'] d IH]; simpl; [by rewrite decide_True|].
  case_decide; simpl; [by rewrite decide_True|by rewrite decide_False].
Qed.

Lemma dict_get_set_ne d k k' v :
  k ≠ k' → dict_get (dict_set d k v) k' = dict_get d k'.
Proof.
  intros Hne. induction d as [|[k0 v0] d IH]; simpl.
  - by rewrite decide_False.
  - case_decide; subst; simpl.
    + by rewrite !(decide_False (P := k' = k0)).
    + case_decide; [done|apply IH].
Qed.

Lemma dict_set_keys d k v :
  (dict_set d k v).*1 = if decide (k ∈ d.*1) then d.*1 else d.*1 ++ [k].
Proof.
  induction d as [|[k0 v0] d IH]; csimpl; [done|].
  destruct (decide (k = k0)) as [->|Hne]; csimpl.
  - rewrite decide_True; [done|left].
  - rewrite IH. destruct (decide (k ∈ d.*1)).
    + rewrite decide_True; [done|by right].
    + rewrite decide_False; [done|]. by intros [->|]%elem_of_cons.
Qed.

Lemma dict_set_nodup d k v : NoDup d.*1 → NoDup (dict_set d k v).*1.
Proof.
  intros Hd. rewrite dict_set_keys. case_decide; [done|].
  apply NoDup_app; split_and!; [done| |apply NoDup_singleton].
  intros x Hx ->%list_elem_of_singleton. done.
Qed.

Lemma dict_set_new d k v : k ∉ d.*1 → dict_set d k v = d ++ [(k, v)].
Proof.
  induction d as [|[k' v'] d IH]; [done|]. csimpl. intros [Hk Hd]%not_elem_of_cons.
  rewrite decide_False by done. by rewrite IH.
Qed.

Lemma dict_get_is_Some d k : is_Some (dict_get d k) ↔ k ∈ d.*1.
Proof.
  induction d as [|[k0 v0] d IH]; csimpl.
  - split; [by intros []|by intros ?%not_elem_of_nil].
  - rewrite elem_of_cons, <-IH. case_decide; [|tauto].
    split; [by left|by eexists].
Qed.

Lemma elem_dict_get d k v : NoDup d.*1 → (k, v) ∈ d → dict_get d k = Some v.
Proof.
  induction d as [|[k0 v0] d IH]; csimpl; [by intros _ ?%not_elem_of_nil|].
  intros [Hk Hd]%NoDup_cons [?|Hin]%elem_of_cons; simplify_eq.
  - by rewrite decide_True.
  - rewrite decide_False; [by apply IH|]. intros ->. apply Hk.
    apply list_elem_of_fmap. by exists (k0, v).
Qed.
End dict.

(** ** Integer sums over lists *)

Section sums.
Context {A : Type}.
Implicit Types f g : A → Z.

Fixpoint sumZ f (l : list A) : Z :=
  match l with [] => 0 | x :: l' => f x + sumZ f l' end.

Lemma sumZ_app f l1 l2 : sumZ f (l1 ++ l2) = sumZ f l1 + sumZ f l2.
Proof. induction l1 as [|x l1 IH]; simpl; lia. Qed.

Lemma sumZ_perm f l1 l2 : l1 ≡ₚ l2 → sumZ f l1 = sumZ f l2.
Proof. induction 1; simpl; lia. Qed.

Lemma sumZ_ext f g l : (∀ x, x ∈ l → f x = g x) → sumZ f l = sumZ g l.
Proof.
  induction l as [|x l IH]; intros H; simpl; [done|].
  rewrite (H x), IH; [done| |left]. intros y Hy. apply H. by right.
Qed.

Lemma sumZ_nonneg f l : (∀ x, x ∈ l → 0 ≤ f x) → 0 ≤ sumZ f l.
Proof.
  induction l as [|x l IH]; intros H; simpl; [done|].
  assert (0 ≤ f x) by (apply H; left).
  assert (0 ≤ sumZ f l) by (apply IH; intros; apply H; by right). lia.
Qed.

Lemma sumZ_zero f l : (∀ x, x ∈ l → f x = 0) → sumZ f l = 0.
Proof.
  intros H. rewrite (sumZ_ext f (λ _, 0)); [|done].
  clear. induction l; simpl; lia.
Qed.

Lemma sumZ_add f g l : sumZ (λ x, f x + g x) l = sumZ f l + sumZ g l.
Proof. induction l as [|x l IH]; simpl; lia. Qed.

Lemma sumZ_opp f l : sumZ (λ x, - f x) l = - sumZ f l.
Proof. induction l as [|x l IH]; simpl; lia. Qed.

Lemma sumZ_filter_split f (P : A → bool) l :
  sumZ f l = sumZ f (List.filter P l) + sumZ f (List.filter (λ x, negb (P x)) l).
Proof. induction l as [|x l IH]; simpl; [done|]. destruct (P x); simpl; lia. Qed.

Lemma sumZ_elem_le f l x :
  (∀ y, y ∈ l → 0 ≤ f y) → x ∈ l → f x ≤ sumZ f l.
Proof.
  induction l as [|y l IH]; intros Hf Hin; [by apply not_elem_of_nil in Hin|].
  apply elem_of_cons in Hin as [->|Hx]; simpl.
  - assert (0 ≤ sumZ f l) by (apply sumZ_nonneg; intros; apply Hf; by right). lia.
  - assert (0 ≤ f y) by (apply Hf; left).
    assert (f x ≤ sumZ f l) by (apply IH; [intros; apply Hf; by right|done]). lia.
Qed.
End sums.

Lemma sumZ_map {A B} (f : B → Z) (h : A → B) l : sumZ f (map h l) = sumZ (λ x, f (h x)) l.
Proof. induction l as [|x l IH]; simpl; [done|]. by rewrite IH. Qed.

Lemma sumZ_concat_map {A B} (f : B → Z) (h : A → list B) l :
  sumZ f (concat (map h l)) = sumZ (λ x, sumZ f (h x)) l.
Proof. induction l as [|x l IH]; simpl; [done|]. by rewrite sumZ_app, IH. Qed.

(** [d[k] = d.get(k, 0) + q] adds [q] to the total. *)
Lemma sumZ_dict_add {K} `{EqDecision K} (d : list (K * Z)) k q :
  sumZ snd (dict_set d k (default 0 (dict_get d k) + q)) = sumZ snd d + q.
Proof.
  induction d as [|[k' v] d IH]; cbn [dict_set dict_get sumZ snd]; [cbn; lia|].
  destruct (decide (k = k')); [cbn; unfold id; lia|]. cbn [sumZ snd]. rewrite IH. lia.
Qed.

#[export] Hint Rewrite @sumZ_app @sumZ_map : sums.

(** Python's [x if cond else 0] summands. *)
Definition ite (b : bool) (x : Z) : Z := if b then x else 0.

Lemma sumZ_filter {A} (f : A → Z) (P : A → bool) l :
  sumZ f (List.filter P l) = sumZ (λ x, ite (P x) (f x)) l.
Proof. induction l as [|x l IH]; simpl; [done|]. destruct (P x); simpl; lia. Qed.

(** ** List helpers *)

(** SQL [UPDATE ... SET ... WHERE p]: rewrite the rows that satisfy [p]. *)
Definition update_where {A} (p : A → bool) (g : A → A) (l : list A) : list A :=
  map (λ x, if p x then g x else x) l.

Lemma elem_of_filter_bool {A} (p : A → bool) l x :
  x ∈ List.filter p l ↔ x ∈ l ∧ p x = true.
Proof. rewrite !list_elem_of_In. apply filter_In. Qed.

Lemma elem_of_map {A B} (h : A → B) l y : y ∈ map h l ↔ ∃ x, y = h x ∧ x ∈ l.
Proof. rewrite list_elem_of_In, in_map_iff. setoid_rewrite list_elem_of_In. split; intros (x & ? & ?); eauto. Qed.

Lemma elem_of_concat_map {A B} (h : A → list B) l y :
  y ∈ concat (map h l) ↔ ∃ x, x ∈ l ∧ y ∈ h x.
Proof.
  rewrite list_elem_of_In, in_concat. split.
  - intros (ys & Hys & Hy). apply list_elem_of_In in Hy. apply list_elem_of_In in Hys.
    apply elem_of_map in Hys as (x & -> & Hx). eauto.
  - intros (x & Hx & Hy). exists (h x). rewrite <-!list_elem_of_In. split; [|done].
    apply elem_of_map. eauto.
Qed.

Lemma find_elem {A} (p : A → bool) l x : List.find p l = Some x → x ∈ l ∧ p x = true.
Proof. intros H. rewrite list_elem_of_In. by apply List.find_some. Qed.

Lemma find_none_elem {A} (p : A → bool) l x : List.find p l = None → x ∈ l → p x = false.
Proof. rewrite list_elem_of_In. intros. by eapply List.find_none. Qed.

Lemma filter_none {A} (p : A → bool) l : (∀ x, x ∈ l → p x = false) → List.filter p l = [].
Proof.
  induction l as [|x l IH]; intros H; simpl; [done|].
  rewrite (H x) by left. apply IH. intros. apply H. by right.
Qed.

Lemma filter_all {A} (p : A → bool) l : (∀ x, x ∈ l → p x = true) → List.filter p l = l.
Proof.
  induction l as [|x l IH]; intros H; simpl; [done|].
  rewrite (H x) by left. f_equal. apply IH. intros. apply H. by right.
Qed.

Lemma Permutation_filter_bool {A} (p : A → bool) l l' :
  l ≡ₚ l' → List.filter p l ≡ₚ List.filter p l'.
Proof.
  induction 1 as [|x l l' _ IH|x y l|l1 l2 l3 _ IH1 _ IH2]; simpl; [done| | |by rewrite IH1].
  - destruct (p x); by rewrite IH.
  - destruct (p x), (p y); try done. apply perm_swap.
Qed.

(** Rows are determined by a key that is unique in the table. *)
Lemma map_key_inj {A B} (key : A → B) rows r r' :
  NoDup (map key rows) → r ∈ rows → r' ∈ rows → key r = key r' → r = r'.
Proof.
  induction rows as [|x rows IH]; intros Hnd Hr Hr' E; [by apply not_elem_of_nil in Hr|].
  simpl in Hnd. apply NoDup_cons in Hnd as [Hx Hnd].
  apply elem_of_cons in Hr as [->|Hr], Hr' as [->|Hr']; [done| | |by apply IH].
  - destruct Hx. rewrite E. apply elem_of_map. by exists r'.
  - destruct Hx. rewrite <-E. apply elem_of_map. by exists r.
Qed.

Lemma elem_of_delete_at {A} (l : list A) i y x : l !! i = Some y → x ∈ l ↔ x = y ∨ x ∈ delete i l.
Proof.
  intros H. pose proof (delete_Permutation l i y H) as HP. rewrite <-elem_of_cons.
  split; intros Hx; [by rewrite HP in Hx|by rewrite HP].
Qed.

Lemma nodup_map_filter {A B} (f : A → B) (p : A → bool) l : NoDup (map f l) → NoDup (map f (List.filter p l)).
Proof.
  induction l as [|x l IH]; intros H; [done|]. cbn in *. apply NoDup_cons in H as [Hx H].
  destruct (p x); [|by apply IH]. cbn. apply NoDup_cons. split; [|by apply IH].
  intros (y & E & Hy)%elem_of_map. apply elem_of_filter_bool in Hy as [Hy _]. apply Hx, elem_of_map. by exists y.
Qed.

(** ** Stable sorting ([sorted], [ORDER BY]) *)

Section sort.
Context {A : Type} (le : A → A → bool).

Fixpoint insert_le (x : A) (l : list A) : list A :=
  match l with
  | [] => [x]
  | y :: l' => if le x y then x :: y :: l' else y :: insert_le x l'
  end.

Definition sort_le (l : list A) : list A := foldr insert_le [] l.

Definition in_order (x y : A) : Prop := le x y = true.

Lemma insert_le_perm x l : insert_le x l ≡ₚ x :: l.
Proof.
  induction l as [|y l IH]; simpl; [done|]. destruct (le x y); [done|].
  rewrite IH. apply perm_swap.
Qed.

Lemma sort_le_perm l : sort_le l ≡ₚ l.
Proof. induction l as [|x l IH]; simpl; [done|]. by rewrite insert_le_perm, IH. Qed.

Lemma insert_le_sorted x l :
  (∀ x y, le x y = false → le y x = true) → Sorted in_order l → Sorted in_order (insert_le x l).
Proof.
  intros Htotal. induction 1 as [|y l Hl IH Hhd]; simpl; [repeat constructor|].
  destruct (le x y) eqn:E.
  - constructor; [by constructor|by constructor].
  - constructor; [done|]. destruct l as [|z l]; simpl; [constructor; by apply Htotal|].
    destruct (le x z); constructor; [by apply Htotal|]. by inversion Hhd.
Qed.

Lemma sort_le_sorted l :
  (∀ x y, le x y = false → le y x = true) → Sorted in_order (sort_le l).
Proof. intros. induction l; simpl; [constructor|by apply insert_le_sorted]. Qed.

Lemma sort_le_id l : Sorted in_order l → sort_le l = l.
Proof.
  induction 1 as [|x l Hl IH Hhd]; [done|]. change (insert_le x (sort_le l) = x :: l). rewrite IH.
  destruct Hhd as [|y l E]; [done|]. cbn. unfold in_order in E. by rewrite E.
Qed.

(** An element no earlier one may precede comes out first. *)
Lemma sort_le_head l x : (∀ y, y ∈ l → le y x = false) → head (sort_le (l ++ [x])) = Some x.
Proof.
  induction l as [|y l IH]; intros H; [done|]. cbn [app sort_le foldr].
  assert (head (sort_le (l ++ [x])) = Some x) as E by (apply IH; intros; apply H; by right).
  unfold sort_le in E. destruct (foldr insert_le [] (l ++ [x])) as [|z l']; [done|].
  injection E as ->. cbn. by rewrite H by left.
Qed.
End sort.

(** Rows that compare alike are sorted alike. *)
Lemma sort_le_alike {A} (le : A → A → bool) (R : A → A → Prop) l l' :
  (∀ x x' y y', R x x' → R y y' → le x y = le x' y') → Forall2 R l l' → Forall2 R (sort_le le l) (sort_le le l').
Proof.
  intros Hle H. induction H as [|x x' l l' Hx _ IH]; [constructor|]. cbn [sort_le foldr]. unfold sort_le in IH.
  induction IH as [|y y' m m' Hy Hm IH]; [by repeat constructor|]. cbn [insert_le]. rewrite (Hle x x' y y') by done.
  destruct (le x' y'); by repeat constructor.
Qed.

(** By a string key ([sorted(xs, key=...)]). *)
Definition sort_by {A} (key : A → string) : list A → list A :=
  sort_le (λ x y, String.leb (key x) (key y)).

Definition key_le {A} (key : A → string) : A → A → Prop :=
  in_order (λ x y, String.leb (key x) (key y)).

Lemma sort_by_perm {A} (key : A → string) l : sort_by key l ≡ₚ l.
Proof. apply sort_le_perm. Qed.

Lemma sort_by_sorted {A} (key : A → string) l : Sorted (key_le key) (sort_by key l).
Proof.
  apply sort_le_sorted. intros x y E. destruct (String.leb_total (key x) (key y)) as [H|H]; congruence.
Qed.

(** *** The order of strings *)

Lemma text_lt_trans a b c : String.ltb a b = true → String.ltb b c = true → String.ltb a c = true.
Proof.
  unfold String.ltb. destruct (String.compare a b) eqn:E1; try done. destruct (String.compare b c) eqn:E2; try done.
  intros _ _. apply OrderedTypeEx.String_as_OT.cmp_lt in E1, E2.
  assert (E : String.compare a c = Lt) by (by apply OrderedTypeEx.String_as_OT.cmp_lt, (OrderedTypeEx.String_as_OT.lt_trans _ _ _ E1 E2)).
  by rewrite E.
Qed.

Lemma text_trichotomy a b : String.ltb a b = false → a = b ∨ String.ltb b a = true.
Proof.
  unfold String.ltb. destruct (String.compare a b) eqn:E; try done; intros _.
  - left. by apply OrderedTypeEx.String_as_OT.cmp_eq.
  - right. rewrite String.compare_antisym, E. done.
Qed.

Lemma text_lt_irrefl a : String.ltb a a = false.
Proof.
  assert (E : String.compare a a = Eq) by by apply OrderedTypeEx.String_as_OT.cmp_eq. unfold String.ltb. by rewrite E.
Qed.

Lemma text_leb_ltb a b : String.leb a b = negb (String.ltb b a).
Proof.
  unfold String.leb, String.ltb. rewrite (String.compare_antisym a b). by destruct (String.compare b a).
Qed.

Lemma text_leb_trans a b c : String.leb a b = true → String.leb b c = true → String.leb a c = true.
Proof.
  rewrite !text_leb_ltb, !negb_true_iff. intros H1 H2. apply not_true_iff_false. intros H.
  destruct (text_trichotomy _ _ H2) as [->|H3]; [congruence|]. pose proof (text_lt_trans _ _ _ H3 H). congruence.
Qed.

Lemma text_leb_antisym a b : String.leb a b = true → String.leb b a = true → a = b.
Proof. rewrite !text_leb_ltb, !negb_true_iff. intros H1 H2. destruct (text_trichotomy _ _ H1) as [->|]; [done|congruence]. Qed.

(** ** Relations: a measure bounds the length of a run *)

Inductive steps_run {St} (R : St → St → Prop) : nat → St → St → Prop :=
| steps_run_nil s : steps_run R 0 s s
| steps_run_cons n s1 s2 s3 : R s1 s2 → steps_run R n s2 s3 → steps_run R (S n) s1 s3.

Lemma steps_run_bounded {St} (R : St → St → Prop) (m : St → nat) :
  (∀ s s', R s s' → (m s' < m s)%nat) →
  ∀ n s s', steps_run R n s s' → (n + m s' ≤ m s)%nat.
Proof. intros HR n s s' H. induction H as [|n s1 s2 s3 H12 _ IH]; [lia|]. apply HR in H12. lia. Qed.

Lemma rtc_invariant {St} (R : St → St → Prop) (I : St → Prop) :
  (∀ s s', R s s' → I s → I s') → ∀ s s', rtc R s s' → I s → I s'.
Proof. intros HR s s' H. induction H; eauto. Qed.

(** ** An injective stream of identifiers, for examples *)

Definition unary_id (n : nat) : string := Nat.iter n (λ s, "a" +:+ s) "".

Lemma unary_id_inj : Inj (=) (=) unary_id.
Proof.
  intros n m H. assert (Hl : ∀ k, String.length (unary_id k) = k).
  { intros k. induction k as [|k IH]; [done|]. change (S (String.length (unary_id k)) = S k). by rewrite IH. }
  by rewrite <-(Hl n), <-(Hl m), H.
Qed.
