(* ===== verification/PyValue.v ===== *)
(** * Python values

    The part of Python the services rely on when they handle data whose type is
    only known at run time: JSON values as [json.loads] builds them, truth
    tests, [isinstance], [int()], [str()], the [str] methods [strip], [lower],
    [replace], [startswith], and [uuid.UUID()].

    Text is modelled by [String.string], one character per ASCII code point; a
    character above 127 is carried along but is neither white space nor a digit
    nor a letter with a case. *)

From S2P Require Import Prelude.
From Stdlib Require Import Ascii.

(** ** Text *)

Module Text.

Definition code (c : Ascii.ascii) : Z := Z.of_N (Ascii.N_of_ascii c).

(** [str.isspace] on ASCII: tab to carriage return, FS to US, space. *)
Definition is_space (c : Ascii.ascii) : bool :=
  ((9 <=? code c) && (code c <=? 13)) || ((28 <=? code c) && (code c <=? 32)).

Fixpoint lstrip_by (p : Ascii.ascii → bool) (s : string) : string :=
  match s with
  | String c s' => if p c then lstrip_by p s' else s
  | EmptyString => EmptyString
  end.

Fixpoint rstrip_by (p : Ascii.ascii → bool) (s : string) : string :=
  match s with
  | EmptyString => EmptyString
  | String c s' =>
      match rstrip_by p s' with
      | EmptyString => if p c then EmptyString else String c EmptyString
      | r => String c r
      end
  end.

Definition strip_by (p : Ascii.ascii → bool) (s : string) : string :=
  rstrip_by p (lstrip_by p s).

(** [s.strip()] *)
Definition strip : string → string := strip_by is_space.

Definition lower_char (c : Ascii.ascii) : Ascii.ascii :=
  if (65 <=? code c) && (code c <=? 90)
  then Ascii.ascii_of_N (Z.to_N (code c + 32)) else c.

Fixpoint map_chars (f : Ascii.ascii → Ascii.ascii) (s : string) : string :=
  match s with
  | EmptyString => EmptyString
  | String c s' => String (f c) (map_chars f s')
  end.

Definition upper_char (c : Ascii.ascii) : Ascii.ascii :=
  if (97 <=? code c) && (code c <=? 122)
  then Ascii.ascii_of_N (Z.to_N (code c - 32)) else c.

(** [s.lower()] *)
Definition lower : string → string := map_chars lower_char.

(** [s.upper()] *)
Definition upper : string → string := map_chars upper_char.

(** [s.startswith(p)] *)
Fixpoint starts_with (p s : string) : bool :=
  match p, s with
  | EmptyString, _ => true
  | String a p', String b s' => bool_decide (a = b) && starts_with p' s'
  | String _ _, EmptyString => false
  end.

(** [p in s] on strings *)
Fixpoint contains (p s : string) : bool :=
  starts_with p s ||
  match s with EmptyString => false | String _ s' => contains p s' end.

(** [s.endswith(p)], and SQL's [LIKE '%p'] for a [p] without wildcards. *)
Fixpoint ends_with (p s : string) : bool :=
  bool_decide (p = s) ||
  match s with EmptyString => false | String _ s' => ends_with p s' end.

(** [s.replace(old, new)] for a non-empty [old]; [skip] counts the characters
    of the current match that are still to be dropped. *)
Fixpoint replace_from (old new : string) (skip : nat) (s : string) : string :=
  match s with
  | EmptyString => EmptyString
  | String c s' =>
      match skip with
      | S k => replace_from old new k s'
      | O => if starts_with old s
             then new +:+ replace_from old new (pred (String.length old)) s'
             else String c (replace_from old new 0 s')
      end
  end.

Definition replace (old new s : string) : string := replace_from old new 0 s.

(** [sep.join(xs)] *)
Fixpoint join (sep : string) (xs : list string) : string :=
  match xs with
  | [] => ""
  | [x] => x
  | x :: xs' => x +:+ sep +:+ join sep xs'
  end.

(** [s[:n]] *)
Fixpoint take_chars (n : nat) (s : string) : string :=
  match n, s with
  | S k, String c s' => String c (take_chars k s')
  | _, _ => EmptyString
  end.

Definition is_empty (s : string) : bool := bool_decide (s = "").

(** *** The integer grammar of [int(s, base)] *)

Definition digit_of (c : Ascii.ascii) : option Z :=
  let n := code c in
  if (48 <=? n) && (n <=? 57) then Some (n - 48)
  else if (97 <=? n) && (n <=? 122) then Some (n - 87)
  else if (65 <=? n) && (n <=? 90) then Some (n - 55)
  else None.

(** Digits with single underscores between them; [after_us] says the previous
    character was an underscore, or that no digit has been read yet. *)
Fixpoint digits (base : Z) (s : string) (acc : Z) (after_us : bool) : option Z :=
  match s with
  | EmptyString => if after_us then None else Some acc
  | String c s' =>
      if bool_decide (c = "_"%char) then
        if after_us then None else digits base s' acc true
      else match digit_of c with
           | Some d => if d <? base then digits base s' (acc * base + d) false else None
           | None => None
           end
  end.

Definition unsigned_int (base : Z) (s : string) : option Z :=
  match s with
  | String z (String x s') =>
      if (base =? 16) && bool_decide (z = "0"%char)
         && (bool_decide (x = "x"%char) || bool_decide (x = "X"%char))
      then digits base
             (match s' with
              | String u s'' => if bool_decide (u = "_"%char) then s'' else s'
              | _ => s' end) 0 true
      else digits base s 0 true
  | _ => digits base s 0 true
  end.

(** [int(s, base)]; [None] is the [ValueError]. *)
Definition parse_int (base : Z) (s : string) : option Z :=
  match strip s with
  | String c s' =>
      if bool_decide (c = "-"%char) then Z.opp <$> unsigned_int base s'
      else if bool_decide (c = "+"%char) then unsigned_int base s'
      else unsigned_int base (String c s')
  | EmptyString => None
  end.

(** *** [uuid.UUID(s)]: the canonical text of the value, [None] for the
    [ValueError] *)

Definition hex_char (d : Z) : Ascii.ascii :=
  Ascii.ascii_of_N (Z.to_N (if d <? 10 then d + 48 else d + 87)).

(** The last [n] hexadecimal digits of [z], most significant first. *)
Fixpoint hex_fixed (n : nat) (z : Z) (tail : string) : string :=
  match n with
  | O => tail
  | S k => hex_fixed k (Z.shiftr z 4) (String (hex_char (Z.land z 15)) tail)
  end.

Definition uuid_text (z : Z) : string :=
  hex_fixed 8 (Z.shiftr z 96) "" +:+ "-" +:+ hex_fixed 4 (Z.shiftr z 80) ""
  +:+ "-" +:+ hex_fixed 4 (Z.shiftr z 64) "" +:+ "-"
  +:+ hex_fixed 4 (Z.shiftr z 48) "" +:+ "-" +:+ hex_fixed 12 z "".

Definition is_brace (c : Ascii.ascii) : bool :=
  bool_decide (c = "{"%char) || bool_decide (c = "}"%char).

Definition UUID (s : string) : option string :=
  let hex := replace "uuid:" "" (replace "urn:" "" s) in
  let hex := replace "-" "" (strip_by is_brace hex) in
  if negb (Nat.eqb (String.length hex) 32) then None
  else match parse_int 16 hex with
       | Some z => if (0 <=? z) && (z <? 2 ^ 128) then Some (uuid_text z) else None
       | None => None
       end.
(** *** [repr(s)] of a string *)

Definition quote1 : Ascii.ascii := Ascii.ascii_of_N 39.
Definition quote2 : Ascii.ascii := Ascii.ascii_of_N 34.
Definition backslash : Ascii.ascii := Ascii.ascii_of_N 92.

Fixpoint has_char (q : Ascii.ascii) (s : string) : bool :=
  match s with EmptyString => false | String c s' => bool_decide (c = q) || has_char q s' end.

Definition repr_char (q c : Ascii.ascii) : string :=
  let esc x := String backslash x in
  if bool_decide (c = q) || bool_decide (c = backslash) then esc (String c "")
  else if code c =? 9 then esc "t" else if code c =? 10 then esc "n"
  else if code c =? 13 then esc "r"
  else if (code c <? 32) || (code c =? 127) then esc (String "x" (hex_fixed 2 (code c) ""))
  else String c "".

Fixpoint repr_body (q : Ascii.ascii) (s : string) : string :=
  match s with EmptyString => "" | String c s' => repr_char q c +:+ repr_body q s' end.

Definition repr_str (s : string) : string :=
  let q := if has_char quote1 s && negb (has_char quote2 s) then quote2 else quote1 in
  String q (repr_body q s +:+ String q "").
End Text.

Export Text.

(** A decimal literal of an integer ([f"{n}"]). *)
Definition dec (z : Z) : string := pretty z.

(** ** JSON values *)

(** A binary floating-point number: [FFin m e] is [m * 2^e]. *)
Inductive pyfloat := FFin (m e : Z) | FInf (negative : bool) | FNan.

Inductive json :=
| JNull
| JBool (b : bool)
| JInt (z : Z)
| JFloat (f : pyfloat)
| JStr (s : string)
| JList (l : list json)
| JObj (d : list (string * json)).

(** [bool(v)] *)
Definition truthy (v : json) : bool :=
  match v with
  | JNull => false
  | JBool b => b
  | JInt z => negb (z =? 0)
  | JFloat (FFin m _) => negb (m =? 0)
  | JFloat _ => true
  | JStr s => negb (is_empty s)
  | JList l => negb (bool_decide (length l = 0%nat))
  | JObj d => negb (bool_decide (length d = 0%nat))
  end.

(** A missing key and an explicit [null] are the same to [d.get(k)]. *)
Definition obj_get (d : list (string * json)) (k : string) : json :=
  default JNull (dict_get d k).

Inductive pyexn := KeyError | TypeError | ValueError | OverflowError.

Definition trunc_float (m e : Z) : Z :=
  if 0 <=? e then m * 2 ^ e else Z.quot m (2 ^ (- e)).

(** [int(v)] *)
Definition py_int (v : json) : pyexn + Z :=
  match v with
  | JBool b => inr (Z.b2z b)
  | JInt z => inr z
  | JFloat (FFin m e) => inr (trunc_float m e)
  | JFloat (FInf _) => inl OverflowError
  | JFloat FNan => inl ValueError
  | JStr s => match parse_int 10 s with Some z => inr z | None => inl ValueError end
  | JNull | JList _ | JObj _ => inl TypeError
  end.

(** [int(d[k])] *)
Definition py_int_item (d : list (string * json)) (k : string) : pyexn + Z :=
  match dict_get d k with
  | None => inl KeyError
  | Some v => py_int v
  end.

(** [str(v)]; [repr] is Python's [repr] for the values whose text is not
    determined here (numbers with a fraction and containers). *)
Definition py_str (repr : json → string) (v : json) : string :=
  match v with
  | JNull => "None"
  | JBool b => if b then "True" else "False"
  | JInt z => dec z
  | JStr s => s
  | JFloat _ | JList _ | JObj _ => repr v
  end.

(** ** Checks of the text functions on concrete inputs *)

Example strip_ex : strip "  a b	" = "a b". Proof. reflexivity. Qed.
Example replace_ex : replace "_" " " "a_b_" = "a b ". Proof. reflexivity. Qed.
Example lower_ex : lower "TIMED_OUT" = "timed_out". Proof. reflexivity. Qed.
Example int_ex1 : parse_int 10 " -1_000 " = Some (-1000). Proof. reflexivity. Qed.
Example int_ex2 : parse_int 10 "1__0" = None. Proof. reflexivity. Qed.
Example uuid_ex :
  UUID "{4CC1484D-0000-4000-8000-00000000000A}" =
  Some "4cc1484d-0000-4000-8000-00000000000a".
Proof. vm_compute. reflexivity. Qed.
Example repr_ex : repr_str "it's" = String quote2 ("it's" +:+ String quote2 "").
Proof. reflexivity. Qed.
Example uuid_bad : UUID "seller-1" = None. Proof. reflexivity. Qed.

(** ** Lemmas *)

Lemma truthy_str s : truthy (JStr s) = true ↔ s ≠ "".
Proof.
  simpl. unfold is_empty. rewrite negb_true_iff. apply bool_decide_eq_false.
Qed.

(** [repr(v)], through the same parameter. *)
Definition py_repr (repr : json → string) (v : json) : string :=
  match v with JStr s => repr_str s | _ => py_str repr v end.
