(* ===== verification/PyJson.v ===== *)
(** * JSON text and timestamps

    [json.dumps(v, sort_keys=True, separators=(",", ":"))] as the services use
    it to put a value into a canonical form, and [datetime.isoformat()] of an
    aware timestamp.  The text of a floating-point number is a parameter; the
    class [FloatText] says what the encoder promises about it.

    The main lemma, [dump_inj], is that the text determines the value: two
    values with one text differ at most in floats that print alike. *)

From S2P Require Import Prelude PyValue.
From Stdlib Require Import Ascii.

Module PyJson.

(** ** Encoding *)

(** One character of a JSON string with [ensure_ascii]. *)
Definition json_char (c : Ascii.ascii) : string :=
  let esc x := String backslash x in
  if bool_decide (c = quote2) || bool_decide (c = backslash) then esc (String c "")
  else if code c =? 8 then esc "b" else if code c =? 9 then esc "t"
  else if code c =? 10 then esc "n" else if code c =? 12 then esc "f"
  else if code c =? 13 then esc "r"
  else if (code c <? 32) || (126 <? code c) then esc (String "u" (hex_fixed 4 (code c) ""))
  else String c "".

Fixpoint json_chars (s : string) : string :=
  match s with EmptyString => "" | String c s' => json_char c +:+ json_chars s' end.

Definition json_string (s : string) : string := String quote2 (json_chars s +:+ String quote2 "").

(** [sort_keys=True], at every level. *)
Fixpoint sort_keys (v : json) : json :=
  match v with
  | JList l => JList (map sort_keys l)
  | JObj d => JObj (sort_by fst (map (λ '(k, w), (k, sort_keys w)) d))
  | _ => v
  end.

Section encode.
Context (float_repr : pyfloat → string).

Fixpoint dump (v : json) : string :=
  match v with
  | JNull => "null"
  | JBool b => if b then "true" else "false"
  | JInt z => dec z
  | JFloat f => float_repr f
  | JStr s => json_string s
  | JList l => "[" +:+ join "," (map dump l) +:+ "]"
  | JObj d => "{" +:+ join "," (map (λ '(k, w), json_string k +:+ ":" +:+ dump w) d) +:+ "}"
  end.

Definition dumps (v : json) : string := dump (sort_keys v).

End encode.

(** A separator of the enclosing container. *)
Definition is_delim (c : Ascii.ascii) : bool :=
  bool_decide (c = ","%char) || bool_decide (c = "]"%char) || bool_decide (c = "}"%char).

(** What a value's text starts with. *)
Inductive lead := L_null | L_true | L_false | L_number | L_string | L_list | L_object.

Definition lead_of (c : Ascii.ascii) : lead :=
  if bool_decide (c = "n"%char) then L_null else if bool_decide (c = "t"%char) then L_true
  else if bool_decide (c = "f"%char) then L_false else if bool_decide (c = quote2) then L_string
  else if bool_decide (c = "["%char) then L_list else if bool_decide (c = "{"%char) then L_object
  else L_number.

Definition number_text (s : string) : Prop :=
  (∃ c r, s = String c r ∧ lead_of c = L_number) ∧
  ∀ c, has_char c s = true → is_delim c = false.

(** [float.__repr__]: a number, and never the text of an integer. *)
Class FloatText (float_repr : pyfloat → string) : Prop := {
  float_number f : number_text (float_repr f);
  float_not_int f z : float_repr f ≠ dec z;
}.

(** ** Timestamps *)

(** Days since 1970-01-01 to year, month, day (proleptic Gregorian). *)
Definition civil (days : Z) : Z * Z * Z :=
  let z := days + 719468 in
  let era := z / 146097 in
  let doe := z mod 146097 in
  let yoe := (doe - doe / 1460 + doe / 36524 - doe / 146096) / 365 in
  let doy := doe - (365 * yoe + yoe / 4 - yoe / 100) in
  let mp := (5 * doy + 2) / 153 in
  let d := doy - (153 * mp + 2) / 5 + 1 in
  let m := if mp <? 10 then mp + 3 else mp - 9 in
  (yoe + era * 400 + (if m <=? 2 then 1 else 0), m, d).

(** The last [n] decimal digits of [z]. *)
Fixpoint digits_fixed (n : nat) (z : Z) (tail : string) : string :=
  match n with
  | O => tail
  | S k => digits_fixed k (z / 10) (String (hex_char (z mod 10)) tail)
  end.

(** An aware [datetime]: microseconds since the epoch, and the offset of its
    time zone in minutes. *)
Record datetime := { instant : Z; utc_offset : Z }.

Definition isoformat (t : datetime) : string :=
  let local := instant t + utc_offset t * 60000000 in
  let '(y, m, d) := civil (local / 86400000000) in
  let us := local mod 86400000000 in
  let o := Z.abs (utc_offset t) in
  digits_fixed 4 y "" +:+ "-" +:+ digits_fixed 2 m "" +:+ "-" +:+ digits_fixed 2 d "" +:+ "T" +:+
  digits_fixed 2 (us / 3600000000) "" +:+ ":" +:+ digits_fixed 2 (us / 60000000 mod 60) "" +:+ ":" +:+
  digits_fixed 2 (us / 1000000 mod 60) "" +:+
  (if us mod 1000000 =? 0 then "" else "." +:+ digits_fixed 6 (us mod 1000000) "") +:+
  (if utc_offset t <? 0 then "-" else "+") +:+
  digits_fixed 2 (o / 60) "" +:+ ":" +:+ digits_fixed 2 (o mod 60) "".

Example isoformat_ex : isoformat {| instant := 1709251199000001; utc_offset := 330 |} = "2024-03-01T05:29:59.000001+05:30".
Proof. vm_compute. reflexivity. Qed.

Example dumps_ex :
  dumps (λ _, "nan") (JObj [("b", JList [JInt (-3); JNull]); ("a", JStr "x")]) =
  "{" +:+ json_string "a" +:+ ":" +:+ json_string "x" +:+ "," +:+ json_string "b" +:+ ":[-3,null]}".
Proof. vm_compute. reflexivity. Qed.

(** ** The text determines the value *)

Section json_induction.
Context (P : json → Prop).
Context (Pnull : P JNull) (Pbool : ∀ b, P (JBool b)) (Pint : ∀ z, P (JInt z)) (Pfloat : ∀ f, P (JFloat f)).
Context (Pstr : ∀ s, P (JStr s)) (Plist : ∀ l, Forall P l → P (JList l)).
Context (Pobj : ∀ d, Forall (λ e, P e.2) d → P (JObj d)).

Fixpoint json_nested_ind (v : json) : P v :=
  match v with
  | JNull => Pnull
  | JBool b => Pbool b
  | JInt z => Pint z
  | JFloat f => Pfloat f
  | JStr s => Pstr s
  | JList l => Plist l ((fix go l : Forall P l :=
      match l with [] => Forall_nil_2 _ | x :: l' => Forall_cons_2 _ _ _ (json_nested_ind x) (go l') end) l)
  | JObj d => Pobj d ((fix go d : Forall (λ e, P e.2) d :=
      match d with [] => Forall_nil_2 _ | (k, x) :: d' => Forall_cons_2 _ (k, x) _ (json_nested_ind x) (go d') end) d)
  end.
End json_induction.

Lemma app_assoc_str (a b c : string) : (a +:+ b) +:+ c = a +:+ (b +:+ c).
Proof. induction a as [|x a IH]; [done|]. change (String x ((a +:+ b) +:+ c) = String x (a +:+ (b +:+ c))). by rewrite IH. Qed.

Lemma app_nil_str (a : string) : a +:+ "" = a.
Proof. induction a as [|x a IH]; [done|]. change (String x (a +:+ "") = String x a). by rewrite IH. Qed.

Lemma has_char_app c (a b : string) : has_char c (a +:+ b) = has_char c a || has_char c b.
Proof.
  induction a as [|x a IH]; [done|].
  change (bool_decide (x = c) || has_char c (a +:+ b) = bool_decide (x = c) || has_char c a || has_char c b) ||
  change (bool_decide (c = x) || has_char c (a +:+ b) = bool_decide (c = x) || has_char c a || has_char c b).
  by rewrite IH, orb_assoc.
Qed.

(** Reading one escaped character back. *)
Definition hex_value (c : Ascii.ascii) : Z := default 0 (digit_of c).

Definition unescape (s : string) : option (Ascii.ascii * string) :=
  match s with
  | String c (String e r) =>
      if bool_decide (c = backslash) then
        if bool_decide (e = "b"%char) then Some (Ascii.ascii_of_N 8, r)
        else if bool_decide (e = "t"%char) then Some (Ascii.ascii_of_N 9, r)
        else if bool_decide (e = "n"%char) then Some (Ascii.ascii_of_N 10, r)
        else if bool_decide (e = "f"%char) then Some (Ascii.ascii_of_N 12, r)
        else if bool_decide (e = "r"%char) then Some (Ascii.ascii_of_N 13, r)
        else if bool_decide (e = "u"%char) then
          match r with
          | String _ (String _ (String h (String l r'))) =>
              Some (Ascii.ascii_of_N (Z.to_N (hex_value h * 16 + hex_value l)), r')
          | _ => None
          end
        else Some (e, r)
      else Some (c, String e r)
  | _ => None
  end.

Lemma unescape_json_char c x r : unescape (json_char c +:+ String x r) = Some (c, String x r).
Proof. destruct c as [[] [] [] [] [] [] [] []]; vm_compute; reflexivity. Qed.

Lemma json_char_first c : ∃ a r, json_char c = String a r ∧ a ≠ quote2.
Proof. destruct c as [[] [] [] [] [] [] [] []]; vm_compute; eexists _, _; (split; [reflexivity|done]). Qed.

Lemma json_chars_nonempty a r : ∃ x r', json_chars a +:+ String quote2 r = String x r'.
Proof.
  destruct a as [|c a]; [by eexists _, _|]. cbn [json_chars].
  destruct (json_char_first c) as (x & r' & -> & _). by eexists _, _.
Qed.

Lemma json_chars_inj a b r r' :
  json_chars a +:+ String quote2 r = json_chars b +:+ String quote2 r' → a = b ∧ r = r'.
Proof.
  revert b. induction a as [|c a IH]; intros [|d b] H; cbn [json_chars] in H.
  - change (String quote2 r = String quote2 r') in H. by injection H.
  - destruct (json_char_first d) as (x & y & E & Hx). rewrite E in H. injection H as H _. by destruct Hx.
  - destruct (json_char_first c) as (x & y & E & Hx). rewrite E in H. injection H as H _. by destruct Hx.
  - rewrite !app_assoc_str in H.
    destruct (json_chars_nonempty a r) as (x & y & E), (json_chars_nonempty b r') as (x' & y' & E').
    rewrite E, E' in H. apply (f_equal unescape) in H. rewrite !unescape_json_char in H.
    injection H as -> -> ->. destruct (IH b) as [-> ->]; [by rewrite E, E'|done].
Qed.

Lemma json_string_inj a b r r' : json_string a +:+ r = json_string b +:+ r' → a = b ∧ r = r'.
Proof.
  unfold json_string. intros H. injection H as H. rewrite !app_assoc_str in H. by apply json_chars_inj in H.
Qed.

(** *** Numbers *)

Definition delimited (s : string) : Prop := s = "" ∨ ∃ c r, s = String c r ∧ is_delim c = true.

Lemma undelimited_inj u v s t :
  (∀ c, has_char c u = true → is_delim c = false) → (∀ c, has_char c v = true → is_delim c = false) →
  delimited s → delimited t → u +:+ s = v +:+ t → u = v ∧ s = t.
Proof.
  revert v. induction u as [|c u IH]; intros [|d v] Hu Hv Hs Ht H.
  - done.
  - destruct Hs as [->|(x & y & -> & Hx)]; [done|]. injection H as -> _.
    rewrite (Hv d) in Hx; [done|]. cbn [has_char]. by rewrite bool_decide_true.
  - destruct Ht as [->|(x & y & -> & Hx)]; [done|]. injection H as -> _.
    rewrite (Hu x) in Hx; [done|]. cbn [has_char]. by rewrite bool_decide_true.
  - injection H as -> H. destruct (IH v) as [-> ->]; try done.
    + intros c Hc. apply Hu. cbn [has_char]. rewrite Hc. by rewrite orb_true_r.
    + intros c Hc. apply Hv. cbn [has_char]. rewrite Hc. by rewrite orb_true_r.
Qed.

Definition digit_char (c : Ascii.ascii) : Prop :=
  lead_of c = L_number ∧ is_delim c = false ∧ (48 <= code c <= 57 ∨ code c = 45).

Lemma pretty_N_char_digit n : digit_char (pretty_N_char n).
Proof. unfold pretty_N_char. repeat case_match; (split_and!; [done..|left; vm_compute; split; discriminate]). Qed.

Lemma pretty_N_go_chars n s :
  (∀ c, has_char c s = true → digit_char c) → ∀ c, has_char c (pretty_N_go n s) = true → digit_char c.
Proof.
  revert s. induction (N.lt_wf_0 n) as [n _ IH]; intros s Hs c Hc.
  destruct (decide (n = 0)%N) as [->|Hn]; [by apply Hs|].
  rewrite pretty_N_go_step in Hc by lia.
  apply (IH (n `div` 10)%N) in Hc; [done|by apply N.div_lt; lia|].
  intros d Hd. cbn [has_char] in Hd. apply orb_true_iff in Hd as [Hd|Hd]; [|by apply Hs].
  apply bool_decide_eq_true in Hd as <-. apply pretty_N_char_digit.
Qed.

Lemma pretty_N_chars (n : N) c : has_char c (pretty n) = true → digit_char c.
Proof.
  unfold pretty, pretty_N. case_decide; [|by apply pretty_N_go_chars].
  cbn. rewrite orb_false_r. intros <-%bool_decide_eq_true. split_and!; [done..|left; vm_compute; split; discriminate].
Qed.

Lemma dec_chars z c : has_char c (dec z) = true → digit_char c.
Proof.
  unfold dec, pretty, pretty_Z. destruct z; [| |].
  - cbn. rewrite orb_false_r. intros <-%bool_decide_eq_true. split_and!; [done..|left; vm_compute; split; discriminate].
  - apply pretty_N_chars.
  - cbn [has_char]. change ("-" +:+ pretty (N.pos p)) with (String "-"%char (pretty (N.pos p))).
    cbn [has_char]. intros [<-%bool_decide_eq_true|H]%orb_true_iff; [split_and!; [done..|by right]|by apply pretty_N_chars in H].
Qed.

Lemma dec_digits z c : has_char c (dec z) = true → 48 <= code c <= 57 ∨ code c = 45.
Proof. by intros (_ & _ & ?)%dec_chars. Qed.

Lemma pretty_N_go_length n s : (String.length s ≤ String.length (pretty_N_go n s))%nat.
Proof.
  revert s. induction (N.lt_wf_0 n) as [n _ IH]; intros s.
  destruct (decide (n = 0)%N) as [->|Hn]; [done|]. rewrite pretty_N_go_step by lia.
  etrans; [|apply IH, N.div_lt; lia]. cbn [String.length]. lia.
Qed.

Lemma pretty_pos_nonempty p : pretty (N.pos p) ≠ "".
Proof.
  unfold pretty, pretty_N. rewrite decide_False by done. rewrite pretty_N_go_step by done.
  intros H. pose proof (pretty_N_go_length (N.pos p `div` 10) (String (pretty_N_char (N.pos p `mod` 10)) "")) as Hl.
  rewrite H in Hl. cbn in Hl. lia.
Qed.

Lemma dec_number z : number_text (dec z).
Proof.
  split; [|by intros c (_ & ? & _)%dec_chars].
  assert (dec z ≠ "") as Hne.
  { unfold dec, pretty, pretty_Z. destruct z; [done|apply pretty_pos_nonempty|done]. }
  destruct (dec z) as [|c r] eqn:E; [done|]. exists c, r. split; [done|].
  apply (dec_chars z). rewrite E. cbn [has_char]. by rewrite bool_decide_true.
Qed.

(** *** Values *)

Section inj.
Context (float_repr : pyfloat → string) {HF : FloatText float_repr}.

(** Equal up to floats with one text. *)
Inductive alike : json → json → Prop :=
| alike_null : alike JNull JNull
| alike_bool b : alike (JBool b) (JBool b)
| alike_int z : alike (JInt z) (JInt z)
| alike_float f g : float_repr f = float_repr g → alike (JFloat f) (JFloat g)
| alike_str s : alike (JStr s) (JStr s)
| alike_list l l' : Forall2 alike l l' → alike (JList l) (JList l')
| alike_obj d d' : Forall2 (λ e e', e.1 = e'.1 ∧ alike e.2 e'.2) d d' → alike (JObj d) (JObj d').

Lemma alike_str_inv a b : alike (JStr a) (JStr b) → a = b.
Proof. by inversion 1. Qed.

Definition kind (v : json) : lead :=
  match v with
  | JNull => L_null | JBool true => L_true | JBool false => L_false
  | JInt _ | JFloat _ => L_number | JStr _ => L_string | JList _ => L_list | JObj _ => L_object
  end.

Lemma dump_lead v : ∃ c r, dump float_repr v = String c r ∧ lead_of c = kind v.
Proof.
  destruct v as [|[]|z|f|s|l|d]; cbn [dump kind].
  1-3: by eexists _, _.
  - apply dec_number.
  - apply (float_number f).
  - by eexists _, _.
  - by eexists _, _.
  - by eexists _, _.
Qed.

Lemma lead_eq v w s t : dump float_repr v +:+ s = dump float_repr w +:+ t → kind v = kind w.
Proof.
  destruct (dump_lead v) as (c & r & -> & <-), (dump_lead w) as (d & r' & -> & <-). intros H. by injection H as ->.
Qed.

(** The rest of a container's text, after one of its elements. *)
Fixpoint items_tail {A} (f : A → string) (close : string) (l : list A) : string :=
  match l with [] => close | x :: l' => "," +:+ f x +:+ items_tail f close l' end.

Lemma join_tail {A} (f : A → string) close x l :
  join "," (map f (x :: l)) +:+ close = f x +:+ items_tail f close l.
Proof.
  revert x. induction l as [|y l IH]; intros x; [done|].
  change (join "," (map f (x :: y :: l))) with (f x +:+ "," +:+ join "," (map f (y :: l))).
  rewrite !app_assoc_str, IH. done.
Qed.

Lemma items_tail_delimited {A} (f : A → string) c s l :
  is_delim c = true → delimited (items_tail f (String c s) l).
Proof. intros Hc. right. destruct l as [|x l]; eexists _, _; done. Qed.

(** A container is determined by its text if its elements are. *)
Lemma tail_inj {A} (R : A → A → Prop) (f : A → string) c s t l l' :
  is_delim c = true → c ≠ ","%char →
  Forall (λ x, ∀ y s t, delimited s → delimited t → f x +:+ s = f y +:+ t → R x y ∧ s = t) l →
  items_tail f (String c s) l = items_tail f (String c t) l' → Forall2 R l l' ∧ s = t.
Proof.
  intros Hc Hne Hf. revert l'. induction Hf as [|x l Hx Hl IH]; intros [|y l'] H; cbn [items_tail] in H.
  - injection H as ->. by split; [constructor|].
  - injection H as H _. congruence.
  - injection H as H _. congruence.
  - injection H as H. apply Hx in H as [Hr H]; [|by apply items_tail_delimited..].
    apply IH in H as [? ->]. by split; [constructor|].
Qed.

(** No element starts with a separator, so an empty container is told apart. *)
Lemma container_inj {A} (R : A → A → Prop) (f : A → string) c s t l l' :
  is_delim c = true → c ≠ ","%char →
  (∀ x, ∃ a r, f x = String a r ∧ is_delim a = false) →
  Forall (λ x, ∀ y s t, delimited s → delimited t → f x +:+ s = f y +:+ t → R x y ∧ s = t) l →
  join "," (map f l) +:+ String c s = join "," (map f l') +:+ String c t → Forall2 R l l' ∧ s = t.
Proof.
  intros Hc Hne Hfirst Hf H. destruct l as [|x l], l' as [|y l'].
  - injection H as ->. by split; [constructor|].
  - rewrite join_tail in H. destruct (Hfirst y) as (a & r & E & Ha). rewrite E in H. injection H as -> _. congruence.
  - rewrite join_tail in H. destruct (Hfirst x) as (a & r & E & Ha). rewrite E in H. injection H as -> _. congruence.
  - rewrite !join_tail in H. inversion Hf as [|? ? Hx Hl]; subst.
    apply Hx in H as [Hr H]; [|by apply items_tail_delimited..].
    apply (tail_inj R) in H as [? ->]; try done. by split; [constructor|].
Qed.

Lemma dump_first v : ∃ c r, dump float_repr v = String c r ∧ is_delim c = false.
Proof.
  assert (∀ s, number_text s → ∃ c r, s = String c r ∧ is_delim c = false) as Hnum.
  { intros s ((c & r & -> & _) & Hd). exists c, r. split; [done|]. apply Hd. cbn [has_char]. by rewrite bool_decide_true. }
  destruct v as [|[]|z|f|s|l|d]; cbn [dump]; try by eexists _, _.
  - apply Hnum, dec_number.
  - apply Hnum, (float_number f).
Qed.

Lemma number_inj u v s t :
  number_text u → number_text v → delimited s → delimited t → u +:+ s = v +:+ t → u = v ∧ s = t.
Proof. intros [_ Hu] [_ Hv]. by apply undelimited_inj. Qed.

Lemma dec_inj z z' : dec z = dec z' → z = z'.
Proof. apply (inj (pretty : Z → string)). Qed.

Lemma dump_prefix v w s t :
  delimited s → delimited t → dump float_repr v +:+ s = dump float_repr w +:+ t → alike v w ∧ s = t.
Proof.
  revert w s t. induction v as [|b|z|f|x|l IH|d IH] using json_nested_ind; intros w s t Hs Ht H;
    pose proof (lead_eq _ _ _ _ H) as Hk; cbn [dump kind] in H, Hk.
  - destruct w as [|[]| | | | |]; try done. apply (inj (String.append _)) in H as ->. split; [constructor|done].
  - destruct b, w as [|[]| | | | |]; try done; apply (inj (String.append _)) in H as ->; (split; [constructor|done]).
  - destruct w as [|[]|z'|g| | |]; try done; cbn [dump] in H.
    + apply number_inj in H as [Hz ->]; [|by try apply dec_number..]. apply dec_inj in Hz as ->. split; [constructor|done].
    + apply number_inj in H as [Hz ->]; [|by try apply dec_number; try apply float_number..].
      by destruct (float_not_int g z).
  - destruct w as [|[]|z'|g| | |]; try done; cbn [dump] in H.
    + apply number_inj in H as [Hz ->]; [|by try apply dec_number; try apply float_number..].
      by destruct (float_not_int f z').
    + apply number_inj in H as [Hz ->]; [|by try apply float_number..]. split; [by constructor|done].
  - destruct w as [|[]| | |y| |]; try done. cbn [dump] in H. apply json_string_inj in H as [-> ->]. split; [constructor|done].
  - destruct w as [|[]| | | |l'|]; try done. cbn [dump] in H. injection H as H. rewrite !app_assoc_str in H.
    apply (container_inj alike) in H as [? ->]; try done; [by split; [constructor|]|apply dump_first].
  - destruct w as [|[]| | | | |d']; try done. cbn [dump] in H. injection H as H. rewrite !app_assoc_str in H.
    apply (container_inj (λ e e', e.1 = e'.1 ∧ alike e.2 e'.2)) in H as [? ->]; try done.
    + by split; [constructor|].
    + intros [k x]. by eexists _, _.
    + apply (Forall_impl _ _ _ IH). intros [k x] Hx [k' y] s' t' Hs' Ht' E. rewrite !app_assoc_str in E.
      apply json_string_inj in E as [-> E]. injection E as E. by apply Hx in E as [? ->].
Qed.

Lemma dump_inj v w : dump float_repr v = dump float_repr w → alike v w.
Proof.
  intros H. apply (dump_prefix v w "" ""); [by left|by left|by rewrite H].
Qed.

Lemma dumps_inj v w : dumps float_repr v = dumps float_repr w → alike (sort_keys v) (sort_keys w).
Proof. apply dump_inj. Qed.

End inj.

End PyJson.
