(* ===== verification/PyText.v ===== *)
(** * Splitting text, and reading numbers back

    [str.split(sep)] and [str.partition(sep)] for a one-character separator,
    and the facts that make a formatted message readable again: [strip] leaves
    text without white space alone, and [int(str(n))] is [n].  Last, the result of a command. *)

From S2P Require Import Prelude PyValue PyJson.
From Stdlib Require Import Ascii.
Import PyJson.

Module PyText.

(** [s.split(sep)] *)
Fixpoint split_on (sep : Ascii.ascii) (s : string) : list string :=
  match s with
  | EmptyString => [""]
  | String c s' =>
      if bool_decide (c = sep) then "" :: split_on sep s'
      else match split_on sep s' with w :: ws => String c w :: ws | [] => [String c ""] end
  end.

(** [s.partition(sep)]: what precedes the first separator, and what follows. *)
Fixpoint partition_on (sep : Ascii.ascii) (s : string) : option (string * string) :=
  match s with
  | EmptyString => None
  | String c s' =>
      if bool_decide (c = sep) then Some ("", s')
      else match partition_on sep s' with Some (a, b) => Some (String c a, b) | None => None end
  end.

(** No character of [s] satisfies [p]. *)
Definition lacks (p : Ascii.ascii → bool) (s : string) : Prop := ∀ c, has_char c s = true → p c = false.

Lemma lacks_cons p c s : lacks p (String c s) ↔ p c = false ∧ lacks p s.
Proof.
  split.
  - intros H. split; [apply H; cbn; by rewrite bool_decide_true|].
    intros d Hd. apply H. cbn. by rewrite Hd, orb_true_r.
  - intros [Hc H] d [<-%bool_decide_eq_true|Hd]%orb_true_iff; [done|by apply H].
Qed.

Lemma lacks_char c s : has_char c s = false → lacks (λ d, bool_decide (d = c)) s.
Proof. intros H d Hd. apply bool_decide_eq_false. congruence. Qed.

Lemma lacks_app p a b : lacks p a → lacks p b → lacks p (a +:+ b).
Proof. intros Ha Hb c. rewrite has_char_app. intros [H|H]%orb_true_iff; auto. Qed.

Lemma append_cons c (a b : string) : String c a +:+ b = String c (a +:+ b).
Proof. reflexivity. Qed.

Lemma string_length_app (a b : string) : String.length (a +:+ b) = (String.length a + String.length b)%nat.
Proof. induction a as [|c a IH]; [done|]. rewrite append_cons. cbn. by rewrite IH. Qed.

Lemma string_app_assoc (a b c : string) : (a +:+ b) +:+ c = a +:+ b +:+ c.
Proof. induction a as [|x a IH]; [done|]. rewrite !append_cons. by rewrite IH. Qed.

Lemma append_nil (b : string) : "" +:+ b = b.
Proof. reflexivity. Qed.

Lemma split_on_app sep a b :
  lacks (λ d, bool_decide (d = sep)) a → split_on sep (a +:+ String sep b) = a :: split_on sep b.
Proof.
  induction a as [|c a IH]; intros H.
  - rewrite append_nil. cbn. by rewrite bool_decide_true.
  - apply lacks_cons in H as [Hc H]. rewrite append_cons. cbn. rewrite Hc. by rewrite IH.
Qed.

Lemma split_on_single sep a : lacks (λ d, bool_decide (d = sep)) a → split_on sep a = [a].
Proof.
  induction a as [|c a IH]; intros H; cbn; [done|]. apply lacks_cons in H as [Hc H]. rewrite Hc. by rewrite IH.
Qed.

Lemma partition_on_app sep a b :
  lacks (λ d, bool_decide (d = sep)) a → partition_on sep (a +:+ String sep b) = Some (a, b).
Proof.
  induction a as [|c a IH]; intros H.
  - rewrite append_nil. cbn. by rewrite bool_decide_true.
  - apply lacks_cons in H as [Hc H]. rewrite append_cons. cbn. rewrite Hc. by rewrite IH.
Qed.

Lemma has_char_partition sep s : has_char sep s = true → is_Some (partition_on sep s).
Proof.
  induction s as [|c s IH]; [done|]. cbn. case_bool_decide; [done|].
  cbn. intros [[a b] ->]%IH. by eexists.
Qed.

(** *** [strip] *)

Lemma lstrip_lacks p s : lacks p s → lstrip_by p s = s.
Proof. destruct s as [|c s]; [done|]. intros [Hc _]%lacks_cons. cbn. by rewrite Hc. Qed.

Lemma rstrip_lacks p s : lacks p s → rstrip_by p s = s.
Proof.
  induction s as [|c s IH]; [done|]. intros [Hc H]%lacks_cons. cbn. rewrite IH by done.
  destruct s; [by rewrite Hc|done].
Qed.

Lemma strip_lacks s : lacks is_space s → strip s = s.
Proof. intros H. unfold strip, strip_by. by rewrite lstrip_lacks, rstrip_lacks. Qed.

(** *** Decimal numbers *)

Lemma dec_no_space z : lacks is_space (dec z).
Proof. intros c [H|H]%dec_digits; unfold is_space; lia. Qed.

Lemma pretty_N_char_digit_of n : (n < 10)%N → digit_of (pretty_N_char n) = Some (Z.of_N n).
Proof.
  intros H. assert (n = 0 ∨ n = 1 ∨ n = 2 ∨ n = 3 ∨ n = 4 ∨ n = 5 ∨ n = 6 ∨ n = 7 ∨ n = 8 ∨ n = 9)%N as Hn by lia.
  repeat (destruct Hn as [->|Hn]; [reflexivity|]). subst. reflexivity.
Qed.

Lemma pretty_N_char_not_underscore n : pretty_N_char n ≠ "_"%char.
Proof. unfold pretty_N_char. by repeat case_match. Qed.

Lemma digits_char n s acc us :
  (n < 10)%N → digits 10 (String (pretty_N_char n) s) acc us = digits 10 s (acc * 10 + Z.of_N n) false.
Proof.
  intros H. cbn [digits]. rewrite bool_decide_false by apply pretty_N_char_not_underscore.
  rewrite pretty_N_char_digit_of by done. assert (Z.of_N n <? 10 = true) as -> by lia. done.
Qed.

Lemma digits_pretty n s :
  (0 < n)%N → ∃ k, 0 ≤ k ∧ ∀ acc us, digits 10 (pretty_N_go n s) acc us = digits 10 s (acc * 10 ^ k + Z.of_N n) false.
Proof.
  revert s. induction (N.lt_wf_0 n) as [n _ IH]; intros s Hn. rewrite pretty_N_go_step by done.
  assert (n = 10 * (n `div` 10) + n `mod` 10)%N as E by (apply N.div_mod; lia).
  assert (n `mod` 10 < 10)%N as Hm by (apply N.mod_lt; lia).
  destruct (decide (n `div` 10 = 0)%N) as [E0|Hd].
  - exists 1. split; [lia|]. intros acc us. rewrite E0, pretty_N_go_0, digits_char by done. f_equal. lia.
  - destruct (IH (n `div` 10)%N ltac:(apply N.div_lt; lia) (String (pretty_N_char (n `mod` 10)) s) ltac:(lia)) as (k & Hk & H).
    exists (k + 1). split; [lia|]. intros acc us. rewrite H, digits_char by done. f_equal.
    rewrite Z.pow_add_r, Z.pow_1_r by lia. lia.
Qed.

Lemma parse_pos p : digits 10 (pretty (N.pos p)) 0 true = Some (Z.pos p).
Proof.
  unfold pretty, pretty_N. rewrite decide_False by done. by destruct (digits_pretty (N.pos p) "") as (k & _ & ->).
Qed.

Lemma unsigned_pos p : unsigned_int 10 (pretty (N.pos p)) = Some (Z.pos p).
Proof.
  unfold unsigned_int. destruct (pretty (N.pos p)) as [|a [|b s]] eqn:E.
  - by destruct (pretty_pos_nonempty p).
  - rewrite <-E. apply parse_pos.
  - cbn [Z.eqb Pos.eqb andb]. rewrite <-E. apply parse_pos.
Qed.

(** [int(str(n)) == n] *)
Lemma parse_int_dec z : parse_int 10 (dec z) = Some z.
Proof.
  unfold parse_int. rewrite strip_lacks by apply dec_no_space. destruct z as [|p|p]; [done| |].
  - destruct (dec (Z.pos p)) as [|c s] eqn:E; [by destruct (pretty_pos_nonempty p)|].
    pose proof (dec_digits (Z.pos p) c) as Hc. rewrite E in Hc. cbn in Hc. rewrite bool_decide_true in Hc by done.
    assert (c ≠ "-"%char) as Hm.
    { intros ->. by destruct (pretty_N_go_ne_dash (N.pos p) "" s). }
    rewrite bool_decide_false by done. rewrite bool_decide_false.
    + rewrite <-E. apply unsigned_pos.
    + intros ->. vm_compute in Hc. intuition congruence.
  - change (dec (Z.neg p)) with (String "-"%char (pretty (N.pos p))). cbn [parse_int].
    rewrite bool_decide_true by done. by rewrite unsigned_pos.
Qed.

(** What [subprocess.run] returns, the standard error apart. *)
Record completed := { returncode : Z; stdout : string }.

Definition succeeded (r : completed) : bool := returncode r =? 0.

End PyText.
