(* ===== verification/Session.v ===== *)
(** * Database sessions

    Every service handler receives an [AsyncSession]: it reads and writes a
    working copy of its database, and nothing is durable until [db.commit()].
    A handler that raises before committing leaves the database as it was
    (FastAPI closes the session, which rolls back), and one that commits and
    then raises does not.  The state and error monad below keeps the committed
    and the working copy apart so that each handler can be written in the order
    of the source, and [run] returns what the next request will see.

    Whether a commit succeeds is decided by the database (constraints, column
    widths, connectivity): it is an argument [fault : D → option string] of the
    handlers, returning the text of the exception, and no theorem depends on a
    particular choice unless it says so. *)

From S2P Require Import Prelude PyValue.

(** ** Exceptions that leave a handler *)

Inductive exn :=
| Http (status : Z) (detail : string)   (** [HTTPException] *)
| Raised (what : string).                (** any other exception *)

(** The status the framework answers with. *)
Definition status_of (e : exn) : Z :=
  match e with Http s _ => s | Raised _ => 500 end.

(** ** The monad *)

Record session (D : Type) := Session { committed : D; working : D }.
Arguments Session {_} _ _.
Arguments committed {_} _.
Arguments working {_} _.

Definition M (D A : Type) : Type := session D → session D * (exn + A).

Section ops.
Context {D : Type}.

Definition ret {A} (a : A) : M D A := λ s, (s, inr a).

Definition bind {A B} (m : M D A) (k : A → M D B) : M D B :=
  λ s, match m s with
       | (s', inr a) => k a s'
       | (s', inl e) => (s', inl e)
       end.

Definition raise {A} (e : exn) : M D A := λ s, (s, inl e).

(** A query over the working copy. *)
Definition query {A} (f : D → A) : M D A := λ s, (s, inr (f (working s))).

(** A statement, or pending changes of the unit of work. *)
Definition exec (g : D → D) : M D unit :=
  λ s, (Session (committed s) (g (working s)), inr tt).

(** [await db.rollback()] *)
Definition rollback : M D unit :=
  λ s, (Session (committed s) (committed s), inr tt).

(** [try: await db.commit() except Exception as e: await db.rollback()],
    returning the exception's text when there was one. *)
Definition try_commit (fault : D → option string) : M D (option string) :=
  λ s, match fault (working s) with
       | None => (Session (working s) (working s), inr None)
       | Some e => (Session (committed s) (committed s), inr (Some e))
       end.

(** ... followed by [raise HTTPException(status_code=500, detail=str(e))]. *)
Definition commit (fault : D → option string) : M D unit :=
  bind (try_commit fault)
       (λ r, match r with None => ret tt | Some e => raise (Http 500 e) end).

Fixpoint for_each {A} (l : list A) (body : A → M D unit) : M D unit :=
  match l with
  | [] => ret tt
  | x :: l' => bind (body x) (λ _, for_each l' body)
  end.

Fixpoint fold_each {A B} (l : list A) (acc : B) (body : B → A → M D B) : M D B :=
  match l with
  | [] => ret acc
  | x :: l' => bind (body acc x) (λ acc', fold_each l' acc' body)
  end.

(** A whole request: open a session on [d], run the handler, close it. *)
Definition run {A} (m : M D A) (d : D) : D * (exn + A) :=
  match m (Session d d) with (s, r) => (committed s, r) end.
End ops.

Declare Scope sess_scope.
Delimit Scope sess_scope with sess.
Notation "x <- c ;; k" := (bind c (λ x, k))
  (at level 100, c at next level, right associativity) : sess_scope.
Notation "' p <- c ;; k" := (bind c (λ x, match x with p => k end))
  (at level 100, p pattern, c at next level, right associativity) : sess_scope.
Notation "c ;;; k" := (bind c (λ _, k))
  (at level 100, right associativity) : sess_scope.
#[global] Open Scope sess_scope.

(** The HTTP status a request is answered with when success is [ok]. *)
Definition answered {A} (ok : Z) (r : exn + A) : Z :=
  match r with inl e => status_of e | inr _ => ok end.

(** ** Rows every service has *)

Record OutboxMessage := {
  aggregate_type : string;
  aggregate_id : string;
  msg_type : string;
  payload : list (string * json);
  msg_created_at : Z;
}.

(** [idempotency_keys]: key and the id of the stored result. *)
Definition key_table := list (string * option string).

(** ** Monad laws and the shape of runs *)

Section laws.
Context {D : Type}.

Lemma bind_ret {A B} (a : A) (k : A → M D B) s : bind (ret a) k s = k a s.
Proof. reflexivity. Qed.

Lemma bind_query {A B} (f : D → A) (k : A → M D B) s : bind (query f) k s = k (f (working s)) s.
Proof. reflexivity. Qed.

Lemma bind_exec {B} g (k : unit → M D B) s :
  bind (exec g) k s = k tt (Session (committed s) (g (working s))).
Proof. reflexivity. Qed.

Lemma bind_raise {A B} e (k : A → M D B) s : bind (raise e) k s = (s, inl e).
Proof. reflexivity. Qed.

Lemma bind_rollback {B} (k : unit → M D B) s :
  bind rollback k s = k tt (Session (committed s) (committed s)).
Proof. reflexivity. Qed.

Lemma bind_commit {B} fault (k : unit → M D B) s :
  bind (commit fault) k s =
    match fault (working s) with
    | None => k tt (Session (working s) (working s))
    | Some e => (Session (committed s) (committed s), inl (Http 500 e))
    end.
Proof. unfold commit, bind, try_commit. by destruct (fault (working s)). Qed.

Lemma bind_try_commit {B} fault (k : option string → M D B) s :
  bind (try_commit fault) k s =
    match fault (working s) with
    | None => k None (Session (working s) (working s))
    | Some e => k (Some e) (Session (committed s) (committed s))
    end.
Proof. unfold bind, try_commit. by destruct (fault (working s)). Qed.

Lemma bind_assoc {A B C} (m : M D A) (f : A → M D B) (g : B → M D C) s :
  bind (bind m f) g s = bind m (λ a, bind (f a) g) s.
Proof. unfold bind. by destruct (m s) as [? []]. Qed.

(** One step of a computation whose outcome is known. *)
Lemma bind_inr_eq {A B} (m : M D A) (k : A → M D B) s s' a : m s = (s', inr a) → bind m k s = k a s'.
Proof. unfold bind. by intros ->. Qed.

Lemma bind_inl_eq {A B} (m : M D A) (k : A → M D B) s s' e : m s = (s', inl e) → bind m k s = (s', inl e).
Proof. unfold bind. by intros ->. Qed.

(** Committed data only changes through a commit: a computation that never
    commits leaves it alone, whatever it answers. *)
Definition uncommitting {A} (m : M D A) : Prop :=
  ∀ s, committed (m s).1 = committed s.

Lemma uncommitting_bind {A B} (m : M D A) (k : A → M D B) :
  uncommitting m → (∀ a, uncommitting (k a)) → uncommitting (bind m k).
Proof.
  intros Hm Hk s. unfold bind. specialize (Hm s).
  destruct (m s) as [s' [e|a]]; simpl in *; [done|]. by rewrite (Hk a s').
Qed.

Lemma uncommitting_ret {A} (a : A) : uncommitting (ret a).
Proof. done. Qed.
Lemma uncommitting_raise {A} e : uncommitting (raise (A := A) e).
Proof. done. Qed.
Lemma uncommitting_query {A} (f : D → A) : uncommitting (query f).
Proof. done. Qed.
Lemma uncommitting_exec g : uncommitting (exec g).
Proof. done. Qed.
Lemma uncommitting_rollback : uncommitting rollback.
Proof. done. Qed.

Lemma uncommitting_fold {A B} (l : list A) (body : B → A → M D B) :
  (∀ acc x, uncommitting (body acc x)) → ∀ acc, uncommitting (fold_each l acc body).
Proof.
  intros Hb. induction l as [|x l IH]; intros acc; [done|].
  apply uncommitting_bind; [apply Hb|apply IH].
Qed.

Lemma run_uncommitting {A} (m : M D A) d : uncommitting m → (run m d).1 = d.
Proof. intros H. unfold run. specialize (H (Session d d)). by destruct (m _). Qed.

(** A computation is atomic when an error answer means nothing was committed. *)
Definition atomic {A} (m : M D A) : Prop :=
  ∀ s, match m s with (s', inl _) => committed s' = committed s | _ => True end.

Definition total {A} (m : M D A) : Prop := ∀ s, ∃ a, (m s).2 = inr a.

Lemma atomic_uncommitting {A} (m : M D A) : uncommitting m → atomic m.
Proof. intros H s. specialize (H s). by destruct (m s) as [? []]. Qed.

Lemma atomic_bind {A B} (m : M D A) (k : A → M D B) :
  uncommitting m → (∀ a, atomic (k a)) → atomic (bind m k).
Proof.
  intros Hm Hk s. unfold bind. specialize (Hm s).
  destruct (m s) as [s' [e|a]]; simpl in *; [done|]. specialize (Hk a s').
  by destruct (k a s') as [? []]; [rewrite Hk|].
Qed.

Lemma atomic_commit_ret {A} fault (a : A) : atomic (bind (commit fault) (λ _, ret a)).
Proof.
  intros s. unfold bind, commit, try_commit, bind. by destruct (fault (working s)).
Qed.

Lemma uncommitting_for {A} (l : list A) (body : A → M D unit) :
  (∀ x, uncommitting (body x)) → uncommitting (for_each l body).
Proof.
  intros Hb. induction l as [|x l IH]; [done|].
  apply uncommitting_bind; [apply Hb|]. intros _. apply IH.
Qed.

(** A computation that succeeds did so step by step. *)
Lemma bind_inr {A B} (m : M D A) (k : A → M D B) s s' b :
  bind m k s = (s', inr b) → ∃ s1 a, m s = (s1, inr a) ∧ k a s1 = (s', inr b).
Proof. unfold bind. destruct (m s) as [s1 [e|a]]; [done|]. eauto. Qed.

Lemma commit_inr (fault : D → option string) (s s' : session D) :
  commit fault s = (s', inr tt) →
  fault (working s) = None ∧ s' = Session (working s) (working s).
Proof.
  unfold commit, bind, try_commit. destruct (fault (working s)); [done|].
  intros H. injection H as <-. done.
Qed.

(** A projection of the working copy that a computation does not touch. *)
Definition preserves {A B} (f : D → B) (m : M D A) : Prop :=
  ∀ s, f (working (m s).1) = f (working s).

Lemma preserves_bind {A B C} (f : D → C) (m : M D A) (k : A → M D B) :
  preserves f m → (∀ a, preserves f (k a)) → preserves f (bind m k).
Proof.
  intros Hm Hk s. unfold bind. specialize (Hm s).
  destruct (m s) as [s' [e|a]]; simpl in *; [done|]. by rewrite (Hk a s').
Qed.

Lemma preserves_for {A C} (f : D → C) (l : list A) (body : A → M D unit) :
  (∀ x, preserves f (body x)) → preserves f (for_each l body).
Proof.
  intros Hb. induction l as [|x l IH]; [done|]. apply preserves_bind; [apply Hb|]. intros _. apply IH.
Qed.

Lemma preserves_exec {C} (f : D → C) g : (∀ d, f (g d) = f d) → preserves f (exec g).
Proof. intros H s. apply H. Qed.

Lemma preserves_ret {A C} (f : D → C) (a : A) : preserves f (ret a).
Proof. done. Qed.
Lemma preserves_raise {A C} (f : D → C) e : preserves f (raise (A := A) e).
Proof. done. Qed.
Lemma preserves_query {A C} (f : D → C) (h : D → A) : preserves f (query h).
Proof. done. Qed.

Lemma preserves_eq {A C} (f : D → C) (m : M D A) s s' r :
  preserves f m → m s = (s', r) → f (working s') = f (working s).
Proof. intros H E. specialize (H s). by rewrite E in H. Qed.

(** Every exception a computation can raise satisfies [P]. *)
Definition raises_only {A} (P : exn → Prop) (m : M D A) : Prop :=
  ∀ s s' e, m s = (s', inl e) → P e.

Lemma raises_only_bind {A B} P (m : M D A) (k : A → M D B) :
  raises_only P m → (∀ a, raises_only P (k a)) → raises_only P (bind m k).
Proof.
  intros Hm Hk s s' e. unfold bind. destruct (m s) as [s1 [e1|a]] eqn:E.
  - intros H. simplify_eq. by eapply Hm.
  - apply Hk.
Qed.

Lemma raises_only_ret {A} P (a : A) : raises_only P (ret a).
Proof. done. Qed.
Lemma raises_only_raise {A} (P : exn → Prop) e : P e → raises_only P (raise (A := A) e).
Proof. intros He s s' e' H. unfold raise in H. by simplify_eq. Qed.
Lemma raises_only_query {A} P (f : D → A) : raises_only P (query f).
Proof. done. Qed.
Lemma raises_only_exec P g : raises_only P (exec g).
Proof. done. Qed.
Lemma raises_only_rollback P : raises_only P rollback.
Proof. done. Qed.

Lemma raises_only_commit (P : exn → Prop) fault : (∀ e, P (Http 500 e)) → raises_only P (commit fault).
Proof.
  intros He s s' e. unfold commit, bind, try_commit, raise, ret.
  destruct (fault (working s)); intros H; simplify_eq. apply He.
Qed.

Lemma raises_only_fold {A B} P (l : list A) (body : B → A → M D B) :
  (∀ acc x, raises_only P (body acc x)) → ∀ acc, raises_only P (fold_each l acc body).
Proof.
  intros Hb. induction l as [|x l IH]; intros acc; [done|].
  apply raises_only_bind; [apply Hb|apply IH].
Qed.

Lemma run_raises {A} P (m : M D A) d e : raises_only P m → (run m d).2 = inl e → P e.
Proof.
  intros H. unfold run. destruct (m (Session d d)) as [s r] eqn:E. cbn. intros ->. by eapply H.
Qed.

Lemma run_atomic {A} (m : M D A) d e : atomic m → (run m d).2 = inl e → (run m d).1 = d.
Proof.
  intros H. unfold run. specialize (H (Session d d)).
  destruct (m _) as [s' []]; simpl in *; [by intros _|done].
Qed.
End laws.

#[export] Hint Resolve uncommitting_bind uncommitting_ret uncommitting_raise
  uncommitting_query uncommitting_exec uncommitting_rollback uncommitting_for
  uncommitting_fold atomic_bind atomic_commit_ret atomic_uncommitting
  preserves_ret preserves_raise preserves_query raises_only_ret raises_only_query
  raises_only_exec raises_only_rollback : market.

(** Case on the branches of a handler until every leaf is a primitive. *)
Ltac monadic :=
  repeat match goal with
  | |- uncommitting (bind _ _) => apply uncommitting_bind; [|intros ?]
  | |- atomic (bind (commit _) (λ _, ret _)) => apply atomic_commit_ret
  | |- atomic (bind _ _) => apply atomic_bind; [|intros ?]
  | |- uncommitting (for_each _ _) => apply uncommitting_for; intros ?
  | |- uncommitting (fold_each _ _ _) => apply uncommitting_fold; intros ? ?
  | |- atomic (ret _) => apply atomic_uncommitting
  | |- atomic (raise _) => apply atomic_uncommitting
  | |- preserves _ (bind _ _) => apply preserves_bind; [|intros ?]
  | |- preserves _ (for_each _ _) => apply preserves_for; intros ?
  | |- preserves _ (exec _) => apply preserves_exec; done
  | |- raises_only _ (bind _ _) => apply raises_only_bind; [|intros ?]
  | |- raises_only _ (fold_each _ _ _) => apply raises_only_fold; intros ? ?
  | |- raises_only _ (raise _) => apply raises_only_raise; done
  | |- raises_only _ (commit _) => apply raises_only_commit; done
  | |- _ (match ?x with _ => _ end) => destruct x eqn:?
  | |- _ => progress auto with market
  end.

(** Run a handler symbolically: one rewrite per primitive, stopping at a branch. *)
Ltac symex :=
  repeat (first [rewrite bind_query | rewrite bind_exec | rewrite bind_ret | rewrite bind_raise
                | rewrite bind_rollback | rewrite bind_commit | rewrite bind_assoc];
          cbv beta zeta; cbn [working committed]).

(** Step through a successful computation in a hypothesis. *)
Ltac step_bind H :=
  let s := fresh "st" in let a := fresh "a" in let E := fresh "Est" in
  apply bind_inr in H as (s & a & E & H).
