(* ===== verification/Lifecycle.v ===== *)
(** * Records that announce their history

    The seller and the media service keep a table whose rows move through the
    states of a lifecycle, and write an outbox message with every move.  This
    file states once what that promises, for any table and any lifecycle: the
    messages about a row, in order, tell the story of the row's state, which for
    handlers that do not overlap is a legal journey that ends in it, and the last
    of them carries the row as it stands.  A row put in the table by a migration
    has no messages to begin with; its journey starts from the state it was given. *)

From S2P Require Import Prelude PyValue Session.

Module Lifecycle.

Definition about (id : string) (m : OutboxMessage) : bool := aggregate_id m =?s id.

(** What the outbox [ms] says of the row [id]. *)
Definition messages_of (id : string) (ms : list OutboxMessage) : list OutboxMessage := List.filter (about id) ms.

Lemma messages_same id ms m : aggregate_id m = id → messages_of id (ms ++ [m]) = messages_of id ms ++ [m].
Proof. intros E. unfold messages_of, about. rewrite List.filter_app. cbn [List.filter]. by rewrite bool_decide_true. Qed.

Lemma messages_other id ms m : aggregate_id m ≠ id → messages_of id (ms ++ [m]) = messages_of id ms.
Proof.
  intros E. unfold messages_of, about. rewrite List.filter_app. cbn [List.filter].
  rewrite bool_decide_false by done. by rewrite app_nil_r.
Qed.

(** A lifecycle: its states and events, and the events that belong to it. *)
Record lifecycle (St : Type) := {
  initial : string → St → Prop;
  move : St → St → string → Prop;
  counts : string → bool;
  initial_counts : ∀ e s, initial e s → counts e = true;
  move_counts : ∀ s s' e, move s s' e → counts e = true;
}.
Arguments initial {_} _ _ _.
Arguments move {_} _ _ _ _.
Arguments counts {_} _ _.
Arguments initial_counts {_} _ _ _ _.
Arguments move_counts {_} _ _ _ _ _.

Section lifecycle.
Context {St Row : Type} (L : lifecycle St).
Context (row_id : Row → string) (state_of : Row → option St) (payload_of : Row → list (string * json)).
Context (uuid4 : nat → string).

(** The events that lead to a state, from [base] for a row that was seeded in it. *)
Inductive journey (base : option St) : list string → St → Prop :=
| journey_seed s : base = Some s → journey base [] s
| journey_start e s : base = None → initial L e s → journey base [e] s
| journey_move es s s' e : journey base es s → move L s s' e → journey base (es ++ [e]) s'.

(** What must have been announced, in this order, to be in a state. *)
Lemma journey_milestones (required : St → list string) :
  (∀ e s, initial L e s → required s `sublist_of` [e]) →
  (∀ s s' e, move L s s' e → required s' `sublist_of` required s ∨
     ∃ l, required s' = l ++ [e] ∧ l `sublist_of` required s) →
  ∀ es s, journey None es s → required s `sublist_of` es.
Proof.
  intros Hi Hm es s. induction 1 as [s E|e s _ H|es s s' e _ IH H]; [done|by apply Hi|].
  destruct (Hm _ _ _ H) as [Hs|(l & -> & Hs)].
  - etrans; [exact Hs|]. etrans; [exact IH|]. by apply sublist_inserts_r.
  - apply sublist_app; [by etrans|done].
Qed.

(** What holds ever after an event. *)
Lemma journey_since (ev : string) (P : St → Prop) :
  (∀ e s, initial L e s → e ≠ ev) → (∀ s s' e, move L s s' e → P s ∨ e = ev → P s') →
  ∀ base es s, journey base es s → ev ∈ es → P s.
Proof.
  intros Hi Hm base es s. induction 1 as [s E|e s _ H|es s s' e _ IH H].
  - by intros ?%elem_of_nil.
  - intros ->%list_elem_of_singleton. by destruct (Hi _ _ H).
  - intros [Hin| ->%list_elem_of_singleton]%elem_of_app; eapply Hm; eauto.
Qed.

Definition events_of (id : string) (ms : list OutboxMessage) : list string :=
  List.filter (counts L) (map msg_type (messages_of id ms)).

(** The state a migration gave to a row, if one put it there; and what the events
    of a row have to tell of its state. *)
Context (seed : string → option St) (story : string → list string → St → Prop).

Record told (ms : list OutboxMessage) (r : Row) (s : St) : Prop := {
  told_state : state_of r = Some s;
  told_story : story (row_id r) (events_of (row_id r) ms) s;
  told_last : payload <$> last (messages_of (row_id r) ms) = Some (payload_of r) ∨
    messages_of (row_id r) ms = [] ∧ is_Some (seed (row_id r));
}.

(** An identifier the service drew, or the one of a seeded row. *)
Definition known_id (draws : nat) (id : string) : Prop := (∃ n, (n < draws)%nat ∧ id = uuid4 n) ∨ is_Some (seed id).

Lemma known_id_later draws id : known_id draws id → known_id (S draws) id.
Proof. intros [(n & Hn & E)|Hs]; [left; exists n; split; [lia|done]|by right]. Qed.

(** A table, its outbox, and how many identifiers were drawn. *)
Record table_ok (rows : list Row) (ms : list OutboxMessage) (draws : nat) : Prop := {
  rows_drawn : ∀ r, r ∈ rows → known_id draws (row_id r);
  rows_unique : NoDup (map row_id rows);
  messages_drawn : ∀ m, m ∈ ms → known_id draws (aggregate_id m);
  rows_told : ∀ r, r ∈ rows → ∃ s, told ms r s;
}.

Lemma no_rows_ok : table_ok [] [] 0.
Proof. constructor; try (intros x Hx; by apply not_elem_of_nil in Hx). apply NoDup_nil_2. Qed.

(** A table of one seeded row. *)
Lemma seeded_ok r s : seed (row_id r) = Some s → state_of r = Some s → story (row_id r) [] s → table_ok [r] [] 0.
Proof.
  intros Hseed Hs Hst. constructor.
  - intros r' ->%list_elem_of_singleton. right. by eexists.
  - apply NoDup_singleton.
  - by intros m ?%elem_of_nil.
  - intros r' ->%list_elem_of_singleton. exists s. constructor; [done|done|]. right. split; [done|by eexists].
Qed.

Lemma told_other ms m r s : aggregate_id m ≠ row_id r → told ms r s → told (ms ++ [m]) r s.
Proof. intros E [H1 H2 H3]. constructor; unfold events_of in *; by rewrite ?messages_other. Qed.

Lemma events_snoc id ms m : aggregate_id m = id →
  events_of id (ms ++ [m]) = if counts L (msg_type m) then events_of id ms ++ [msg_type m] else events_of id ms.
Proof.
  intros E. unfold events_of. rewrite messages_same, map_app, List.filter_app by done. cbn [map List.filter].
  destruct (counts L _); [done|by rewrite app_nil_r].
Qed.

(** The rows an update leaves: the one it names, changed, and the others. *)
Lemma updated_rows rows f r r' : NoDup (map row_id rows) → r ∈ rows →
  r' ∈ update_where (λ x, row_id x =?s row_id r) f rows → r' = f r ∨ r' ∈ rows ∧ row_id r' ≠ row_id r.
Proof.
  intros Hnd Hr (x & -> & Hx)%elem_of_map. case_bool_decide as E; [left|by right].
  by rewrite (map_key_inj row_id rows x r Hnd Hx Hr E).
Qed.

Lemma updated_ids rows (p : Row → bool) f : (∀ r, row_id (f r) = row_id r) →
  map row_id (update_where p f rows) = map row_id rows.
Proof. intros Hf. unfold update_where. rewrite map_map. apply map_ext. intros x. by destruct (p x). Qed.

(** One row changed together with a message about it. *)
Lemma table_amend rows ms draws f r m :
  table_ok rows ms draws → r ∈ rows → (∀ x, row_id (f x) = row_id x) →
  aggregate_id m = row_id r → payload m = payload_of (f r) →
  (∀ s, state_of r = Some s → story (row_id r) (events_of (row_id r) ms) s →
     ∃ s', state_of (f r) = Some s' ∧ story (row_id r) (events_of (row_id r) (ms ++ [m])) s') →
  table_ok (update_where (λ x, row_id x =?s row_id r) f rows) (ms ++ [m]) draws.
Proof.
  intros [H1 H2 H3 H4] Hr Hf Hm Hp Hmove. constructor.
  - intros r' [->|[H _]]%updated_rows; [rewrite Hf; by apply H1|by apply H1|done|done].
  - by rewrite updated_ids.
  - intros m' [Hin| ->%list_elem_of_singleton]%elem_of_app; [by apply H3|]. rewrite Hm. by apply H1.
  - intros r' [->|[H Hne]]%updated_rows; [| |done|done].
    + destruct (H4 r Hr) as [s [T1 T2 T3]]. destruct (Hmove s T1 T2) as (s' & Hs' & Hc). exists s'.
      constructor; rewrite ?Hf; [done|done|]. left. by rewrite messages_same, last_snoc, <-Hp.
    + destruct (H4 r' H) as [s Hs]. exists s. apply told_other; [|done]. rewrite Hm. by apply not_eq_sym.
Qed.

(** A row rewritten without a message: nothing the messages carry changed. *)
Lemma table_touch rows ms draws f r :
  table_ok rows ms draws → r ∈ rows → (∀ x, row_id (f x) = row_id x) →
  state_of (f r) = state_of r → payload_of (f r) = payload_of r →
  table_ok (update_where (λ x, row_id x =?s row_id r) f rows) ms draws.
Proof.
  intros [H1 H2 H3 H4] Hr Hf Hs Hp. constructor; [| |done|].
  - intros r' [->|[H _]]%updated_rows; [rewrite Hf; by apply H1|by apply H1|done|done].
  - by rewrite updated_ids.
  - intros r' [->|[H Hne]]%updated_rows; [|by apply H4|done|done].
    destruct (H4 r Hr) as [s [T1 T2 T3]]. exists s. constructor; rewrite ?Hf; [by rewrite Hs|done|by rewrite Hp].
Qed.

Lemma table_ids rows ms draws r r' : table_ok rows ms draws → r ∈ rows → r' ∈ rows → row_id r = row_id r' → r = r'.
Proof. intros H Hr Hr' E. by apply (map_key_inj row_id rows); [apply H|..]. Qed.

(** A new row with a fresh identifier and its first message. *)
Lemma table_register rows ms draws r m s `{!Inj (=) (=) uuid4} : (∀ n, seed (uuid4 n) = None) →
  table_ok rows ms draws → row_id r = uuid4 draws → aggregate_id m = row_id r → payload m = payload_of r →
  state_of r = Some s → counts L (msg_type m) = true → story (row_id r) [msg_type m] s →
  table_ok (rows ++ [r]) (ms ++ [m]) (S draws).
Proof.
  intros Hseed [H1 H2 H3 H4] Hid Hm Hp Hs Hc Hi.
  assert (Hfresh : ∀ id, known_id draws id → id ≠ row_id r).
  { intros id [(n & Hn & ->)|[x Hx]] E; [rewrite Hid in E; apply (inj uuid4) in E; lia|by rewrite E, Hid, Hseed in Hx]. }
  assert (Hnew : known_id (S draws) (row_id r)) by (left; exists draws; split; [lia|done]).
  constructor.
  - intros r' [H| ->%list_elem_of_singleton]%elem_of_app; [|done]. by apply known_id_later, H1.
  - rewrite map_app. apply NoDup_app. split_and!; [done| |apply NoDup_singleton].
    intros x (y & -> & Hy)%elem_of_map E%list_elem_of_singleton. by apply (Hfresh _ (H1 y Hy)).
  - intros m' [H| ->%list_elem_of_singleton]%elem_of_app; [by apply known_id_later, H3|by rewrite Hm].
  - intros r' [H| ->%list_elem_of_singleton]%elem_of_app.
    + destruct (H4 r' H) as [s' Hs']. exists s'. apply told_other; [|done]. rewrite Hm. by apply not_eq_sym, Hfresh, H1.
    + exists s. assert (Hnone : messages_of (row_id r) ms = []).
      { unfold messages_of. rewrite filter_none; [done|]. intros m' Hm'. unfold about. by apply bool_decide_eq_false, Hfresh, H3. }
      constructor; [done| |left; by rewrite messages_same, Hnone, <-Hp].
      rewrite events_snoc, Hc by done. unfold events_of. by rewrite Hnone.
Qed.

End lifecycle.

(** A table that tells more tells less. *)
Lemma table_weaken {St Row} (L : lifecycle St) (row_id : Row → string) state_of payload_of uuid4 seed
    (story story' : string → list string → St → Prop) rows ms draws :
  (∀ id es s, story id es s → story' id es s) →
  table_ok L row_id state_of payload_of uuid4 seed story rows ms draws →
  table_ok L row_id state_of payload_of uuid4 seed story' rows ms draws.
Proof.
  intros Hst [H1 H2 H3 H4]. constructor; [done..|]. intros r Hr. destruct (H4 r Hr) as [s [T1 T2 T3]]. exists s. constructor; auto.
Qed.

(** *** Stories that are journeys *)

Section journeys.
Context {St : Type} (L : lifecycle St) (seed : string → option St).

Definition faithful (id : string) : list string → St → Prop := journey L (seed id).

(** A message that announces a move, or something beside the lifecycle. *)
Lemma journey_told id ms m s s' : aggregate_id m = id → faithful id (events_of L id ms) s →
  move L s s' (msg_type m) ∨ counts L (msg_type m) = false ∧ s' = s → faithful id (events_of L id (ms ++ [m])) s'.
Proof.
  intros Hm Hj Hmove. rewrite events_snoc by done. destruct Hmove as [Hc|[-> ->]]; [|done].
  rewrite (move_counts L s s' _ Hc). by eapply journey_move.
Qed.
End journeys.
End Lifecycle.
