(* ===== verification/Transitions.v ===== *)
(** * The order saga's transition tables (services/order-saga, transitions.py)

    Statuses and event types are the strings of the source; the tables are
    association lists in the order of the source's dictionaries. *)

From S2P Require Import Prelude.

Module Transitions.

Definition PENDING := "PENDING".
Definition INVENTORY_RESERVED := "INVENTORY_RESERVED".
Definition PAID := "PAID".
Definition ORDER_COMPLETED := "ORDER_COMPLETED".
Definition FAILED := "FAILED".
Definition TIMED_OUT := "TIMED_OUT".
Definition ROLLBACK_COMPLETED := "ROLLBACK_COMPLETED".

Definition ALL_STATES : list string :=
  [PENDING; INVENTORY_RESERVED; PAID; ORDER_COMPLETED; FAILED; TIMED_OUT;
   ROLLBACK_COMPLETED].

Definition TERMINAL_STATES : list string := [ORDER_COMPLETED; ROLLBACK_COMPLETED].

Definition COMPENSATING_STATES : list string := [FAILED; TIMED_OUT].

Definition KNOWN_EVENT_TYPES : list string :=
  ["InventoryReserved"; "InventoryReservationFailed"; "PaymentCharged";
   "PaymentFailed"; "PaymentRefunded"; "OrderCompleted"; "InventoryReleased"].

Inductive Outcome := APPLY | LATE_DUPLICATE | OUT_OF_ORDER | UNKNOWN_EVENT | COMPENSATE.

#[global] Instance Outcome_eq : EqDecision Outcome.
Proof. solve_decision. Defined.

Record Decision := {
  outcome : Outcome;
  new_status : option string;
  command : option string;
}.

Definition emits_command (d : Decision) : bool := bool_decide (is_Some (command d)).

(** (current status, event) -> (new status, command emitted or [None]) *)
Definition TRANSITIONS : list ((string * string) * (string * option string)) :=
  [ ((PENDING, "InventoryReserved"), (INVENTORY_RESERVED, Some "ChargePaymentCommand"));
    ((INVENTORY_RESERVED, "PaymentCharged"), (PAID, Some "ConfirmOrderCommand"));
    ((PAID, "OrderCompleted"), (ORDER_COMPLETED, None));
    ((PENDING, "InventoryReservationFailed"), (ROLLBACK_COMPLETED, Some "OrderFailed"));
    ((INVENTORY_RESERVED, "PaymentFailed"), (FAILED, Some "ReleaseInventoryCommand"));
    ((FAILED, "InventoryReleased"), (ROLLBACK_COMPLETED, None));
    ((TIMED_OUT, "InventoryReleased"), (ROLLBACK_COMPLETED, None));
    ((PAID, "PaymentRefunded"), (ROLLBACK_COMPLETED, None));
    ((TIMED_OUT, "PaymentRefunded"), (ROLLBACK_COMPLETED, None)) ].

Definition COD_TRANSITIONS : list ((string * string) * (string * option string)) :=
  [ ((PENDING, "InventoryReserved"), (ORDER_COMPLETED, None)) ].

Definition LATE_RESOURCE_COMPENSATIONS : list ((string * string) * string) :=
  [ ((TIMED_OUT, "InventoryReserved"), "ReleaseInventoryCommand");
    ((FAILED, "InventoryReserved"), "ReleaseInventoryCommand");
    ((ROLLBACK_COMPLETED, "InventoryReserved"), "ReleaseInventoryCommand") ].

Definition resolve (current_status event_type payment_method : string) : Decision :=
  if negb (event_type in_ KNOWN_EVENT_TYPES) then
    {| outcome := UNKNOWN_EVENT; new_status := None; command := None |}
  else
    match (if payment_method =?s "COD"
           then dict_get COD_TRANSITIONS (current_status, event_type) else None) with
    | Some (new_status, command) =>
        {| outcome := APPLY; new_status := Some new_status; command := command |}
    | None =>
        match dict_get TRANSITIONS (current_status, event_type) with
        | Some (new_status, command) =>
            {| outcome := APPLY; new_status := Some new_status; command := command |}
        | None =>
            match dict_get LATE_RESOURCE_COMPENSATIONS (current_status, event_type) with
            | Some command =>
                {| outcome := COMPENSATE; new_status := None; command := Some command |}
            | None =>
                if current_status in_ TERMINAL_STATES
                then {| outcome := LATE_DUPLICATE; new_status := None; command := None |}
                else {| outcome := OUT_OF_ORDER; new_status := None; command := None |}
            end
        end
    end.

(** ** Inversion lemmas *)

(** An applied event is a row of one of the two tables. *)
Lemma resolve_apply s e pm d :
  resolve s e pm = d → outcome d = APPLY →
  ∃ n c, new_status d = Some n ∧ command d = c ∧
    (((s, e), (n, c)) ∈ TRANSITIONS ∨
     (pm = "COD" ∧ ((s, e), (n, c)) ∈ COD_TRANSITIONS)).
Proof.
  intros <- H. unfold resolve in *.
  destruct (negb _); [done|].
  destruct (if _ =?s _ then _ else _) as [[n c]|] eqn:E.
  - exists n, c. split_and!; [done..|]. right.
    destruct (pm =?s "COD") eqn:Epm; [|done]. bool_to_prop.
    split; [done|by apply dict_get_elem].
  - destruct (dict_get TRANSITIONS _) as [[n c]|] eqn:E2.
    + exists n, c. split_and!; [done..|]. left. by apply dict_get_elem.
    + destruct (dict_get LATE_RESOURCE_COMPENSATIONS _); [done|].
      by destruct (_ in_ TERMINAL_STATES).
Qed.

(** A compensation leaves the status alone and asks for the stock back. *)
Lemma resolve_compensate s e pm d :
  resolve s e pm = d → outcome d = COMPENSATE →
  new_status d = None ∧ command d = Some "ReleaseInventoryCommand" ∧
  e = "InventoryReserved" ∧ s ∈ [TIMED_OUT; FAILED; ROLLBACK_COMPLETED].
Proof.
  intros <- H. unfold resolve in *.
  destruct (negb _); [done|]. destruct (if _ =?s _ then _ else _) as [[]|]; [done|].
  destruct (dict_get TRANSITIONS _) as [[]|]; [done|].
  destruct (dict_get LATE_RESOURCE_COMPENSATIONS _) as [c|] eqn:E;
    [|by destruct (_ in_ TERMINAL_STATES)].
  apply dict_get_elem in E. unfold LATE_RESOURCE_COMPENSATIONS in E.
  elem_cases E; simpl; split_and!; try done; set_solver.
Qed.

(** The other outcomes carry neither a status nor a command. *)
Lemma resolve_rejected s e pm d :
  resolve s e pm = d → outcome d ≠ APPLY → outcome d ≠ COMPENSATE →
  new_status d = None ∧ command d = None.
Proof.
  intros <- H1 H2. unfold resolve in *.
  destruct (negb _); [done|]. destruct (if _ =?s _ then _ else _) as [[]|]; [done|].
  destruct (dict_get TRANSITIONS _) as [[]|]; [done|].
  destruct (dict_get LATE_RESOURCE_COMPENSATIONS _) as [c|]; [done|].
  by destruct (_ in_ TERMINAL_STATES).
Qed.

Ltac apply_cases H :=
  let n := fresh "n" in let c := fresh "c" in
  let Hn := fresh "Hn" in let Hc := fresh "Hc" in let Hin := fresh "Hin" in
  let Hd := fresh "Hd" in
  remember (resolve _ _ _) as d eqn:Hd in H; symmetry in Hd;
  destruct (resolve_apply _ _ _ _ Hd H) as (n & c & Hn & Hc & [Hin|[? Hin]]);
  [unfold TRANSITIONS in Hin|unfold COD_TRANSITIONS in Hin];
  elem_cases Hin; rewrite ?Hd.

(** Every move leaves a non-terminal state for another state of the machine. *)
Lemma apply_states s e pm :
  outcome (resolve s e pm) = APPLY →
  ∃ n, new_status (resolve s e pm) = Some n ∧ s ∈ ALL_STATES ∧ n ∈ ALL_STATES ∧
    n ≠ s ∧ s ∉ TERMINAL_STATES.
Proof.
  intros H. apply_cases H; eexists; (split; [first [eassumption|reflexivity]|]); split_and!; by_compute.
Qed.

(** ** Properties *)

(** A reservation that lands on a saga is either acted on, because the
    saga is waiting for it (it applies and never moves to a state in which the
    stock is dropped), or given back with [ReleaseInventoryCommand] while the
    saga stays where it is, or belongs to a saga that legitimately holds it.
    No state of the machine swallows a reservation that nobody will use. *)
Theorem late_stock_never_leaks (s pm : string) (Hs : s ∈ ALL_STATES) :
  let d := resolve s "InventoryReserved" pm in
  (s = PENDING ∧ outcome d = APPLY ∧
     new_status d = Some (if pm =?s "COD" then ORDER_COMPLETED else INVENTORY_RESERVED)) ∨
  (s ∈ [TIMED_OUT; FAILED; ROLLBACK_COMPLETED] ∧ outcome d = COMPENSATE ∧
     new_status d = None ∧ command d = Some "ReleaseInventoryCommand") ∨
  (s ∈ [INVENTORY_RESERVED; PAID; ORDER_COMPLETED] ∧ command d = None ∧ new_status d = None).
Proof.
  unfold ALL_STATES in Hs. cbv zeta.
  elem_cases Hs; unfold resolve; destruct (pm =?s "COD");
    first [left; by_compute | right; left; by_compute | right; right; by_compute].
Qed.

(** An event never moves a saga out of a terminal state. *)
Lemma terminal_states_absorb (s e pm : string) (Hs : s ∈ TERMINAL_STATES) :
  outcome (resolve s e pm) ≠ APPLY ∧ new_status (resolve s e pm) = None.
Proof.
  assert (Hna : outcome (resolve s e pm) ≠ APPLY).
  { intros (n & _ & _ & _ & _ & Hn)%apply_states. done. }
  split; [done|].
  destruct (decide (outcome (resolve s e pm) = COMPENSATE)) as [Hc|Hc].
  - by apply (resolve_compensate s e pm _ eq_refl) in Hc as [? _].
  - by apply (resolve_rejected s e pm _ eq_refl Hna) in Hc as [? _].
Qed.

Lemma late_stock_never_leaks_witness :
  FAILED ∈ ALL_STATES ∧ command (resolve FAILED "InventoryReserved" "CARD") = Some "ReleaseInventoryCommand".
Proof.
  assert (H : FAILED ∈ ALL_STATES) by by_compute. split; [exact H|].
  destruct (late_stock_never_leaks FAILED "CARD" H) as [(E & _)|[(_ & _ & _ & E)|(E & _)]];
    [discriminate E|exact E|vm_compute; reflexivity].
Defined.

(** How far a saga is from its end: every move makes this smaller. *)
Definition distance (s : string) : nat :=
  if s =?s PENDING then 4 else if s =?s INVENTORY_RESERVED then 3 else if s =?s PAID then 2
  else if s in_ COMPENSATING_STATES then 1 else 0.

Lemma apply_closer s e pm n :
  outcome (resolve s e pm) = APPLY → new_status (resolve s e pm) = Some n →
  (distance n < distance s)%nat.
Proof.
  intros H Hn. destruct (resolve_apply _ _ _ _ eq_refl H) as (n' & c & Hn' & _ & Hin).
  rewrite Hn in Hn'. simplify_eq.
  destruct Hin as [Hin|[_ Hin]]; [unfold TRANSITIONS in Hin|unfold COD_TRANSITIONS in Hin];
    elem_cases Hin; by_compute.
Qed.

(** A sequence of events that all apply, and where it leads. *)
Inductive moves (pm : string) : string → list string → string → Prop :=
| moves_nil s : moves pm s [] s
| moves_cons s e n es s' :
    outcome (resolve s e pm) = APPLY → new_status (resolve s e pm) = Some n →
    moves pm n es s' → moves pm s (e :: es) s'.

Lemma resolve_pm s e pm : (s, e) ≠ (PENDING, "InventoryReserved") →
  resolve s e pm = resolve s e "CARD".
Proof.
  intros Hne. unfold resolve. destruct (negb _); [done|].
  destruct (pm =?s "COD"); [|done]. simpl. by rewrite decide_False.
Qed.

Ltac apply_event :=
  eapply moves_cons; [by rewrite resolve_pm; vm_compute|by rewrite resolve_pm; vm_compute|].

(** Every state can be finished: from each state of the machine there is
    a finite sequence of known events that takes the saga to a terminal state,
    for card and for cash orders alike, so no state is a trap. *)
Theorem every_state_can_finish (s pm : string) (Hs : s ∈ ALL_STATES) :
  ∃ es s', s' ∈ TERMINAL_STATES ∧ moves pm s es s' ∧ Forall (λ e, e ∈ KNOWN_EVENT_TYPES) es.
Proof.
  unfold ALL_STATES in Hs.
  assert (HR : ROLLBACK_COMPLETED ∈ TERMINAL_STATES) by by_compute.
  assert (HC : ORDER_COMPLETED ∈ TERMINAL_STATES) by by_compute.
  elem_cases Hs.
  - exists ["InventoryReservationFailed"], ROLLBACK_COMPLETED. split_and!; [done|apply_event; constructor|].
    by_compute.
  - exists ["PaymentFailed"; "InventoryReleased"], ROLLBACK_COMPLETED.
    split_and!; [done|do 2 apply_event; constructor|by_compute].
  - exists ["OrderCompleted"], ORDER_COMPLETED.
    split_and!; [done|apply_event; constructor|by_compute].
  - exists [], ORDER_COMPLETED. split_and!; [done|constructor..].
  - exists ["InventoryReleased"], ROLLBACK_COMPLETED.
    split_and!; [done|apply_event; constructor|by_compute].
  - exists ["InventoryReleased"], ROLLBACK_COMPLETED.
    split_and!; [done|apply_event; constructor|by_compute].
  - exists [], ROLLBACK_COMPLETED. split_and!; [done|constructor..].
Qed.

Lemma every_state_can_finish_witness :
  TIMED_OUT ∈ ALL_STATES ∧ ∃ es s', s' ∈ TERMINAL_STATES ∧ moves "COD" TIMED_OUT es s'.
Proof.
  assert (H : TIMED_OUT ∈ ALL_STATES) by by_compute. split; [exact H|].
  destruct (every_state_can_finish TIMED_OUT "COD" H) as (es & s' & Ht & Hm & _).
  exists es, s'. split; [exact Ht|exact Hm].
Defined.
End Transitions.
