(* ===== verification/SplitRules.v ===== *)
(** * Splitting an order by seller (services/order-saga, split_rules.py)

    The seller-order statuses, the split of a request's items into one plan per
    seller, and the buyer-facing status derived from the children. *)

From S2P Require Import Prelude PyValue.

Module SplitRules.

Inductive SellerOrderStatus :=
| PENDING | INVENTORY_RESERVED | CONFIRMED | DISPATCHED | RTO_IN_TRANSIT
| DELIVERED | SETTLED | RETURNED | CANCELLED.

#[global] Instance SellerOrderStatus_eq : EqDecision SellerOrderStatus.
Proof. solve_decision. Defined.

(** [.value] of the enumeration *)
Definition value (s : SellerOrderStatus) : string :=
  match s with
  | PENDING => "PENDING"
  | INVENTORY_RESERVED => "INVENTORY_RESERVED"
  | CONFIRMED => "CONFIRMED"
  | DISPATCHED => "DISPATCHED"
  | RTO_IN_TRANSIT => "RTO_IN_TRANSIT"
  | DELIVERED => "DELIVERED"
  | SETTLED => "SETTLED"
  | RETURNED => "RETURNED"
  | CANCELLED => "CANCELLED"
  end.

Definition members : list SellerOrderStatus :=
  [PENDING; INVENTORY_RESERVED; CONFIRMED; DISPATCHED; RTO_IN_TRANSIT; DELIVERED;
   SETTLED; RETURNED; CANCELLED].

(** [_as_status] on the text of a row's status column *)
Definition as_status (v : string) : option SellerOrderStatus :=
  List.find (λ s, value s =?s v) members.

(** [_PROGRESS]; the two endings that are not on the happy path have no rank. *)
Definition PROGRESS (s : SellerOrderStatus) : option Z :=
  match s with
  | PENDING => Some 0
  | INVENTORY_RESERVED => Some 1
  | CONFIRMED => Some 2
  | DISPATCHED => Some 3
  | RTO_IN_TRANSIT => Some 4
  | DELIVERED => Some 5
  | SETTLED => Some 6
  | RETURNED | CANCELLED => None
  end.

Definition ENDED_UNFAVOURABLY : list SellerOrderStatus := [CANCELLED; RETURNED].

Definition TERMINAL : list SellerOrderStatus := [SETTLED; RETURNED; CANCELLED].

Definition EVENT_SELLER_ORDER_CREATED := "SellerOrderCreated".

(** ** The split *)

Record OrderLine := {
  product_id : string;
  quantity : Z;
  price_cents : Z;
  line_total_cents : Z;
}.

Record SellerOrderPlan := {
  seller_id : string;
  lines : list OrderLine;
  subtotal_cents : Z;
}.

Definition item_count (p : SellerOrderPlan) : Z := sumZ quantity (lines p).

(** What leaves [split_by_seller] instead of a result: the module's own
    [SplitError], or an exception of [int()] that its handler does not name. *)
Inductive split_exn := SplitError (detail : string) | SplitRaised (e : pyexn).

Section split.
(** Python's [repr] for numbers with a fraction and for containers. *)
Context (repr : json → string).

Definition dicts_of (l : list json) : list (list (string * json)) :=
  omap (λ i, match i with JObj d => Some d | _ => None end) l.

Definition normalise_items (items_payload : json) : list (list (string * json)) :=
  let items := match items_payload with
               | JObj d => default (JObj d) (dict_get d "items")
               | v => v end in
  let items := match items with
               | JObj d => JList (map (λ '(k, v),
                             JObj [("product_id", JStr k); ("quantity", v)]) d)
               | v => v end in
  match items with
  | JList l => dicts_of l
  | _ => []
  end.

(** One turn of the loop: the seller the line belongs to and the line. *)
Definition read_line (line : list (string * json)) : split_exn + (string * OrderLine) :=
  let seller := obj_get line "seller_id" in
  let product := obj_get line "product_id" in
  if negb (truthy seller) then
    inl (SplitError ("line for product " +:+ py_repr repr product +:+
         " carries no seller_id; a line nobody can be paid for cannot be shipped"))
  else if negb (truthy product) then inl (SplitError "line carries no product_id")
  else
    let unusable := SplitError ("line for product " +:+ py_repr repr product +:+
                      " has no usable quantity or line_total_cents") in
    match py_int_item line "quantity" with
    | inl OverflowError => inl (SplitRaised OverflowError)
    | inl _ => inl unusable
    | inr qty =>
        match py_int_item line "line_total_cents" with
        | inl OverflowError => inl (SplitRaised OverflowError)
        | inl _ => inl unusable
        | inr total =>
            if qty <=? 0 then
              inl (SplitError ("line for product " +:+ py_repr repr product +:+
                   " has quantity " +:+ dec qty))
            else if total <? 0 then
              inl (SplitError ("line for product " +:+ py_repr repr product +:+
                   " has a negative total"))
            else match py_int (default (JInt 0) (dict_get line "price_cents")) with
                 | inl e => inl (SplitRaised e)
                 | inr price =>
                     inr (py_str repr seller,
                          {| product_id := py_str repr product;
                             quantity := qty; price_cents := price;
                             line_total_cents := total |})
                 end
        end
    end.

(** [by_seller.setdefault(seller, []).append(line)] *)
Definition add_line (by_seller : list (string * list OrderLine)) (k : string)
    (l : OrderLine) : list (string * list OrderLine) :=
  dict_set by_seller k (default [] (dict_get by_seller k) ++ [l]).

Fixpoint group_lines (items : list (list (string * json)))
    (by_seller : list (string * list OrderLine))
    : split_exn + list (string * list OrderLine) :=
  match items with
  | [] => inr by_seller
  | line :: items' =>
      match read_line line with
      | inl e => inl e
      | inr (k, l) => group_lines items' (add_line by_seller k l)
      end
  end.

Definition plan_of (entry : string * list OrderLine) : SellerOrderPlan :=
  let lines := sort_by product_id entry.2 in
  {| seller_id := entry.1; lines := lines;
     subtotal_cents := sumZ line_total_cents lines |}.

Definition split_by_seller (items_payload : json) : split_exn + list SellerOrderPlan :=
  match normalise_items items_payload with
  | [] => inl (SplitError "order has no items to split")
  | items =>
      match group_lines items [] with
      | inl e => inl e
      | inr by_seller => inr (map plan_of (sort_by fst by_seller))
      end
  end.
End split.

Definition goods_subtotal_cents (plans : list SellerOrderPlan) : Z :=
  sumZ subtotal_cents plans.

(** ** The derived status *)

(** [[_as_status(s) for s in child_statuses]], [None] when one is not recognised *)
Definition all_statuses (child_statuses : list string) : option (list SellerOrderStatus) :=
  mapM as_status child_statuses.

(** [min(active, key=...)]: the first of the least advanced *)
Fixpoint least_advanced (best : SellerOrderStatus) (l : list SellerOrderStatus)
    : SellerOrderStatus :=
  match l with
  | [] => best
  | s :: l' =>
      least_advanced
        (if default 0 (PROGRESS s) <? default 0 (PROGRESS best) then s else best) l'
  end.

Definition active_of (statuses : list SellerOrderStatus) : list SellerOrderStatus :=
  List.filter (λ s, negb (s in_ ENDED_UNFAVOURABLY)) statuses.

Definition derive_order_status (child_statuses : list string) : option string :=
  match all_statuses child_statuses with
  | None | Some [] => None
  | Some statuses =>
      match active_of statuses with
      | [] => if forallb (λ s, bool_decide (s = CANCELLED)) statuses
              then Some (value CANCELLED) else Some (value RETURNED)
      | s :: active => Some (value (least_advanced s active))
      end
  end.

Definition is_order_complete (child_statuses : list string) : bool :=
  match all_statuses child_statuses with
  | None | Some [] => false
  | Some statuses => forallb (λ s, s in_ TERMINAL) statuses
  end.

(** ** The event *)

Definition line_json (l : OrderLine) : json :=
  JObj [("product_id", JStr (product_id l)); ("quantity", JInt (quantity l));
        ("price_cents", JInt (price_cents l));
        ("line_total_cents", JInt (line_total_cents l))].

Definition build_seller_order_event (order_id seller_order_id user_id : string)
    (plan : SellerOrderPlan) (status : string) : list (string * json) :=
  [ ("order_id", JStr order_id); ("seller_order_id", JStr seller_order_id);
    ("user_id", JStr user_id); ("seller_id", JStr (seller_id plan));
    ("status", JStr status); ("subtotal_cents", JInt (subtotal_cents plan));
    ("item_count", JInt (item_count plan));
    ("lines", JList (map line_json (lines plan))) ].
(** ** Lemmas *)

Lemma as_status_value s : as_status (value s) = Some s.
Proof. by destruct s. Qed.

Lemma as_status_Some v s : as_status v = Some s → v = value s.
Proof. intros [_ H]%find_elem. by bool_to_prop. Qed.

Lemma value_inj s s' : value s = value s' → s = s'.
Proof. intros H. apply (f_equal as_status) in H. rewrite !as_status_value in H. congruence. Qed.

Definition all_lines (d : list (string * list OrderLine)) : list OrderLine :=
  concat (map snd d).

Definition lines_for (d : list (string * list OrderLine)) (k : string) : list OrderLine :=
  default [] (dict_get d k).

Lemma add_line_all d k l : all_lines (add_line d k l) ≡ₚ l :: all_lines d.
Proof.
  unfold add_line, all_lines. induction d as [|[k0 ls] d IH]; simpl; [done|].
  case_decide; subst; simpl.
  - rewrite <-(assoc_L (++)). by rewrite Permutation_middle.
  - rewrite IH. by rewrite Permutation_middle.
Qed.

Lemma add_line_for d k k' l :
  lines_for (add_line d k l) k' =
  lines_for d k' ++ (if decide (k = k') then [l] else []).
Proof.
  unfold lines_for, add_line. case_decide; subst.
  - by rewrite dict_get_set_eq.
  - rewrite dict_get_set_ne by done. by rewrite (right_id_L [] (++)).
Qed.

Definition of_seller (k : string) (parsed : list (string * OrderLine)) : list OrderLine :=
  map snd (List.filter (λ p, bool_decide (p.1 = k)) parsed).

(** What a successful pass over the items leaves in the dictionary. *)
Lemma group_lines_spec repr items acc r :
  group_lines repr items acc = inr r →
  ∃ parsed, Forall2 (λ i p, read_line repr i = inr p) items parsed ∧
    all_lines r ≡ₚ all_lines acc ++ map snd parsed ∧
    (∀ k, lines_for r k = lines_for acc k ++ of_seller k parsed) ∧
    (NoDup acc.*1 → NoDup r.*1) ∧
    (∀ k, k ∈ r.*1 → k ∈ acc.*1 ∨ k ∈ map fst parsed).
Proof.
  revert acc. induction items as [|i items IH]; simpl; intros acc H; simplify_eq.
  - exists []. split_and!; try done; [simpl; by rewrite app_nil_r| |auto].
    intros. unfold of_seller. simpl. by rewrite app_nil_r.
  - destruct (read_line repr i) as [|[k l]] eqn:Ei; [done|].
    apply IH in H as (parsed & HF & Hp & Hk & Hn & Hkeys).
    exists ((k, l) :: parsed). split_and!.
    + by constructor.
    + rewrite Hp, add_line_all. simpl. by rewrite Permutation_middle.
    + intros k'. rewrite Hk, add_line_for. unfold of_seller. simpl.
      destruct (decide (k = k')) as [->|]; [rewrite bool_decide_true by done|
        rewrite bool_decide_false by done]; simpl; by rewrite <-?(assoc_L (++)).
    + intros. apply Hn. by apply dict_set_nodup.
    + intros k' [Hin|Hin]%Hkeys; [|right; by right].
      unfold add_line in Hin. rewrite dict_set_keys in Hin. case_decide; [by left|].
      apply elem_of_app in Hin as [?| ->%list_elem_of_singleton]; [by left|right; left].
Qed.

Lemma read_line_ok repr line k l :
  read_line repr line = inr (k, l) → 0 < quantity l ∧ 0 ≤ line_total_cents l.
Proof.
  unfold read_line. intros H. repeat (step_in H; try done); simplify_eq/=; bool_to_prop; lia.
Qed.

Lemma plans_lines (d : list (string * list OrderLine)) :
  concat (map lines (map plan_of d)) ≡ₚ all_lines d.
Proof.
  unfold all_lines. induction d as [|[k ls] d IH]; simpl; [done|].
  by rewrite sort_by_perm, IH.
Qed.

Lemma plans_subtotals (d : list (string * list OrderLine)) :
  goods_subtotal_cents (map plan_of d) = sumZ line_total_cents (all_lines d).
Proof.
  unfold goods_subtotal_cents, all_lines. induction d as [|[k ls] d IH]; simpl; [done|].
  rewrite IH, sumZ_app. f_equal. apply sumZ_perm, sort_by_perm.
Qed.

Lemma plans_counts (d : list (string * list OrderLine)) :
  sumZ item_count (map plan_of d) = sumZ quantity (all_lines d).
Proof.
  unfold item_count, all_lines. induction d as [|[k ls] d IH]; simpl; [done|].
  rewrite IH, sumZ_app. f_equal. apply sumZ_perm, sort_by_perm.
Qed.

Lemma all_lines_perm d d' : d ≡ₚ d' → all_lines d ≡ₚ all_lines d'.
Proof.
  unfold all_lines. induction 1; simpl; [done|by f_equiv| |by etrans].
  rewrite !(assoc_L (++)). by rewrite (Permutation_app_comm (snd _) (snd _)).
Qed.

(** ** Properties of the split *)

(** The entries of a request: a list, a list or a table of quantities under
    [items], or a table of quantities. *)
Definition quantity_entries (d : list (string * json)) : list json :=
  map (λ '(k, v), JObj [("product_id", JStr k); ("quantity", v)]) d.

Definition entries (payload : json) : list json :=
  match payload with
  | JList l => l
  | JObj d =>
      match dict_get d "items" with
      | Some (JList l) => l
      | Some (JObj q) => quantity_entries q
      | Some _ => []
      | None => quantity_entries d
      end
  | _ => []
  end.

Definition is_object (e : json) : Prop := match e with JObj _ => True | _ => False end.

Lemma normalise_entries payload : normalise_items payload = dicts_of (entries payload).
Proof.
  unfold normalise_items, entries. destruct payload as [| | | | | |d]; try done.
  destruct (dict_get d "items") as [[| | | | | |q]|]; done.
Qed.

Lemma dicts_of_elem d l : d ∈ dicts_of l ↔ JObj d ∈ l.
Proof.
  unfold dicts_of. rewrite list_elem_of_omap. split.
  - intros ([| | | | | |d'] & Hin & E); by simplify_eq.
  - intros Hin. by exists (JObj d).
Qed.

Lemma dicts_of_all l : Forall is_object l → length (dicts_of l) = length l.
Proof. induction 1 as [|[| | | | | |d] l Hd Hl IH]; try done. cbn. by f_equal. Qed.

Lemma dicts_of_split l items1 d items2 : dicts_of l = items1 ++ d :: items2 →
  ∃ before after, l = before ++ JObj d :: after ∧ dicts_of before = items1.
Proof.
  revert items1. induction l as [|e l IH]; intros items1 E; [by destruct items1|].
  destruct e as [| | | | | |d'].
  1-6: destruct (IH items1 E) as (before & after & -> & <-); eexists (_ :: before), after; by split.
  change (d' :: dicts_of l = items1 ++ d :: items2) in E. destruct items1 as [|d1 items1].
  - injection E as -> E. by exists [], l.
  - injection E as -> E. destruct (IH items1 E) as (before & after & -> & <-). by exists (JObj d1 :: before), after.
Qed.

(** What the split promises for a request of these entries: [parsed] are the
    lines of those that are objects, in the request's order. *)
Definition exact_split (repr : json → string) (es : list json) (plans : list SellerOrderPlan) : Prop :=
  ∃ parsed, Forall2 (λ i p, read_line repr i = inr p) (dicts_of es) parsed ∧
    Sorted (λ a b, String.leb (seller_id a) (seller_id b) = true) plans ∧
    NoDup (map seller_id plans) ∧
    (∀ plan, plan ∈ plans →
       lines plan ≡ₚ of_seller (seller_id plan) parsed ∧ lines plan ≠ [] ∧
       Sorted (key_le product_id) (lines plan) ∧
       subtotal_cents plan = sumZ line_total_cents (lines plan)) ∧
    (∀ k, k ∈ map fst parsed → k ∈ map seller_id plans) ∧
    goods_subtotal_cents plans = sumZ line_total_cents (map snd parsed) ∧
    sumZ item_count plans = sumZ quantity (map snd parsed) ∧
    (Forall is_object es → length (concat (map lines plans)) = length es).

(** The first line that cannot be read is what the request is refused for. *)
Lemma group_lines_refused repr items acc e : group_lines repr items acc = inl e →
  ∃ items1 d items2, items = items1 ++ d :: items2 ∧ read_line repr d = inl e ∧ ∀ d', d' ∈ items1 → ∃ p, read_line repr d' = inr p.
Proof.
  revert acc. induction items as [|i items IH]; intros acc; cbn [group_lines]; [done|].
  destruct (read_line repr i) as [e'|[k l]] eqn:Ei.
  - intros [= ->]. exists [], i, items. split_and!; [done|done|]. by intros d' ?%elem_of_nil.
  - intros (items1 & d & items2 & -> & He & Hb)%IH. exists (i :: items1), d, items2. split_and!; [done|done|].
    intros d' [->|Hd']%elem_of_cons; [by exists (k, l)|by apply Hb].
Qed.

Lemma Sorted_map {A B} (R : B → B → Prop) (h : A → B) l :
  Sorted (λ x y, R (h x) (h y)) l → Sorted R (map h l).
Proof. induction 1 as [|x l Hl IH Hhd]; simpl; constructor; [done|]. by destruct Hhd; constructor. Qed.

Lemma sort_plans_ids d :
  map seller_id (map plan_of (sort_by fst d)) ≡ₚ d.*1.
Proof. rewrite map_map. simpl. change (map fst (sort_by fst d) ≡ₚ map fst d). by rewrite sort_by_perm. Qed.
Lemma dict_get_lines d k : k ∈ d.*1 → (k, lines_for d k) ∈ d.
Proof.
  intros Hk%dict_get_is_Some. destruct Hk as [v Hv].
  unfold lines_for. rewrite Hv. by apply dict_get_elem.
Qed.

Lemma of_seller_nonempty k parsed : k ∈ map fst parsed → of_seller k parsed ≠ [].
Proof.
  intros ([k' l] & -> & Hin)%elem_of_map. unfold of_seller.
  intros Hnil. assert (Hl : l ∈ (map snd (List.filter (λ p, bool_decide (p.1 = k')) parsed))).
  { apply elem_of_map. exists (k', l). split; [done|]. apply elem_of_filter_bool.
    split; [done|]. by apply bool_decide_eq_true. }
  simpl in *. rewrite Hnil in Hl. by apply not_elem_of_nil in Hl.
Qed.

Lemma of_seller_elem k parsed : of_seller k parsed ≠ [] → k ∈ map fst parsed.
Proof.
  unfold of_seller. destruct (List.filter _ _) as [|[k' l] r] eqn:E; [done|]. intros _.
  assert (Hin : (k', l) ∈ List.filter (λ p, bool_decide (p.1 = k)) parsed) by (rewrite E; left).
  apply elem_of_filter_bool in Hin as [Hin Hk]. bool_to_prop. simpl in *. subst.
  apply elem_of_map. by exists (k, l).
Qed.

(** The lines of the plans are the lines read from the request. *)
Lemma split_lines repr payload plans :
  split_by_seller repr payload = inr plans →
  ∃ parsed, Forall2 (λ i p, read_line repr i = inr p) (normalise_items payload) parsed ∧
    concat (map lines plans) ≡ₚ map snd parsed.
Proof.
  intros H. unfold split_by_seller in H. destruct (normalise_items payload) as [|i items]; [done|].
  destruct (group_lines repr (i :: items) []) as [|d] eqn:Eg; [done|].
  injection H as <-. apply group_lines_spec in Eg as (parsed & HF & Hp & _).
  exists parsed. split; [done|]. rewrite plans_lines, <-Hp. apply all_lines_perm, sort_by_perm.
Qed.

Lemma read_line_fields repr line k l :
  read_line repr line = inr (k, l) →
  py_int_item line "quantity" = inr (quantity l) ∧
  product_id l = py_str repr (obj_get line "product_id").
Proof.
  unfold read_line. intros H. repeat (step_in H; try done); by simplify_eq/=.
Qed.

(** C17 — A request is split exactly or refused whole.  When it is split, every
    entry of the request that is an object was read as a line, each line lands in
    the plan of the seller it names and in no other, there is one plan per seller
    in the order of the seller ids, no plan is empty, and the money and the units
    of the plans add up to those of the lines with nothing lost or counted twice;
    entries that are not objects are passed over, so a request whose entries all
    are has as many lines in its plans as entries.  When it is refused, it had no
    object among its entries, or the first of them that cannot be read is what it
    is refused for, however well the others read. *)
Theorem split_is_exact (repr : json → string) (payload : json) :
  match split_by_seller repr payload with
  | inr plans => exact_split repr (entries payload) plans
  | inl e =>
      (e = SplitError "order has no items to split" ∧ ∀ d, JObj d ∉ entries payload) ∨
      ∃ before d after, entries payload = before ++ JObj d :: after ∧ read_line repr d = inl e ∧
        ∀ d', JObj d' ∈ before → ∃ p, read_line repr d' = inr p
  end.
Proof.
  pose proof (normalise_entries payload) as Ee. unfold split_by_seller.
  destruct (normalise_items payload) as [|i items] eqn:Ei.
  { left. split; [done|]. intros d. rewrite <-dicts_of_elem, <-Ee. apply not_elem_of_nil. }
  destruct (group_lines repr (i :: items) []) as [e|d] eqn:Eg.
  { right. apply group_lines_refused in Eg as (items1 & d & items2 & Es & He & Hb). rewrite Ee in Es.
    apply dicts_of_split in Es as (before & after & E & E1). exists before, d, after. split_and!; [done..|].
    intros d' Hd'. apply Hb. rewrite <-E1. by apply dicts_of_elem. }
  apply group_lines_spec in Eg as (parsed & HF & Hp & Hk & Hn & Hkeys).
  specialize (Hn (NoDup_nil_2)). exists parsed. rewrite <-Ee. split_and!.
  - done.
  - apply Sorted_map. apply (sort_by_sorted fst).
  - by rewrite sort_plans_ids.
  - intros plan ([k ls] & -> & Hin)%elem_of_map. rewrite sort_by_perm in Hin. simpl.
    assert (Hls : ls = of_seller k parsed).
    { specialize (Hk k). unfold lines_for in Hk. by rewrite (elem_dict_get _ _ _ Hn Hin) in Hk. }
    assert (Hks : k ∈ map fst parsed).
    { destruct (Hkeys k) as [?%not_elem_of_nil|]; [|done|done].
      apply list_elem_of_fmap. by exists (k, ls). }
    split_and!; [by rewrite sort_by_perm, Hls| |apply sort_by_sorted|done].
    intros Hnil. apply (of_seller_nonempty k parsed Hks). rewrite <-Hls.
    apply Permutation_nil_r. by rewrite <-Hnil, sort_by_perm.
  - intros k Hks. rewrite sort_plans_ids. apply dict_get_is_Some.
    specialize (Hk k). unfold lines_for in Hk.
    destruct (dict_get d k); [by eexists|]. simpl in Hk.
    by destruct (of_seller_nonempty k parsed Hks).
  - rewrite plans_subtotals. apply sumZ_perm. rewrite <-Hp.
    apply all_lines_perm, sort_by_perm.
  - rewrite plans_counts. apply sumZ_perm. rewrite <-Hp. apply all_lines_perm, sort_by_perm.
  - intros Hall%dicts_of_all. rewrite <-Hall, <-Ee, (Forall2_length _ _ _ HF), <-(length_map snd parsed).
    apply Permutation_length. rewrite plans_lines, <-Hp. apply all_lines_perm, sort_by_perm.
Qed.

(** A cart with two sellers, one of them selling two products. *)
Definition sample_line (seller product : string) (qty total : Z) : json :=
  JObj [("seller_id", JStr seller); ("product_id", JStr product);
        ("quantity", JInt qty); ("line_total_cents", JInt total)].

Definition sample_cart : json :=
  JList [sample_line "s2" "p9" 1 500; sample_line "s1" "p3" 2 400; sample_line "s2" "p1" 3 90].

Lemma split_is_exact_witness :
  ∃ plans, split_by_seller (λ _, "") sample_cart = inr plans ∧
    exact_split (λ _, "") (entries sample_cart) plans ∧
    goods_subtotal_cents plans = 990 ∧ map seller_id plans = ["s1"; "s2"].
Proof.
  eexists. split; [vm_compute; reflexivity|]. split.
  - exact (split_is_exact (λ _, "") sample_cart).
  - split; reflexivity.
Defined.

(** An entry that is not an object is lost, and the rest is split. *)
Example stray_entry_is_passed_over :
  split_by_seller (λ _, "") (JList [sample_line "s1" "p3" 2 400; JStr "p7"]) = split_by_seller (λ _, "") (JList [sample_line "s1" "p3" 2 400]) ∧
  (∃ plans, split_by_seller (λ _, "") (JList [sample_line "s1" "p3" 2 400; JStr "p7"]) = inr plans ∧ map seller_id plans = ["s1"]).
Proof. split; [vm_compute; reflexivity|]. eexists. split; [vm_compute; reflexivity|reflexivity]. Qed.

(** ** The derived status is the least advanced live child *)

Definition rank (s : SellerOrderStatus) : Z := default 0 (PROGRESS s).

Lemma least_advanced_spec best l :
  let r := least_advanced best l in
  r ∈ best :: l ∧ ∀ s, s ∈ best :: l → rank r ≤ rank s.
Proof.
  revert best. induction l as [|x l IH]; intros best; simpl.
  - split; [left|]. by intros s ->%list_elem_of_singleton.
  - destruct (IH (if default 0 (PROGRESS x) <? default 0 (PROGRESS best) then x else best))
      as [Hin Hle]. fold (rank x) (rank best) in *.
    destruct (rank x <? rank best) eqn:E; bool_to_prop; split.
    + set_solver.
    + intros s [->|[->|Hs]%elem_of_cons]%elem_of_cons.
      * etrans; [apply Hle; left|lia]. * apply Hle; left. * apply Hle. by right.
    + set_solver.
    + intros s [->|[->|Hs]%elem_of_cons]%elem_of_cons.
      * apply Hle; left. * etrans; [apply Hle; left|lia]. * apply Hle. by right.
Qed.

Lemma all_statuses_values ss : all_statuses (map value ss) = Some ss.
Proof.
  unfold all_statuses. apply mapM_Some_2. induction ss; constructor; [apply as_status_value|done].
Qed.

Lemma all_statuses_Some cs ss : all_statuses cs = Some ss → cs = map value ss.
Proof.
  unfold all_statuses. intros H%mapM_Some_1. induction H as [|v s cs ss Hv _ IH]; [done|].
  simpl. f_equal; [by apply as_status_Some|done].
Qed.

Lemma active_elem s ss : s ∈ active_of ss ↔ s ∈ ss ∧ s ∉ ENDED_UNFAVOURABLY.
Proof.
  unfold active_of. rewrite elem_of_filter_bool, negb_true_iff.
  unfold in_listb. by rewrite bool_decide_eq_false.
Qed.

Lemma derived_of_children (ss : list SellerOrderStatus) : ss ≠ [] →
  ∃ r, derive_order_status (map value ss) = Some (value r) ∧
    ((∃ s, s ∈ ss ∧ s ∉ ENDED_UNFAVOURABLY) →
       r ∈ ss ∧ r ∉ ENDED_UNFAVOURABLY ∧
       ∀ s, s ∈ ss → s ∉ ENDED_UNFAVOURABLY → rank r ≤ rank s) ∧
    ((∀ s, s ∈ ss → s ∈ ENDED_UNFAVOURABLY) →
       r = if decide (Forall (eq CANCELLED) ss) then CANCELLED else RETURNED).
Proof.
  intros Hne. unfold derive_order_status. rewrite all_statuses_values.
  destruct ss as [|s0 ss0]; [done|]. set (ss := s0 :: ss0) in *.
  destruct (active_of ss) as [|a act] eqn:Ea.
  - assert (Hall : ∀ s, s ∈ ss → s ∈ ENDED_UNFAVOURABLY).
    { intros s Hs. destruct (decide (s ∈ ENDED_UNFAVOURABLY)) as [|Hn]; [done|].
      assert (Ha : s ∈ active_of ss) by (by apply active_elem). rewrite Ea in Ha.
      by apply not_elem_of_nil in Ha. }
    assert (Hf : forallb (λ s, bool_decide (s = CANCELLED)) ss = true ↔ Forall (eq CANCELLED) ss).
    { rewrite forallb_forall, Forall_forall. setoid_rewrite list_elem_of_In.
      setoid_rewrite bool_decide_eq_true. naive_solver. }
    destruct (forallb _ ss) eqn:Ef; eexists; (split; [reflexivity|]);
      (split; [naive_solver|]); intros _; case_decide as Hd; try done.
    + exfalso. by apply Hd, Hf.
    + by apply Hf in Hd.
  - destruct (least_advanced_spec a act) as [Hin Hle]. rewrite <-Ea in Hin, Hle.
    eexists; split; [reflexivity|]. apply active_elem in Hin as [Hin Hnot]. split.
    + intros _. split_and!; [done..|]. intros s Hs Hl. apply Hle. by apply active_elem.
    + intros Hall. exfalso. apply Hnot. by apply Hall.
Qed.

Lemma all_statuses_None cs :
  all_statuses cs = None ↔ Exists (λ c, as_status c = None) cs.
Proof.
  unfold all_statuses. rewrite mapM_None. done.
Qed.

(** The buyer-facing status of an order is its slowest live part: it is
    the status of a child that has not ended unfavourably and no such child is
    behind it; when every child ended unfavourably it is [CANCELLED] if all
    were cancelled and [RETURNED] otherwise; and it is undefined exactly when
    there is no child or some child's status is not one this version knows. *)
Theorem derived_status_is_least_advanced (cs : list string) :
  (derive_order_status cs = None ↔ cs = [] ∨ Exists (λ c, as_status c = None) cs) ∧
  ∀ ss, ss ≠ [] → cs = map value ss →
    ∃ r, derive_order_status cs = Some (value r) ∧
      ((∃ s, s ∈ ss ∧ s ∉ ENDED_UNFAVOURABLY) →
         r ∈ ss ∧ r ∉ ENDED_UNFAVOURABLY ∧
         ∀ s, s ∈ ss → s ∉ ENDED_UNFAVOURABLY → rank r ≤ rank s) ∧
      ((∀ s, s ∈ ss → s ∈ ENDED_UNFAVOURABLY) →
         r = if decide (Forall (eq CANCELLED) ss) then CANCELLED else RETURNED).
Proof.
  split.
  - rewrite <-all_statuses_None. split.
    + unfold derive_order_status. destruct (all_statuses cs) as [ss|] eqn:E; [|by right].
      apply all_statuses_Some in E as ->. destruct ss as [|s ss]; [by left|].
      destruct (active_of (s :: ss)); [|done]. by destruct (forallb _ _).
    + unfold derive_order_status. intros [->| ->]; done.
  - intros ss Hne ->. by apply derived_of_children.
Qed.
End SplitRules.
