(* ===== verification/CodRules.v ===== *)
(** * The cash-on-delivery lifecycle (services/order-saga, cod_rules.py)

    The action table of a seller order, the decision an action gets in a given
    status, and the children a parent that has ended must cancel. *)

From S2P Require Import Prelude PyValue SplitRules.
Import SplitRules.

Module CodRules.

Inductive InventoryEffect := NONE | RELEASE | CONSUME.

#[global] Instance InventoryEffect_eq : EqDecision InventoryEffect.
Proof. solve_decision. Defined.

Definition effect_value (e : InventoryEffect) : string :=
  match e with NONE => "none" | RELEASE => "release" | CONSUME => "consume" end.

Record Transition := {
  to : SellerOrderStatus;
  event : string;
  effect : InventoryEffect;
  requires_reason : bool;
}.

Inductive Outcome := OK | INVALID | NOT_ALLOWED.

#[global] Instance Outcome_eq : EqDecision Outcome.
Proof. solve_decision. Defined.

Record Decision := {
  d_outcome : Outcome;
  d_to : option SellerOrderStatus;
  d_event : option string;
  d_effect : InventoryEffect;
  d_detail : string;
}.

Definition ok (d : Decision) : bool := bool_decide (d_outcome d = OK).

Definition http_status (d : Decision) : Z :=
  if bool_decide (d_outcome d = INVALID) then 422 else 409.

Definition EVENT_CONFIRMED := "SellerOrderConfirmed".
Definition EVENT_DISPATCHED := "SellerOrderDispatched".
Definition EVENT_DELIVERED := "SellerOrderDelivered".
Definition EVENT_SETTLED := "SellerOrderSettled".
Definition EVENT_RTO_STARTED := "SellerOrderRtoStarted".
Definition EVENT_RETURNED := "SellerOrderReturned".
Definition EVENT_CANCELLED := "SellerOrderCancelled".

Definition cancel_transition : Transition :=
  {| to := CANCELLED; event := EVENT_CANCELLED; effect := RELEASE; requires_reason := true |}.

(** action -> from state -> transition *)
Definition ACTIONS : list (string * list (SellerOrderStatus * Transition)) :=
  [ ("confirm",
      [(INVENTORY_RESERVED, {| to := CONFIRMED; event := EVENT_CONFIRMED;
                               effect := NONE; requires_reason := false |})]);
    ("dispatch",
      [(CONFIRMED, {| to := DISPATCHED; event := EVENT_DISPATCHED;
                      effect := NONE; requires_reason := false |})]);
    ("deliver",
      [(DISPATCHED, {| to := DELIVERED; event := EVENT_DELIVERED;
                       effect := CONSUME; requires_reason := false |})]);
    ("settle",
      [(DELIVERED, {| to := SETTLED; event := EVENT_SETTLED;
                      effect := NONE; requires_reason := false |})]);
    ("mark_rto",
      [(DISPATCHED, {| to := RTO_IN_TRANSIT; event := EVENT_RTO_STARTED;
                       effect := NONE; requires_reason := true |})]);
    ("complete_return",
      [(RTO_IN_TRANSIT, {| to := RETURNED; event := EVENT_RETURNED;
                           effect := RELEASE; requires_reason := false |})]);
    ("cancel",
      [(PENDING, cancel_transition); (INVENTORY_RESERVED, cancel_transition);
       (CONFIRMED, cancel_transition)]) ].

(** ** A parent that ended *)

Definition SAGA_STATES_ENDING_THE_ORDER : list string :=
  ["FAILED"; "TIMED_OUT"; "ROLLBACK_COMPLETED"].

(** [set(ACTIONS["cancel"])] *)
Definition cancellable_child_statuses : list SellerOrderStatus :=
  (default [] (dict_get ACTIONS "cancel")).*1.

Fixpoint cancel_indices (index : nat) (child_statuses : list string) : list nat :=
  match child_statuses with
  | [] => []
  | status :: rest =>
      match as_status status with
      | None => cancel_indices (S index) rest
      | Some resolved =>
          if resolved in_ cancellable_child_statuses
          then index :: cancel_indices (S index) rest
          else cancel_indices (S index) rest
      end
  end.

Definition children_to_cancel (saga_status : string) (child_statuses : list string)
    : list nat :=
  if negb (saga_status in_ SAGA_STATES_ENDING_THE_ORDER) then []
  else cancel_indices 0 child_statuses.

Definition cancellation_reason (saga_status : string) : string :=
  "order " +:+ replace "_" " " (lower saga_status).

(** ** The decision *)

Definition refuse (o : Outcome) (detail : string) : Decision :=
  {| d_outcome := o; d_to := None; d_event := None; d_effect := NONE; d_detail := detail |}.

Definition plan_transition (action status reason : string) : Decision :=
  match dict_get ACTIONS action with
  | None => refuse INVALID ("unknown action " +:+ repr_str action)
  | Some table =>
      match as_status status with
      | None => refuse NOT_ALLOWED ("unrecognised seller order status " +:+ repr_str status)
      | Some current =>
          match dict_get table current with
          | None =>
              let allowed := join ", " (sort_by id (map value table.*1)) in
              refuse NOT_ALLOWED
                ("cannot " +:+ action +:+ " a seller order that is " +:+ value current +:+
                 "; allowed from: " +:+ (if is_empty allowed then "no state" else allowed))
          | Some transition =>
              if requires_reason transition && is_empty (strip reason)
              then refuse INVALID (action +:+ " requires a reason")
              else {| d_outcome := OK; d_to := Some (to transition);
                      d_event := Some (event transition);
                      d_effect := effect transition; d_detail := strip reason |}
          end
      end
  end.

(** [_as_status(status) in TERMINAL] *)
Definition is_terminal (status : string) : bool :=
  match as_status status with Some s => s in_ TERMINAL | None => false end.

Definition may_cancel (status : string) : bool :=
  match as_status status with
  | Some s => s in_ cancellable_child_statuses
  | None => false
  end.

Definition reachable (status : string) : list SellerOrderStatus :=
  match as_status status with
  | Some current =>
      concat (map (λ '(_, table),
        omap (λ '(frm, t), if decide (frm = current) then Some (to t) else None) table) ACTIONS)
  | None => []
  end.

Definition actions_from (status : string) : list string :=
  match as_status status with
  | Some current =>
      omap (λ '(action, table), if decide (current ∈ table.*1) then Some action else None) ACTIONS
  | None => []
  end.

(** ** Lemmas *)

(** An accepted action is a row of the table. *)
Lemma plan_transition_ok action status reason :
  d_outcome (plan_transition action status reason) = OK →
  ∃ s table t, as_status status = Some s ∧ (action, table) ∈ ACTIONS ∧ (s, t) ∈ table ∧
    (requires_reason t = true → strip reason ≠ "") ∧
    plan_transition action status reason =
      {| d_outcome := OK; d_to := Some (to t); d_event := Some (event t);
         d_effect := effect t; d_detail := strip reason |}.
Proof.
  unfold plan_transition. destruct (dict_get ACTIONS action) as [table|] eqn:Ea; [|done].
  destruct (as_status status) as [s|] eqn:Es; [|done].
  destruct (dict_get table s) as [t|] eqn:Et; [|done].
  destruct (requires_reason t && is_empty (strip reason)) eqn:Er; [done|]. intros _.
  exists s, table, t. split_and!; [done|by apply dict_get_elem|by apply dict_get_elem| |done].
  intros Hr. rewrite Hr in Er. simpl in Er. unfold is_empty in Er. by bool_to_prop.
Qed.

(** The moves of the table, one constructor per row. *)
Lemma actions_cases action table s t :
  (action, table) ∈ ACTIONS → (s, t) ∈ table →
  (s, to t, effect t, action) ∈
    [(INVENTORY_RESERVED, CONFIRMED, NONE, "confirm"); (CONFIRMED, DISPATCHED, NONE, "dispatch");
     (DISPATCHED, DELIVERED, CONSUME, "deliver"); (DELIVERED, SETTLED, NONE, "settle");
     (DISPATCHED, RTO_IN_TRANSIT, NONE, "mark_rto");
     (RTO_IN_TRANSIT, RETURNED, RELEASE, "complete_return");
     (PENDING, CANCELLED, RELEASE, "cancel"); (INVENTORY_RESERVED, CANCELLED, RELEASE, "cancel");
     (CONFIRMED, CANCELLED, RELEASE, "cancel")].
Proof.
  unfold ACTIONS. intros Ha Ht. elem_cases Ha; elem_cases Ht; by_compute.
Qed.

Lemma cancellable_iff s :
  s ∈ cancellable_child_statuses ↔ s ∈ [PENDING; INVENTORY_RESERVED; CONFIRMED].
Proof. by vm_compute. Qed.

Lemma cancel_indices_elem j k l :
  j ∈ cancel_indices k l ↔
  ∃ i st s, j = (k + i)%nat ∧ l !! i = Some st ∧ as_status st = Some s ∧
    s ∈ cancellable_child_statuses.
Proof.
  revert k. induction l as [|st l IH]; intros k; simpl.
  { split; [by intros ?%not_elem_of_nil|]. by intros (i & st & s & _ & ? & _). }
  assert (Hshift : (j ∈ cancel_indices (S k) l) ↔
    ∃ i st' s, j = (k + S i)%nat ∧ (st :: l) !! (S i) = Some st' ∧ as_status st' = Some s ∧
      s ∈ cancellable_child_statuses).
  { rewrite IH. simpl. split; intros (i & st' & s & -> & ?); exists i, st', s; (split; [lia|done]). }
  destruct (as_status st) as [s|] eqn:Es; [destruct (s in_ _) eqn:Ec|].
  - rewrite elem_of_cons, Hshift. unfold in_listb in Ec. bool_to_prop. split.
    + intros [->|(i & st' & s' & ?)]; [exists 0%nat, st, s|by exists (S i), st', s'].
      split; [lia|done].
    + intros ([|i] & st' & s' & -> & ?); [left; lia|right; by exists i, st', s'].
  - rewrite Hshift. unfold in_listb in Ec. bool_to_prop. split.
    + intros (i & st' & s' & ?). by exists (S i), st', s'.
    + intros ([|i] & st' & s' & -> & ? & ? & ?); [|by exists i, st', s']. by simplify_eq/=.
  - rewrite Hshift. split.
    + intros (i & st' & s' & ?). by exists (S i), st', s'.
    + intros ([|i] & st' & s' & -> & ? & ? & ?); [|by exists i, st', s']. by simplify_eq/=.
Qed.

(** ** Runs of the lifecycle

    [cod_step s c e s']: a seller order in status [s] moves to [s'] because of
    [c], and the stock is told [e].  Besides the actions of the seller and of the
    courier, the saga moves a [PENDING] child to [INVENTORY_RESERVED] when the
    order's stock is held, and a saga that ended cancels the children it still
    may (cancel_children_of_ended_saga, and the reaper's second statement)
    without a release of their own: its ReleaseInventoryCommand is for the whole
    order. *)
Inductive cod_cause := Acted (action : string) | Reserved | ParentEnded (saga_status : string).
#[export] Instance cod_cause_eq : EqDecision cod_cause. Proof. solve_decision. Defined.

Inductive cod_step : SellerOrderStatus → cod_cause → InventoryEffect → SellerOrderStatus → Prop :=
| step_action action s reason s' e :
    plan_transition action (value s) reason =
      {| d_outcome := OK; d_to := Some s';
         d_event := d_event (plan_transition action (value s) reason);
         d_effect := e; d_detail := strip reason |} →
    cod_step s (Acted action) e s'
| step_reserved : cod_step PENDING Reserved NONE INVENTORY_RESERVED
| step_parent_ended saga_status siblings index s :
    siblings !! index = Some (value s) → index ∈ children_to_cancel saga_status siblings →
    cod_step s (ParentEnded saga_status) NONE CANCELLED.

Inductive cod_run : SellerOrderStatus → list (cod_cause * InventoryEffect) → SellerOrderStatus → Prop :=
| cod_nil s : cod_run s [] s
| cod_snoc s es s1 c e s2 : cod_run s es s1 → cod_step s1 c e s2 → cod_run s (es ++ [(c, e)]) s2.

Lemma cancel_cases saga_status siblings index s :
  siblings !! index = Some (value s) → index ∈ children_to_cancel saga_status siblings →
  saga_status ∈ SAGA_STATES_ENDING_THE_ORDER ∧ s ∈ [PENDING; INVENTORY_RESERVED; CONFIRMED].
Proof.
  intros Hl. unfold children_to_cancel, in_listb. destruct (bool_decide_reflect (saga_status ∈ SAGA_STATES_ENDING_THE_ORDER)) as [He|]; [|by intros ?%elem_of_nil].
  intros (i & st & s' & E & Hi & Hs & Hc)%cancel_indices_elem. cbn in E. subst i. split; [done|].
  rewrite Hl in Hi. simplify_eq. rewrite as_status_value in Hs. simplify_eq. by apply cancellable_iff.
Qed.

Lemma cod_step_cases s c e s' : cod_step s c e s' →
  (s, c, s', e) ∈
    [(INVENTORY_RESERVED, Acted "confirm", CONFIRMED, NONE); (CONFIRMED, Acted "dispatch", DISPATCHED, NONE);
     (DISPATCHED, Acted "deliver", DELIVERED, CONSUME); (DELIVERED, Acted "settle", SETTLED, NONE);
     (DISPATCHED, Acted "mark_rto", RTO_IN_TRANSIT, NONE); (RTO_IN_TRANSIT, Acted "complete_return", RETURNED, RELEASE);
     (PENDING, Acted "cancel", CANCELLED, RELEASE); (INVENTORY_RESERVED, Acted "cancel", CANCELLED, RELEASE);
     (CONFIRMED, Acted "cancel", CANCELLED, RELEASE); (PENDING, Reserved, INVENTORY_RESERVED, NONE)] ∨
  s ∈ [PENDING; INVENTORY_RESERVED; CONFIRMED] ∧ s' = CANCELLED ∧ e = NONE ∧
    ∃ saga_status, c = ParentEnded saga_status ∧ saga_status ∈ SAGA_STATES_ENDING_THE_ORDER.
Proof.
  intros [action s0 reason s1 e0 Hp| |saga_status siblings index s0 Hl Hi]; [left|left; by_compute|right].
  - assert (Hok : d_outcome (plan_transition action (value s0) reason) = OK) by (by rewrite Hp).
    apply plan_transition_ok in Hok as (s2 & table & t & Hs & Ha & Ht & _ & Heq).
    rewrite as_status_value in Hs. simplify_eq. rewrite Heq in Hp. simplify_eq/=.
    pose proof (actions_cases _ _ _ _ Ha Ht) as Hc.
    elem_cases Hc; repeat match goal with H : to _ = _ |- _ => rewrite H
                                        | H : effect _ = _ |- _ => rewrite H end; by_compute.
  - destruct (cancel_cases _ _ _ _ Hl Hi) as [He Hs]. split_and!; [done..|]. by exists saga_status.
Qed.

(** What has been told to the stock is a function of the status, and of whether
    it was the seller who cancelled. *)
Definition told (s : SellerOrderStatus) (cancelled : bool) : list InventoryEffect :=
  match s with
  | DELIVERED | SETTLED => [CONSUME]
  | RETURNED => [RELEASE]
  | CANCELLED => if cancelled then [RELEASE] else []
  | _ => []
  end.

Definition movements (es : list InventoryEffect) : list InventoryEffect :=
  List.filter (λ e, negb (bool_decide (e = NONE))) es.

Lemma movements_app es es' : movements (es ++ es') = movements es ++ movements es'.
Proof. apply List.filter_app. Qed.

(** Either the seller cancelled or the ended order did, exactly when the seller
    order is cancelled; the stock was told what the status says. *)
Record run_told (es : list (cod_cause * InventoryEffect)) (s : SellerOrderStatus) : Prop := {
  rt_told : ∃ b, movements es.*2 = told s b ∧ (b = true ↔ Acted "cancel" ∈ es.*1);
  rt_cancelled : Acted "cancel" ∈ es.*1 → s = CANCELLED;
  rt_parent : ∀ st, ParentEnded st ∈ es.*1 → st ∈ SAGA_STATES_ENDING_THE_ORDER ∧ s = CANCELLED ∧ Acted "cancel" ∉ es.*1;
  rt_cause : s = CANCELLED → Acted "cancel" ∈ es.*1 ∨ ∃ st, ParentEnded st ∈ es.*1;
}.

Lemma in_snoc {A} (x y : A) l : x ∈ l ++ [y] ↔ x ∈ l ∨ x = y.
Proof. by rewrite elem_of_app, list_elem_of_singleton. Qed.

(** A step out of a status that is not [CANCELLED] comes after no cancellation. *)
Lemma run_told_live es s : run_told es s → s ≠ CANCELLED →
  Acted "cancel" ∉ es.*1 ∧ (∀ st, ParentEnded st ∉ es.*1) ∧ movements es.*2 = told s false.
Proof.
  intros [(b & Hm & Hb) Hc Hp _] Hne. assert (Hn : Acted "cancel" ∉ es.*1) by (by intros ?%Hc).
  split_and!; [done|by intros st (_ & ? & _)%Hp|]. by destruct b; [destruct Hn; apply Hb|].
Qed.

Lemma step_told es s c e s' : run_told es s → cod_step s c e s' → run_told (es ++ [(c, e)]) s'.
Proof.
  intros Hr Hstep%cod_step_cases. assert (Hlive : s ≠ CANCELLED).
  { intros ->. destruct Hstep as [Hc|(Hc & _)]; elem_cases Hc. }
  destruct (run_told_live es s Hr Hlive) as (Hn & Hp & Hm).
  assert (Hpar : ∀ st, c ≠ ParentEnded st → ParentEnded st ∉ es.*1 ++ [c]) by (intros st Hc; rewrite in_snoc; intros [?%Hp|E]; [done|by rewrite E in Hc]).
  assert (Hact : c ≠ Acted "cancel" → Acted "cancel" ∉ es.*1 ++ [c]) by (intros Hc; rewrite in_snoc; intros [?|E]; [done|by rewrite E in Hc]).
  split; rewrite ?fmap_app, ?movements_app; cbn [fmap list_fmap fst snd]; rewrite ?Hm.
  - exists (bool_decide (c = Acted "cancel")). rewrite bool_decide_eq_true, in_snoc. split; [|naive_solver].
    destruct Hstep as [Hc|(Hc & -> & -> & st & -> & _)]; elem_cases Hc; reflexivity.
  - rewrite in_snoc. intros [?|E]; [done|]. subst c. destruct Hstep as [Hc|(_ & ? & _)]; [|done]. by elem_cases Hc.
  - intros st [?%Hp|<-]%in_snoc; [done|]. destruct Hstep as [Hc|(_ & -> & _ & st' & [= <-] & Hst)]; [by elem_cases Hc|].
    split_and!; [done|done|]. by apply Hact.
  - intros ->. rewrite in_snoc. destruct Hstep as [Hc|(_ & _ & _ & st & -> & _)]; [left|right; exists st; rewrite in_snoc; by right].
    elem_cases Hc; by right.
Qed.

Lemma run_told_ok es s : cod_run PENDING es s → run_told es s.
Proof.
  intros Hrun. remember PENDING as s0 eqn:Hs0. induction Hrun as [|s0 es s1 c e s2 _ IH Hst]; [|by eapply step_told; [apply IH|]].
  subst s. split; [exists false; split; [done|]; split; [done|by intros ?%elem_of_nil]|by intros ?%elem_of_nil|by intros st ?%elem_of_nil|done].
Qed.

(** C10 — Stock moves once per seller order: along every run of the lifecycle
    from its birth in [PENDING], the inventory is told, for this seller order, to
    release or to consume at most once and never both.  It has been told to
    consume exactly when the parcel was delivered; and to release exactly when it
    came back, or was called off by the cancel action.  A seller order is
    cancelled by that action or because its order ended, one or the other; in the
    second case the stock is told nothing for it, the release being the order's
    own, and the order is one that failed, timed out or rolled back. *)
Theorem stock_moves_once (es : list (cod_cause * InventoryEffect)) (s : SellerOrderStatus)
    (Hrun : cod_run PENDING es s) :
  (length (movements es.*2) ≤ 1)%nat ∧
  (CONSUME ∈ es.*2 ↔ s = DELIVERED ∨ s = SETTLED) ∧
  (RELEASE ∈ es.*2 ↔ s = RETURNED ∨ s = CANCELLED ∧ Acted "cancel" ∈ es.*1) ∧
  (s = CANCELLED ↔ Acted "cancel" ∈ es.*1 ∨ ∃ st, ParentEnded st ∈ es.*1) ∧
  (∀ st, ParentEnded st ∈ es.*1 → st ∈ SAGA_STATES_ENDING_THE_ORDER ∧ Acted "cancel" ∉ es.*1 ∧ movements es.*2 = []).
Proof.
  destruct (run_told_ok es s Hrun) as [(b & Hm & Hb) Hc Hp Hcause].
  assert (He : ∀ e, e ≠ NONE → (e ∈ es.*2 ↔ e ∈ told s b)).
  { intros e Hne. rewrite <-Hm. unfold movements. rewrite elem_of_filter_bool, negb_true_iff, bool_decide_eq_false. naive_solver. }
  split_and!; [rewrite Hm; destruct s, b; cbn; lia| | | |].
  - rewrite He by done. destruct s, b; cbn; set_solver.
  - rewrite He by done. rewrite <-Hb. destruct s, b; cbn; set_solver.
  - split; [done|]. intros [?%Hc|(st & Hst)]; [done|]. by apply Hp in Hst as (_ & ? & _).
  - intros st (Hst & -> & Hn)%Hp. split_and!; [done..|]. rewrite Hm. destruct b; [|done]. by destruct Hn; apply Hb.
Qed.

Lemma step_to action s reason s' e :
  d_outcome (plan_transition action (value s) reason) = OK →
  d_to (plan_transition action (value s) reason) = Some s' →
  d_effect (plan_transition action (value s) reason) = e → cod_step s (Acted action) e s'.
Proof.
  intros Ho Ht He. apply (step_action action s reason). 
  destruct (plan_transition_ok _ _ _ Ho) as (? & ? & ? & _ & _ & _ & _ & Heq).
  rewrite Heq in *. simpl in *. by simplify_eq.
Qed.

(** A parcel delivered, and a child cancelled because its order timed out. *)
Lemma stock_moves_once_witness :
  (∃ es, cod_run PENDING es DELIVERED ∧ CONSUME ∈ es.*2 ∧ (length (movements es.*2) ≤ 1)%nat) ∧
  ∃ es, cod_run PENDING es CANCELLED ∧ movements es.*2 = [].
Proof.
  split.
  - eexists. assert (Hrun : cod_run PENDING (((([] ++ [(Reserved, NONE)]) ++ [(Acted "confirm", NONE)]) ++ [(Acted "dispatch", NONE)]) ++ [(Acted "deliver", CONSUME)]) DELIVERED).
    { eapply cod_snoc; [eapply cod_snoc; [eapply cod_snoc; [eapply cod_snoc|]|]|].
      - constructor.
      - apply step_reserved.
      - by apply (step_to "confirm" _ "").
      - by apply (step_to "dispatch" _ "").
      - by apply (step_to "deliver" _ ""). }
    split; [exact Hrun|]. destruct (stock_moves_once _ _ Hrun) as (Hlen & Hcons & _). split; [apply Hcons; by left|exact Hlen].
  - eexists. assert (Hrun : cod_run PENDING (([] ++ [(Reserved, NONE)]) ++ [(ParentEnded "TIMED_OUT", NONE)]) CANCELLED).
    { eapply cod_snoc; [eapply cod_snoc; [constructor|apply step_reserved]|].
      apply (step_parent_ended "TIMED_OUT" ["DISPATCHED"; "INVENTORY_RESERVED"] 1); [reflexivity|vm_compute; by left]. }
    split; [exact Hrun|]. apply (stock_moves_once _ _ Hrun) with "TIMED_OUT". by_compute.
Defined.
End CodRules.
