(* ===== verification/OrderDb.v ===== *)
(** * The order database (services/order-saga, models.py)

    The rows of [order_db] and the small statements its handlers share.  The
    saga dispatcher works on the same [outbox_messages] table, so the outbox
    rows carry its columns too (migrations 005, 006 and 020).

    A fresh identifier ([uuid.uuid4()]) is the next value of the stream [uuid4],
    an argument of the handlers; [draws] counts the values used so far. *)

From S2P Require Import Prelude PyValue Session.

Module OrderDb.

Record OrderSagaState := {
  id : string;
  user_id : string;
  status : string;
  payment_method : string;
  total_cents : Z;
  created_at : Z;
  updated_at : Z;
}.

Record SellerOrder := {
  so_id : string;
  so_order_id : string;
  so_seller_id : string;
  so_status : string;
  so_status_reason : option string;
  so_subtotal_cents : Z;
  so_currency : string;
  so_item_count : Z;
  so_confirmed_at : option Z;
  so_dispatched_at : option Z;
  so_delivered_at : option Z;
  so_settled_at : option Z;
  so_courier_name : option string;
  so_tracking_code : option string;
  so_created_at : Z;
  so_updated_at : Z;
}.

Record OrderLine := {
  ol_order_id : string;
  ol_seller_order_id : string;
  ol_product_id : string;
  ol_seller_id : string;
  ol_quantity : Z;
  ol_price_cents : Z;
  ol_line_total_cents : Z;
  ol_currency : string;
}.

Record OutboxRow := {
  ob_id : string;
  ob_msg : OutboxMessage;
  ob_processed_at : option Z;
  ob_claimed_at : option Z;
  ob_claimed_by : option string;
  ob_attempts : Z;
  ob_next_attempt_at : option Z;
  ob_parked_at : option Z;
  ob_last_error : option string;
}.

Record t := {
  sagas : list OrderSagaState;
  seller_orders : list SellerOrder;
  order_lines : list OrderLine;
  outbox : list OutboxRow;
  keys : key_table;
  draws : nat;
}.

Definition empty : t :=
  {| sagas := []; seller_orders := []; order_lines := []; outbox := []; keys := []; draws := 0 |}.

(** ** Column updates *)

Definition set_status (s : string) (now : Z) (x : OrderSagaState) : OrderSagaState :=
  {| id := id x; user_id := user_id x; status := s; payment_method := payment_method x;
     total_cents := total_cents x; created_at := created_at x; updated_at := now |}.

Definition so_move (s : string) (reason : option string) (now : Z) (x : SellerOrder)
    : SellerOrder :=
  {| so_id := so_id x; so_order_id := so_order_id x; so_seller_id := so_seller_id x;
     so_status := s; so_status_reason := reason;
     so_subtotal_cents := so_subtotal_cents x; so_currency := so_currency x;
     so_item_count := so_item_count x; so_confirmed_at := so_confirmed_at x;
     so_dispatched_at := so_dispatched_at x; so_delivered_at := so_delivered_at x;
     so_settled_at := so_settled_at x; so_courier_name := so_courier_name x;
     so_tracking_code := so_tracking_code x; so_created_at := so_created_at x;
     so_updated_at := now |}.

Definition with_sagas (f : list OrderSagaState → list OrderSagaState) (d : t) : t :=
  {| sagas := f (sagas d); seller_orders := seller_orders d; order_lines := order_lines d;
     outbox := outbox d; keys := keys d; draws := draws d |}.
Definition with_seller_orders (f : list SellerOrder → list SellerOrder) (d : t) : t :=
  {| sagas := sagas d; seller_orders := f (seller_orders d); order_lines := order_lines d;
     outbox := outbox d; keys := keys d; draws := draws d |}.
Definition with_order_lines (f : list OrderLine → list OrderLine) (d : t) : t :=
  {| sagas := sagas d; seller_orders := seller_orders d; order_lines := f (order_lines d);
     outbox := outbox d; keys := keys d; draws := draws d |}.
Definition with_outbox (f : list OutboxRow → list OutboxRow) (d : t) : t :=
  {| sagas := sagas d; seller_orders := seller_orders d; order_lines := order_lines d;
     outbox := f (outbox d); keys := keys d; draws := draws d |}.
Definition with_keys (f : key_table → key_table) (d : t) : t :=
  {| sagas := sagas d; seller_orders := seller_orders d; order_lines := order_lines d;
     outbox := outbox d; keys := f (keys d); draws := draws d |}.
Definition draw (d : t) : t :=
  {| sagas := sagas d; seller_orders := seller_orders d; order_lines := order_lines d;
     outbox := outbox d; keys := keys d; draws := S (draws d) |}.

(** ** Statements *)

(** [on_conflict_do_nothing] insert followed by [result_id = ...] *)
Definition key_known (key : string) (d : t) : bool := bool_decide (key ∈ (keys d).*1).

Definition insert_key (key : string) : t → t := with_keys (λ ks, ks ++ [(key, None)]).

Definition bind_key (key result : string) : t → t :=
  with_keys (λ ks, dict_set ks key (Some result)).

Definition find_saga (i : string) (d : t) : option OrderSagaState :=
  List.find (λ s, id s =?s i) (sagas d).

(** The children of an order, [ORDER BY seller_id]. *)
Definition children_of (i : string) (d : t) : list SellerOrder :=
  sort_by so_seller_id (List.filter (λ c, so_order_id c =?s i) (seller_orders d)).

Definition product_ids_of (seller_order : string) (d : t) : list string :=
  map ol_product_id (List.filter (λ l, ol_seller_order_id l =?s seller_order) (order_lines d)).

Section fresh.
Context (uuid4 : nat → string).

Definition fresh : M t string :=
  n <- query draws ;; exec draw ;;; ret (uuid4 n).

(** [db.add(OutboxMessage(...))] *)
Definition add_outbox (agg_type agg_id ty : string) (body : list (string * json)) (now : Z)
    : M t unit :=
  i <- fresh ;;
  exec (with_outbox (λ rows, rows ++
    [{| ob_id := i;
        ob_msg := {| aggregate_type := agg_type; aggregate_id := agg_id; msg_type := ty;
                     payload := body; msg_created_at := now |};
        ob_processed_at := None; ob_claimed_at := None; ob_claimed_by := None;
        ob_attempts := 0; ob_next_attempt_at := None; ob_parked_at := None;
        ob_last_error := None |}])).
End fresh.

(** ** What emitting messages does *)

Section emit.
Context (uuid4 : nat → string).

Definition new_row (i : string) (m : OutboxMessage) : OutboxRow :=
  {| ob_id := i; ob_msg := m; ob_processed_at := None; ob_claimed_at := None;
     ob_claimed_by := None; ob_attempts := 0; ob_next_attempt_at := None;
     ob_parked_at := None; ob_last_error := None |}.

Definition emit1 (m : OutboxMessage) (d : t) : t :=
  with_outbox (λ rows, rows ++ [new_row (uuid4 (draws d)) m]) (draw d).

Definition emit (ms : list OutboxMessage) (d : t) : t := foldl (λ d m, emit1 m d) d ms.

Definition message (agg_type agg_id ty : string) (body : list (string * json)) (now : Z)
    : OutboxMessage :=
  {| aggregate_type := agg_type; aggregate_id := agg_id; msg_type := ty; payload := body;
     msg_created_at := now |}.

Definition messages (d : t) : list OutboxMessage := map ob_msg (outbox d).

Lemma add_outbox_emit a i ty b now s :
  add_outbox uuid4 a i ty b now s =
    (Session (committed s) (emit [message a i ty b now] (working s)), inr tt).
Proof. done. Qed.

Lemma emit_app ms ms' d : emit (ms ++ ms') d = emit ms' (emit ms d).
Proof. apply foldl_app. Qed.

Lemma emit_loop {A} (f : A → list OutboxMessage) (body : A → M t unit) l s :
  (∀ x s, x ∈ l → body x s = (Session (committed s) (emit (f x) (working s)), inr tt)) →
  for_each l body s =
    (Session (committed s) (emit (concat (map f l)) (working s)), inr tt).
Proof.
  revert s. induction l as [|x l IH]; intros s Hb; simpl; [by destruct s|].
  unfold bind. rewrite Hb by left. rewrite IH by (intros; apply Hb; by right). simpl.
  by rewrite emit_app.
Qed.

Lemma emit_frame ms d :
  sagas (emit ms d) = sagas d ∧ seller_orders (emit ms d) = seller_orders d ∧
  order_lines (emit ms d) = order_lines d ∧ keys (emit ms d) = keys d ∧
  draws (emit ms d) = (draws d + length ms)%nat ∧
  messages (emit ms d) = messages d ++ ms.
Proof.
  revert d. induction ms as [|m ms IH]; intros d; simpl.
  - rewrite app_nil_r. split_and!; try done; lia.
  - destruct (IH (emit1 m d)) as (-> & -> & -> & -> & -> & ->). split_and!; try done; [simpl; lia|].
    unfold messages, emit1. simpl. by rewrite map_app, <-(assoc_L (++)).
Qed.
End emit.

Definition opt_str (o : option string) : json :=
  match o with Some s => JStr s | None => JNull end.
End OrderDb.
