(* ===== verification/SagaOrchestrator.v ===== *)
(** * The saga orchestrator (services/order-saga, saga_orchestrator.py)

    Starting a saga, advancing it with an event, cancelling the children of one
    that ended, moving a seller order along the cash-on-delivery lifecycle, and
    the read side.  Each handler is a computation of the session monad in the
    order of the source; logging and [db.refresh] have no counterpart. *)

From S2P Require Import Prelude PyValue Session Transitions SplitRules CodRules OrderDb.
Import OrderDb.

Module SagaOrchestrator.

Record CreateOrderRequest := {
  req_user_id : string;
  req_total_cents : Z;
  req_items_payload : json;
}.

Record SellerOrderActionRequest := {
  req_reason : option string;
  req_courier_name : option string;
  req_tracking_code : option string;
}.

Section handlers.
Context (uuid4 : nat → string) (repr : json → string) (fault : OrderDb.t → option string).

Definition _command_payload (command : string) (saga_state : OrderSagaState)
    : list (string * json) :=
  if command =?s "ChargePaymentCommand" then
    [("order_id", JStr (id saga_state)); ("user_id", JStr (user_id saga_state));
     ("amount_cents", JInt (total_cents saga_state))]
  else if command =?s "OrderFailed" then
    [("order_id", JStr (id saga_state)); ("user_id", JStr (user_id saga_state));
     ("reason", JStr "InventoryReservationFailed")]
  else [("order_id", JStr (id saga_state))].

Definition _check_idempotency_or_return_cached (idempotency_key : string)
    : M OrderDb.t (option OrderSagaState) :=
  known <- query (key_known idempotency_key) ;;
  if negb known then exec (insert_key idempotency_key) ;;; ret None
  else
    record <- query (λ d, dict_get (keys d) idempotency_key) ;;
    match record with
    | Some (Some result_id) =>
        cached <- query (find_saga result_id) ;;
        match cached with
        | Some c => ret (Some c)
        | None => raise (Http 409 "Idempotency key already processed but result not found")
        end
    | _ => raise (Http 409 "Idempotency key already processed but result not found")
    end.

(** ** start_saga *)

Definition new_seller_order (i order seller : string) (subtotal count now : Z) : SellerOrder :=
  {| so_id := i; so_order_id := order; so_seller_id := seller; so_status := "PENDING";
     so_status_reason := None; so_subtotal_cents := subtotal; so_currency := "BDT";
     so_item_count := count; so_confirmed_at := None; so_dispatched_at := None;
     so_delivered_at := None; so_settled_at := None; so_courier_name := None;
     so_tracking_code := None; so_created_at := now; so_updated_at := now |}.

(** [uuid.UUID(s)] inside a handler that does not catch its [ValueError]. *)
Definition uuid_or_raise (s : string) : M OrderDb.t string :=
  match UUID s with Some u => ret u | None => raise (Raised "ValueError") end.

Definition write_line (saga_id seller_order_id seller : string)
    (line : SplitRules.OrderLine) : M OrderDb.t unit :=
  product <- uuid_or_raise (SplitRules.product_id line) ;;
  exec (with_order_lines (λ ls, ls ++
    [{| ol_order_id := saga_id; ol_seller_order_id := seller_order_id;
        ol_product_id := product; ol_seller_id := seller;
        ol_quantity := SplitRules.quantity line;
        ol_price_cents := SplitRules.price_cents line;
        ol_line_total_cents := SplitRules.line_total_cents line;
        ol_currency := "BDT" |}])).

Definition write_plan (saga_id buyer : string) (now : Z) (plan : SplitRules.SellerOrderPlan)
    : M OrderDb.t unit :=
  seller_order_id <- fresh uuid4 ;;
  seller <- uuid_or_raise (SplitRules.seller_id plan) ;;
  exec (with_seller_orders (λ sos, sos ++
    [new_seller_order seller_order_id saga_id seller (SplitRules.subtotal_cents plan)
       (SplitRules.item_count plan) now])) ;;;
  for_each (SplitRules.lines plan) (write_line saga_id seller_order_id seller) ;;;
  add_outbox uuid4 "SellerOrder" seller_order_id SplitRules.EVENT_SELLER_ORDER_CREATED
    (SplitRules.build_seller_order_event saga_id seller_order_id buyer plan "PENDING") now.

Definition exn_name (e : pyexn) : string :=
  match e with
  | KeyError => "KeyError" | TypeError => "TypeError"
  | ValueError => "ValueError" | OverflowError => "OverflowError"
  end.

(** The saga row is written without a payment method, so the model's default
    ("COD") applies. *)
Definition start_saga (request : CreateOrderRequest) (idempotency_key : string) (now : Z)
    : M OrderDb.t OrderSagaState :=
  cached <- _check_idempotency_or_return_cached idempotency_key ;;
  match cached with
  | Some c => ret c
  | None =>
      saga_id <- fresh uuid4 ;;
      let saga_state :=
        {| id := saga_id; user_id := req_user_id request; status := "PENDING";
           payment_method := "COD"; total_cents := req_total_cents request;
           created_at := now; updated_at := now |} in
      exec (with_sagas (λ ss, ss ++ [saga_state])) ;;;
      match SplitRules.split_by_seller repr (req_items_payload request) with
      | inl (SplitRules.SplitError detail) => rollback ;;; raise (Http 422 detail)
      | inl (SplitRules.SplitRaised e) => raise (Raised (exn_name e))
      | inr plans =>
          for_each plans (write_plan saga_id (user_id saga_state) now) ;;;
          add_outbox uuid4 "OrderSaga" saga_id "ReserveInventoryCommand"
            [("order_id", JStr saga_id); ("user_id", JStr (user_id saga_state));
             ("items_payload", req_items_payload request)] now ;;;
          exec (bind_key idempotency_key saga_id) ;;;
          commit fault ;;;
          ret saga_state
      end
  end.

(** ** cancel_children_of_ended_saga *)

Definition cancelled_payload (order reason : string) (child : SellerOrder)
    (product_ids : list string) : list (string * json) :=
  [("order_id", JStr order); ("seller_order_id", JStr (so_id child));
   ("seller_id", JStr (so_seller_id child)); ("status", JStr "CANCELLED");
   ("status_reason", JStr reason); ("subtotal_cents", JInt (so_subtotal_cents child));
   ("courier_name", opt_str (so_courier_name child));
   ("tracking_code", opt_str (so_tracking_code child));
   ("product_ids", JList (map JStr product_ids))].

Definition cancel_child (order reason : string) (now : Z) (child : SellerOrder)
    : M OrderDb.t unit :=
  product_ids <- query (product_ids_of (so_id child)) ;;
  exec (with_seller_orders (update_where (λ c, so_id c =?s so_id child)
          (so_move "CANCELLED" (Some reason) now))) ;;;
  add_outbox uuid4 "SellerOrder" (so_id child) CodRules.EVENT_CANCELLED
    (cancelled_payload order reason child product_ids) now.

Definition cancel_children_of_ended_saga (saga_id saga_status : string) (now : Z)
    : M OrderDb.t Z :=
  if negb (saga_status in_ CodRules.SAGA_STATES_ENDING_THE_ORDER) then ret 0
  else
    children <- query (children_of saga_id) ;;
    let indices := CodRules.children_to_cancel saga_status (map so_status children) in
    let reason := CodRules.cancellation_reason saga_status in
    for_each indices (λ index,
      match children !! index with
      | Some child => cancel_child saga_id reason now child
      | None => ret tt
      end) ;;;
    ret (Z.of_nat (length indices)).

(** ** advance_saga *)

Definition advance_saga (order_id event_type idempotency_key : string) (now : Z)
    : M OrderDb.t OrderSagaState :=
  cached <- _check_idempotency_or_return_cached idempotency_key ;;
  match cached with
  | Some c => ret c
  | None =>
      found <- query (find_saga order_id) ;;
      match found with
      | None => raise (Http 404 "Order Saga not found")
      | Some saga_state =>
          let current_status := status saga_state in
          let decision :=
            Transitions.resolve current_status event_type (payment_method saga_state) in
          let emit :=
            match Transitions.command decision with
            | Some command =>
                add_outbox uuid4 "OrderSaga" (id saga_state) command
                  (_command_payload command saga_state) now
            | None => ret tt
            end in
          let finish (result : OrderSagaState) :=
            emit ;;; exec (bind_key idempotency_key (id saga_state)) ;;;
            commit fault ;;; ret result in
          match Transitions.outcome decision with
          | Transitions.UNKNOWN_EVENT =>
              rollback ;;;
              raise (Http 422 ("Unknown event type '" +:+ event_type +:+ "' — not retryable"))
          | Transitions.LATE_DUPLICATE => rollback ;;; ret saga_state
          | Transitions.OUT_OF_ORDER =>
              rollback ;;;
              raise (Http 409 ("Event '" +:+ event_type +:+ "' not applicable at state '" +:+
                current_status +:+ "' — retry after the saga advances"))
          | Transitions.COMPENSATE => finish saga_state
          | Transitions.APPLY =>
              let new_status := default current_status (Transitions.new_status decision) in
              exec (with_sagas (update_where (λ s, id s =?s id saga_state)
                      (set_status new_status now))) ;;;
              cancel_children_of_ended_saga (id saga_state) new_status now ;;;
              (if event_type =?s "InventoryReserved"
               then exec (with_seller_orders (update_where
                      (λ c, (so_order_id c =?s id saga_state) && (so_status c =?s "PENDING"))
                      (λ c, so_move "INVENTORY_RESERVED" (so_status_reason c) now c)))
               else ret tt) ;;;
              finish (set_status new_status now saga_state)
          end
      end
  end.

(** The [/orders/{order_id}/events] endpoint. *)
Definition process_saga_event_endpoint (order_id event_type idempotency_key : string) (now : Z)
    : M OrderDb.t OrderSagaState :=
  if is_empty idempotency_key then raise (Http 400 "Idempotency-Key header is required")
  else match UUID order_id with
       | None => raise (Http 400 "Invalid order_id format")
       | Some oid => advance_saga oid event_type idempotency_key now
       end.

(** ** transition_seller_order *)

Definition _EFFECT_COMMANDS (e : CodRules.InventoryEffect) : option string :=
  match e with
  | CodRules.RELEASE => Some "ReleaseSellerOrderInventoryCommand"
  | CodRules.CONSUME => Some "ConsumeSellerOrderInventoryCommand"
  | CodRules.NONE => None
  end.

(** The status, the reason, the step's time stamp and, on dispatch, the courier. *)
Definition apply_transition (action : string) (request : option SellerOrderActionRequest)
    (d : CodRules.Decision) (now : Z) (x : SellerOrder) : SellerOrder :=
  let stamp a old := if action =?s a then Some now else old in
  let courier f old := match request with
                       | Some r => if action =?s "dispatch" then f r else old
                       | None => old end in
  {| so_id := so_id x; so_order_id := so_order_id x; so_seller_id := so_seller_id x;
     so_status := match CodRules.d_to d with Some s => SplitRules.value s | None => so_status x end;
     so_status_reason := (if is_empty (CodRules.d_detail d) then None
                          else Some (CodRules.d_detail d));
     so_subtotal_cents := so_subtotal_cents x; so_currency := so_currency x;
     so_item_count := so_item_count x;
     so_confirmed_at := stamp "confirm" (so_confirmed_at x);
     so_dispatched_at := stamp "dispatch" (so_dispatched_at x);
     so_delivered_at := stamp "deliver" (so_delivered_at x);
     so_settled_at := stamp "settle" (so_settled_at x);
     so_courier_name := courier req_courier_name (so_courier_name x);
     so_tracking_code := courier req_tracking_code (so_tracking_code x);
     so_created_at := so_created_at x; so_updated_at := now |}.

Definition transition_payload (order_id : string) (x : SellerOrder) (product_ids : list string)
    : list (string * json) :=
  [("order_id", JStr order_id); ("seller_order_id", JStr (so_id x));
   ("seller_id", JStr (so_seller_id x)); ("status", JStr (so_status x));
   ("status_reason", opt_str (so_status_reason x));
   ("subtotal_cents", JInt (so_subtotal_cents x));
   ("courier_name", opt_str (so_courier_name x));
   ("tracking_code", opt_str (so_tracking_code x));
   ("product_ids", JList (map JStr product_ids))].

Definition escrow_payload (order_id : string) (x : SellerOrder) : list (string * json) :=
  [("order_id", JStr order_id); ("seller_order_id", JStr (so_id x));
   ("seller_id", JStr (so_seller_id x)); ("collected_cents", JInt (so_subtotal_cents x));
   ("currency", JStr (so_currency x))].

(** The dictionary the endpoint answers with. *)
Definition transition_response (order_id : string) (x : SellerOrder)
    (effect : CodRules.InventoryEffect) : list (string * json) :=
  [("seller_order_id", JStr (so_id x)); ("order_id", JStr order_id);
   ("seller_id", JStr (so_seller_id x)); ("status", JStr (so_status x));
   ("status_reason", opt_str (so_status_reason x));
   ("inventory_effect", JStr (CodRules.effect_value effect));
   ("courier_name", opt_str (so_courier_name x));
   ("tracking_code", opt_str (so_tracking_code x))].

Definition find_seller_order (order_id seller_order_id : string) (d : OrderDb.t)
    : option SellerOrder :=
  List.find (λ c, (so_id c =?s seller_order_id) && (so_order_id c =?s order_id))
    (seller_orders d).

Definition transition_seller_order (order_id seller_order_id action : string)
    (request : option SellerOrderActionRequest) (now : Z) : M OrderDb.t (list (string * json)) :=
  found <- query (find_seller_order order_id seller_order_id) ;;
  match found with
  | None => raise (Http 404 "Seller order not found")
  | Some seller_order =>
      let reason := match request with Some r => default "" (req_reason r) | None => "" end in
      let decision := CodRules.plan_transition action (so_status seller_order) reason in
      if negb (CodRules.ok decision) then
        rollback ;;;
        raise (Http (CodRules.http_status decision) (CodRules.d_detail decision))
      else
        let moved := apply_transition action request decision now seller_order in
        exec (with_seller_orders (update_where (λ c, so_id c =?s so_id seller_order)
                (apply_transition action request decision now))) ;;;
        product_ids <- query (product_ids_of (so_id seller_order)) ;;
        add_outbox uuid4 "SellerOrder" (so_id moved) (default "" (CodRules.d_event decision))
          (transition_payload order_id moved product_ids) now ;;;
        (if action =?s "deliver"
         then add_outbox uuid4 "SellerOrder" (so_id moved) "BookEscrowDeliveryCommand"
                (escrow_payload order_id moved) now
         else ret tt) ;;;
        match _EFFECT_COMMANDS (CodRules.d_effect decision) with
        | Some command =>
            add_outbox uuid4 "SellerOrder" (so_id moved) command
              [("order_id", JStr order_id); ("seller_order_id", JStr (so_id moved));
               ("product_ids", JList (map JStr product_ids))] now
        | None => ret tt
        end ;;;
        commit fault ;;;
        ret (transition_response order_id moved (CodRules.d_effect decision))
  end.
End handlers.

(** ** Frame lemmas *)

Section frames.
Context (uuid4 : nat → string) (repr : json → string) (fault : OrderDb.t → option string).

Lemma uncommitting_fresh : uncommitting (fresh uuid4).
Proof. unfold fresh. monadic. Qed.
Hint Resolve uncommitting_fresh : market.

Lemma uncommitting_outbox a i ty b n : uncommitting (add_outbox uuid4 a i ty b n).
Proof. unfold add_outbox. monadic. Qed.

Lemma uncommitting_check k : uncommitting (_check_idempotency_or_return_cached k).
Proof. unfold _check_idempotency_or_return_cached. monadic. Qed.
Hint Resolve uncommitting_outbox uncommitting_check : market.

Lemma uncommitting_cancel i st n : uncommitting (cancel_children_of_ended_saga uuid4 i st n).
Proof. unfold cancel_children_of_ended_saga, cancel_child. monadic. Qed.

Lemma uncommitting_plan i b n p : uncommitting (write_plan uuid4 i b n p).
Proof. unfold write_plan, write_line, uuid_or_raise. monadic. Qed.
Hint Resolve uncommitting_cancel uncommitting_plan : market.

Lemma advance_atomic o e k n : atomic (advance_saga uuid4 fault o e k n).
Proof. unfold advance_saga. monadic. Qed.

Lemma start_atomic r k n : atomic (start_saga uuid4 repr fault r k n).
Proof. unfold start_saga. monadic. Qed.

Lemma transition_atomic o so a r n :
  atomic (transition_seller_order uuid4 fault o so a r n).
Proof. unfold transition_seller_order. monadic. Qed.

Lemma preserves_fresh {C} (f : OrderDb.t → C) :
  (∀ d, f (draw d) = f d) → preserves f (fresh uuid4).
Proof. intros. unfold fresh. monadic. Qed.

Lemma preserves_outbox {C} (f : OrderDb.t → C) a i ty b n :
  (∀ d, f (draw d) = f d) → (∀ g d, f (with_outbox g d) = f d) →
  preserves f (add_outbox uuid4 a i ty b n).
Proof.
  intros. unfold add_outbox. monadic. by apply preserves_fresh.
Qed.

Lemma preserves_cancel {C} (f : OrderDb.t → C) i st n :
  (∀ d, f (draw d) = f d) → (∀ g d, f (with_outbox g d) = f d) →
  (∀ g d, f (with_seller_orders g d) = f d) →
  preserves f (cancel_children_of_ended_saga uuid4 i st n).
Proof.
  intros. unfold cancel_children_of_ended_saga, cancel_child.
  monadic. by apply preserves_outbox.
Qed.
End frames.

#[export] Hint Resolve uncommitting_fresh uncommitting_outbox uncommitting_check
  uncommitting_cancel uncommitting_plan advance_atomic start_atomic transition_atomic : market.

(** ** Properties *)

(** An error answer means nothing happened: whenever starting a saga,
    advancing one or moving a seller order answers with an error (unknown or
    out-of-order event, missing row, refused action, unsplittable cart, failed
    commit), the database is exactly what it was, the idempotency key included,
    so the caller's retry starts from scratch. *)
Theorem saga_errors_change_nothing (uuid4 : nat → string) (repr : json → string)
    (fault : OrderDb.t → option string) (d : OrderDb.t) (now : Z) :
  (∀ order_id event_type key e,
     (run (advance_saga uuid4 fault order_id event_type key now) d).2 = inl e →
     (run (advance_saga uuid4 fault order_id event_type key now) d).1 = d) ∧
  (∀ request key e,
     (run (start_saga uuid4 repr fault request key now) d).2 = inl e →
     (run (start_saga uuid4 repr fault request key now) d).1 = d) ∧
  (∀ order_id seller_order_id action request e,
     (run (transition_seller_order uuid4 fault order_id seller_order_id action request now) d).2
       = inl e →
     (run (transition_seller_order uuid4 fault order_id seller_order_id action request now) d).1
       = d).
Proof. split_and!; intros *; apply run_atomic; auto with market. Qed.

Section replay.
Context (uuid4 : nat → string) (fault : OrderDb.t → option string).

Lemma advance_cached o e k now d r x :
  dict_get (keys d) k = Some (Some r) → find_saga r d = Some x →
  run (advance_saga uuid4 fault o e k now) d = (d, inr x).
Proof.
  intros Hk Hr. unfold run, advance_saga, _check_idempotency_or_return_cached, bind, query.
  assert (Hkn : key_known k d = true).
  { apply bool_decide_eq_true, dict_get_is_Some. by eexists. }
  simpl. rewrite Hkn. simpl. rewrite Hk. simpl. by rewrite Hr.
Qed.

Lemma advance_late e k now d x :
  key_known k d = false → find_saga (id x) d = Some x →
  Transitions.outcome (Transitions.resolve (status x) e (payment_method x))
    = Transitions.LATE_DUPLICATE →
  run (advance_saga uuid4 fault (id x) e k now) d = (d, inr x).
Proof.
  intros Hk Hx Ho. unfold run, advance_saga, _check_idempotency_or_return_cached, bind, query, exec.
  simpl. rewrite Hk. simpl.
  change (find_saga (id x) (insert_key k d)) with (find_saga (id x) d). rewrite Hx. simpl.
  by rewrite Ho.
Qed.

Lemma find_update_saga o n now ss x :
  List.find (λ s, id s =?s o) ss = Some x →
  List.find (λ s, id s =?s o) (update_where (λ s, id s =?s id x) (set_status n now) ss)
  = Some (set_status n now x).
Proof.
  intros Hf. pose proof (find_elem _ _ _ Hf) as [_ Hx]. bool_to_prop.
  induction ss as [|s ss IH]; [done|]. simpl in *.
  destruct (decide (id s = o)) as [Hs|Hs].
  - rewrite bool_decide_true in Hf by done. simplify_eq.
    rewrite (bool_decide_true (id x = id x)) by done. simpl. by rewrite bool_decide_true.
  - rewrite bool_decide_false in Hf by done.
    rewrite (bool_decide_false (id s = id x)) by congruence.
    rewrite bool_decide_false by done. by apply IH.
Qed.

(** The tail shared by the two committing outcomes: emit, bind the key, commit. *)
Lemma finish_inr c k i body now (x y : OrderSagaState) st st' :
  bind (match c with
        | Some command => add_outbox uuid4 "OrderSaga" i command (body command) now
        | None => ret tt end)
    (λ _, bind (exec (bind_key k i)) (λ _, bind (commit fault) (λ _, ret x))) st
    = (st', inr y) →
  x = y ∧ sagas (committed st') = sagas (working st) ∧
  seller_orders (committed st') = seller_orders (working st) ∧
  dict_get (keys (committed st')) k = Some (Some i) ∧ working st' = committed st'.
Proof.
  intros H. step_bind H. step_bind H. step_bind H. destruct a1.
  apply commit_inr in Est1 as [_ ->]. unfold ret in H. simplify_eq.
  unfold exec in Est0. simplify_eq/=.
  assert (Hp : ∀ {C} (f : OrderDb.t → C), (∀ d, f (draw d) = f d) →
            (∀ g d, f (with_outbox g d) = f d) → f (working st0) = f (working st)).
  { intros C f H1 H2. destruct c; [by eapply preserves_eq; [apply preserves_outbox|]|].
    unfold ret in Est. by simplify_eq. }
  split_and!; [done|by apply (Hp _ sagas)|by apply (Hp _ seller_orders)| |done].
  apply dict_get_set_eq.
Qed.

Lemma check_inr k s s' r :
  _check_idempotency_or_return_cached k s = (s', inr r) →
  (r = None ∧ key_known k (working s) = false ∧
     s' = Session (committed s) (insert_key k (working s))) ∨
  (∃ c rid, r = Some c ∧ s' = s ∧ dict_get (keys (working s)) k = Some (Some rid) ∧
     find_saga rid (working s) = Some c).
Proof.
  unfold _check_idempotency_or_return_cached, bind, query.
  destruct (key_known k (working s)) eqn:Ek; simpl.
  - destruct (dict_get (keys (working s)) k) as [[rid|]|] eqn:Ed; [|done..].
    destruct (find_saga rid (working s)) as [c|] eqn:Ef; [|done].
    intros H. unfold ret in H. simplify_eq. right. eauto 10.
  - intros H. unfold exec, ret in H. simplify_eq. by left.
Qed.
End replay.

(** C15 — Delivering the same saga event twice is delivering it once: after a
    successful [advance_saga], the same request with the same idempotency key
    answers the same saga and leaves the database untouched, whether the first
    delivery applied a transition, released late stock, was itself a replay or
    was acknowledged as a late duplicate. *)
Theorem advance_saga_idempotent (uuid4 : nat → string) (fault : OrderDb.t → option string)
    (order_id event_type key : string) (now now' : Z) (d d' : OrderDb.t) (x : OrderSagaState)
    (H : run (advance_saga uuid4 fault order_id event_type key now) d = (d', inr x)) :
  run (advance_saga uuid4 fault order_id event_type key now') d' = (d', inr x).
Proof.
  pose proof H as H0. unfold run in H.
  destruct (advance_saga _ _ _ _ _ _ (Session d d)) as [st r] eqn:E. simplify_eq/=.
  unfold advance_saga in E. step_bind E.
  apply check_inr in Est as [(-> & Hk & ->)|(c & rid & -> & -> & Hd & Hf)]; simpl in *.
  2: { unfold ret in E. simplify_eq/=. by eapply advance_cached. }
  step_bind E. unfold query in Est. simplify_eq/=.
  destruct (find_saga order_id (insert_key key d)) as [y|] eqn:Ef; [|done].
  change (find_saga order_id d = Some y) in Ef.
  pose proof (find_elem _ _ _ Ef) as [_ Hy]. bool_to_prop. subst order_id.
  destruct (Transitions.outcome _) eqn:Eo.
  - step_bind E. unfold exec in Est. simplify_eq/=. step_bind E. step_bind E.
    apply finish_inr in E as (<- & Hs & _ & Hkey & _).
    eapply advance_cached; [exact Hkey|]. unfold find_saga. rewrite Hs.
    assert (Hws : sagas (working st1) = sagas (working st0)).
    { destruct (event_type =?s _); unfold exec, ret in Est0; by simplify_eq. }
    rewrite Hws. apply (preserves_eq sagas) in Est; [|by apply preserves_cancel].
    rewrite Est. simpl. by apply find_update_saga.
  - step_bind E. unfold rollback, ret in *. simplify_eq/=. by apply advance_late.
  - step_bind E. done.
  - step_bind E. done.
  - apply finish_inr in E as (<- & Hs & _ & Hkey & _).
    eapply advance_cached; [exact Hkey|]. unfold find_saga. by rewrite Hs.
Qed.

Definition sample_saga (st pm : string) : OrderSagaState :=
  {| id := "4cc1484d-0000-4000-8000-00000000000a"; user_id := "u"; status := st;
     payment_method := pm; total_cents := 990; created_at := 0; updated_at := 0 |}.

Definition sample_child (i st : string) : SellerOrder :=
  so_move st None 0 (new_seller_order i "4cc1484d-0000-4000-8000-00000000000a" i 495 2 0).

Definition sample_db (st pm : string) : OrderDb.t :=
  {| sagas := [sample_saga st pm];
     seller_orders := [sample_child "s1" "PENDING"; sample_child "s2" "DISPATCHED"];
     order_lines := []; outbox := []; keys := []; draws := 0 |}.

Definition sample_uuid4 (n : nat) : string := "id-" +:+ dec (Z.of_nat n).

Lemma advance_saga_idempotent_witness :
  let m := advance_saga sample_uuid4 (λ _, None) "4cc1484d-0000-4000-8000-00000000000a"
             "PaymentFailed" "k1" in
  ∃ d' x, run (m 7) (sample_db "INVENTORY_RESERVED" "CARD") = (d', inr x) ∧
    status x = "FAILED" ∧ run (m 9) d' = (d', inr x).
Proof.
  eexists _, _. split; [vm_compute; reflexivity|]. split; [reflexivity|].
  eapply (advance_saga_idempotent _ _ _ _ _ 7 9 (sample_db "INVENTORY_RESERVED" "CARD")).
  vm_compute. reflexivity.
Defined.

(** ** Children of a saga that ended *)

Section children.
Context (uuid4 : nat → string).

Definition close (ids : list string) (reason : string) (now : Z) (c : SellerOrder) : SellerOrder :=
  if so_id c in_ ids then so_move "CANCELLED" (Some reason) now c else c.

Lemma close_nil reason now rows : map (close [] reason now) rows = rows.
Proof. induction rows as [|c rows IH]; [done|]. simpl. by rewrite IH. Qed.

Lemma close_snoc ids i reason now rows :
  update_where (λ c, so_id c =?s i) (so_move "CANCELLED" (Some reason) now)
    (map (close ids reason now) rows) = map (close (ids ++ [i]) reason now) rows.
Proof.
  unfold update_where. rewrite map_map. apply map_ext. intros c. unfold close, in_listb.
  destruct (decide (so_id c ∈ ids)) as [Hin|Hin].
  - rewrite (bool_decide_true (so_id c ∈ ids)) by done.
    rewrite (bool_decide_true (so_id c ∈ ids ++ [i])) by (apply elem_of_app; by left).
    by destruct (so_id (so_move _ _ _ c) =?s i).
  - rewrite (bool_decide_false (so_id c ∈ ids)) by done.
    destruct (decide (so_id c = i)) as [->|Hne].
    + rewrite bool_decide_true by done. rewrite bool_decide_true; [done|].
      apply elem_of_app; right. by left.
    + rewrite bool_decide_false by done. rewrite bool_decide_false; [done|].
      intros [?|?%list_elem_of_singleton]%elem_of_app; done.
Qed.

(** The rows after the loop over the indices. *)
Lemma cancel_loop (children : list SellerOrder) reason order now (idx : list nat) st st' :
  for_each idx (λ index, match children !! index with
                         | Some child => cancel_child uuid4 order reason now child
                         | None => ret tt end) st = (st', inr tt) →
  ∀ ids rows, seller_orders (working st) = map (close ids reason now) rows →
  seller_orders (working st') =
    map (close (ids ++ omap (λ j, so_id <$> children !! j) idx) reason now) rows.
Proof.
  revert st. induction idx as [|j idx IH]; intros st H ids rows Hrows; simpl in *.
  - unfold ret in H. simplify_eq. by rewrite app_nil_r.
  - step_bind H. destruct (children !! j) as [c|]; simpl in *.
    + assert (Hst : seller_orders (working st0) = map (close (ids ++ [so_id c]) reason now) rows).
      { rewrite <-close_snoc, <-Hrows. unfold cancel_child in Est. step_bind Est.
        unfold query in Est0. simplify_eq. step_bind Est. unfold exec in Est0. simplify_eq.
        apply (preserves_eq seller_orders) in Est; [done|by apply preserves_outbox]. }
      rewrite (IH _ H _ _ Hst). by rewrite <-(assoc_L (++)).
    + unfold ret in Est. simplify_eq. by eapply IH.
Qed.

Definition closing_ids (st i : string) (d : OrderDb.t) : list string :=
  let children := children_of i d in
  omap (λ j, so_id <$> children !! j)
    (CodRules.children_to_cancel st (map so_status children)).

Lemma cancel_children_rows i st now s s' r :
  cancel_children_of_ended_saga uuid4 i st now s = (s', inr r) →
  seller_orders (working s') =
    map (close (closing_ids st i (working s)) (CodRules.cancellation_reason st) now)
      (seller_orders (working s)).
Proof.
  unfold cancel_children_of_ended_saga, closing_ids.
  destruct (negb (st in_ CodRules.SAGA_STATES_ENDING_THE_ORDER)) eqn:E.
  - intros H. unfold ret in H. simplify_eq. unfold CodRules.children_to_cancel. rewrite E.
    simpl. by rewrite close_nil.
  - intros H. step_bind H. unfold query in Est. simplify_eq. step_bind H. unfold ret in H.
    simplify_eq. destruct a. rewrite <-(app_nil_l (omap _ _)). eapply cancel_loop; [exact Est|].
    by rewrite close_nil.
Qed.

Lemma closing_ids_elem st i d j :
  j ∈ closing_ids st i d ↔ st ∈ CodRules.SAGA_STATES_ENDING_THE_ORDER ∧
    ∃ c s, c ∈ seller_orders d ∧ so_order_id c = i ∧ so_id c = j ∧
      SplitRules.as_status (so_status c) = Some s ∧ s ∈ CodRules.cancellable_child_statuses.
Proof.
  unfold closing_ids, CodRules.children_to_cancel, in_listb. rewrite list_elem_of_omap.
  destruct (decide (st ∈ CodRules.SAGA_STATES_ENDING_THE_ORDER)) as [Hst|Hst].
  2: { rewrite bool_decide_false by done. simpl. split; [|naive_solver].
       by intros (? & ?%not_elem_of_nil & _). }
  rewrite bool_decide_true by done. simpl. split.
  - intros (n & (k & t & s & -> & Hk & Hs & Hc)%CodRules.cancel_indices_elem & Hj).
    simpl in *. destruct (children_of i d !! k) as [c|] eqn:Ec; [|done]. simplify_eq/=.
    split; [done|]. exists c, s. assert (Hin : c ∈ children_of i d) by (by eapply list_elem_of_lookup_2).
    unfold children_of in Hin. rewrite sort_by_perm in Hin. apply elem_of_filter_bool in Hin as [? ?].
    bool_to_prop. split_and!; try done. change (map so_status (children_of i d) !! k = Some t) in Hk.
    rewrite list_lookup_fmap, Ec in Hk. by simplify_eq/=.
  - intros (_ & c & s & Hin & Ho & Hj & Hs & Hc).
    assert (Hch : c ∈ children_of i d).
    { unfold children_of. rewrite sort_by_perm. apply elem_of_filter_bool. split; [done|].
      by apply bool_decide_eq_true. }
    apply list_elem_of_lookup in Hch as [k Hk]. exists k. rewrite Hk. simpl.
    split; [|by f_equal]. apply CodRules.cancel_indices_elem.
    exists k, (so_status c), s. split_and!; try done.
    change (map so_status (children_of i d)) with (so_status <$> children_of i d).
    by rewrite list_lookup_fmap, Hk.
Qed.

Lemma close_fields ids reason now c :
  so_id (close ids reason now c) = so_id c ∧
  so_order_id (close ids reason now c) = so_order_id c.
Proof. unfold close. by destruct (so_id c in_ ids). Qed.

(** A successful event delivery that applied a transition: the seller orders
    afterwards are the old ones, closed and then promoted. *)
Definition promote (i now_event : string) (now : Z) (rows : list SellerOrder) : list SellerOrder :=
  if now_event =?s "InventoryReserved"
  then update_where (λ c, (so_order_id c =?s i) && (so_status c =?s "PENDING"))
         (λ c, so_move "INVENTORY_RESERVED" (so_status_reason c) now c) rows
  else rows.

Lemma advance_apply_rows fault order_id event_type key now d d' x y :
  find_saga order_id d = Some x → key_known key d = false →
  Transitions.outcome (Transitions.resolve (status x) event_type (payment_method x))
    = Transitions.APPLY →
  run (advance_saga uuid4 fault order_id event_type key now) d = (d', inr y) →
  let new_status := default (status x) (Transitions.new_status
    (Transitions.resolve (status x) event_type (payment_method x))) in
  y = set_status new_status now x ∧
  seller_orders d' = promote order_id event_type now
    (map (close (closing_ids new_status order_id d)
            (CodRules.cancellation_reason new_status) now) (seller_orders d)).
Proof.
  intros Hf Hk Ho H new_status. pose proof (find_elem _ _ _ Hf) as [_ Hi]. bool_to_prop.
  unfold run in H. destruct (advance_saga _ _ _ _ _ _ _) as [st r] eqn:E. simplify_eq/=.
  unfold advance_saga in E. step_bind E.
  apply check_inr in Est as [(-> & _ & ->)|(c & rid & -> & -> & Hd & _)]; simpl in *.
  2: { assert (Hc : key_known key d = true); [|congruence].
       apply bool_decide_eq_true, dict_get_is_Some. by eexists. }
  step_bind E. unfold query in Est. simplify_eq/=.
  change (find_saga (id x) (insert_key key d)) with (find_saga (id x) d) in E.
  rewrite Hf, Ho in E. step_bind E. unfold exec in Est. simplify_eq/=. step_bind E. step_bind E.
  apply finish_inr in E as (<- & _ & Hs & _). split; [done|]. rewrite Hs.
  apply cancel_children_rows in Est. simpl in Est. unfold promote.
  destruct (event_type =?s _); unfold exec, ret in Est0; simplify_eq/=; by rewrite Est.
Qed.

Lemma promote_away i e now rows :
  (∀ c, c ∈ rows → so_order_id c = i → so_status c ≠ "PENDING") ∨ e ≠ "InventoryReserved" →
  promote i e now rows = rows.
Proof.
  intros H. unfold promote. destruct (e =?s "InventoryReserved") eqn:E; [|done].
  bool_to_prop. destruct H as [H|H]; [|done]. induction rows as [|c rows IH]; [done|].
  simpl. rewrite IH by (intros; apply H; [by right|done]).
  destruct (so_order_id c =?s i) eqn:Eo; [|done]. bool_to_prop.
  rewrite (bool_decide_false (so_status c = "PENDING")); [done|]. apply H; [by left|done].
Qed.

Lemma ending_event s e pm n :
  Transitions.outcome (Transitions.resolve s e pm) = Transitions.APPLY →
  Transitions.new_status (Transitions.resolve s e pm) = Some n →
  n ∈ CodRules.SAGA_STATES_ENDING_THE_ORDER → e ≠ "InventoryReserved".
Proof.
  intros Ho Hn Hin ->. destruct (Transitions.resolve_apply _ _ _ _ eq_refl Ho) as (n' & c & Hn' & _ & Hc).
  rewrite Hn in Hn'. simplify_eq. unfold CodRules.SAGA_STATES_ENDING_THE_ORDER in Hin.
  elem_cases Hin; (destruct Hc as [Hc|[_ Hc]];
    [unfold Transitions.TRANSITIONS in Hc|unfold Transitions.COD_TRANSITIONS in Hc]; elem_cases Hc).
Qed.

(** The child of an order that is still cancellable, closed. *)
Definition cancelled_with (i st : string) (now : Z) (c : SellerOrder) : SellerOrder :=
  if (so_order_id c =?s i) && CodRules.may_cancel (so_status c)
  then so_move "CANCELLED" (Some (CodRules.cancellation_reason st)) now c else c.

Lemma may_cancel_iff s : CodRules.may_cancel s = true ↔
  ∃ r, SplitRules.as_status s = Some r ∧ r ∈ CodRules.cancellable_child_statuses.
Proof.
  unfold CodRules.may_cancel, in_listb. destruct (SplitRules.as_status s) as [r|].
  - rewrite bool_decide_eq_true. naive_solver.
  - naive_solver.
Qed.

Lemma close_cancelled_with st i now d :
  NoDup (map so_id (seller_orders d)) → st ∈ CodRules.SAGA_STATES_ENDING_THE_ORDER →
  map (close (closing_ids st i d) (CodRules.cancellation_reason st) now) (seller_orders d) =
  map (cancelled_with i st now) (seller_orders d).
Proof.
  intros Hnd Hst. apply map_ext_in. intros c Hc. rewrite <-list_elem_of_In in Hc.
  unfold close, cancelled_with, in_listb.
  assert (Heq : so_id c ∈ closing_ids st i d ↔
                so_order_id c = i ∧ CodRules.may_cancel (so_status c) = true).
  { rewrite closing_ids_elem, may_cancel_iff. split.
    - intros (_ & c' & s & Hc' & Ho & E & Hs & Hin).
      rewrite (map_key_inj so_id _ c c' Hnd) by done. eauto.
    - intros (Ho & s & Hs & Hin). split; [done|]. by exists c, s. }
  destruct (decide (so_id c ∈ closing_ids st i d)) as [Hin|Hin].
  - rewrite bool_decide_true by done. apply Heq in Hin as [-> ->]. by rewrite bool_decide_true.
  - rewrite bool_decide_false by done. destruct (so_order_id c =?s i) eqn:E; [|done].
    bool_to_prop. destruct (CodRules.may_cancel (so_status c)) eqn:E2; [|done].
    destruct Hin. by apply Heq.
Qed.
End children.

(** C9 — An order that ended has no live seller order: when an event moves a
    saga to FAILED, TIMED_OUT or ROLLBACK_COMPLETED, every child of that order
    that could still be cancelled is CANCELLED in the same commit with the
    saga's reason, so none is left promising goods; children already
    dispatched or finished, and the children of every other order, are
    untouched. *)
Theorem ended_saga_has_no_live_children (uuid4 : nat → string)
    (fault : OrderDb.t → option string) (order_id event_type key n : string) (now : Z)
    (d d' : OrderDb.t) (x y : OrderSagaState)
    (Hids : NoDup (map so_id (seller_orders d)))
    (Hx : find_saga order_id d = Some x) (Hkey : key_known key d = false)
    (Ho : Transitions.outcome (Transitions.resolve (status x) event_type (payment_method x))
          = Transitions.APPLY)
    (Hn : Transitions.new_status (Transitions.resolve (status x) event_type (payment_method x))
          = Some n)
    (Hend : n ∈ CodRules.SAGA_STATES_ENDING_THE_ORDER)
    (H : run (advance_saga uuid4 fault order_id event_type key now) d = (d', inr y)) :
  status y = n ∧
  seller_orders d' = map (cancelled_with order_id n now) (seller_orders d) ∧
  (∀ c, c ∈ seller_orders d' → so_order_id c = order_id →
     CodRules.may_cancel (so_status c) = false).
Proof.
  destruct (advance_apply_rows _ _ _ _ _ _ _ _ _ _ Hx Hkey Ho H) as [-> Hr].
  rewrite Hn in Hr |- *. simpl in *. split; [done|].
  rewrite promote_away in Hr by (right; by eapply ending_event).
  rewrite close_cancelled_with in Hr by done. split; [done|]. rewrite Hr.
  intros c (c0 & -> & Hc0)%elem_of_map Hoid. unfold cancelled_with in *.
  destruct ((so_order_id c0 =?s order_id) && CodRules.may_cancel (so_status c0)) eqn:E.
  - by vm_compute.
  - rewrite bool_decide_true in E by done. done.
Qed.

Lemma ended_saga_has_no_live_children_witness :
  ∃ d' y, run (advance_saga sample_uuid4 (λ _, None) "4cc1484d-0000-4000-8000-00000000000a"
                 "PaymentFailed" "k1" 7) (sample_db "INVENTORY_RESERVED" "CARD") = (d', inr y) ∧
    map so_status (seller_orders d') = ["CANCELLED"; "DISPATCHED"].
Proof.
  eexists _, _. split; [vm_compute; reflexivity|].
  eapply eq_trans.
  - eapply (f_equal (map so_status)).
    eapply (ended_saga_has_no_live_children sample_uuid4 (λ _, None)
      "4cc1484d-0000-4000-8000-00000000000a" "PaymentFailed" "k1" "FAILED" 7
      (sample_db "INVENTORY_RESERVED" "CARD")); [by_compute|vm_compute; reflexivity..|by_compute|].
    vm_compute. reflexivity.
  - vm_compute. reflexivity.
Defined.
End SagaOrchestrator.
