(* ===== verification/SagaReaper.v ===== *)
(** * The saga reaper and outbox retention (services/order-saga, main.py)

    Both loops run raw SQL in one transaction per pass.  Times are microseconds;
    [NOW()] is the time of the pass.  Rows another transaction holds a lock on
    are passed over ([SKIP LOCKED]): which ones is an argument of the pass. *)

From S2P Require Import Prelude PyValue Session Transitions SplitRules CodRules OrderDb SagaOrchestrator.
Import OrderDb.

Module SagaReaper.

Definition TIMEOUT : Z := 15 * 60 * 1000000.
Definition RETENTION : Z := 7 * 86400 * 1000000.

(** [WITH candidates AS (SELECT ... WHERE ...)] without the lock test *)
Definition stale (now : Z) (s : OrderSagaState) : bool :=
  (updated_at s <? now - TIMEOUT) &&
  (((payment_method s =?s "CARD") &&
    (status s in_ ["PENDING"; "INVENTORY_RESERVED"; "PAID"])) ||
   (negb (payment_method s =?s "CARD") && (status s =?s "PENDING"))).

(** [CASE t.previous_status ...]: no arm gives NULL, which unnests to no row. *)
Definition commands_for (previous_status : string) : list string :=
  if previous_status =?s "PENDING" then ["SagaTimedOut"]
  else if previous_status =?s "INVENTORY_RESERVED"
       then ["ReleaseInventoryCommand"; "RefundPaymentCommand"]
  else if previous_status =?s "PAID" then ["RefundPaymentCommand"]
  else [].

Definition timeout_payload (s : OrderSagaState) : list (string * json) :=
  [("order_id", JStr (id s)); ("user_id", JStr (user_id s));
   ("previous_status", JStr (status s)); ("reason", JStr "Saga timeout after 15 minutes")].

(** A live child whose order's saga ended, with the saga's status. *)
Definition stranded_under (d : OrderDb.t) (c : SellerOrder) : option string :=
  match find_saga (so_order_id c) d with
  | Some s =>
      if (status s in_ ["FAILED"; "TIMED_OUT"; "ROLLBACK_COMPLETED"]) &&
         (so_status c in_ ["PENDING"; "INVENTORY_RESERVED"; "CONFIRMED"])
      then Some (status s) else None
  | None => None
  end.

Definition closed_child (saga_status : string) (now : Z) (c : SellerOrder) : SellerOrder :=
  so_move "CANCELLED" (Some ("order " +:+ replace "_" " " (lower saga_status))) now c.

Definition closed_payload (c : SellerOrder) (product_ids : list string) : list (string * json) :=
  [("order_id", JStr (so_order_id c)); ("seller_order_id", JStr (so_id c));
   ("seller_id", JStr (so_seller_id c)); ("status", JStr "CANCELLED");
   ("status_reason", opt_str (so_status_reason c));
   ("subtotal_cents", JInt (so_subtotal_cents c));
   ("courier_name", opt_str (so_courier_name c));
   ("tracking_code", opt_str (so_tracking_code c));
   ("product_ids", JList (map JStr product_ids))].

Section passes.
Context (uuid4 : nat → string) (fault : OrderDb.t → option string) (locked : string → bool).

Definition candidates (now : Z) (d : OrderDb.t) : list OrderSagaState :=
  List.filter (λ s, stale now s && negb (locked (id s))) (sagas d).

(** The first statement: time out, then one message per compensating command. *)
Definition sweep_sagas (now : Z) : M OrderDb.t unit :=
  found <- query (candidates now) ;;
  exec (with_sagas (update_where (λ s, id s in_ map id found) (set_status "TIMED_OUT" now))) ;;;
  for_each found (λ s, for_each (commands_for (status s)) (λ cmd,
    add_outbox uuid4 "OrderSaga" (id s) cmd (timeout_payload s) now)).

Definition strandedb (d : OrderDb.t) (c : SellerOrder) : bool :=
  match stranded_under d c with Some _ => negb (locked (so_id c)) | None => false end.

Definition close_stranded (d : OrderDb.t) (now : Z) (c : SellerOrder) : SellerOrder :=
  match stranded_under d c with
  | Some st => if negb (locked (so_id c)) then closed_child st now c else c
  | None => c
  end.

(** The second statement: close the children of orders that ended. *)
Definition sweep_children (now : Z) : M OrderDb.t unit :=
  snapshot <- query (λ d, d) ;;
  exec (with_seller_orders (map (close_stranded snapshot now))) ;;;
  for_each (List.filter (strandedb snapshot) (seller_orders snapshot)) (λ c,
    let closed := close_stranded snapshot now c in
    add_outbox uuid4 "SellerOrder" (so_id c) "SellerOrderCancelled"
      (closed_payload closed (product_ids_of (so_id c) snapshot)) now).

(** One iteration of [saga_reaper_loop]: both statements in one transaction;
    an exception is logged and the pass leaves nothing behind. *)
Definition saga_reaper_pass (now : Z) : M OrderDb.t unit :=
  sweep_sagas now ;;; sweep_children now ;;; try_commit fault ;;; ret tt.

(** One iteration of [outbox_cleanup_loop]. *)
Definition outbox_cleanup_pass (now : Z) : M OrderDb.t unit :=
  exec (with_outbox (List.filter (λ r, negb (msg_created_at (ob_msg r) <? now - RETENTION)))) ;;;
  try_commit fault ;;; ret tt.

(** ** What a pass does *)

Definition timeout_messages (now : Z) (s : OrderSagaState) : list OutboxMessage :=
  map (λ cmd, message "OrderSaga" (id s) cmd (timeout_payload s) now) (commands_for (status s)).

Definition closed_messages (snapshot : OrderDb.t) (now : Z) (c : SellerOrder) : list OutboxMessage :=
  [message "SellerOrder" (so_id c) "SellerOrderCancelled"
     (closed_payload (close_stranded snapshot now c) (product_ids_of (so_id c) snapshot)) now].

Definition timed_out_db (now : Z) (d : OrderDb.t) : OrderDb.t :=
  emit uuid4 (concat (map (timeout_messages now) (candidates now d)))
    (with_sagas (update_where (λ s, id s in_ map id (candidates now d))
       (set_status "TIMED_OUT" now)) d).

Definition reaped_db (now : Z) (d : OrderDb.t) : OrderDb.t :=
  let d1 := timed_out_db now d in
  emit uuid4 (concat (map (closed_messages d1 now) (List.filter (strandedb d1) (seller_orders d1))))
    (with_seller_orders (map (close_stranded d1 now)) d1).

Lemma sweep_sagas_run now s :
  sweep_sagas now s = (Session (committed s) (timed_out_db now (working s)), inr tt).
Proof.
  unfold sweep_sagas, bind, query, exec. simpl.
  rewrite (emit_loop uuid4 (timeout_messages now)); [done|]. intros x s' _.
  rewrite (emit_loop uuid4 (λ cmd, [message "OrderSaga" (id x) cmd (timeout_payload x) now]));
    [|done]. unfold timeout_messages. do 3 f_equal. induction (commands_for (status x)); [done|].
  simpl. by f_equal.
Qed.

Lemma saga_reaper_pass_run now d :
  run (saga_reaper_pass now) d =
    (match fault (reaped_db now d) with None => reaped_db now d | Some _ => d end, inr tt).
Proof.
  unfold run, saga_reaper_pass, bind. rewrite sweep_sagas_run. simpl.
  unfold sweep_children, bind, query, exec. simpl.
  rewrite (emit_loop uuid4 (closed_messages (timed_out_db now d) now)) by done.
  simpl. unfold try_commit. simpl.
  change (emit uuid4 _ _) with (reaped_db now d). by destruct (fault (reaped_db now d)).
Qed.

Definition swept (now : Z) (s : OrderSagaState) : OrderSagaState :=
  if stale now s && negb (locked (id s)) then set_status "TIMED_OUT" now s else s.

Lemma timed_out_sagas now d :
  NoDup (map id (sagas d)) → sagas (timed_out_db now d) = map (swept now) (sagas d).
Proof.
  intros Hnd. unfold timed_out_db. rewrite (proj1 (emit_frame _ _ _)). simpl. unfold update_where.
  apply map_ext_in. intros s Hs. rewrite <-list_elem_of_In in Hs. unfold swept, in_listb.
  destruct (stale now s && negb (locked (id s))) eqn:E.
  - rewrite bool_decide_true; [done|]. apply elem_of_map. exists s. split; [done|].
    by apply elem_of_filter_bool.
  - rewrite bool_decide_false; [done|]. intros (s' & Hid & [Hs' E']%elem_of_filter_bool)%elem_of_map.
    assert (s = s') by (by eapply map_key_inj). congruence.
Qed.
End passes.

Lemma timed_out_frames uuid4 locked now d :
  seller_orders (timed_out_db uuid4 locked now d) = seller_orders d ∧
  order_lines (timed_out_db uuid4 locked now d) = order_lines d ∧
  messages (timed_out_db uuid4 locked now d) =
    messages d ++ concat (map (timeout_messages now) (candidates locked now d)) ∧
  (draws d ≤ draws (timed_out_db uuid4 locked now d))%nat.
Proof.
  unfold timed_out_db. destruct (emit_frame uuid4
    (concat (map (timeout_messages now) (candidates locked now d)))
    (with_sagas (update_where (λ s, id s in_ map id (candidates locked now d))
         (set_status "TIMED_OUT" now)) d)) as (_ & -> & -> & _ & -> & ->).
  simpl. split_and!; [done..|lia].
Qed.

Lemma reaped_frames uuid4 locked now d :
  let d1 := timed_out_db uuid4 locked now d in
  sagas (reaped_db uuid4 locked now d) = sagas d1 ∧
  seller_orders (reaped_db uuid4 locked now d) =
    map (close_stranded locked d1 now) (seller_orders d) ∧
  order_lines (reaped_db uuid4 locked now d) = order_lines d ∧
  messages (reaped_db uuid4 locked now d) =
    messages d ++ concat (map (timeout_messages now) (candidates locked now d)) ++
    concat (map (closed_messages locked d1 now)
      (List.filter (strandedb locked d1) (seller_orders d))) ∧
  (draws d ≤ draws (reaped_db uuid4 locked now d))%nat.
Proof.
  intros d1. destruct (timed_out_frames uuid4 locked now d) as (Hso & Hol & Hm & Hd).
  fold d1 in Hso, Hol, Hm, Hd. unfold reaped_db. fold d1. rewrite Hso.
  destruct (emit_frame uuid4 (concat (map (closed_messages locked d1 now)
    (List.filter (strandedb locked d1) (seller_orders d))))
    (with_seller_orders (map (close_stranded locked d1 now)) d1)) as (-> & -> & -> & _ & -> & ->).
  split_and!; [done|simpl; by rewrite Hso|done| |simpl; lia].
  change (messages (with_seller_orders _ d1)) with (messages d1). rewrite Hm.
  by rewrite <-(assoc_L (++)).
Qed.

Lemma stranded_may_cancel c :
  so_status c in_ ["PENDING"; "INVENTORY_RESERVED"; "CONFIRMED"] = CodRules.may_cancel (so_status c).
Proof.
  apply eq_bool_prop_intro. rewrite !Is_true_true. unfold in_listb. rewrite bool_decide_eq_true.
  rewrite SagaOrchestrator.may_cancel_iff. setoid_rewrite CodRules.cancellable_iff. split.
  - intros H. unfold SplitRules.as_status. elem_cases H;
      match goal with E : so_status c = _ |- _ => rewrite E end;
      (eexists; split; [vm_compute; reflexivity|by_compute]).
  - intros (r & ->%SplitRules.as_status_Some & H). elem_cases H; by_compute.
Qed.

Lemma stale_commands now s : stale now s = true → commands_for (status s) ≠ [].
Proof.
  intros H. apply andb_true_iff in H as [_ H]. apply orb_true_iff in H as [H|H];
    apply andb_true_iff in H as [_ H]; apply bool_decide_eq_true in H; [elem_cases H|];
    match goal with E : status s = _ |- _ => rewrite E end; by vm_compute.
Qed.

(** What moves one saga: an event that applies, or the reaper. *)
Inductive saga_move (s : OrderSagaState) : OrderSagaState → Prop :=
| by_event e n now :
    Transitions.outcome (Transitions.resolve (status s) e (payment_method s)) = Transitions.APPLY →
    Transitions.new_status (Transitions.resolve (status s) e (payment_method s)) = Some n →
    saga_move s (set_status n now s)
| by_reaper now : stale now s = true → saga_move s (set_status "TIMED_OUT" now s).

Lemma saga_move_closer s s' :
  saga_move s s' → (Transitions.distance (status s') < Transitions.distance (status s))%nat.
Proof.
  intros [e n now Ho Hn|now H]; [by eapply Transitions.apply_closer|].
  apply andb_true_iff in H as [_ H]. apply orb_true_iff in H as [H|H];
    apply andb_true_iff in H as [_ H]; apply bool_decide_eq_true in H; [elem_cases H|];
    cbn [status set_status]; match goal with E : status s = _ |- _ => rewrite E end; by_compute.
Qed.

(** C7 — A saga terminates: events and reaper sweeps together move it at most
    four times from any state, whatever the order they arrive in, and a saga
    in a terminal state is never moved again. *)
Theorem saga_moves_at_most_four (n : nat) (s s' : OrderSagaState)
    (Hrun : steps_run saga_move n s s') :
  (n ≤ 4)%nat ∧ (status s ∈ Transitions.TERMINAL_STATES → n = 0%nat ∧ s' = s).
Proof.
  pose proof (steps_run_bounded _ (λ s, Transitions.distance (status s)) saga_move_closer _ _ _ Hrun) as Hb.
  assert (Hmax : (Transitions.distance (status s) ≤ 4)%nat).
  { unfold Transitions.distance, in_listb. repeat case_bool_decide; lia. }
  cbv beta in Hb. split; [lia|]. intros Hs.
  assert (H0 : Transitions.distance (status s) = 0%nat).
  { unfold Transitions.TERMINAL_STATES in Hs. elem_cases Hs;
      match goal with E : status s = _ |- _ => rewrite E end; by vm_compute. }
  assert (n = 0%nat) by lia. subst. split; [done|]. by inversion Hrun.
Qed.

Lemma saga_moves_at_most_four_witness :
  ∃ s', steps_run saga_move 2 (SagaOrchestrator.sample_saga "PAID" "CARD") s' ∧
    status s' = "ROLLBACK_COMPLETED" ∧ (2 ≤ 4)%nat.
Proof.
  assert (Hrun : steps_run saga_move 2 (SagaOrchestrator.sample_saga "PAID" "CARD")
    (set_status "ROLLBACK_COMPLETED" 1001
       (set_status "TIMED_OUT" 1000000000 (SagaOrchestrator.sample_saga "PAID" "CARD")))).
  { eapply steps_run_cons; [apply (by_reaper _ 1000000000); vm_compute; reflexivity|].
    eapply steps_run_cons; [apply (by_event _ "PaymentRefunded" "ROLLBACK_COMPLETED" 1001); vm_compute; reflexivity|].
    apply steps_run_nil. }
  eexists. split; [exact Hrun|]. split; [reflexivity|].
  exact (proj1 (saga_moves_at_most_four _ _ _ Hrun)).
Defined.

Lemma close_stranded_done locked d1 now c0 d' :
  sagas d' = sagas d1 → locked (so_id (close_stranded locked d1 now c0)) = false →
  stranded_under d' (close_stranded locked d1 now c0) = None.
Proof.
  intros Hs. unfold close_stranded. destruct (stranded_under d1 c0) as [st|] eqn:E.
  - destruct (negb (locked (so_id c0))) eqn:El; bool_to_prop; [|congruence]. intros _.
    unfold stranded_under, closed_child. simpl.
    destruct (find_saga (so_order_id c0) d') as [s|]; [|done]. by rewrite andb_false_r.
  - intros _. rewrite <-E. unfold stranded_under, find_saga. by rewrite Hs.
Qed.

(** C21 — A reaper pass that commits compensates what it times out and leaves
    no live child under a dead order: exactly the stale, unlocked sagas become
    TIMED_OUT; each of them has every compensating command of its previous
    status in the outbox, and there is always at least one; a saga touched in
    the last fifteen minutes is left as it is; an order paid on
    delivery whose stock is already reserved is never touched; and afterwards
    no unlocked seller order is live under an order that failed, timed out or
    rolled back. *)
Theorem reaper_compensates_and_closes (uuid4 : nat → string) (locked : string → bool)
    (now : Z) (d : OrderDb.t) (Hids : NoDup (map id (sagas d))) :
  let d' := (run (saga_reaper_pass uuid4 (λ _, None) locked now) d).1 in
  sagas d' = map (swept locked now) (sagas d) ∧
  (∀ s, s ∈ sagas d → stale now s = true → locked (id s) = false →
     commands_for (status s) ≠ [] ∧
     ∀ cmd, cmd ∈ commands_for (status s) →
       message "OrderSaga" (id s) cmd (timeout_payload s) now ∈ messages d') ∧
  (∀ s, s ∈ sagas d → now - 15 * 60 * 1000000 ≤ updated_at s → s ∈ sagas d') ∧
  (∀ s, s ∈ sagas d → payment_method s = "COD" → status s ≠ "PENDING" → s ∈ sagas d') ∧
  (∀ c, c ∈ seller_orders d' → locked (so_id c) = false → stranded_under d' c = None).
Proof.
  rewrite saga_reaper_pass_run. simpl.
  destruct (reaped_frames uuid4 locked now d) as (Hsg & Hso & _ & Hm & _).
  assert (Hsw : sagas (reaped_db uuid4 locked now d) = map (swept locked now) (sagas d)).
  { rewrite Hsg. by apply timed_out_sagas. }
  split_and!; [done| | | |].
  - intros s Hs Hst Hl. split; [by eapply stale_commands|]. intros cmd Hcmd. rewrite Hm.
    rewrite !elem_of_app. right; left. apply elem_of_concat_map. exists s. split.
    + apply elem_of_filter_bool. by rewrite Hst, Hl.
    + apply elem_of_map. by exists cmd.
  - intros s Hs Hup. rewrite Hsw. apply elem_of_map. exists s. split; [|done].
    unfold swept, stale. assert (updated_at s <? now - TIMEOUT = false) as -> by (unfold TIMEOUT; lia). done.
  - intros s Hs Hpm Hst. rewrite Hsw. apply elem_of_map. exists s. split; [|done].
    unfold swept, stale. rewrite Hpm. simpl. rewrite (bool_decide_false (status s = _)) by done.
    by rewrite andb_false_r.
  - intros c Hc. rewrite Hso in Hc. apply elem_of_map in Hc as (c0 & -> & _).
    apply close_stranded_done. by rewrite Hsg.
Qed.

Lemma reaper_compensates_and_closes_witness :
  let d := SagaOrchestrator.sample_db "INVENTORY_RESERVED" "CARD" in
  NoDup (map id (sagas d)) ∧
  let d' := (run (saga_reaper_pass SagaOrchestrator.sample_uuid4 (λ _, None) (λ _, false) 1000000000) d).1 in
  map status (sagas d') = ["TIMED_OUT"] ∧
  map so_status (seller_orders d') = ["CANCELLED"; "DISPATCHED"] ∧
  map msg_type (messages d') =
    ["ReleaseInventoryCommand"; "RefundPaymentCommand"; "SellerOrderCancelled"].
Proof.
  assert (Hids : NoDup (map id (sagas (SagaOrchestrator.sample_db "INVENTORY_RESERVED" "CARD"))))
    by by_compute.
  split; [exact Hids|]. split_and!; [|vm_compute; reflexivity..].
  rewrite (proj1 (reaper_compensates_and_closes _ _ _ _ Hids)).
  vm_compute. reflexivity.
Defined.

End SagaReaper.
