(* ===== verification/OrderSystem.v ===== *)
(** * The order service as a system (services/order-saga)

    What a started saga writes, what a seller order's action emits, and the
    invariant every request and every reaper pass preserves: each seller order
    has exactly the inventory and escrow commands its status calls for. *)

From S2P Require Import Prelude PyValue Session Transitions SplitRules CodRules OrderDb SagaOrchestrator SagaReaper.
Import OrderDb.

Module OrderSystem.
Import SagaOrchestrator.

(** ** Starting a saga *)

Section start.
Context (uuid4 : nat → string) (repr : json → string) (fault : OrderDb.t → option string).

Definition line_row (saga_id so seller : string) (l : SplitRules.OrderLine) : OrderLine :=
  {| ol_order_id := saga_id; ol_seller_order_id := so;
     ol_product_id := default "" (UUID (SplitRules.product_id l)); ol_seller_id := seller;
     ol_quantity := SplitRules.quantity l; ol_price_cents := SplitRules.price_cents l;
     ol_line_total_cents := SplitRules.line_total_cents l; ol_currency := "BDT" |}.

Definition created_message (saga_id buyer so : string) (now : Z) (p : SplitRules.SellerOrderPlan)
    : OutboxMessage :=
  message "SellerOrder" so "SellerOrderCreated"
    (SplitRules.build_seller_order_event saga_id so buyer p "PENDING") now.

(** The database after one plan is written. *)
Definition planned (saga_id buyer : string) (now : Z) (d : OrderDb.t)
    (p : SplitRules.SellerOrderPlan) : OrderDb.t :=
  let so := uuid4 (draws d) in
  let seller := default "" (UUID (SplitRules.seller_id p)) in
  emit uuid4 [created_message saga_id buyer so now p]
    (with_order_lines (λ ls, ls ++ map (line_row saga_id so seller) (SplitRules.lines p))
      (with_seller_orders (λ sos, sos ++
         [new_seller_order so saga_id seller (SplitRules.subtotal_cents p)
            (SplitRules.item_count p) now]) (draw d))).

Lemma write_lines saga so seller ls s s' :
  for_each ls (write_line saga so seller) s = (s', inr tt) →
  s' = Session (committed s)
         (with_order_lines (λ rows, rows ++ map (line_row saga so seller) ls) (working s)) ∧
  Forall (λ l, is_Some (UUID (SplitRules.product_id l))) ls.
Proof.
  revert s. induction ls as [|l ls IH]; intros s H; simpl in *.
  - unfold ret in H. simplify_eq. split; [|done]. destruct s' as [c []]; unfold with_order_lines;
      simpl. by rewrite app_nil_r.
  - step_bind H. unfold write_line, uuid_or_raise in Est.
    destruct (UUID (SplitRules.product_id l)) as [p|] eqn:E; [|done].
    apply IH in H as [-> Hls]. unfold bind, ret, exec in Est. simplify_eq/=. split; [|by constructor].
    unfold with_order_lines, line_row at 2. simpl. rewrite E. by rewrite <-(assoc_L (++)).
Qed.

Lemma write_plan_inr saga buyer now p s s' :
  write_plan uuid4 saga buyer now p s = (s', inr tt) →
  s' = Session (committed s) (planned saga buyer now (working s) p) ∧
  is_Some (UUID (SplitRules.seller_id p)) ∧
  Forall (λ l, is_Some (UUID (SplitRules.product_id l))) (SplitRules.lines p).
Proof.
  intros H. unfold write_plan in H. step_bind H. unfold fresh, bind, query, exec, ret in Est.
  simplify_eq/=. unfold planned. unfold uuid_or_raise in H.
  destruct (UUID (SplitRules.seller_id p)) as [seller|] eqn:E; [|done].
  step_bind H. unfold ret in Est. simplify_eq/=. step_bind H. unfold exec in Est. simplify_eq/=.
  step_bind H. destruct a0. apply write_lines in Est as [-> Hls].
  rewrite add_outbox_emit in H. simplify_eq/=. done.
Qed.

Lemma write_plans saga buyer now plans s s' :
  for_each plans (write_plan uuid4 saga buyer now) s = (s', inr tt) →
  s' = Session (committed s) (foldl (planned saga buyer now) (working s) plans) ∧
  Forall (λ p, is_Some (UUID (SplitRules.seller_id p)) ∧
    Forall (λ l, is_Some (UUID (SplitRules.product_id l))) (SplitRules.lines p)) plans.
Proof.
  revert s. induction plans as [|p plans IH]; intros s H; simpl in *.
  - unfold ret in H. simplify_eq. by destruct s'.
  - step_bind H. destruct a. apply write_plan_inr in Est as (-> & Hp & Hls).
    apply IH in H as [-> Hps]. simpl. split; [done|]. by constructor.
Qed.

(** The ids the plans' seller orders get, starting from draw [n]. *)
Fixpoint plan_ids (n : nat) (plans : list SplitRules.SellerOrderPlan) : list string :=
  match plans with [] => [] | _ :: ps => uuid4 n :: plan_ids (S (S n)) ps end.

Definition plan_row (saga : string) (now : Z) (e : string * SplitRules.SellerOrderPlan)
    : SellerOrder :=
  new_seller_order e.1 saga (default "" (UUID (SplitRules.seller_id e.2)))
    (SplitRules.subtotal_cents e.2) (SplitRules.item_count e.2) now.

Definition plan_lines (saga : string) (e : string * SplitRules.SellerOrderPlan) : list OrderLine :=
  map (line_row saga e.1 (default "" (UUID (SplitRules.seller_id e.2)))) (SplitRules.lines e.2).

Lemma planned_all saga buyer now plans d :
  let d' := foldl (planned saga buyer now) d plans in
  let tagged := zip (plan_ids (draws d) plans) plans in
  sagas d' = sagas d ∧ keys d' = keys d ∧
  draws d' = (draws d + 2 * length plans)%nat ∧
  seller_orders d' = seller_orders d ++ map (plan_row saga now) tagged ∧
  order_lines d' = order_lines d ++ concat (map (plan_lines saga) tagged) ∧
  messages d' = messages d ++ map (λ e, created_message saga buyer e.1 now e.2) tagged.
Proof.
  revert d. induction plans as [|p plans IH]; intros d; simpl.
  - rewrite !app_nil_r. split_and!; try done; lia.
  - destruct (IH (planned saga buyer now d p)) as (-> & -> & -> & -> & -> & ->). simpl.
    split_and!; try done; [lia|by rewrite <-(assoc_L (++))|by rewrite <-(assoc_L (++))|].
    unfold messages at 1. simpl. rewrite map_app, <-(assoc_L (++)). done.
Qed.

Lemma plan_ids_lt n plans i : i ∈ plan_ids n plans → ∃ k, (n ≤ k < n + 2 * length plans)%nat ∧ i = uuid4 k.
Proof.
  revert n. induction plans as [|p plans IH]; intros n; simpl; [by intros ?%not_elem_of_nil|].
  intros [->|H]%elem_of_cons; [exists n; split; [lia|done]|].
  apply IH in H as (k & Hk & ->). exists k. split; [lia|done].
Qed.

Lemma plan_ids_nodup n plans : Inj (=) (=) uuid4 → NoDup (plan_ids n plans).
Proof.
  intros Hinj. revert n. induction plans as [|p plans IH]; intros n; simpl; [constructor|].
  constructor; [|apply IH]. intros (k & Hk & E)%plan_ids_lt. apply Hinj in E. lia.
Qed.

Lemma plan_ids_length n plans : length (plan_ids n plans) = length plans.
Proof. revert n. induction plans; intros; simpl; [done|]. by f_equal. Qed.

Definition usable_ids (p : SplitRules.SellerOrderPlan) : Prop :=
  is_Some (UUID (SplitRules.seller_id p)) ∧
  Forall (λ l, is_Some (UUID (SplitRules.product_id l))) (SplitRules.lines p).

Lemma write_lines_run saga so seller ls s :
  Forall (λ l, is_Some (UUID (SplitRules.product_id l))) ls →
  ∃ s', for_each ls (write_line saga so seller) s = (s', inr tt).
Proof.
  intros Hls. revert s. induction Hls as [|l ls [p Hp] _ IH]; intros s; [by eexists|].
  simpl. unfold bind at 1. unfold write_line at 1, uuid_or_raise at 1. rewrite Hp. apply IH.
Qed.

Lemma write_plans_run saga buyer now plans s :
  Forall usable_ids plans →
  for_each plans (write_plan uuid4 saga buyer now) s =
    (Session (committed s) (foldl (planned saga buyer now) (working s) plans), inr tt).
Proof.
  intros Hps.
  assert (Hex : ∀ s, ∃ s', for_each plans (write_plan uuid4 saga buyer now) s = (s', inr tt)).
  { induction Hps as [|p plans [[seller Hseller] Hls] _ IH]; intros s0; [by eexists|].
    simpl. unfold bind at 1. unfold write_plan at 1, uuid_or_raise at 1.
    rewrite Hseller. unfold bind, fresh, query, exec, ret. simpl.
    destruct (write_lines_run saga (uuid4 (draws (working s0))) seller (SplitRules.lines p)
      (Session (committed s0) (with_seller_orders (λ sos, sos ++
         [new_seller_order (uuid4 (draws (working s0))) saga seller (SplitRules.subtotal_cents p)
            (SplitRules.item_count p) now]) (draw (working s0))))) as [s1 ->]; [done|].
    rewrite add_outbox_emit. apply IH. }
  destruct (Hex s) as [s' E]. rewrite E. apply write_plans in E as [-> _]. done.
Qed.

Definition started (request : CreateOrderRequest) (saga : string) (now : Z) : OrderSagaState :=
  {| id := saga; user_id := req_user_id request; status := "PENDING"; payment_method := "COD";
     total_cents := req_total_cents request; created_at := now; updated_at := now |}.

Definition reserve_message (request : CreateOrderRequest) (saga : string) (now : Z) : OutboxMessage :=
  message "OrderSaga" saga "ReserveInventoryCommand"
    [("order_id", JStr saga); ("user_id", JStr (req_user_id request));
     ("items_payload", req_items_payload request)] now.

(** The database a started saga commits. *)
Definition started_db (request : CreateOrderRequest) (key : string) (now : Z)
    (plans : list SplitRules.SellerOrderPlan) (d : OrderDb.t) : OrderDb.t :=
  let saga := uuid4 (draws d) in
  bind_key key saga (emit uuid4 [reserve_message request saga now]
    (foldl (planned saga (req_user_id request) now)
       (with_sagas (λ ss, ss ++ [started request saga now]) (draw (insert_key key d))) plans)).

Lemma start_saga_run request key now d :
  key_known key d = false →
  run (start_saga uuid4 repr fault request key now) d =
    match SplitRules.split_by_seller repr (req_items_payload request) with
    | inl (SplitRules.SplitError detail) => (d, inl (Http 422 detail))
    | inl (SplitRules.SplitRaised e) => (d, inl (Raised (exn_name e)))
    | inr plans =>
        let saga := uuid4 (draws d) in
        match for_each plans (write_plan uuid4 saga (req_user_id request) now)
                (Session d (with_sagas (λ ss, ss ++ [started request saga now])
                              (draw (insert_key key d)))) with
        | (_, inl e) => (d, inl e)
        | (_, inr _) =>
            match fault (started_db request key now plans d) with
            | None => (started_db request key now plans d, inr (started request saga now))
            | Some e => (d, inl (Http 500 e))
            end
        end
    end.
Proof.
  intros Hk. unfold run, start_saga, _check_idempotency_or_return_cached, bind, query, exec. simpl.
  rewrite Hk. simpl. destruct (SplitRules.split_by_seller _ _) as [[]|plans]; [done..|].
  fold (started request (uuid4 (draws d)) now).
  match goal with |- context [for_each plans ?b ?s0] =>
    destruct (for_each plans b s0) as [s1 [e|[]]] eqn:E;
    pose proof (uncommitting_for plans b (uncommitting_plan uuid4 _ _ _) s0) as Hc end.
  - rewrite E in Hc. simpl in *. by rewrite Hc.
  - apply write_plans in E as [-> _]. unfold commit, try_commit, bind. cbn [working committed].
    change (fault _) with (fault (started_db request key now plans d)).
    by destruct (fault (started_db request key now plans d)).
Qed.

Lemma started_db_fields request key now plans d :
  let d' := started_db request key now plans d in
  let saga := uuid4 (draws d) in
  let tagged := zip (plan_ids (S (draws d)) plans) plans in
  sagas d' = sagas d ++ [started request saga now] ∧
  dict_get (keys d') key = Some (Some saga) ∧
  draws d' = (draws d + 2 * length plans + 2)%nat ∧
  seller_orders d' = seller_orders d ++ map (plan_row saga now) tagged ∧
  order_lines d' = order_lines d ++ concat (map (plan_lines saga) tagged) ∧
  messages d' = messages d ++
    map (λ e, created_message saga (req_user_id request) e.1 now e.2) tagged ++
    [reserve_message request saga now].
Proof.
  intros d' saga tagged.
  destruct (planned_all saga (req_user_id request) now plans
    (with_sagas (λ ss, ss ++ [started request saga now]) (draw (insert_key key d))))
    as (H1 & H2 & H3 & H4 & H5 & H6).
  subst d'. unfold started_db. fold saga. cbv zeta.
  remember (foldl (planned saga (req_user_id request) now)
    (with_sagas (λ ss, ss ++ [started request saga now]) (draw (insert_key key d))) plans)
    as d1 eqn:Ed1. clear Ed1.
  split_and!; [exact H1|apply dict_get_set_eq|simpl in *; lia|exact H4|exact H5|].
  rewrite (assoc_L (++)). unfold messages at 1. simpl. rewrite map_app. f_equal. exact H6.
Qed.

Lemma plan_rows_sum saga now (ids : list string) plans :
  length ids = length plans →
  sumZ so_subtotal_cents (map (plan_row saga now) (zip ids plans)) =
    SplitRules.goods_subtotal_cents plans.
Proof.
  unfold SplitRules.goods_subtotal_cents. revert ids.
  induction plans as [|p plans IH]; intros [|i ids] H; simplify_eq/=; [done|]. by rewrite IH.
Qed.

Lemma plan_lines_sum saga (ids : list string) plans :
  length ids = length plans →
  Forall (λ p, SplitRules.subtotal_cents p = sumZ SplitRules.line_total_cents (SplitRules.lines p)) plans →
  sumZ ol_line_total_cents (concat (map (plan_lines saga) (zip ids plans))) =
    SplitRules.goods_subtotal_cents plans.
Proof.
  unfold SplitRules.goods_subtotal_cents. intros Hl Hp. revert ids Hl.
  induction Hp as [|p plans Hp _ IH]; intros [|i ids] H; simplify_eq/=; [done|].
  rewrite sumZ_app, IH by done. unfold plan_lines at 1. rewrite sumZ_map. simpl. by rewrite Hp.
Qed.

Lemma split_subtotals payload plans :
  SplitRules.split_by_seller repr payload = inr plans →
  Forall (λ p, SplitRules.subtotal_cents p =
               sumZ SplitRules.line_total_cents (SplitRules.lines p)) plans.
Proof.
  unfold SplitRules.split_by_seller. destruct (SplitRules.normalise_items payload) eqn:En; [done|].
  rewrite <-En. clear En. destruct (SplitRules.group_lines _ _ _); [done|].
  intros H. simplify_eq. apply Forall_forall. intros p (e & -> & _)%elem_of_map. done.
Qed.
End start.

(** Starting a saga records the whole order in one commit: for a cart
    that splits and names its sellers and products by UUID, the new request
    succeeds and adds the saga at PENDING, one PENDING seller order per plan
    under a distinct fresh id, every line of the cart under its seller order,
    one SellerOrderCreated per seller order and exactly one
    ReserveInventoryCommand, and binds the key to the saga; and the seller
    orders' subtotals, the recorded lines and the cart agree to the cent. *)
Theorem start_saga_records_the_order (uuid4 : nat → string) (repr : json → string)
    (request : CreateOrderRequest) (key : string) (now : Z) (d : OrderDb.t)
    (plans : list SplitRules.SellerOrderPlan)
    (Hinj : Inj (=) (=) uuid4) (Hkey : key_known key d = false)
    (Hsplit : SplitRules.split_by_seller repr (req_items_payload request) = inr plans)
    (Hids : Forall usable_ids plans) :
  ∃ d' saga sos lines created,
    run (start_saga uuid4 repr (λ _, None) request key now) d = (d', inr saga) ∧
    status saga = "PENDING" ∧ sagas d' = sagas d ++ [saga] ∧
    dict_get (keys d') key = Some (Some (id saga)) ∧
    seller_orders d' = seller_orders d ++ sos ∧ length sos = length plans ∧
    NoDup (map so_id sos) ∧
    (∀ c, c ∈ sos → so_order_id c = id saga ∧ so_status c = "PENDING") ∧
    order_lines d' = order_lines d ++ lines ∧
    (∀ l, l ∈ lines → ol_order_id l = id saga ∧ ol_seller_order_id l ∈ map so_id sos) ∧
    messages d' = messages d ++ created ++ [reserve_message request (id saga) now] ∧
    map (λ m, (msg_type m, aggregate_id m)) created =
      map (λ c, ("SellerOrderCreated", so_id c)) sos ∧
    sumZ so_subtotal_cents sos = sumZ ol_line_total_cents lines ∧
    sumZ so_subtotal_cents sos = SplitRules.goods_subtotal_cents plans.
Proof.
  set (saga := uuid4 (draws d)). set (ids := plan_ids uuid4 (S (draws d)) plans).
  assert (Hlen : length ids = length plans) by apply plan_ids_length.
  destruct (started_db_fields uuid4 request key now plans d) as (H1 & H2 & _ & H3 & H4 & H5).
  fold saga ids in H1, H2, H3, H4, H5.
  assert (Hso : map so_id (map (plan_row saga now) (zip ids plans)) = ids).
  { rewrite map_map. change (fst <$> zip ids plans = ids). apply fst_zip. lia. }
  exists (started_db uuid4 request key now plans d), (started request saga now),
    (map (plan_row saga now) (zip ids plans)), (concat (map (plan_lines saga) (zip ids plans))),
    (map (λ e, created_message saga (req_user_id request) e.1 now e.2) (zip ids plans)).
  split_and!; try done.
  - rewrite start_saga_run, Hsplit by done. cbv beta iota zeta. by rewrite write_plans_run by done.
  - rewrite length_map, length_zip. lia.
  - rewrite Hso. by apply plan_ids_nodup.
  - by intros c (e & -> & _)%elem_of_map.
  - intros l (e & He & (x & -> & _)%elem_of_map)%elem_of_concat_map. split; [done|]. rewrite Hso. simpl.
    destruct e as [i p]. simpl. by eapply elem_of_zip_l.
  - rewrite !map_map. done.
  - rewrite plan_rows_sum, plan_lines_sum by (done || by eapply split_subtotals). done.
  - by apply plan_rows_sum.
Qed.

Definition sample_request : CreateOrderRequest :=
  let u c := "4cc1484d-0000-4000-8000-00000000000" +:+ c in
  {| req_user_id := "u"; req_total_cents := 1090;
     req_items_payload := JList [SplitRules.sample_line (u "2") (u "9") 1 500;
       SplitRules.sample_line (u "1") (u "3") 2 400; SplitRules.sample_line (u "2") (u "8") 3 90] |}.

Lemma start_saga_records_the_order_witness :
  ∃ d' saga sos,
    run (start_saga unary_id (λ _, "") (λ _, None) sample_request "k" 5) OrderDb.empty
      = (d', inr saga) ∧ seller_orders d' = sos ∧ length sos = 2%nat ∧
    sumZ so_subtotal_cents sos = 990.
Proof.
  destruct (SplitRules.split_by_seller (λ _, "") (req_items_payload sample_request)) as [e|plans] eqn:E;
    [vm_compute in E; discriminate E|].
  assert (Hp : Forall usable_ids plans ∧ length plans = 2%nat ∧
               SplitRules.goods_subtotal_cents plans = 990).
  { vm_compute in E. injection E as <-. split; [|by vm_compute].
    repeat constructor; (eexists; vm_compute; reflexivity). }
  destruct Hp as (Hu & Hl & Hg).
  destruct (start_saga_records_the_order unary_id (λ _, "") sample_request "k" 5 OrderDb.empty plans
    unary_id_inj eq_refl E Hu) as
    (d' & saga & sos & lines & created & Hrun & _ & _ & _ & Hso & Hlen & _ & _ & _ & _ & _ & _ & _ & Hsum).
  exists d', saga, sos. split_and!; [exact Hrun|exact Hso|by rewrite Hlen|by rewrite Hsum].
Defined.

(** ** Every seller order has the commands its status calls for *)

Definition BOOK := "BookEscrowDeliveryCommand".
Definition CONSUME_CMD := "ConsumeSellerOrderInventoryCommand".
Definition RELEASE_CMD := "ReleaseSellerOrderInventoryCommand".
Definition COMMANDS : list string := [BOOK; CONSUME_CMD; RELEASE_CMD].

(** How many messages of type [ty] the outbox holds for seller order [i]. *)
Definition issued (ty i : string) (ms : list OutboxMessage) : nat :=
  length (List.filter (λ m, (msg_type m =?s ty) && (aggregate_id m =?s i)) ms).

Definition delivered (st : string) : nat := if st in_ ["DELIVERED"; "SETTLED"] then 1 else 0.

(** The commands a seller order in status [st] has caused.  A cancellation by
    the seller releases its stock; one that follows the saga's does not, the
    saga's own compensation having released the whole order. *)
Definition matches (st : string) (book consume release : nat) : Prop :=
  book = delivered st ∧ consume = delivered st ∧
  (if st =?s "RETURNED" then release = 1%nat
   else if st =?s "CANCELLED" then (release ≤ 1)%nat else release = 0%nat).

Record consistent (uuid4 : nat → string) (d : OrderDb.t) : Prop := {
  ids_drawn : ∀ c, c ∈ seller_orders d → ∃ n, (n < draws d)%nat ∧ so_id c = uuid4 n;
  ids_unique : NoDup (map so_id (seller_orders d));
  owned : ∀ m, m ∈ messages d → msg_type m ∈ COMMANDS →
            aggregate_id m ∈ map so_id (seller_orders d);
  commanded : ∀ c, c ∈ seller_orders d →
    matches (so_status c) (issued BOOK (so_id c) (messages d))
      (issued CONSUME_CMD (so_id c) (messages d)) (issued RELEASE_CMD (so_id c) (messages d));
}.

Lemma issued_app ty i ms ms' : issued ty i (ms ++ ms') = (issued ty i ms + issued ty i ms')%nat.
Proof. unfold issued. by rewrite List.filter_app, length_app. Qed.

Lemma issued_none ty i ms :
  (∀ m, m ∈ ms → msg_type m = ty → aggregate_id m ≠ i) → issued ty i ms = 0%nat.
Proof.
  intros H. unfold issued. rewrite filter_none; [done|]. intros m Hm.
  destruct (msg_type m =?s ty) eqn:E; [|done]. bool_to_prop. apply bool_decide_eq_false. by apply H.
Qed.

(** Messages that are not commands leave every count alone. *)
Definition silent (ms : list OutboxMessage) : Prop := ∀ m, m ∈ ms → msg_type m ∉ COMMANDS.

Lemma issued_silent ty i ms ms' : ty ∈ COMMANDS → silent ms' →
  issued ty i (ms ++ ms') = issued ty i ms.
Proof.
  intros Hty Hs. rewrite issued_app, (issued_none _ _ ms'); [lia|].
  intros m Hm <-. by destruct (Hs m Hm).
Qed.

(** A status change that asks for no command. *)
Definition quiet (c c' : SellerOrder) : Prop :=
  so_id c' = so_id c ∧ ∀ b k r, matches (so_status c) b k r → matches (so_status c') b k r.

Lemma quiet_step uuid4 d d' (f : SellerOrder → SellerOrder) news ms :
  consistent uuid4 d → (draws d ≤ draws d')%nat → Inj (=) (=) uuid4 →
  (∀ c, c ∈ seller_orders d → quiet c (f c)) →
  seller_orders d' = map f (seller_orders d) ++ news →
  (∀ c, c ∈ news → so_status c = "PENDING" ∧
     ∃ n, (draws d ≤ n < draws d')%nat ∧ so_id c = uuid4 n) →
  NoDup (map so_id news) →
  messages d' = messages d ++ ms → silent ms →
  consistent uuid4 d'.
Proof.
  intros [Hd Hu Ho Hc] Hdr Hinj Hf Hrows Hnew Hnd Hm Hs.
  assert (Hids : map so_id (map f (seller_orders d)) = map so_id (seller_orders d)).
  { rewrite map_map. apply map_ext_in. intros c Hin. apply Hf. by apply list_elem_of_In. }
  assert (Hfresh : ∀ c, c ∈ news → so_id c ∉ map so_id (seller_orders d)).
  { intros c Hc' (c0 & E & (n & Hn & E')%Hd)%elem_of_map.
    destruct (Hnew c Hc') as (_ & k & Hk & E''). assert (k = n); [apply Hinj; congruence|lia]. }
  constructor; rewrite ?Hrows, ?Hm.
  - intros c [(c0 & -> & Hc0)%elem_of_map|Hc']%elem_of_app.
    + destruct (Hd c0 Hc0) as (n & Hn & E). exists n. split; [lia|]. by rewrite (proj1 (Hf c0 Hc0)).
    + destruct (Hnew c Hc') as (_ & n & Hn & E). exists n. split; [lia|done].
  - rewrite map_app, Hids. apply NoDup_app. split_and!; [done| |done].
    intros i Hi (c & -> & Hc')%elem_of_map. by apply (Hfresh c).
  - intros m [Hin|Hin]%elem_of_app Hty; [|by destruct (Hs m Hin)].
    rewrite map_app, Hids. apply elem_of_app. left. by apply Ho.
  - intros c Hin. rewrite !issued_silent by (done || by_compute).
    apply elem_of_app in Hin as [(c0 & -> & Hc0)%elem_of_map|Hc'].
    + destruct (Hf c0 Hc0) as [-> Hq]. apply Hq. by apply Hc.
    + destruct (Hnew c Hc') as [-> _].
      rewrite !issued_none; [by vm_compute|..]; intros m Hin Hty Hi;
        apply (Hfresh c Hc'); rewrite <-Hi; apply Ho; try done; rewrite Hty; by_compute.
Qed.

(** ** Computations that emit no command *)

Definition quietly {A} (m : M OrderDb.t A) : Prop := ∀ s s' a, m s = (s', inr a) →
  ∃ ms, messages (working s') = messages (working s) ++ ms ∧ silent ms ∧
    (draws (working s) ≤ draws (working s'))%nat.

Lemma silent_nil : silent [].
Proof. by intros m ?%not_elem_of_nil. Qed.

Lemma quietly_same {A} (m : M OrderDb.t A) :
  (∀ s s' a, m s = (s', inr a) → messages (working s') = messages (working s) ∧
     draws (working s') = draws (working s)) → quietly m.
Proof.
  intros H s s' a E. destruct (H _ _ _ E) as [-> ->]. exists []. rewrite app_nil_r.
  split_and!; [done|apply silent_nil|lia].
Qed.

Lemma quietly_bind {A B} (m : M OrderDb.t A) (k : A → M OrderDb.t B) :
  quietly m → (∀ a, quietly (k a)) → quietly (bind m k).
Proof.
  intros Hm Hk s s' b H. step_bind H. apply Hm in Est as (ms & E1 & S1 & D1).
  apply Hk in H as (ms' & E2 & S2 & D2). exists (ms ++ ms'). rewrite E2, E1, (assoc_L (++)).
  split_and!; [done| |lia]. intros x [?|?]%elem_of_app; auto.
Qed.

Lemma quietly_mono {A} (m : M OrderDb.t A) s s' a : m s = (s', inr a) → quietly m →
  ∃ ms, messages (working s') = messages (working s) ++ ms ∧ silent ms ∧
    (draws (working s) ≤ draws (working s'))%nat.
Proof. intros E H. by apply (H _ _ _ E). Qed.

Lemma quietly_ret {A} (a : A) : quietly (ret a).
Proof. apply quietly_same. intros s s' b H. unfold ret in H. by simplify_eq. Qed.
Lemma quietly_raise {A} e : quietly (raise (A := A) e).
Proof. intros s s' a H. done. Qed.
Lemma quietly_query {A} (f : OrderDb.t → A) : quietly (query f).
Proof. apply quietly_same. intros s s' b H. unfold query in H. by simplify_eq. Qed.
Lemma quietly_exec g : (∀ d, outbox (g d) = outbox d ∧ draws (g d) = draws d) → quietly (exec g).
Proof.
  intros Hg. apply quietly_same. intros s s' b H. unfold exec in H. simplify_eq/=.
  unfold messages. by destruct (Hg (working s)) as [-> ->].
Qed.
Lemma quietly_for {A} (l : list A) body : (∀ x, quietly (body x)) → quietly (for_each l body).
Proof.
  intros H. induction l as [|x l IH]; [apply quietly_ret|]. apply quietly_bind; [apply H|by intros _].
Qed.
Lemma quietly_outbox uuid4 a i ty b now : ty ∉ COMMANDS → quietly (add_outbox uuid4 a i ty b now).
Proof.
  intros Hty s s' u H. rewrite add_outbox_emit in H. simplify_eq. cbn [working].
  destruct (emit_frame uuid4 [message a i ty b now] (working s)) as (_ & _ & _ & _ & -> & ->).
  eexists. split_and!; [done| |lia]. by intros m ->%list_elem_of_singleton.
Qed.
Lemma quietly_commit fault : quietly (commit fault).
Proof. apply quietly_same. intros s s' [] [_ ->]%commit_inr. done. Qed.

Ltac quiet_auto :=
  repeat match goal with
  | |- quietly (bind _ _) => apply quietly_bind; [|intros ?]
  | |- quietly (ret _) => apply quietly_ret
  | |- quietly (raise _) => apply quietly_raise
  | |- quietly (query _) => apply quietly_query
  | |- quietly (exec _) => apply quietly_exec; done
  | |- quietly (for_each _ _) => apply quietly_for; intros ?
  | |- quietly (commit _) => apply quietly_commit
  | |- quietly (add_outbox _ _ _ _ _ _) => apply quietly_outbox; first [by_compute|auto]
  | |- quietly (match ?x with _ => _ end) => destruct x eqn:?
  end.

Lemma quietly_cancel uuid4 i st now : quietly (cancel_children_of_ended_saga uuid4 i st now).
Proof. unfold cancel_children_of_ended_saga, cancel_child. quiet_auto. Qed.

(** The saga's own commands are not seller order commands. *)
Lemma resolve_command_quiet s e pm c :
  Transitions.command (Transitions.resolve s e pm) = Some c → c ∉ COMMANDS.
Proof.
  intros H. destruct (Transitions.outcome (Transitions.resolve s e pm)) eqn:Eo.
  1: destruct (Transitions.resolve_apply _ _ _ _ eq_refl Eo) as (n & c' & _ & E & Hin);
     rewrite H in E; subst c'; destruct Hin as [Hin|[_ Hin]];
     [unfold Transitions.TRANSITIONS in Hin|unfold Transitions.COD_TRANSITIONS in Hin];
     elem_cases Hin; by_compute.
  4: destruct (Transitions.resolve_compensate _ _ _ _ eq_refl Eo) as (_ & E & _ & _);
     rewrite H in E; simplify_eq; by_compute.
  all: destruct (Transitions.resolve_rejected _ _ _ _ eq_refl ltac:(by rewrite Eo) ltac:(by rewrite Eo))
         as [_ E]; congruence.
Qed.

(** ** Each kind of step keeps the orders consistent *)

Section steps.
Context (uuid4 : nat → string) (repr : json → string) (fault : OrderDb.t → option string).
Context (Hinj : Inj (=) (=) uuid4).

Lemma quiet_refl c : quiet c c.
Proof. done. Qed.

Lemma quiet_cancel reason now c :
  CodRules.may_cancel (so_status c) = true → quiet c (so_move "CANCELLED" reason now c).
Proof.
  rewrite <-SagaReaper.stranded_may_cancel. intros H%bool_decide_eq_true.
  split; [done|]. intros b k r (-> & -> & Hr). cbn [so_status so_move].
  elem_cases H; match goal with E : so_status c = _ |- _ => rewrite E in * end;
    vm_compute in Hr; subst r; vm_compute; auto.
Qed.

Lemma quiet_promote reason now c :
  so_status c = "PENDING" → quiet c (so_move "INVENTORY_RESERVED" reason now c).
Proof. intros E. split; [done|]. intros b k r (-> & -> & Hr). rewrite E in *. done. Qed.

(** Closing, then promoting, each row. *)
Definition promote1 (i e : string) (now : Z) (c : SellerOrder) : SellerOrder :=
  if (e =?s "InventoryReserved") && ((so_order_id c =?s i) && (so_status c =?s "PENDING"))
  then so_move "INVENTORY_RESERVED" (so_status_reason c) now c else c.

Lemma promote_map i e now rows : promote i e now rows = map (promote1 i e now) rows.
Proof.
  unfold promote, promote1. destruct (e =?s "InventoryReserved"); simpl; [done|].
  symmetry. apply map_id.
Qed.

Lemma close_quiet st i now d c :
  NoDup (map so_id (seller_orders d)) → c ∈ seller_orders d →
  quiet c (close (closing_ids st i d) (CodRules.cancellation_reason st) now c).
Proof.
  intros Hnd Hc. unfold close, in_listb. case_bool_decide as Hin; [|apply quiet_refl].
  apply quiet_cancel. apply closing_ids_elem in Hin as (_ & c' & s & Hc' & _ & E & Hs & Hcs).
  rewrite (map_key_inj so_id _ c c' Hnd) by done. apply may_cancel_iff. eauto.
Qed.

Lemma quiet_trans c1 c2 c3 : quiet c1 c2 → quiet c2 c3 → quiet c1 c3.
Proof. intros [E1 H1] [E2 H2]. split; [congruence|]. auto. Qed.

Lemma promote1_quiet i e now c : quiet c (promote1 i e now c).
Proof.
  unfold promote1. destruct ((e =?s _) && _) eqn:E; [|apply quiet_refl]. bool_to_prop.
  by apply quiet_promote.
Qed.

(** The part of [advance_saga] after the decision, for the two outcomes that commit. *)
Lemma advance_effect o e k now d d' y :
  run (advance_saga uuid4 fault o e k now) d = (d', inr y) →
  d' = d ∨ ∃ f ms, seller_orders d' = map f (seller_orders d) ∧
    (NoDup (map so_id (seller_orders d)) → ∀ c, c ∈ seller_orders d → quiet c (f c)) ∧
    messages d' = messages d ++ ms ∧ silent ms ∧ (draws d ≤ draws d')%nat.
Proof.
  intros H. unfold run in H.
  destruct (advance_saga uuid4 fault o e k now (Session d d)) as [st r] eqn:E. simplify_eq/=.
  unfold advance_saga in E. step_bind E.
  apply check_inr in Est as [(-> & Hk & ->)|(c & rid & -> & -> & _)]; simpl in *.
  2: { unfold ret in E. simplify_eq. by left. }
  step_bind E. unfold query in Est. simplify_eq/=.
  destruct (find_saga o (insert_key k d)) as [x|] eqn:Ef; [|done].
  pose proof (find_elem _ _ _ Ef) as [_ Hx]. bool_to_prop. subst o.
  assert (Hcmd : ∀ c, Transitions.command (Transitions.resolve (status x) e (payment_method x)) = Some c →
    c ∉ COMMANDS) by apply resolve_command_quiet.
  destruct (Transitions.outcome _) eqn:Eo.
  - right. pose proof E as Eq. step_bind E. unfold exec in Est. simplify_eq/=.
    step_bind E. step_bind E. apply finish_inr in E as (_ & _ & Hs & _ & Hw).
    apply cancel_children_rows in Est. simpl in Est.
    exists (λ c, promote1 (id x) e now (close (closing_ids
      (default (status x) (Transitions.new_status
         (Transitions.resolve (status x) e (payment_method x)))) (id x) d)
      (CodRules.cancellation_reason (default (status x) (Transitions.new_status
         (Transitions.resolve (status x) e (payment_method x))))) now c)).
    rewrite <-(map_map (close _ _ _) (promote1 _ _ _)), <-promote_map, Hs. unfold promote.
    eapply quietly_mono in Eq as (ms & Hm & Hsil & Hd); [|quiet_auto; apply quietly_cancel].
    rewrite Hw in Hm, Hd. exists ms. split_and!; [|..|exact Hm|exact Hsil|exact Hd].
    + destruct (e =?s _); unfold exec, ret in Est0; simplify_eq/=; by rewrite Est.
    + intros Hnd c Hc. eapply quiet_trans; [by apply close_quiet|apply promote1_quiet].
  - step_bind E. unfold rollback, ret in *. simplify_eq/=. by left.
  - step_bind E. done.
  - step_bind E. done.
  - right. pose proof E as Eq. apply finish_inr in E as (_ & _ & Hs & _ & Hw).
    eapply quietly_mono in Eq as (ms & Hm & Hsil & Hd); [|quiet_auto].
    rewrite Hw in Hm, Hd. exists (λ c, c), ms. rewrite map_id. by split_and!.
Qed.

(** ** A seller order's action *)

Definition transition_messages (order_id action : string) (decision : CodRules.Decision)
    (moved : SellerOrder) (product_ids : list string) (now : Z) : list OutboxMessage :=
  message "SellerOrder" (so_id moved) (default "" (CodRules.d_event decision))
    (transition_payload order_id moved product_ids) now ::
  (if action =?s "deliver"
   then [message "SellerOrder" (so_id moved) BOOK (escrow_payload order_id moved) now] else []) ++
  match _EFFECT_COMMANDS (CodRules.d_effect decision) with
  | Some command =>
      [message "SellerOrder" (so_id moved) command
         [("order_id", JStr order_id); ("seller_order_id", JStr (so_id moved));
          ("product_ids", JList (map JStr product_ids))] now]
  | None => []
  end.

(** The decision a request gets in a database, and what it commits. *)
Definition action_reason (request : option SellerOrderActionRequest) : string :=
  match request with Some r => default "" (req_reason r) | None => "" end.

Definition moved_db (order_id action : string) (request : option SellerOrderActionRequest)
    (now : Z) (x : SellerOrder) (d : OrderDb.t) : OrderDb.t :=
  let decision := CodRules.plan_transition action (so_status x) (action_reason request) in
  let move := apply_transition action request decision now in
  emit uuid4 (transition_messages order_id action decision (move x)
                (product_ids_of (so_id x) d) now)
    (with_seller_orders (update_where (λ c, so_id c =?s so_id x) move) d).

Lemma transition_seller_order_run o so action request now d :
  run (transition_seller_order uuid4 fault o so action request now) d =
    match find_seller_order o so d with
    | None => (d, inl (Http 404 "Seller order not found"))
    | Some x =>
        let decision := CodRules.plan_transition action (so_status x) (action_reason request) in
        if negb (CodRules.ok decision)
        then (d, inl (Http (CodRules.http_status decision) (CodRules.d_detail decision)))
        else match fault (moved_db o action request now x d) with
             | Some e => (d, inl (Http 500 e))
             | None => (moved_db o action request now x d,
                        inr (transition_response o
                               (apply_transition action request decision now x)
                               (CodRules.d_effect decision)))
             end
    end.
Proof.
  unfold run, transition_seller_order, bind at 1, query at 1. cbn -[find_seller_order CodRules.plan_transition].
  destruct (find_seller_order o so d) as [x|]; [|done]. fold (action_reason request).
  set (decision := CodRules.plan_transition action (so_status x) (action_reason request)).
  destruct (negb (CodRules.ok decision)); [done|].
  unfold moved_db. fold decision. unfold transition_messages.
  destruct (action =?s "deliver"), (_EFFECT_COMMANDS (CodRules.d_effect decision));
    unfold commit, try_commit, bind, exec, query, ret; rewrite !add_outbox_emit; cbn [working committed];
    match goal with |- _ = match fault ?D2 with _ => _ end =>
      change (fault _) with (fault D2) at 1; by destruct (fault D2) end.
Qed.

Lemma issued_cons ty i m ms : issued ty i (m :: ms) =
  ((if (msg_type m =?s ty) && (aggregate_id m =?s i) then 1 else 0) + issued ty i ms)%nat.
Proof. unfold issued. simpl. by destruct (_ && _). Qed.

Lemma event_quiet action table s t :
  (action, table) ∈ CodRules.ACTIONS → (s, t) ∈ table → CodRules.event t ∉ COMMANDS.
Proof. unfold CodRules.ACTIONS. intros Ha Ht. elem_cases Ha; elem_cases Ht; by_compute. Qed.

Lemma transition_counts o action request now x product_ids b k r :
  let decision := CodRules.plan_transition action (so_status x) (action_reason request) in
  let moved := apply_transition action request decision now x in
  let ms := transition_messages o action decision moved product_ids now in
  CodRules.ok decision = true → matches (so_status x) b k r →
  matches (so_status moved) (b + issued BOOK (so_id x) ms) (k + issued CONSUME_CMD (so_id x) ms)
    (r + issued RELEASE_CMD (so_id x) ms).
Proof.
  intros decision moved ms Hok (-> & -> & Hr). subst ms moved. unfold transition_messages.
  apply bool_decide_eq_true in Hok. subst decision.
  destruct (CodRules.plan_transition_ok _ _ _ Hok) as (s & table & t & Hs & Ha & Ht & _ & Heq).
  rewrite Heq. apply SplitRules.as_status_Some in Hs. rewrite Hs in *.
  rewrite !issued_cons. cbn [msg_type message CodRules.d_event CodRules.d_effect default].
  pose proof (event_quiet _ _ _ _ Ha Ht) as Hev.
  rewrite !(bool_decide_false (CodRules.event t = _)) by (intros E; apply Hev; rewrite E; by_compute).
  cbn [andb Nat.add]. cbn [so_status apply_transition CodRules.d_to].
  pose proof (CodRules.actions_cases _ _ _ _ Ha Ht) as Hc.
  elem_cases Hc; repeat match goal with
    | H : CodRules.to t = _ |- _ => rewrite H | H : CodRules.effect t = _ |- _ => rewrite H end;
    cbn [_EFFECT_COMMANDS so_id apply_transition]; vm_compute in Hr; subst r;
    (match goal with |- context [?a =?s "deliver"] =>
       let b := eval vm_compute in (a =?s "deliver") in change (a =?s "deliver") with b end);
    unfold issued; cbn [message msg_type aggregate_id List.filter app];
    rewrite ?(bool_decide_true (so_id x = so_id x)) by done; vm_compute; auto.
Qed.

Lemma transition_aggregates o action decision moved product_ids now m :
  m ∈ transition_messages o action decision moved product_ids now → aggregate_id m = so_id moved.
Proof.
  unfold transition_messages. intros [->|[H|H]%elem_of_app]%elem_of_cons; [done|..].
  - destruct (action =?s _); [|by apply not_elem_of_nil in H].
    by apply list_elem_of_singleton in H as ->.
  - destruct (_EFFECT_COMMANDS _); [|by apply not_elem_of_nil in H].
    by apply list_elem_of_singleton in H as ->.
Qed.

Lemma moved_consistent o so action request now x d :
  consistent uuid4 d → find_seller_order o so d = Some x →
  CodRules.ok (CodRules.plan_transition action (so_status x) (action_reason request)) = true →
  consistent uuid4 (moved_db o action request now x d).
Proof.
  intros [Hd Hu Ho Hc] Hf Hok. pose proof (find_elem _ _ _ Hf) as [Hx _].
  set (decision := CodRules.plan_transition action (so_status x) (action_reason request)).
  set (move := apply_transition action request decision now).
  set (ms := transition_messages o action decision (move x) (product_ids_of (so_id x) d) now).
  assert (Hrows : update_where (λ c, so_id c =?s so_id x) move (seller_orders d) =
                  map (λ c, if so_id c =?s so_id x then move x else c) (seller_orders d)).
  { apply map_ext_in. intros c Hin%list_elem_of_In. case_bool_decide as E; [|done].
    by rewrite (map_key_inj so_id _ c x Hu). }
  destruct (emit_frame uuid4 ms (with_seller_orders (update_where (λ c, so_id c =?s so_id x) move) d))
    as (_ & Hs & _ & _ & Hdr & Hm).
  change (emit uuid4 ms _) with (moved_db o action request now x d) in Hs, Hdr, Hm.
  cbn [seller_orders with_seller_orders draws] in Hs, Hdr.
  change (messages (with_seller_orders _ d)) with (messages d) in Hm. rewrite Hrows in Hs.
  assert (Hids : map so_id (seller_orders (moved_db o action request now x d)) =
                 map so_id (seller_orders d)).
  { rewrite Hs, map_map. apply map_ext. intros c. case_bool_decide as E; [by rewrite E|done]. }
  assert (Hagg : ∀ m, m ∈ ms → aggregate_id m = so_id x) by (intros m Hm'; by rewrite (transition_aggregates _ _ _ _ _ _ m Hm')).
  constructor; rewrite ?Hids, ?Hm, ?Hdr.
  - intros c Hin. assert (Hi : so_id c ∈ map so_id (seller_orders d)).
    { rewrite <-Hids. apply elem_of_map. eauto. }
    apply elem_of_map in Hi as (c0 & -> & (n & Hn & E)%Hd). exists n. split; [lia|done].
  - done.
  - intros m [Hin|Hin]%elem_of_app Hty; [by apply Ho|]. rewrite (Hagg m Hin).
    apply elem_of_map. eauto.
  - intros c Hin. rewrite Hs in Hin. apply elem_of_map in Hin as (c0 & -> & Hc0).
    rewrite !issued_app. case_bool_decide as E.
    + change (so_id (move x)) with (so_id x). apply transition_counts; [done|]. by apply Hc.
    + rewrite !(issued_none _ _ ms) by (intros m Hm' _; rewrite (Hagg m Hm'); congruence).
      rewrite !Nat.add_0_r. by apply Hc.
Qed.

Lemma transition_consistent o so action request now d :
  consistent uuid4 d →
  consistent uuid4 (run (transition_seller_order uuid4 fault o so action request now) d).1.
Proof.
  intros Hc. rewrite transition_seller_order_run.
  destruct (find_seller_order o so d) as [x|] eqn:Ef; [|done]. cbv zeta.
  destruct (CodRules.ok _) eqn:Eok; [|done]. cbn [negb].
  destruct (fault _); [done|]. by eapply moved_consistent.
Qed.

Lemma advance_consistent o e k now d :
  consistent uuid4 d → consistent uuid4 (run (advance_saga uuid4 fault o e k now) d).1.
Proof.
  intros Hc. destruct (run (advance_saga uuid4 fault o e k now) d) as [d' [x|y]] eqn:E.
  - pose proof (run_atomic _ d x (advance_atomic uuid4 fault o e k now)) as H. rewrite E in H.
    simpl in *. by rewrite H.
  - apply advance_effect in E as [->|(f & ms & Hr & Hq & Hm & Hs & Hd)]; [done|]. simpl.
    pose proof (ids_unique _ _ Hc) as Hu.
    eapply (quiet_step uuid4 d d' f [] ms); try done.
    + auto.
    + by rewrite app_nil_r.
    + by intros c ?%not_elem_of_nil.
    + constructor.
Qed.

Lemma start_consistent request key now d :
  consistent uuid4 d → consistent uuid4 (run (start_saga uuid4 repr fault request key now) d).1.
Proof.
  intros Hc. destruct (key_known key d) eqn:Ek.
  - destruct (run (start_saga uuid4 repr fault request key now) d) as [d' [x|y]] eqn:E.
    + pose proof (run_atomic _ d x (start_atomic uuid4 repr fault request key now)) as H.
      rewrite E in H. simpl in *. by rewrite H.
    + unfold run in E. destruct (start_saga _ _ _ _ _ _ _) as [st r] eqn:E2. simplify_eq/=.
      unfold start_saga in E2. step_bind E2.
      apply check_inr in Est as [(-> & Hk & _)|(c & rid & -> & -> & _)]; simpl in *; [congruence|].
      unfold ret in E2. by simplify_eq.
  - rewrite start_saga_run by done. destruct (SplitRules.split_by_seller _ _) as [[]|plans]; [done..|].
    cbv zeta. destruct (for_each _ _ _) as [? [?|?]]; [done|]. destruct (fault _); [done|].
    destruct (started_db_fields uuid4 request key now plans d) as (_ & _ & Hd & Hso & _ & Hm).
    cbn [fst] in *. eapply (quiet_step uuid4 d _ (λ c, c)); try done.
    + lia.
    + by rewrite map_id.
    + intros c ([i p] & -> & He)%elem_of_map. split; [done|].
      apply elem_of_zip_l, plan_ids_lt in He as (n & Hn & ->). exists n. split; [lia|done].
    + rewrite map_map. change (NoDup (fst <$> zip (plan_ids uuid4 (S (draws d)) plans) plans)).
      rewrite fst_zip by (rewrite plan_ids_length; lia). by apply plan_ids_nodup.
    + intros m [(e & -> & _)%elem_of_map| ->%list_elem_of_singleton]%elem_of_app; by_compute.
Qed.

Lemma reap_consistent locked now d :
  consistent uuid4 d →
  consistent uuid4 (run (SagaReaper.saga_reaper_pass uuid4 fault locked now) d).1.
Proof.
  intros Hc. rewrite SagaReaper.saga_reaper_pass_run. destruct (fault _); [done|]. cbn [fst].
  destruct (SagaReaper.reaped_frames uuid4 locked now d) as (_ & Hso & _ & Hm & Hd).
  eapply (quiet_step uuid4 d _ _ [] _ Hc Hd Hinj); [|by rewrite app_nil_r, Hso|..|exact Hm|].
  - intros c _. unfold SagaReaper.close_stranded, SagaReaper.stranded_under.
    destruct (find_saga _ _) as [s|]; [|apply quiet_refl]. destruct (_ && _) eqn:E; [|apply quiet_refl].
    destruct (negb _); [|apply quiet_refl]. apply andb_true_iff in E as [_ E].
    rewrite SagaReaper.stranded_may_cancel in E. by apply quiet_cancel.
  - by intros c ?%not_elem_of_nil.
  - constructor.
  - intros m [(s & _ & (cmd & -> & Hcmd)%elem_of_map)%elem_of_concat_map
             |(c & _ & ->%list_elem_of_singleton)%elem_of_concat_map]%elem_of_app; [|by_compute].
    simpl. unfold SagaReaper.commands_for in Hcmd.
    repeat (destruct (status s =?s _) in Hcmd); elem_cases Hcmd; by_compute.
Qed.
End steps.

(** One request handled, or one reaper pass, by the order service. *)
Inductive order_step (uuid4 : nat → string) (repr : json → string)
    (fault : OrderDb.t → option string) (d : OrderDb.t) : OrderDb.t → Prop :=
| step_start request key now :
    order_step uuid4 repr fault d (run (start_saga uuid4 repr fault request key now) d).1
| step_event order_id event_type key now :
    order_step uuid4 repr fault d (run (advance_saga uuid4 fault order_id event_type key now) d).1
| step_seller_action order_id seller_order_id action request now :
    order_step uuid4 repr fault d
      (run (transition_seller_order uuid4 fault order_id seller_order_id action request now) d).1
| step_reap locked now :
    order_step uuid4 repr fault d (run (SagaReaper.saga_reaper_pass uuid4 fault locked now) d).1.

Lemma empty_consistent uuid4 : consistent uuid4 OrderDb.empty.
Proof. constructor; simpl; [|constructor|..]; by intros ? ?%not_elem_of_nil. Qed.

(** C20 — Over any history of the order service (orders started, saga events
    delivered, seller and courier actions, reaper passes, in any order, with
    any commits failing), every seller order has caused exactly the commands
    its status calls for: one escrow booking and one stock consumption if and
    only if it was delivered, exactly one stock release if it was returned, at
    most one if it was cancelled, and none otherwise; and no such command
    names an unknown seller order. *)
Theorem commands_match_status (uuid4 : nat → string) (repr : json → string)
    (fault : OrderDb.t → option string) (d : OrderDb.t)
    (Hinj : Inj (=) (=) uuid4)
    (Hreach : rtc (order_step uuid4 repr fault) OrderDb.empty d) :
  (∀ c, c ∈ seller_orders d →
     matches (so_status c) (issued BOOK (so_id c) (messages d))
       (issued CONSUME_CMD (so_id c) (messages d)) (issued RELEASE_CMD (so_id c) (messages d))) ∧
  (∀ m, m ∈ messages d → msg_type m ∈ COMMANDS →
     aggregate_id m ∈ map so_id (seller_orders d)).
Proof.
  assert (Hc : consistent uuid4 d).
  { eapply (rtc_invariant _ (consistent uuid4)); [|exact Hreach|apply empty_consistent].
    intros s s' [] Hs; auto using start_consistent, advance_consistent, transition_consistent, reap_consistent. }
  split; apply Hc.
Qed.

(** An order of two sellers, started, reserved, and its first parcel delivered.
    The saga's id is the first draw and the first seller order's the second. *)
Definition h1 : OrderDb.t :=
  (run (start_saga unary_id (λ _, "") (λ _, None) sample_request "k" 5) OrderDb.empty).1.
Definition h2 : OrderDb.t :=
  (run (advance_saga unary_id (λ _, None) (unary_id 0) "InventoryReserved" "e" 6) h1).1.
Definition act (a : string) (d : OrderDb.t) : OrderDb.t :=
  (run (transition_seller_order unary_id (λ _, None) (unary_id 0) (unary_id 1) a None 9) d).1.
Definition sample_history : OrderDb.t := act "deliver" (act "dispatch" (act "confirm" h2)).

Lemma sample_reachable :
  rtc (order_step unary_id (λ _, "") (λ _, None)) OrderDb.empty sample_history.
Proof.
  assert (Hact : ∀ a d, order_step unary_id (λ _, "") (λ _, None) d (act a d))
    by (intros; apply step_seller_action).
  apply (rtc_l _ _ h1); [exact (step_start _ _ _ OrderDb.empty _ _ _)|].
  apply (rtc_l _ _ h2); [exact (step_event _ _ _ h1 _ _ _ _)|].
  apply (rtc_l _ _ (act "confirm" h2)); [apply Hact|].
  apply (rtc_l _ _ (act "dispatch" (act "confirm" h2))); [apply Hact|].
  apply (rtc_l _ _ sample_history); [apply Hact|apply rtc_refl].
Qed.

Lemma commands_match_status_witness :
  map so_status (seller_orders sample_history) = ["DELIVERED"; "INVENTORY_RESERVED"] ∧
  ∀ c, c ∈ seller_orders sample_history →
    matches (so_status c) (issued BOOK (so_id c) (messages sample_history))
      (issued CONSUME_CMD (so_id c) (messages sample_history))
      (issued RELEASE_CMD (so_id c) (messages sample_history)).
Proof.
  split; [vm_compute; reflexivity|].
  exact (proj1 (commands_match_status unary_id (λ _, "") (λ _, None) sample_history unary_id_inj
    sample_reachable)).
Defined.
End OrderSystem.
