(* ===== verification/OrderReads.v ===== *)
(** * The read side of the order service (services/order-saga, saga_orchestrator.py)

    The buyer's breakdown of an order by seller, the seller's queue, one seller
    order, and the purchase facts the reviews service asks for.  The answers are
    records whose fields are the keys of the dictionaries the code returns. *)

From S2P Require Import Prelude PyValue Session SplitRules OrderDb.
Import OrderDb.

Module OrderReads.

Record LineView := {
  lv_product_id : string;
  lv_quantity : Z;
  lv_price_cents : Z;
  lv_line_total_cents : Z;
}.

Definition line_view (l : OrderLine) : LineView :=
  {| lv_product_id := ol_product_id l; lv_quantity := ol_quantity l;
     lv_price_cents := ol_price_cents l; lv_line_total_cents := ol_line_total_cents l |}.

(** [d.setdefault(k, []).append(v)] *)
Definition append_to {V} (d : list (string * list V)) (k : string) (v : V)
    : list (string * list V) :=
  dict_set d k (default [] (dict_get d k) ++ [v]).

Definition group_views (lines : list OrderLine) : list (string * list LineView) :=
  foldl (λ d l, append_to d (ol_seller_order_id l) (line_view l)) [] lines.

(** ** get_seller_orders *)

Record SellerPart := {
  sp_id : string;
  sp_seller_id : string;
  sp_status : string;
  sp_subtotal_cents : Z;
  sp_currency : string;
  sp_item_count : Z;
  sp_lines : list LineView;
}.

Record OrderBreakdown := {
  bd_order_id : string;
  seller_order_count : Z;
  derived_status : option string;
  complete : bool;
  bd_goods_subtotal_cents : Z;
  bd_seller_orders : list SellerPart;
}.

Definition get_seller_orders (order_id : string) : M OrderDb.t OrderBreakdown :=
  sellers <- query (children_of order_id) ;;
  lines <- query (λ d, sort_by ol_product_id
                   (List.filter (λ l, ol_order_id l =?s order_id) (order_lines d))) ;;
  let by_seller_order := group_views lines in
  let statuses := map so_status sellers in
  ret {| bd_order_id := order_id;
         seller_order_count := Z.of_nat (length sellers);
         derived_status := SplitRules.derive_order_status statuses;
         complete := SplitRules.is_order_complete statuses;
         bd_goods_subtotal_cents := sumZ so_subtotal_cents sellers;
         bd_seller_orders := map (λ so,
           {| sp_id := so_id so; sp_seller_id := so_seller_id so; sp_status := so_status so;
              sp_subtotal_cents := so_subtotal_cents so; sp_currency := so_currency so;
              sp_item_count := so_item_count so;
              sp_lines := default [] (dict_get by_seller_order (so_id so)) |}) sellers |}.

(** ** The seller's view *)

Record SellerOrderView := {
  sv_id : string;
  sv_order_id : string;
  sv_seller_id : string;
  sv_status : string;
  sv_status_reason : option string;
  sv_subtotal_cents : Z;
  sv_currency : string;
  sv_item_count : Z;
  sv_courier_name : option string;
  sv_tracking_code : option string;
  sv_confirmed_at : option Z;
  sv_dispatched_at : option Z;
  sv_delivered_at : option Z;
  sv_settled_at : option Z;
  sv_created_at : Z;
  sv_lines : list LineView;
}.

Definition _seller_order_view (seller_order : SellerOrder) (lines : list LineView)
    : SellerOrderView :=
  {| sv_id := so_id seller_order;
     sv_order_id := so_order_id seller_order;
     sv_seller_id := so_seller_id seller_order;
     sv_status := so_status seller_order;
     sv_status_reason := so_status_reason seller_order;
     sv_subtotal_cents := so_subtotal_cents seller_order;
     sv_currency := so_currency seller_order;
     sv_item_count := so_item_count seller_order;
     sv_courier_name := so_courier_name seller_order;
     sv_tracking_code := so_tracking_code seller_order;
     sv_confirmed_at := so_confirmed_at seller_order;
     sv_dispatched_at := so_dispatched_at seller_order;
     sv_delivered_at := so_delivered_at seller_order;
     sv_settled_at := so_settled_at seller_order;
     sv_created_at := so_created_at seller_order;
     sv_lines := lines |}.

Definition _lines_for (seller_order_ids : list string) : M OrderDb.t (list (string * list LineView)) :=
  match seller_order_ids with
  | [] => ret []
  | _ =>
      lines <- query (λ d, sort_by ol_product_id
                 (List.filter (λ l, ol_seller_order_id l in_ seller_order_ids) (order_lines d))) ;;
      ret (group_views lines)
  end.

(** [ORDER BY created_at DESC]; rows of equal age in table order. *)
Definition newest_first : list SellerOrder → list SellerOrder :=
  sort_le (λ x y, so_created_at y <=? so_created_at x).

(** A negative [LIMIT] is an error of the database. *)
Definition list_seller_orders (seller_id : string) (status : option string) (limit : Z)
    : M OrderDb.t (Z * list SellerOrderView) :=
  if Z.min limit 200 <? 0 then raise (Raised "LIMIT must not be negative")
  else
    let wanted so := (so_seller_id so =?s seller_id) &&
      match status with
      | Some st => is_empty st || (so_status so =?s st)
      | None => true
      end in
    seller_orders <- query (λ d, take (Z.to_nat (Z.min limit 200))
                       (newest_first (List.filter wanted (seller_orders d)))) ;;
    lines <- _lines_for (map so_id seller_orders) ;;
    ret (Z.of_nat (length seller_orders),
         map (λ so, _seller_order_view so (default [] (dict_get lines (so_id so)))) seller_orders).

Definition get_seller_order (seller_order_id : string) : M OrderDb.t SellerOrderView :=
  found <- query (λ d, List.find (λ c, so_id c =?s seller_order_id) (seller_orders d)) ;;
  match found with
  | None => raise (Http 404 "Seller order not found")
  | Some seller_order =>
      lines <- _lines_for [so_id seller_order] ;;
      ret (_seller_order_view seller_order (default [] (dict_get lines (so_id seller_order))))
  end.

(** ** get_purchase *)

Record Purchase := {
  pu_seller_order_id : string;
  pu_order_id : string;
  pu_seller_id : string;
  pu_buyer_id : string;
  pu_status : string;
  pu_delivered_at : option Z;
  pu_product_ids : list string;
}.

Definition get_purchase (seller_order_id : string) : M OrderDb.t Purchase :=
  found <- query (λ d, List.find (λ c, so_id c =?s seller_order_id) (seller_orders d)) ;;
  match found with
  | None => raise (Http 404 "no such seller order")
  | Some seller_order =>
      saga <- query (find_saga (so_order_id seller_order)) ;;
      match saga with
      | None => raise (Http 409 "this order's parent record is missing; it cannot be verified")
      | Some saga =>
          product_ids <- query (product_ids_of (so_id seller_order)) ;;
          ret {| pu_seller_order_id := so_id seller_order; pu_order_id := so_order_id seller_order;
                 pu_seller_id := so_seller_id seller_order; pu_buyer_id := user_id saga;
                 pu_status := so_status seller_order; pu_delivered_at := so_delivered_at seller_order;
                 pu_product_ids := product_ids |}
      end
  end.

(** ** Grouping *)

Definition views_of (i : string) (lines : list OrderLine) : list LineView :=
  map line_view (List.filter (λ l, ol_seller_order_id l =?s i) lines).

Lemma group_views_snoc lines l i :
  default [] (dict_get (append_to (group_views lines) (ol_seller_order_id l) (line_view l)) i) =
  default [] (dict_get (group_views lines) i) ++ views_of i [l].
Proof.
  unfold append_to, views_of. simpl. destruct (decide (ol_seller_order_id l = i)) as [->|Hne].
  - rewrite dict_get_set_eq, bool_decide_true by done. done.
  - rewrite dict_get_set_ne, bool_decide_false by done. by rewrite app_nil_r.
Qed.

Lemma group_views_get lines i :
  default [] (dict_get (group_views lines) i) = views_of i lines.
Proof.
  induction lines as [|l lines IH] using rev_ind; [done|].
  unfold group_views. rewrite foldl_app. simpl. fold (group_views lines).
  rewrite group_views_snoc, IH. unfold views_of. by rewrite List.filter_app, map_app.
Qed.

(** Partition of a list by a key that takes each of the given values once. *)
Lemma partition_by_key {A} (key : A → string) (ks : list string) (l : list A) :
  NoDup ks → (∀ x, x ∈ l → key x ∈ ks) →
  concat (map (λ k, List.filter (λ x, key x =?s k) l) ks) ≡ₚ l.
Proof.
  intros Hnd. induction l as [|x l IH]; intros Hin.
  - clear Hnd Hin. induction ks; [done|]. simpl. done.
  - transitivity (x :: concat (map (λ k, List.filter (λ y, key y =?s k) l) ks)).
    2: { apply Permutation_cons; [done|]. apply IH. intros y Hy. apply Hin. by right. }
    clear IH. assert (Hx : key x ∈ ks) by (apply Hin; left). clear Hin.
    induction Hnd as [|k ks Hk Hnd IH]; [by apply not_elem_of_nil in Hx|].
    simpl. destruct (decide (key x = k)) as [E|E].
    + rewrite bool_decide_true by done. simpl. constructor. apply Permutation_app; [done|].
      rewrite (map_ext_in _ (λ k', List.filter (λ y, key y =?s k') l)); [done|].
      intros k' Hk'%list_elem_of_In. rewrite bool_decide_false; [done|]. congruence.
    + rewrite bool_decide_false by done. apply elem_of_cons in Hx as [?|Hx]; [done|].
      rewrite (IH Hx). by rewrite Permutation_middle.
Qed.

Lemma sumZ_views lines : sumZ lv_line_total_cents (map line_view lines) = sumZ ol_line_total_cents lines.
Proof. by rewrite sumZ_map. Qed.

(** ** Properties *)

(** The breakdown of an order accounts for every line: when the order's
    lines all belong to its seller orders, as starting a saga writes them, the
    answer lists each seller order of the order once, its lines are the
    order's lines, each under the seller order it was written for and none
    lost or repeated, the goods subtotal is the sum of the parts, and the
    reported status is the one derived from the children. *)
Theorem breakdown_accounts_for_every_line (order_id : string) (d : OrderDb.t)
    (Hids : NoDup (map so_id (seller_orders d)))
    (Hrefs : ∀ l, l ∈ order_lines d → ol_order_id l = order_id →
       ∃ c, c ∈ seller_orders d ∧ so_order_id c = order_id ∧ so_id c = ol_seller_order_id l) :
  ∃ b, run (get_seller_orders order_id) d = (d, inr b) ∧
    map sp_id (bd_seller_orders b) ≡ₚ
      map so_id (List.filter (λ c, so_order_id c =?s order_id) (seller_orders d)) ∧
    concat (map sp_lines (bd_seller_orders b)) ≡ₚ
      map line_view (List.filter (λ l, ol_order_id l =?s order_id) (order_lines d)) ∧
    (∀ p, p ∈ bd_seller_orders b → sp_lines p ≡ₚ views_of (sp_id p)
       (List.filter (λ l, ol_order_id l =?s order_id) (order_lines d))) ∧
    bd_goods_subtotal_cents b = sumZ sp_subtotal_cents (bd_seller_orders b) ∧
    derived_status b = SplitRules.derive_order_status (map sp_status (bd_seller_orders b)).
Proof.
  eexists. split; [reflexivity|]. cbn [bd_seller_orders bd_goods_subtotal_cents derived_status].
  set (own := List.filter (λ c, so_order_id c =?s order_id) (seller_orders d)).
  set (lines := List.filter (λ l, ol_order_id l =?s order_id) (order_lines d)).
  assert (Hch : children_of order_id d ≡ₚ own) by apply sort_by_perm.
  assert (Hnd : NoDup (map so_id (children_of order_id d))).
  { assert (Hp : map so_id (children_of order_id d) ≡ₚ map so_id own) by (by apply Permutation_map).
    rewrite Hp. subst own. clear Hch Hp Hrefs lines. revert Hids. generalize (seller_orders d).
    intros rows. induction rows as [|c rows IH]; simpl; [done|]. intros [Hc Hr]%NoDup_cons.
    destruct (so_order_id c =?s order_id); simpl; [|by apply IH]. constructor; [|by apply IH].
    intros (c' & E & [Hc' _]%elem_of_filter_bool)%elem_of_map. apply Hc. apply elem_of_map. eauto. }
  rewrite !map_map. split_and!.
  - by apply Permutation_map.
  - transitivity (map line_view (sort_by ol_product_id lines)); [|apply Permutation_map, sort_by_perm].
    rewrite <-(partition_by_key ol_seller_order_id (map so_id (children_of order_id d))
      (sort_by ol_product_id lines) Hnd).
    + rewrite concat_map, !map_map. cbn [sp_lines].
      rewrite (map_ext _ (λ x, views_of (so_id x) (sort_by ol_product_id lines))); [done|].
      intros x. apply group_views_get.
    + intros l Hl. rewrite sort_by_perm in Hl. apply elem_of_filter_bool in Hl as [Hl Ho].
      bool_to_prop. destruct (Hrefs l Hl Ho) as (c & Hc & Hco & <-). apply elem_of_map.
      exists c. split; [done|]. rewrite Hch. apply elem_of_filter_bool. by rewrite bool_decide_true.
  - intros p (c & -> & _)%elem_of_map. cbn [sp_lines sp_id]. rewrite group_views_get.
    unfold views_of. apply Permutation_map. apply Permutation_filter_bool, sort_by_perm.
  - by rewrite sumZ_map.
  - done.
Qed.

Definition sample_rows : OrderDb.t :=
  let so i s := {| so_id := i; so_order_id := "o"; so_seller_id := s; so_status := "PENDING";
    so_status_reason := None; so_subtotal_cents := 5; so_currency := "BDT"; so_item_count := 1;
    so_confirmed_at := None; so_dispatched_at := None; so_delivered_at := None;
    so_settled_at := None; so_courier_name := None; so_tracking_code := None;
    so_created_at := 0; so_updated_at := 0 |} in
  let ol i p := {| ol_order_id := "o"; ol_seller_order_id := i; ol_product_id := p;
    ol_seller_id := "s"; ol_quantity := 1; ol_price_cents := 5; ol_line_total_cents := 5;
    ol_currency := "BDT" |} in
  {| sagas := []; seller_orders := [so "x" "s2"; so "y" "s1"];
     order_lines := [ol "x" "p2"; ol "y" "p1"]; outbox := []; keys := []; draws := 0 |}.

Lemma breakdown_accounts_for_every_line_witness :
  ∃ b, run (get_seller_orders "o") sample_rows = (sample_rows, inr b) ∧
    bd_goods_subtotal_cents b = 10 ∧ map sp_id (bd_seller_orders b) ≡ₚ ["x"; "y"].
Proof.
  destruct (breakdown_accounts_for_every_line "o" sample_rows) as (b & Hb & Hp & _).
  - by_compute.
  - intros l Hl _. cbn in Hl. elem_cases Hl; eexists;
      [split; [left|split; reflexivity]|split; [right; left|split; reflexivity]].
  - exists b. split; [exact Hb|]. split; [|exact Hp]. vm_compute in Hb. by simplify_eq.
Defined.
End OrderReads.
