(* ===== verification/ReservationRules.v ===== *)
(** * Stock decisions (services/inventory-service, reservation_rules.py)

    The three decisions a stock row can get (reserve, release, consume), the
    quantities they leave behind, and the recognition of lock contention on a
    chain of wrapped exceptions. *)

From S2P Require Import Prelude PyValue.

Module ReservationRules.

Record StockLevel := { quantity_available : Z; quantity_reserved : Z }.

Definition total (l : StockLevel) : Z := quantity_available l + quantity_reserved l.

Definition EVENT_RESERVED := "InventoryReserved".
Definition EVENT_FAILED := "InventoryReservationFailed".
Definition EVENT_RELEASED := "InventoryReleased".
Definition EVENT_CONSUMED := "InventoryConsumed".

(** ** Reserving *)

Inductive ReservationOutcome := RESERVED | INSUFFICIENT | NOT_FOUND | R_INVALID.

Record ReservationPlan := {
  r_outcome : ReservationOutcome;
  r_new_level : option StockLevel;
  r_event : option string;
  r_detail : string;
}.

Definition plan_reservation (level : option StockLevel) (requested : Z) : ReservationPlan :=
  if requested <=? 0 then
    {| r_outcome := R_INVALID; r_new_level := None; r_event := None;
       r_detail := "quantity must be positive, got " +:+ dec requested |}
  else match level with
  | None => {| r_outcome := NOT_FOUND; r_new_level := None; r_event := None;
               r_detail := "no inventory record for this product" |}
  | Some level =>
      if quantity_available level <? requested then
        {| r_outcome := INSUFFICIENT; r_new_level := None; r_event := Some EVENT_FAILED;
           r_detail := "insufficient stock: " +:+ dec (quantity_available level) +:+
             " available, " +:+ dec requested +:+ " requested" |}
      else
        {| r_outcome := RESERVED;
           r_new_level := Some {| quantity_available := quantity_available level - requested;
                                  quantity_reserved := quantity_reserved level + requested |};
           r_event := Some EVENT_RESERVED;
           r_detail := "reserved " +:+ dec requested |}
  end.

(** ** Releasing *)

Inductive ReleaseOutcome := RELEASED | NOTHING_TO_RELEASE | L_INVALID.

Record ReleasePlan := {
  l_outcome : ReleaseOutcome;
  l_new_level : option StockLevel;
  l_event : option string;
  l_detail : string;
}.

Definition plan_release (level : option StockLevel) (held : Z) : ReleasePlan :=
  if held =? 0 then
    {| l_outcome := NOTHING_TO_RELEASE; l_new_level := None; l_event := Some EVENT_RELEASED;
       l_detail := "no live reservation; nothing to return" |}
  else if held <? 0 then
    {| l_outcome := L_INVALID; l_new_level := None; l_event := None;
       l_detail := "held quantity must not be negative, got " +:+ dec held |}
  else match level with
  | None => {| l_outcome := NOTHING_TO_RELEASE; l_new_level := None;
               l_event := Some EVENT_RELEASED;
               l_detail := "no inventory record for this product" |}
  | Some level =>
      let releasable := Z.min held (quantity_reserved level) in
      {| l_outcome := RELEASED;
         l_new_level := Some {| quantity_available := quantity_available level + releasable;
                                quantity_reserved := quantity_reserved level - releasable |};
         l_event := Some EVENT_RELEASED;
         l_detail := "released " +:+ dec releasable +:+
           (if releasable <? held
            then " (ledger claimed " +:+ dec held +:+ " but only " +:+
                 dec (quantity_reserved level) +:+ " was reserved)" else "") |}
  end.

(** ** Consuming *)

Inductive ConsumeOutcome := CONSUMED | NOTHING_TO_CONSUME | C_INVALID.

Record ConsumePlan := {
  c_outcome : ConsumeOutcome;
  c_new_level : option StockLevel;
  c_event : option string;
  c_detail : string;
}.

Definition plan_consume (level : option StockLevel) (held : Z) : ConsumePlan :=
  let invalid detail :=
    {| c_outcome := C_INVALID; c_new_level := None; c_event := None; c_detail := detail |} in
  if held =? 0 then
    {| c_outcome := NOTHING_TO_CONSUME; c_new_level := None; c_event := Some EVENT_CONSUMED;
       c_detail := "no live reservation; nothing to consume" |}
  else if held <? 0 then invalid ("held quantity must not be negative, got " +:+ dec held)
  else match level with
  | None => invalid "no inventory record for this product"
  | Some level =>
      if quantity_reserved level <? held then
        invalid ("ledger says " +:+ dec held +:+ " held but the item shows only " +:+
                 dec (quantity_reserved level) +:+ " reserved")
      else
        {| c_outcome := CONSUMED;
           c_new_level := Some {| quantity_available := quantity_available level;
                                  quantity_reserved := quantity_reserved level - held |};
           c_event := Some EVENT_CONSUMED;
           c_detail := "consumed " +:+ dec held |}
  end.

(** ** Lock contention

    Exception objects live in a heap and refer to one another by address:
    [orig] is the driver's exception an SQLAlchemy wrapper carries, [cause]
    is [__cause__].  Chains may be cyclic. *)

Record exc_object := {
  type_name : string;
  sqlstate : option string;
  pgcode : option string;
  orig : option nat;
  cause : option nat;
}.

Definition SQLSTATE_LOCK_NOT_AVAILABLE := "55P03".

(** [getattr(e, "sqlstate", None) or getattr(e, "pgcode", None)] *)
Definition state_code (e : exc_object) : option string :=
  match sqlstate e with
  | Some s => if is_empty s then pgcode e else Some s
  | None => pgcode e
  end.

Definition says_contended (e : exc_object) : bool :=
  bool_decide (state_code e = Some SQLSTATE_LOCK_NOT_AVAILABLE) ||
  (type_name e =?s "LockNotAvailableError").

Definition next_exc (e : exc_object) : option nat :=
  match orig e with Some o => Some o | None => cause e end.

Fixpoint contention_loop (fuel : nat) (heap : list exc_object) (seen : list nat)
    (current : option nat) : option bool :=
  match current with
  | None => Some false
  | Some a =>
      if bool_decide (a ∈ seen) then Some false
      else match heap !! a with
      | None => Some false
      | Some e =>
          if says_contended e then Some true
          else match fuel with
               | O => None
               | S fuel => contention_loop fuel heap (a :: seen) (next_exc e)
               end
      end
  end.

(** Each turn adds a new address of the heap to [seen], so as many turns as
    the heap has objects are enough. *)
Definition is_lock_contention (heap : list exc_object) (exc : nat) : option bool :=
  contention_loop (length heap) heap [] (Some exc).

(** ** Lemmas *)

Inductive on_chain (heap : list exc_object) : nat → nat → Prop :=
| chain_here a : on_chain heap a a
| chain_next a e b c :
    heap !! a = Some e → next_exc e = Some b → on_chain heap b c → on_chain heap a c.

Lemma chain_inv heap a c :
  on_chain heap a c → a = c ∨ ∃ e b, heap !! a = Some e ∧ next_exc e = Some b ∧ on_chain heap b c.
Proof. destruct 1; [by left|right; eauto]. Qed.

Definition contended_at (heap : list exc_object) (a : nat) : Prop :=
  ∃ b e, on_chain heap a b ∧ heap !! b = Some e ∧ says_contended e = true.

(** The addresses visited so far are calm, and closed but for the current one. *)
Definition visited_ok (heap : list exc_object) (seen : list nat) (cur : option nat) : Prop :=
  ∀ a, a ∈ seen → ∃ e, heap !! a = Some e ∧ says_contended e = false ∧
    (next_exc e = None ∨ next_exc e = cur ∨ ∃ b, next_exc e = Some b ∧ b ∈ seen).

Lemma closed_calm heap seen cur :
  visited_ok heap seen cur → (∀ a, cur = Some a → a ∈ seen) →
  ∀ a b, on_chain heap a b → a ∈ seen → b ∈ seen.
Proof.
  intros Hv Hcur a b H. induction H as [|a e b c Ha Hn _ IH]; [done|]. intros Hs.
  apply IH. destruct (Hv a Hs) as (e' & Ha' & _ & Hx). simplify_eq.
  destruct Hx as [Hx|[Hx|(b' & Hx & Hb)]]; [congruence| |by simplify_eq].
  apply Hcur. congruence.
Qed.

Lemma not_contended heap seen a :
  visited_ok heap seen (Some a) → a ∈ seen → ¬ contended_at heap a.
Proof.
  intros Hv Ha (b & e & Hab & Hb & Hsay).
  assert (Hbs : b ∈ seen) by (eapply closed_calm; try done; intros ? [= <-]; done).
  destruct (Hv b Hbs) as (e' & Hb' & Hcalm & _). congruence.
Qed.

Lemma contended_step heap a e :
  heap !! a = Some e → says_contended e = false →
  (contended_at heap a ↔ ∃ b, next_exc e = Some b ∧ contended_at heap b).
Proof.
  intros Ha Hcalm. split.
  - intros (c & e' & Hac & Hc & Hsay). destruct (chain_inv _ _ _ Hac) as [->|(e0 & b & Ha0 & Hn & Hbc)];
      [congruence|]. simplify_eq. exists b. split; [done|]. by exists c, e'.
  - intros (b & Hn & c & e' & Hbc & Hc & Hsay). exists c, e'. split; [|done]. by eapply chain_next.
Qed.

Lemma contention_loop_spec fuel heap seen cur :
  NoDup seen → visited_ok heap seen cur →
  (length heap ≤ fuel + length seen)%nat →
  ∃ r, contention_loop fuel heap seen cur = Some r ∧
    (r = true ↔ ∃ a, cur = Some a ∧ contended_at heap a).
Proof.
  revert seen cur. induction fuel as [|fuel IH]; intros seen cur Hnd Hv Hlen.
  all: destruct cur as [a|]; simpl; [|exists false; split; [done|naive_solver]].
  all: case_bool_decide as Hseen;
    [exists false; split; [done|]; split; [done|]; intros (a' & [= <-] & Hc); by destruct (not_contended heap seen a)|].
  all: destruct (heap !! a) as [e|] eqn:Ha;
    [|exists false; split; [done|]; split; [done|]; intros (a' & [= <-] & b & e & Hab & Hb & _);
      destruct (chain_inv _ _ _ Hab) as [->|(? & ? & ? & _)]; congruence].
  all: destruct (says_contended e) eqn:Hsay;
    [exists true; split; [done|]; split; [|done]; intros _; exists a; split; [done|]; exists a, e;
      split; [constructor|done]|].
  - exfalso. assert (Hin : ∀ x, x ∈ a :: seen → x ∈ seq 0 (length heap)).
    { intros x Hx. apply elem_of_seq. assert (is_Some (heap !! x)) as Hlt%lookup_lt_is_Some; [|lia].
      apply elem_of_cons in Hx as [->|Hx]; [done|]. destruct (Hv x Hx) as (? & -> & _). done. }
    assert (Hnd' : NoDup (a :: seen)) by (by constructor).
    pose proof (submseteq_length _ _ (NoDup_submseteq _ _ Hnd' Hin)) as Hl.
    rewrite length_seq in Hl. simpl in Hl. lia.
  - destruct (IH (a :: seen) (next_exc e)) as (r & Hr & Hiff).
    + by constructor.
    + intros x [->|Hx]%elem_of_cons; [exists e; split_and!; auto|].
      destruct (Hv x Hx) as (e' & Hx' & Hcalm & Hn). exists e'. split_and!; [done..|].
      destruct Hn as [?|[Hn|(b & ? & ?)]]; [by left| |].
      * right; right. exists a. split; [done|left].
      * right; right. exists b. split; [done|by right].
    + simpl. lia.
    + exists r. split; [done|]. rewrite Hiff. split.
      * intros (b & Hb & Hc). exists a. split; [done|]. eapply contended_step; eauto.
      * intros (a' & [= <-] & Hc). by eapply contended_step in Hc.
Qed.

(** ** Properties *)

(** Lock contention is recognised wherever it hides: on any heap of
    exceptions, cyclic chains included, the search always answers, and it
    answers yes exactly when some exception reached by following [orig] (or,
    where there is none, [__cause__]) carries SQLSTATE 55P03 or the driver's
    contention class. *)
Theorem lock_contention_is_found (heap : list exc_object) (exc : nat) :
  ∃ r, is_lock_contention heap exc = Some r ∧ (r = true ↔ contended_at heap exc).
Proof.
  destruct (contention_loop_spec (length heap) heap [] (Some exc)) as (r & Hr & Hiff).
  - constructor.
  - by intros a ?%not_elem_of_nil.
  - lia.
  - exists r. split; [done|]. rewrite Hiff. naive_solver.
Qed.
End ReservationRules.
