(* ===== verification/InventoryService.v ===== *)
(** * The inventory service (services/inventory-service, inventory_service.py)

    Stock rows keyed by product (the column is unique), the reservation ledger,
    and the three handlers.  Waiting for a row lock can raise: [locks] gives,
    for a product, the heap of the exception raised (its first object being the
    exception itself) or [None] when the lock is granted. *)

From S2P Require Import Prelude PyValue Session ReservationRules.
Import ReservationRules.

Module InventoryService.

Record InventoryItem := {
  item_id : string;
  level : StockLevel;
  item_updated_at : Z;
}.

Record InventoryReservation := {
  rv_id : string;
  rv_order_id : string;
  rv_product_id : string;
  rv_quantity : Z;
  rv_status : string;
  rv_created_at : Z;
  rv_released_at : option Z;
}.

Record db := {
  items : gmap string InventoryItem;
  reservations : list InventoryReservation;
  inv_outbox : list OutboxMessage;
  inv_keys : key_table;
  inv_draws : nat;
}.

Record ReserveRequest := { rq_product_id : string; rq_quantity : Z; rq_order_id : option string }.

(** [ReleaseRequest] and [ConsumeRequest] *)
Record SettleRequest := { rq_settled_order : string; rq_product_ids : option (list string) }.

(** [ReleaseResponse] and [ConsumeResponse] *)
Record SettleResponse := {
  rs_order_id : string;
  rs_units : Z;
  rs_reservations : Z;
  rs_detail : string;
}.

Definition with_items (f : gmap string InventoryItem → gmap string InventoryItem) (d : db) : db :=
  {| items := f (items d); reservations := reservations d; inv_outbox := inv_outbox d;
     inv_keys := inv_keys d; inv_draws := inv_draws d |}.
Definition with_reservations (f : list InventoryReservation → list InventoryReservation) (d : db) : db :=
  {| items := items d; reservations := f (reservations d); inv_outbox := inv_outbox d;
     inv_keys := inv_keys d; inv_draws := inv_draws d |}.
Definition with_inv_outbox (f : list OutboxMessage → list OutboxMessage) (d : db) : db :=
  {| items := items d; reservations := reservations d; inv_outbox := f (inv_outbox d);
     inv_keys := inv_keys d; inv_draws := inv_draws d |}.
Definition with_inv_keys (f : key_table → key_table) (d : db) : db :=
  {| items := items d; reservations := reservations d; inv_outbox := inv_outbox d;
     inv_keys := f (inv_keys d); inv_draws := inv_draws d |}.
Definition inv_draw (d : db) : db :=
  {| items := items d; reservations := reservations d; inv_outbox := inv_outbox d;
     inv_keys := inv_keys d; inv_draws := S (inv_draws d) |}.

(** Assigning the two columns: an UPDATE, and with it [updated_at], only when
    a value changed. *)
Definition set_level (l : StockLevel) (now : Z) (it : InventoryItem) : InventoryItem :=
  {| item_id := item_id it; level := l;
     item_updated_at :=
       if (quantity_available l =? quantity_available (level it)) &&
          (quantity_reserved l =? quantity_reserved (level it))
       then item_updated_at it else now |}.

Definition find_item (i : string) (d : db) : option InventoryItem :=
  List.find (λ it, item_id it =?s i) (map_to_list (items d)).*2.

Section handlers.
Context (uuid4 : nat → string) (isoformat : Z → string).
Context (fault : db → option string) (locks : string → option (list exc_object)).

Definition CONTENDED := "Inventory row is contended; retry shortly".

(** [select(InventoryItem)...with_for_update()] with its exception handler *)
Definition locked_item (product : string) : M db (option InventoryItem) :=
  match locks product with
  | None => query (λ d, items d !! product)
  | Some heap =>
      match is_lock_contention heap 0 with
      | Some true => rollback ;;; raise (Http 409 CONTENDED)
      | _ => raise (Raised "database error")
      end
  end.

Definition emit_event (product ty : string) (body : list (string * json)) (now : Z) : M db unit :=
  exec (with_inv_outbox (λ ms, ms ++
    [{| aggregate_type := "Inventory"; aggregate_id := product; msg_type := ty;
        payload := body; msg_created_at := now |}])).

(** ** reserve_inventory *)

Definition reserve_inventory (request : ReserveRequest) (idempotency_key : string) (now : Z)
    : M db InventoryItem :=
  known <- query (λ d, bool_decide (idempotency_key ∈ (inv_keys d).*1)) ;;
  if known : bool then
    record <- query (λ d, dict_get (inv_keys d) idempotency_key) ;;
    match record with
    | Some (Some result_id) =>
        cached <- query (find_item result_id) ;;
        match cached with
        | Some it => ret it
        | None => raise (Http 409 "Idempotency key already processed but result not found")
        end
    | _ => raise (Http 409 "Idempotency key already processed but result not found")
    end
  else
    exec (with_inv_keys (λ ks, ks ++ [(idempotency_key, None)])) ;;;
    let product := rq_product_id request in
    inventory_item <- locked_item product ;;
    let plan := plan_reservation (level <$> inventory_item) (rq_quantity request) in
    match r_outcome plan, inventory_item with
    | NOT_FOUND, _ => raise (Http 404 (r_detail plan))
    | R_INVALID, _ => raise (Http 400 (r_detail plan))
    | INSUFFICIENT, Some it =>
        emit_event product (default "" (r_event plan))
          [("id", JStr (item_id it)); ("product_id", JStr product);
           ("quantity_requested", JInt (rq_quantity request));
           ("quantity_available", JInt (quantity_available (level it)));
           ("reason", JStr "InsufficientStock"); ("occurred_at", JStr (isoformat now))] now ;;;
        exec (with_inv_keys (λ ks, dict_set ks idempotency_key (Some (item_id it)))) ;;;
        commit fault ;;;
        raise (Http 409 (r_detail plan))
    | RESERVED, Some it =>
        let new_level := default (level it) (r_new_level plan) in
        let it' := set_level new_level now it in
        exec (with_items (<[product := it']>)) ;;;
        match rq_order_id request with
        | Some order_id =>
            if is_empty order_id then ret tt
            else
              n <- query inv_draws ;;
              exec inv_draw ;;;
              exec (with_reservations (λ rs, rs ++
                [{| rv_id := uuid4 n; rv_order_id := order_id; rv_product_id := product;
                    rv_quantity := rq_quantity request; rv_status := "held";
                    rv_created_at := now; rv_released_at := None |}]))
        | None => ret tt
        end ;;;
        emit_event product EVENT_RESERVED
          [("id", JStr (item_id it)); ("product_id", JStr product);
           ("quantity_reserved", JInt (rq_quantity request));
           ("total_quantity_available", JInt (quantity_available new_level));
           ("total_quantity_reserved", JInt (quantity_reserved new_level));
           ("updated_at", JStr (isoformat now))] now ;;;
        exec (with_inv_keys (λ ks, dict_set ks idempotency_key (Some (item_id it)))) ;;;
        commit fault ;;;
        ret it'
    | _, None => raise (Raised "unreachable: a decided level has a row")
    end.

(** ** Settling holds *)

(** [product_id.in_(product_ids)] compares UUIDs: text that is not one is an
    error of the driver. An absent or empty list means every line. *)
Definition scope_of (request : SettleRequest) : option (option (list string)) :=
  match rq_product_ids request with
  | None | Some [] => Some None
  | Some ps => Some <$> mapM UUID ps
  end.

Definition in_scope (order : string) (scope : option (list string))
    (r : InventoryReservation) : bool :=
  (rv_order_id r =?s order) && (rv_status r =?s "held") &&
  match scope with None => true | Some ps => rv_product_id r in_ ps end.

Definition settle_hold (status : string) (now : Z) (r : InventoryReservation) : InventoryReservation :=
  {| rv_id := rv_id r; rv_order_id := rv_order_id r; rv_product_id := rv_product_id r;
     rv_quantity := rv_quantity r; rv_status := status; rv_created_at := rv_created_at r;
     rv_released_at := Some now |}.

Definition mark_settled (status : string) (now : Z) (hold : InventoryReservation) : M db unit :=
  exec (with_reservations (update_where (λ r, rv_id r =?s rv_id hold) (settle_hold status now))).

Definition settled_payload (moved : string) (it : InventoryItem) (hold : InventoryReservation)
    (l : StockLevel) (now : Z) : list (string * json) :=
  [("id", JStr (item_id it)); ("order_id", JStr (rv_order_id hold));
   ("product_id", JStr (rv_product_id hold)); (moved, JInt (rv_quantity hold));
   ("total_quantity_available", JInt (quantity_available l));
   ("total_quantity_reserved", JInt (quantity_reserved l));
   ("updated_at", JStr (isoformat now))].

(** ** release_inventory *)

(** One turn of the loop over the holds: units released so far, and details. *)
Definition release_hold (now : Z) (acc : Z * list string) (hold : InventoryReservation)
    : M db (Z * list string) :=
  item <- locked_item (rv_product_id hold) ;;
  let plan := plan_release (level <$> item) (rv_quantity hold) in
  match l_outcome plan with
  | L_INVALID => rollback ;;; raise (Http 400 (l_detail plan))
  | outcome =>
      units <- match outcome, item, l_new_level plan with
               | RELEASED, Some it, Some l =>
                   exec (with_items (<[rv_product_id hold := set_level l now it]>)) ;;;
                   emit_event (rv_product_id hold) (default "" (l_event plan))
                     (settled_payload "quantity_released" it hold l now) now ;;;
                   ret (acc.1 + rv_quantity hold)
               | _, _, _ => ret acc.1
               end ;;
      mark_settled "released" now hold ;;;
      ret (units, acc.2 ++ [l_detail plan])
  end.

Definition release_inventory (request : SettleRequest) (idempotency_key : string) (now : Z)
    : M db SettleResponse :=
  match scope_of request with
  | None => raise (Raised "DataError")
  | Some scope =>
      holds <- query (λ d, List.filter (in_scope (rq_settled_order request) scope) (reservations d)) ;;
      match holds with
      | [] => ret {| rs_order_id := rq_settled_order request; rs_units := 0; rs_reservations := 0;
                     rs_detail := "no live reservation; nothing to return" |}
      | _ =>
          result <- fold_each holds (0, []) (release_hold now) ;;
          commit fault ;;;
          ret {| rs_order_id := rq_settled_order request; rs_units := result.1;
                 rs_reservations := Z.of_nat (length holds);
                 rs_detail := join "; " result.2 |}
      end
  end.

(** ** consume_inventory *)

Definition consume_hold (now : Z) (acc : Z * list string) (hold : InventoryReservation)
    : M db (Z * list string) :=
  item <- locked_item (rv_product_id hold) ;;
  let plan := plan_consume (level <$> item) (rv_quantity hold) in
  match c_outcome plan with
  | C_INVALID => rollback ;;; raise (Http 400 (c_detail plan))
  | outcome =>
      units <- match outcome, item, c_new_level plan with
               | CONSUMED, Some it, Some l =>
                   let l' := {| quantity_available := quantity_available (level it);
                                quantity_reserved := quantity_reserved l |} in
                   exec (with_items (<[rv_product_id hold := set_level l' now it]>)) ;;;
                   emit_event (rv_product_id hold) (default "" (c_event plan))
                     (settled_payload "quantity_consumed" it hold l' now) now ;;;
                   ret (acc.1 + rv_quantity hold)
               | _, _, _ => ret acc.1
               end ;;
      mark_settled "consumed" now hold ;;;
      ret (units, acc.2 ++ [c_detail plan])
  end.

Definition consume_inventory (request : SettleRequest) (idempotency_key : string) (now : Z)
    : M db SettleResponse :=
  match scope_of request with
  | None => raise (Raised "DataError")
  | Some scope =>
      holds <- query (λ d, List.filter (in_scope (rq_settled_order request) scope) (reservations d)) ;;
      match holds with
      | [] => ret {| rs_order_id := rq_settled_order request; rs_units := 0; rs_reservations := 0;
                     rs_detail := "no live reservation; nothing to consume" |}
      | _ =>
          result <- fold_each holds (0, []) (consume_hold now) ;;
          commit fault ;;;
          ret {| rs_order_id := rq_settled_order request; rs_units := result.1;
                 rs_reservations := Z.of_nat (length holds);
                 rs_detail := join "; " result.2 |}
      end
  end.
End handlers.

(** ** Stock accounting *)

(** Units of product [p] in ledger rows with the given status. *)
Definition units_in (status p : string) (rs : list InventoryReservation) : Z :=
  sumZ (λ r, ite ((rv_status r =?s status) && (rv_product_id r =?s p)) (rv_quantity r)) rs.

(** Every unit of a product the service knows about: on the shelf, reserved,
    or delivered. *)
Definition stock (p : string) (d : db) : Z :=
  match items d !! p with Some it => total (level it) | None => 0 end +
  units_in "consumed" p (reservations d).

Record stock_ok (uuid4 : nat → string) (d : db) : Prop := {
  levels_ok : ∀ p it, items d !! p = Some it →
    0 ≤ quantity_available (level it) ∧ units_in "held" p (reservations d) ≤ quantity_reserved (level it);
  holds_ok : ∀ r, r ∈ reservations d → 0 < rv_quantity r ∧ is_Some (items d !! rv_product_id r);
  rv_ids_unique : NoDup (map rv_id (reservations d));
  rv_ids_drawn : ∀ r, r ∈ reservations d → ∃ n, (n < inv_draws d)%nat ∧ rv_id r = uuid4 n;
}.

Lemma units_in_nonneg st p rs : (∀ r, r ∈ rs → 0 < rv_quantity r) → 0 ≤ units_in st p rs.
Proof.
  intros H. apply sumZ_nonneg. intros r Hr. specialize (H r Hr). unfold ite. destruct (_ && _); lia.
Qed.

Lemma units_in_elem st p rs r :
  (∀ r, r ∈ rs → 0 < rv_quantity r) → r ∈ rs → rv_status r = st → rv_product_id r = p →
  rv_quantity r ≤ units_in st p rs.
Proof.
  intros H Hr Hs Hp. unfold units_in.
  etransitivity; [|apply (sumZ_elem_le _ _ r); [|done]].
  - cbv beta. rewrite Hs, Hp, !bool_decide_true by done. cbn. lia.
  - intros y Hy. specialize (H y Hy). unfold ite. destruct (_ && _); lia.
Qed.

(** Settling one row moves its units from "held" to the new status. *)
Lemma units_in_settle st st' now hold p rs :
  NoDup (map rv_id rs) → hold ∈ rs → rv_status hold = "held" → st' ≠ "held" →
  units_in st p (update_where (λ r, rv_id r =?s rv_id hold) (settle_hold st' now) rs) =
  units_in st p rs + ite (rv_product_id hold =?s p)
    (ite (st =?s st') (rv_quantity hold) - ite (st =?s "held") (rv_quantity hold)).
Proof.
  intros Hnd Hin Hh Hst'. unfold units_in. induction rs as [|r rs IH]; [by apply not_elem_of_nil in Hin|].
  cbn [map] in Hnd. apply NoDup_cons in Hnd as [Hr Hnd]. cbn [update_where map sumZ].
  change (map (λ x, if rv_id x =?s rv_id hold then settle_hold st' now x else x) rs) with
    (update_where (λ r, rv_id r =?s rv_id hold) (settle_hold st' now) rs).
  apply elem_of_cons in Hin as [E|Hin].
  - subst r. rewrite (bool_decide_true (rv_id hold = rv_id hold)) by done.
    assert (Hrest : update_where (λ r, rv_id r =?s rv_id hold) (settle_hold st' now) rs = rs).
    { rewrite <-(map_id rs) at 2. apply map_ext_in. intros r Hin%list_elem_of_In.
      rewrite bool_decide_false; [done|]. intros E. apply Hr. rewrite <-E. apply elem_of_map. eauto. }
    rewrite Hrest. cbn [rv_status rv_product_id rv_quantity settle_hold]. rewrite Hh.
    rewrite (bool_decide_ext ("held" = st) (st = "held")) by naive_solver.
    rewrite (bool_decide_ext (st' = st) (st = st')) by naive_solver.
    destruct (rv_product_id hold =?s p), (st =?s "held"), (st =?s st'); cbn [andb ite]; lia.
  - rewrite (bool_decide_false (rv_id r = rv_id hold))
      by (intros E; apply Hr; rewrite E; apply elem_of_map; eauto).
    rewrite (IH Hnd Hin). lia.
Qed.

(** ** One hold settled *)

Section settle.
Context (uuid4 : nat → string) (isoformat : Z → string).
Context (fault : db → option string) (locks : string → option (list exc_object)).

Inductive kind := Release | Consume.

Definition status_after (k : kind) : string :=
  match k with Release => "released" | Consume => "consumed" end.

Definition moved_level (k : kind) (q : Z) (l : StockLevel) : StockLevel :=
  match k with
  | Release => {| quantity_available := quantity_available l + q;
                  quantity_reserved := quantity_reserved l - q |}
  | Consume => {| quantity_available := quantity_available l;
                  quantity_reserved := quantity_reserved l - q |}
  end.

Definition settle_body (k : kind) : Z → Z * list string → InventoryReservation → M db (Z * list string) :=
  match k with Release => release_hold isoformat locks | Consume => consume_hold isoformat locks end.

(** The database after a hold with enough stock behind it was settled. *)
Definition settled (k : kind) (now : Z) (hold : InventoryReservation) (d : db) : db :=
  match items d !! rv_product_id hold with
  | None => d
  | Some it =>
      let l := moved_level k (rv_quantity hold) (level it) in
      with_reservations (update_where (λ r, rv_id r =?s rv_id hold) (settle_hold (status_after k) now))
        (with_inv_outbox (λ ms, ms ++
           [{| aggregate_type := "Inventory"; aggregate_id := rv_product_id hold;
               msg_type := match k with Release => EVENT_RELEASED | Consume => EVENT_CONSUMED end;
               payload := settled_payload isoformat
                 match k with Release => "quantity_released" | Consume => "quantity_consumed" end
                 it hold l now;
               msg_created_at := now |}])
          (with_items (<[rv_product_id hold := set_level l now it]>) d))
  end.

Definition live (hold : InventoryReservation) (d : db) : Prop :=
  hold ∈ reservations d ∧ rv_status hold = "held".

Lemma settle_hold_run k now acc hold s :
  stock_ok uuid4 (working s) → live hold (working s) →
  (∃ heap e s', locks (rv_product_id hold) = Some heap ∧ settle_body k now acc hold s = (s', inl e)) ∨
  (locks (rv_product_id hold) = None ∧
   ∃ detail, settle_body k now acc hold s =
     (Session (committed s) (settled k now hold (working s)),
      inr (acc.1 + rv_quantity hold, acc.2 ++ [detail]))).
Proof.
  intros [Hl Hh Hu _] [Hin Hst]. destruct (locks (rv_product_id hold)) as [heap|] eqn:El.
  - left. exists heap. destruct k; simpl; unfold release_hold, consume_hold, locked_item, bind; rewrite El;
      destruct (is_lock_contention heap 0) as [[]|]; eexists _, _; done.
  - right. split; [done|]. destruct (Hh hold Hin) as [Hq [it Hit]].
    destruct (Hl _ it Hit) as [Ha Hr].
    assert (Hle : rv_quantity hold ≤ quantity_reserved (level it)).
    { etransitivity; [|exact Hr]. apply units_in_elem; try done. intros r Hr'. by apply Hh. }
    destruct k; simpl; unfold release_hold, consume_hold, locked_item, settled, bind, query;
      rewrite El, Hit; simpl; unfold plan_release, plan_consume;
      rewrite (proj2 (Z.eqb_neq _ _)), (proj2 (Z.ltb_ge _ _)) by lia; simpl.
    + rewrite Z.min_l by lia. eexists. done.
    + rewrite (proj2 (Z.ltb_ge _ _)) by lia. simpl. eexists. done.
Qed.

Lemma settled_ok k now hold d :
  stock_ok uuid4 d → live hold d → stock_ok uuid4 (settled k now hold d).
Proof.
  intros [Hl Hh Hu Hd] [Hin Hst]. destruct (Hh hold Hin) as [Hq [it Hit]].
  unfold settled. rewrite Hit.
  assert (Hne : status_after k ≠ "held") by (by destruct k).
  assert (Hids : map rv_id (update_where (λ r, rv_id r =?s rv_id hold)
            (settle_hold (status_after k) now) (reservations d)) = map rv_id (reservations d)).
  { unfold update_where. rewrite map_map. apply map_ext. intros r. by destruct (rv_id r =?s _). }
  assert (Hrows : ∀ r, r ∈ update_where (λ r, rv_id r =?s rv_id hold)
            (settle_hold (status_after k) now) (reservations d) →
            ∃ r0, r0 ∈ reservations d ∧ rv_id r = rv_id r0 ∧ rv_quantity r = rv_quantity r0 ∧
              rv_product_id r = rv_product_id r0).
  { intros r (r0 & -> & Hr0)%elem_of_map. exists r0. by destruct (rv_id r0 =?s _). }
  constructor; simpl.
  - intros p it'. rewrite units_in_settle by done.
    destruct (decide (rv_product_id hold = p)) as [<-|Hp].
    + rewrite lookup_insert_eq. intros [= <-]. rewrite bool_decide_true by done. simpl.
      destruct (Hl _ it Hit) as [Ha Hr]. rewrite (bool_decide_false ("held" = status_after k)) by done.
      destruct k; simpl; lia.
    + rewrite lookup_insert_ne by done. intros Hit'. rewrite bool_decide_false by done. simpl.
      destruct (Hl _ _ Hit'). lia.
  - intros r Hr. destruct (Hrows r Hr) as (r0 & Hr0 & _ & -> & ->). destruct (Hh r0 Hr0) as [? Hi].
    split; [done|]. apply lookup_insert_is_Some. destruct (decide (rv_product_id hold = rv_product_id r0)); auto.
  - by rewrite Hids.
  - intros r Hr. destruct (Hrows r Hr) as (r0 & Hr0 & -> & _ & _). by apply Hd.
Qed.

Lemma settled_frame k now hold d p :
  stock_ok uuid4 d → live hold d →
  level <$> items (settled k now hold d) !! p =
    (if rv_product_id hold =?s p then moved_level k (rv_quantity hold) <$> (level <$> items d !! p)
     else level <$> items d !! p) ∧
  reservations (settled k now hold d) =
    update_where (λ r, rv_id r =?s rv_id hold) (settle_hold (status_after k) now) (reservations d) ∧
  stock p (settled k now hold d) = stock p d.
Proof.
  intros [Hl Hh Hu Hd] [Hin Hst]. destruct (Hh hold Hin) as [Hq [it Hit]].
  unfold settled, stock. rewrite Hit. cbn [items reservations with_reservations with_items with_inv_outbox].
  rewrite units_in_settle by (done || by destruct k).
  destruct (decide (rv_product_id hold = p)) as [<-|Hp].
  - rewrite lookup_insert_eq, Hit, !(bool_decide_true (rv_product_id hold = rv_product_id hold)) by done.
    split_and!; [done|done|]. rewrite (bool_decide_false ("consumed" = "held")) by done.
    destruct k; unfold total; cbn [level set_level moved_level quantity_available quantity_reserved status_after];
      [rewrite bool_decide_false by done|rewrite bool_decide_true by done]; cbn [ite]; lia.
  - rewrite lookup_insert_ne, !(bool_decide_false (rv_product_id hold = p)) by done.
    split_and!; [done|done|]. cbn. lia.
Qed.

Lemma live_settled k now hold hold' d :
  stock_ok uuid4 d → live hold d → rv_id hold' ≠ rv_id hold → live hold' d →
  live hold' (settled k now hold d).
Proof.
  intros Hok Hlive Hne [Hin Hst]. split; [|done].
  rewrite (proj1 (proj2 (settled_frame k now hold d "" Hok Hlive))).
  apply elem_of_map. exists hold'. by rewrite bool_decide_false.
Qed.

Definition settled_all (k : kind) (now : Z) (holds : list InventoryReservation) (d : db) : db :=
  foldl (λ d h, settled k now h d) d holds.

(** The units of product [p] among the holds. *)
Definition held_among (p : string) (holds : list InventoryReservation) : Z :=
  sumZ (λ h, ite (rv_product_id h =?s p) (rv_quantity h)) holds.

Lemma moved_level_add k q q' l : moved_level k q' (moved_level k q l) = moved_level k (q + q') l.
Proof. destruct k; unfold moved_level; cbn; f_equal; lia. Qed.

Lemma moved_level_0 k l : moved_level k 0 l = l.
Proof. destruct k, l; unfold moved_level; cbn; f_equal; lia. Qed.

Lemma settled_all_spec k now holds d :
  stock_ok uuid4 d → NoDup (map rv_id holds) → Forall (λ h, live h d) holds →
  let d' := settled_all k now holds d in
  stock_ok uuid4 d' ∧
  (∀ p, level <$> items d' !! p = moved_level k (held_among p holds) <$> (level <$> items d !! p)) ∧
  reservations d' = map (λ r, if rv_id r in_ map rv_id holds
                              then settle_hold (status_after k) now r else r) (reservations d) ∧
  (∀ p, stock p d' = stock p d).
Proof.
  revert d. induction holds as [|h holds IH]; intros d Hok Hnd Hlive.
  - cbn. split_and!; [done| | |done].
    + intros p. destruct (level <$> items d !! p) as [l|]; [|done]. cbn. by rewrite moved_level_0.
    + symmetry. apply map_id.
  - cbn [map] in Hnd. apply NoDup_cons in Hnd as [Hh Hnd]. apply Forall_cons in Hlive as [Hl Hlive].
    cbn [settled_all foldl]. fold (settled_all k now holds (settled k now h d)).
    destruct (IH (settled k now h d)) as (Hok' & Hlev & Hrows & Hstock).
    + by apply settled_ok.
    + done.
    + rewrite Forall_forall in Hlive |- *. intros h' Hh'. apply live_settled; auto.
      intros E. apply Hh. rewrite <-E. apply elem_of_map. eauto.
    + split_and!; [done| | |].
      * intros p. rewrite Hlev, (proj1 (settled_frame k now h d p Hok Hl)). cbn [held_among sumZ].
        case_bool_decide; cbn [ite]; [|done].
        destruct (items d !! p); [|done]. cbn. by rewrite moved_level_add.
      * rewrite Hrows, (proj1 (proj2 (settled_frame k now h d "" Hok Hl))). unfold update_where.
        rewrite map_map. apply map_ext. intros r. unfold in_listb. cbn [map].
        destruct (decide (rv_id r = rv_id h)) as [E|E].
        { rewrite (bool_decide_true (rv_id r = rv_id h)) by done. cbn [settle_hold rv_id].
          rewrite (bool_decide_false (rv_id r ∈ map rv_id holds)) by (by rewrite E).
          rewrite bool_decide_true; [done|]. rewrite E. left. }
        { rewrite (bool_decide_false (rv_id r = rv_id h)) by done.
          assert (Hiff : rv_id r ∈ rv_id h :: map rv_id holds ↔ rv_id r ∈ map rv_id holds)
            by (rewrite elem_of_cons; naive_solver).
          by rewrite (bool_decide_ext _ _ Hiff). }
      * intros p. rewrite Hstock. by apply settled_frame.
Qed.

Lemma settle_loop k now holds acc s :
  stock_ok uuid4 (working s) → NoDup (map rv_id holds) → Forall (λ h, live h (working s)) holds →
  (∃ e s', fold_each holds acc (settle_body k now) s = (s', inl e)) ∨
  (∃ details, fold_each holds acc (settle_body k now) s =
     (Session (committed s) (settled_all k now holds (working s)),
      inr (acc.1 + sumZ rv_quantity holds, details))).
Proof.
  revert acc s. induction holds as [|h holds IH]; intros acc s Hok Hnd Hlive.
  - right. exists acc.2. destruct acc, s. cbn. unfold ret. by rewrite Z.add_0_r.
  - cbn [map] in Hnd. apply NoDup_cons in Hnd as [Hh Hnd]. apply Forall_cons in Hlive as [Hl Hlive].
    cbn [fold_each]. unfold bind.
    destruct (settle_hold_run k now acc h s Hok Hl) as [(heap & e & s' & _ & ->)|(_ & detail & ->)];
      [left; eauto|].
    destruct (IH (acc.1 + rv_quantity h, acc.2 ++ [detail])
      (Session (committed s) (settled k now h (working s)))) as [(e & s' & E)|(details & E)]; cbn [working].
    + by apply settled_ok.
    + done.
    + rewrite Forall_forall in Hlive |- *. intros h' Hh'. apply live_settled; auto.
      intros E. apply Hh. rewrite <-E. apply elem_of_map. eauto.
    + left. eauto.
    + right. exists details. rewrite E. cbn. by rewrite Z.add_assoc.
Qed.

(** With every lock granted the loop succeeds. *)
Lemma settle_loop_granted k now holds acc s :
  (∀ p, locks p = None) →
  stock_ok uuid4 (working s) → NoDup (map rv_id holds) → Forall (λ h, live h (working s)) holds →
  ∃ details, fold_each holds acc (settle_body k now) s =
     (Session (committed s) (settled_all k now holds (working s)),
      inr (acc.1 + sumZ rv_quantity holds, details)).
Proof.
  intros Hlocks Hok Hnd Hlive. destruct (settle_loop k now holds acc s Hok Hnd Hlive) as [(e & s' & E)|?]; [|done].
  exfalso. revert acc s Hok Hlive E. induction holds as [|h holds IH]; intros acc s Hok Hlive E; [done|].
  cbn [map] in Hnd. apply NoDup_cons in Hnd as [Hh Hnd]. apply Forall_cons in Hlive as [Hl Hlive].
  cbn [fold_each] in E. unfold bind in E.
  destruct (settle_hold_run k now acc h s Hok Hl) as [(heap & ? & ? & Hn & _)|(_ & detail & Es)];
    [by rewrite Hlocks in Hn|]. rewrite Es in E.
  eapply (IH Hnd _ _ _ _ E). Unshelve.
  - by apply settled_ok.
  - cbn. rewrite Forall_forall in Hlive |- *. intros h' Hh'. apply live_settled; auto.
    intros E'. apply Hh. rewrite <-E'. apply elem_of_map. eauto.
Qed.

Definition settle_inventory (k : kind) (request : SettleRequest) (key : string) (now : Z) : M db SettleResponse :=
  match k with
  | Release => release_inventory isoformat fault locks request key now
  | Consume => consume_inventory isoformat fault locks request key now
  end.

Definition holds_of (order : string) (scope : option (list string)) (d : db) : list InventoryReservation :=
  List.filter (in_scope order scope) (reservations d).

Lemma holds_live order scope d :
  stock_ok uuid4 d → NoDup (map rv_id (holds_of order scope d)) ∧
  Forall (λ h, live h d) (holds_of order scope d).
Proof.
  intros [_ _ Hu _]. split.
  - unfold holds_of. induction (reservations d) as [|r rs IH]; [constructor|]. cbn in *.
    apply NoDup_cons in Hu as [Hr Hu]. destruct (in_scope order scope r); [|by apply IH]. cbn.
    constructor; [|by apply IH]. intros (r' & E & [Hr' _]%elem_of_filter_bool)%elem_of_map.
    apply Hr. rewrite E. apply elem_of_map. eauto.
  - apply Forall_forall. intros h [Hh Hs]%elem_of_filter_bool. split; [done|].
    unfold in_scope in Hs. by bool_to_prop.
Qed.

(** What an answered settlement says and leaves behind. *)
Definition settlement (k : kind) (now : Z) (holds : list InventoryReservation) (d : db)
    (out : db * (exn + SettleResponse)) : Prop :=
  out.1 = settled_all k now holds d ∧
  ∃ r, out.2 = inr r ∧ rs_units r = sumZ rv_quantity holds ∧
    rs_reservations r = Z.of_nat (length holds).

Definition nothing_held (k : kind) : string :=
  match k with
  | Release => "no live reservation; nothing to return"
  | Consume => "no live reservation; nothing to consume"
  end.

Lemma settle_inventory_eq k request key now d :
  run (settle_inventory k request key now) d =
    match scope_of request with
    | None => (d, inl (Raised "DataError"))
    | Some scope =>
        let holds := holds_of (rq_settled_order request) scope d in
        match holds with
        | [] => (d, inr {| rs_order_id := rq_settled_order request; rs_units := 0;
                           rs_reservations := 0; rs_detail := nothing_held k |})
        | _ =>
            match fold_each holds (0, []) (settle_body k now) (Session d d) with
            | (_, inl e) => (d, inl e)
            | (s, inr result) =>
                match fault (working s) with
                | Some e => (d, inl (Http 500 e))
                | None =>
                    (working s,
                     inr {| rs_order_id := rq_settled_order request; rs_units := result.1;
                            rs_reservations := Z.of_nat (length holds);
                            rs_detail := join "; " result.2 |})
                end
            end
        end
    end.
Proof.
  assert (Hu : ∀ holds, uncommitting (fold_each holds (0, []) (settle_body k now))).
  { intros holds. apply uncommitting_fold. intros acc h. destruct k; cbn; unfold release_hold, consume_hold,
      locked_item, emit_event, mark_settled; monadic. }
  destruct k; unfold settle_inventory, release_inventory, consume_inventory, run;
    (destruct (scope_of request) as [scope|]; [|done]); unfold bind, query; cbn [working];
    change (List.filter _ _) with (holds_of (rq_settled_order request) scope d);
    cbv zeta; (destruct (holds_of (rq_settled_order request) scope d) as [|h hs]; [done|]);
    cbn [settle_body] in *; specialize (Hu (h :: hs) (Session d d));
    (destruct (fold_each _ _ _ _) as [s' [e|r]]; cbn [fst committed] in *; [by rewrite Hu|]);
    unfold commit, try_commit, bind; (destruct (fault (working s')); cbn; [by rewrite Hu|done]).
Qed.

Lemma settle_inventory_run k request key now d :
  stock_ok uuid4 d →
  (∃ e, run (settle_inventory k request key now) d = (d, inl e)) ∨
  (∃ scope, scope_of request = Some scope ∧
     settlement k now (holds_of (rq_settled_order request) scope d) d
       (run (settle_inventory k request key now) d)).
Proof.
  intros Hok. rewrite settle_inventory_eq. destruct (scope_of request) as [scope|]; [|eauto]. cbv zeta.
  destruct (holds_live (rq_settled_order request) scope d Hok) as [Hnd Hlive].
  destruct (holds_of (rq_settled_order request) scope d) as [|h hs] eqn:Eh.
  - right. exists scope. rewrite Eh. split; [done|]. split; [done|]. eexists. done.
  - destruct (settle_loop k now _ (0, []) (Session d d) Hok Hnd Hlive) as [(e & s' & ->)|(details & ->)]; [eauto|].
    cbn [working]. destruct (fault _); [eauto|]. right. exists scope. rewrite Eh. split; [done|].
    split; [done|]. eexists. split; [done|]. done.
Qed.

Lemma settle_inventory_granted k request key now d scope :
  (∀ p, locks p = None) → (∀ d, fault d = None) → stock_ok uuid4 d → scope_of request = Some scope →
  settlement k now (holds_of (rq_settled_order request) scope d) d
    (run (settle_inventory k request key now) d).
Proof.
  intros Hlocks Hf Hok Hs. rewrite settle_inventory_eq, Hs. cbv zeta.
  destruct (holds_live (rq_settled_order request) scope d Hok) as [Hnd Hlive].
  destruct (holds_of (rq_settled_order request) scope d) as [|h hs].
  - split; [done|]. eexists. done.
  - destruct (settle_loop_granted k now _ (0, []) (Session d d) Hlocks Hok Hnd Hlive) as (details & ->).
    cbn [working]. rewrite Hf. split; [done|]. eexists. done.
Qed.

(** ** Reserving keeps the accounts *)

Definition with_hold (request : ReserveRequest) (now : Z) (d : db) : db :=
  match rq_order_id request with
  | Some order_id =>
      if is_empty order_id then d
      else with_reservations (λ rs, rs ++
             [{| rv_id := uuid4 (inv_draws d); rv_order_id := order_id;
                 rv_product_id := rq_product_id request; rv_quantity := rq_quantity request;
                 rv_status := "held"; rv_created_at := now; rv_released_at := None |}]) (inv_draw d)
  | None => d
  end.

Definition taken (q : Z) (l : StockLevel) : StockLevel :=
  {| quantity_available := quantity_available l - q; quantity_reserved := quantity_reserved l + q |}.

(** The rows after any request: unchanged, or the units of one product taken
    and, for an order, recorded as held. *)
Lemma reserve_rows request key now d :
  let out := run (reserve_inventory uuid4 isoformat fault locks request key now) d in
  (items out.1 = items d ∧ reservations out.1 = reservations d ∧ inv_draws out.1 = inv_draws d) ∨
  (∃ it, items d !! rq_product_id request = Some it ∧
     0 < rq_quantity request ≤ quantity_available (level it) ∧
     out.2 = inr (set_level (taken (rq_quantity request) (level it)) now it) ∧
     let d1 := with_hold request now (with_items
                 (<[rq_product_id request := set_level (taken (rq_quantity request) (level it)) now it]>) d) in
     items out.1 = items d1 ∧ reservations out.1 = reservations d1 ∧ inv_draws out.1 = inv_draws d1).
Proof.
  cbv zeta. unfold run, reserve_inventory. symex.
  destruct (bool_decide _).
  { left. symex. destruct (dict_get (inv_keys d) key) as [[rid|]|]; symex;
      [destruct (find_item rid d)|..]; split_and!; reflexivity. }
  symex. unfold locked_item. destruct (locks (rq_product_id request)) as [heap|].
  { left. destruct (is_lock_contention heap 0) as [[]|]; symex; split_and!; reflexivity. }
  symex. cbn [with_inv_keys items]. unfold plan_reservation.
  destruct (rq_quantity request <=? 0) eqn:Eq; [left; split_and!; reflexivity|].
  destruct (items d !! rq_product_id request) as [it|] eqn:Eit; [|left; split_and!; reflexivity].
  cbn [fmap option_fmap option_map].
  destruct (quantity_available (level it) <? rq_quantity request) eqn:Ea; cbn [r_outcome r_new_level default].
  { left. unfold emit_event. symex. destruct (fault _); split_and!; reflexivity. }
  bool_to_prop. unfold emit_event, with_hold. symex.
  destruct (rq_order_id request) as [order|]; [destruct (is_empty order)|]; symex;
    (destruct (fault _); [left; split_and!; reflexivity|]); right; exists it;
    split_and!; try reflexivity; lia.
Qed.

Lemma units_in_app st p rs rs' : units_in st p (rs ++ rs') = units_in st p rs + units_in st p rs'.
Proof. apply sumZ_app. Qed.

Lemma reserve_ok request key now d :
  Inj (=) (=) uuid4 → stock_ok uuid4 d →
  let d' := (run (reserve_inventory uuid4 isoformat fault locks request key now) d).1 in
  stock_ok uuid4 d' ∧ ∀ p, stock p d' = stock p d.
Proof.
  intros Hinj [Hl Hh Hu Hd]. cbv zeta.
  destruct (reserve_rows request key now d) as [(Hi & Hr & Hn)|(it & Hit & Hq & _ & Hi & Hr & Hn)].
  { split; [|intros p; unfold stock; by rewrite Hi, Hr]. constructor; rewrite ?Hi, ?Hr, ?Hn; assumption. }
  set (out := run _ d) in *. clearbody out. set (p0 := rq_product_id request) in *.
  destruct (Hl p0 it Hit) as [Ha Hres].
  assert (Hreq : (reservations out.1 = reservations d ∧ inv_draws out.1 = inv_draws d) ∨
    ∃ r, reservations out.1 = reservations d ++ [r] ∧ inv_draws out.1 = S (inv_draws d) ∧
      rv_status r = "held" ∧ rv_product_id r = p0 ∧ rv_quantity r = rq_quantity request ∧
      rv_id r = uuid4 (inv_draws d)).
  { rewrite Hr, Hn. unfold with_hold. destruct (rq_order_id request) as [o|]; [|by left].
    destruct (is_empty o); [by left|]. right. eexists. done. }
  assert (Hi' : items out.1 = <[p0 := set_level (taken (rq_quantity request) (level it)) now it]> (items d)).
  { rewrite Hi. unfold with_hold. destruct (rq_order_id request) as [o|]; [|done].
    by destruct (is_empty o). }
  assert (Hun : ∀ st p, units_in st p (reservations d) ≤ units_in st p (reservations out.1)
    ≤ units_in st p (reservations d) + ite (p0 =?s p) (ite (st =?s "held") (rq_quantity request))).
  { intros st p. destruct Hreq as [[-> _]|(r & -> & _ & Hst & Hp & Hqr & _)].
    - unfold ite. destruct (p0 =?s p), (st =?s "held"); lia.
    - rewrite units_in_app.
      assert (Hone : units_in st p [r] = ite (p0 =?s p) (ite (st =?s "held") (rq_quantity request))).
      { unfold units_in. cbn [sumZ]. rewrite Hst, Hp, Hqr.
        rewrite (bool_decide_ext ("held" = st) (st = "held")) by naive_solver.
        destruct (p0 =?s p), (st =?s "held"); cbn [andb ite]; lia. }
      rewrite Hone. unfold ite. destruct (p0 =?s p), (st =?s "held"); lia. }
  split.
  - constructor.
    + intros p it'. rewrite Hi'. specialize (Hun "held" p).
      rewrite (bool_decide_true ("held" = "held")) in Hun by done. cbn [ite] in Hun.
      destruct (decide (p0 = p)) as [<-|Hp].
      * rewrite lookup_insert_eq. intros [= <-]. rewrite bool_decide_true in Hun by done. cbn in *. lia.
      * rewrite lookup_insert_ne by done. rewrite bool_decide_false in Hun by done. intros Hx.
        destruct (Hl _ _ Hx). cbn in Hun. lia.
    + intros r Hr'. rewrite Hi'. destruct Hreq as [[E _]|(r0 & E & _ & _ & Hp & Hqr & _)]; rewrite E in Hr'.
      * destruct (Hh r Hr') as [? Hx]. split; [done|]. apply lookup_insert_is_Some.
        destruct (decide (p0 = rv_product_id r)); auto.
      * apply elem_of_app in Hr' as [Hr'| ->%list_elem_of_singleton].
        -- destruct (Hh r Hr') as [? Hx]. split; [done|]. apply lookup_insert_is_Some.
           destruct (decide (p0 = rv_product_id r)); auto.
        -- rewrite Hqr, Hp. split; [lia|]. rewrite lookup_insert_eq. eauto.
    + destruct Hreq as [[-> _]|(r & -> & _ & _ & _ & _ & Hid)]; [done|].
      rewrite map_app. apply NoDup_app. split_and!; [done| |apply NoDup_singleton].
      intros i (r' & -> & Hr')%elem_of_map Hx%list_elem_of_singleton.
      destruct (Hd r' Hr') as (n & Hn' & E). rewrite E, Hid in Hx. apply Hinj in Hx. lia.
    + destruct Hreq as [[-> ->]|(r & -> & -> & _ & _ & _ & Hid)]; [done|].
      intros r' [Hr'| ->%list_elem_of_singleton]%elem_of_app.
      * destruct (Hd r' Hr') as (n & ? & ?). exists n. split; [lia|done].
      * exists (inv_draws d). split; [lia|done].
  - intros p. unfold stock. rewrite Hi'. specialize (Hun "consumed" p).
    rewrite (bool_decide_false ("consumed" = "held")) in Hun by done. cbn [ite] in Hun.
    assert (Hc : units_in "consumed" p (reservations out.1) = units_in "consumed" p (reservations d))
      by (unfold ite in Hun; destruct (p0 =?s p); lia). rewrite Hc.
    destruct (decide (p0 = p)) as [<-|Hp].
    + rewrite lookup_insert_eq, Hit. unfold total. cbn. lia.
    + by rewrite lookup_insert_ne.
Qed.

Lemma settle_ok k request key now d :
  stock_ok uuid4 d →
  let d' := (run (settle_inventory k request key now) d).1 in
  stock_ok uuid4 d' ∧ ∀ p, stock p d' = stock p d.
Proof.
  intros Hok. cbv zeta. destruct (settle_inventory_run k request key now d Hok) as [[e ->]|(scope & _ & Hd & _)].
  - done.
  - rewrite Hd. destruct (holds_live (rq_settled_order request) scope d Hok) as [Hnd Hlive].
    destruct (settled_all_spec k now _ d Hok Hnd Hlive) as (? & _ & _ & ?). done.
Qed.
End settle.

(** What an uncontended settlement does, and what its retry does. *)
Record exact_settlement (isoformat : Z → string) (k : kind) (request : SettleRequest)
    (scope : option (list string)) (now : Z) (d d' : db) (r : SettleResponse) : Prop := {
  ex_units : rs_units r = sumZ rv_quantity (holds_of (rq_settled_order request) scope d);
  ex_rows : rs_reservations r = Z.of_nat (length (holds_of (rq_settled_order request) scope d));
  ex_levels : ∀ p, level <$> items d' !! p =
    moved_level k (held_among p (holds_of (rq_settled_order request) scope d)) <$> (level <$> items d !! p);
  ex_ledger : reservations d' =
    map (λ x, if in_scope (rq_settled_order request) scope x
              then settle_hold (status_after k) now x else x) (reservations d);
  ex_retry : ∀ fault locks key now', ∃ r',
    run (settle_inventory isoformat fault locks k request key now') d' = (d', inr r') ∧
    rs_units r' = 0 ∧ rs_reservations r' = 0;
}.

Lemma settle_exactly uuid4 isoformat k request scope key now d :
  stock_ok uuid4 d → scope_of request = Some scope →
  ∃ d' r, run (settle_inventory isoformat (λ _, None) (λ _, None) k request key now) d = (d', inr r) ∧
    exact_settlement isoformat k request scope now d d' r.
Proof.
  intros Hok Hs. pose proof (settle_inventory_granted uuid4 isoformat (λ _, None) (λ _, None) k request key now d
    scope ltac:(done) ltac:(done) Hok Hs) as (Hd & r & Hr & Hu & Hn).
  destruct (run _ d) as [d' out] eqn:E. cbn [fst snd] in *. subst out. exists d', r. split; [done|].
  destruct (holds_live uuid4 (rq_settled_order request) scope d Hok) as [Hnd Hlive].
  destruct (settled_all_spec uuid4 isoformat (λ _, None) k now _ d Hok Hnd Hlive) as (Hok' & Hlev & Hrows & _).
  rewrite <-Hd in Hok', Hlev, Hrows.
  assert (Hled : reservations d' = map (λ x, if in_scope (rq_settled_order request) scope x
              then settle_hold (status_after k) now x else x) (reservations d)).
  { rewrite Hrows. apply map_ext_in. intros x Hx%list_elem_of_In. unfold in_listb.
    destruct (in_scope (rq_settled_order request) scope x) eqn:Ex.
    - rewrite bool_decide_true; [done|]. apply elem_of_map. exists x. split; [done|].
      by apply elem_of_filter_bool.
    - rewrite bool_decide_false; [done|]. intros (y & Ey & [Hy Hin]%elem_of_filter_bool)%elem_of_map.
      rewrite (map_key_inj rv_id _ x y (rv_ids_unique _ _ Hok)) in Ex by done. congruence. }
  constructor; try done. intros fault locks key' now'. rewrite settle_inventory_eq, Hs. cbv zeta.
  assert (Hnone : holds_of (rq_settled_order request) scope d' = []).
  { apply filter_none. rewrite Hled. intros x (y & -> & _)%elem_of_map.
    destruct (in_scope (rq_settled_order request) scope y) eqn:Ey; [|done].
    unfold in_scope. cbn [rv_status settle_hold].
    rewrite (bool_decide_false (status_after k = "held")) by (by destruct k). by rewrite andb_false_r. }
  rewrite Hnone. eexists. done.
Qed.

(** One request handled by the service; lock waits and commits may fail. *)
Inductive inventory_step (uuid4 : nat → string) (isoformat : Z → string) (d : db) : db → Prop :=
| step_reserve fault locks request key now : inventory_step uuid4 isoformat d
    (run (reserve_inventory uuid4 isoformat fault locks request key now) d).1
| step_release fault locks request key now : inventory_step uuid4 isoformat d
    (run (release_inventory isoformat fault locks request key now) d).1
| step_consume fault locks request key now : inventory_step uuid4 isoformat d
    (run (consume_inventory isoformat fault locks request key now) d).1.

(** ** Properties *)

(** C1 — Stock is conserved and never oversold: over any sequence of
    reservations, releases and deliveries, with any lock waits failing and any
    commits refused, for every product the units on the shelf, reserved and
    delivered add up to what there was; no shelf count is ever negative; and
    what orders hold never exceeds what the row shows as reserved. *)
Theorem stock_is_conserved (uuid4 : nat → string) (isoformat : Z → string) (d0 d : db)
    (Hinj : Inj (=) (=) uuid4) (H0 : stock_ok uuid4 d0)
    (Hreach : rtc (inventory_step uuid4 isoformat) d0 d) :
  (∀ p, stock p d = stock p d0) ∧
  (∀ p it, items d !! p = Some it →
     0 ≤ quantity_available (level it) ∧
     0 ≤ units_in "held" p (reservations d) ≤ quantity_reserved (level it)).
Proof.
  assert (H : stock_ok uuid4 d ∧ ∀ p, stock p d = stock p d0).
  { eapply (rtc_invariant _ (λ d, stock_ok uuid4 d ∧ ∀ p, stock p d = stock p d0)); [|exact Hreach|done].
    intros s s' Hstep [Hs Hst]. destruct Hstep as [f l r k n|f l r k n|f l r k n].
    - destruct (reserve_ok uuid4 isoformat f l r k n s Hinj Hs) as [? Hp].
      split; [done|]. intros p. by rewrite Hp.
    - destruct (settle_ok uuid4 isoformat f l Release r k n s Hs) as [? Hp].
      split; [done|]. intros p. by rewrite Hp.
    - destruct (settle_ok uuid4 isoformat f l Consume r k n s Hs) as [? Hp].
      split; [done|]. intros p. by rewrite Hp. }
  destruct H as [[Hl Hh _ _] Hst]. split; [done|]. intros p it Hit.
  destruct (Hl p it Hit). split; [done|]. split; [|done].
  apply units_in_nonneg. intros r Hr. by apply Hh.
Qed.

(** A release gives back exactly what it settles: when locks are granted
    and the commit succeeds, the units of every hold of the order within the
    requested lines return from reserved to available, product by product; the
    answer counts them; every other hold of the ledger is untouched, another
    seller's lines of the same order included; and repeating the request, at
    any later time, changes nothing and reports nothing released. *)
Theorem release_returns_exactly (uuid4 : nat → string) (isoformat : Z → string)
    (request : SettleRequest) (scope : option (list string)) (key : string) (now : Z) (d : db)
    (Hok : stock_ok uuid4 d) (Hscope : scope_of request = Some scope) :
  ∃ d' r, run (release_inventory isoformat (λ _, None) (λ _, None) request key now) d = (d', inr r) ∧
    exact_settlement isoformat Release request scope now d d' r.
Proof. exact (settle_exactly uuid4 isoformat Release request scope key now d Hok Hscope). Qed.

(** A delivery retires exactly what it settles, and is never refused:
    under the service's invariant the units of every hold in scope leave
    reserved without returning to the shelf, other holds are untouched, and a
    repeated courier callback is an answered no-op. *)
Theorem consume_retires_exactly (uuid4 : nat → string) (isoformat : Z → string)
    (request : SettleRequest) (scope : option (list string)) (key : string) (now : Z) (d : db)
    (Hok : stock_ok uuid4 d) (Hscope : scope_of request = Some scope) :
  ∃ d' r, run (consume_inventory isoformat (λ _, None) (λ _, None) request key now) d = (d', inr r) ∧
    exact_settlement isoformat Consume request scope now d d' r.
Proof. exact (settle_exactly uuid4 isoformat Consume request scope key now d Hok Hscope). Qed.

Lemma find_item_some p it d : items d !! p = Some it → ∃ it', find_item (item_id it) d = Some it'.
Proof.
  intros Hit. unfold find_item. destruct (List.find _ _) as [it'|] eqn:E; [eauto|].
  assert (Hin : it ∈ (map_to_list (items d)).*2).
  { apply list_elem_of_fmap. exists (p, it). split; [done|]. by apply elem_of_map_to_list. }
  pose proof (find_none_elem _ _ _ E Hin) as Hf. cbv beta in Hf. by rewrite bool_decide_true in Hf.
Qed.

(** A rejected reservation is not replayed as a rejection: when a product
    is out of stock the request is answered 409 and its key is bound to the
    item, so the same request repeated with the same key is answered with
    success although no unit was reserved for it, the shelf and the ledger
    being exactly what they were. *)
Theorem rejected_reservation_retry_succeeds (uuid4 : nat → string) (isoformat : Z → string)
    (request : ReserveRequest) (key : string) (now now' : Z) (d : db) (it : InventoryItem)
    (Hkey : key ∉ (inv_keys d).*1) (Hit : items d !! rq_product_id request = Some it)
    (Hq : 0 < rq_quantity request) (Hshort : quantity_available (level it) < rq_quantity request) :
  let reserve := reserve_inventory uuid4 isoformat (λ _, None) (λ _, None) request key in
  ∃ d' detail it', run (reserve now) d = (d', inl (Http 409 detail)) ∧
    items d' = items d ∧ reservations d' = reservations d ∧
    run (reserve now') d' = (d', inr it').
Proof.
  cbv zeta. set (d' := with_inv_keys (λ ks, dict_set (ks ++ [(key, None)]) key (Some (item_id it)))
    (with_inv_outbox (λ ms, ms ++ [{| aggregate_type := "Inventory"; aggregate_id := rq_product_id request;
       msg_type := EVENT_FAILED; payload :=
            [("id", JStr (item_id it)); ("product_id", JStr (rq_product_id request));
             ("quantity_requested", JInt (rq_quantity request));
             ("quantity_available", JInt (quantity_available (level it)));
             ("reason", JStr "InsufficientStock"); ("occurred_at", JStr (isoformat now))];
       msg_created_at := now |}]) d)).
  destruct (find_item_some _ it d Hit) as [it' Hit'].
  exists d'. eexists. exists it'. split_and!; [|done|done|].
  - unfold run, reserve_inventory. symex. rewrite bool_decide_false by done. symex.
    unfold locked_item. symex. cbn [with_inv_keys items]. rewrite Hit. unfold plan_reservation.
    rewrite (proj2 (Z.leb_gt _ _) Hq). cbn [fmap option_fmap option_map].
    rewrite (proj2 (Z.ltb_lt _ _) Hshort). cbn [r_outcome]. unfold emit_event. symex. reflexivity.
  - assert (Hk : dict_get (inv_keys d') key = Some (Some (item_id it))) by apply dict_get_set_eq.
    assert (Hin : key ∈ (inv_keys d').*1) by (apply dict_get_is_Some; by eexists).
    assert (Hf : find_item (item_id it) d' = Some it') by exact Hit'.
    clearbody d'. unfold run, reserve_inventory. symex.
    rewrite bool_decide_true by done. symex. rewrite Hk. symex. by rewrite Hf.
Qed.

(** ** Witnesses *)

Definition product_a := "4cc1484d-0000-4000-8000-0000000000a1".
Definition product_b := "4cc1484d-0000-4000-8000-0000000000b2".

Definition sample_item (i : string) (a r : Z) : InventoryItem :=
  {| item_id := i; level := {| quantity_available := a; quantity_reserved := r |}; item_updated_at := 0 |}.

Definition sample_hold (n : nat) (p : string) (q : Z) (st : string) : InventoryReservation :=
  {| rv_id := unary_id n; rv_order_id := "o1"; rv_product_id := p; rv_quantity := q; rv_status := st;
     rv_created_at := 0; rv_released_at := None |}.

Definition sample_stock : db :=
  {| items := <[product_a := sample_item "i1" 5 3]> (<[product_b := sample_item "i2" 0 4]> ∅);
     reservations := [sample_hold 0 product_a 2 "held"; sample_hold 1 product_b 4 "held";
                      sample_hold 2 product_a 1 "consumed"];
     inv_outbox := []; inv_keys := []; inv_draws := 3 |}.

Lemma sample_stock_ok : stock_ok unary_id sample_stock.
Proof.
  constructor.
  - intros p it. unfold sample_stock. cbn [items].
    intros [[<- <-]|[Hne [[<- <-]|[_ H]]%lookup_insert_Some]]%lookup_insert_Some;
      [by vm_compute|by vm_compute|]. by rewrite lookup_empty in H.
  - intros r Hr. cbn [sample_stock reservations] in Hr. elem_cases Hr; by_compute.
  - by_compute.
  - intros r Hr. cbn [sample_stock reservations] in Hr.
    elem_cases Hr; [exists 0%nat|exists 1%nat|exists 2%nat]; (split; [cbn; lia|reflexivity]).
Qed.

Definition sample_settle : SettleRequest :=
  {| rq_settled_order := "o1"; rq_product_ids := Some [product_a] |}.

Lemma release_returns_exactly_witness :
  ∃ d' r, run (release_inventory (λ _, "t") (λ _, None) (λ _, None) sample_settle "k" 9) sample_stock
            = (d', inr r) ∧ rs_units r = 2 ∧
    map rv_status (reservations d') = ["released"; "held"; "consumed"].
Proof.
  destruct (release_returns_exactly unary_id (λ _, "t") sample_settle (Some [product_a]) "k" 9 sample_stock
    sample_stock_ok eq_refl) as (d' & r & Hrun & Hx).
  exists d', r. split; [exact Hrun|]. split.
  - rewrite (ex_units _ _ _ _ _ _ _ _ Hx). vm_compute. reflexivity.
  - rewrite (ex_ledger _ _ _ _ _ _ _ _ Hx). vm_compute. reflexivity.
Defined.

Lemma consume_retires_exactly_witness :
  ∃ d' r, run (consume_inventory (λ _, "t") (λ _, None) (λ _, None) sample_settle "k" 9) sample_stock
            = (d', inr r) ∧ rs_units r = 2 ∧
    map rv_status (reservations d') = ["consumed"; "held"; "consumed"].
Proof.
  destruct (consume_retires_exactly unary_id (λ _, "t") sample_settle (Some [product_a]) "k" 9 sample_stock
    sample_stock_ok eq_refl) as (d' & r & Hrun & Hx).
  exists d', r. split; [exact Hrun|]. split.
  - rewrite (ex_units _ _ _ _ _ _ _ _ Hx). vm_compute. reflexivity.
  - rewrite (ex_ledger _ _ _ _ _ _ _ _ Hx). vm_compute. reflexivity.
Defined.

Lemma rejected_reservation_retry_succeeds_witness :
  let request := {| rq_product_id := product_b; rq_quantity := 1; rq_order_id := Some "o2" |} in
  let reserve := reserve_inventory unary_id (λ _, "t") (λ _, None) (λ _, None) request "k" in
  ∃ d' detail it', run (reserve 5) sample_stock = (d', inl (Http 409 detail)) ∧
    run (reserve 6) d' = (d', inr it').
Proof.
  cbv zeta. destruct (rejected_reservation_retry_succeeds unary_id (λ _, "t")
    {| rq_product_id := product_b; rq_quantity := 1; rq_order_id := Some "o2" |} "k" 5 6 sample_stock
    (sample_item "i2" 0 4)) as (d' & detail & it' & H1 & _ & _ & H2);
    [by_compute|reflexivity|cbn; lia|cbn; lia|].
  exists d', detail, it'. split; [exact H1|exact H2].
Defined.

Lemma stock_is_conserved_witness :
  let d := (run (consume_inventory (λ _, "t") (λ _, None) (λ _, None) sample_settle "k" 9) sample_stock).1 in
  rtc (inventory_step unary_id (λ _, "t")) sample_stock d ∧ stock product_a d = 9.
Proof.
  cbv zeta. set (d := (run _ sample_stock).1).
  assert (Hr : rtc (inventory_step unary_id (λ _, "t")) sample_stock d)
    by (apply rtc_once; exact (step_consume _ _ _ (λ _, None) (λ _, None) sample_settle "k" 9)).
  split; [exact Hr|].
  rewrite (proj1 (stock_is_conserved unary_id (λ _, "t") sample_stock d unary_id_inj sample_stock_ok Hr)).
  vm_compute. reflexivity.
Defined.
End InventoryService.
