(* ===== verification/PaymentService.v ===== *)
(** * Charges and refunds (services/payment-service: charge_rules.py,
      refund_rules.py, payment_service.py)

    The card ledger is append-only: a charge adds a row, a refund adds a
    reversing row.  Sessions run one at a time, which is what the advisory lock
    gives refunds of one order. *)

From S2P Require Import Prelude PyValue Session.

Module ChargeRules.
Definition STATUS_SUCCESS := "SUCCESS".
Definition STATUS_FAILED := "FAILED".
Definition EVENT_CHARGED := "PaymentCharged".
Definition EVENT_FAILED := "PaymentFailed".
Definition DECLINE_TOKEN := "tok_fail".

Definition authorize (payment_token : option string) : string :=
  if bool_decide (payment_token = Some DECLINE_TOKEN) then STATUS_FAILED else STATUS_SUCCESS.

Definition event_for (status : string) : string :=
  if status =?s STATUS_SUCCESS then EVENT_CHARGED else EVENT_FAILED.

Definition is_declined (status : string) : bool := status =?s STATUS_FAILED.

Inductive IdempotencyOutcome := PROCEED | RETURN_CACHED | RETRY_LATER.

Record IdempotencyDecision := { i_outcome : IdempotencyOutcome; i_detail : string }.

Definition resolve_idempotency (key_was_inserted : bool) (stored_result_id : option string)
    (cached_result_found : bool) : IdempotencyDecision :=
  if key_was_inserted then {| i_outcome := PROCEED; i_detail := "new key" |}
  else if bool_decide (is_Some stored_result_id) && cached_result_found then
    {| i_outcome := RETURN_CACHED; i_detail := "replaying previously committed result" |}
  else if bool_decide (stored_result_id = None) then
    {| i_outcome := RETRY_LATER;
       i_detail := "same idempotency key is still in flight; no committed result yet" |}
  else
    {| i_outcome := RETRY_LATER;
       i_detail := "idempotency key references a result that no longer exists" |}.
End ChargeRules.

Module RefundRules.
Definition STATUS_SUCCESS := "SUCCESS".
Definition STATUS_REFUNDED := "REFUNDED".
Definition STATUS_REFUND_NOOP := "REFUND_NOOP".
Definition SETTLED_STATUSES : list string := [STATUS_REFUNDED; STATUS_REFUND_NOOP].

Inductive RefundOutcome := ALREADY_SETTLED | NO_CHARGE | REVERSED.

Record LedgerEntry := { e_status : string; e_amount_cents : Z }.

Record RefundPlan := {
  p_outcome : RefundOutcome;
  refunded : bool;
  refunded_cents : Z;
  append_status : option string;
  append_amount_cents : Z;
  emit_event : bool;
  p_detail : string;
}.

Definition plan_refund (prior charge : option LedgerEntry) : RefundPlan :=
  match prior with
  | Some prior =>
      {| p_outcome := ALREADY_SETTLED; refunded := e_status prior =?s STATUS_REFUNDED;
         refunded_cents := Z.abs (e_amount_cents prior); append_status := None;
         append_amount_cents := 0; emit_event := false;
         p_detail := "Already settled — returning prior outcome" |}
  | None =>
      match charge with
      | None =>
          {| p_outcome := NO_CHARGE; refunded := false; refunded_cents := 0;
             append_status := Some STATUS_REFUND_NOOP; append_amount_cents := 0;
             emit_event := true;
             p_detail := "No charge found for this order — recorded as no-op" |}
      | Some charge =>
          {| p_outcome := REVERSED; refunded := true; refunded_cents := e_amount_cents charge;
             append_status := Some STATUS_REFUNDED;
             append_amount_cents := - e_amount_cents charge; emit_event := true;
             p_detail := "Refunded " +:+ dec (e_amount_cents charge) +:+ " cents" |}
      end
  end.

Definition net_position (entries : list LedgerEntry) : Z := sumZ e_amount_cents entries.
End RefundRules.

Module PaymentService.
Import RefundRules.

Record PaymentLedger := {
  pl_id : string;
  pl_order_id : string;
  pl_user_id : string;
  pl_amount_cents : Z;
  pl_currency : string;
  pl_payment_token : string;
  pl_status : string;
  pl_created_at : Z;
}.

Record db := {
  ledger : list PaymentLedger;
  pay_outbox : list OutboxMessage;
  pay_keys : key_table;
  pay_draws : nat;
}.

Record ChargeRequest := {
  cr_order_id : string;
  cr_user_id : string;
  cr_amount_cents : Z;
  cr_payment_token : option string;
  cr_currency : option string;
}.

Record RefundRequest := { rf_order_id : string; rf_user_id : string; rf_reason : option string }.

Record RefundResponse := {
  rr_order_id : string;
  rr_refunded : bool;
  rr_refunded_cents : Z;
  rr_status : string;
  rr_detail : string;
}.

Definition with_ledger (f : list PaymentLedger → list PaymentLedger) (d : db) : db :=
  {| ledger := f (ledger d); pay_outbox := pay_outbox d; pay_keys := pay_keys d; pay_draws := pay_draws d |}.
Definition with_pay_outbox (f : list OutboxMessage → list OutboxMessage) (d : db) : db :=
  {| ledger := ledger d; pay_outbox := f (pay_outbox d); pay_keys := pay_keys d; pay_draws := pay_draws d |}.
Definition with_pay_keys (f : key_table → key_table) (d : db) : db :=
  {| ledger := ledger d; pay_outbox := pay_outbox d; pay_keys := f (pay_keys d); pay_draws := pay_draws d |}.
Definition pay_draw (d : db) : db :=
  {| ledger := ledger d; pay_outbox := pay_outbox d; pay_keys := pay_keys d; pay_draws := S (pay_draws d) |}.

Definition find_payment (i : string) (d : db) : option PaymentLedger :=
  List.find (λ r, pl_id r =?s i) (ledger d).

Section handlers.
Context (uuid4 : nat → string) (isoformat : Z → string) (fault : db → option string).

Definition fresh_id : M db string :=
  n <- query pay_draws ;; exec pay_draw ;;; ret (uuid4 n).

(** A missing currency takes the column's default when the row is flushed (the
    event, built before, carries null); a missing token violates its NOT NULL
    at the flush the key lookup causes, outside the handler's [try]. *)
Definition process_charge (request : ChargeRequest) (idempotency_key : string) (now : Z)
    : M db PaymentLedger :=
  known <- query (λ d, bool_decide (idempotency_key ∈ (pay_keys d).*1)) ;;
  (if known : bool then ret tt
   else exec (with_pay_keys (λ ks, ks ++ [(idempotency_key, None)]))) ;;;
  let key_was_inserted := negb known in
  stored_result_id <- (if key_was_inserted then ret None
                       else query (λ d, default None (dict_get (pay_keys d) idempotency_key))) ;;
  cached <- match stored_result_id with
            | Some rid => query (find_payment rid)
            | None => ret None
            end ;;
  let decision := ChargeRules.resolve_idempotency key_was_inserted stored_result_id
                    (bool_decide (is_Some cached)) in
  match ChargeRules.i_outcome decision, cached with
  | ChargeRules.RETURN_CACHED, Some c => ret c
  | ChargeRules.RETURN_CACHED, None => raise (Raised "unreachable: a cached result was found")
  | ChargeRules.RETRY_LATER, _ => raise (Http 409 (ChargeRules.i_detail decision))
  | ChargeRules.PROCEED, _ =>
      match cr_payment_token request with
      | Some token =>
          let status := ChargeRules.authorize (cr_payment_token request) in
          payment_id <- fresh_id ;;
          let ledger_entry :=
            {| pl_id := payment_id; pl_order_id := cr_order_id request;
               pl_user_id := cr_user_id request; pl_amount_cents := cr_amount_cents request;
               pl_currency := default "USD" (cr_currency request); pl_payment_token := token;
               pl_status := status; pl_created_at := now |} in
          exec (with_ledger (λ rows, rows ++ [ledger_entry])) ;;;
          exec (with_pay_outbox (λ ms, ms ++
            [{| aggregate_type := "Payment"; aggregate_id := cr_order_id request;
                msg_type := ChargeRules.event_for status;
                payload := [("id", JStr payment_id); ("order_id", JStr (cr_order_id request));
                            ("user_id", JStr (cr_user_id request));
                            ("amount_cents", JInt (cr_amount_cents request));
                            ("currency", match cr_currency request with Some c => JStr c | None => JNull end);
                            ("status", JStr status);
                            ("created_at", JStr (isoformat now))];
                msg_created_at := now |}])) ;;;
          exec (with_pay_keys (λ ks, dict_set ks idempotency_key (Some payment_id))) ;;;
          commit fault ;;;
          ret ledger_entry
      | None => raise (Raised "IntegrityError")
      end
  end.

Definition order_rows (order : string) (d : db) : list PaymentLedger :=
  List.filter (λ r, pl_order_id r =?s order) (ledger d).

Definition entry_of (r : PaymentLedger) : LedgerEntry :=
  {| e_status := pl_status r; e_amount_cents := pl_amount_cents r |}.

(** [scalar_one_or_none()]: more than one row is an exception. *)
Definition scalar_one_or_none {A} (rows : list A) : M db (option A) :=
  match rows with
  | [] => ret None
  | [r] => ret (Some r)
  | _ => raise (Raised "MultipleResultsFound")
  end.

Definition process_refund (request : RefundRequest) (idempotency_key : string) (now : Z)
    : M db RefundResponse :=
  let order_id := rf_order_id request in
  prior <- query (λ d, head (List.filter (λ r, pl_status r in_ SETTLED_STATUSES) (order_rows order_id d))) ;;
  charges <- query (λ d, List.filter (λ r, pl_status r =?s STATUS_SUCCESS) (order_rows order_id d)) ;;
  charge <- scalar_one_or_none charges ;;
  let plan := plan_refund (entry_of <$> prior) (entry_of <$> charge) in
  match append_status plan with
  | None =>
      ret {| rr_order_id := order_id; rr_refunded := refunded plan;
             rr_refunded_cents := refunded_cents plan;
             rr_status := match prior with Some p => pl_status p | None => "" end;
             rr_detail := p_detail plan |}
  | Some status =>
      row_id <- fresh_id ;;
      let ledger_row :=
        {| pl_id := row_id; pl_order_id := order_id;
           pl_user_id := match charge with Some c => pl_user_id c | None => rf_user_id request end;
           pl_amount_cents := append_amount_cents plan;
           pl_currency := match charge with Some c => pl_currency c | None => "USD" end;
           pl_payment_token := match charge with Some c => pl_payment_token c | None => "n/a" end;
           pl_status := status; pl_created_at := now |} in
      exec (with_ledger (λ rows, rows ++ [ledger_row])) ;;;
      exec (with_pay_outbox (λ ms, ms ++
        [{| aggregate_type := "Payment"; aggregate_id := order_id; msg_type := "PaymentRefunded";
            payload := [("id", JStr row_id); ("order_id", JStr order_id);
                        ("user_id", JStr (pl_user_id ledger_row));
                        ("refunded_cents", JInt (refunded_cents plan));
                        ("currency", JStr (pl_currency ledger_row)); ("status", JStr status);
                        ("reason", match rf_reason request with Some r => JStr r | None => JNull end);
                        ("occurred_at", JStr (isoformat now))];
            msg_created_at := now |}])) ;;;
      commit fault ;;;
      ret {| rr_order_id := order_id; rr_refunded := refunded plan;
             rr_refunded_cents := refunded_cents plan; rr_status := status;
             rr_detail := p_detail plan |}
  end.
End handlers.

(** ** What each request does to the ledger *)

Section effects.
Context (uuid4 : nat → string) (isoformat : Z → string) (fault : db → option string).

Lemma charge_effect request key now d :
  let out := run (process_charge uuid4 isoformat fault request key now) d in
  (out.1 = d ∧ ∀ x, out.2 = inr x → ∃ rid, dict_get (pay_keys d) key = Some (Some rid) ∧
                      find_payment rid d = Some x) ∨
  (key ∉ (pay_keys d).*1 ∧ ∃ row, out.2 = inr row ∧ ledger out.1 = ledger d ++ [row] ∧
     pl_id row = uuid4 (pay_draws d) ∧ pay_draws out.1 = S (pay_draws d) ∧
     pl_order_id row = cr_order_id request ∧ pl_amount_cents row = cr_amount_cents request ∧
     pl_status row = ChargeRules.authorize (cr_payment_token request) ∧
     dict_get (pay_keys out.1) key = Some (Some (pl_id row))).
Proof.
  cbv zeta. unfold run, process_charge. symex. destruct (bool_decide _) eqn:Ek.
  - left. symex. cbn [negb]. symex. destruct (dict_get (pay_keys d) key) as [[rid|]|] eqn:Ed; cbn [default id]; symex.
    + destruct (find_payment rid d) as [c|] eqn:Ef.
      * split; [reflexivity|]. intros x [= <-]. eauto.
      * split; [reflexivity|]. done.
    + by split; [reflexivity|].
    + by split; [reflexivity|].
  - apply bool_decide_eq_false in Ek. symex. cbn [negb]. symex.
    destruct (cr_payment_token request) as [token|] eqn:Et.
    2: { left. by split; [reflexivity|]. }
    cbn [ChargeRules.resolve_idempotency ChargeRules.i_outcome]. unfold fresh_id. symex.
    destruct (fault _); [left; by split; [reflexivity|]|].
    right. split; [done|]. eexists. split_and!; try reflexivity. apply dict_get_set_eq.
Qed.

Definition charges_of (order : string) (d : db) : list PaymentLedger :=
  List.filter (λ r, pl_status r =?s STATUS_SUCCESS) (order_rows order d).

Definition settled_of (order : string) (d : db) : list PaymentLedger :=
  List.filter (λ r, pl_status r in_ SETTLED_STATUSES) (order_rows order d).

Lemma refund_effect request key now d :
  let out := run (process_refund uuid4 isoformat fault request key now) d in
  let o := rf_order_id request in
  (out.1 = d ∧ ∀ x, out.2 = inr x → ∃ p, head (settled_of o d) = Some p ∧
     rr_refunded x = (pl_status p =?s STATUS_REFUNDED) ∧ rr_refunded_cents x = Z.abs (pl_amount_cents p)) ∨
  (settled_of o d = [] ∧ ∃ row x, out.2 = inr x ∧ ledger out.1 = ledger d ++ [row] ∧
     pl_order_id row = o ∧ pl_id row = uuid4 (pay_draws d) ∧ pay_draws out.1 = S (pay_draws d) ∧
     pay_keys out.1 = pay_keys d ∧
     ((charges_of o d = [] ∧ pl_status row = STATUS_REFUND_NOOP ∧ pl_amount_cents row = 0 ∧
         rr_refunded x = false ∧ rr_refunded_cents x = 0) ∨
      ∃ c, charges_of o d = [c] ∧ pl_status row = STATUS_REFUNDED ∧
         pl_amount_cents row = - pl_amount_cents c ∧
         rr_refunded x = true ∧ rr_refunded_cents x = pl_amount_cents c)).
Proof.
  cbv zeta. unfold run, process_refund. symex.
  change (List.filter (λ r, pl_status r in_ SETTLED_STATUSES) (order_rows (rf_order_id request) d))
    with (settled_of (rf_order_id request) d).
  change (List.filter (λ r, pl_status r =?s STATUS_SUCCESS) (order_rows (rf_order_id request) d))
    with (charges_of (rf_order_id request) d).
  destruct (settled_of (rf_order_id request) d) as [|p ps] eqn:Es.
  - destruct (charges_of (rf_order_id request) d) as [|c [|c' cs]] eqn:Ec; cbn [scalar_one_or_none].
    + symex. cbn. unfold fresh_id. symex. destruct (fault _); [left; by split|].
      right. split; [done|]. eexists _, _. split_and!; try reflexivity. left. by split_and!.
    + symex. cbn. unfold fresh_id. symex. destruct (fault _); [left; by split|].
      right. split; [done|]. eexists _, _. split_and!; try reflexivity. right. eexists. by split_and!.
    + left. by split; [reflexivity|].
  - left. destruct (charges_of (rf_order_id request) d) as [|c [|c' cs]]; cbn [scalar_one_or_none]; symex; cbn;
      split; try done; intros x [= <-]; exists p; by split_and!.
Qed.
End effects.

(** ** The ledger invariant *)

Record pay_ok (uuid4 : nat → string) (d : db) : Prop := {
  one_settlement : ∀ o, (length (settled_of o d) ≤ 1)%nat;
  charges_positive : ∀ r, r ∈ ledger d → pl_status r = STATUS_SUCCESS → 1 ≤ pl_amount_cents r;
  refunds_reverse : ∀ r, r ∈ ledger d → pl_status r = STATUS_REFUNDED →
    ∃ c, c ∈ charges_of (pl_order_id r) d ∧ pl_amount_cents r = - pl_amount_cents c;
  pay_ids_drawn : ∀ r, r ∈ ledger d → ∃ n, (n < pay_draws d)%nat ∧ pl_id r = uuid4 n;
}.

Definition refunds_of (o : string) (d : db) : list PaymentLedger :=
  List.filter (λ r, pl_status r =?s STATUS_REFUNDED) (order_rows o d).

(** Money that moved for an order: what was captured less what was returned. *)
Definition moved_cents (o : string) (d : db) : Z :=
  sumZ pl_amount_cents (charges_of o d) +
  sumZ pl_amount_cents (refunds_of o d).

Lemma refunds_among_settled o d : (length (refunds_of o d) ≤ length (settled_of o d))%nat.
Proof.
  unfold refunds_of, settled_of. induction (order_rows o d) as [|r rows IH]; [done|]. cbn [List.filter].
  destruct (pl_status r =?s STATUS_REFUNDED) eqn:E.
  - bool_to_prop. assert (Hin : pl_status r in_ SETTLED_STATUSES = true) by (rewrite E; by vm_compute).
    rewrite Hin. cbn [length]. lia.
  - destruct (pl_status r in_ SETTLED_STATUSES); cbn [length]; lia.
Qed.

Lemma rows_snoc (P : PaymentLedger → bool) o d d' row :
  ledger d' = ledger d ++ [row] →
  List.filter P (order_rows o d') =
    List.filter P (order_rows o d) ++ (if (pl_order_id row =?s o) && P row then [row] else []).
Proof.
  intros H. unfold order_rows. rewrite H, List.filter_app, List.filter_app. f_equal.
  cbn [List.filter]. destruct (pl_order_id row =?s o); cbn [List.filter andb]; [|done].
  by destruct (P row).
Qed.

Lemma pay_ok_snoc uuid4 d d' row :
  pay_ok uuid4 d → ledger d' = ledger d ++ [row] → pay_draws d' = S (pay_draws d) →
  pl_id row = uuid4 (pay_draws d) →
  (pl_status row ∈ SETTLED_STATUSES → settled_of (pl_order_id row) d = []) →
  (pl_status row = STATUS_SUCCESS → 1 ≤ pl_amount_cents row) →
  (pl_status row = STATUS_REFUNDED →
     ∃ c, c ∈ charges_of (pl_order_id row) d ∧ pl_amount_cents row = - pl_amount_cents c) →
  pay_ok uuid4 d'.
Proof.
  intros [H1 H2 H3 H4] Hl Hd Hid Hs Hc Hr.
  assert (Hmono : ∀ o c, c ∈ charges_of o d → c ∈ charges_of o d').
  { intros o c Hin. unfold charges_of in *. rewrite (rows_snoc _ o d d' row Hl). apply elem_of_app. by left. }
  constructor; rewrite ?Hl, ?Hd.
  - intros o. unfold settled_of. rewrite (rows_snoc _ o d d' row Hl), length_app. specialize (H1 o).
    unfold settled_of in H1. destruct (pl_order_id row =?s o) eqn:Eo; cbn [andb length]; [|cbn; lia].
    bool_to_prop. destruct (pl_status row in_ SETTLED_STATUSES) eqn:Es; cbn [length]; [|lia].
    apply bool_decide_eq_true in Es. specialize (Hs Es). unfold settled_of in Hs. rewrite Eo in Hs.
    rewrite Hs. cbn. lia.
  - intros r [?| ->%list_elem_of_singleton]%elem_of_app; [by apply H2|by apply Hc].
  - intros r [Hin| ->%list_elem_of_singleton]%elem_of_app Hst.
    + destruct (H3 r Hin Hst) as (c & ? & ?). eauto.
    + destruct (Hr Hst) as (c & ? & ?). eauto.
  - intros r [Hin| ->%list_elem_of_singleton]%elem_of_app.
    + destruct (H4 r Hin) as (n & ? & ?). exists n. split; [lia|done].
    + exists (pay_draws d). split; [lia|done].
Qed.

Inductive payment_step (uuid4 : nat → string) (isoformat : Z → string) (d : db) : db → Prop :=
| step_charge fault request key now :
    1 ≤ cr_amount_cents request → (* validated by the request model *)
    payment_step uuid4 isoformat d (run (process_charge uuid4 isoformat fault request key now) d).1
| step_refund fault request key now :
    payment_step uuid4 isoformat d (run (process_refund uuid4 isoformat fault request key now) d).1.

Lemma step_pay_ok uuid4 isoformat d d' :
  payment_step uuid4 isoformat d d' → pay_ok uuid4 d → pay_ok uuid4 d'.
Proof.
  intros [fault request key now Ha|fault request key now] Hok.
  - destruct (charge_effect uuid4 isoformat fault request key now d) as
      [[-> _]|(_ & row & _ & Hl & Hid & Hd & Ho & Hamt & Hst & _)]; [done|].
    assert (Hcase : pl_status row = "SUCCESS" ∨ pl_status row = "FAILED").
    { rewrite Hst. unfold ChargeRules.authorize. case_bool_decide; [by right|by left]. }
    eapply pay_ok_snoc; try done; [| |by destruct Hcase as [-> | ->]]; [|by rewrite Hamt].
    intros H. unfold SETTLED_STATUSES in H. destruct Hcase as [E|E]; rewrite E in H; elem_cases H.
  - destruct (refund_effect uuid4 isoformat fault request key now d) as
      [[-> _]|(Hs & row & x & _ & Hl & Ho & Hid & Hd & _ & Hcase)]; [done|].
    eapply pay_ok_snoc; try done; rewrite ?Ho.
    + done.
    + destruct Hcase as [(_ & -> & _)|(c & _ & -> & _)]; done.
    + destruct Hcase as [(_ & -> & _)|(c & Hc & _ & -> & _)]; [done|].
      intros _. exists c. split; [|done]. rewrite Hc. left.
Qed.

(** ** Properties *)

(** C2 — Over any sequence of charges and refunds, with any commit failing, an
    order is settled at most once and the money returned for it never exceeds
    the money captured; every reversal matches one captured charge to the
    cent. *)
Theorem refunds_never_exceed_charges (uuid4 : nat → string) (isoformat : Z → string) (d0 d : db)
    (H0 : pay_ok uuid4 d0) (Hreach : rtc (payment_step uuid4 isoformat) d0 d) (o : string) :
  (length (settled_of o d) ≤ 1)%nat ∧ 0 ≤ moved_cents o d ∧
  (∀ r, r ∈ ledger d → pl_status r = STATUS_REFUNDED →
     ∃ c, c ∈ charges_of (pl_order_id r) d ∧ pl_amount_cents r = - pl_amount_cents c).
Proof.
  assert (Hok : pay_ok uuid4 d).
  { eapply (rtc_invariant _ (pay_ok uuid4)); [|exact Hreach|exact H0]. intros; by eapply step_pay_ok. }
  destruct Hok as [H1 H2 H3 _]. split_and!; [done| |done].
  assert (Hpos : ∀ c, c ∈ charges_of o d → 1 ≤ pl_amount_cents c).
  { intros c [[Hc _]%elem_of_filter_bool Hst]%elem_of_filter_bool. bool_to_prop. by apply H2. }
  assert (Hsum : 0 ≤ sumZ pl_amount_cents (charges_of o d)).
  { apply sumZ_nonneg. intros c Hc. specialize (Hpos c Hc). lia. }
  unfold moved_cents. pose proof (refunds_among_settled o d) as Hlen. specialize (H1 o).
  destruct (refunds_of o d) as [|r [|r' rs]] eqn:Er; [cbn; lia| |cbn in Hlen; lia].
  assert (Hr : r ∈ refunds_of o d) by (rewrite Er; left).
  apply elem_of_filter_bool in Hr as [[Hr Ho]%elem_of_filter_bool Hst]. bool_to_prop.
  destruct (H3 r Hr Hst) as (c & Hc & Hneg). rewrite Ho in Hc.
  pose proof (sumZ_elem_le pl_amount_cents (charges_of o d) c) as Hle. cbn [sumZ].
  assert (pl_amount_cents c ≤ sumZ pl_amount_cents (charges_of o d));
    [apply Hle; [intros y Hy; specialize (Hpos y Hy); lia|done]|lia].
Qed.

Lemma refunds_none o d : settled_of o d = [] → refunds_of o d = [].
Proof.
  intros H. pose proof (refunds_among_settled o d) as Hl. rewrite H in Hl.
  destruct (refunds_of o d); [done|]. cbn in Hl. lia.
Qed.

(** A refund reverses a captured charge exactly once: for an order with
    one captured charge and no settlement, the refund succeeds, reports the
    charge's amount, leaves the order's money at zero, and every later refund
    request for the order, under any key, reports the same outcome and writes
    nothing. *)
Theorem refund_reverses_once (uuid4 : nat → string) (isoformat : Z → string)
    (request : RefundRequest) (key : string) (now : Z) (d : db) (c : PaymentLedger)
    (Hc : charges_of (rf_order_id request) d = [c]) (Hpos : 0 ≤ pl_amount_cents c)
    (Hs : settled_of (rf_order_id request) d = []) :
  ∃ d' x, run (process_refund uuid4 isoformat (λ _, None) request key now) d = (d', inr x) ∧
    rr_refunded x = true ∧ rr_refunded_cents x = pl_amount_cents c ∧
    moved_cents (rf_order_id request) d' = 0 ∧
    ∀ fault request' key' now', rf_order_id request' = rf_order_id request →
      ∃ x', run (process_refund uuid4 isoformat fault request' key' now') d' = (d', inr x') ∧
        rr_refunded x' = true ∧ rr_refunded_cents x' = pl_amount_cents c.
Proof.
  set (o := rf_order_id request) in *.
  destruct (run (process_refund uuid4 isoformat (λ _, None) request key now) d) as [d' out] eqn:E.
  pose proof (refund_effect uuid4 isoformat (λ _, None) request key now d) as H. cbv zeta in H.
  rewrite E in H. cbn [fst snd] in H. fold o in H.
  assert (Hok : ∃ x, out = inr x).
  { unfold run, process_refund in E. revert E. symex. fold o.
    change (List.filter (λ r, pl_status r in_ SETTLED_STATUSES) (order_rows o d)) with (settled_of o d).
    change (List.filter (λ r, pl_status r =?s STATUS_SUCCESS) (order_rows o d)) with (charges_of o d).
    rewrite Hc, Hs. cbn [scalar_one_or_none]. symex. cbn. unfold fresh_id. symex. intros [= _ <-]. eauto. }
  destruct Hok as [x ->]. destruct H as [[_ H]|(_ & row & x' & Hx & Hl & Hor & _ & _ & _ & Hcase)].
  { destruct (H x eq_refl) as (p & Hp & _). by rewrite Hs in Hp. }
  injection Hx as <-. destruct Hcase as [(Hn & _)|(c' & Hc' & Hst & Hamt & Hr & Hrc)]; [congruence|].
  rewrite Hc in Hc'. injection Hc' as <-. exists d', x. split_and!; [done..| |].
  - unfold moved_cents, charges_of, refunds_of. rewrite !(rows_snoc _ o d d' row Hl).
    fold (charges_of o d) (refunds_of o d). rewrite Hc, (refunds_none o d Hs).
    rewrite Hst, (bool_decide_true (pl_order_id row = o)) by done.
    rewrite (bool_decide_false (STATUS_REFUNDED = STATUS_SUCCESS)), bool_decide_true by done.
    cbn. rewrite Hamt. lia.
  - intros fault request' key' now' Ho.
    assert (Hs' : settled_of o d' = [row]).
    { unfold settled_of. rewrite (rows_snoc _ o d d' row Hl). fold (settled_of o d). rewrite Hs.
      rewrite (bool_decide_true (pl_order_id row = o)) by done. rewrite Hst. by vm_compute. }
    assert (Hch' : charges_of o d' = [c]).
    { unfold charges_of. rewrite (rows_snoc _ o d d' row Hl). fold (charges_of o d). rewrite Hc, Hst.
      rewrite (bool_decide_true (pl_order_id row = o)) by done. by vm_compute. }
    unfold run, process_refund. symex. rewrite Ho. fold o.
    change (List.filter (λ r, pl_status r in_ SETTLED_STATUSES) (order_rows o d')) with (settled_of o d').
    change (List.filter (λ r, pl_status r =?s STATUS_SUCCESS) (order_rows o d')) with (charges_of o d').
    rewrite Hs', Hch'. cbn [scalar_one_or_none]. symex. cbn [head fmap option_fmap option_map plan_refund append_status].
    eexists. split; [reflexivity|]. cbn [rr_refunded rr_refunded_cents refunded refunded_cents e_status e_amount_cents entry_of].
    rewrite Hst, Hamt, bool_decide_true by done. split; [done|]. lia.
Qed.

Lemma find_new rows row :
  (∀ r, r ∈ rows → pl_id r ≠ pl_id row) →
  List.find (λ r, pl_id r =?s pl_id row) (rows ++ [row]) = Some row.
Proof.
  intros H. induction rows as [|r rows IH]; cbn; [by rewrite bool_decide_true|].
  rewrite bool_decide_false by (apply H; left). apply IH. intros r' Hr'. apply H. by right.
Qed.

(** Retrying a charge never charges twice: once a charge has been
    answered under a key, any later request with that key, whatever its body,
    answers the same ledger row and writes nothing. *)
Theorem charge_retry_replays (uuid4 : nat → string) (isoformat : Z → string)
    (fault fault' : db → option string) (request request' : ChargeRequest) (key : string)
    (now now' : Z) (d d' : db) (row : PaymentLedger)
    (Hinj : Inj (=) (=) uuid4) (Hok : pay_ok uuid4 d)
    (H : run (process_charge uuid4 isoformat fault request key now) d = (d', inr row)) :
  run (process_charge uuid4 isoformat fault' request' key now') d' = (d', inr row).
Proof.
  assert (Hkey : ∃ rid, dict_get (pay_keys d') key = Some (Some rid) ∧ find_payment rid d' = Some row).
  { pose proof (charge_effect uuid4 isoformat fault request key now d) as He. cbv zeta in He.
    rewrite H in He. cbn [fst snd] in He.
    destruct He as [[-> He]|(_ & row' & Hr & Hl & Hid & _ & _ & _ & _ & Hk)]; [by apply He|].
    injection Hr as <-. exists (pl_id row). split; [done|]. unfold find_payment. rewrite Hl.
    apply find_new. intros r Hr. destruct (pay_ids_drawn _ _ Hok r Hr) as (n & Hn & ->).
    rewrite Hid. intros E%Hinj. lia. }
  destruct Hkey as (rid & Hk & Hf). unfold run, process_charge. symex.
  rewrite bool_decide_true by (apply dict_get_is_Some; by eexists). symex. cbn [negb]. symex.
  rewrite Hk. cbn [default id]. symex. rewrite Hf. reflexivity.
Qed.

(** The sum of an order's ledger rows is not its net position: a declined
    charge is stored with its full amount, so after one the rows add up to that
    amount although no money moved. *)
Theorem declined_charge_distorts_net_position (uuid4 : nat → string) (isoformat : Z → string)
    (request : ChargeRequest) (key : string) (now : Z) (d : db)
    (Hkey : key ∉ (pay_keys d).*1) (Hnew : order_rows (cr_order_id request) d = [])
    (Htoken : cr_payment_token request = Some ChargeRules.DECLINE_TOKEN) :
  let d' := (run (process_charge uuid4 isoformat (λ _, None) request key now) d).1 in
  net_position (map entry_of (order_rows (cr_order_id request) d')) = cr_amount_cents request ∧
  moved_cents (cr_order_id request) d' = 0.
Proof.
  cbv zeta. set (out := run _ d).
  assert (Hrow : ∃ row, ledger out.1 = ledger d ++ [row] ∧ pl_order_id row = cr_order_id request ∧
    pl_amount_cents row = cr_amount_cents request ∧ pl_status row = "FAILED").
  { subst out. unfold run, process_charge. symex. rewrite bool_decide_false by done. symex. cbn [negb]. symex.
    rewrite Htoken. cbn [ChargeRules.resolve_idempotency ChargeRules.i_outcome]. unfold fresh_id. symex.
    eexists. split_and!; reflexivity. }
  clearbody out. destruct Hrow as (row & Hl & Ho & Hamt & Hst).
  assert (Hrows : order_rows (cr_order_id request) out.1 = [row]).
  { unfold order_rows in *. rewrite Hl, List.filter_app, Hnew. cbn. by rewrite bool_decide_true. }
  unfold moved_cents, charges_of, refunds_of. rewrite Hrows. cbn [map List.filter]. rewrite Hst.
  rewrite !bool_decide_false by done. cbn. split; lia.
Qed.

(** ** Witnesses *)

Definition no_payments : db := {| ledger := []; pay_outbox := []; pay_keys := []; pay_draws := 0 |}.

Lemma no_payments_ok : pay_ok unary_id no_payments.
Proof. constructor; [intros o; cbn; lia|..]; by intros r ?%not_elem_of_nil. Qed.

Definition sample_charge (token : string) : ChargeRequest :=
  {| cr_order_id := "o"; cr_user_id := "u"; cr_amount_cents := 700; cr_payment_token := Some token;
     cr_currency := None |}.

Definition sample_refund : RefundRequest := {| rf_order_id := "o"; rf_user_id := "u"; rf_reason := None |}.

Definition charged_db : db :=
  (run (process_charge unary_id (λ _, "t") (λ _, None) (sample_charge "tok") "k" 1) no_payments).1.

Definition refunded_db : db :=
  (run (process_refund unary_id (λ _, "t") (λ _, None) sample_refund "c" 2) charged_db).1.

Lemma refunds_never_exceed_charges_witness :
  rtc (payment_step unary_id (λ _, "t")) no_payments refunded_db ∧ 0 ≤ moved_cents "o" refunded_db.
Proof.
  assert (Hr : rtc (payment_step unary_id (λ _, "t")) no_payments refunded_db).
  { apply (rtc_l _ _ charged_db).
    - apply (step_charge _ _ _ (λ _, None) (sample_charge "tok") "k" 1). cbn. lia.
    - apply rtc_once. exact (step_refund _ _ charged_db (λ _, None) sample_refund "c" 2). }
  split; [exact Hr|].
  exact (proj1 (proj2 (refunds_never_exceed_charges unary_id (λ _, "t") _ _ no_payments_ok Hr "o"))).
Defined.

Lemma refund_reverses_once_witness :
  ∃ x, run (process_refund unary_id (λ _, "t") (λ _, None) sample_refund "c" 2) charged_db
         = (refunded_db, inr x) ∧ rr_refunded_cents x = 700 ∧ moved_cents "o" refunded_db = 0.
Proof.
  destruct (charges_of "o" charged_db) as [|c [|]] eqn:Ec; [vm_compute in Ec; discriminate Ec| |vm_compute in Ec; discriminate Ec].
  assert (Hamt : pl_amount_cents c = 700) by (vm_compute in Ec; injection Ec as <-; reflexivity).
  destruct (refund_reverses_once unary_id (λ _, "t") sample_refund "c" 2 charged_db c Ec
    ltac:(rewrite Hamt; lia) eq_refl) as (d' & x & Hrun & _ & Hcents & Hm & _).
  assert (d' = refunded_db) as -> by (unfold refunded_db; by rewrite Hrun).
  exists x. split; [exact Hrun|]. split; [by rewrite Hcents|exact Hm].
Defined.

Lemma charge_retry_replays_witness :
  ∃ row, run (process_charge unary_id (λ _, "t") (λ _, None) (sample_charge "tok") "k" 1) no_payments
           = (charged_db, inr row) ∧
    run (process_charge unary_id (λ _, "t") (λ _, None) (sample_charge "other") "k" 9) charged_db
      = (charged_db, inr row).
Proof.
  eexists. split; [vm_compute; reflexivity|].
  eapply (charge_retry_replays unary_id (λ _, "t") (λ _, None) _ (sample_charge "tok") _ "k" 1 9 no_payments);
    [exact unary_id_inj|exact no_payments_ok|vm_compute; reflexivity].
Defined.

Lemma declined_charge_distorts_net_position_witness :
  let d' := (run (process_charge unary_id (λ _, "t") (λ _, None) (sample_charge "tok_fail") "k" 1) no_payments).1 in
  net_position (map entry_of (order_rows "o" d')) = 700 ∧ moved_cents "o" d' = 0.
Proof.
  apply (declined_charge_distorts_net_position unary_id (λ _, "t") (sample_charge "tok_fail") "k" 1 no_payments);
    [by_compute|reflexivity|reflexivity].
Defined.
End PaymentService.
