(* ===== verification/EscrowService.v ===== *)
(** * The escrow ledger (services/payment-service: ledger_rules.py,
      escrow_service.py)

    Double entry: debits are positive, credits negative, every transaction sums
    to zero.  The commission rate comes from the seller service over HTTP: what
    the call gives back is an argument of the handlers. *)

From S2P Require Import Prelude PyValue Session.

Module LedgerRules.

Inductive Account := COURIER_RECEIVABLE | CASH | SELLER_PAYABLE | COMMISSION_REVENUE.
Inductive EntryReason := DELIVERY | SETTLEMENT | PAYOUT.

#[global] Instance Account_eq : EqDecision Account.
Proof. solve_decision. Defined.
#[global] Instance EntryReason_eq : EqDecision EntryReason.
Proof. solve_decision. Defined.

Definition account_value (a : Account) : string :=
  match a with
  | COURIER_RECEIVABLE => "COURIER_RECEIVABLE" | CASH => "CASH"
  | SELLER_PAYABLE => "SELLER_PAYABLE" | COMMISSION_REVENUE => "COMMISSION_REVENUE"
  end.

Definition reason_value (r : EntryReason) : string :=
  match r with DELIVERY => "DELIVERY" | SETTLEMENT => "SETTLEMENT" | PAYOUT => "PAYOUT" end.

(** [LedgerError], carried with its text. *)
Definition ledger_error : Type := string.

Record Entry := {
  account : Account;
  amount_cents : Z;
  reason : EntryReason;
  seller_id : option string;
  seller_order_id : option string;
  detail : string;
}.

Definition is_debit (e : Entry) : bool := 0 <? amount_cents e.

(** Floor division, as [//] on integers. *)
Definition split_commission (amount_cents rate_bps : Z) : ledger_error + (Z * Z) :=
  if amount_cents <? 0 then inl ("amount must not be negative, got " +:+ dec amount_cents)
  else if negb ((0 <=? rate_bps) && (rate_bps <=? 10000)) then
    inl ("commission rate " +:+ dec rate_bps +:+ " bps is outside 0-10000; a rate above " +:+
         "100% would make the seller owe the platform for selling")
  else
    let commission := amount_cents * rate_bps / 10000 in
    inr (commission, amount_cents - commission).

(** The entries as the message prints them: Python's list of pairs. *)
Definition show_entries (entries : list Entry) : string :=
  "[" +:+ join ", " (map (λ e, "(" +:+ repr_str (account_value (account e)) +:+ ", " +:+
                               dec (amount_cents e) +:+ ")") entries) +:+ "]".

Definition assert_balanced (entries : list Entry) : ledger_error + unit :=
  match entries with
  | [] => inl "an empty entry set is not a transaction"
  | _ =>
      let total := sumZ amount_cents entries in
      if negb (total =? 0)
      then inl ("entries do not balance: they sum to " +:+ dec total +:+ ", not 0. " +:+ show_entries entries)
      else inr tt
  end.

Definition plan_delivery (seller order : string) (collected_cents commission_rate_bps : Z)
    : ledger_error + list Entry :=
  if collected_cents <=? 0 then
    inl ("a delivery must collect a positive amount, got " +:+ dec collected_cents)
  else
    match split_commission collected_cents commission_rate_bps with
    | inl e => inl e
    | inr (commission, seller_share) =>
        let line a n d := {| account := a; amount_cents := n; reason := DELIVERY;
                             seller_id := Some seller; seller_order_id := Some order; detail := d |} in
        let entries :=
          [line COURIER_RECEIVABLE collected_cents ("courier collected " +:+ dec collected_cents);
           line SELLER_PAYABLE (- seller_share)
             ("owed to seller after " +:+ dec commission_rate_bps +:+ "bps commission")] ++
          (if negb (commission =? 0)
           then [line COMMISSION_REVENUE (- commission) ("commission at " +:+ dec commission_rate_bps +:+ "bps")]
           else []) in
        match assert_balanced entries with inl e => inl e | inr _ => inr entries end
    end.

Definition plan_settlement (seller order : string) (remitted_cents : Z) : ledger_error + list Entry :=
  if remitted_cents <=? 0 then
    inl ("a settlement must remit a positive amount, got " +:+ dec remitted_cents)
  else
    let line a n d := {| account := a; amount_cents := n; reason := SETTLEMENT;
                         seller_id := Some seller; seller_order_id := Some order; detail := d |} in
    let entries := [line CASH remitted_cents ("courier remitted " +:+ dec remitted_cents);
                    line COURIER_RECEIVABLE (- remitted_cents) "clearing the courier receivable"] in
    match assert_balanced entries with inl e => inl e | inr _ => inr entries end.

Definition plan_payout (seller : string) (amount : Z) : ledger_error + list Entry :=
  if amount <=? 0 then inl ("a payout must be a positive amount, got " +:+ dec amount)
  else
    let line a n d := {| account := a; amount_cents := n; reason := PAYOUT;
                         seller_id := Some seller; seller_order_id := None; detail := d |} in
    let entries := [line SELLER_PAYABLE amount ("paid out " +:+ dec amount);
                    line CASH (- amount) "cash leaving the platform"] in
    match assert_balanced entries with inl e => inl e | inr _ => inr entries end.

Definition balance_of (entries : list Entry) (a : Account) : Z :=
  sumZ amount_cents (List.filter (λ e, bool_decide (account e = a)) entries).

Definition seller_owed (entries : list Entry) (seller : option string) : Z :=
  - sumZ amount_cents (List.filter (λ e, bool_decide (account e = SELLER_PAYABLE) &&
      match seller with None => true | Some s => bool_decide (seller_id e = Some s) end) entries).

Definition is_ledger_consistent (entries : list Entry) : bool := sumZ amount_cents entries =? 0.

(** ** Lemmas *)

Lemma split_commission_ok amount rate c s :
  split_commission amount rate = inr (c, s) →
  0 ≤ amount ∧ 0 ≤ rate ≤ 10000 ∧ c = amount * rate / 10000 ∧ s = amount - c.
Proof.
  unfold split_commission. destruct (amount <? 0) eqn:E1; [done|].
  destruct (negb _) eqn:E2; [done|]. intros [= <- <-]. bool_to_prop. lia.
Qed.

Lemma commission_bounds amount rate : 0 ≤ amount → 0 ≤ rate ≤ 10000 →
  0 ≤ amount * rate / 10000 ≤ amount.
Proof.
  intros Ha Hr. split; [apply Z.div_pos; nia|].
  apply Z.div_le_upper_bound; nia.
Qed.

Lemma assert_balanced_ok entries : assert_balanced entries = inr tt ↔
  entries ≠ [] ∧ sumZ amount_cents entries = 0.
Proof.
  unfold assert_balanced. destruct entries as [|e es]; [naive_solver|].
  destruct (sumZ amount_cents (e :: es) =? 0) eqn:E; cbn [negb]; bool_to_prop; naive_solver.
Qed.

Lemma plan_delivery_ok seller order collected rate entries :
  plan_delivery seller order collected rate = inr entries →
  ∃ c s, split_commission collected rate = inr (c, s) ∧ 0 < collected ∧
    entries = {| account := COURIER_RECEIVABLE; amount_cents := collected; reason := DELIVERY;
                 seller_id := Some seller; seller_order_id := Some order;
                 detail := "courier collected " +:+ dec collected |} ::
              {| account := SELLER_PAYABLE; amount_cents := - s; reason := DELIVERY;
                 seller_id := Some seller; seller_order_id := Some order;
                 detail := "owed to seller after " +:+ dec rate +:+ "bps commission" |} ::
              (if negb (c =? 0)
               then [{| account := COMMISSION_REVENUE; amount_cents := - c; reason := DELIVERY;
                        seller_id := Some seller; seller_order_id := Some order;
                        detail := "commission at " +:+ dec rate +:+ "bps" |}] else []).
Proof.
  unfold plan_delivery. destruct (collected <=? 0) eqn:E; [done|]. bool_to_prop.
  destruct (split_commission collected rate) as [e|[c s]]; [done|].
  destruct (assert_balanced _); [done|]. intros [= <-]. exists c, s. split_and!; [done|lia|done].
Qed.

Lemma plans_balance (entries : list Entry) :
  (∃ s o c r, plan_delivery s o c r = inr entries) ∨ (∃ s o m, plan_settlement s o m = inr entries) ∨
  (∃ s a, plan_payout s a = inr entries) → assert_balanced entries = inr tt.
Proof.
  intros [(s & o & c & r & H)|[(s & o & m & H)|(s & a & H)]].
  - unfold plan_delivery in H. destruct (c <=? 0); [done|].
    destruct (split_commission c r) as [|[k sh]]; [done|].
    destruct (assert_balanced _) as [|[]] eqn:E; [done|]. by injection H as <-.
  - unfold plan_settlement in H. destruct (m <=? 0); [done|].
    destruct (assert_balanced _) as [|[]] eqn:E; [done|]. by injection H as <-.
  - unfold plan_payout in H. destruct (a <=? 0); [done|].
    destruct (assert_balanced _) as [|[]] eqn:E; [done|]. by injection H as <-.
Qed.

Lemma delivery_split_ok seller order collected rate :
  0 < collected → 0 ≤ rate ≤ 10000 → ∃ entries, plan_delivery seller order collected rate = inr entries.
Proof.
  intros Hc Hr. unfold plan_delivery, split_commission.
  rewrite (proj2 (Z.leb_gt _ _)), (proj2 (Z.ltb_ge _ _)) by lia.
  rewrite (proj2 (Z.leb_le 0 rate)), (proj2 (Z.leb_le rate 10000)) by lia. cbn [andb negb].
  unfold assert_balanced. destruct (collected * rate / 10000 =? 0) eqn:E; cbn [negb app sumZ amount_cents];
    (rewrite (proj2 (Z.eqb_eq _ _)) by (bool_to_prop; lia)); cbn [negb]; eauto.
Qed.

(** C11 — A delivery's money is split to the last unit: for every positive
    amount and every rate from 0 to 10000 basis points the plan is accepted,
    debits the courier exactly what was collected, owes the seller and earns
    the platform non-negative shares that add up to it, never takes more than
    the exact percentage (the platform's share is within one unit below it),
    and any other amount or rate is refused. *)
Theorem delivery_split_is_exact (seller order : string) (collected rate : Z) :
  (0 < collected → 0 ≤ rate ≤ 10000 →
     ∃ entries, plan_delivery seller order collected rate = inr entries ∧
       let owed := seller_owed entries (Some seller) in
       let earned := - balance_of entries COMMISSION_REVENUE in
       balance_of entries COURIER_RECEIVABLE = collected ∧ balance_of entries CASH = 0 ∧
       owed + earned = collected ∧ 0 ≤ owed ∧ 0 ≤ earned ∧
       earned * 10000 ≤ collected * rate < (earned + 1) * 10000 ∧
       is_ledger_consistent entries = true) ∧
  (collected ≤ 0 ∨ rate < 0 ∨ 10000 < rate →
     ∃ e, plan_delivery seller order collected rate = inl e).
Proof.
  split.
  - intros Hc Hr. set (c := collected * rate / 10000).
    pose proof (commission_bounds collected rate ltac:(lia) Hr) as Hb. fold c in Hb.
    assert (Hdiv : c * 10000 ≤ collected * rate < (c + 1) * 10000).
    { subst c. pose proof (Z.div_mod (collected * rate) 10000 ltac:(lia)).
      pose proof (Z.mod_pos_bound (collected * rate) 10000 ltac:(lia)). lia. }
    unfold plan_delivery, split_commission.
    rewrite (proj2 (Z.leb_gt _ _)), (proj2 (Z.ltb_ge _ _)) by lia.
    rewrite (proj2 (Z.leb_le 0 rate)), (proj2 (Z.leb_le rate 10000)) by lia. cbn [andb negb]. fold c.
    unfold assert_balanced. destruct (c =? 0) eqn:E; cbn [negb app sumZ amount_cents];
      (rewrite (proj2 (Z.eqb_eq _ _)) by (bool_to_prop; lia)); cbn [negb];
      eexists; (split; [reflexivity|]); unfold seller_owed, balance_of, is_ledger_consistent; cbn;
      repeat first [rewrite bool_decide_true by done|rewrite bool_decide_false by done]; cbn; bool_to_prop;
      split_and!; try lia; apply Z.eqb_eq; lia.
  - intros Hbad. unfold plan_delivery. destruct (collected <=? 0) eqn:E; [eauto|]. bool_to_prop.
    unfold split_commission. rewrite (proj2 (Z.ltb_ge _ _)) by lia.
    destruct ((0 <=? rate) && (rate <=? 10000)) eqn:E2; cbn [negb]; [|eauto]. bool_to_prop. lia.
Qed.
End LedgerRules.

Module EscrowService.
Import LedgerRules.

Record LedgerRow := {
  lr_transaction_id : string;
  lr_account : string;
  lr_amount_cents : Z;
  lr_currency : string;
  lr_reason : string;
  lr_seller_id : option string;
  lr_seller_order_id : option string;
  lr_commission_bps : option Z;
  lr_contract_version : json;
  lr_detail : string;
}.

Record db := { rows : list LedgerRow; es_outbox : list OutboxMessage; es_draws : nat }.

Definition with_rows (f : list LedgerRow → list LedgerRow) (d : db) : db :=
  {| rows := f (rows d); es_outbox := es_outbox d; es_draws := es_draws d |}.
Definition with_es_outbox (f : list OutboxMessage → list OutboxMessage) (d : db) : db :=
  {| rows := rows d; es_outbox := f (es_outbox d); es_draws := es_draws d |}.
Definition es_draw (d : db) : db :=
  {| rows := rows d; es_outbox := es_outbox d; es_draws := S (es_draws d) |}.

(** What the guarded GET to the seller service ends in: the breaker or the
    bulkhead refuses (with its text), the transport fails (with the
    exception's class name), or a response arrives. *)
Inductive http_reply :=
| Refused (text : string)
| Unreachable (class : string)
| Answered (status_code : Z) (body : list (string * json)).

Record EscrowDeliveryRequest := {
  ed_seller_id : string; ed_seller_order_id : string; ed_collected_cents : Z; ed_currency : string }.
Record EscrowSettlementRequest := {
  st_seller_id : string; st_seller_order_id : string; st_remitted_cents : Z; st_currency : string }.
Record PayoutRequest := { po_seller_id : string; po_amount_cents : Z; po_currency : string }.

Record LedgerTransactionResponse := {
  lt_transaction_id : string;
  lt_reason : string;
  lt_entries : Z;
  lt_seller_owed_delta : Z;
  lt_detail : string;
}.

(** [uuid.UUID(int=0)] *)
Definition NIL_UUID := "00000000-0000-0000-0000-000000000000".

Definition already_booked (reason : string) : LedgerTransactionResponse :=
  {| lt_transaction_id := NIL_UUID; lt_reason := reason; lt_entries := 0;
     lt_seller_owed_delta := 0; lt_detail := "already booked; ignoring" |}.

Section handlers.
Context (uuid4 : nat → string) (fault : db → option string) (seller_service : string → http_reply).

Definition _commission_for (seller : string) : M db (list (string * json)) :=
  match seller_service seller with
  | Refused e =>
      raise (Http 503 ("cannot establish the commission rate (" +:+ e +:+
        "); refusing to book escrow at a guessed rate"))
  | Unreachable c =>
      raise (Http 503 ("seller-service unreachable (" +:+ c +:+
        "); refusing to book escrow at a guessed rate"))
  | Answered status_code body =>
      if status_code =? 404 then
        raise (Http 409 ("no commission rate for seller " +:+ seller +:+
          ": seller-service returned 404. Either the seller does not exist or they have " +:+
          "accepted no contract; escrow cannot be booked at a guessed rate."))
      else if negb (status_code =? 200) then
        raise (Http 503 ("seller-service returned " +:+ dec status_code +:+ " for seller " +:+ seller +:+
          "; refusing to book escrow at a guessed rate, and this is retryable rather than final"))
      else ret body
  end.

Definition _already_booked (order : string) (reason : EntryReason) : M db bool :=
  query (λ d, bool_decide (List.filter (λ r, bool_decide (lr_seller_order_id r = Some order) &&
                                           (lr_reason r =?s reason_value reason)) (rows d) ≠ [])).

(** [uuid.UUID(x) if x else None] *)
Definition uuid_or_none (x : option string) : M db (option string) :=
  match x with
  | None => ret None
  | Some s => if is_empty s then ret None
              else match UUID s with Some u => ret (Some u) | None => raise (Raised "ValueError") end
  end.

Definition _write (entries : list Entry) (currency : string) (commission_bps : option Z)
    (contract_version : json) : M db string :=
  match assert_balanced entries with
  | inl e => raise (Http 422 e)
  | inr _ =>
      n <- query es_draws ;;
      exec es_draw ;;;
      let transaction_id := uuid4 n in
      for_each entries (λ entry,
        seller <- uuid_or_none (seller_id entry) ;;
        order <- uuid_or_none (seller_order_id entry) ;;
        exec (with_rows (λ rs, rs ++
          [{| lr_transaction_id := transaction_id; lr_account := account_value (account entry);
              lr_amount_cents := amount_cents entry; lr_currency := upper currency;
              lr_reason := reason_value (reason entry); lr_seller_id := seller;
              lr_seller_order_id := order; lr_commission_bps := commission_bps;
              lr_contract_version := contract_version;
              lr_detail := take_chars 512 (detail entry) |}]))) ;;;
      ret transaction_id
  end.

(** [commission["commission_bps"]], an integer in the seller service's schema *)
Definition commission_bps_of (commission : list (string * json)) : M db Z :=
  match dict_get commission "commission_bps" with
  | Some (JInt n) => ret n
  | Some _ => raise (Raised "TypeError")
  | None => raise (Raised "KeyError")
  end.

Definition book_delivery (request : EscrowDeliveryRequest) (now : Z) : M db LedgerTransactionResponse :=
  booked <- _already_booked (ed_seller_order_id request) DELIVERY ;;
  if booked : bool then ret (already_booked "DELIVERY")
  else
    commission <- _commission_for (ed_seller_id request) ;;
    rate_bps <- commission_bps_of commission ;;
    match plan_delivery (ed_seller_id request) (ed_seller_order_id request)
            (ed_collected_cents request) rate_bps with
    | inl e => raise (Http 422 e)
    | inr entries =>
        transaction_id <- _write entries (ed_currency request) (Some rate_bps)
          (obj_get commission "accepted_contract_version") ;;
        let owed := - sumZ amount_cents
          (List.filter (λ e, bool_decide (account e = SELLER_PAYABLE)) entries) in
        exec (with_es_outbox (λ ms, ms ++
          [{| aggregate_type := "Ledger"; aggregate_id := transaction_id; msg_type := "EscrowBooked";
              payload := [("transaction_id", JStr transaction_id);
                          ("seller_id", JStr (ed_seller_id request));
                          ("seller_order_id", JStr (ed_seller_order_id request));
                          ("collected_cents", JInt (ed_collected_cents request));
                          ("commission_bps", JInt rate_bps); ("seller_owed_cents", JInt owed)];
              msg_created_at := now |}])) ;;;
        failed <- try_commit fault ;;
        match failed with
        | Some _ => ret (already_booked "DELIVERY")
        | None =>
            ret {| lt_transaction_id := transaction_id; lt_reason := "DELIVERY";
                   lt_entries := Z.of_nat (length entries); lt_seller_owed_delta := owed;
                   lt_detail := "commission " +:+ dec rate_bps +:+ "bps" |}
        end
    end.

Definition book_settlement (request : EscrowSettlementRequest) : M db LedgerTransactionResponse :=
  booked <- _already_booked (st_seller_order_id request) SETTLEMENT ;;
  if booked : bool then ret (already_booked "SETTLEMENT")
  else
    match plan_settlement (st_seller_id request) (st_seller_order_id request)
            (st_remitted_cents request) with
    | inl e => raise (Http 422 e)
    | inr entries =>
        transaction_id <- _write entries (st_currency request) None JNull ;;
        failed <- try_commit fault ;;
        match failed with
        | Some _ => ret (already_booked "SETTLEMENT")
        | None =>
            ret {| lt_transaction_id := transaction_id; lt_reason := "SETTLEMENT";
                   lt_entries := Z.of_nat (length entries); lt_seller_owed_delta := 0;
                   lt_detail := "remitted " +:+ dec (st_remitted_cents request) |}
        end
    end.

Definition book_payout (request : PayoutRequest) : M db LedgerTransactionResponse :=
  match plan_payout (po_seller_id request) (po_amount_cents request) with
  | inl e => raise (Http 422 e)
  | inr entries =>
      transaction_id <- _write entries (po_currency request) None JNull ;;
      commit fault ;;;
      ret {| lt_transaction_id := transaction_id; lt_reason := "PAYOUT";
             lt_entries := Z.of_nat (length entries);
             lt_seller_owed_delta := - po_amount_cents request;
             lt_detail := "paid out " +:+ dec (po_amount_cents request) |}
  end.
End handlers.

(** ** Reads *)

Record SellerBalance := { sb_seller_id : string; sb_owed_cents : Z; sb_currency : string; sb_entries : Z }.

Definition seller_balance (seller : string) : M db SellerBalance :=
  found <- query (λ d, List.filter (λ r, bool_decide (lr_seller_id r = Some seller) &&
                        (lr_account r =?s account_value SELLER_PAYABLE)) (rows d)) ;;
  ret {| sb_seller_id := seller; sb_owed_cents := - sumZ lr_amount_cents found;
         sb_currency := "BDT"; sb_entries := Z.of_nat (length found) |}.

(** [GROUP BY key]: each key once, in order of first appearance, with its sum. *)
Definition group_sums (key : LedgerRow → string) (rs : list LedgerRow) : list (string * Z) :=
  foldl (λ acc r, dict_set acc (key r) (default 0 (dict_get acc (key r)) + lr_amount_cents r)) [] rs.

Record LedgerHealth := {
  balanced : bool;
  imbalance_cents : Z;
  unbalanced_transactions : list string;
  accounts : list (string * Z);
}.

Definition ledger_health : M db LedgerHealth :=
  imbalance <- query (λ d, sumZ lr_amount_cents (rows d)) ;;
  offenders <- query (λ d, (List.filter (λ '(_, s), negb (s =? 0))
                              (group_sums lr_transaction_id (rows d))).*1) ;;
  by_account <- query (λ d, group_sums lr_account (rows d)) ;;
  ret {| balanced := (imbalance =? 0) && bool_decide (offenders = []);
         imbalance_cents := imbalance; unbalanced_transactions := take 20 offenders;
         accounts := by_account |}.

(** ** What a booking writes *)

Section effects.
Context (uuid4 : nat → string) (fault : db → option string) (seller_service : string → http_reply).

Definition row_of (tx currency : string) (bps : option Z) (version : json) (e : Entry) : LedgerRow :=
  {| lr_transaction_id := tx; lr_account := account_value (account e);
     lr_amount_cents := amount_cents e; lr_currency := upper currency;
     lr_reason := reason_value (reason e); lr_seller_id := seller_id e;
     lr_seller_order_id := seller_order_id e; lr_commission_bps := bps;
     lr_contract_version := version; lr_detail := take_chars 512 (detail e) |}.

(** Identifiers as the request models deliver them: canonical UUID text. *)
Definition canonical (x : option string) : Prop :=
  match x with None => True | Some s => UUID s = Some s ∧ is_empty s = false end.

Definition canonical_entry (e : Entry) : Prop := canonical (seller_id e) ∧ canonical (seller_order_id e).

Lemma uuid_or_none_canonical x s : canonical x → uuid_or_none x s = (s, inr x).
Proof.
  intros Hx. unfold uuid_or_none. destruct x as [u|]; [|done]. destruct Hx as [-> ->]. done.
Qed.

Lemma write_run entries currency bps version s :
  assert_balanced entries = inr tt → Forall canonical_entry entries →
  _write uuid4 entries currency bps version s =
    (Session (committed s)
       (with_rows (λ rs, rs ++ map (row_of (uuid4 (es_draws (working s))) currency bps version) entries)
          (es_draw (working s))),
     inr (uuid4 (es_draws (working s)))).
Proof.
  intros Hb Hc. unfold _write. rewrite Hb. symex.
  set (tx := uuid4 (es_draws (working s))). clear Hb.
  assert (Hloop : ∀ s0, for_each entries (λ entry,
        seller <- uuid_or_none (seller_id entry) ;;
        order <- uuid_or_none (seller_order_id entry) ;;
        exec (with_rows (λ rs, rs ++
          [{| lr_transaction_id := tx; lr_account := account_value (account entry);
              lr_amount_cents := amount_cents entry; lr_currency := upper currency;
              lr_reason := reason_value (reason entry); lr_seller_id := seller;
              lr_seller_order_id := order; lr_commission_bps := bps; lr_contract_version := version;
              lr_detail := take_chars 512 (detail entry) |}]))) s0 =
      (Session (committed s0) (with_rows (λ rs, rs ++ map (row_of tx currency bps version) entries) (working s0)),
       inr tt)).
  { induction Hc as [|e es [H1 H2] _ IH]; intros s0; cbn [for_each map].
    - destruct s0 as [c []]. unfold ret, with_rows. cbn. by rewrite app_nil_r.
    - unfold bind at 1 2 3. rewrite (uuid_or_none_canonical _ _ H1), (uuid_or_none_canonical _ _ H2).
      unfold exec at 1. rewrite IH. unfold with_rows. cbn. by rewrite <-(assoc_L (++)). }
  unfold bind. rewrite Hloop. done.
Qed.

Lemma bind_write {B} entries currency bps version (k : string → M db B) s :
  assert_balanced entries = inr tt → Forall canonical_entry entries →
  bind (_write uuid4 entries currency bps version) k s =
    k (uuid4 (es_draws (working s))) (Session (committed s)
       (with_rows (λ rs, rs ++ map (row_of (uuid4 (es_draws (working s))) currency bps version) entries)
          (es_draw (working s)))).
Proof. intros Hb Hc. unfold bind. by rewrite write_run. Qed.

Definition share (e : Entry) : Z := ite (bool_decide (account e = SELLER_PAYABLE)) (- amount_cents e).

Definition for_booking (seller : string) (order : option string) (why : EntryReason) (e : Entry) : Prop :=
  seller_id e = Some seller ∧ seller_order_id e = order ∧ reason e = why.

(** Every committed booking appends one balanced transaction under a fresh id,
    for the requested seller and order. *)
Definition booked (seller : string) (order : option string) (why : EntryReason) (delta : Z)
    (d d' : db) : Prop :=
  ∃ entries currency bps version,
    rows d' = rows d ++ map (row_of (uuid4 (es_draws d)) currency bps version) entries ∧
    es_draws d' = S (es_draws d) ∧ assert_balanced entries = inr tt ∧
    Forall (for_booking seller order why) entries ∧ delta = sumZ share entries.

Lemma booking_canonical seller order why entries :
  canonical (Some seller) → canonical order → Forall (for_booking seller order why) entries →
  Forall canonical_entry entries.
Proof.
  intros Hs Ho H. eapply Forall_impl; [exact H|]. intros e (Hse & Hoe & _). unfold canonical_entry. by rewrite Hse, Hoe.
Qed.

Lemma share_sum entries :
  sumZ share entries =
    - sumZ amount_cents (List.filter (λ e, bool_decide (account e = SELLER_PAYABLE)) entries).
Proof.
  rewrite sumZ_filter, <-sumZ_opp. apply sumZ_ext. intros e _. unfold share, ite. by destruct (bool_decide _).
Qed.

Lemma already_booked_false order why d :
  (List.filter (λ r, bool_decide (lr_seller_order_id r = Some order) &&
                     (lr_reason r =?s reason_value why)) (rows d) = []) ↔
  ∀ r, r ∈ rows d → lr_seller_order_id r = Some order → lr_reason r ≠ reason_value why.
Proof.
  split.
  - intros H r Hr Ho Hw. assert (Hin : r ∈ List.filter (λ r, bool_decide (lr_seller_order_id r = Some order) &&
                     (lr_reason r =?s reason_value why)) (rows d)).
    { apply elem_of_filter_bool. rewrite !bool_decide_true by done. done. }
    rewrite H in Hin. by apply not_elem_of_nil in Hin.
  - intros H. apply filter_none. intros r Hr. destruct (bool_decide (lr_seller_order_id r = Some order)) eqn:E;
      [|done]. bool_to_prop. cbn. apply bool_decide_eq_false. by apply H.
Qed.

Lemma book_delivery_effect request now d :
  canonical (Some (ed_seller_id request)) → canonical (Some (ed_seller_order_id request)) →
  let out := run (book_delivery uuid4 fault seller_service request now) d in
  (out.1 = d ∧ ∀ r, out.2 = inr r → r = already_booked "DELIVERY") ∨
  ((∀ r, r ∈ rows d → lr_seller_order_id r = Some (ed_seller_order_id request) →
      lr_reason r ≠ reason_value DELIVERY) ∧
   ∃ r, out.2 = inr r ∧
     booked (ed_seller_id request) (Some (ed_seller_order_id request)) DELIVERY (lt_seller_owed_delta r) d out.1).
Proof.
  intros Hs Ho. cbv zeta. unfold run, book_delivery, _already_booked. symex.
  match goal with |- context [bool_decide (?l ≠ [])] => destruct (decide (l = [])) as [Hnew|Hold] end.
  2: { left. rewrite bool_decide_true by done. split; [reflexivity|]. by intros r [= <-]. }
  rewrite bool_decide_false by (intros H; by apply H). pose proof (proj1 (already_booked_false _ _ _) Hnew) as Hfree. clear Hnew.
  unfold _commission_for. destruct (seller_service (ed_seller_id request)) as [| |code body]; [by left..|].
  destruct (code =? 404); [by left|]. destruct (negb (code =? 200)); [by left|]. symex.
  unfold commission_bps_of. destruct (dict_get body "commission_bps") as [[]|]; try by left. symex.
  destruct (plan_delivery _ _ _ _) as [e|entries] eqn:Ep; [by left|].
  assert (Hb : assert_balanced entries = inr tt) by (apply plans_balance; left; eauto 10).
  assert (Hshape : Forall (for_booking (ed_seller_id request) (Some (ed_seller_order_id request)) DELIVERY) entries).
  { apply plan_delivery_ok in Ep as (c & sh & _ & _ & ->).
    destruct (negb (c =? 0)); repeat (apply Forall_cons; split; [done|]); by apply Forall_nil. }
  rewrite bind_write by (done || exact (booking_canonical _ _ _ _ Hs Ho Hshape)).
  symex. rewrite bind_try_commit. cbn [working]. destruct (fault _).
  { left. split; [reflexivity|]. intros r Hr. symmetry. by injection Hr. }
  right. split; [exact Hfree|]. eexists. split; [reflexivity|]. eexists _, _, _, _.
  split_and!; [reflexivity|reflexivity|exact Hb|exact Hshape|symmetry; apply share_sum].
Qed.

Lemma book_settlement_effect request d :
  canonical (Some (st_seller_id request)) → canonical (Some (st_seller_order_id request)) →
  let out := run (book_settlement uuid4 fault request) d in
  (out.1 = d ∧ ∀ r, out.2 = inr r → r = already_booked "SETTLEMENT") ∨
  ((∀ r, r ∈ rows d → lr_seller_order_id r = Some (st_seller_order_id request) →
      lr_reason r ≠ reason_value SETTLEMENT) ∧
   ∃ r, out.2 = inr r ∧ lt_seller_owed_delta r = 0 ∧
     booked (st_seller_id request) (Some (st_seller_order_id request)) SETTLEMENT (lt_seller_owed_delta r) d out.1).
Proof.
  intros Hs Ho. cbv zeta. unfold run, book_settlement, _already_booked. symex.
  match goal with |- context [bool_decide (?l ≠ [])] => destruct (decide (l = [])) as [Hnew|Hold] end.
  2: { left. rewrite bool_decide_true by done. split; [reflexivity|]. by intros r [= <-]. }
  rewrite bool_decide_false by (intros H; by apply H).
  pose proof (proj1 (already_booked_false _ _ _) Hnew) as Hfree. clear Hnew.
  destruct (plan_settlement _ _ _) as [e|entries] eqn:Ep; [by left|].
  assert (Hb : assert_balanced entries = inr tt) by (apply plans_balance; right; left; eauto 10).
  assert (Hshape : Forall (for_booking (st_seller_id request) (Some (st_seller_order_id request)) SETTLEMENT) entries
                   ∧ sumZ share entries = 0).
  { unfold plan_settlement in Ep. destruct (_ <=? 0); [done|]. destruct (assert_balanced _); [done|].
    injection Ep as <-. split; [|done]. repeat (apply Forall_cons; split; [done|]); by apply Forall_nil. }
  destruct Hshape as [Hshape H0].
  rewrite bind_write by (done || exact (booking_canonical _ _ _ _ Hs Ho Hshape)).
  rewrite bind_try_commit. cbn [working]. destruct (fault _).
  { left. split; [reflexivity|]. intros r Hr. symmetry. by injection Hr. }
  right. split; [exact Hfree|]. eexists. split; [reflexivity|]. split; [reflexivity|]. eexists _, _, _, _.
  split_and!; [reflexivity|reflexivity|exact Hb|exact Hshape|by rewrite H0].
Qed.

Lemma book_payout_effect request d :
  canonical (Some (po_seller_id request)) →
  let out := run (book_payout uuid4 fault request) d in
  (out.1 = d ∧ ∃ e, out.2 = inl e) ∨
  (∃ r, out.2 = inr r ∧ lt_seller_owed_delta r = - po_amount_cents request ∧ booked (po_seller_id request) None PAYOUT (lt_seller_owed_delta r) d out.1).
Proof.
  intros Hs. cbv zeta. unfold run, book_payout.
  destruct (plan_payout _ _) as [e|entries] eqn:Ep; [left; split; [reflexivity|by eexists]|].
  assert (Hb : assert_balanced entries = inr tt) by (apply plans_balance; right; right; eauto 10).
  assert (Hshape : Forall (for_booking (po_seller_id request) None PAYOUT) entries ∧
                   sumZ share entries = - po_amount_cents request).
  { unfold plan_payout in Ep. destruct (_ <=? 0); [done|]. destruct (assert_balanced _); [done|].
    injection Ep as <-. split; [repeat (apply Forall_cons; split; [done|]); by apply Forall_nil|].
    unfold share. cbn. rewrite bool_decide_true, bool_decide_false by done. cbn. lia. }
  destruct Hshape as [Hshape H0].
  rewrite bind_write by (done || exact (booking_canonical _ None _ _ Hs I Hshape)). symex.
  destruct (fault _); [left; split; [reflexivity|by eexists]|].
  right. eexists. split; [reflexivity|]. split; [reflexivity|]. eexists _, _, _, _.
  split_and!; [reflexivity|reflexivity|exact Hb|exact Hshape|by rewrite H0].
Qed.
End effects.

(** ** The ledger invariant *)

Definition tx_sum (t : string) (rs : list LedgerRow) : Z :=
  sumZ (λ r, ite (lr_transaction_id r =?s t) (lr_amount_cents r)) rs.

Record ledger_ok (uuid4 : nat → string) (d : db) : Prop := {
  tx_balanced : ∀ t, tx_sum t (rows d) = 0;
  tx_drawn : ∀ r, r ∈ rows d → ∃ n, (n < es_draws d)%nat ∧ lr_transaction_id r = uuid4 n;
  booked_once : ∀ why o, why ≠ PAYOUT → ∀ r r', r ∈ rows d → r' ∈ rows d →
    lr_reason r = reason_value why → lr_reason r' = reason_value why →
    lr_seller_order_id r = Some o → lr_seller_order_id r' = Some o →
    lr_transaction_id r = lr_transaction_id r';
}.

Lemma reason_value_inj a b : reason_value a = reason_value b → a = b.
Proof. by destruct a, b. Qed.

Lemma booked_ok uuid4 seller order why delta d d' :
  Inj (=) (=) uuid4 → ledger_ok uuid4 d → booked uuid4 seller order why delta d d' →
  (why = PAYOUT ∧ order = None ∨
   ∃ o, order = Some o ∧ ∀ r, r ∈ rows d → lr_seller_order_id r = Some o → lr_reason r ≠ reason_value why) →
  ledger_ok uuid4 d'.
Proof.
  intros Hinj [Hbal Hdr Honce] (entries & cur & bps & ver & Hr & Hd & Hb & Hsh & _) Hfree.
  set (tx := uuid4 (es_draws d)) in *.
  assert (Hnew : ∀ r, r ∈ map (row_of tx cur bps ver) entries → lr_transaction_id r = tx ∧
    lr_seller_order_id r = order ∧ lr_reason r = reason_value why).
  { intros r (e & -> & He)%elem_of_map. rewrite Forall_forall in Hsh. destruct (Hsh e He) as (_ & Ho & Hw).
    cbn. by rewrite Ho, Hw. }
  constructor; rewrite ?Hr, ?Hd.
  - intros t. unfold tx_sum. rewrite sumZ_app. fold (tx_sum t (rows d)). rewrite Hbal, sumZ_map. cbn.
    apply assert_balanced_ok in Hb as [_ Hb]. destruct (tx =?s t); cbn [ite].
    + done.
    + by rewrite sumZ_zero.
  - intros r [Hin|Hin]%elem_of_app.
    + destruct (Hdr r Hin) as (n & ? & ?). exists n. split; [lia|done].
    + exists (es_draws d). split; [lia|]. by apply Hnew.
  - intros why' o Hw' r r' [Hin|Hin]%elem_of_app [Hin'|Hin']%elem_of_app Hy Hy' Ho Ho'.
    + by eapply Honce.
    + exfalso. destruct (Hnew r' Hin') as (_ & Ho2 & Hw2). rewrite Hw2 in Hy'. apply reason_value_inj in Hy' as ->.
      destruct Hfree as [[-> _]|(o' & -> & Hfree)]; [done|]. rewrite Ho' in Ho2. simplify_eq.
      by apply (Hfree r Hin Ho).
    + exfalso. destruct (Hnew r Hin) as (_ & Ho2 & Hw2). rewrite Hw2 in Hy. apply reason_value_inj in Hy as ->.
      destruct Hfree as [[-> _]|(o' & -> & Hfree)]; [done|]. rewrite Ho in Ho2. simplify_eq.
      by apply (Hfree r' Hin' Ho').
    + destruct (Hnew r Hin) as (-> & _), (Hnew r' Hin') as (-> & _). done.
Qed.

(** One request to the escrow endpoints, with the seller service and the
    database answering as they like. *)
Inductive escrow_step (uuid4 : nat → string) (d : db) : db → Prop :=
| step_delivery fault seller_service request now :
    canonical (Some (ed_seller_id request)) → canonical (Some (ed_seller_order_id request)) →
    escrow_step uuid4 d (run (book_delivery uuid4 fault seller_service request now) d).1
| step_settlement fault request :
    canonical (Some (st_seller_id request)) → canonical (Some (st_seller_order_id request)) →
    escrow_step uuid4 d (run (book_settlement uuid4 fault request) d).1
| step_payout fault request :
    canonical (Some (po_seller_id request)) →
    escrow_step uuid4 d (run (book_payout uuid4 fault request) d).1.

Lemma step_ledger_ok uuid4 d d' :
  Inj (=) (=) uuid4 → escrow_step uuid4 d d' → ledger_ok uuid4 d → ledger_ok uuid4 d'.
Proof.
  intros Hinj Hstep Hok. destruct Hstep as [fault svc q now Hs Ho|fault q Hs Ho|fault q Hs].
  - destruct (book_delivery_effect uuid4 fault svc q now d Hs Ho) as [[-> _]|(Hf & r & _ & Hb)]; [done|].
    eapply booked_ok; eauto.
  - destruct (book_settlement_effect uuid4 fault q d Hs Ho) as [[-> _]|(Hf & r & _ & _ & Hb)]; [done|].
    eapply booked_ok; eauto.
  - destruct (book_payout_effect uuid4 fault q d Hs) as [[-> _]|(r & _ & _ & Hb)]; [done|].
    eapply booked_ok; eauto.
Qed.

(** ** Grouped sums *)

Definition key_sum (key : LedgerRow → string) (k : string) (rs : list LedgerRow) : Z :=
  sumZ (λ r, ite (key r =?s k) (lr_amount_cents r)) rs.

Lemma group_sums_spec key rs :
  NoDup (group_sums key rs).*1 ∧
  (∀ k, default 0 (dict_get (group_sums key rs) k) = key_sum key k rs) ∧
  sumZ snd (group_sums key rs) = sumZ lr_amount_cents rs.
Proof.
  induction rs as [|r rs (Hnd & Hget & Hsum)] using rev_ind.
  { split_and!; [constructor|done|done]. }
  unfold group_sums in *. rewrite foldl_app. cbn [foldl].
  set (g := foldl _ [] rs) in *. split_and!.
  - by apply dict_set_nodup.
  - intros k. unfold key_sum. rewrite sumZ_app. fold (key_sum key k rs). rewrite <-Hget. cbn [sumZ].
    destruct (decide (key r = k)) as [->|Hne].
    + rewrite dict_get_set_eq, bool_decide_true by done. cbn. lia.
    + rewrite dict_get_set_ne, bool_decide_false by done. cbn. lia.
  - rewrite sumZ_app, <-Hsum, sumZ_dict_add. cbn [sumZ]. lia.
Qed.

(** ** Properties *)

(** C3 — The books always balance: after any sequence of delivery, settlement
    and payout requests, accepted, refused or failing to commit, the health
    check answers balanced, with no imbalance, no offending transaction, and
    account totals that cancel out. *)
Theorem books_always_balance (uuid4 : nat → string) (d0 d : db)
    (Hinj : Inj (=) (=) uuid4) (H0 : ledger_ok uuid4 d0) (Hreach : rtc (escrow_step uuid4) d0 d) :
  ∃ h, run ledger_health d = (d, inr h) ∧ balanced h = true ∧ imbalance_cents h = 0 ∧
    unbalanced_transactions h = [] ∧ sumZ snd (accounts h) = 0.
Proof.
  assert (Hok : ledger_ok uuid4 d).
  { eapply (rtc_invariant _ (ledger_ok uuid4)); [|exact Hreach|exact H0]. intros; by eapply step_ledger_ok. }
  destruct Hok as [Hbal _ _].
  destruct (group_sums_spec lr_transaction_id (rows d)) as (Hnd & Hget & Hsum).
  assert (Hzero : ∀ p, p ∈ group_sums lr_transaction_id (rows d) → p.2 = 0).
  { intros [k v] Hin. specialize (Hget k). rewrite (elem_dict_get _ _ _ Hnd Hin) in Hget. cbn in *.
    rewrite Hget. apply Hbal. }
  assert (Htotal : sumZ lr_amount_cents (rows d) = 0) by (rewrite <-Hsum; by apply sumZ_zero).
  assert (Hoff : List.filter (λ '(_, s), negb (s =? 0)) (group_sums lr_transaction_id (rows d)) = []).
  { apply filter_none. intros [k v] Hin. specialize (Hzero _ Hin). cbn in Hzero. by rewrite Hzero. }
  unfold run, ledger_health. symex. rewrite Hoff, Htotal. eexists. split; [reflexivity|]. cbn.
  split_and!; try done. destruct (group_sums_spec lr_account (rows d)) as (_ & _ & ->). done.
Qed.

Definition seller_cents (seller : string) (d : db) : Z :=
  - sumZ lr_amount_cents (List.filter (λ r, bool_decide (lr_seller_id r = Some seller) &&
      (lr_account r =?s account_value SELLER_PAYABLE)) (rows d)).

Lemma booked_balance uuid4 seller order why delta d d' s :
  booked uuid4 seller order why delta d d' →
  seller_cents s d' = seller_cents s d + ite (seller =?s s) delta.
Proof.
  intros (entries & cur & bps & ver & Hr & _ & _ & Hsh & ->). unfold seller_cents.
  rewrite Hr, List.filter_app, sumZ_app.
  assert (Hx : sumZ lr_amount_cents (List.filter (λ r, bool_decide (lr_seller_id r = Some s) &&
      (lr_account r =?s account_value SELLER_PAYABLE)) (map (row_of (uuid4 (es_draws d)) cur bps ver) entries)) =
      - ite (seller =?s s) (sumZ share entries)).
  { rewrite sumZ_filter, sumZ_map. clear Hr. induction Hsh as [|e es (Hs & _ & _) _ IH]; cbn [sumZ]; [by destruct (seller =?s s)|].
    rewrite IH. cbn [row_of lr_seller_id lr_account lr_amount_cents]. rewrite Hs. unfold share.
    rewrite (bool_decide_ext (Some seller = Some s) (seller = s)) by naive_solver.
    rewrite (bool_decide_ext (account_value (account e) = account_value SELLER_PAYABLE) (account e = SELLER_PAYABLE))
      by (split; [by destruct (account e)|by intros ->]).
    unfold ite. destruct (seller =?s s), (bool_decide (account e = SELLER_PAYABLE)); cbn; lia. }
  rewrite Hx. unfold ite. destruct (seller =?s s); lia.
Qed.

(** The reported change is the real one: whatever the seller service and
    the database do, a delivery, settlement or payout request that is answered
    with success changes that seller's balance by exactly the delta it reports
    and nobody else's, a settlement never changes what is owed, and a request
    answered with an error changes nothing. *)
Theorem reported_delta_is_real (uuid4 : nat → string) (fault : db → option string)
    (seller_service : string → http_reply) (d : db) (now : Z) (s : string) :
  (∀ q, canonical (Some (ed_seller_id q)) → canonical (Some (ed_seller_order_id q)) →
     let out := run (book_delivery uuid4 fault seller_service q now) d in
     match out.2 with
     | inr r => seller_cents s out.1 = seller_cents s d + ite (ed_seller_id q =?s s) (lt_seller_owed_delta r)
     | inl _ => out.1 = d
     end) ∧
  (∀ q, canonical (Some (st_seller_id q)) → canonical (Some (st_seller_order_id q)) →
     let out := run (book_settlement uuid4 fault q) d in
     match out.2 with
     | inr r => seller_cents s out.1 = seller_cents s d + ite (st_seller_id q =?s s) (lt_seller_owed_delta r)
                ∧ lt_seller_owed_delta r = 0
     | inl _ => out.1 = d
     end) ∧
  (∀ q, canonical (Some (po_seller_id q)) →
     let out := run (book_payout uuid4 fault q) d in
     match out.2 with
     | inr r => seller_cents s out.1 = seller_cents s d + ite (po_seller_id q =?s s) (lt_seller_owed_delta r)
                ∧ lt_seller_owed_delta r = - po_amount_cents q
     | inl _ => out.1 = d
     end).
Proof.
  split_and!.
  - intros q Hs Ho. cbv zeta. destruct (book_delivery_effect uuid4 fault seller_service q now d Hs Ho) as
      [[-> H]|(_ & r & -> & Hb)]; [|by eapply booked_balance].
    destruct (run _ d).2 as [e|r]; [done|]. rewrite (H r eq_refl). unfold ite. destruct (_ =?s _); cbn; lia.
  - intros q Hs Ho. cbv zeta.
    destruct (book_settlement_effect uuid4 fault q d Hs Ho) as [[-> H]|(_ & r & E & H0 & Hb)].
    + destruct (run _ d).2 as [e|r]; [done|]. rewrite (H r eq_refl). unfold ite. destruct (_ =?s _); cbn; lia.
    + rewrite E. split; [by eapply booked_balance|exact H0].
  - intros q Hs. cbv zeta.
    destruct (book_payout_effect uuid4 fault q d Hs) as [[-> [e ->]]|(r & E & H0 & Hb)]; [done|].
    rewrite E. split; [by eapply booked_balance|exact H0].
Qed.

(** A parcel is booked once: after any sequence of requests all delivery
    entries of one seller order belong to a single transaction, and a delivery
    event repeated after a successful booking, however often and whatever it
    says, is acknowledged without writing anything. *)
Theorem delivery_booked_once (uuid4 : nat → string) (d0 d : db)
    (Hinj : Inj (=) (=) uuid4) (H0 : ledger_ok uuid4 d0) (Hreach : rtc (escrow_step uuid4) d0 d) :
  (∀ o r r', r ∈ rows d → r' ∈ rows d →
     lr_reason r = "DELIVERY" → lr_reason r' = "DELIVERY" →
     lr_seller_order_id r = Some o → lr_seller_order_id r' = Some o →
     lr_transaction_id r = lr_transaction_id r') ∧
  (∀ o r q fault seller_service now, r ∈ rows d → lr_reason r = "DELIVERY" →
     lr_seller_order_id r = Some o → ed_seller_order_id q = o →
     run (book_delivery uuid4 fault seller_service q now) d = (d, inr (already_booked "DELIVERY"))).
Proof.
  assert (Hok : ledger_ok uuid4 d).
  { eapply (rtc_invariant _ (ledger_ok uuid4)); [|exact Hreach|exact H0]. intros; by eapply step_ledger_ok. }
  split.
  - intros o r r' Hr Hr' Hy Hy' Ho Ho'. by eapply (booked_once _ _ Hok DELIVERY o).
  - intros o r q fault svc now Hr Hy Ho Hq. unfold run, book_delivery, _already_booked. symex.
    rewrite bool_decide_true; [done|]. intros Hnil.
    by apply (proj1 (already_booked_false (ed_seller_order_id q) DELIVERY d) Hnil r Hr); rewrite ?Hq.
Qed.

(** A failed commit is reported as a duplicate: whatever made the database
    refuse the commit, the delivery request is answered with success and
    "already booked; ignoring" while nothing was booked, for an order that had
    no booking at all. *)
Theorem failed_delivery_commit_reported_as_duplicate (uuid4 : nat → string)
    (error : string) (body : list (string * json)) (q : EscrowDeliveryRequest) (now rate : Z) (d : db)
    (Hs : canonical (Some (ed_seller_id q))) (Ho : canonical (Some (ed_seller_order_id q)))
    (Hrate : dict_get body "commission_bps" = Some (JInt rate)) (Hr : 0 ≤ rate ≤ 10000)
    (Hc : 0 < ed_collected_cents q)
    (Hnew : ∀ r, r ∈ rows d → lr_seller_order_id r ≠ Some (ed_seller_order_id q)) :
  run (book_delivery uuid4 (λ _, Some error) (λ _, Answered 200 body) q now) d =
    (d, inr (already_booked "DELIVERY")).
Proof.
  unfold run, book_delivery, _already_booked. symex.
  assert (Hn : List.filter (λ r, bool_decide (lr_seller_order_id r = Some (ed_seller_order_id q)) &&
                       (lr_reason r =?s reason_value DELIVERY)) (rows d) = []).
  { apply already_booked_false. intros r Hin E. by destruct (Hnew r Hin). }
  rewrite Hn, bool_decide_false by (intros H; by apply H). unfold _commission_for.
  change (200 =? 404) with false. change (200 =? 200) with true. cbn [negb]. symex.
  unfold commission_bps_of. rewrite Hrate. symex.
  destruct (delivery_split_ok (ed_seller_id q) (ed_seller_order_id q) (ed_collected_cents q) rate Hc Hr) as [entries Hp].
  rewrite Hp.
  assert (Hb : assert_balanced entries = inr tt) by (apply plans_balance; left; eauto 10).
  assert (Hshape : Forall (for_booking (ed_seller_id q) (Some (ed_seller_order_id q)) DELIVERY) entries).
  { apply plan_delivery_ok in Hp as (c & sh & _ & _ & ->).
    destruct (negb (c =? 0)); repeat (apply Forall_cons; split; [done|]); by apply Forall_nil. }
  rewrite bind_write by (done || exact (booking_canonical _ _ _ _ Hs Ho Hshape)). symex.
  by rewrite bind_try_commit.
Qed.

(** ** Witnesses *)

Definition seller_a := "4cc1484d-0000-4000-8000-0000000000a1".
Definition order_a := "4cc1484d-0000-4000-8000-0000000000b2".

Definition no_entries : db := {| rows := []; es_outbox := []; es_draws := 0 |}.

Lemma no_entries_ok uuid4 : ledger_ok uuid4 no_entries.
Proof. constructor; [done|..]; cbn; [by intros r ?%not_elem_of_nil|]. by intros why o _ r r' ?%not_elem_of_nil. Qed.

Definition sample_delivery : EscrowDeliveryRequest :=
  {| ed_seller_id := seller_a; ed_seller_order_id := order_a; ed_collected_cents := 999; ed_currency := "bdt" |}.

Definition contract : http_reply := Answered 200 [("commission_bps", JInt 1250)].

Definition delivered_db : db :=
  (run (book_delivery unary_id (λ _, None) (λ _, contract) sample_delivery 3) no_entries).1.

Lemma sample_canonical : canonical (Some seller_a) ∧ canonical (Some order_a).
Proof. by vm_compute. Qed.

Lemma delivered_reachable : rtc (escrow_step unary_id) no_entries delivered_db.
Proof.
  apply rtc_once. apply (step_delivery _ _ (λ _, None) (λ _, contract) sample_delivery 3); apply sample_canonical.
Qed.

Lemma books_always_balance_witness :
  rtc (escrow_step unary_id) no_entries delivered_db ∧
  ∃ h, run ledger_health delivered_db = (delivered_db, inr h) ∧ balanced h = true ∧ length (accounts h) = 3%nat.
Proof.
  split; [exact delivered_reachable|].
  destruct (books_always_balance unary_id no_entries delivered_db unary_id_inj (no_entries_ok _) delivered_reachable)
    as (h & Hrun & Hb & _). exists h. split; [exact Hrun|]. split; [exact Hb|].
  vm_compute in Hrun. injection Hrun as <-. reflexivity.
Defined.

Lemma delivery_booked_once_witness :
  run (book_delivery unary_id (λ _, None) (λ _, contract) sample_delivery 9) delivered_db =
    (delivered_db, inr (already_booked "DELIVERY")).
Proof.
  destruct (rows delivered_db) as [|r rs] eqn:E; [vm_compute in E; discriminate E|].
  apply (proj2 (delivery_booked_once unary_id no_entries delivered_db unary_id_inj (no_entries_ok _)
    delivered_reachable) order_a r); [rewrite E; left| | |reflexivity];
    vm_compute in E; injection E as <- _; reflexivity.
Defined.

Lemma failed_delivery_commit_reported_as_duplicate_witness :
  run (book_delivery unary_id (λ _, Some "connection reset") (λ _, contract) sample_delivery 9) no_entries =
    (no_entries, inr (already_booked "DELIVERY")).
Proof.
  apply (failed_delivery_commit_reported_as_duplicate unary_id "connection reset"
    [("commission_bps", JInt 1250)] sample_delivery 9 1250 no_entries);
    [apply sample_canonical|apply sample_canonical|reflexivity|lia|cbn; lia|].
  by intros r ?%not_elem_of_nil.
Defined.
End EscrowService.
