(* ===== verification/Resilience.v ===== *)
(** * Circuit breaker and bulkhead (shared/libs/python-common, resilience.py)

    The state of one [AsyncCircuitBreaker] and the moments at which a call
    touches it: admission, success, failure.  Each runs under the breaker's lock
    without suspending, so calls interleave only between them: [breaker_step] is
    one such moment of any of the concurrent calls.  Times are microseconds of
    the monotonic clock.  The semaphore is taken right after the bulkhead test
    and is held exactly as long as the call counts as in flight, so it is locked
    when and only when [in_flight] has reached the limit. *)

From S2P Require Import Prelude PyValue.

Module Resilience.

Inductive State := CLOSED | OPEN | HALF_OPEN.

#[global] Instance State_eq : EqDecision State.
Proof. solve_decision. Defined.

Definition FAILURE_THRESHOLD : Z := 5.
Definition RESET_TIMEOUT_US : Z := 30 * 1000000.
Definition DEFAULT_BULKHEAD : Z := 10.

Record AsyncCircuitBreaker := {
  failure_threshold : Z;
  reset_timeout : Z;
  bulkhead_limit : Z;
  state : State;
  consecutive_failures : Z;
  opened_at : Z;
  probe_in_flight : bool;
  in_flight : Z;
  total_calls : Z;
  total_failures : Z;
  total_short_circuited : Z;
}.

Definition new_breaker (threshold timeout bulkhead : Z) : AsyncCircuitBreaker :=
  {| failure_threshold := threshold; reset_timeout := timeout; bulkhead_limit := bulkhead;
     state := CLOSED; consecutive_failures := 0; opened_at := 0; probe_in_flight := false;
     in_flight := 0; total_calls := 0; total_failures := 0; total_short_circuited := 0 |}.

(** The fields admission and settlement write. *)
Definition update (b : AsyncCircuitBreaker) (st : State) (failures opened : Z) (probe : bool)
    (new_failures new_short : Z) : AsyncCircuitBreaker :=
  {| failure_threshold := failure_threshold b; reset_timeout := reset_timeout b;
     bulkhead_limit := bulkhead_limit b; state := st; consecutive_failures := failures;
     opened_at := opened; probe_in_flight := probe; in_flight := in_flight b;
     total_calls := total_calls b; total_failures := total_failures b + new_failures;
     total_short_circuited := total_short_circuited b + new_short |}.

(** What was raised, as far as [is_downstream_failure] looks at it: the status
    of an attached response, if there is one. *)
Definition is_downstream_failure (status_code : option Z) : bool :=
  match status_code with Some c => 500 <=? c | None => true end.

(** Admission control: the breaker afterwards, and [retry_in] of the
    [CircuitOpenError] when the call must not proceed. *)
Definition _before_call (now : Z) (b : AsyncCircuitBreaker) : AsyncCircuitBreaker * option Z :=
  match state b with
  | OPEN =>
      let elapsed := now - opened_at b in
      if elapsed <? reset_timeout b
      then (update b OPEN (consecutive_failures b) (opened_at b) (probe_in_flight b) 0 1,
            Some (reset_timeout b - elapsed))
      else (update b HALF_OPEN (consecutive_failures b) (opened_at b) true 0 0, None)
  | HALF_OPEN =>
      if probe_in_flight b
      then (update b HALF_OPEN (consecutive_failures b) (opened_at b) true 0 1, Some 0)
      else (update b HALF_OPEN (consecutive_failures b) (opened_at b) true 0 0, None)
  | CLOSED => (b, None)
  end.

Definition _on_success (b : AsyncCircuitBreaker) : AsyncCircuitBreaker :=
  update b CLOSED 0 (opened_at b) false 0 0.

Definition _on_failure (now : Z) (status_code : option Z) (b : AsyncCircuitBreaker)
    : AsyncCircuitBreaker :=
  if negb (is_downstream_failure status_code)
  then update b (state b) (consecutive_failures b) (opened_at b) false 0 0
  else match state b with
  | HALF_OPEN => update b OPEN (consecutive_failures b) now false 1 0
  | st =>
      let failures := consecutive_failures b + 1 in
      if failure_threshold b <=? failures
      then update b OPEN 0 now (probe_in_flight b) 1 0
      else update b st failures (opened_at b) (probe_in_flight b) 1 0
  end.

Definition with_in_flight (d calls : Z) (b : AsyncCircuitBreaker) : AsyncCircuitBreaker :=
  {| failure_threshold := failure_threshold b; reset_timeout := reset_timeout b;
     bulkhead_limit := bulkhead_limit b; state := state b;
     consecutive_failures := consecutive_failures b; opened_at := opened_at b;
     probe_in_flight := probe_in_flight b; in_flight := in_flight b + d;
     total_calls := total_calls b + calls; total_failures := total_failures b;
     total_short_circuited := total_short_circuited b |}.

Inductive refusal := CircuitOpenError (retry_in : Z) | BulkheadFullError (limit : Z).

(** [call] up to the moment [fn] starts, and from the moment it ends; the
    exception's status is [Some None] for one without a response. *)
Definition enter (now : Z) (b : AsyncCircuitBreaker) : AsyncCircuitBreaker * option refusal :=
  match _before_call now b with
  | (b, Some retry_in) => (b, Some (CircuitOpenError retry_in))
  | (b, None) =>
      if bulkhead_limit b <=? in_flight b then (b, Some (BulkheadFullError (bulkhead_limit b)))
      else (with_in_flight 1 1 b, None)
  end.

Definition leave (now : Z) (raised : option (option Z)) (b : AsyncCircuitBreaker) : AsyncCircuitBreaker :=
  with_in_flight (-1) 0
    (match raised with Some status_code => _on_failure now status_code b | None => _on_success b end).

(** [stats()] *)
Definition stats (b : AsyncCircuitBreaker) : State * Z * Z * Z * Z * Z * Z :=
  (state b, consecutive_failures b, in_flight b, bulkhead_limit b, total_calls b, total_failures b,
   total_short_circuited b).

(** ** Concurrent calls *)

Inductive breaker_step (now : Z) (b : AsyncCircuitBreaker) : AsyncCircuitBreaker → Prop :=
| step_enter : breaker_step now b (enter now b).1
| step_leave raised : 0 < in_flight b → breaker_step now b (leave now raised b).

(** Runs with the times at which the steps happen, the clock never going back. *)
Inductive breaker_run : Z → AsyncCircuitBreaker → Z → AsyncCircuitBreaker → Prop :=
| run_refl t b : breaker_run t b t b
| run_step t b t1 b1 t2 b2 :
    t ≤ t1 → breaker_step t1 b b1 → breaker_run t1 b1 t2 b2 → breaker_run t b t2 b2.

Record breaker_ok (now : Z) (b : AsyncCircuitBreaker) : Prop := {
  ok_limit : 0 ≤ in_flight b ≤ bulkhead_limit b;
  ok_failures : 0 ≤ consecutive_failures b < failure_threshold b;
  ok_opened : opened_at b ≤ now;
}.

Lemma leave_ok t b raised :
  breaker_ok t b → 0 < in_flight b → breaker_ok t (leave t raised b).
Proof.
  intros [Hl Hf Ho] Hin. unfold leave, _on_failure, _on_success.
  destruct raised as [[c|]|]; unfold is_downstream_failure; [destruct (500 <=? c)|..]; cbn [negb];
    [destruct (state b); [destruct (_ <=? _) eqn:E..|]| |destruct (state b); [destruct (_ <=? _) eqn:E..|]|];
    bool_to_prop; constructor; cbn; lia.
Qed.

Lemma enter_ok t b : breaker_ok t b → breaker_ok t (enter t b).1.
Proof.
  intros [Hl Hf Ho]. unfold enter, _before_call.
  destruct (state b); [|destruct (_ <? _)|destruct (probe_in_flight b)]; cbn;
    try (constructor; cbn; lia);
    (destruct (_ <=? _) eqn:E; bool_to_prop; constructor; cbn in *; lia).
Qed.

Lemma step_ok t t1 b b1 : breaker_ok t b → t ≤ t1 → breaker_step t1 b b1 → breaker_ok t1 b1.
Proof.
  intros [Hl Hf Ho] Ht Hs. assert (Hok : breaker_ok t1 b) by (constructor; lia).
  destruct Hs; [by apply enter_ok|by apply leave_ok].
Qed.

Lemma run_ok t b t' b' : breaker_run t b t' b' → breaker_ok t b → breaker_ok t' b'.
Proof.
  induction 1 as [|t b t1 b1 t2 b2 Ht Hs _ IH]; [done|]. intros H. apply IH. by eapply step_ok.
Qed.

(** Downstream failures in a row, with no other call ending between them. *)
Fixpoint failing (ts : list Z) (status : Z → option Z) (b : AsyncCircuitBreaker) : AsyncCircuitBreaker :=
  match ts with
  | [] => b
  | t :: ts => failing ts status (leave t (Some (status t)) b)
  end.

Lemma failing_opens ts status b :
  state b = CLOSED → (∀ t, t ∈ ts → is_downstream_failure (status t) = true) →
  Z.of_nat (length ts) = failure_threshold b - consecutive_failures b → ts ≠ [] →
  state (failing ts status b) = OPEN ∧ Some (opened_at (failing ts status b)) = last ts.
Proof.
  revert b. induction ts as [|t ts IH]; intros b Hst Hf Hlen Hne; [done|]. cbn [failing].
  set (b1 := leave t (Some (status t)) b).
  destruct (decide (ts = [])) as [->|Hts].
  - cbn [length] in Hlen. unfold b1, leave, _on_failure. rewrite (Hf t) by left. cbn [negb failing].
    rewrite Hst, (proj2 (Z.leb_le _ _)) by lia. by cbn.
  - assert (Hb : state b1 = CLOSED ∧ consecutive_failures b1 = consecutive_failures b + 1 ∧
        failure_threshold b1 = failure_threshold b).
    { unfold b1, leave, _on_failure. rewrite (Hf t) by left. cbn [negb]. rewrite Hst.
      assert (0 < length ts)%nat by (destruct ts; [done|cbn; lia]). cbn [length] in Hlen.
      rewrite (proj2 (Z.leb_gt _ _)) by lia. by cbn. }
    destruct Hb as (Hs1 & Hc1 & Ht1). destruct (IH b1) as [H1 H2]; [done| |cbn [length] in Hlen; lia|done|].
    { intros t' Ht'. apply Hf. by right. }
    split; [done|]. rewrite H2. by destruct ts.
Qed.

(** A stretch of time in which no call ends well: calls are tried, and those
    that were in flight fail. *)
Inductive failing_run : Z → AsyncCircuitBreaker → Z → AsyncCircuitBreaker → Prop :=
| failing_refl t b : failing_run t b t b
| failing_enter t b t1 t2 b2 : t ≤ t1 → failing_run t1 (enter t1 b).1 t2 b2 → failing_run t b t2 b2
| failing_leave t b t1 status t2 b2 : t ≤ t1 → failing_run t1 (leave t1 (Some status) b) t2 b2 → failing_run t b t2 b2.

Lemma failing_run_later t b t' b' : failing_run t b t' b' → t ≤ t'.
Proof. induction 1; lia. Qed.

(** An open circuit stays open through it until its window has passed. *)
Lemma stays_open t b t' b' : failing_run t b t' b' → state b = OPEN → opened_at b ≤ t → t' < opened_at b + reset_timeout b →
  state b' = OPEN ∧ opened_at b ≤ opened_at b' ∧ reset_timeout b' = reset_timeout b.
Proof.
  induction 1 as [|t b t1 t2 b2 Ht Hrun IH|t b t1 status t2 b2 Ht Hrun IH]; intros Hst Ho Hw; [split_and!; done || lia|..];
    apply failing_run_later in Hrun.
  - assert (E : (enter t1 b).1 = update b OPEN (consecutive_failures b) (opened_at b) (probe_in_flight b) 0 1).
    { unfold enter, _before_call. by rewrite Hst, (proj2 (Z.ltb_lt _ _)) by lia. }
    rewrite E in IH. cbn [update state opened_at reset_timeout] in IH. by apply IH; try lia.
  - assert (Hl : state (leave t1 (Some status) b) = OPEN ∧ opened_at b ≤ opened_at (leave t1 (Some status) b) ≤ t1 ∧
        reset_timeout (leave t1 (Some status) b) = reset_timeout b).
    { unfold leave, _on_failure. rewrite Hst. destruct (is_downstream_failure status); [destruct (_ <=? _)|]; cbn; split_and!; done || lia. }
    destruct Hl as (H1 & H2 & H3). rewrite H3 in IH. destruct IH as (? & ? & ?); [done|lia|lia|]. split_and!; [done|lia|congruence].
Qed.


Definition tripped : AsyncCircuitBreaker :=
  leave 7 (Some None) (enter 5 (new_breaker 1 RESET_TIMEOUT_US 1)).1.


End Resilience.
