(* ===== verification/DispatchRules.v ===== *)
(** * Dispatcher decisions (workers/saga-dispatcher, dispatch_rules.py)

    What an acknowledgement settles, which reservations a cart needs, the routes
    of the commands, and the retry policy.  Delays are microseconds, the
    resolution of the timestamps they are added to; the random jitter
    [random.random()] is [j / 2^53] for an integer [j] below [2^53]. *)

From S2P Require Import Prelude PyValue Transitions SplitRules SagaReaper.

Module DispatchRules.

(** ** Acknowledgements of the saga *)

Inductive SagaAck := APPLIED | DEFERRED | DEAD_LETTERED | ACK_ERROR.

Definition SETTLES (a : SagaAck) : bool :=
  match a with APPLIED => true | DEFERRED => false | DEAD_LETTERED => true | ACK_ERROR => false end.

Definition classify_saga_response (status_code : Z) : SagaAck :=
  if status_code <? 300 then APPLIED
  else if status_code =? 409 then DEFERRED
  else if status_code =? 422 then DEAD_LETTERED
  else ACK_ERROR.

Definition settles (ack : SagaAck) : bool := SETTLES ack.

(** ** Routes *)

Record Route := {
  target : option string;
  success_status : option Z;
  on_success : option string;
  on_failure : option string;
  settle_on_failure : bool;
}.

Definition compensation : Route :=
  {| target := Some "inventory-service"; success_status := Some 200;
     on_success := Some "InventoryReleased"; on_failure := None; settle_on_failure := false |}.

Definition ROUTES : list (string * Route) :=
  [ ("ReserveInventoryCommand",
      {| target := Some "inventory-service"; success_status := Some 200;
         on_success := Some "InventoryReserved"; on_failure := Some "InventoryReservationFailed";
         settle_on_failure := true |});
    ("ChargePaymentCommand",
      {| target := Some "payment-service"; success_status := Some 201;
         on_success := Some "PaymentCharged"; on_failure := Some "PaymentFailed";
         settle_on_failure := true |});
    ("RefundPaymentCommand",
      {| target := Some "payment-service"; success_status := Some 200;
         on_success := Some "PaymentRefunded"; on_failure := None; settle_on_failure := false |});
    ("ReleaseInventoryCommand", compensation);
    ("CompensateInventoryCommand", compensation);
    ("ConfirmOrderCommand",
      {| target := None; success_status := None; on_success := Some "OrderCompleted";
         on_failure := None; settle_on_failure := true |});
    ("SagaTimedOut",
      {| target := None; success_status := None; on_success := None; on_failure := None;
         settle_on_failure := true |}) ].

Definition route_for (command : string) : option Route := dict_get ROUTES command.

Definition events_emitted : list string :=
  omap id (concat (map (λ '(_, r), [on_success r; on_failure r]) ROUTES)).

Definition commands_handled : list string := ROUTES.*1.

(** ** Reservation planning *)

Record ItemReservation := { product_id : string; quantity : Z }.

Record ReservationPlan := { items : list ItemReservation; error : option string }.

Definition plan_ok (p : ReservationPlan) : bool := bool_decide (error p = None).

Definition failed_plan (e : string) : ReservationPlan := {| items := []; error := Some e |}.

Section planning.
(** Python's [repr] for numbers with a fraction and for containers. *)
Context (repr : json → string).

Fixpoint add_items (entries : list json) (totals : list (string * Z)) : string + list (string * Z) :=
  match entries with
  | [] => inr totals
  | JObj entry :: rest =>
      let product := obj_get entry "product_id" in
      if negb (truthy product) then inl "ItemMissingProductId"
      else match default (JInt 1) (dict_get entry "quantity") with
      | JInt q =>
          if q <=? 0 then inl ("NonPositiveQuantity: " +:+ dec q)
          else
            let pid := py_str repr product in
            add_items rest (dict_set totals pid (default 0 (dict_get totals pid) + q))
      | v => inl ("NonIntegerQuantity: " +:+ py_repr repr v)
      end
  | v :: _ => inl ("MalformedItem: " +:+ py_repr repr v)
  end.

Definition plan_item_reservations (items_payload : json) : ReservationPlan :=
  let items := match items_payload with
               | JObj d => default (JObj d) (dict_get d "items")
               | v => v end in
  let items := match items with
               | JObj d => JList (map (λ '(k, v), JObj [("product_id", JStr k); ("quantity", v)]) d)
               | v => v end in
  match items with
  | JList (e :: es) =>
      match add_items (e :: es) [] with
      | inl err => failed_plan err
      | inr totals =>
          {| items := map (λ '(pid, qty), {| product_id := pid; quantity := qty |})
                        (sort_by fst totals);
             error := None |}
      end
  | _ => failed_plan "EmptyItemsPayload"
  end.
End planning.

(** [f"{message_id}:{product_id}"] *)
Definition reservation_idempotency_key (message_id product : string) : string :=
  message_id +:+ ":" +:+ product.

(** ** Retry policy *)

Inductive Disposition := SETTLE | RETRY | PARK.

#[global] Instance Disposition_eq : EqDecision Disposition.
Proof. solve_decision. Defined.

Record Outcome := { disposition : Disposition; o_error : option string }.

Definition settled (o : Outcome) : bool := bool_decide (disposition o = SETTLE).

Definition SETTLED : Outcome := {| disposition := SETTLE; o_error := None |}.
Definition retry (e : string) : Outcome := {| disposition := RETRY; o_error := Some e |}.
Definition park (e : string) : Outcome := {| disposition := PARK; o_error := Some e |}.

Definition TERMINAL_COMMAND_STATUSES : list Z := [400; 404; 409; 410; 422].
Definition RETRYABLE_COMMAND_STATUSES : list Z := [408; 425; 429].

Definition classify_command_failure (status_code : option Z) : Disposition :=
  match status_code with
  | None => RETRY
  | Some c =>
      if (200 <=? c) && (c <? 300) then SETTLE
      else if c in_ RETRYABLE_COMMAND_STATUSES then RETRY
      else if 500 <=? c then RETRY
      else if c in_ TERMINAL_COMMAND_STATUSES then PARK
      else RETRY
  end.

Definition RETRY_BASE_US : Z := 2 * 1000000.
Definition RETRY_CAP_US : Z := 300 * 1000000.
Definition MAX_ATTEMPTS : Z := 15.

(** [backoff_seconds(attempts, jitter=j/2^53)]; [None] is the [ValueError]. *)
Definition backoff_us (attempts j : Z) : option Z :=
  if attempts <? 1 then None
  else if negb ((0 <=? j) && (j <? 2 ^ 53)) then None
  else
    let delay := Z.min RETRY_CAP_US (RETRY_BASE_US * 2 ^ (attempts - 1)) in
    Some (delay * (2 ^ 54 - j) / 2 ^ 54).

Definition disposition_after (d : Disposition) (attempts : Z) : Disposition :=
  if bool_decide (d = RETRY) && (MAX_ATTEMPTS <=? attempts) then PARK else d.

(** ** Lemmas *)

Definition parsed_item (repr : json → string) (e : json) (p : string * Z) : Prop :=
  ∃ entry, e = JObj entry ∧ truthy (obj_get entry "product_id") = true ∧
    default (JInt 1) (dict_get entry "quantity") = JInt p.2 ∧ 0 < p.2 ∧
    p.1 = py_str repr (obj_get entry "product_id").

Definition units_of (pid : string) (ps : list (string * Z)) : Z :=
  sumZ (λ p, ite (p.1 =?s pid) p.2) ps.

Lemma add_items_ok repr entries totals r :
  add_items repr entries totals = inr r →
  ∃ parsed, Forall2 (parsed_item repr) entries parsed ∧
    (NoDup totals.*1 → NoDup r.*1) ∧
    (∀ pid, default 0 (dict_get r pid) = default 0 (dict_get totals pid) + units_of pid parsed) ∧
    (∀ pid, pid ∈ r.*1 ↔ pid ∈ totals.*1 ∨ pid ∈ parsed.*1) ∧
    sumZ snd r = sumZ snd totals + sumZ snd parsed.
Proof.
  revert totals. induction entries as [|e entries IH]; intros totals H; cbn [add_items] in H.
  - injection H as <-. exists []. split_and!; [constructor|done|..].
    + intros pid. cbn. lia.
    + intros pid. set_solver.
    + cbn. lia.
  - destruct e as [| | | | | |entry]; try done.
    destruct (negb (truthy (obj_get entry "product_id"))) eqn:Et; [done|]. bool_to_prop.
    destruct (default (JInt 1) (dict_get entry "quantity")) as [| |q| | | |] eqn:Eq; try done.
    destruct (q <=? 0) eqn:Eqp; [done|]. bool_to_prop. cbv zeta in H.
    apply IH in H as (parsed & HF & Hnd & Hget & Hkeys & Hsum).
    set (pid0 := py_str repr (obj_get entry "product_id")) in *.
    exists ((pid0, q) :: parsed). split_and!.
    + constructor; [|done]. exists entry. by split_and!.
    + intros Hn. apply Hnd. by apply dict_set_nodup.
    + intros pid. rewrite Hget. unfold units_of. cbn [sumZ fst snd].
      destruct (decide (pid0 = pid)) as [<-|Hne].
      * rewrite dict_get_set_eq, bool_decide_true by done. cbn. lia.
      * rewrite dict_get_set_ne, bool_decide_false by done. cbn. lia.
    + intros pid. rewrite Hkeys, dict_set_keys. case_decide; set_solver.
    + rewrite Hsum, sumZ_dict_add. cbn. lia.
Qed.

Lemma units_of_pos pid ps : Forall (λ p, 0 < p.2) ps → pid ∈ ps.*1 → 0 < units_of pid ps.
Proof.
  unfold units_of. induction 1 as [|[k q] ps Hq Hps IH]; [by intros ?%not_elem_of_nil|].
  cbn [sumZ fst snd] in *. intros [->|Hin]%elem_of_cons.
  - rewrite bool_decide_true by done. cbn.
    assert (0 ≤ sumZ (λ p : string * Z, ite (p.1 =?s k) p.2) ps); [|lia].
    apply sumZ_nonneg. intros p Hp. rewrite Forall_forall in Hps. specialize (Hps p Hp).
    unfold ite. destruct (p.1 =?s k); lia.
  - specialize (IH Hin). unfold ite at 1. destruct (k =?s pid); lia.
Qed.

(** ** Properties *)

(** The cart is reserved in full: a usable plan has each product once, in
    order of product id, for exactly the sum of its lines' quantities (each of
    them positive), and no line is left out; a cart with an unusable line gets
    no reservation at all. *)
Theorem plan_reserves_every_line (repr : json → string) (entries : list json) :
  let plan := plan_item_reservations repr (JList entries) in
  (error plan = None →
     Sorted (key_le product_id) (items plan) ∧ NoDup (map product_id (items plan)) ∧
     ∃ parsed, Forall2 (parsed_item repr) entries parsed ∧
       (∀ i, i ∈ items plan → quantity i = units_of (product_id i) parsed ∧ 0 < quantity i) ∧
       (∀ p, p ∈ parsed → p.1 ∈ map product_id (items plan)) ∧
       sumZ quantity (items plan) = sumZ snd parsed) ∧
  (error plan ≠ None → items plan = []).
Proof.
  cbv zeta. unfold plan_item_reservations. destruct entries as [|e es]; [done|].
  destruct (add_items repr (e :: es) []) as [err|totals] eqn:E; [done|]. split; [|done]. intros _.
  cbn [items]. apply add_items_ok in E as (parsed & HF & Hnd & Hget & Hkeys & Hsum).
  specialize (Hnd (NoDup_nil_2)).
  assert (Hids : map product_id (map (λ '(pid, qty), {| product_id := pid; quantity := qty |}) (sort_by fst totals))
                 = map fst (sort_by fst totals)).
  { rewrite map_map. apply map_ext. by intros []. }
  assert (Hp : map fst (sort_by fst totals) ≡ₚ totals.*1) by apply Permutation_map, sort_by_perm.
  split_and!.
  - pose proof (sort_by_sorted fst totals) as Hs. revert Hs. generalize (sort_by fst totals). intros l Hs.
    induction Hs as [|[k v] l _ IH Hhd]; cbn; constructor; [done|].
    destruct l as [|[k' v'] l]; cbn; constructor. by inversion Hhd.
  - rewrite Hids, Hp. exact Hnd.
  - exists parsed. split_and!; [done| | |].
    + intros i ([k v] & -> & Hin)%elem_of_map. rewrite sort_by_perm in Hin. cbn.
      assert (Hv : v = units_of k parsed).
      { specialize (Hget k). rewrite (elem_dict_get _ _ _ Hnd Hin) in Hget. cbn in Hget. unfold id in Hget. lia. }
      split; [done|]. rewrite Hv. apply units_of_pos.
      * apply Forall_forall. intros p Hin'. apply list_elem_of_lookup in Hin' as [j Hj].
        eapply Forall2_lookup_r in HF as (x & _ & (entry & _ & _ & _ & ? & _)); eauto.
      * assert (Hk : k ∈ totals.*1) by (apply list_elem_of_fmap; by exists (k, v)).
        apply Hkeys in Hk as [?%not_elem_of_nil|?]; done.
    + intros p Hin. rewrite Hids, Hp. apply Hkeys. right. apply list_elem_of_fmap. by exists p.
    + rewrite sumZ_map. rewrite (sumZ_ext _ snd) by (by intros []).
      rewrite (sumZ_perm _ _ _ (sort_by_perm fst totals)), Hsum. done.
Qed.

(** The units of product [pid] a plan reserves, and those the seller orders promise. *)
Definition reserved_units (pid : string) (plan : ReservationPlan) : Z :=
  sumZ (λ i, ite (product_id i =?s pid) (quantity i)) (items plan).

Definition promised_units (pid : string) (plans : list SplitRules.SellerOrderPlan) : Z :=
  sumZ (λ l, ite (SplitRules.product_id l =?s pid) (SplitRules.quantity l))
    (concat (map SplitRules.lines plans)).

Lemma units_of_dict_add pid acc k q :
  units_of pid (dict_set acc k (default 0 (dict_get acc k) + q)) = units_of pid acc + ite (k =?s pid) q.
Proof.
  unfold units_of. induction acc as [|[k' v] acc IH]; cbn [dict_set dict_get sumZ fst snd].
  { unfold ite. destruct (k =?s pid); cbn; lia. }
  destruct (decide (k = k')) as [->|]; cbn [sumZ fst snd].
  - cbn [from_option]. unfold id, ite. destruct (k' =?s pid); lia.
  - rewrite IH. lia.
Qed.

Lemma add_items_units repr entries parsed acc totals pid :
  add_items repr entries acc = inr totals → Forall2 (parsed_item repr) entries parsed →
  units_of pid totals = units_of pid acc + units_of pid parsed.
Proof.
  intros E HF. revert acc E.
  induction HF as [|e p entries parsed (entry & -> & Ht & Hq & Hpos & Hp) _ IH]; intros acc E; cbn [add_items] in E.
  - injection E as <-. cbn. lia.
  - rewrite Ht in E. cbn [negb] in E. rewrite Hq in E. rewrite (proj2 (Z.leb_gt _ _) Hpos) in E.
    rewrite (IH _ E), <-Hp, units_of_dict_add. unfold units_of at 4. cbn [sumZ]. unfold units_of. lia.
Qed.

Lemma reserved_units_parsed repr entries parsed totals pid :
  add_items repr entries [] = inr totals → Forall2 (parsed_item repr) entries parsed →
  sumZ (λ i, ite (product_id i =?s pid) (quantity i))
    (map (λ '(p, q), {| product_id := p; quantity := q |}) (sort_by fst totals)) = units_of pid parsed.
Proof.
  intros E HF. rewrite sumZ_map.
  rewrite (sumZ_ext _ (λ p, ite (p.1 =?s pid) p.2)) by (by intros []).
  rewrite (sumZ_perm _ _ _ (sort_by_perm fst totals)). fold (units_of pid totals).
  by rewrite (add_items_units _ _ _ _ _ pid E HF).
Qed.

(** Lines both readings accept have the same product and quantity. *)
Lemma readings_agree repr entries parsed read pid :
  Forall2 (parsed_item repr) entries parsed →
  Forall2 (λ i p, SplitRules.read_line repr i = inr p) (SplitRules.dicts_of entries) read →
  units_of pid parsed =
    sumZ (λ l, ite (SplitRules.product_id l =?s pid) (SplitRules.quantity l)) (map snd read).
Proof.
  intros HF. revert read.
  induction HF as [|e [k q] entries parsed (entry & -> & Ht & Hq & Hpos & Hp) _ IH]; intros read HR; cbn in HR.
  - by inversion HR.
  - inversion HR as [|? [s l] ? read' Hl HR' E1 E2]; subst. apply SplitRules.read_line_fields in Hl as [Hqty Hpid].
    unfold py_int_item in Hqty. cbn [snd fst] in *.
    destruct (dict_get entry "quantity") as [v|]; [|done]. cbn in Hq. unfold id in Hq. subst v.
    cbn in Hqty. injection Hqty as Hqty.
    unfold units_of. cbn [sumZ map fst snd]. fold (units_of pid parsed).
    by rewrite (IH _ HR'), Hpid, <-Hqty, Hp.
Qed.

(** The list of items both components read, before either looks inside. *)
Definition item_list (payload : json) : json :=
  match match payload with JObj d => default (JObj d) (dict_get d "items") | v => v end with
  | JObj d => JList (map (λ '(k, v), JObj [("product_id", JStr k); ("quantity", v)]) d)
  | v => v
  end.

Lemma normalise_item_list payload : SplitRules.normalise_items payload =
  match item_list payload with JList l => SplitRules.dicts_of l | _ => [] end.
Proof.
  unfold SplitRules.normalise_items, item_list. destruct payload as [| | | | | |d]; try done.
  by destruct (dict_get d "items") as [[]|].
Qed.

Lemma plan_item_list repr payload : plan_item_reservations repr payload =
  match item_list payload with
  | JList (e :: es) =>
      match add_items repr (e :: es) [] with
      | inl err => failed_plan err
      | inr totals =>
          {| items := map (λ '(pid, qty), {| product_id := pid; quantity := qty |}) (sort_by fst totals);
             error := None |}
      end
  | _ => failed_plan "EmptyItemsPayload"
  end.
Proof.
  unfold plan_item_reservations, item_list. destruct payload as [| | | | | |d]; try done.
  by destruct (dict_get d "items") as [[]|].
Qed.

Lemma plan_ids_unique repr payload : NoDup (map product_id (items (plan_item_reservations repr payload))).
Proof.
  rewrite plan_item_list. destruct (item_list payload) as [| | | | |[|e es]|]; try apply NoDup_nil_2.
  destruct (add_items repr (e :: es) []) as [err|totals] eqn:E; [apply NoDup_nil_2|]. cbn [items].
  apply add_items_ok in E as (parsed & _ & Hnd & _). specialize (Hnd NoDup_nil_2).
  replace (map product_id _) with (map fst (sort_by fst totals)) by (rewrite map_map; apply map_ext; by intros []).
  by rewrite (Permutation_map fst (sort_by_perm fst totals)).
Qed.

(** What is reserved is what is promised: whenever the dispatcher's plan
    and the order's split by seller both accept a request's items, for every
    product the units reserved equal the units its seller orders are to ship. *)
Theorem reservation_matches_split (repr : json → string) (payload : json)
    (plans : list SplitRules.SellerOrderPlan) (pid : string)
    (Hplan : error (plan_item_reservations repr payload) = None)
    (Hsplit : SplitRules.split_by_seller repr payload = inr plans) :
  reserved_units pid (plan_item_reservations repr payload) = promised_units pid plans.
Proof.
  apply SplitRules.split_lines in Hsplit as (read & HR & Hlines). unfold promised_units.
  rewrite (sumZ_perm _ _ _ Hlines). clear Hlines.
  assert (HR' : Forall2 (λ i p, SplitRules.read_line repr i = inr p)
    (match item_list payload with JList l => SplitRules.dicts_of l | _ => [] end) read)
    by (rewrite <-normalise_item_list; exact HR).
  assert (Hp : ∃ e es totals, item_list payload = JList (e :: es) ∧ add_items repr (e :: es) [] = inr totals ∧
    items (plan_item_reservations repr payload) =
      map (λ '(p, q), {| product_id := p; quantity := q |}) (sort_by fst totals)).
  { rewrite plan_item_list in Hplan |- *. destruct (item_list payload) as [| | | | |[|e es]|]; try done.
    destruct (add_items repr (e :: es) []) as [|totals] eqn:E; [done|]. by exists e, es, totals. }
  destruct Hp as (e & es & totals & Hl & Ha & Hi). rewrite Hl in HR'. unfold reserved_units. rewrite Hi.
  pose proof Ha as Ha'. apply add_items_ok in Ha' as (parsed & HF & _).
  rewrite (reserved_units_parsed _ _ _ _ pid Ha HF). by eapply readings_agree.
Qed.

Definition sample_items : json :=
  JList [SplitRules.sample_line "s2" "p9" 1 500; SplitRules.sample_line "s1" "p3" 2 400;
         SplitRules.sample_line "s3" "p9" 4 90].

Lemma reservation_matches_split_witness :
  ∃ plans, SplitRules.split_by_seller (λ _, "") sample_items = inr plans ∧
    reserved_units "p9" (plan_item_reservations (λ _, "") sample_items) = promised_units "p9" plans ∧
    promised_units "p9" plans = 5.
Proof.
  eexists. split; [vm_compute; reflexivity|]. split.
  - apply reservation_matches_split; vm_compute; reflexivity.
  - vm_compute. reflexivity.
Defined.

(** The dispatcher and the saga speak the same language: every event a
    route can report is one the saga knows and so is never dead-lettered, and
    every command the saga's transitions or its reaper emit has a route, except
    the closing [OrderFailed] announcement, which is an event and not a command
    to carry out. *)
Theorem dispatcher_and_saga_agree :
  (∀ e, e ∈ events_emitted → e ∈ Transitions.KNOWN_EVENT_TYPES) ∧
  (∀ s e pm c, Transitions.command (Transitions.resolve s e pm) = Some c →
     c = "OrderFailed" ∨ is_Some (route_for c)) ∧
  (∀ st c, c ∈ SagaReaper.commands_for st → is_Some (route_for c)).
Proof.
  split_and!.
  - apply Forall_forall. by_compute.
  - intros s e pm c H. destruct (Transitions.outcome (Transitions.resolve s e pm)) eqn:Eo.
    1: destruct (Transitions.resolve_apply _ _ _ _ eq_refl Eo) as (n & c' & _ & E & Hin);
       rewrite H in E; subst c'; destruct Hin as [Hin|[_ Hin]];
       [unfold Transitions.TRANSITIONS in Hin|unfold Transitions.COD_TRANSITIONS in Hin];
       elem_cases Hin; first [by left|right; eexists; reflexivity].
    4: destruct (Transitions.resolve_compensate _ _ _ _ eq_refl Eo) as (_ & E & _ & _);
       rewrite H in E; simplify_eq; right; eexists; reflexivity.
    all: destruct (Transitions.resolve_rejected _ _ _ _ eq_refl ltac:(by rewrite Eo) ltac:(by rewrite Eo))
           as [_ E]; congruence.
  - intros st c H. unfold SagaReaper.commands_for in H.
    repeat (destruct (st =?s _) in H); elem_cases H; eexists; reflexivity.
Qed.

Lemma backoff_base n : 1 ≤ n → RETRY_BASE_US ≤ Z.min RETRY_CAP_US (RETRY_BASE_US * 2 ^ (n - 1)).
Proof.
  intros Hn. apply Z.min_glb; [by vm_compute|].
  assert (1 ≤ 2 ^ (n - 1)) by (change 1 with (2 ^ 0) at 1; apply Z.pow_le_mono_r; lia).
  unfold RETRY_BASE_US. nia.
Qed.

Lemma scaled_bounds d j : 0 ≤ d → 0 ≤ j < 2 ^ 53 → d / 2 ≤ d * (2 ^ 54 - j) / 2 ^ 54 ≤ d.
Proof.
  intros Hd Hj. split.
  - apply Z.div_le_lower_bound; [lia|]. pose proof (Z.mul_div_le d 2 ltac:(lia)).
    change (2 ^ 54) with (2 * 2 ^ 53). nia.
  - apply Z.div_le_upper_bound; [lia|]. nia.
Qed.

(** A retry always comes, later and later, never at once: for every
    attempt number and every jitter draw the delay exists, is at least half and
    at most the whole of the doubling schedule, which starts at two seconds,
    never shrinks and is capped at five minutes; the numbers below one and the
    fractions outside the unit interval are refused. *)
Theorem backoff_is_bounded (n j : Z) :
  (1 ≤ n → 0 ≤ j < 2 ^ 53 →
     let delay k := Z.min RETRY_CAP_US (RETRY_BASE_US * 2 ^ (k - 1)) in
     ∃ us, backoff_us n j = Some us ∧ delay n / 2 ≤ us ≤ delay n ∧
       1000000 ≤ us ≤ RETRY_CAP_US ∧ delay n ≤ delay (n + 1) ∧ (9 ≤ n → delay n = RETRY_CAP_US)) ∧
  (n < 1 ∨ j < 0 ∨ 2 ^ 53 ≤ j → backoff_us n j = None).
Proof.
  split.
  - intros Hn Hj delay. unfold backoff_us.
    rewrite (proj2 (Z.ltb_ge _ _)), (proj2 (Z.leb_le _ _)), (proj2 (Z.ltb_lt _ _)) by lia. cbn [andb negb].
    fold (delay n). pose proof (backoff_base n Hn) as Hb. fold (delay n) in Hb.
    assert (H0 : 0 ≤ delay n) by (unfold RETRY_BASE_US in Hb; lia).
    pose proof (scaled_bounds (delay n) j H0 Hj) as Hs.
    assert (Hcap : delay n ≤ RETRY_CAP_US) by apply Z.le_min_l.
    assert (Hhalf : 1000000 ≤ delay n / 2).
    { apply Z.div_le_lower_bound; [lia|]. unfold RETRY_BASE_US in Hb. lia. }
    eexists. split; [done|]. split_and!; try lia.
    + unfold delay. apply Z.min_le_compat_l. apply Z.mul_le_mono_nonneg_l; [by vm_compute|].
      apply Z.pow_le_mono_r; lia.
    + intros H9. unfold delay. apply Z.min_l.
      assert (2 ^ 8 ≤ 2 ^ (n - 1)) by (apply Z.pow_le_mono_r; lia).
      unfold RETRY_CAP_US, RETRY_BASE_US. change (2 ^ 8) with 256 in *. lia.
  - intros H. unfold backoff_us. destruct (n <? 1) eqn:E; [done|]. bool_to_prop.
    destruct ((0 <=? j) && (j <? 2 ^ 53)) eqn:E2; [|done]. bool_to_prop. lia.
Qed.
End DispatchRules.
