(* ===== verification/Dispatcher.v ===== *)
(** * The saga dispatcher (workers/saga-dispatcher, main.py)

    The claim, work and settle phases.  [OutboxQueue] is the dispatcher's half of
    [order_db]: the outbox rows it claims and settles, and the events it recorded
    as processed.  [Dispatcher] translates a command into calls of the services.

    A call goes through the target's circuit breaker and bulkhead and then over
    the network.  Both are an interface, [Gateway], over a state [W] that stands
    for everything outside the worker, so that the theorems hold for whatever the
    breaker decides and the services answer; a service's own definitions give an
    instance.  Times are microseconds. *)

From stdpp Require Import sorting.
From S2P Require Import Prelude PyValue Session OrderDb DispatchRules.
Import OrderDb DispatchRules.

(** ** Claiming and settling rows *)

Module OutboxQueue.

Definition CONSUMER_NAME := "saga-dispatcher".
Definition BATCH_SIZE : nat := 20.
Definition CLAIM_LEASE_US : Z := 120 * 1000000.

Record queue := {
  rows : list OutboxRow;
  processed_events : list string;
}.

Definition with_rows (f : list OutboxRow → list OutboxRow) (q : queue) : queue :=
  {| rows := f (rows q); processed_events := processed_events q |}.

Definition with_events (f : list string → list string) (q : queue) : queue :=
  {| rows := rows q; processed_events := f (processed_events q) |}.

Definition is_none {A} (o : option A) : bool := match o with None => true | Some _ => false end.

(** The [WHERE] of [CLAIM_SQL]. *)
Definition claimable (now : Z) (r : OutboxRow) : bool :=
  (aggregate_type (ob_msg r) in_ ["OrderSaga"; "SellerOrder"]) &&
  is_none (ob_processed_at r) &&
  is_none (ob_parked_at r) &&
  match ob_next_attempt_at r with None => true | Some t => t <=? now end &&
  (ends_with "Command" (msg_type (ob_msg r)) || (msg_type (ob_msg r) =?s "SagaTimedOut")) &&
  match ob_claimed_at r with None => true | Some t => t <? now - CLAIM_LEASE_US end.

Definition older (r r' : OutboxRow) : bool :=
  msg_created_at (ob_msg r) <=? msg_created_at (ob_msg r').

Definition set_claim (now : Z) (who : string) (r : OutboxRow) : OutboxRow :=
  {| ob_id := ob_id r; ob_msg := ob_msg r; ob_processed_at := ob_processed_at r;
     ob_claimed_at := Some now; ob_claimed_by := Some who; ob_attempts := ob_attempts r;
     ob_next_attempt_at := ob_next_attempt_at r; ob_parked_at := ob_parked_at r;
     ob_last_error := ob_last_error r |}.

(** The columns a claim returns. *)
Record claimed := {
  c_id : string;
  c_type : string;
  c_payload : list (string * json);
  c_attempts : Z;
  c_was_stale : bool;
}.

(** [RETURNING]: it reads the row as updated. *)
Definition returned (who : string) (r : OutboxRow) : claimed :=
  {| c_id := ob_id r; c_type := msg_type (ob_msg r); c_payload := payload (ob_msg r);
     c_attempts := ob_attempts r;
     c_was_stale := negb (bool_decide (ob_claimed_by r = Some who)) |}.

(** The CTE: eligible rows nobody else has locked, oldest first. *)
Definition selected (locked : string → bool) (now : Z) (q : queue) : list OutboxRow :=
  take BATCH_SIZE (sort_le older
    (List.filter (λ r, claimable now r && negb (locked (ob_id r))) (rows q))).

Definition claim_batch (locked : string → bool) (now : Z) (who : string) (q : queue)
    : queue * list claimed :=
  let ids := map ob_id (selected locked now q) in
  (with_rows (update_where (λ r, ob_id r in_ ids) (set_claim now who)) q,
   map (λ r, returned who (set_claim now who r)) (selected locked now q)).

Definition set_processed (now : Z) (r : OutboxRow) : OutboxRow :=
  {| ob_id := ob_id r; ob_msg := ob_msg r; ob_processed_at := Some now;
     ob_claimed_at := ob_claimed_at r; ob_claimed_by := ob_claimed_by r;
     ob_attempts := ob_attempts r; ob_next_attempt_at := ob_next_attempt_at r;
     ob_parked_at := ob_parked_at r; ob_last_error := ob_last_error r |}.

Definition mark_processed (msg_id : string) (now : Z) : queue → queue :=
  with_rows (update_where (λ r, ob_id r =?s msg_id) (set_processed now)).

Definition error_text (error : option string) : string := take_chars 500 (default "" error).

Definition set_deferred (delay : Z) (error : option string) (count_attempt : bool) (now : Z)
    (r : OutboxRow) : OutboxRow :=
  {| ob_id := ob_id r; ob_msg := ob_msg r; ob_processed_at := ob_processed_at r;
     ob_claimed_at := None; ob_claimed_by := None;
     ob_attempts := ob_attempts r + (if count_attempt then 1 else 0);
     ob_next_attempt_at := Some (now + delay); ob_parked_at := ob_parked_at r;
     ob_last_error := Some (error_text error) |}.

Definition defer_claim (msg_id : string) (delay : Z) (error : option string) (count_attempt : bool)
    (now : Z) : queue → queue :=
  with_rows (update_where (λ r, ob_id r =?s msg_id) (set_deferred delay error count_attempt now)).

Definition set_parked (error : option string) (now : Z) (r : OutboxRow) : OutboxRow :=
  {| ob_id := ob_id r; ob_msg := ob_msg r; ob_processed_at := ob_processed_at r;
     ob_claimed_at := None; ob_claimed_by := None; ob_attempts := ob_attempts r + 1;
     ob_next_attempt_at := ob_next_attempt_at r; ob_parked_at := Some now;
     ob_last_error := Some (error_text error) |}.

Definition park_claim (msg_id : string) (error : option string) (now : Z) : queue → queue :=
  with_rows (update_where (λ r, ob_id r =?s msg_id) (set_parked error now)).

(** [INSERT ... ON CONFLICT DO NOTHING RETURNING]: was it new? *)
Definition record_processed_event (msg_id : string) (q : queue) : queue * bool :=
  if msg_id in_ processed_events q then (q, false)
  else (with_events (λ es, es ++ [msg_id]) q, true).

Definition forget_processed_event (msg_id : string) : queue → queue :=
  with_events (List.filter (λ e, negb (e =?s msg_id))).

(** ** The [/parked] endpoint: total, claimable backlog, newest parked first *)

Definition parked_later (r r' : OutboxRow) : bool :=
  default 0 (ob_parked_at r') <=? default 0 (ob_parked_at r).

Definition parked (limit : nat) (q : queue) : Z * Z * list OutboxRow :=
  let is_parked r := negb (is_none (ob_parked_at r)) in
  (Z.of_nat (length (List.filter is_parked (rows q))),
   Z.of_nat (length (List.filter (λ r, is_none (ob_processed_at r) && is_none (ob_parked_at r) &&
     (ends_with "Command" (msg_type (ob_msg r)) || (msg_type (ob_msg r) =?s "SagaTimedOut"))) (rows q))),
   take limit (sort_le parked_later (List.filter is_parked (rows q)))).

(** ** What a claim does *)

Lemma selected_perm locked now q : ∃ rest,
  List.filter (λ r, claimable now r && negb (locked (ob_id r))) (rows q) ≡ₚ selected locked now q ++ rest ∧
  ∀ r r', r ∈ selected locked now q → r' ∈ rest →
    length (selected locked now q) = BATCH_SIZE ∧ msg_created_at (ob_msg r) ≤ msg_created_at (ob_msg r').
Proof.
  unfold selected. set (l := List.filter _ (rows q)). exists (drop BATCH_SIZE (sort_le older l)). split.
  - by rewrite take_drop, sort_le_perm.
  - intros r r' Hr Hr'. split.
    + rewrite length_take. apply Nat.min_l.
      destruct (decide (BATCH_SIZE ≤ length (sort_le older l))%nat) as [|Hlt]; [done|].
      rewrite drop_ge in Hr' by lia. by apply not_elem_of_nil in Hr'.
    + apply Z.leb_le. change (in_order older r r').
      assert (Hs : StronglySorted (in_order older) (sort_le older l)).
      { apply Sorted_StronglySorted.
        - intros x y z Hxy Hyz. unfold in_order, older in *. bool_to_prop. apply Z.leb_le. lia.
        - apply sort_le_sorted. intros x y. unfold older. intros ?%Z.leb_gt. apply Z.leb_le. lia. }
      rewrite <-(take_drop BATCH_SIZE (sort_le older l)) in Hs. by eapply StronglySorted_app_1_elem_of.
Qed.

Lemma selected_elem locked now q r :
  r ∈ selected locked now q → r ∈ rows q ∧ claimable now r = true ∧ locked (ob_id r) = false.
Proof.
  intros Hr. destruct (selected_perm locked now q) as (rest & Hp & _).
  assert (H : r ∈ List.filter (λ r, claimable now r && negb (locked (ob_id r))) (rows q))
    by (rewrite Hp; apply elem_of_app; by left).
  apply elem_of_filter_bool in H as [H1 H2]. by bool_to_prop.
Qed.

(** A row under a live claim is not eligible. *)
Lemma claimed_not_claimable now now' who r :
  now' ≤ now + CLAIM_LEASE_US → claimable now' (set_claim now who r) = false.
Proof.
  intros H. unfold claimable. cbn [set_claim ob_claimed_at].
  rewrite (proj2 (Z.ltb_ge now _)) by lia. by rewrite andb_false_r.
Qed.

(** C27 — A claim is exclusive and fair: it takes at most twenty rows, each of
    them due, undone, unparked and unlocked; it leaves an eligible row behind
    only when the batch is full and nothing older was left out; it changes no
    other row; and until the lease has run out no other claim, by whichever
    worker and at whatever time, returns any of its rows.  No row is ever
    reported as taken over from a dead worker. *)
Theorem claim_is_exclusive_and_fair (locked : string → bool) (now : Z) (who : string) (q : queue)
    (Hids : NoDup (map ob_id (rows q))) :
  let (q', batch) := claim_batch locked now who q in
  (length batch ≤ BATCH_SIZE)%nat ∧
  (∀ c, c ∈ batch → c_was_stale c = false ∧
     ∃ r, r ∈ rows q ∧ claimable now r = true ∧ locked (ob_id r) = false ∧ c = returned who (set_claim now who r)) ∧
  (∀ r, r ∈ rows q → claimable now r = true → locked (ob_id r) = false →
     ob_id r ∈ map c_id batch ∨
     length batch = BATCH_SIZE ∧
     ∀ r', r' ∈ rows q → ob_id r' ∈ map c_id batch → msg_created_at (ob_msg r') ≤ msg_created_at (ob_msg r)) ∧
  (∀ r, r ∈ rows q → ob_id r ∉ map c_id batch → r ∈ rows q') ∧
  (∀ locked' now' who' c c', now' ≤ now + CLAIM_LEASE_US →
     c ∈ batch → c' ∈ (claim_batch locked' now' who' q').2 → c_id c ≠ c_id c').
Proof.
  unfold claim_batch. set (sel := selected locked now q).
  assert (Hcid : map c_id (map (λ r, returned who (set_claim now who r)) sel) = map ob_id sel)
    by (rewrite map_map; by apply map_ext). rewrite Hcid. clear Hcid.
  assert (Hsel : ∀ r, r ∈ rows q → ob_id r ∈ map ob_id sel → r ∈ sel).
  { intros r Hr (r' & E & Hr')%elem_of_map. by rewrite (map_key_inj ob_id (rows q) r r' Hids Hr (proj1 (selected_elem _ _ _ _ Hr')) E). }
  split_and!.
  - rewrite length_map. unfold sel, selected. rewrite length_take. lia.
  - intros c (r & -> & Hr)%elem_of_map. split; [cbn; by rewrite bool_decide_true|].
    apply selected_elem in Hr as (? & ? & ?). by exists r.
  - intros r Hr Hc Hl. destruct (selected_perm locked now q) as (rest & Hp & Hfair). fold sel in Hp, Hfair.
    assert (Hin : r ∈ sel ++ rest) by (rewrite <-Hp; apply elem_of_filter_bool; by rewrite Hc, Hl).
    apply elem_of_app in Hin as [Hin|Hin]; [left; apply elem_of_map; by exists r|].
    destruct sel as [|r0 sel'] eqn:Es.
    + right. exfalso. assert (Hnil : selected locked now q = []) by exact Es.
      unfold selected in Hnil. apply (f_equal length) in Hnil. rewrite length_take in Hnil.
      rewrite (Permutation_length (sort_le_perm _ _)), (Permutation_length Hp) in Hnil.
      destruct rest; [by apply not_elem_of_nil in Hin|]. by rewrite length_app in Hnil.
    + right. split; [rewrite length_map; by apply (Hfair r0 r); [left|]|].
      intros r' Hr' Hx. by apply Hfair; [apply Hsel|].
  - intros r Hr Hx. cbn [with_rows rows]. apply elem_of_map. exists r. split; [|done].
    unfold in_listb. by rewrite bool_decide_false.
  - intros locked' now' who' c c' Hnow (r & -> & Hr)%elem_of_map (r' & -> & Hr')%elem_of_map.
    apply selected_elem in Hr' as (Hr' & Hc & _). cbn [with_rows rows] in Hr'.
    apply elem_of_map in Hr' as (x & -> & Hx). cbn [returned c_id set_claim ob_id].
    intros E. assert (Ex : ob_id x in_ map ob_id sel = true).
    { apply bool_decide_true, elem_of_map. exists r. split; [|done]. by destruct (ob_id x in_ map ob_id sel). }
    rewrite Ex in Hc. by rewrite claimed_not_claimable in Hc.
Qed.

(** A queue of one command and of one announcement that is not a command. *)
Definition sample_row (i ty : string) : OutboxRow :=
  new_row i (message "OrderSaga" "o1" ty [("order_id", JStr "o1")] 5).

Definition sample_queue : queue :=
  {| rows := [sample_row "m1" "ConfirmOrderCommand"; sample_row "m2" "OrderCreated"]; processed_events := [] |}.

Lemma claim_is_exclusive_and_fair_witness :
  NoDup (map ob_id (rows sample_queue)) ∧
  map c_id (claim_batch (λ _, false) 9 "w" sample_queue).2 = ["m1"] ∧
  ∀ now' who' c', now' ≤ 9 + CLAIM_LEASE_US →
    c' ∈ (claim_batch (λ _, false) now' who' (claim_batch (λ _, false) 9 "w" sample_queue).1).2 → "m1" ≠ c_id c'.
Proof.
  assert (Hids : NoDup (map ob_id (rows sample_queue))) by by_compute.
  split; [exact Hids|]. split; [reflexivity|]. intros now' who' c' Hnow Hc'.
  destruct (claim_is_exclusive_and_fair (λ _, false) 9 "w" sample_queue Hids) as (_ & _ & _ & _ & H).
  refine (H (λ _, false) now' who' (returned "w" (set_claim 9 "w" (sample_row "m1" "ConfirmOrderCommand"))) c' Hnow _ Hc').
  vm_compute. left.
Defined.

End OutboxQueue.

(** ** Working a command *)

(** Why a call did not return a response: the breaker or the bulkhead refused it,
    or anything else was raised (the text as [process_one] reports it). *)
Inductive call_error := Shed (text : string) | Failed (text : string).

(** What lies beyond the worker. *)
Class Gateway (W : Type) := {
  (** admission by the target's breaker and bulkhead; the text of the refusal *)
  before_call : string → W → W * option string;
  (** [_client.post(url, json=payload, headers={"Idempotency-Key": key})]:
      the exception's text, or status and body *)
  send : string → json → string → W → W * (string + Z * string);
  (** the breaker learns how the call went *)
  report : string → bool → W → W;
  (** text of the exception of [raise_for_status] *)
  status_error : string → Z → string;
}.

Module Dispatcher.
Import OutboxQueue.

Definition SAGA_URL := "http://order-saga:8012/orders".
Definition INVENTORY_URL := "http://inventory-service:8013/inventory".
Definition PAYMENT_URL := "http://payment-service:8015/payments".

(** [s.rsplit(sep, 1)[0]] *)
Fixpoint before_last (sep s : string) : option string :=
  match s with
  | EmptyString => if sep =?s "" then Some "" else None
  | String c s' =>
      match before_last sep s' with
      | Some p => Some (String c p)
      | None => if starts_with sep s then Some "" else None
      end
  end.

Definition PAYMENT_BASE_URL := default PAYMENT_URL (before_last "/payments" PAYMENT_URL).

(** The worker's counters and the world it calls. *)
Record local (W : Type) := Local { world : W; stats : list (string * Z) }.
Arguments Local {_} _ _.
Arguments world {_} _.
Arguments stats {_} _.

Definition act (W A : Type) : Type := local W → local W * (call_error + A).

Definition done {W A} (a : A) : act W A := λ s, (s, inr a).
Definition fail {W A} (e : call_error) : act W A := λ s, (s, inl e).

Definition andthen {W A B} (m : act W A) (k : A → act W B) : act W B :=
  λ s, match m s with (s', inr a) => k a s' | (s', inl e) => (s', inl e) end.

(** [_stats[k] += 1] *)
Definition count (k : string) (st : list (string * Z)) : list (string * Z) :=
  dict_set st k (default 0 (dict_get st k) + 1).

Definition tally {W} (k : string) : act W unit := λ s, (Local (world s) (count k (stats s)), inr tt).

Notation "x <~ c ;; k" := (andthen c (λ x, k)) (at level 100, c at next level, right associativity).

Section work.
Context {W : Type} `{Gateway W} (repr : json → string).

Definition lift {A} (f : W → W * A) : act W A :=
  λ s, let (w, a) := f (world s) in (Local w (stats s), inr a).

Definition _post (target url : string) (payload : json) (idem_key : string) : act W (Z * string) :=
  refused <~ lift (before_call target) ;;
  match refused with
  | Some text => fail (Shed text)
  | None =>
      res <~ lift (send url payload idem_key) ;;
      match res with
      | inl text => _ <~ lift (λ w, (report target false w, tt)) ;; fail (Failed text)
      | inr (status, body) =>
          if 500 <=? status
          then _ <~ lift (λ w, (report target false w, tt)) ;; fail (Failed (status_error url status))
          else _ <~ lift (λ w, (report target true w, tt)) ;; done (status, body)
      end
  end.

Definition _from_status (status_code : Z) (error : string) : Outcome :=
  match classify_command_failure (Some status_code) with
  | SETTLE => SETTLED
  | PARK => park error
  | RETRY => retry error
  end.

Definition _advance_saga (order_id : json) (event_type idem_key : string) (payload : json)
    : act W Outcome :=
  res <~ _post "order-saga" (SAGA_URL +:+ "/" +:+ py_str repr order_id +:+ "/events")
           (JObj [("event_type", JStr event_type);
                  ("payload", if truthy payload then payload else JObj [])]) idem_key ;;
  let ack := classify_saga_response res.1 in
  _ <~ tally (match ack with
              | APPLIED => "advanced" | DEFERRED => "deferred"
              | DEAD_LETTERED => "dead_lettered" | ACK_ERROR => "errors" end) ;;
  if settles ack then done SETTLED
  else done (retry ("saga answered " +:+ dec res.1 +:+ " to " +:+ event_type)).

(** The loop over the planned reservations: every line, or undo and report. *)
Fixpoint reserve_lines (msg_id : string) (order_id : json) (plan : list ItemReservation) : act W Outcome :=
  match plan with
  | [] => _advance_saga order_id "InventoryReserved" ("inv-res-" +:+ msg_id) JNull
  | reservation :: rest =>
      res <~ _post "inventory-service" (INVENTORY_URL +:+ "/reserve")
               (JObj [("product_id", JStr (product_id reservation));
                      ("quantity", JInt (quantity reservation)); ("order_id", order_id)])
               (reservation_idempotency_key msg_id (product_id reservation)) ;;
      if res.1 =? 200 then reserve_lines msg_id order_id rest
      else
        rollback <~ _post "inventory-service" (INVENTORY_URL +:+ "/release")
                      (JObj [("order_id", order_id)]) ("inv-rb-" +:+ msg_id) ;;
        if negb (rollback.1 =? 200)
        then done (retry ("partial reservation release returned " +:+ dec rollback.1))
        else _advance_saga order_id "InventoryReservationFailed" ("inv-fail-" +:+ msg_id)
               (JObj [("reason", JStr "InsufficientStock");
                      ("product_id", JStr (product_id reservation)); ("status_code", JInt res.1)])
  end.

Definition or_default (v d : json) : json := if truthy v then v else d.

Definition handle (msg_id msg_type : string) (payload : list (string * json)) : act W Outcome :=
  let order_id := obj_get payload "order_id" in
  if negb (truthy order_id) then done SETTLED
  else if msg_type =?s "ReserveInventoryCommand" then
    let plan := plan_item_reservations repr (default (JList []) (dict_get payload "items_payload")) in
    match error plan with
    | Some e => _advance_saga order_id "InventoryReservationFailed" ("inv-fail-" +:+ msg_id)
                  (JObj [("reason", JStr e)])
    | None => reserve_lines msg_id order_id (items plan)
    end
  else if msg_type =?s "ChargePaymentCommand" then
    res <~ _post "payment-service" (PAYMENT_URL +:+ "/charge")
             (JObj [("order_id", order_id); ("user_id", obj_get payload "user_id");
                    ("amount_cents", obj_get payload "amount_cents")]) msg_id ;;
    if res.1 =? 201 then _advance_saga order_id "PaymentCharged" ("pay-chg-" +:+ msg_id) JNull
    else _advance_saga order_id "PaymentFailed" ("pay-fail-" +:+ msg_id)
           (JObj [("reason", JStr ("HTTP " +:+ dec res.1))])
  else if msg_type =?s "RefundPaymentCommand" then
    res <~ _post "payment-service" (PAYMENT_URL +:+ "/refund")
             (JObj [("order_id", order_id); ("user_id", obj_get payload "user_id");
                    ("reason", default (JStr "SagaCompensation") (dict_get payload "reason"))]) msg_id ;;
    if res.1 =? 200 then _advance_saga order_id "PaymentRefunded" ("pay-ref-" +:+ msg_id) JNull
    else done (_from_status res.1 ("refund returned " +:+ dec res.1))
  else if msg_type in_ ["ReleaseInventoryCommand"; "CompensateInventoryCommand"] then
    res <~ _post "inventory-service" (INVENTORY_URL +:+ "/release") (JObj [("order_id", order_id)]) msg_id ;;
    if res.1 =? 200 then _advance_saga order_id "InventoryReleased" ("inv-rel-" +:+ msg_id) JNull
    else done (_from_status res.1 ("release returned " +:+ dec res.1))
  else if msg_type in_ ["ReleaseSellerOrderInventoryCommand"; "ConsumeSellerOrderInventoryCommand"] then
    let endpoint := if starts_with "Release" msg_type then "release" else "consume" in
    res <~ _post "inventory-service" (INVENTORY_URL +:+ "/" +:+ endpoint)
             (JObj [("order_id", order_id);
                    ("product_ids", or_default (obj_get payload "product_ids") JNull)]) msg_id ;;
    if res.1 =? 200 then done SETTLED
    else done (_from_status res.1 ("seller order inventory " +:+ endpoint +:+ " returned " +:+ dec res.1))
  else if msg_type =?s "BookEscrowDeliveryCommand" then
    res <~ _post "payment-service" (PAYMENT_BASE_URL +:+ "/escrow/delivery")
             (JObj [("seller_id", obj_get payload "seller_id");
                    ("seller_order_id", obj_get payload "seller_order_id");
                    ("collected_cents", obj_get payload "collected_cents");
                    ("currency", default (JStr "BDT") (dict_get payload "currency"))]) msg_id ;;
    if res.1 =? 200 then done SETTLED
    else done (_from_status res.1 ("escrow booking returned " +:+ dec res.1 +:+ ": " +:+
                                   take_chars 160 res.2))
  else if msg_type =?s "ConfirmOrderCommand" then
    _advance_saga order_id "OrderCompleted" ("ord-cmp-" +:+ msg_id) JNull
  else done SETTLED.

(** ** One claimed row *)

Record state := { db : queue; out : local W }.

Definition bump (ks : list string) (l : local W) : local W :=
  Local (world l) (foldl (λ st k, count k st) (stats l) ks).

(** The attempt itself: the outcome, and whether it was shed. *)
Definition attempt (row : claimed) (l : local W) : local W * (Outcome * bool) :=
  match handle (c_id row) (c_type row) (c_payload row) l with
  | (l', inr outcome) => (l', (outcome, false))
  | (l', inl (Shed exc)) => (bump ["short_circuited"] l', (retry ("shed: " +:+ exc), true))
  | (l', inl (Failed exc)) => (bump ["errors"] l', (retry exc, false))
  end.

(** [j] is the jitter draw and [now] the time at which the row is settled. *)
Definition process_one (j now : Z) (row : claimed) (s : state) : state * bool :=
  let l := if c_was_stale row then bump ["reclaimed"] (out s) else out s in
  let (q, first_time) := record_processed_event (c_id row) (db s) in
  if negb first_time then ({| db := mark_processed (c_id row) now q; out := l |}, true)
  else
    let '(l, (outcome, shed)) := attempt row (bump ["claimed"] l) in
    if settled outcome then ({| db := mark_processed (c_id row) now q; out := l |}, true)
    else
      let q := forget_processed_event (c_id row) q in
      let attempts := c_attempts row + (if shed : bool then 0 else 1) in
      match disposition_after (disposition outcome) attempts with
      | PARK => ({| db := park_claim (c_id row) (o_error outcome) now q; out := bump ["parked"] l |}, true)
      | _ =>
          let delay := default 0 (backoff_us (Z.max 1 attempts) j) in
          ({| db := defer_claim (c_id row) delay (o_error outcome) (negb shed) now q;
              out := bump ["deferred_backoff"] l |}, false)
      end.

(** One claimed batch, its rows worked one after the other; did any settle? *)
Fixpoint process_batch (js : nat → Z) (now : Z) (batch : list claimed) (s : state) : state * bool :=
  match batch with
  | [] => (s, false)
  | row :: rest =>
      let (s1, r1) := process_one (js 0%nat) now row s in
      let (s2, r2) := process_batch (λ n, js (S n)) now rest s1 in
      (s2, r1 || r2)
  end.

(** One tick of [dispatch_loop]: drain while batches settle something. *)
Fixpoint dispatch_tick (fuel : nat) (locked : string → bool) (who : string) (js : nat → Z) (now : Z)
    (s : state) : state :=
  let (q, batch) := claim_batch locked now who (db s) in
  let s := {| db := q; out := out s |} in
  match fuel, batch with
  | O, _ | _, [] => s
  | S n, _ =>
      let (s', progress) := process_batch js now batch s in
      if progress : bool then dispatch_tick n locked who js now s' else s'
  end.
End work.

(** ** Every attempt ends one of three ways *)

Lemma forget_recorded (i : string) (q : queue) :
  i ∉ processed_events q → forget_processed_event i (with_events (λ es, es ++ [i]) q) = q.
Proof.
  intros Hi. unfold forget_processed_event, with_events. destruct q as [rs es]. cbn in *. f_equal.
  rewrite List.filter_app. cbn. rewrite bool_decide_true by done. cbn. rewrite app_nil_r.
  apply filter_all. intros e He. rewrite bool_decide_false; [done|]. by intros ->.
Qed.

Lemma backoff_delay (n j : Z) : 1 ≤ n → 0 ≤ j < 2 ^ 53 →
  ∃ us, backoff_us n j = Some us ∧ 1000000 ≤ us ≤ RETRY_CAP_US.
Proof.
  intros Hn Hj. unfold backoff_us.
  rewrite (proj2 (Z.ltb_ge _ _)), (proj2 (Z.leb_le _ _)), (proj2 (Z.ltb_lt _ _)) by lia. cbn [andb negb].
  pose proof (backoff_base n Hn) as Hb. set (d := Z.min RETRY_CAP_US _) in *.
  assert (Hd : RETRY_BASE_US ≤ d ≤ RETRY_CAP_US) by (split; [done|apply Z.le_min_l]).
  unfold RETRY_BASE_US in Hd. pose proof (scaled_bounds d j ltac:(lia) Hj) as Hs.
  assert (1000000 ≤ d / 2) by (apply Z.div_le_lower_bound; lia). eexists. split; [done|]. lia.
Qed.

(** How the row [r] may be left: [r'] is the row, [settled] what the attempt reports. *)
Inductive disposed (outcome : Outcome) (shed : bool) (now : Z) (r : OutboxRow) : OutboxRow → bool → Prop :=
| disposed_done :
    disposition outcome = SETTLE → disposed outcome shed now r (set_processed now r) true
| disposed_parked :
    disposition outcome = PARK ∨
      disposition outcome = RETRY ∧ MAX_ATTEMPTS ≤ ob_attempts r + (if shed then 0 else 1) →
    disposed outcome shed now r (set_parked (o_error outcome) now r) true
| disposed_deferred delay :
    disposition outcome = RETRY →
    1000000 ≤ delay ≤ RETRY_CAP_US →
    ob_attempts r + (if shed then 0 else 1) < MAX_ATTEMPTS →
    disposed outcome shed now r (set_deferred delay (o_error outcome) (negb shed) now r) false.

Lemma process_one_disposed {W} `{Gateway W} repr j now who r (s : state (W := W)) :
  ob_id r ∉ processed_events (db s) → 0 ≤ j < 2 ^ 53 → 0 ≤ ob_attempts r →
  ∃ outcome shed f l r', process_one repr j now (returned who r) s =
    ({| db := {| rows := update_where (λ x, ob_id x =?s ob_id r) f (rows (db s));
                 processed_events := processed_events (db s) ++
                   (if settled outcome then [ob_id r] else []) |};
        out := l |}, r') ∧ disposed outcome shed now r (f r) r'.
Proof.
  intros Hnew Hj Ha. unfold process_one. cbn [returned c_id c_attempts].
  unfold record_processed_event, in_listb. rewrite bool_decide_false by done. cbn [negb].
  destruct (attempt _ _ _) as [l [outcome shed]]. exists outcome, shed.
  destruct (settled outcome) eqn:Es.
  - exists (set_processed now), l, true. split; [done|]. constructor. by apply bool_decide_eq_true in Es.
  - rewrite forget_recorded, app_nil_r by done. unfold settled in Es. apply bool_decide_eq_false in Es.
    unfold disposition_after. destruct (disposition outcome) eqn:Ed; [done| |].
    + rewrite bool_decide_true by done. cbn [andb].
      destruct (MAX_ATTEMPTS <=? _) eqn:Em; bool_to_prop.
      * eexists (set_parked (o_error outcome) now), _, true. split; [reflexivity|]. constructor. auto.
      * destruct (backoff_delay (Z.max 1 (ob_attempts r + (if shed then 0 else 1))) j) as (us & Eus & Hus); [lia|done|].
        rewrite Eus. eexists (set_deferred us (o_error outcome) (negb shed) now), _, false.
        split; [reflexivity|]. by constructor.
    + rewrite bool_decide_false by done. cbn [andb].
      eexists (set_parked (o_error outcome) now), _, true. split; [reflexivity|]. constructor. auto.
Qed.

(** No command is lost by an attempt, and none blocks the queue: whatever
    the services and the breakers do, working a claimed command for the first
    time leaves its row processed (and then its event recorded, for good), or
    parked (refused, or out of attempts), or claimable again after one second to
    five minutes with fewer than fifteen counted attempts, a shed call not
    counting; in the last two cases no record is left that would answer the retry
    as a duplicate.  Every other row is untouched. *)
Theorem attempt_is_accounted {W} `{Gateway W} (repr : json → string) (j now : Z) (who : string)
    (r : OutboxRow) (s : state (W := W))
    (Hids : NoDup (map ob_id (rows (db s)))) (Hr : r ∈ rows (db s))
    (Hnew : ob_id r ∉ processed_events (db s)) (Hj : 0 ≤ j < 2 ^ 53) (Hatt : 0 ≤ ob_attempts r) :
  let (s', progress) := process_one repr j now (returned who r) s in
  (∀ x, x ∈ rows (db s) → x ≠ r → x ∈ rows (db s')) ∧
  ∃ r', r' ∈ rows (db s') ∧ ob_id r' = ob_id r ∧ ob_msg r' = ob_msg r ∧
    ((ob_processed_at r' = Some now ∧ progress = true ∧ (∀ t, claimable t r' = false) ∧
      processed_events (db s') = processed_events (db s) ++ [ob_id r]) ∨
     (ob_processed_at r' = ob_processed_at r ∧ ob_parked_at r' = Some now ∧ progress = true ∧
      (∀ t, claimable t r' = false) ∧ processed_events (db s') = processed_events (db s)) ∨
     (ob_processed_at r' = ob_processed_at r ∧ ob_parked_at r' = ob_parked_at r ∧ progress = false ∧
      ob_attempts r ≤ ob_attempts r' < MAX_ATTEMPTS ∧ ob_claimed_at r' = None ∧
      processed_events (db s') = processed_events (db s) ∧
      ∃ due, ob_next_attempt_at r' = Some due ∧ now + 1000000 ≤ due ≤ now + RETRY_CAP_US ∧
        ∀ t, t < due → claimable t r' = false)).
Proof.
  destruct (process_one_disposed repr j now who r s Hnew Hj Hatt) as (outcome & shed & f & l & b & -> & Hd).
  cbn [db rows processed_events]. split.
  - intros x Hx Hne. apply elem_of_map. exists x. split; [|done]. rewrite bool_decide_false; [done|].
    intros E. by apply Hne, (map_key_inj ob_id (rows (db s))).
  - exists (f r). split; [apply elem_of_map; exists r; by rewrite bool_decide_true|].
    inversion Hd as [Ho E1 E2|Ho E1 E2|delay Ho Hdel Ha E1 E2].
    + split_and!; [done..|]. left. unfold settled. rewrite Ho. split_and!; try done.
      intros t. unfold claimable. cbn. by rewrite andb_false_r.
    + split_and!; [done..|]. right; left. unfold settled. split_and!; try done.
      * intros t. unfold claimable. cbn. by rewrite !andb_false_r.
      * destruct Ho as [-> |[-> _]]; by rewrite app_nil_r.
    + split_and!; [done..|]. right; right. unfold settled. rewrite Ho. cbn [app bool_decide].
      split_and!; try done; [destruct shed; cbn; lia|destruct shed; cbn in *; lia|by rewrite app_nil_r|].
      eexists. split; [done|]. split; [lia|]. intros t Ht. unfold claimable. cbn.
      rewrite (proj2 (Z.leb_gt _ _)) by lia. by rewrite andb_false_r.
Qed.

(** A crash loses the command: if the worker stops after recording a
    claimed command and before settling it, the row becomes claimable again when
    the lease runs out, but the next worker finds it recorded, calls nobody, and
    marks it processed. *)
Theorem crash_after_record_loses_command {W} `{Gateway W} (repr : json → string) (locked : string → bool)
    (now now' j : Z) (who who' : string) (q : queue) (l : local W) (r : OutboxRow)
    (Hids : NoDup (map ob_id (rows q))) (Hr : r ∈ rows q) (Hc : claimable now r = true)
    (Hbatch : ob_id r ∈ map c_id (claim_batch locked now who q).2)
    (Hnew : ob_id r ∉ processed_events q) (Hlease : now + CLAIM_LEASE_US < now') :
  let crashed := (record_processed_event (ob_id r) (claim_batch locked now who q).1).1 in
  let r1 := set_claim now who r in
  r1 ∈ rows crashed ∧ claimable now' r1 = true ∧
  ∀ locked' : string → bool, ob_id r ∈ map c_id (claim_batch locked' now' who' crashed).2 →
    ∃ s', process_one repr j now' (returned who' (set_claim now' who' r1))
            {| db := (claim_batch locked' now' who' crashed).1; out := l |} = (s', true) ∧
      world (out s') = world l ∧
      ∃ r', r' ∈ rows (db s') ∧ ob_id r' = ob_id r ∧ ob_processed_at r' = Some now'.
Proof.
  cbv zeta. set (q1 := (claim_batch locked now who q).1).
  assert (Hr1 : set_claim now who r ∈ rows q1).
  { unfold q1, claim_batch in *. cbn [fst snd] in *. rewrite map_map in Hbatch.
    apply elem_of_map. exists r. split; [|done]. unfold in_listb. by rewrite bool_decide_true. }
  assert (Hev : record_processed_event (ob_id r) q1 = (with_events (λ es, es ++ [ob_id r]) q1, true)).
  { unfold record_processed_event, in_listb. rewrite bool_decide_false; [done|]. exact Hnew. }
  rewrite Hev. clear Hev. cbn [fst]. set (crashed := with_events _ q1).
  split; [exact Hr1|]. split.
  - unfold claimable in *. cbn. bool_to_prop.
    repeat (apply andb_true_iff; split); try assumption.
    + destruct (ob_next_attempt_at r) as [t|]; [|done]. bool_to_prop. unfold CLAIM_LEASE_US in *. apply Z.leb_le. lia.
    + apply Z.ltb_lt. lia.
  - intros locked' Hbatch'. set (q2 := (claim_batch locked' now' who' crashed).1).
    assert (Hr2 : set_claim now' who' (set_claim now who r) ∈ rows q2).
    { unfold q2, claim_batch in *. cbn [fst snd] in *. rewrite map_map in Hbatch'.
      apply elem_of_map. exists (set_claim now who r). split; [|exact Hr1]. unfold in_listb.
      by rewrite bool_decide_true. }
    assert (Hev : record_processed_event (ob_id r) q2 = (q2, false)).
    { unfold record_processed_event, in_listb. rewrite bool_decide_true; [done|]. cbn.
      apply elem_of_app. right. left. }
    clearbody q2. unfold process_one. cbn [returned c_id db set_claim ob_id]. rewrite Hev. cbn [negb].
    eexists. split; [done|]. cbn [out db mark_processed with_rows rows]. split; [by destruct (c_was_stale _)|].
    eexists. split; [apply elem_of_map; eexists; split; [reflexivity|exact Hr2]|].
    cbn [set_claim ob_id]. by rewrite bool_decide_true.
Qed.

(** ** Witnesses *)

(** A network on which every service answers with the given status. *)
Definition steady (status : Z) : Gateway unit :=
  {| before_call := λ _ w, (w, None); send := λ _ _ _ w, (w, inr (status, "")); report := λ _ _ w, w;
     status_error := λ _ s, "HTTPStatusError: " +:+ dec s |}.

Definition sample_claimed : OutboxRow := set_claim 9 "w" (sample_row "m1" "ConfirmOrderCommand").

Definition sample_state : state (W := unit) :=
  {| db := {| rows := [sample_claimed]; processed_events := [] |}; out := Local tt [] |}.

Lemma attempt_is_accounted_witness :
  let (s', progress) := @process_one unit (steady 503) (λ _, "") 0 20 (returned "w" sample_claimed) sample_state in
  progress = false ∧ map ob_attempts (rows (db s')) = [1] ∧
  ∃ r', r' ∈ rows (db s') ∧ ob_id r' = "m1" ∧ ob_processed_at r' = None.
Proof.
  assert (H : let (s', progress) := @process_one unit (steady 503) (λ _, "") 0 20 (returned "w" sample_claimed) sample_state in
     (∀ x, x ∈ rows (db sample_state) → x ≠ sample_claimed → x ∈ rows (db s')) ∧
     ∃ r', r' ∈ rows (db s') ∧ ob_id r' = "m1" ∧ ob_msg r' = ob_msg sample_claimed ∧ _) by
    exact (@attempt_is_accounted unit (steady 503) (λ _, "") 0 20 "w" sample_claimed sample_state
      ltac:(by_compute) ltac:(left) ltac:(apply not_elem_of_nil) ltac:(lia) ltac:(by vm_compute)).
  destruct (process_one _ _ _ _ _) as [s' progress] eqn:E. destruct H as (_ & r' & Hr & Hid & _).
  vm_compute in E. simplify_eq. split; [done|]. split; [done|]. exists r'. split; [done|]. split; [done|].
  apply list_elem_of_singleton in Hr as ->. done.
Defined.

Lemma crash_after_record_loses_command_witness :
  let crashed := (record_processed_event "m1" (claim_batch (λ _, false) 9 "w" sample_queue).1).1 in
  let r1 := set_claim 9 "w" (sample_row "m1" "ConfirmOrderCommand") in
  r1 ∈ rows crashed ∧ claimable 200000000 r1 = true.
Proof.
  cbv zeta.
  destruct (@crash_after_record_loses_command unit (steady 200) (λ _, "") (λ _, false) 9 200000000 0 "w" "w2"
    sample_queue (Local tt []) (sample_row "m1" "ConfirmOrderCommand")) as (H1 & H2 & _).
  - by_compute.
  - left.
  - reflexivity.
  - vm_compute. left.
  - apply not_elem_of_nil.
  - by vm_compute.
  - split; [exact H1|exact H2].
Defined.

End Dispatcher.
