(* ===== verification/ReserveContract.v ===== *)
(** * What the dispatcher relies on when it reserves a cart

    [InventoryContract] states what the inventory service promises its callers;
    the dispatcher's reservation loop is proved correct against it, for any
    breakers and any network.  Platform.v discharges it with the service's own
    handlers. *)

From S2P Require Import Prelude PyValue DispatchRules Dispatcher.
Import DispatchRules Dispatcher.

Module ReserveContract.

Definition reserve_url := INVENTORY_URL +:+ "/reserve".
Definition release_url := INVENTORY_URL +:+ "/release".
Definition saga_url (order : string) := SAGA_URL +:+ "/" +:+ order +:+ "/events".

Definition reserve_body (order product : string) (quantity : Z) : json :=
  JObj [("product_id", JStr product); ("quantity", JInt quantity); ("order_id", JStr order)].
Definition release_body (order : string) : json := JObj [("order_id", JStr order)].

(** [held o p w]: units of product [p] held for order [o]; [calls]: the requests
    that left the worker so far; [key_fresh]: no request with that key arrived. *)
Class InventoryContract (W : Type) `{Gateway W} := {
  ic_ok : W → Prop;
  held : string → string → W → Z;
  key_fresh : string → W → Prop;
  calls : W → list (string * json);
  quiet (w w' : W) : Prop :=
    (ic_ok w → ic_ok w') ∧ (∀ o p, held o p w' = held o p w) ∧
    (∀ k, key_fresh k w → key_fresh k w') ∧ calls w' = calls w;
  admit_quiet target w : quiet w (before_call target w).1;
  report_quiet target b w : quiet w (report target b w);
  send_logged url body key w : calls (send url body key w).1 = calls w ++ [(url, body)];
  saga_elsewhere o body key w : ic_ok w →
    ic_ok (send (saga_url o) body key w).1 ∧
    ∀ o' p, held o' p (send (saga_url o) body key w).1 = held o' p w;
  reserve_promise o product q key w : ic_ok w → key_fresh key w → o ≠ "" →
    let (w', reply) := send reserve_url (reserve_body o product q) key w in
    ic_ok w' ∧ (∀ k, k ≠ key → key_fresh k w → key_fresh k w') ∧
    match reply with
    | inr (status, _) => ∀ o' p, held o' p w' = held o' p w +
        ite ((status =? 200) && (o' =?s o) && bool_decide (UUID product = Some p)) q
    | inl _ => True
    end;
  release_promise o key w : ic_ok w → o ≠ "" →
    let (w', reply) := send release_url (release_body o) key w in
    ic_ok w' ∧
    match reply with
    | inr (status, _) => status = 200 → ∀ p, held o p w' = 0
    | inl _ => True
    end;
}.

(** Units of product [p] in a plan, its ids read as UUIDs. *)
Definition planned (p : string) (plan : list ItemReservation) : Z :=
  sumZ (λ i, ite (bool_decide (UUID (product_id i) = Some p)) (quantity i)) plan.

(** The saga was told [event] about the order. *)
Definition reported (order event : string) (new : list (string * json)) : Prop :=
  ∃ body, (saga_url order, JObj [("event_type", JStr event); ("payload", body)]) ∈ new.

Section client.
Context {W : Type} `{InventoryContract W} (repr : json → string).

(** A call is refused and changes nothing, or is sent once; the breaker's own
    bookkeeping is not visible. *)
Lemma post_cases target url body key (l l' : local W) res :
  _post target url body key l = (l', res) →
  (quiet (world l) (world l') ∧ ∃ e, res = inl e) ∨
  (∃ w0 w1 reply, quiet (world l) w0 ∧ send url body key w0 = (w1, reply) ∧ quiet w1 (world l') ∧
     match res with inr a => reply = inr a | inl _ => True end).
Proof.
  unfold _post, andthen, lift, done, fail. intros Hp.
  pose proof (admit_quiet target (world l)) as Hq.
  destruct (before_call target (world l)) as [w0 [text|]]; cbn [fst world stats] in *.
  { left. simplify_eq. split; [exact Hq|eauto]. }
  right. destruct (send url body key w0) as [w1 reply] eqn:Es. exists w0, w1, reply.
  split; [exact Hq|]. split; [done|].
  destruct reply as [text|[status b]]; [|destruct (500 <=? status)]; cbn in Hp; simplify_eq; cbn;
    (split; [apply report_quiet|done]).
Qed.

Lemma advance_cases order event key body (l l' : local W) res :
  ic_ok (world l) → _advance_saga repr (JStr order) event key body l = (l', res) →
  ∃ new, calls (world l') = calls (world l) ++ new ∧
    (∀ o p, held o p (world l') = held o p (world l)) ∧
    (∀ e, reported order e new → e = event) ∧
    (∀ oc, res = inr oc → settled oc = true → reported order event new).
Proof.
  intros Hok. unfold _advance_saga at 1, andthen at 1.
  change (SAGA_URL +:+ "/" +:+ py_str repr (JStr order) +:+ "/events") with (saga_url order).
  set (pl := if truthy body then body else JObj []).
  destruct (_post _ _ _ _ l) as [l1 r1] eqn:Ep.
  apply post_cases in Ep as [[(_ & Hh & _ & Hc) [e ->]]|(w0 & w1 & reply & (Hok0 & Hh0 & _ & Hc0) & Hs & (_ & Hh1 & _ & Hc1) & Hr)].
  - intros [= <- <-]. exists []. rewrite app_nil_r. split_and!; [done|done| |done].
    by intros e' (b & []%not_elem_of_nil).
  - assert (Hc : calls (world l1) = calls (world l) ++
        [(saga_url order, JObj [("event_type", JStr event); ("payload", pl)])]).
    { rewrite Hc1, <-Hc0. by rewrite <-(send_logged (saga_url order) _ key w0), Hs. }
    assert (Hh : ∀ o p, held o p (world l1) = held o p (world l)).
    { intros o p. rewrite Hh1, <-Hh0.
      pose proof (proj2 (saga_elsewhere order (JObj [("event_type", JStr event); ("payload", pl)]) key w0 (Hok0 Hok)) o p) as Hx. by rewrite Hs in Hx. }
    assert (Hrep : ∀ e, reported order e [(saga_url order, JObj [("event_type", JStr event); ("payload", pl)])] → e = event).
    { intros e (b & Hb%list_elem_of_singleton). by simplify_eq. }
    assert (Hw : ∀ (X : local W), world X = world l1 → res = res → ∃ new,
      calls (world X) = calls (world l) ++ new ∧ (∀ o p, held o p (world X) = held o p (world l)) ∧
      (∀ e, reported order e new → e = event) ∧ reported order event new).
    { intros X -> _. eexists. split; [exact Hc|]. split_and!; [done|done|]. exists pl. by left. }
    destruct r1 as [e|r1]; intros E.
    + simplify_eq. destruct (Hw l' eq_refl eq_refl) as (new & ? & ? & ? & ?). exists new. by split_and!.
    + unfold tally, done in E. cbn in E.
      assert (Hwl : world l' = world l1) by (destruct (settles _); by simplify_eq).
      destruct (Hw l' Hwl eq_refl) as (new & ? & ? & ? & ?). exists new. by split_and!.
Qed.

(** What the saga was told is what is held. *)
Definition truthful (order : string) (expected : string → Z) (w' : W) (new : list (string * json)) : Prop :=
  ∀ event, reported order event new →
    (event = "InventoryReserved" ∧ ∀ p, held order p w' = expected p) ∨
    (event = "InventoryReservationFailed" ∧ ∀ p, held order p w' = 0).

Lemma reported_app order event new new' :
  reported order event (new ++ new') → reported order event new ∨ reported order event new'.
Proof. intros (b & [Hb|Hb]%elem_of_app); [left|right]; by exists b. Qed.

Lemma inventory_not_saga order event path body :
  ¬ reported order event [(INVENTORY_URL +:+ path, body)].
Proof. intros (b & Hb%list_elem_of_singleton). injection Hb. discriminate. Qed.

Lemma reservation_key_inj msg p p' :
  reservation_idempotency_key msg p = reservation_idempotency_key msg p' → p = p'.
Proof. unfold reservation_idempotency_key. intros ?%(inj (String.app msg)). by simplify_eq. Qed.

(** One inventory call: what it adds to the log. *)
Lemma logged target path body key (l l' : local W) res :
  _post target (INVENTORY_URL +:+ path) body key l = (l', res) →
  ∃ new, calls (world l') = calls (world l) ++ new ∧ ∀ order event, ¬ reported order event new.
Proof.
  intros [[(_ & _ & _ & ->) _]|(w0 & w1 & reply & (_ & _ & _ & Hc0) & Hs & (_ & _ & _ & ->) & _)]%post_cases.
  - exists []. rewrite app_nil_r. split; [done|]. by intros ?? (b & []%not_elem_of_nil).
  - eexists. split; [|intros; apply inventory_not_saga].
    rewrite <-Hc0, <-(send_logged _ body key w0), Hs. done.
Qed.

Lemma truthful_more order expected w' new new' :
  (∀ event, ¬ reported order event new) → truthful order expected w' new' →
  truthful order expected w' (new ++ new').
Proof. intros Hn Ht event [Hr|Hr]%reported_app; [by apply Hn in Hr|by apply Ht]. Qed.

(** Giving the prefix back and reporting the failure. *)
Lemma give_back_truthful msg order expected product status (l l' : local W) res :
  ic_ok (world l) → order ≠ "" →
  andthen (_post "inventory-service" release_url (release_body order) ("inv-rb-" +:+ msg)) (λ rollback,
    if negb (rollback.1 =? 200)
    then done (retry ("partial reservation release returned " +:+ dec rollback.1))
    else _advance_saga repr (JStr order) "InventoryReservationFailed" ("inv-fail-" +:+ msg)
           (JObj [("reason", JStr "InsufficientStock"); ("product_id", JStr product);
                  ("status_code", JInt status)])) l = (l', res) →
  ∃ new, calls (world l') = calls (world l) ++ new ∧ truthful order expected (world l') new ∧
    (∀ oc, res = inr oc → settled oc = true → ∃ event, reported order event new).
Proof.
  intros Hok Ho. unfold andthen. destruct (_post _ _ _ _ l) as [l1 r1] eqn:Ep.
  destruct (logged _ _ _ _ _ _ _ Ep) as (new & Hc & Hn).
  destruct r1 as [e|[st body]]; intros E.
  { simplify_eq. exists new. split_and!; [done| |done]. intros event Hr. by apply Hn in Hr. }
  cbn [fst] in E. destruct (st =? 200) eqn:Est; bool_to_prop; cbn [negb] in E.
  - apply post_cases in Ep as [[_ [? ?]]|(w0 & w1 & reply & (Hok0 & _) & Hs & (Hok1 & Hh1 & _) & Hr)]; [done|].
    pose proof (release_promise order ("inv-rb-" +:+ msg) w0 (Hok0 Hok) Ho) as Hp. rewrite Hs in Hp.
    destruct Hp as [Hok' Hzero]. rewrite Hr in Hzero.
    apply advance_cases in E as (new' & Hc' & Hh & Hev & Hset); [|by apply Hok1].
    exists (new ++ new'). rewrite Hc', Hc, <-(assoc_L (++)). split; [done|]. split.
    + apply truthful_more; [apply Hn|]. intros event Hev'%Hev. right. split; [done|].
      intros p. rewrite Hh, Hh1. by apply Hzero.
    + intros oc Hoc Hs'. eexists. destruct (Hset oc Hoc Hs') as (b & Hb). exists b. apply elem_of_app. by right.
  - unfold done in E. simplify_eq. exists new. split_and!; [done| |].
    + intros event Hr. by apply Hn in Hr.
    + intros oc [= <-]. by vm_compute.
Qed.

Lemma reserve_lines_truthful msg order plan : ∀ (l l' : local W) res,
  ic_ok (world l) → order ≠ "" → NoDup (map product_id plan) →
  (∀ i, i ∈ plan → key_fresh (reservation_idempotency_key msg (product_id i)) (world l)) →
  reserve_lines repr msg (JStr order) plan l = (l', res) →
  ∃ new, calls (world l') = calls (world l) ++ new ∧
    truthful order (λ p, held order p (world l) + planned p plan) (world l') new ∧
    (∀ oc, res = inr oc → settled oc = true → ∃ event, reported order event new).
Proof.
  induction plan as [|i plan IH]; intros l l' res Hok Ho Hnd Hfresh E; cbn [reserve_lines] in E.
  - apply advance_cases in E as (new & Hc & Hh & Hev & Hset); [|done]. exists new. split_and!; [done| |].
    + intros event ->%Hev. left. split; [done|]. intros p. cbn. rewrite Hh. lia.
    + intros oc Hoc Hs. eexists. by eapply Hset.
  - change (JObj [("product_id", JStr (product_id i)); ("quantity", JInt (quantity i)); ("order_id", JStr order)])
      with (reserve_body order (product_id i) (quantity i)) in E.
    change (INVENTORY_URL +:+ "/reserve") with reserve_url in E.
    unfold andthen at 1 in E. set (key := reservation_idempotency_key msg (product_id i)) in *.
    destruct (_post _ _ _ _ l) as [l1 r1] eqn:Ep.
    destruct (logged _ _ _ _ _ _ _ Ep) as (new & Hc & Hn).
    destruct r1 as [e|[st body]].
    { simplify_eq. exists new. split_and!; [done| |done]. intros event Hr. by apply Hn in Hr. }
    apply post_cases in Ep as [[_ [? ?]]|(w0 & w1 & reply & (Hok0 & Hh0 & Hf0 & _) & Hs & (Hok1 & Hh1 & Hf1 & _) & Hr)]; [done|].
    pose proof (reserve_promise order (product_id i) (quantity i) key w0 (Hok0 Hok)
      (Hf0 _ (Hfresh i ltac:(left))) Ho) as Hp.
    rewrite Hs, Hr in Hp. destruct Hp as (Hok' & Hf' & Hheld). cbn [fst] in E.
    cbn [map] in Hnd. apply NoDup_cons in Hnd as [Hi Hnd].
    assert (Hext : ∀ new' expected', calls (world l') = calls (world l1) ++ new' →
      truthful order expected' (world l') new' →
      (∀ oc, res = inr oc → settled oc = true → ∃ event, reported order event new') →
      ∃ new, calls (world l') = calls (world l) ++ new ∧ truthful order expected' (world l') new ∧
        (∀ oc, res = inr oc → settled oc = true → ∃ event, reported order event new)).
    { intros new' expected' Hc' Ht Hset. exists (new ++ new'). rewrite Hc', Hc, <-(assoc_L (++)).
      split; [done|]. split; [by apply truthful_more|]. intros oc Hoc Hs'.
      destruct (Hset oc Hoc Hs') as (ev & b & Hb). exists ev, b. apply elem_of_app. by right. }
    destruct (st =? 200) eqn:Est.
    + apply IH in E as (new' & Hc' & Ht & Hset); [|by apply Hok1|done|done|].
      * apply (Hext new'); [done| |done]. intros event Hev. destruct (Ht event Hev) as [[-> Hx]|Hx]; [left|by right].
        split; [done|]. intros p. rewrite Hx, Hh1, Hheld, Hh0. unfold planned. cbn [sumZ].
        rewrite (bool_decide_true (order = order)) by done. cbn [andb]. lia.
      * intros i' Hi'. apply Hf1, Hf'; [|apply Hf0, Hfresh; by right].
        intros Ek%reservation_key_inj. apply Hi. rewrite <-Ek. apply elem_of_map. by exists i'.
    + eapply give_back_truthful in E as (new' & Hc' & Ht & Hset); [|by apply Hok1|done].
      by apply (Hext new').
Qed.

(** C4 — The saga is told the truth about the stock: on the first attempt at a
    cart's reservation, whichever calls fail, the dispatcher reports
    [InventoryReserved] only when every unit of the plan is held for the order
    and [InventoryReservationFailed] only when nothing is, reports no other
    event, and settles the command only after one of these reports. *)
Theorem stock_report_is_truthful (msg order : string) (payload : list (string * json))
    (l l' : local W) (res : call_error + Outcome)
    (Hok : ic_ok (world l)) (Hid : obj_get payload "order_id" = JStr order) (Ho : order ≠ "")
    (Hnone : ∀ p, held order p (world l) = 0)
    (Hfresh : ∀ p, key_fresh (reservation_idempotency_key msg p) (world l))
    (Hrun : handle repr msg "ReserveInventoryCommand" payload l = (l', res)) :
  let plan := plan_item_reservations repr (default (JList []) (dict_get payload "items_payload")) in
  ∃ new, calls (world l') = calls (world l) ++ new ∧
    truthful order (λ p, planned p (items plan)) (world l') new ∧
    (∀ oc, res = inr oc → settled oc = true → ∃ event, reported order event new).
Proof.
  unfold handle in Hrun. rewrite Hid in Hrun.
  rewrite (proj2 (truthy_str order) Ho) in Hrun. cbn [negb] in Hrun.
  rewrite bool_decide_true in Hrun by done. cbv zeta in Hrun |- *.
  set (cart := default (JList []) (dict_get payload "items_payload")) in *.
  destruct (error (plan_item_reservations repr cart)) as [e|] eqn:Ee.
  - apply advance_cases in Hrun as (new & Hc & Hh & Hev & Hset); [|done]. exists new. split_and!; [done| |].
    + intros event ->%Hev. right. split; [done|]. intros p. by rewrite Hh.
    + intros oc Hoc Hs. eexists. by eapply Hset.
  - apply reserve_lines_truthful in Hrun as (new & Hc & Ht & Hset); [|done|done|by apply plan_ids_unique|auto].
    exists new. split_and!; [done| |done]. intros event Hev.
    destruct (Ht event Hev) as [[-> Hx]|Hx]; [left|by right]. split; [done|]. intros p. rewrite Hx, Hnone. lia.
Qed.
End client.

End ReserveContract.
