(* ===== verification/Platform.v ===== *)
(** * The dispatcher over the inventory service

    A world for the dispatcher made of the services' own definitions: its
    breakers, the inventory service behind its routes, and a network that may
    lose a request or its answer.  Which calls meet a failure (a lost message, a
    refused commit, a contended lock) is given per call, by its number.  The
    answers of order-saga and payment-service are a parameter. *)

From S2P Require Import Prelude PyValue Session OrderDb ReservationRules InventoryService DispatchRules Dispatcher ReserveContract Resilience.
Import ReservationRules InventoryService Resilience ReserveContract.

Module Platform.

(** ** The inventory service's routes (routes/inventory.py, schemas.py) *)

Definition opt_text (v : json) : option (option string) :=
  match v with
  | JNull => Some None
  | JStr s => if Z.of_nat (String.length s) <=? 255 then Some (Some s) else None
  | _ => None
  end.

(** [ReserveRequest] from a body; [None] is the framework's 422. *)
Definition parse_reserve (body : json) : option ReserveRequest :=
  match body with
  | JObj d =>
      match obj_get d "product_id", obj_get d "quantity", opt_text (obj_get d "order_id") with
      | JStr p, JInt q, Some order =>
          match UUID p with
          | Some u => if 0 <? q then Some {| rq_product_id := u; rq_quantity := q; rq_order_id := order |}
                      else None
          | None => None
          end
      | _, _, _ => None
      end
  | _ => None
  end.

Fixpoint strings_of (l : list json) : option (list string) :=
  match l with
  | [] => Some []
  | JStr s :: l => cons s <$> strings_of l
  | _ :: _ => None
  end.

(** [ReleaseRequest] and [ConsumeRequest] *)
Definition parse_settle (body : json) : option SettleRequest :=
  match body with
  | JObj d =>
      match opt_text (obj_get d "order_id"), obj_get d "product_ids" with
      | Some (Some o), JNull =>
          if o =?s "" then None else Some {| rq_settled_order := o; rq_product_ids := None |}
      | Some (Some o), JList l =>
          if o =?s "" then None
          else (λ ps, {| rq_settled_order := o; rq_product_ids := Some ps |}) <$> strings_of l
      | _, _ => None
      end
  | _ => None
  end.

Lemma parse_reserve_body o product q : parse_reserve (reserve_body o product q) =
  if Z.of_nat (String.length o) <=? 255 then
    match UUID product with
    | Some u => if 0 <? q then Some {| rq_product_id := u; rq_quantity := q; rq_order_id := Some o |} else None
    | None => None
    end
  else None.
Proof.
  unfold reserve_body, parse_reserve.
  change (obj_get _ "product_id") with (JStr product). change (obj_get _ "quantity") with (JInt q).
  change (obj_get _ "order_id") with (JStr o). cbn [opt_text].
  by destruct (_ <=? 255).
Qed.

Lemma parse_release_body o : parse_settle (release_body o) =
  if Z.of_nat (String.length o) <=? 255 then
    if o =?s "" then None else Some {| rq_settled_order := o; rq_product_ids := None |}
  else None.
Proof.
  unfold release_body, parse_settle.
  change (obj_get _ "order_id") with (JStr o). change (obj_get _ "product_ids") with JNull. cbn [opt_text].
  by destruct (_ <=? 255).
Qed.

Section routes.
Context (uuid4 : nat → string) (isoformat : Z → string).
Context (fault : db → option string) (locks : string → option (list exc_object)) (now : Z).

Definition reserve_inventory_endpoint (body : json) (key : string) (d : db) : db * Z :=
  match parse_reserve body with
  | None => (d, 422)
  | Some request =>
      if key =?s "" then (d, 400)
      else let (d', r) := run (reserve_inventory uuid4 isoformat fault locks request key now) d in
           (d', answered 200 r)
  end.

Definition release_endpoint (body : json) (key : string) (d : db) : db * Z :=
  match parse_settle body with
  | None => (d, 422)
  | Some request =>
      if key =?s "" then (d, 400)
      else let (d', r) := run (release_inventory isoformat fault locks request key now) d in
           (d', answered 200 r)
  end.

Definition consume_endpoint (body : json) (key : string) (d : db) : db * Z :=
  match parse_settle body with
  | None => (d, 422)
  | Some request =>
      let (d', r) := run (consume_inventory isoformat fault locks request key now) d in
      (d', answered 200 r)
  end.
End routes.

(** ** The world *)

Record plat := {
  inventory : db;
  breakers : string → AsyncCircuitBreaker;
  sent : list (string * json);
}.

(** What happens to the calls, by number. *)
Record weather := {
  request_lost : nat → option string;
  answer_lost : nat → option string;
  commit_fault : nat → db → option string;
  lock_fault : nat → string → option (list exc_object);
  clock : nat → Z;
  elsewhere : nat → string → json → string → Z * string;
}.

Section gateway.
Context (uuid4 : nat → string) (isoformat : Z → string) (env : weather).

Definition serve (n : nat) (url : string) (body : json) (key : string) (d : db) : db * (Z * string) :=
  let ok (r : db * Z) := (r.1, (r.2, "")) in
  if url =?s reserve_url
  then ok (reserve_inventory_endpoint uuid4 isoformat (commit_fault env n) (lock_fault env n) (clock env n) body key d)
  else if url =?s release_url
  then ok (release_endpoint isoformat (commit_fault env n) (lock_fault env n) (clock env n) body key d)
  else if url =?s (Dispatcher.INVENTORY_URL +:+ "/consume")
  then ok (consume_endpoint isoformat (commit_fault env n) (lock_fault env n) (clock env n) body key d)
  else (d, elsewhere env n url body key).

Definition set_breaker (target : string) (b : AsyncCircuitBreaker) (w : plat) : plat :=
  {| inventory := inventory w;
     breakers := λ t, if t =?s target then b else breakers w t; sent := sent w |}.

Definition refusal_text (target : string) (r : refusal) : string :=
  match r with
  | CircuitOpenError retry_in => "Circuit open for " +:+ target +:+ "; retry in " +:+ dec retry_in
  | BulkheadFullError limit => "Bulkhead full for " +:+ target +:+ " (limit " +:+ dec limit +:+ ")"
  end.

Definition admit_call (target : string) (w : plat) : plat * option string :=
  let (b, refused) := enter (clock env (length (sent w))) (breakers w target) in
  (set_breaker target b w, refusal_text target <$> refused).

Definition send_call (url : string) (body : json) (key : string) (w : plat) : plat * (string + Z * string) :=
  let n := length (sent w) in
  let log := sent w ++ [(url, body)] in
  match request_lost env n with
  | Some e => ({| inventory := inventory w; breakers := breakers w; sent := log |}, inl e)
  | None =>
      let (d, reply) := serve n url body key (inventory w) in
      ({| inventory := d; breakers := breakers w; sent := log |},
       match answer_lost env n with Some e => inl e | None => inr reply end)
  end.

Definition report_call (target : string) (ok : bool) (w : plat) : plat :=
  set_breaker target
    (leave (clock env (length (sent w))) (if ok then None else Some None) (breakers w target)) w.

Definition plat_gateway : Gateway plat :=
  {| before_call := admit_call; send := send_call; report := report_call;
     status_error := λ url status, "HTTPStatusError: " +:+ dec status +:+ " for url " +:+ url |}.

Definition held_for (o p : string) (w : plat) : Z :=
  sumZ (λ r, ite (in_scope o None r && (rv_product_id r =?s p)) (rv_quantity r)) (reservations (inventory w)).

(** ** The service keeps the contract *)

Lemma reserve_polite fault locks request key now :
  raises_only (λ e, status_of e ≠ 200) (reserve_inventory uuid4 isoformat fault locks request key now).
Proof. unfold reserve_inventory, locked_item, emit_event. monadic. Qed.

Lemma release_polite fault locks request key now :
  raises_only (λ e, status_of e ≠ 200) (release_inventory isoformat fault locks request key now).
Proof. unfold release_inventory, release_hold, locked_item, emit_event, mark_settled. monadic. Qed.

Lemma reserve_fresh fault locks request key now d :
  key ∉ (inv_keys d).*1 →
  let out := run (reserve_inventory uuid4 isoformat fault locks request key now) d in
  (∀ k, k ∈ (inv_keys out.1).*1 → k ∈ (inv_keys d).*1 ∨ k = key) ∧
  ((∃ e, out.2 = inl e) ∧ reservations out.1 = reservations d ∨
   (∃ it, out.2 = inr it) ∧ reservations out.1 = reservations (with_hold uuid4 request now d)).
Proof.
  intros Hkey. cbv zeta. unfold run, reserve_inventory. symex. rewrite bool_decide_false by done. symex.
  assert (Hk : ∀ v k, k ∈ (dict_set (inv_keys d ++ [(key, None)]) key v).*1 → k ∈ (inv_keys d).*1 ∨ k = key).
  { intros v k. rewrite dict_set_keys, fmap_app. case_decide.
    - intros [?| ->%list_elem_of_singleton]%elem_of_app; auto.
    - intros [[?| ->%list_elem_of_singleton]%elem_of_app| ->%list_elem_of_singleton]%elem_of_app; auto. }
  unfold locked_item. destruct (locks (rq_product_id request)) as [heap|].
  { destruct (is_lock_contention heap 0) as [[]|]; symex; cbn; (split; [auto|left; split; [eauto|done]]). }
  symex. cbn [with_inv_keys items]. unfold plan_reservation.
  destruct (rq_quantity request <=? 0); [cbn; split; [auto|left; eauto]|].
  destruct (items d !! rq_product_id request) as [it|]; [|cbn; split; [auto|left; eauto]].
  cbn [fmap option_fmap option_map].
  destruct (quantity_available (level it) <? rq_quantity request); cbn [r_outcome r_new_level default].
  { unfold emit_event. symex. destruct (fault _); cbn; (split; [eauto|left; eauto]). }
  unfold emit_event, with_hold. symex.
  destruct (rq_order_id request) as [order|]; [destruct (is_empty order)|]; symex;
    (destruct (fault _); cbn; (split; [eauto|first [by left; eauto|by right; eauto]])).
Qed.

Lemma held_app o p rs rs' w w' w'' :
  reservations (inventory w) = rs → reservations (inventory w') = rs' → reservations (inventory w'') = rs ++ rs' →
  held_for o p w'' = held_for o p w + held_for o p w'.
Proof. unfold held_for. intros -> -> ->. apply sumZ_app. Qed.

Lemma held_same o p w w' : reservations (inventory w') = reservations (inventory w) → held_for o p w' = held_for o p w.
Proof. unfold held_for. by intros ->. Qed.

Lemma serve_reserve n o product q key d :
  Inj (=) (=) uuid4 → stock_ok uuid4 d → key ∉ (inv_keys d).*1 → o ≠ "" →
  let out := serve n reserve_url (reserve_body o product q) key d in
  stock_ok uuid4 out.1 ∧ (∀ k, k ∈ (inv_keys out.1).*1 → k ∈ (inv_keys d).*1 ∨ k = key) ∧
  ∀ o' p w w', inventory w = d → inventory w' = out.1 → held_for o' p w' = held_for o' p w +
    ite ((out.2.1 =? 200) && (o' =?s o) && bool_decide (UUID product = Some p)) q.
Proof.
  intros Hinj Hok Hkey Ho. unfold serve. rewrite bool_decide_true by done. cbn [fst snd].
  unfold reserve_inventory_endpoint.
  assert (Hsame : ∀ st, st ≠ 200 → stock_ok uuid4 d ∧ (∀ k, k ∈ (inv_keys d).*1 → k ∈ (inv_keys d).*1 ∨ k = key) ∧
    ∀ o' p w w', inventory w = d → inventory w' = d → held_for o' p w' = held_for o' p w +
      ite ((st =? 200) && (o' =?s o) && bool_decide (UUID product = Some p)) q).
  { intros st Hst. split; [done|]. split; [auto|]. intros o' p w w' Hw Hw'.
    rewrite (proj2 (Z.eqb_neq _ _) Hst). cbn [andb ite]. rewrite Z.add_0_r. apply held_same. by rewrite Hw, Hw'. }
  destruct (parse_reserve _) as [request|] eqn:Er; [|by apply (Hsame 422)].
  destruct (key =?s ""); [by apply (Hsame 400)|].
  assert (Hreq : UUID product = Some (rq_product_id request) ∧ rq_quantity request = q ∧ rq_order_id request = Some o).
  { rewrite parse_reserve_body in Er. destruct (Z.of_nat (String.length o) <=? 255); [|done].
    destruct (UUID product) as [u|]; [|done]. destruct (0 <? q); by simplify_eq. }
  destruct Hreq as (Hu & Hq & Horder).
  pose proof (reserve_ok uuid4 isoformat (commit_fault env n) (lock_fault env n) request key (clock env n) d Hinj Hok) as [Hok' _].
  pose proof (reserve_fresh (commit_fault env n) (lock_fault env n) request key (clock env n) d Hkey) as [Hk Hcase].
  pose proof (λ e, run_raises _ _ d e (reserve_polite (commit_fault env n) (lock_fault env n) request key (clock env n))) as Hp.
  destruct (run _ d) as [d' r]. cbn [fst snd] in *. split; [done|]. split; [done|].
  intros o' p w w' Hw Hw'. destruct Hcase as [[[e ->] Hr]|[[it ->] Hr]]; cbn [answered].
  - rewrite (proj2 (Z.eqb_neq _ _) (Hp e eq_refl)). cbn [andb ite]. rewrite Z.add_0_r. apply held_same. by rewrite Hw, Hw'.
  - rewrite Z.eqb_refl. cbn [andb]. unfold held_for. rewrite Hw, Hw', Hr. unfold with_hold. rewrite Horder.
    unfold is_empty. rewrite bool_decide_false by done. cbn [with_reservations reservations inv_draw].
    rewrite sumZ_app. f_equal. cbn. unfold in_scope. cbn. rewrite Hq, Hu, Z.add_0_r, andb_true_r.
    rewrite (bool_decide_ext (o = o') (o' = o)) by naive_solver. rewrite andb_true_r.
    rewrite (bool_decide_ext (rq_product_id request = p) (Some (rq_product_id request) = Some p)) by naive_solver. done.
Qed.

Lemma serve_release n o key d :
  stock_ok uuid4 d → o ≠ "" →
  let out := serve n release_url (release_body o) key d in
  stock_ok uuid4 out.1 ∧ (out.2.1 = 200 → ∀ p w', inventory w' = out.1 → held_for o p w' = 0).
Proof.
  intros Hok Ho. unfold serve. rewrite bool_decide_false by done. rewrite bool_decide_true by done. cbn [fst snd].
  unfold release_endpoint. destruct (parse_settle _) as [request|] eqn:Er; [|done].
  destruct (key =?s ""); [done|].
  assert (Hreq : rq_settled_order request = o ∧ rq_product_ids request = None).
  { rewrite parse_release_body in Er. destruct (Z.of_nat (String.length o) <=? 255); [|done].
    destruct (o =?s ""); by simplify_eq. }
  destruct Hreq as [Horder Hscope].
  pose proof (settle_ok uuid4 isoformat (commit_fault env n) (lock_fault env n) Release request key (clock env n) d Hok) as [Hok' _].
  pose proof (settle_inventory_run uuid4 isoformat (commit_fault env n) (lock_fault env n) Release request key (clock env n) d Hok) as Hc.
  pose proof (λ e, run_raises _ _ d e (release_polite (commit_fault env n) (lock_fault env n) request key (clock env n))) as Hp.
  cbn [settle_inventory] in *. destruct (run _ d) as [d' r]. cbn [fst snd] in *. split; [done|].
  destruct Hc as [[e ?]|(scope & Hs & Hd & _)]; [simplify_eq; intros Hst; by apply Hp in Hst|].
  unfold scope_of in Hs. rewrite Hscope in Hs. injection Hs as <-. cbn [fst snd] in Hd. intros _ p w' Hw'.
  unfold held_for. rewrite Hw', Hd. rewrite Horder.
  destruct (holds_live uuid4 o None d Hok) as [Hnd Hlive].
  destruct (settled_all_spec uuid4 isoformat (commit_fault env n) Release (clock env n) _ d Hok Hnd Hlive) as (_ & _ & -> & _).
  apply sumZ_zero. intros x (r0 & -> & Hr0)%elem_of_map. unfold in_listb.
  destruct (bool_decide_reflect (rv_id r0 ∈ map rv_id (holds_of o None d))) as [Hin|Hin].
  - unfold in_scope. cbn. by rewrite andb_false_r.
  - destruct (in_scope o None r0) eqn:Ei; [|done]. destruct Hin. apply elem_of_map. exists r0. split; [done|].
    by apply elem_of_filter_bool.
Qed.

Lemma saga_url_elsewhere o : saga_url o ≠ reserve_url ∧ saga_url o ≠ release_url ∧
  saga_url o ≠ Dispatcher.INVENTORY_URL +:+ "/consume".
Proof. split_and!; intros E; injection E; discriminate. Qed.

Lemma serve_saga n o body key d : serve n (saga_url o) body key d = (d, elsewhere env n (saga_url o) body key).
Proof.
  destruct (saga_url_elsewhere o) as (H1 & H2 & H3). unfold serve. by rewrite !bool_decide_false.
Qed.

(** The inventory service's own handlers, behind the breakers and the network,
    are an instance of what the dispatcher relies on. *)
Definition plat_contract (Hinj : Inj (=) (=) uuid4) : @InventoryContract plat plat_gateway.
Proof.
  unshelve refine (@Build_InventoryContract plat plat_gateway (λ w, stock_ok uuid4 (inventory w)) held_for
    (λ k w, k ∉ (inv_keys (inventory w)).*1) sent _ _ _ _ _ _); cbn [plat_gateway before_call send report].
  - intros target w. unfold admit_call. destruct (enter _ _) as [b refused]. by split_and!.
  - intros target b w. by split_and!.
  - intros url body key w. unfold send_call. destruct (request_lost _ _); [done|]. by destruct (serve _ _ _ _ _).
  - intros o body key w Hok. unfold send_call. destruct (request_lost _ _); [done|]. by rewrite serve_saga.
  - intros o product q key w Hok Hkey Ho. unfold send_call. destruct (request_lost _ _).
    { split_and!; auto. }
    destruct (serve_reserve (length (sent w)) o product q key (inventory w) Hinj Hok Hkey Ho) as (Hok' & Hk & Hh).
    destruct (serve _ _ _ _ _) as [d [status text]]. cbn [fst snd] in *. split_and!; [done| |].
    + intros k Hne Hk' [?|?]%Hk; done.
    + destruct (answer_lost _ _); [done|]. intros o' p. by apply Hh.
  - intros o key w Hok Ho. unfold send_call. destruct (request_lost _ _); [done|].
    destruct (serve_release (length (sent w)) o key (inventory w) Hok Ho) as (Hok' & Hh).
    destruct (serve _ _ _ _ _) as [d [status text]]. cbn [fst snd] in *. split; [done|].
    destruct (answer_lost _ _); [done|]. intros Hst p. by apply Hh.
Defined.

End gateway.
(** ** A cart retried *)

(** The fourth call, the report to the saga, is answered with 503. *)
Definition saga_down_once : weather :=
  {| request_lost := λ _, None; answer_lost := λ _, None; commit_fault := λ _ _, None;
     lock_fault := λ _ _, None; clock := λ n, Z.of_nat n;
     elsewhere := λ n _ _ _, (if Nat.eqb n 3 then 503 else 200, "") |}.

Definition stocked : plat :=
  {| inventory := {| items := <[product_a := sample_item "i1" 5 0]> (<[product_b := sample_item "i2" 0 0]> ∅);
                     reservations := []; inv_outbox := []; inv_keys := []; inv_draws := 0 |};
     breakers := λ _, new_breaker FAILURE_THRESHOLD RESET_TIMEOUT_US DEFAULT_BULKHEAD; sent := [] |}.

Definition cart_line (p : string) (q : Z) : json := JObj [("product_id", JStr p); ("quantity", JInt q)].

Definition cart_payload : list (string * json) :=
  [("order_id", JStr "o9"); ("items_payload", JList [cart_line product_a 2; cart_line product_b 1])].

Definition reserve_row : OrderDb.OutboxRow :=
  OrderDb.new_row "m1" (OrderDb.message "OrderSaga" "o9" "ReserveInventoryCommand" cart_payload 0).

Definition first_state : Dispatcher.state (W := plat) :=
  {| Dispatcher.db := {| OutboxQueue.rows := [reserve_row]; OutboxQueue.processed_events := [] |};
     Dispatcher.out := Dispatcher.Local stocked [] |}.

Definition work (isoformat : Z → string) (now : Z) (s : Dispatcher.state (W := plat)) :=
  @Dispatcher.process_one plat (plat_gateway unary_id isoformat saga_down_once) (λ _, "") 0 now
    (OutboxQueue.returned "w" reserve_row) s.

(** A retried reservation can report stock nobody holds: a cart with one
    line out of stock is tried, its prefix released, and the report to the saga
    fails; on the retry the inventory service replays both keys as successes, so
    the dispatcher reports [InventoryReserved] and settles the command, with not
    one unit held for the order. *)
Theorem retried_reservation_reports_unheld_stock (isoformat : Z → string) :
  let (s1, settled1) := work isoformat 0 first_state in
  let (s2, settled2) := work isoformat 2000000 s1 in
  settled1 = false ∧ settled2 = true ∧
  (∃ body, last (sent (Dispatcher.world (Dispatcher.out s2))) =
     Some (saga_url "o9", JObj [("event_type", JStr "InventoryReserved"); ("payload", body)])) ∧
  (∀ r, r ∈ OutboxQueue.rows (Dispatcher.db s2) → OrderDb.ob_processed_at r = Some 2000000) ∧
  (∀ p, held_for "o9" p (Dispatcher.world (Dispatcher.out s2)) = 0).
Proof.
  destruct (work isoformat 0 first_state) as [s1 b1] eqn:E1. vm_compute in E1. simplify_eq.
  destruct (work isoformat 2000000 _) as [s2 b2] eqn:E2. vm_compute in E2. simplify_eq.
  split; [done|]. split; [done|]. split; [|split].
  - eexists. vm_compute. reflexivity.
  - intros r Hr. cbn in Hr. by apply list_elem_of_singleton in Hr as ->.
  - intros p. by vm_compute.
Qed.

(** The first attempt on the same cart, as the contract sees it: the prefix is
    given back and the saga learns of the failure. *)
Lemma stock_report_is_truthful_witness :
  let env := {| request_lost := λ _, None; answer_lost := λ _, None; commit_fault := λ _ _, None;
                lock_fault := λ _ _, None; clock := λ n, Z.of_nat n; elsewhere := λ _ _ _ _, (200, "") |} in
  let gw := plat_gateway unary_id (λ _, "t") env in
  let out := @Dispatcher.handle plat gw (λ _, "") "m1" "ReserveInventoryCommand" cart_payload
               (Dispatcher.Local stocked []) in
  ∃ new, sent (Dispatcher.world out.1) = [] ++ new ∧ length new = 4%nat ∧
    @truthful plat gw (plat_contract unary_id (λ _, "t") env unary_id_inj) "o9"
      (λ p, planned p (DispatchRules.items (DispatchRules.plan_item_reservations (λ _, "")
              (default (JList []) (dict_get cart_payload "items_payload"))))) (Dispatcher.world out.1) new.
Proof.
  intros env gw out.
  assert (Hs : stock_ok unary_id (inventory stocked)).
  { constructor.
    - intros p it. cbn [stocked inventory items reservations].
      intros [[<- <-]|[Hne [[<- <-]|[_ H]]%lookup_insert_Some]]%lookup_insert_Some;
        [by vm_compute|by vm_compute|]. by rewrite lookup_empty in H.
    - intros r Hr. by apply not_elem_of_nil in Hr.
    - apply NoDup_nil_2.
    - intros r Hr. by apply not_elem_of_nil in Hr. }
  destruct (@stock_report_is_truthful plat gw (plat_contract unary_id (λ _, "t") env unary_id_inj) (λ _, "")
    "m1" "o9" cart_payload (Dispatcher.Local stocked []) out.1 out.2) as (new & Hc & Ht & _).
  - exact Hs.
  - reflexivity.
  - done.
  - intros p. reflexivity.
  - intros p. change (DispatchRules.reservation_idempotency_key "m1" p ∉ ([] : list string)). apply not_elem_of_nil.
  - apply surjective_pairing.
  - exists new. split; [exact Hc|]. split; [|exact Ht].
    assert (H4 : length (sent (Dispatcher.world out.1)) = 4%nat) by (vm_compute; reflexivity).
    change (sent (Dispatcher.world out.1) = new) in Hc. by rewrite <-Hc.
Defined.

End Platform.
