(* ===== verification/CourierRules.v ===== *)
(** * Courier vocabulary and settlement rules (services/fulfillment-service,
    courier_rules.py and courier_registry.py)

    The canonical statuses, the mapping of a provider's words onto them, and the
    classification of one row of a courier's remittance file.  A provider's
    configuration is its list of canonical names with their words, in the order
    of the file. *)

From S2P Require Import Prelude PyValue SplitRules CodRules.

Module CourierRules.

Inductive CourierStatus :=
  PICKUP_PENDING | PICKED_UP | IN_TRANSIT | OUT_FOR_DELIVERY | DELIVERED | DELIVERY_FAILED
| RETURNING | RETURNED | CANCELLED.

#[global] Instance CourierStatus_eq : EqDecision CourierStatus.
Proof. solve_decision. Defined.

Definition value (s : CourierStatus) : string :=
  match s with
  | PICKUP_PENDING => "PICKUP_PENDING" | PICKED_UP => "PICKED_UP" | IN_TRANSIT => "IN_TRANSIT"
  | OUT_FOR_DELIVERY => "OUT_FOR_DELIVERY" | DELIVERED => "DELIVERED"
  | DELIVERY_FAILED => "DELIVERY_FAILED" | RETURNING => "RETURNING" | RETURNED => "RETURNED"
  | CANCELLED => "CANCELLED"
  end.

Definition all_statuses : list CourierStatus :=
  [PICKUP_PENDING; PICKED_UP; IN_TRANSIT; OUT_FOR_DELIVERY; DELIVERED; DELIVERY_FAILED; RETURNING;
   RETURNED; CANCELLED].

(** [CourierStatus(name)]; [None] is the [ValueError]. *)
Definition courier_status (name : string) : option CourierStatus :=
  List.find (λ s, value s =?s name) all_statuses.

Definition STATUS_ACTIONS (s : CourierStatus) : option string :=
  match s with
  | PICKED_UP => Some "dispatch"
  | DELIVERED => Some "deliver"
  | RETURNING => Some "mark_rto"
  | RETURNED => Some "complete_return"
  | CANCELLED => Some "cancel"
  | _ => None
  end.

Definition REQUIRED_CANONICAL : list CourierStatus := [PICKED_UP; DELIVERED; RETURNING; RETURNED].

Definition normalise (raw : option string) : string :=
  match raw with
  | None => ""
  | Some s => replace " " "_" (replace "-" "_" (lower (strip s)))
  end.

Definition index := list (string * CourierStatus).
Definition mapping := list (string * list string).

Fixpoint index_words (canonical : CourierStatus) (words : list string) (ix : index) : string + index :=
  match words with
  | [] => inr ix
  | word :: rest =>
      let key := normalise (Some word) in
      if is_empty key then index_words canonical rest ix
      else match dict_get ix key with
      | Some other =>
          if bool_decide (other = canonical) then index_words canonical rest (dict_set ix key canonical)
          else inl ("provider word " +:+ repr_str word +:+ " is mapped to both " +:+
                    value other +:+ " and " +:+ value canonical)
      | None => index_words canonical rest (dict_set ix key canonical)
      end
  end.

Fixpoint build_from (m : mapping) (ix : index) : string + index :=
  match m with
  | [] => inr ix
  | (name, words) :: rest =>
      match courier_status name with
      | None => inl (repr_str name +:+ " is not a canonical courier status; the platform " +:+
                     "vocabulary is fixed and providers map onto it")
      | Some canonical =>
          match index_words canonical words ix with
          | inl e => inl e
          | inr ix' => build_from rest ix'
          end
      end
  end.

Definition build_index (provider_mapping : mapping) : string + index := build_from provider_mapping [].

Definition map_status (ix : index) (raw_status : option string) : option CourierStatus :=
  dict_get ix (normalise raw_status).

Definition action_for (status : option CourierStatus) : option string :=
  match status with None => None | Some s => STATUS_ACTIONS s end.

Record MappingProblem := { mp_provider : string; mp_detail : string }.

Definition validate_mapping (provider : string) (m : mapping) : list MappingProblem :=
  match build_index m with
  | inl e => [{| mp_provider := provider; mp_detail := e |}]
  | inr ix =>
      let missing := List.filter (λ s, negb (s in_ ix.*2)) REQUIRED_CANONICAL in
      (match missing with
       | [] => []
       | _ => [{| mp_provider := provider;
                  mp_detail := "maps nothing to " +:+ join ", " (sort_by id (map value missing)) +:+
                    "; the platform would never see those events from this courier" |}]
       end) ++
      (if bool_decide (ix = []) then [{| mp_provider := provider; mp_detail := "maps no statuses at all" |}]
       else [])
  end.

(** ** The registry *)

Record Courier := { provider : string; display_name : string; statuses : mapping; c_index : index }.

Definition canonical (c : Courier) (raw_status : option string) : option CourierStatus :=
  map_status (c_index c) raw_status.

(** A configuration file: its name, and its content unless it is not JSON. *)
Record config_file := {
  f_name : string;
  f_content : string + (option string * option string * mapping);
}.

Definition load_one (f : config_file) : list string + (string * Courier) :=
  match f_content f with
  | inl e => inl [f_name f +:+ ": not readable as JSON (" +:+ e +:+ ")"]
  | inr (slug, display, m) =>
      let p := strip (default "" slug) in
      if is_empty p then inl [f_name f +:+ ": no provider slug"]
      else match validate_mapping p m with
      | [] =>
          inr (p, {| provider := p;
                     display_name := match display with
                                     | Some d => if is_empty d then p else d | None => p end;
                     statuses := m;
                     c_index := match build_index m with inr ix => ix | inl _ => [] end |})
      | found => inl (map (λ pr, f_name f +:+ ": " +:+ mp_detail pr) found)
      end
  end.

Fixpoint load_all (fs : list config_file) (registry : list (string * Courier)) (problems : list string)
    : list (string * Courier) * list string :=
  match fs with
  | [] => (registry, problems)
  | f :: rest =>
      match load_one f with
      | inl ps => load_all rest registry (problems ++ ps)
      | inr (p, c) => load_all rest (dict_set registry p c) problems
      end
  end.

(** [load(directory)] on the files of the directory; [inl] is the
    [RuntimeError]'s problems. *)
Definition load (fs : list config_file) : list string + list (string * Courier) :=
  match load_all (sort_by f_name fs) [] [] with
  | ([], []) => inl ["no courier mappings found"]
  | (registry, []) => inr registry
  | (_, problems) => inl problems
  end.

Definition get (registry : list (string * Courier)) (p : string) : option Courier :=
  dict_get registry (lower (strip p)).

Definition known (registry : list (string * Courier)) : list string := sort_by id registry.*1.

(** ** Settlement *)

Inductive ReconcileOutcome :=
  MATCHED | SHORT | OVER | UNKNOWN_ORDER | NOT_DELIVERED | DUPLICATE | INVALID.

#[global] Instance ReconcileOutcome_eq : EqDecision ReconcileOutcome.
Proof. solve_decision. Defined.

Definition outcome_value (o : ReconcileOutcome) : string :=
  match o with
  | MATCHED => "matched" | SHORT => "short" | OVER => "over" | UNKNOWN_ORDER => "unknown_order"
  | NOT_DELIVERED => "not_delivered" | DUPLICATE => "duplicate" | INVALID => "invalid"
  end.

Record Reconciliation := {
  r_outcome : ReconcileOutcome;
  r_seller_order_id : option string;
  expected_cents : Z;
  remitted_cents : Z;
  r_detail : string;
}.

Definition ok (r : Reconciliation) : bool := bool_decide (r_outcome r = MATCHED).

Definition needs_attention (r : Reconciliation) : bool :=
  r_outcome r in_ [SHORT; OVER; UNKNOWN_ORDER; NOT_DELIVERED; INVALID].

Definition variance_cents (r : Reconciliation) : Z := remitted_cents r - expected_cents r.

Definition is_text (v : json) (s : string) : bool :=
  match v with JStr t => t =?s s | _ => false end.

(** [f"{n:+d}"] *)
Definition signed (z : Z) : string := if 0 <=? z then "+" +:+ dec z else dec z.

Section reconcile.
Context (repr : json → string).

(** [inl] is an exception of [int(known["expected_cents"])], or an
    [OverflowError] of the amount, which is not caught. *)
Definition reconcile_row (row : list (string * json)) (known : option (list (string * json)))
    (already_settled : bool) : pyexn + Reconciliation :=
  let reference_field := obj_get row "reference" in
  let reference := strip (if truthy reference_field then py_str repr reference_field else "") in
  let answer o ref exp rem d :=
    inr {| r_outcome := o; r_seller_order_id := ref; expected_cents := exp; remitted_cents := rem;
           r_detail := d |} in
  if is_empty reference
  then answer INVALID None 0 0 "settlement row carries no order reference"
  else match py_int_item row "collected_cents" with
  | inl OverflowError => inl OverflowError
  | inl _ => answer INVALID (Some reference) 0 0 ("row " +:+ reference +:+ " has no usable collected amount")
  | inr remitted =>
      if remitted <? 0
      then answer INVALID (Some reference) 0 remitted ("row " +:+ reference +:+ " remits a negative amount")
      else match known with
      | None => answer UNKNOWN_ORDER (Some reference) 0 remitted
                  ("no seller order matches reference " +:+ reference)
      | Some known =>
          let expected_field := obj_get known "expected_cents" in
          match (if truthy expected_field then py_int expected_field else inr 0) with
          | inl e => inl e
          | inr expected =>
              if already_settled : bool
              then answer DUPLICATE (Some reference) expected remitted
                     (reference +:+ " was already settled; ignoring")
              else if negb (is_text (obj_get known "status") "DELIVERED")
              then let st := py_str repr (obj_get known "status") in
                   answer NOT_DELIVERED (Some reference) expected remitted
                     (reference +:+ " is " +:+ st +:+ ", not DELIVERED; cash arrived for an order the " +:+
                      "platform does not believe was delivered")
              else if remitted =? expected
              then answer MATCHED (Some reference) expected remitted "matched"
              else answer (if remitted <? expected then SHORT else OVER) (Some reference) expected remitted
                     (reference +:+ " expected " +:+ dec expected +:+ ", remitted " +:+ dec remitted +:+
                      " (" +:+ signed (remitted - expected) +:+ ")")
          end
      end
  end.
End reconcile.

Record SettlementSummary := {
  s_rows : Z;
  s_matched : Z;
  s_needs_attention : Z;
  s_outcomes : list (string * Z);
  s_variance_cents : Z;
}.

Fixpoint count_outcomes (results : list Reconciliation) (counts : list (string * Z)) : list (string * Z) :=
  match results with
  | [] => counts
  | r :: rest =>
      let v := outcome_value (r_outcome r) in
      count_outcomes rest (dict_set counts v (default 0 (dict_get counts v) + 1))
  end.

Definition summarise_settlement (results : list Reconciliation) : SettlementSummary :=
  let counts := count_outcomes results [] in
  let attention := List.filter needs_attention results in
  {| s_rows := Z.of_nat (length results);
     s_matched := default 0 (dict_get counts (outcome_value MATCHED));
     s_needs_attention := Z.of_nat (length attention);
     s_outcomes := counts;
     s_variance_cents := sumZ variance_cents attention |}.

(** ** What an index holds *)

(** The provider means [c] by the word [k] (normalised) somewhere in its file. *)
Definition says (m : mapping) (k : string) (c : CourierStatus) : Prop :=
  ∃ name words word, (name, words) ∈ m ∧ word ∈ words ∧ courier_status name = Some c ∧
    k = normalise (Some word) ∧ k ≠ "".

Lemma index_words_ok canonical words ix ix' : index_words canonical words ix = inr ix' →
  ∀ k c, dict_get ix' k = Some c ↔
    dict_get ix k = Some c ∨ (c = canonical ∧ k ≠ "" ∧ ∃ word, word ∈ words ∧ k = normalise (Some word)).
Proof.
  revert ix. induction words as [|w words IH]; intros ix H; cbn [index_words] in H.
  - simplify_eq. intros k c. split; [by left|]. intros [?|(_ & _ & w & []%not_elem_of_nil & _)]; done.
  - cbv zeta in H. set (key := normalise (Some w)) in *. unfold is_empty in H.
    destruct (bool_decide_reflect (key = "")) as [He|He].
    + intros k c. rewrite (IH ix H). setoid_rewrite elem_of_cons.
      split; [|intros [?|(-> & Hk & w' & [->|?] & ->)]; [by left|done|right; eauto 8]].
      intros [?|(-> & Hk & w' & ? & ->)]; [by left|right; eauto 8].
    + assert (Hset : index_words canonical words (dict_set ix key canonical) = inr ix' ∧
        (dict_get ix key = None ∨ dict_get ix key = Some canonical)).
      { destruct (dict_get ix key) as [o|] eqn:Eo; [|auto].
        destruct (bool_decide (o = canonical)) eqn:Eb; [|done].
        apply bool_decide_eq_true in Eb. subst o. auto. }
      clear H. destruct Hset as [H Hkey]. intros k c. rewrite (IH _ H). setoid_rewrite elem_of_cons.
      destruct (decide (key = k)) as [<-|Hk].
      * rewrite dict_get_set_eq. split.
        -- intros [Hc|(-> & _ & w' & Hw & E)]; [|right; eauto 8].
           injection Hc as <-. right. split; [done|]. split; [done|]. exists w. auto.
        -- intros [Hc|(-> & _)]; [|by left]. left. destruct Hkey; congruence.
      * rewrite dict_get_set_ne by done. split.
        -- intros [Hc|(-> & ? & w' & ? & ?)]; [by left|right; eauto 8].
        -- intros [Hc|(-> & ? & w' & [->|?] & ?)]; [by left|by destruct Hk|right; eauto 8].
Qed.

Lemma build_from_ok m ix ix' : build_from m ix = inr ix' →
  ∀ k c, dict_get ix' k = Some c ↔ dict_get ix k = Some c ∨ says m k c.
Proof.
  revert ix. induction m as [|[name words] m IH]; intros ix H; cbn [build_from] in H.
  - simplify_eq. intros k c. split; [by left|]. intros [?|(? & ? & ? & []%not_elem_of_nil & _)]; done.
  - destruct (courier_status name) as [cn|] eqn:Ec; [|done].
    destruct (index_words cn words ix) as [e|ix1] eqn:Ew; [done|]. intros k c.
    rewrite (IH ix1 H k c), (index_words_ok _ _ _ _ Ew k c). unfold says. split.
    + intros [[?|(-> & Hk & w & Hw & ->)]|(n & ws & w & Hn & ?)]; [by left| |].
      * right. exists name, words, w. split; [left|]. done.
      * right. exists n, ws, w. split; [by right|]. done.
    + intros [?|(n & ws & w & [[= -> ->]|Hn]%elem_of_cons & Hw & Hc & Hk & Hne)]; [auto| |].
      * left. right. rewrite Ec in Hc. injection Hc as ->. eauto 8.
      * right. exists n, ws, w. done.
Qed.

Lemma build_index_nodup m ix ix' : NoDup ix.*1 → build_from m ix = inr ix' → NoDup ix'.*1.
Proof.
  revert ix. induction m as [|[name words] m IH]; intros ix Hnd H; cbn [build_from] in H; [by simplify_eq|].
  destruct (courier_status name) as [cn|]; [|done].
  destruct (index_words cn words ix) as [e|ix1] eqn:Ew; [done|]. apply (IH ix1); [|done]. clear H IH.
  revert ix Hnd Ew. induction words as [|w words IH]; intros ix Hnd H; cbn [index_words] in H; [by simplify_eq|].
  destruct (is_empty _); [by eapply IH|].
  assert (NoDup (dict_set ix (normalise (Some w)) cn).*1) by (by apply dict_set_nodup).
  destruct (dict_get _ _) as [o|]; [destruct (bool_decide _)|]; by eapply IH.
Qed.

Lemma validate_ok p m : validate_mapping p m = [] →
  ∃ ix, build_index m = inr ix ∧ (∀ k c, dict_get ix k = Some c ↔ says m k c) ∧
    ∀ c, c ∈ REQUIRED_CANONICAL → ∃ k, says m k c.
Proof.
  unfold validate_mapping. destruct (build_index m) as [e|ix] eqn:E; [done|]. intros H. exists ix.
  assert (Hget : ∀ k c, dict_get ix k = Some c ↔ says m k c).
  { intros k c. rewrite (build_from_ok _ _ _ E). split; [|by right]. by intros [?|?]. }
  split; [done|]. split; [done|]. intros c Hc.
  destruct (List.filter _ REQUIRED_CANONICAL) as [|c0 l] eqn:Ef; [|done].
  assert (Hin : c ∈ ix.*2).
  { destruct (decide (c ∈ ix.*2)) as [|Hn]; [done|].
    assert (Hx : c ∈ List.filter (λ s, negb (s in_ ix.*2)) REQUIRED_CANONICAL).
    { apply elem_of_filter_bool. split; [done|]. unfold in_listb. by rewrite bool_decide_false. }
    rewrite Ef in Hx. by apply not_elem_of_nil in Hx. }
  apply list_elem_of_fmap in Hin as ([k c'] & -> & Hin). cbn.
  destruct (dict_get ix k) as [c1|] eqn:Eg.
  2: { assert (Hk : k ∈ ix.*1) by (apply list_elem_of_fmap; by exists (k, c')).
       apply dict_get_is_Some in Hk as [? ?]. congruence. }
  exists k. apply Hget. rewrite Eg. f_equal.
  assert (Hnd : NoDup ix.*1) by exact (build_index_nodup m [] ix (NoDup_nil_2) E).
  pose proof (elem_dict_get ix k c' Hnd Hin). congruence.
Qed.

(** A courier registered under a capitalised slug is known and cannot be found. *)
Lemma capitalised_slug_unreachable :
  ∃ registry, load [{| f_name := "pathao.json";
      f_content := inr (Some "Pathao", None, [("PICKED_UP", ["picked"]); ("DELIVERED", ["done"]);
                                             ("RETURNING", ["rto"]); ("RETURNED", ["back"])]) |}] = inr registry ∧
    known registry = ["Pathao"] ∧ get registry "Pathao" = None.
Proof. eexists. split; [vm_compute; reflexivity|]. by vm_compute. Qed.

End CourierRules.
