(* ===== verification/ShipmentService.v ===== *)
(** * Shipments, courier callbacks and settlement files (services/fulfillment-service,
    shipment_service.py)

    The registry of couriers, what order-saga answers to a driven action and what
    it reports of a seller order are arguments: the first is loaded from
    configuration, the others are calls to another service, made inside its
    breaker.  A query of the session flushes pending rows first, so the rows of a
    file already reconciled are seen by the later ones.  No lock is taken while a
    file is ingested, and order-saga is asked between its queries: [floor] lets
    any number of files be in progress, and shipments and callbacks be handled in
    between. *)

From S2P Require Import Prelude PyValue Session OrderDb SplitRules CodRules CourierRules.
Import OrderDb CourierRules.

Module ShipmentService.

Record Shipment := {
  sh_id : string;
  sh_seller_order_id : string;
  sh_order_id : string;
  sh_provider : string;
  sh_tracking_code : option string;
  sh_status : string;
  sh_raw_status : option string;
  sh_raw_status_at : option Z;
  sh_unmapped : bool;
  sh_cod_amount_cents : Z;
  sh_currency : string;
  sh_created_at : Z;
  sh_updated_at : Z;
}.

Record SettlementRow := {
  sr_provider : string;
  sr_batch_reference : string;
  sr_row_reference : string;
  sr_seller_order_id : option string;
  sr_expected_cents : Z;
  sr_collected_cents : Z;
  sr_outcome : string;
  sr_detail : string;
}.

Record db := {
  shipments : list Shipment;
  settlement_rows : list SettlementRow;
  sh_outbox : list OutboxMessage;
  sh_draws : nat;
}.

Definition with_shipments (f : list Shipment → list Shipment) (d : db) : db :=
  {| shipments := f (shipments d); settlement_rows := settlement_rows d; sh_outbox := sh_outbox d;
     sh_draws := sh_draws d |}.
Definition with_settlement_rows (f : list SettlementRow → list SettlementRow) (d : db) : db :=
  {| shipments := shipments d; settlement_rows := f (settlement_rows d); sh_outbox := sh_outbox d;
     sh_draws := sh_draws d |}.
Definition with_sh_outbox (f : list OutboxMessage → list OutboxMessage) (d : db) : db :=
  {| shipments := shipments d; settlement_rows := settlement_rows d; sh_outbox := f (sh_outbox d);
     sh_draws := sh_draws d |}.
Definition sh_draw (d : db) : db :=
  {| shipments := shipments d; settlement_rows := settlement_rows d; sh_outbox := sh_outbox d;
     sh_draws := S (sh_draws d) |}.

Record ShipmentCreateRequest := {
  sc_seller_order_id : string;
  sc_order_id : string;
  sc_provider : string;
  sc_tracking_code : option string;
  sc_cod_amount_cents : Z;
  sc_currency : string;
}.

Record CourierCallbackRequest := {
  cb_tracking_code : option string;
  cb_seller_order_id : option string;
  cb_status : string;
  cb_occurred_at : option Z;
}.

Record SettlementRowInput := { si_reference : string; si_collected_cents : Z }.

Record SettlementRequest := {
  st_provider : string;
  st_batch_reference : string;
  st_rows : list SettlementRowInput;
}.

Record CallbackResponse := {
  cr_shipment_id : string;
  cr_provider : string;
  cr_raw_status : string;
  cr_canonical_status : option string;
  cr_action : option string;
  cr_action_result : option string;
  cr_unmapped : bool;
}.

(** How the call to order-saga went. *)
Inductive saga_reply := ShortCircuited | Unreachable | Answered (status_code : Z).

(** The outcome word of [_drive_seller_order]. *)
Definition _drive_seller_order (reply : saga_reply) : string :=
  match reply with
  | ShortCircuited => "unavailable"
  | Unreachable => "unreachable"
  | Answered c =>
      if c =? 200 then "applied" else if c =? 409 then "not_applicable" else "rejected_" +:+ dec c
  end.

Section handlers.
Context (registry : list (string * Courier)) (repr : json → string) (uuid4 : nat → string).
Context (fault : db → option string).
(** [POST .../seller-orders/{id}/{action}] and [GET .../seller-orders], the
    latter already searched for the seller order: expected cents and status. *)
Context (post_action : string → string → string → string → saga_reply).
Context (snapshot : string → string → option (json * json)).

Definition emit (agg_type agg_id ty : string) (body : list (string * json)) (now : Z) : M db unit :=
  exec (with_sh_outbox (λ ms, ms ++
    [{| aggregate_type := agg_type; aggregate_id := agg_id; msg_type := ty; payload := body;
        msg_created_at := now |}])).

(** [await db.flush()]: the pending INSERTs reach the database, which may refuse
    them; nothing catches that. *)
Definition flush : M db unit :=
  e <- query fault ;; match e with None => ret tt | Some text => raise (Raised text) end.

Definition unknown_courier (p : string) : string := "unknown courier " +:+ repr_str p.

(** ** create_shipment *)

Definition create_shipment (request : ShipmentCreateRequest) (now : Z) : M db Shipment :=
  match get registry (sc_provider request) with
  | None => raise (Http 422 (unknown_courier (sc_provider request) +:+ "; configured: " +:+
              join ", " (known registry) +:+ ". A courier with no status mapping would accept " +:+
              "callbacks and move nothing."))
  | Some courier =>
      existing <- query (λ d, List.filter (λ s, sh_seller_order_id s =?s sc_seller_order_id request) (shipments d)) ;;
      match existing with
      | [] =>
          n <- query sh_draws ;;
          exec sh_draw ;;;
          let shipment :=
            {| sh_id := uuid4 n; sh_seller_order_id := sc_seller_order_id request;
               sh_order_id := sc_order_id request; sh_provider := provider courier;
               sh_tracking_code := sc_tracking_code request; sh_status := "PICKUP_PENDING";
               sh_raw_status := None; sh_raw_status_at := None; sh_unmapped := false;
               sh_cod_amount_cents := sc_cod_amount_cents request;
               sh_currency := upper (sc_currency request); sh_created_at := now; sh_updated_at := now |} in
          exec (with_shipments (λ ss, ss ++ [shipment])) ;;;
          flush ;;;
          emit "Shipment" (sh_id shipment) "ShipmentCreated"
            [("shipment_id", JStr (sh_id shipment));
             ("seller_order_id", JStr (sh_seller_order_id shipment));
             ("order_id", JStr (sh_order_id shipment)); ("provider", JStr (sh_provider shipment));
             ("tracking_code", opt_str (sh_tracking_code shipment));
             ("cod_amount_cents", JInt (sh_cod_amount_cents shipment))] now ;;;
          commit fault ;;;
          ret shipment
      | [already] =>
          raise (Http 409 ("seller order " +:+ sc_seller_order_id request +:+
                           " already has a shipment with " +:+ sh_provider already))
      | _ => raise (Raised "MultipleResultsFound")
      end
  end.

(** ** handle_callback *)

Definition reported_as (courier : Courier) (request : CourierCallbackRequest) (now : Z) (s : Shipment) : Shipment :=
  let c := canonical courier (Some (cb_status request)) in
  {| sh_id := sh_id s; sh_seller_order_id := sh_seller_order_id s; sh_order_id := sh_order_id s;
     sh_provider := sh_provider s; sh_tracking_code := sh_tracking_code s;
     sh_status := match c with Some c => value c | None => sh_status s end;
     sh_raw_status := Some (cb_status request);
     sh_raw_status_at := Some (default now (cb_occurred_at request));
     sh_unmapped := match c with None => true | Some _ => false end;
     sh_cod_amount_cents := sh_cod_amount_cents s; sh_currency := sh_currency s;
     sh_created_at := sh_created_at s; sh_updated_at := now |}.

Definition parcel_filter (courier : Courier) (request : CourierCallbackRequest) : option (Shipment → bool) :=
  let of_courier s := sh_provider s =?s provider courier in
  match cb_tracking_code request, cb_seller_order_id request with
  | Some (String _ _ as code), _ => Some (λ s, of_courier s && bool_decide (sh_tracking_code s = Some code))
  | _, Some o => Some (λ s, of_courier s && (sh_seller_order_id s =?s o))
  | _, None => None
  end.

Definition handle_callback (p : string) (request : CourierCallbackRequest) (now : Z) : M db CallbackResponse :=
  match get registry p with
  | None => raise (Http 404 (unknown_courier p))
  | Some courier =>
      match parcel_filter courier request with
      | None => raise (Http 422 "a callback must identify the parcel by tracking_code or seller_order_id")
      | Some wanted =>
          found <- query (λ d, List.filter wanted (shipments d)) ;;
          match found with
          | [] => raise (Http 404 "no such shipment")
          | [shipment] =>
              let c := canonical courier (Some (cb_status request)) in
              let action := action_for c in
              exec (with_shipments (update_where (λ s, sh_id s =?s sh_id shipment) (reported_as courier request now))) ;;;
              emit "Shipment" (sh_id shipment)
                (match c with None => "ShipmentStatusUnmapped" | Some _ => "ShipmentStatusChanged" end)
                [("shipment_id", JStr (sh_id shipment));
                 ("seller_order_id", JStr (sh_seller_order_id shipment));
                 ("order_id", JStr (sh_order_id shipment)); ("provider", JStr (sh_provider shipment));
                 ("raw_status", JStr (cb_status request));
                 ("canonical_status", opt_str (value <$> c)); ("action", opt_str action)] now ;;;
              commit fault ;;;
              ret {| cr_shipment_id := sh_id shipment; cr_provider := sh_provider shipment;
                     cr_raw_status := cb_status request; cr_canonical_status := value <$> c;
                     cr_action := action;
                     cr_action_result :=
                       (λ a, _drive_seller_order (post_action (sh_order_id shipment) (sh_seller_order_id shipment) a
                               ("courier " +:+ p +:+ " reported " +:+ cb_status request))) <$> action;
                     cr_unmapped := match c with None => true | Some _ => false end |}
          | _ => raise (Raised "MultipleResultsFound")
          end
      end
  end.

(** ** ingest_settlement *)

Definition _seller_order_snapshot (order_id seller_order_id : string) : option (list (string * json)) :=
  (λ '(cents, st), [("expected_cents", cents); ("status", st)]) <$> snapshot order_id seller_order_id.

(** What the platform expects for a shipment: order-saga's word, or the figure
    copied at dispatch. *)
Definition expectation (s : Shipment) : list (string * json) :=
  match _seller_order_snapshot (sh_order_id s) (sh_seller_order_id s) with
  | Some k => k
  | None => [("expected_cents", JInt (sh_cod_amount_cents s)); ("status", JStr (sh_status s))]
  end.

Definition matched_before (seller_order : string) (d : db) : bool :=
  existsb (λ r, bool_decide (sr_seller_order_id r = Some seller_order) &&
                (sr_outcome r =?s outcome_value MATCHED)) (settlement_rows d).

Definition settlement_row (p batch reference : string) (so : option string) (r : Reconciliation) : SettlementRow :=
  {| sr_provider := p; sr_batch_reference := batch; sr_row_reference := reference;
     sr_seller_order_id := so; sr_expected_cents := expected_cents r;
     sr_collected_cents := remitted_cents r; sr_outcome := outcome_value (r_outcome r);
     sr_detail := take_chars 1024 (r_detail r) |}.

(** The shipments a row may be about. *)
Definition shipments_of (courier : Courier) (row : SettlementRowInput) (d : db) : list Shipment :=
  List.filter (λ s, (sh_provider s =?s provider courier) && bool_decide (sh_tracking_code s = Some (strip (si_reference row)))) (shipments d).

(** The rest of the loop's body: the outcomes so far, and this one. *)
Definition reconcile_found (courier : Courier) (batch : string) (results : list Reconciliation)
    (row : SettlementRowInput) (found : list Shipment) : M db (list Reconciliation) :=
  let reference := strip (si_reference row) in
  match found with
  | _ :: _ :: _ => raise (Raised "MultipleResultsFound")
  | _ =>
      let shipment := head found in
      settled_before <- query (λ d, match shipment with
                                    | Some s => matched_before (sh_seller_order_id s) d
                                    | None => false end) ;;
      match reconcile_row repr [("reference", JStr reference); ("collected_cents", JInt (si_collected_cents row))]
              (expectation <$> shipment) settled_before with
      | inl _ => raise (Raised "expected_cents is not a number")
      | inr outcome =>
          exec (with_settlement_rows (λ rs, rs ++
            [settlement_row (provider courier) batch reference (sh_seller_order_id <$> shipment) outcome])) ;;;
          ret (results ++ [outcome])
      end
  end.

(** One row of the file. *)
Definition ingest_row (courier : Courier) (batch : string) (results : list Reconciliation)
    (row : SettlementRowInput) : M db (list Reconciliation) :=
  found <- query (shipments_of courier row) ;;
  reconcile_found courier batch results row found.

Definition summary_fields (s : SettlementSummary) : list (string * json) :=
  [("rows", JInt (s_rows s)); ("matched", JInt (s_matched s));
   ("needs_attention", JInt (s_needs_attention s));
   ("outcomes", JObj (map (λ '(k, n), (k, JInt n)) (s_outcomes s)));
   ("variance_cents", JInt (s_variance_cents s))].

(** After the loop: the summary, the event, the commit. *)
Definition close_file (request : SettlementRequest) (results : list Reconciliation) (now : Z) : M db SettlementSummary :=
  let summary := summarise_settlement results in
  emit "Settlement" (st_provider request +:+ ":" +:+ st_batch_reference request) "SettlementReconciled"
    ([("provider", JStr (st_provider request)); ("batch_reference", JStr (st_batch_reference request))] ++
     summary_fields summary) now ;;;
  failed <- try_commit fault ;;
  match failed with
  | Some _ => raise (Http 409 ("batch " +:+ st_batch_reference request +:+
                               " has already been ingested for " +:+ st_provider request))
  | None => ret summary
  end.

Definition ingest_settlement (request : SettlementRequest) (now : Z) : M db SettlementSummary :=
  match get registry (st_provider request) with
  | None => raise (Http 404 (unknown_courier (st_provider request)))
  | Some courier =>
      results <- fold_each (st_rows request) [] (ingest_row courier (st_batch_reference request)) ;;
      close_file request results now
  end.
End handlers.

(** ** What a settlement file does *)

Definition is_matched (so : string) (r : SettlementRow) : bool :=
  bool_decide (sr_seller_order_id r = Some so) && (sr_outcome r =?s outcome_value MATCHED).

(** A row stands for the outcome it was made from. *)
Definition stands_for (r : SettlementRow) (o : Reconciliation) : Prop :=
  sr_outcome r = outcome_value (r_outcome o) ∧ sr_expected_cents r = expected_cents o ∧
  sr_collected_cents r = remitted_cents o.

Lemma outcome_value_inj : Inj (=) (=) outcome_value.
Proof. by intros [] [] H; try (exfalso; revert H; by vm_compute). Qed.

Lemma reconcile_matched repr row known settled r :
  reconcile_row repr row known settled = inr r → r_outcome r = MATCHED →
  settled = false ∧ is_Some known ∧ remitted_cents r = expected_cents r.
Proof.
  unfold reconcile_row. cbv zeta. intros H Ho.
  destruct (is_empty _); [by simplify_eq|]. destruct (py_int_item _ _) as [[]|rem]; try by simplify_eq.
  destruct (rem <? 0); [by simplify_eq|]. destruct known as [k|]; [|by simplify_eq].
  destruct (if truthy _ then _ else _) as [|ex]; [done|]. destruct settled; [by simplify_eq|].
  destruct (negb _); [by simplify_eq|]. destruct (rem =? ex) eqn:E.
  - bool_to_prop. simplify_eq. split_and!; [done|eauto|done].
  - injection H as <-. cbn in Ho. by destruct (rem <? ex).
Qed.

(** ** Files in progress *)

(** A file being ingested: the rows its session has added and not committed, the
    outcomes, the lines still to come, and the shipments found for the next line
    once they have been looked up. *)
Record file := File {
  in_courier : Courier;
  in_request : SettlementRequest;
  in_rows : list SettlementRow;
  in_results : list Reconciliation;
  in_left : list SettlementRowInput;
  in_found : option (list Shipment);
}.

Definition opened (courier : Courier) (request : SettlementRequest) : file := File courier request [] [] (st_rows request) None.

(** What a session that has added [own] reads: what is committed by then, and its own rows. *)
Definition seen (own : list SettlementRow) (d : db) : db := with_settlement_rows (λ rs, rs ++ own) d.

Definition session_of (f : file) (d : db) : session db := Session d (seen (in_rows f) d).

(** The next line, with the shipments that were found for it: [None] is an exception. *)
Definition reconcile_next (repr : json → string) (snapshot : string → string → option (json * json)) (d : db) (f : file) : option file :=
  match in_left f, in_found f with
  | line :: lines, Some found =>
      match reconcile_found repr snapshot (in_courier f) (st_batch_reference (in_request f)) (in_results f) line found (session_of f d) with
      | (s, inr results) => Some (File (in_courier f) (in_request f) (drop (length (settlement_rows d)) (settlement_rows (working s))) results lines None)
      | (_, inl _) => None
      end
  | _, _ => None
  end.

Definition look_up (d : db) (f : file) : file :=
  match in_left f with
  | line :: _ => File (in_courier f) (in_request f) (in_rows f) (in_results f) (in_left f) (Some (shipments_of (in_courier f) line d))
  | [] => f
  end.

(** The end of the request on the database as it is by then. *)
Definition closed (fault : db → option string) (now : Z) (d : db) (f : file) : db * (exn + SettlementSummary) :=
  match close_file fault (in_request f) (in_results f) now (session_of f d) with (s, r) => (committed s, r) end.

Record floor := Floor { fl_db : db; fl_files : list file }.

(** Steps of the service with at most [n] files in progress at once.  A file may
    fail at any moment, and then its session rolls back. *)
Inductive floor_step (registry : list (string * Courier)) (repr : json → string) (uuid4 : nat → string) (n : nat) (w : floor) : floor → Prop :=
| floor_create fault request now :
    floor_step registry repr uuid4 n w (Floor (run (create_shipment registry uuid4 fault request now) (fl_db w)).1 (fl_files w))
| floor_callback fault post p request now :
    floor_step registry repr uuid4 n w (Floor (run (handle_callback registry fault post p request now) (fl_db w)).1 (fl_files w))
| floor_open courier request : get registry (st_provider request) = Some courier → (length (fl_files w) < n)%nat →
    floor_step registry repr uuid4 n w (Floor (fl_db w) (fl_files w ++ [opened courier request]))
| floor_look fs1 f fs2 : fl_files w = fs1 ++ f :: fs2 →
    floor_step registry repr uuid4 n w (Floor (fl_db w) (fs1 ++ look_up (fl_db w) f :: fs2))
| floor_line fs1 f fs2 snapshot f' : fl_files w = fs1 ++ f :: fs2 → reconcile_next repr snapshot (fl_db w) f = Some f' →
    floor_step registry repr uuid4 n w (Floor (fl_db w) (fs1 ++ f' :: fs2))
| floor_close fs1 f fs2 fault now : fl_files w = fs1 ++ f :: fs2 → in_left f = [] →
    floor_step registry repr uuid4 n w (Floor (closed fault now (fl_db w) f).1 (fs1 ++ fs2))
| floor_fail fs1 f fs2 : fl_files w = fs1 ++ f :: fs2 → floor_step registry repr uuid4 n w (Floor (fl_db w) (fs1 ++ fs2)).

(** *** One line *)

(** A row of outcome [o], written when [rs] are the rows its session reads. *)
Record written_over (rs : list SettlementRow) (r : SettlementRow) (o : Reconciliation) : Prop := {
  wo_stands : stands_for r o;
  wo_matched : r_outcome o = MATCHED → ∃ so, sr_seller_order_id r = Some so ∧ existsb (is_matched so) rs = false ∧ remitted_cents o = expected_cents o;
}.

Lemma found_cases courier repr snapshot batch results line found (s : session db) :
  (∃ e, reconcile_found repr snapshot courier batch results line found s = (s, inl e)) ∨
  (∃ row o, reconcile_found repr snapshot courier batch results line found s =
       (Session (committed s) (with_settlement_rows (λ rs, rs ++ [row]) (working s)), inr (results ++ [o])) ∧
     written_over (settlement_rows (working s)) row o ∧ sr_row_reference row = strip (si_reference line)).
Proof.
  unfold reconcile_found. destruct s as [c w]. destruct found as [|sh [|]]; [| |left; eauto].
  all: symex; destruct (reconcile_row _ _ _ _) as [e|o] eqn:Er; [left; eauto|right]; symex;
    do 2 eexists; (split; [reflexivity|]); (split; [split; [done|]|done]); intros Hm;
    destruct (reconcile_matched _ _ _ _ _ Er Hm) as (Hs & Hk & Heq).
  - by destruct Hk.
  - exists (sh_seller_order_id sh). split; [done|]. split; [exact Hs|done].
Qed.

Lemma written_is_matched rs r o so : written_over rs r o → is_matched so r = true → existsb (is_matched so) rs = false ∧ sr_collected_cents r = sr_expected_cents r.
Proof.
  intros [(Hv & He & Hc) Hm] Em. unfold is_matched in Em. apply andb_true_iff in Em as [Eso%bool_decide_eq_true Eo%bool_decide_eq_true].
  destruct Hm as (so' & Hso & Hno & Heq); [apply outcome_value_inj; by rewrite <-Hv|]. split; [congruence|congruence].
Qed.

Lemma existsb_none {A} (p : A → bool) l : existsb p l = false ↔ List.filter p l = [].
Proof.
  induction l as [|x l IH]; [done|]. cbn. destruct (p x); [done|]. exact IH.
Qed.

(** *** Bounds *)

Definition matched_in (so : string) (rs : list SettlementRow) : nat := length (List.filter (is_matched so) rs).

Definition exact_row (r : SettlementRow) : Prop :=
  sr_outcome r = outcome_value MATCHED → is_Some (sr_seller_order_id r) ∧ sr_collected_cents r = sr_expected_cents r.

Lemma written_exact rs r o : written_over rs r o → exact_row r.
Proof.
  intros [(Hv & He & Hc) Hm] Eo. destruct Hm as (so & Hso & _ & Heq); [apply outcome_value_inj; by rewrite <-Hv|]. split; [by eexists|congruence].
Qed.

(** What a file in progress has so far. *)
Record file_ok (f : file) : Prop := {
  fo_once : ∀ so, (matched_in so (in_rows f) ≤ 1)%nat;
  fo_exact : Forall exact_row (in_rows f);
  fo_results : Forall2 stands_for (in_rows f) (in_results f);
  fo_lines : map sr_row_reference (in_rows f) ++ map (strip ∘ si_reference) (in_left f) = map (strip ∘ si_reference) (st_rows (in_request f));
}.

(** Matches of an order by the files in progress. *)
Definition pending (so : string) (fs : list file) : nat := foldr (λ f k, (matched_in so (in_rows f) + k)%nat) 0%nat fs.

Record floor_ok (n : nat) (w : floor) : Prop := {
  fk_bound : ∀ so, (matched_in so (settlement_rows (fl_db w)) + pending so (fl_files w) ≤ n)%nat;
  fk_files : Forall file_ok (fl_files w);
  fk_open : (length (fl_files w) ≤ n)%nat;
  fk_exact : Forall exact_row (settlement_rows (fl_db w));
}.

Lemma pending_app so fs fs' : pending so (fs ++ fs') = (pending so fs + pending so fs')%nat.
Proof. unfold pending. induction fs as [|f fs IH]; [done|]. cbn. rewrite IH. lia. Qed.

Lemma pending_bound so fs : Forall file_ok fs → (pending so fs ≤ length fs)%nat.
Proof. unfold pending. induction 1 as [|f fs Hf _ IH]; [done|]. cbn. pose proof (fo_once f Hf so). lia. Qed.

Lemma matched_in_app so rs rs' : matched_in so (rs ++ rs') = (matched_in so rs + matched_in so rs')%nat.
Proof. unfold matched_in. by rewrite List.filter_app, length_app. Qed.

(** The next line keeps the file in order, and adds a match only where neither
    the database nor the file has one. *)
Lemma next_ok repr snapshot d f f' : reconcile_next repr snapshot d f = Some f' → file_ok f →
  file_ok f' ∧ in_request f' = in_request f ∧
  ∀ so, matched_in so (in_rows f') = matched_in so (in_rows f) ∨
    matched_in so (settlement_rows d) = 0%nat ∧ matched_in so (in_rows f) = 0%nat ∧ matched_in so (in_rows f') = 1%nat.
Proof.
  intros H Hf. unfold reconcile_next in H. destruct (in_left f) as [|line lines] eqn:El; [done|]. destruct (in_found f) as [found|]; [|done].
  destruct (found_cases (in_courier f) repr snapshot (st_batch_reference (in_request f)) (in_results f) line found (session_of f d))
    as [(e & E)|(row & o & E & Hw & Href)]; rewrite E in H; [done|]. injection H as <-.
  unfold session_of, seen, with_settlement_rows. cbn [working committed settlement_rows]. rewrite <-(assoc_L (++)), drop_app_length.
  unfold session_of, seen, with_settlement_rows in Hw. cbn [working settlement_rows] in Hw.
  assert (Hadd : ∀ so, matched_in so (in_rows f ++ [row]) = matched_in so (in_rows f) ∨
    matched_in so (settlement_rows d) = 0%nat ∧ matched_in so (in_rows f) = 0%nat ∧ matched_in so (in_rows f ++ [row]) = 1%nat).
  { intros so. assert (E1 : matched_in so [row] = if is_matched so row then 1%nat else 0%nat) by (unfold matched_in; cbn; by destruct (is_matched so row)).
    rewrite matched_in_app, E1. destruct (is_matched so row) eqn:Em; [right|left; lia].
    destruct (written_is_matched _ _ _ so Hw Em) as [Hno _]. rewrite existsb_app in Hno. apply orb_false_iff in Hno as [H1%existsb_none H2%existsb_none].
    unfold matched_in. rewrite H1, H2. done. }
  destruct Hf as [H1 H2 H3 H4]. split; [|split; [done|exact Hadd]]. split; cbn [in_rows in_results in_left in_request].
  - intros so. specialize (H1 so). destruct (Hadd so) as [->|(_ & _ & ->)]; lia.
  - apply Forall_app. split; [done|]. constructor; [by eapply written_exact|constructor].
  - apply Forall2_app; [done|]. constructor; [apply Hw|constructor].
  - rewrite El in H4. rewrite map_app, <-(assoc_L (++)). cbn [map app]. rewrite Href. exact H4.
Qed.

Definition filed (request : SettlementRequest) (d d' : db) (summary : SettlementSummary) : Prop :=
  ∃ new, settlement_rows d' = settlement_rows d ++ new ∧
    map sr_row_reference new = map (strip ∘ si_reference) (st_rows request) ∧
    (∀ so, (matched_in so new ≤ 1)%nat) ∧
    s_rows summary = Z.of_nat (length new) ∧
    s_matched summary = Z.of_nat (length (List.filter (λ r, sr_outcome r =?s outcome_value MATCHED) new)) ∧
    s_rows summary = s_matched summary + s_needs_attention summary +
      Z.of_nat (length (List.filter (λ r, sr_outcome r =?s outcome_value DUPLICATE) new)).

Lemma count_outcomes_get results counts o :
  default 0 (dict_get (count_outcomes results counts) (outcome_value o)) =
  default 0 (dict_get counts (outcome_value o)) +
  Z.of_nat (length (List.filter (λ r, bool_decide (r_outcome r = o)) results)).
Proof.
  revert counts. induction results as [|r results IH]; intros counts; cbn [count_outcomes List.filter]; [cbn; lia|].
  cbv zeta. rewrite IH. destruct (bool_decide_reflect (r_outcome r = o)) as [<-|Hne].
  - rewrite dict_get_set_eq. cbn [from_option length]. unfold Datatypes.id. lia.
  - rewrite dict_get_set_ne by (by intros ?%outcome_value_inj). lia.
Qed.

Lemma filter_stands_for o rs os :
  Forall2 stands_for rs os →
  length (List.filter (λ r, sr_outcome r =?s outcome_value o) rs) =
  length (List.filter (λ r, bool_decide (r_outcome r = o)) os).
Proof.
  induction 1 as [|r x rs os (Hv & _) _ IH]; [done|]. cbn [List.filter].
  rewrite Hv. rewrite (bool_decide_ext (outcome_value (r_outcome x) = outcome_value o) (r_outcome x = o)).
  2: { split; [apply outcome_value_inj|by intros ->]. }
  destruct (bool_decide _); cbn; by rewrite IH.
Qed.

Lemma outcomes_partition os :
  Z.of_nat (length os) =
  Z.of_nat (length (List.filter (λ r, bool_decide (r_outcome r = MATCHED)) os)) +
  Z.of_nat (length (List.filter needs_attention os)) +
  Z.of_nat (length (List.filter (λ r, bool_decide (r_outcome r = DUPLICATE)) os)).
Proof.
  induction os as [|r os IH]; [done|]. cbn [List.filter length].
  assert (Hone : (if bool_decide (r_outcome r = MATCHED) then 1 else 0) +
    (if needs_attention r then 1 else 0) + (if bool_decide (r_outcome r = DUPLICATE) then 1 else 0) = 1).
  { unfold needs_attention. destruct r as [[] ? ? ? ?]; reflexivity. }
  destruct (bool_decide (r_outcome r = MATCHED)), (needs_attention r), (bool_decide (r_outcome r = DUPLICATE));
    cbn [length] in *; lia.
Qed.

Lemma summary_facts rs os : Forall2 stands_for rs os →
  let summary := summarise_settlement os in
  s_rows summary = Z.of_nat (length rs) ∧
  s_matched summary = Z.of_nat (length (List.filter (λ r, sr_outcome r =?s outcome_value MATCHED) rs)) ∧
  s_rows summary = s_matched summary + s_needs_attention summary +
    Z.of_nat (length (List.filter (λ r, sr_outcome r =?s outcome_value DUPLICATE) rs)).
Proof.
  intros HF summary. rewrite !(filter_stands_for _ _ _ HF).
  assert (Hm : s_matched summary = Z.of_nat (length (List.filter (λ r, bool_decide (r_outcome r = MATCHED)) os)))
    by exact (count_outcomes_get os [] MATCHED).
  split; [by rewrite (Forall2_length _ _ _ HF)|]. split; [exact Hm|]. rewrite Hm. apply outcomes_partition.
Qed.

(** The end of a file: nothing, or all of its rows. *)
Lemma closed_cases fault now d f : closed fault now d f = (d, inl (Http 409 ("batch " +:+ st_batch_reference (in_request f) +:+
    " has already been ingested for " +:+ st_provider (in_request f)))) ∨
  settlement_rows (closed fault now d f).1 = settlement_rows d ++ in_rows f ∧ (closed fault now d f).2 = inr (summarise_settlement (in_results f)).
Proof.
  unfold closed, close_file, emit, session_of. rewrite bind_exec, bind_try_commit. cbn [working committed].
  destruct (fault _); [left; reflexivity|right; by split].
Qed.

Lemma closed_filed fault now d f : file_ok f → in_left f = [] →
  match (closed fault now d f).2 with inl _ => (closed fault now d f).1 = d | inr summary => filed (in_request f) d (closed fault now d f).1 summary end.
Proof.
  intros [H1 H2 H3 H4] El. destruct (closed_cases fault now d f) as [->|(Er & ->)]; [done|]. exists (in_rows f).
  split; [done|]. split; [rewrite El in H4; cbn in H4; by rewrite app_nil_r in H4|]. split; [done|]. by apply summary_facts.
Qed.

(** ** Every step keeps the bound *)

(** Handlers that write no settlement row. *)
Lemma create_rows registry uuid4 fault request now d :
  settlement_rows (run (create_shipment registry uuid4 fault request now) d).1 = settlement_rows d.
Proof.
  unfold run, create_shipment. destruct (get _ _) as [courier|]; [|done]. symex.
  destruct (List.filter _ _) as [|? [|]]; [|done..]. symex. unfold flush. symex.
  destruct (fault _); [done|]. unfold emit. symex. by destruct (fault _).
Qed.

Lemma callback_run registry fault post p request now d :
  settlement_rows (run (handle_callback registry fault post p request now) d).1 = settlement_rows d.
Proof.
  unfold run, handle_callback. destruct (get _ _) as [courier|]; [|done].
  destruct (parcel_filter _ _); [|done]. symex.
  destruct (List.filter _ _) as [|? [|]]; [done| |done]. unfold emit. symex. by destruct (fault _).
Qed.

Lemma look_up_rows d f : in_rows (look_up d f) = in_rows f ∧ (file_ok f → file_ok (look_up d f)).
Proof. unfold look_up. destruct (in_left f) eqn:E; [done|]. split; [done|]. intros [H1 H2 H3 H4]. rewrite E in H4. by split. Qed.

(** A file replaced by one with no more matches. *)
Lemma replace_ok n d fs1 f f' fs2 : floor_ok n (Floor d (fs1 ++ f :: fs2)) → file_ok f' →
  (∀ so, matched_in so (in_rows f') = matched_in so (in_rows f) ∨
     matched_in so (settlement_rows d) = 0%nat) →
  floor_ok n (Floor d (fs1 ++ f' :: fs2)).
Proof.
  intros [Hb Hf Ho He] Hf' Hm. cbn [fl_db fl_files] in *.
  apply Forall_app in Hf as [Hf1 Hf2]. apply Forall_cons_iff in Hf2 as [_ Hf2]. rewrite length_app in Ho. cbn [length] in Ho.
  assert (Hall : Forall file_ok (fs1 ++ f' :: fs2)) by (apply Forall_app; split; [done|by constructor]).
  split; cbn [fl_db fl_files]; [|done|rewrite length_app; cbn [length]; lia|done].
  intros so. destruct (Hm so) as [E|E].
  - specialize (Hb so). rewrite pending_app in Hb |- *. cbn [pending foldr] in Hb |- *. rewrite E. exact Hb.
  - rewrite E. pose proof (pending_bound so _ Hall) as Hp. rewrite length_app in Hp. cbn [length] in Hp. lia.
Qed.

Lemma floor_step_ok registry repr uuid4 n w w' : floor_step registry repr uuid4 n w w' → floor_ok n w → floor_ok n w'.
Proof.
  destruct w as [d fs]. intros Hs Hok. destruct Hs as [fault request now|fault post p request now|courier request Hget Hlen|fs1 f fs2 E|fs1 f fs2 snapshot f' E Hn|fs1 f fs2 fault now E El|fs1 f fs2 E];
    cbn [fl_db fl_files] in *; try subst fs.
  - destruct Hok as [Hb Hf Ho He]. split; cbn [fl_db fl_files] in *; rewrite ?create_rows; done.
  - destruct Hok as [Hb Hf Ho He]. split; cbn [fl_db fl_files] in *; rewrite ?callback_run; done.
  - destruct Hok as [Hb Hf Ho He]. split; cbn [fl_db fl_files] in *; [|apply Forall_app; split; [done|]|rewrite length_app; cbn; lia|done].
    + intros so. rewrite pending_app. cbn. specialize (Hb so). lia.
    + constructor; [|constructor]. split; [intros so; cbn; lia|constructor|constructor|done].
  - destruct (look_up_rows d f) as [E Hf]. eapply replace_ok; [exact Hok| |intros so; left; by rewrite E].
    apply Hf. pose proof (fk_files _ _ Hok) as HF. cbn in HF. apply Forall_app in HF as [_ HF]. by apply Forall_cons_iff in HF as [HF _].
  - pose proof (fk_files _ _ Hok) as HF. cbn in HF. apply Forall_app in HF as [_ HF]. apply Forall_cons_iff in HF as [HF _].
    destruct (next_ok _ _ _ _ _ Hn HF) as (Hf' & _ & Hm). eapply replace_ok; [exact Hok|done|]. intros so. destruct (Hm so) as [?|(? & _)]; auto.
  - destruct Hok as [Hb Hf Ho He]. cbn [fl_db fl_files] in *. apply Forall_app in Hf as [Hf1 Hf2]. apply Forall_cons_iff in Hf2 as [Hf Hf2].
    rewrite length_app in Ho. cbn [length] in Ho.
    split; cbn [fl_db fl_files]; [|by apply Forall_app|rewrite length_app; lia|].
    + intros so. specialize (Hb so). rewrite pending_app in Hb |- *. cbn [pending foldr] in Hb. fold (pending so fs2) in Hb.
      destruct (closed_cases fault now d f) as [->|(-> & _)]; cbn [fst]; [lia|]. rewrite matched_in_app. lia.
    + destruct (closed_cases fault now d f) as [->|(-> & _)]; cbn [fst]; [done|]. apply Forall_app. split; [done|apply Hf].
  - destruct Hok as [Hb Hf Ho He]. cbn [fl_db fl_files] in *. apply Forall_app in Hf as [Hf1 Hf2]. apply Forall_cons_iff in Hf2 as [_ Hf2].
    rewrite length_app in Ho. cbn [length] in Ho. split; cbn [fl_db fl_files]; [|by apply Forall_app|rewrite length_app; lia|done].
    intros so. specialize (Hb so). rewrite pending_app in Hb |- *. cbn [pending foldr] in Hb. fold (pending so fs2) in Hb. lia.
Qed.

(** ** A file ingested without interruption is the handler *)

Lemma seen_snoc own row d : with_settlement_rows (λ rs, rs ++ [row]) (seen own d) = seen (own ++ [row]) d.
Proof. unfold seen, with_settlement_rows. cbn. by rewrite <-(assoc_L (++)). Qed.

Lemma seen_nil d : seen [] d = d.
Proof. destruct d. unfold seen, with_settlement_rows. cbn. by rewrite app_nil_r. Qed.

Lemma uninterrupted_lines registry repr uuid4 n snapshot courier request lines : ∀ own results d s r,
  fold_each lines results (ingest_row repr snapshot courier (st_batch_reference request)) (Session d (seen own d)) = (s, r) →
  match r with
  | inl _ => committed s = d ∧ rtc (floor_step registry repr uuid4 n) (Floor d [File courier request own results lines None]) (Floor d [])
  | inr results' => ∃ own', s = Session d (seen own' d) ∧
      rtc (floor_step registry repr uuid4 n) (Floor d [File courier request own results lines None]) (Floor d [File courier request own' results' [] None])
  end.
Proof.
  induction lines as [|line lines IH]; intros own results d s r H; cbn [fold_each] in H.
  - unfold ret in H. injection H as <- <-. exists own. by split; [|apply rtc_refl].
  - unfold bind at 1, ingest_row at 1 in H. rewrite bind_query in H. cbn [working] in H.
    change (shipments_of courier line (seen own d)) with (shipments_of courier line d) in H.
    set (f := File courier request own results (line :: lines) None).
    assert (Hlook : floor_step registry repr uuid4 n (Floor d [f]) (Floor d [look_up d f])) by exact (floor_look registry repr uuid4 n (Floor d [f]) [] f [] eq_refl).
    destruct (found_cases courier repr snapshot (st_batch_reference request) results line (shipments_of courier line d) (Session d (seen own d)))
      as [(e & E)|(row & o & E & _ & _)]; rewrite E in H.
    + injection H as <- <-. split; [done|]. eapply rtc_l; [exact Hlook|]. apply rtc_once. exact (floor_fail registry repr uuid4 n (Floor d [look_up d f]) [] (look_up d f) [] eq_refl).
    + cbn [committed working] in H. rewrite seen_snoc in H. specialize (IH _ _ _ _ _ H).
      assert (Hline : floor_step registry repr uuid4 n (Floor d [look_up d f]) (Floor d [File courier request (own ++ [row]) (results ++ [o]) lines None])).
      { apply (floor_line registry repr uuid4 n (Floor d [look_up d f]) [] (look_up d f) [] snapshot _ eq_refl).
        unfold reconcile_next, f, look_up. cbn [in_left in_found in_courier in_request in_results in_rows]. unfold session_of. cbn [in_rows fl_db].
        rewrite E. cbn [working committed]. rewrite seen_snoc. unfold seen, with_settlement_rows. cbn [settlement_rows]. by rewrite drop_app_length. }
      destruct r as [e|results'].
      * destruct IH as [Hc Hr]. split; [done|]. eapply rtc_l; [exact Hlook|]. eapply rtc_l; [exact Hline|exact Hr].
      * destruct IH as (own' & Hs & Hr). exists own'. split; [done|]. eapply rtc_l; [exact Hlook|]. eapply rtc_l; [exact Hline|exact Hr].
Qed.

Lemma uninterrupted registry repr uuid4 n fault snapshot request now d : (0 < n)%nat →
  rtc (floor_step registry repr uuid4 n) (Floor d []) (Floor (run (ingest_settlement registry repr fault snapshot request now) d).1 []).
Proof.
  intros Hn. unfold run, ingest_settlement. destruct (get registry (st_provider request)) as [courier|] eqn:Eg; [|apply rtc_refl].
  assert (Hopen : floor_step registry repr uuid4 n (Floor d []) (Floor d [opened courier request])) by (by apply (floor_open registry repr uuid4 n (Floor d [])); [|cbn]).
  unfold bind. rewrite <-(seen_nil d) at 3. destruct (fold_each _ _ _ _) as [s r] eqn:E. apply (uninterrupted_lines registry repr uuid4 n) in E.
  destruct r as [e|results]; cbn [fst].
  - destruct E as [-> Hr]. eapply rtc_l; [exact Hopen|exact Hr].
  - destruct E as (own & -> & Hr). eapply rtc_l; [exact Hopen|]. eapply rtc_r; [exact Hr|].
    exact (floor_close registry repr uuid4 n (Floor d [File courier request own results [] None]) [] (File courier request own results [] None) [] fault now eq_refl eq_refl).
Qed.

Definition matched_rows (so : string) (d : db) : list SettlementRow :=
  List.filter (is_matched so) (settlement_rows d).

Record ship_ok (d : db) : Prop := {
  once : ∀ so, (length (matched_rows so d) ≤ 1)%nat;
  exact_cents : Forall exact_row (settlement_rows d);
}.

(** C29 — A remittance is matched to the cent, and no more often than files
    overlap: however shipments, callbacks and settlement files interleave, a file
    reading and adding one line at a time while others commit, with any calls and
    commits failing and at most [n] files in progress at once, a seller order is
    matched at most [n] times, so once when files are ingested one after the
    other.  Every matched row collected exactly what was expected.  A refused file
    leaves nothing behind; an accepted one records each of its lines in order,
    matches an order at most once itself, and reports how many matched, how many
    need a person, and how many repeat.  A file that is not interrupted is the
    handler as one request. *)
Theorem remittances_match_once_per_file (registry : list (string * Courier)) (repr : json → string)
    (uuid4 : nat → string) (n : nat) (d0 : db) (w : floor)
    (Hn : (0 < n)%nat) (Hok : ship_ok d0) (Hreach : rtc (floor_step registry repr uuid4 n) (Floor d0 []) w) :
  (∀ so, (length (matched_rows so (fl_db w)) ≤ n)%nat) ∧
  (∀ r, r ∈ settlement_rows (fl_db w) → sr_outcome r = outcome_value MATCHED →
     is_Some (sr_seller_order_id r) ∧ sr_collected_cents r = sr_expected_cents r) ∧
  (∀ f fault now, f ∈ fl_files w → in_left f = [] →
     let out := closed fault now (fl_db w) f in
     match out.2 with inl _ => out.1 = fl_db w | inr summary => filed (in_request f) (fl_db w) out.1 summary end) ∧
  (∀ fault snapshot request now, fl_files w = [] →
     rtc (floor_step registry repr uuid4 n) w (Floor (run (ingest_settlement registry repr fault snapshot request now) (fl_db w)).1 [])).
Proof.
  assert (H : floor_ok n w).
  { eapply (rtc_invariant _ (floor_ok n)); [|exact Hreach|]; [intros; by eapply floor_step_ok|]. destruct Hok as [H1 H2].
    split; cbn [fl_db fl_files]; [|constructor|cbn; lia|done]. intros so. specialize (H1 so). cbn [pending foldr]. unfold matched_rows in H1. unfold matched_in. lia. }
  destruct H as [Hb Hf Ho He]. split_and!.
  - intros so. specialize (Hb so). unfold matched_in in Hb. unfold matched_rows. lia.
  - intros r Hr. by apply (proj1 (Forall_forall _ _) He).
  - intros f fault now Hin El. cbv zeta. apply closed_filed; [|done]. by apply (proj1 (Forall_forall _ _) Hf).
  - intros fault snapshot request now E. destruct w as [d fs]. cbn in *. subst fs. by apply uninterrupted.
Qed.

(** A courier's word is never guessed: for a courier whose configuration
    was accepted, a callback that is answered stores the word verbatim on that
    one parcel and on no other; the parcel's status becomes [c] exactly when the
    configuration lists the word, however spelled, under [c], and stays what it
    was, flagged for a person, when it lists it nowhere; an order action is asked
    for only then, and it is one the order's lifecycle knows; and each event that
    moves money or stock has a word. *)
Theorem courier_word_is_never_guessed (registry : list (string * Courier))
    (fault : db → option string) (post : string → string → string → string → saga_reply)
    (p : string) (courier : Courier) (request : CourierCallbackRequest) (now : Z) (d d' : db)
    (r : CallbackResponse)
    (Hget : get registry p = Some courier) (Hvalid : validate_mapping (provider courier) (statuses courier) = [])
    (Hindex : build_index (statuses courier) = inr (c_index courier))
    (Hids : NoDup (map sh_id (shipments d)))
    (Hrun : run (handle_callback registry fault post p request now) d = (d', inr r)) :
  let word := normalise (Some (cb_status request)) in
  ∃ s s', s ∈ shipments d ∧ sh_provider s = provider courier ∧ cr_shipment_id r = sh_id s ∧
    shipments d' = map (λ x, if sh_id x =?s sh_id s then s' else x) (shipments d) ∧
    sh_raw_status s' = Some (cb_status request) ∧
    (∀ c, says (statuses courier) word c → sh_status s' = value c ∧ sh_unmapped s' = false ∧
       cr_action r = STATUS_ACTIONS c) ∧
    ((∀ c, ¬ says (statuses courier) word c) →
       sh_status s' = sh_status s ∧ sh_unmapped s' = true ∧ cr_action r = None ∧ cr_action_result r = None) ∧
    (∀ a, cr_action r = Some a → a ∈ CodRules.ACTIONS.*1) ∧
    (∀ c, c ∈ REQUIRED_CANONICAL → ∃ k, says (statuses courier) k c).
Proof.
  destruct (validate_ok _ _ Hvalid) as (ix & Hix & Hsays & Hreq). rewrite Hindex in Hix. injection Hix as <-.
  cbv zeta. unfold run, handle_callback in Hrun. rewrite Hget in Hrun.
  destruct (parcel_filter courier request) as [wanted|] eqn:Ew; [|done].
  rewrite bind_query in Hrun. cbn [working] in Hrun.
  destruct (List.filter wanted (shipments d)) as [|s [|]] eqn:Ef; [done| |done].
  assert (Hs : s ∈ List.filter wanted (shipments d)) by (rewrite Ef; left).
  apply elem_of_filter_bool in Hs as [Hs Hw]. unfold emit in Hrun.
  rewrite bind_exec, bind_exec, bind_commit in Hrun. cbn [working committed] in Hrun.
  destruct (fault _); [done|]. unfold ret in Hrun. injection Hrun as <- <-.
  exists s, (reported_as courier request now s). split; [done|]. split.
  { unfold parcel_filter in Ew.
    destruct (cb_tracking_code request) as [[|? ?]|], (cb_seller_order_id request); simplify_eq; by bool_to_prop. }
  split; [done|]. split.
  { cbn. unfold update_where. apply map_ext_in. intros x Hx%list_elem_of_In.
    destruct (bool_decide_reflect (sh_id x = sh_id s)) as [E|]; [|done].
    by rewrite (map_key_inj sh_id (shipments d) x s Hids Hx Hs E). }
  split; [done|]. cbn [cr_action cr_action_result reported_as sh_status sh_unmapped].
  unfold canonical, map_status. split; [|split; [|split; [|exact Hreq]]].
  - intros c Hc%Hsays. by rewrite Hc.
  - intros Hno. destruct (dict_get _ _) as [c|] eqn:E; [|done]. by apply Hsays, Hno in E.
  - intros a. destruct (dict_get _ _) as [c|]; [|done]. cbn. intros Ha.
    destruct c; cbn in Ha; simplify_eq; by_compute.
Qed.

(** ** A history: a parcel, its delivery, its cash, and the file resent *)

Definition manual_mapping : mapping :=
  [("PICKUP_PENDING", ["pending"]); ("PICKED_UP", ["picked_up"; "collected"]); ("DELIVERED", ["delivered"]);
   ("RETURNING", ["returning"; "rto"]); ("RETURNED", ["returned"])].

Definition sample_registry : list (string * Courier) :=
  match load [{| f_name := "manual.json"; f_content := inr (Some "manual", None, manual_mapping) |}] with
  | inr r => r
  | inl _ => []
  end.

Definition manual_courier : Courier :=
  {| provider := "manual"; display_name := "manual"; statuses := manual_mapping;
     c_index := match build_index manual_mapping with inr ix => ix | inl _ => [] end |}.

Definition no_shipments : db := {| shipments := []; settlement_rows := []; sh_outbox := []; sh_draws := 0 |}.

Definition sample_create : ShipmentCreateRequest :=
  {| sc_seller_order_id := "so1"; sc_order_id := "o1"; sc_provider := "Manual"; sc_tracking_code := Some "T1";
     sc_cod_amount_cents := 500; sc_currency := "bdt" |}.

Definition shipped : db := (run (create_shipment sample_registry unary_id (λ _, None) sample_create 1) no_shipments).1.

Definition sample_callback (word : string) : CourierCallbackRequest :=
  {| cb_tracking_code := Some "T1"; cb_seller_order_id := None; cb_status := word; cb_occurred_at := None |}.

Definition sample_file (batch : string) : SettlementRequest :=
  {| st_provider := "manual"; st_batch_reference := batch;
     st_rows := [{| si_reference := " T1 "; si_collected_cents := 500 |}] |}.

Definition always_delivered (o so : string) : option (json * json) := Some (JInt 500, JStr "DELIVERED").

Definition paid (batch : string) (d : db) : db :=
  (run (ingest_settlement sample_registry (λ _, "") (λ _, None) always_delivered (sample_file batch) 9) d).1.

Lemma no_shipments_ok : ship_ok no_shipments.
Proof. constructor; [intros so; cbn; lia|constructor]. Qed.

Lemma shipped_run n : rtc (floor_step sample_registry (λ _, "") unary_id n) (Floor no_shipments []) (Floor shipped []).
Proof. apply rtc_once. exact (floor_create sample_registry (λ _, "") unary_id n (Floor no_shipments []) (λ _, None) sample_create 1). Qed.

(** Two files after each other: the second finds the first's match. *)
Lemma remittances_match_once_per_file_witness :
  let d := paid "b2" (paid "b1" shipped) in
  rtc (floor_step sample_registry (λ _, "") unary_id 1) (Floor no_shipments []) (Floor d []) ∧
  map sr_outcome (settlement_rows d) = ["matched"; "duplicate"] ∧
  (length (matched_rows "so1" d) ≤ 1)%nat.
Proof.
  cbv zeta. set (d := paid "b2" (paid "b1" shipped)).
  assert (Hr : rtc (floor_step sample_registry (λ _, "") unary_id 1) (Floor no_shipments []) (Floor d [])).
  { etrans; [apply shipped_run|]. etrans; [apply (uninterrupted sample_registry (λ _, "") unary_id 1 (λ _, None) always_delivered (sample_file "b1") 9); lia|].
    apply (uninterrupted sample_registry (λ _, "") unary_id 1 (λ _, None) always_delivered (sample_file "b2") 9). lia. }
  split; [exact Hr|]. split; [vm_compute; reflexivity|].
  exact (proj1 (remittances_match_once_per_file sample_registry (λ _, "") unary_id 1 no_shipments (Floor d []) ltac:(lia) no_shipments_ok Hr) "so1").
Defined.

(** Two files in progress at once, both listing the parcel: each checks before
    the other commits, and the order is matched twice. *)
Definition reading (batch : string) : file := look_up shipped (opened manual_courier (sample_file batch)).
Definition read (batch : string) : file := default (reading batch) (reconcile_next (λ _, "") always_delivered shipped (reading batch)).
Definition half_settled : db := (closed (λ _, None) 9 shipped (read "b1")).1.
Definition twice_settled : db := (closed (λ _, None) 9 half_settled (read "b2")).1.

Example two_files_match_twice :
  rtc (floor_step sample_registry (λ _, "") unary_id 2) (Floor no_shipments []) (Floor twice_settled []) ∧
  length (matched_rows "so1" twice_settled) = 2%nat.
Proof.
  split; [|vm_compute; reflexivity]. etrans; [apply shipped_run|].
  eapply rtc_l; [apply (floor_open _ _ _ _ _ manual_courier (sample_file "b1")); [vm_compute; reflexivity|cbn; lia]|].
  eapply rtc_l; [apply (floor_open _ _ _ _ _ manual_courier (sample_file "b2")); [vm_compute; reflexivity|cbn; lia]|]. cbn [fl_db fl_files app].
  eapply rtc_l; [exact (floor_look _ _ _ _ (Floor shipped [_; _]) [] _ [_] eq_refl)|].
  eapply rtc_l; [exact (floor_line _ _ _ _ (Floor shipped [_; _]) [] (reading "b1") [_] always_delivered (read "b1") eq_refl ltac:(vm_compute; reflexivity))|].
  eapply rtc_l; [exact (floor_look _ _ _ _ (Floor shipped [_; _]) [_] _ [] eq_refl)|].
  eapply rtc_l; [exact (floor_line _ _ _ _ (Floor shipped [_; _]) [read "b1"] (reading "b2") [] always_delivered (read "b2") eq_refl ltac:(vm_compute; reflexivity))|].
  eapply rtc_l; [exact (floor_close _ _ _ _ (Floor shipped [_; _]) [] (read "b1") [_] (λ _, None) 9 eq_refl ltac:(vm_compute; reflexivity))|].
  apply rtc_once. exact (floor_close _ _ _ _ (Floor half_settled [_]) [] (read "b2") [] (λ _, None) 9 eq_refl ltac:(vm_compute; reflexivity)).
Qed.

Lemma courier_word_is_never_guessed_witness :
  ∃ courier d' r, get sample_registry "manual" = Some courier ∧
    run (handle_callback sample_registry (λ _, None) (λ _ _ _ _, Answered 200) "manual" (sample_callback "Picked-Up") 5) shipped
      = (d', inr r) ∧
    (says (statuses courier) "picked_up" PICKED_UP → cr_action r = Some "dispatch").
Proof.
  destruct (run (handle_callback sample_registry (λ _, None) (λ _ _ _ _, Answered 200) "manual" (sample_callback "Picked-Up") 5) shipped)
    as [d' [e|r]] eqn:E; [exfalso; vm_compute in E; by simplify_eq|].
  exists manual_courier, d', r. split; [vm_compute; reflexivity|]. split; [done|].
  destruct (courier_word_is_never_guessed sample_registry (λ _, None) (λ _ _ _ _, Answered 200) "manual"
    manual_courier (sample_callback "Picked-Up") 5 shipped d' r) as (s & s' & _ & _ & _ & _ & _ & H & _);
    [vm_compute; reflexivity|vm_compute; reflexivity|vm_compute; reflexivity|by_compute|exact E|].
  intros Hsays. exact (proj2 (proj2 (H PICKED_UP Hsays))).
Defined.

End ShipmentService.
