(* ===== verification/CartService.v ===== *)
(** * Carts and checkout (services/cart-service)

    [CartRules] is cart_cache_rules.py, [CheckoutLock] is checkout_lock.py, and
    [CartService] is cart_service.py with the sweeper of main.py.

    Redis and Postgres cannot share a transaction, so a request is a sequence of
    awaits between which any other request may run.  [CartService] keeps that: a
    [thread] is a request suspended before its next await, [resume] performs that
    await and runs on to the following one, and an interleaving is a list of
    moves.  Any await may raise ([io]).  What a request did in Postgres becomes
    visible at its commit; an idempotency key inserted by a transaction that is
    still open blocks the other requests that insert the same key.
    Times are microseconds. *)

From S2P Require Import Prelude PyValue Session.

(** ** Cache coherence rules *)

Module CartRules.

(** product id and quantity, in insertion order *)
Definition CartItems := list (string * Z).

Inductive CartSource := CACHE | REHYDRATED | EMPTY.

Definition STATUS_ACTIVE := "active".
Definition STATUS_CHECKOUT_IN_PROGRESS := "checkout_in_progress".
Definition STATUS_EXPIRED := "expired".

Record DurableCart := { d_items : CartItems; d_status : string; d_expires_at : option Z }.

Record CartView := { items : CartItems; source : CartSource }.

Definition rehydrated (v : CartView) : bool :=
  match source v with REHYDRATED => true | _ => false end.

Definition empty (v : CartView) : bool := match items v with [] => true | _ => false end.

Definition resolve_cart (cached : option CartItems) (durable : option DurableCart) (now : Z) : CartView :=
  match cached with
  | Some c => {| items := c; source := CACHE |}
  | None =>
      match durable with
      | None => {| items := []; source := EMPTY |}
      | Some d =>
          if negb (d_status d =?s STATUS_ACTIVE) then {| items := []; source := EMPTY |}
          else if match d_expires_at d with Some e => e <=? now | None => false end
          then {| items := []; source := EMPTY |}
          else {| items := d_items d; source := REHYDRATED |}
      end
  end.

Definition merge_item (its : CartItems) (product_id : string) (quantity : Z) : CartItems :=
  dict_set its product_id (default 0 (dict_get its product_id) + quantity).

End CartRules.

(** ** The checkout lock *)

Module CheckoutLock.

Definition DEFAULT_TTL_SECONDS : Z := 10.

(** Redis keys with an expiry. *)
Definition redis_get {A} (m : gmap string (A * Z)) (k : string) (now : Z) : option A :=
  match m !! k with Some (v, e) => if now <? e then Some v else None | None => None end.

Definition redis_set {A} (k : string) (v : A) (ttl_seconds now : Z) (m : gmap string (A * Z)) : gmap string (A * Z) :=
  <[k := (v, now + ttl_seconds * 1000000)]> m.

Definition lock_key_for (user_id : string) : string := "lock:checkout:" +:+ user_id.

(** [SET key token NX EX ttl] *)
Definition acquire (key token : string) (now : Z) (m : gmap string (string * Z)) : gmap string (string * Z) * bool :=
  match redis_get m key now with
  | None => (redis_set key token DEFAULT_TTL_SECONDS now m, true)
  | Some _ => (m, false)
  end.

(** [RELEASE_SCRIPT], atomic in Redis *)
Definition release (key token : string) (now : Z) (m : gmap string (string * Z)) : gmap string (string * Z) * Z :=
  if bool_decide (redis_get m key now = Some token) then (delete key m, 1) else (m, 0).

Definition current_owner (key : string) (now : Z) (m : gmap string (string * Z)) : option string :=
  redis_get m key now.

End CheckoutLock.

(** ** The service *)

Module CartService.
Import CartRules CheckoutLock.

Definition CART_TTL : Z := 3600.

Record CartState := {
  cart_id : string;
  cart_user_id : string;
  cart_items : CartItems;
  cart_status : string;
  cart_expires_at : Z;
  cart_updated_at : Z;
}.

Record system := {
  cart_cache : gmap string (CartItems * Z);
  locks : gmap string (string * Z);
  carts : list CartState;
  cart_outbox : list OutboxMessage;
  cart_keys : list string;
  open_keys : list string;
  cart_draws : nat;
}.

Definition with_cache f s : system :=
  {| cart_cache := f (cart_cache s); locks := locks s; carts := carts s; cart_outbox := cart_outbox s;
     cart_keys := cart_keys s; open_keys := open_keys s; cart_draws := cart_draws s |}.
Definition with_locks m s : system :=
  {| cart_cache := cart_cache s; locks := m; carts := carts s; cart_outbox := cart_outbox s;
     cart_keys := cart_keys s; open_keys := open_keys s; cart_draws := cart_draws s |}.
Definition with_carts f s : system :=
  {| cart_cache := cart_cache s; locks := locks s; carts := f (carts s); cart_outbox := cart_outbox s;
     cart_keys := cart_keys s; open_keys := open_keys s; cart_draws := cart_draws s |}.
Definition with_cart_outbox f s : system :=
  {| cart_cache := cart_cache s; locks := locks s; carts := carts s; cart_outbox := f (cart_outbox s);
     cart_keys := cart_keys s; open_keys := open_keys s; cart_draws := cart_draws s |}.
Definition with_cart_keys f g s : system :=
  {| cart_cache := cart_cache s; locks := locks s; carts := carts s; cart_outbox := cart_outbox s;
     cart_keys := f (cart_keys s); open_keys := g (open_keys s); cart_draws := cart_draws s |}.
Definition cart_draw s : system :=
  {| cart_cache := cart_cache s; locks := locks s; carts := carts s; cart_outbox := cart_outbox s;
     cart_keys := cart_keys s; open_keys := open_keys s; cart_draws := S (cart_draws s) |}.

Definition without (k : string) (l : list string) : list string := List.filter (λ x, negb (x =?s k)) l.

(** End of the transaction that inserted [key]: kept, or rolled back. *)
Definition keep_key (key : string) : system → system := with_cart_keys (λ ks, ks ++ [key]) (without key).
Definition drop_key (key : string) : system → system := with_cart_keys (λ ks, ks) (without key).

Inductive answer :=
| Cart (its : CartItems)
| Status (text : string)
| Refused (e : exn).

(** A request before its next await, named after what it awaits. *)
Inductive thread :=
| AddCheckKey (user key product : string) (quantity : Z)
| AddReadCache (user key product : string) (quantity : Z)
| AddReadRow (user key product : string) (quantity : Z) (cached : option CartItems)
| AddWriteCache (user key : string) (its : CartItems)
| AddSelectRow (user key : string) (its : CartItems)
| AddCommit (user key : string) (its : CartItems) (expires_at : Z) (row : option string)
| CheckoutAcquire (user key token : string)
| CheckoutReadCache (user key token : string)
| CheckoutReadRow (user key token : string) (cached : option CartItems)
| CheckoutClaim (user key token : string) (its : CartItems)
| CheckoutDropCache (user token : string)
| CheckoutRelease (user token : string) (result : answer)
| GetReadCache (user : string)
| GetReadRow (user : string) (cached : option CartItems)
| GetRewarm (user : string) (its : CartItems) (durable : option DurableCart)
| Answered (a : answer).

Definition failed (e : string) : answer := Refused (Raised e).

(** [_load_durable]: [inl] is [MultipleResultsFound]. *)
Definition active_rows (user : string) (s : system) : list CartState :=
  List.filter (λ r, (cart_user_id r =?s user) && (cart_status r =?s "active")) (carts s).

Definition _load_durable (user : string) (s : system) : string + option DurableCart :=
  match active_rows user s with
  | [] => inr None
  | [r] => inr (Some {| d_items := cart_items r; d_status := cart_status r; d_expires_at := Some (cart_expires_at r) |})
  | _ => inl "MultipleResultsFound"
  end.

(** The life a re-warmed key gets; [None] when the cart has none left. *)
Definition rewarm_ttl (durable : option DurableCart) (now : Z) : option Z :=
  match durable with
  | Some {| d_expires_at := Some e |} =>
      let remaining := Z.quot (e - now) 1000000 in
      if remaining <=? 0 then None else Some (Z.min CART_TTL remaining)
  | _ => Some CART_TTL
  end.

Definition set_items (its : CartItems) (expires_at now : Z) (r : CartState) : CartState :=
  {| cart_id := cart_id r; cart_user_id := cart_user_id r; cart_items := its; cart_status := cart_status r;
     cart_expires_at := expires_at; cart_updated_at := now |}.

Definition set_cart_status (st : string) (now : Z) (r : CartState) : CartState :=
  {| cart_id := cart_id r; cart_user_id := cart_user_id r; cart_items := cart_items r; cart_status := st;
     cart_expires_at := cart_expires_at r; cart_updated_at := now |}.

Definition items_json (its : CartItems) : json := JObj (map (λ '(k, q), (k, JInt q)) its).

Section service.
Context (uuid4 : nat → string) (isoformat : Z → string).

Definition checkout_message (user : string) (its : CartItems) (now : Z) : OutboxMessage :=
  {| aggregate_type := "Cart"; aggregate_id := user; msg_type := "CartCheckoutInitiated";
     payload := [("user_id", JStr user); ("items", items_json its); ("initiated_at", JStr (isoformat now))];
     msg_created_at := now |}.

(** The UPDATE that claims the cart, the event, and the commit, in one
    transaction: [inl] is the exception of [HTTPException] or [commit]. *)
Definition claim (user key : string) (its : CartItems) (io : option string) (now : Z) (s : system)
    : system * (answer + unit) :=
  if key in_ cart_keys s then (s, inl (Status "Checkout already initiated"))
  else match active_rows user s with
  | [] => (s, inl (Refused (Http 409 "Cart already expired or checkout in progress")))
  | _ =>
      match io with
      | Some e => (s, inl (Refused (Http 500 e)))
      | None =>
          (with_carts (update_where (λ r, (cart_user_id r =?s user) && (cart_status r =?s "active"))
              (set_cart_status "checkout_in_progress" now))
            (with_cart_outbox (λ ms, ms ++ [checkout_message user its now])
              (with_cart_keys (λ ks, ks ++ [key]) (λ ks, ks) s)), inr tt)
      end
  end.

(** One await, and the code up to the next; [None] while it is blocked. *)
Definition resume (io : option string) (now : Z) (t : thread) (s : system) : option (system * thread) :=
  match t with
  (* add_to_cart *)
  | AddCheckKey user key product quantity =>
      if key in_ open_keys s then None
      else Some match io with
      | Some e => (s, Answered (failed e))
      | None =>
          if key in_ cart_keys s then (s, GetReadCache user)
          else (with_cart_keys (λ ks, ks) (λ ks, ks ++ [key]) s, AddReadCache user key product quantity)
      end
  | AddReadCache user key product quantity =>
      Some match io with
      | Some e => (drop_key key s, Answered (failed e))
      | None => (s, AddReadRow user key product quantity (redis_get (cart_cache s) ("cart:" +:+ user) now))
      end
  | AddReadRow user key product quantity cached =>
      Some match io, _load_durable user s with
      | Some e, _ | None, inl e => (drop_key key s, Answered (failed e))
      | None, inr durable =>
          let view := resolve_cart cached durable now in
          (s, AddWriteCache user key (merge_item (items view) product quantity))
      end
  | AddWriteCache user key its =>
      Some match io with
      | Some _ => (drop_key key s, Answered (Refused (Http 500 "Failed to write to Redis")))
      | None => (with_cache (redis_set ("cart:" +:+ user) its CART_TTL now) s, AddSelectRow user key its)
      end
  | AddSelectRow user key its =>
      let expires_at := now + CART_TTL * 1000000 in
      Some match io, active_rows user s with
      | Some e, _ => (drop_key key s, Answered (failed e))
      | None, [] => (s, AddCommit user key its expires_at None)
      | None, [r] => (s, AddCommit user key its expires_at (Some (cart_id r)))
      | None, _ => (drop_key key s, Answered (failed "MultipleResultsFound"))
      end
  | AddCommit user key its expires_at row =>
      Some match io with
      | Some e => (drop_key key s, Answered (Refused (Http 500 e)))
      | None =>
          (keep_key key
            (match row with
             | Some i => with_carts (update_where (λ r, cart_id r =?s i) (set_items its expires_at now)) s
             | None =>
                 with_carts (λ rs, rs ++
                   [{| cart_id := uuid4 (cart_draws s); cart_user_id := user; cart_items := its;
                       cart_status := "active"; cart_expires_at := expires_at; cart_updated_at := now |}])
                   (cart_draw s)
             end), Answered (Cart its))
      end
  (* checkout_cart *)
  | CheckoutAcquire user key token =>
      Some match io with
      | Some e => (s, Answered (failed e))
      | None =>
          let (m, acquired) := acquire (lock_key_for user) token now (locks s) in
          (with_locks m s,
           if acquired : bool then CheckoutReadCache user key token
           else Answered (Refused (Http 409 "Checkout already in progress for this user")))
      end
  | CheckoutReadCache user key token =>
      Some match io with
      | Some e => (s, CheckoutRelease user token (failed e))
      | None => (s, CheckoutReadRow user key token (redis_get (cart_cache s) ("cart:" +:+ user) now))
      end
  | CheckoutReadRow user key token cached =>
      Some match io, _load_durable user s with
      | Some e, _ | None, inl e => (s, CheckoutRelease user token (failed e))
      | None, inr durable =>
          let view := resolve_cart cached durable now in
          if empty view then (s, CheckoutRelease user token (Refused (Http 404 "Cart not found or empty")))
          else (s, CheckoutClaim user key token (items view))
      end
  | CheckoutClaim user key token its =>
      if key in_ open_keys s then None
      else Some match claim user key its io now s with
      | (s', inl a) => (s', CheckoutRelease user token a)
      | (s', inr _) => (s', CheckoutDropCache user token)
      end
  | CheckoutDropCache user token =>
      Some match io with
      | Some e => (s, CheckoutRelease user token (failed e))
      | None => (with_cache (delete ("cart:" +:+ user)) s,
                 CheckoutRelease user token (Status "Checkout initiated"))
      end
  | CheckoutRelease user token result =>
      Some match io with
      | Some e => (s, Answered (failed e))
      | None => (with_locks (release (lock_key_for user) token now (locks s)).1 s, Answered result)
      end
  (* get_cart *)
  | GetReadCache user =>
      Some match io with
      | Some e => (s, Answered (failed e))
      | None => (s, GetReadRow user (redis_get (cart_cache s) ("cart:" +:+ user) now))
      end
  | GetReadRow user cached =>
      Some match io, _load_durable user s with
      | Some e, _ | None, inl e => (s, Answered (failed e))
      | None, inr durable =>
          let view := resolve_cart cached durable now in
          if rehydrated view then (s, GetRewarm user (items view) durable) else (s, Answered (Cart (items view)))
      end
  | GetRewarm user its durable =>
      Some (match io, rewarm_ttl durable now with
            | None, Some ttl => with_cache (redis_set ("cart:" +:+ user) its ttl now) s
            | _, _ => s
            end, Answered (Cart its))
  | Answered a => None
  end.

(** ** The sweeper (main.py) *)

Definition expired_message (reason : string) (now : Z) (r : CartState) : OutboxMessage :=
  {| aggregate_type := "Cart"; aggregate_id := cart_user_id r; msg_type := "CartExpired";
     payload := [("cart_id", JStr (cart_id r)); ("user_id", JStr (cart_user_id r));
                 ("items", items_json (cart_items r)); ("reason", JStr reason)];
     msg_created_at := now |}.

Definition sweep (which : CartState → bool) (reason : string) (now : Z) (s : system) : system :=
  with_cart_outbox (λ ms, ms ++ map (expired_message reason now) (List.filter which (carts s)))
    (with_carts (update_where which (set_cart_status "expired" now)) s).

Definition ttl_over (now : Z) (r : CartState) : bool :=
  (cart_expires_at r <? now) && (cart_status r =?s "active").

Definition stale_checkout (now : Z) (r : CartState) : bool :=
  (cart_status r =?s "checkout_in_progress") && (cart_updated_at r <? now - 600 * 1000000).

Definition EXPIRE_BY_TTL (now : Z) : system → system := sweep (ttl_over now) "ttl_expired" now.
Definition RECLAIM_STALE_CHECKOUT (now : Z) : system → system := sweep (stale_checkout now) "checkout_abandoned" now.

(** One iteration of [cart_sweeper_loop]. *)
Definition cart_sweep (now : Z) (s : system) : system := RECLAIM_STALE_CHECKOUT now (EXPIRE_BY_TTL now s).

(** ** Interleavings *)

Inductive move :=
| Arrive (t : thread)
| Resume (i : nat) (io : option string)
| Evict (user : string)
| SweepTtl
| SweepStale.

(** A request starts at its first await. *)
Definition is_request (t : thread) : bool :=
  match t with AddCheckKey _ _ _ _ | CheckoutAcquire _ _ _ | GetReadCache _ => true | _ => false end.

Definition world : Type := system * list thread.

Definition perform (now : Z) (m : move) (w : world) : world :=
  match m with
  | Arrive t => if is_request t then (w.1, w.2 ++ [t]) else w
  | Resume i io =>
      match w.2 !! i with
      | Some t => match resume io now t w.1 with
                  | Some (s, t') => (s, <[i := t']> w.2)
                  | None => w
                  end
      | None => w
      end
  | Evict user => (with_cache (delete ("cart:" +:+ user)) w.1, w.2)
  | SweepTtl => (EXPIRE_BY_TTL now w.1, w.2)
  | SweepStale => (RECLAIM_STALE_CHECKOUT now w.1, w.2)
  end.

Definition perform_all (ms : list (Z * move)) (w : world) : world :=
  foldl (λ w '(now, m), perform now m w) w ms.
End service.

(** ** A cart is handed over once *)

(** Checkouts announced for [user]. *)
Definition is_initiated (user : string) (m : OutboxMessage) : bool :=
  (msg_type m =?s "CartCheckoutInitiated") && (aggregate_id m =?s user).

Definition reason_is (reason : string) (m : OutboxMessage) : bool :=
  match obj_get (payload m) "reason" with JStr r => r =?s reason | _ => false end.

(** Claimed carts of [user] that the sweeper has since given up on. *)
Definition is_abandoned (user : string) (m : OutboxMessage) : bool :=
  (msg_type m =?s "CartExpired") && (aggregate_id m =?s user) && reason_is "checkout_abandoned" m.

Definition is_claimed (user : string) (r : CartState) : bool :=
  (cart_user_id r =?s user) && (cart_status r =?s "checkout_in_progress").

Definition tally {A} (p : A → bool) (l : list A) : Z := sumZ (λ x, ite (p x) 1) l.

Definition initiated (user : string) (s : system) : Z := tally (is_initiated user) (cart_outbox s).

(** Carts of [user] that were ever claimed for a checkout. *)
Definition claimed_carts (user : string) (s : system) : Z :=
  tally (is_claimed user) (carts s) + tally (is_abandoned user) (cart_outbox s).

Definition token_of (t : thread) : option string :=
  match t with
  | CheckoutAcquire _ _ token | CheckoutReadCache _ _ token | CheckoutReadRow _ _ token _
  | CheckoutClaim _ _ token _ | CheckoutDropCache _ token | CheckoutRelease _ token _ => Some token
  | _ => None
  end.

Definition thread_ok (t : thread) : Prop :=
  match t with CheckoutClaim _ _ _ its => its ≠ [] | _ => True end.

Record carts_ok (w : world) : Prop := {
  at_most_once : ∀ user, initiated user w.1 ≤ claimed_carts user w.1;
  with_items : ∀ m user, m ∈ cart_outbox w.1 → is_initiated user m = true →
    ∃ its, obj_get (payload m) "items" = items_json its ∧ its ≠ [];
  claims_nonempty : Forall thread_ok w.2;
}.

Lemma tally_app {A} (p : A → bool) l l' : tally p (l ++ l') = tally p l + tally p l'.
Proof. apply sumZ_app. Qed.

Lemma tally_update {A} (p q : A → bool) g l :
  (∀ x, x ∈ l → q x = true → p (g x) = p x) → tally p (update_where q g l) = tally p l.
Proof.
  intros H. unfold tally, update_where. rewrite sumZ_map. apply sumZ_ext. intros x Hx.
  destruct (q x) eqn:E; [|done]. by rewrite H.
Qed.

Lemma drop_key_same key s : carts (drop_key key s) = carts s ∧ cart_outbox (drop_key key s) = cart_outbox s.
Proof. done. Qed.

Section once.
Context (uuid4 : nat → string) (isoformat : Z → string).

(** Everything but a claim leaves both counts alone. *)
Definition quiet_step (s s' : system) : Prop :=
  cart_outbox s' = cart_outbox s ∧ ∀ user, tally (is_claimed user) (carts s') = tally (is_claimed user) (carts s).

Lemma quiet_same s s' : carts s' = carts s → cart_outbox s' = cart_outbox s → quiet_step s s'.
Proof. intros E1 E2. split; [done|]. intros. by rewrite E1. Qed.

Lemma resume_quiet io now t s s' t' :
  resume uuid4 isoformat io now t s = Some (s', t') → thread_ok t →
  thread_ok t' ∧
  (quiet_step s s' ∨
   ∃ user key token its, t = CheckoutClaim user key token its ∧ claim isoformat user key its io now s = (s', inr tt)).
Proof.
  intros H Hok. destruct t; cbn [resume] in H; cbv zeta in H.
  - destruct (_ in_ _); [done|]. destruct io; [|destruct (_ in_ _)]; simplify_eq;
      (split; [done|left; by apply quiet_same]).
  - destruct io; simplify_eq; (split; [done|left; by apply quiet_same]).
  - destruct io, (_load_durable user s); simplify_eq; (split; [done|left; by apply quiet_same]).
  - destruct io; simplify_eq; (split; [done|left; by apply quiet_same]).
  - destruct io, (active_rows user s) as [|? [|]]; simplify_eq; (split; [done|left; by apply quiet_same]).
  - destruct io; [simplify_eq; split; [done|left; by apply quiet_same]|].
    injection H as <- <-. split; [done|left]. destruct row as [i|].
    + split; [done|]. intros u. by apply tally_update.
    + split; [done|]. intros u. cbn [keep_key with_cart_keys with_carts cart_draw carts]. rewrite tally_app.
      assert (Hz : ∀ r, cart_status r = "active" → tally (is_claimed u) [r] = 0).
      { intros r Hr. unfold tally, is_claimed. cbn [sumZ]. rewrite Hr, andb_false_r. done. }
      rewrite Hz by done. lia.
  - destruct io; [simplify_eq; split; [done|left; by apply quiet_same]|].
    destruct (acquire _ _ _ _) as [m []]; simplify_eq; (split; [done|left; by apply quiet_same]).
  - destruct io; simplify_eq; (split; [done|left; by apply quiet_same]).
  - destruct io, (_load_durable user s) as [e|d]; simplify_eq; try (split; [done|left; by apply quiet_same]).
    destruct (empty _) eqn:Ee; simplify_eq; (split; [|left; by apply quiet_same]); [done|].
    cbn. intros E. unfold empty in Ee. by rewrite E in Ee.
  - destruct (_ in_ open_keys s); [done|]. destruct (claim _ _ _ _ _ _ _) as [s1 [a|[]]] eqn:Ec; simplify_eq.
    + split; [done|left]. unfold claim in Ec. destruct (_ in_ _); [simplify_eq; by apply quiet_same|].
      destruct (active_rows user s); [simplify_eq; by apply quiet_same|].
      destruct io; simplify_eq; by apply quiet_same.
    + split; [done|right]. eauto 10.
  - destruct io; simplify_eq; (split; [done|left; by apply quiet_same]).
  - destruct io; simplify_eq; (split; [done|left; by apply quiet_same]).
  - destruct io; simplify_eq; (split; [done|left; by apply quiet_same]).
  - destruct io, (_load_durable user s); simplify_eq; try (split; [done|left; by apply quiet_same]).
    destruct (rehydrated _); simplify_eq; (split; [done|left; by apply quiet_same]).
  - destruct io; simplify_eq; (split; [done|left]); [by apply quiet_same|].
    destruct (rewarm_ttl durable now); by apply quiet_same.
  - done.
Qed.

(** A claim announces one checkout and claims a cart that was not claimed. *)
Lemma claim_counts user key its io now s s' :
  claim isoformat user key its io now s = (s', inr tt) →
  cart_outbox s' = cart_outbox s ++ [checkout_message isoformat user its now] ∧
  ∀ u, tally (is_claimed u) (carts s) + ite (u =?s user) 1 ≤ tally (is_claimed u) (carts s').
Proof.
  unfold claim. destruct (_ in_ _); [done|]. destruct (active_rows user s) as [|r0 rs] eqn:Ea; [done|].
  destruct io; [done|]. intros H. injection H as <-. split; [done|]. intros u. cbn [with_carts carts].
  assert (H0 : r0 ∈ active_rows user s) by (rewrite Ea; left).
  apply elem_of_filter_bool in H0 as [Hin H0]. cbn [with_cart_outbox with_cart_keys carts].
  set (q := λ r : CartState, (cart_user_id r =?s user) && (cart_status r =?s "active")).
  assert (E : tally (is_claimed u) (update_where q (set_cart_status "checkout_in_progress" now) (carts s)) =
    tally (is_claimed u) (carts s) + tally (λ r, (u =?s user) && q r) (carts s)).
  { unfold tally, update_where. rewrite sumZ_map, <-sumZ_add. apply sumZ_ext. intros r _.
    unfold is_claimed, q. destruct (decide (cart_user_id r = user)) as [Hu|Hu].
    - rewrite (bool_decide_true (cart_user_id r = user)) by done. cbn [andb].
      destruct (bool_decide_reflect (cart_status r = "active")) as [Hst|Hst].
      + cbn [set_cart_status cart_user_id cart_status]. rewrite Hu, Hst.
        destruct (decide (u = user)) as [->|Hne].
        * by rewrite !(bool_decide_true (user = user)).
        * by rewrite (bool_decide_false (user = u)), (bool_decide_false (u = user)).
      + rewrite andb_false_r. change (ite false 1) with 0. by rewrite Z.add_0_r.
    - rewrite (bool_decide_false (cart_user_id r = user)) by done. cbn [andb].
      rewrite andb_false_r. change (ite false 1) with 0. by rewrite Z.add_0_r. }
  rewrite E. destruct (bool_decide_reflect (u = user)) as [->|Hu]; cbn [ite].
  - assert (1 ≤ tally (λ r, true && q r) (carts s)); [|cbn in *; lia].
    unfold tally. etrans; [|apply (sumZ_elem_le _ _ r0); [|done]]; unfold q; [by rewrite H0|].
    intros r _. by destruct (true && _).
  - assert (0 ≤ tally (λ r, false && q r) (carts s)). { apply sumZ_nonneg. done. }
    lia.
Qed.

Lemma checkout_message_kind user its now u :
  is_initiated u (checkout_message isoformat user its now) = (u =?s user) ∧
  is_abandoned u (checkout_message isoformat user its now) = false.
Proof.
  unfold is_initiated, is_abandoned. cbn [checkout_message msg_type aggregate_id].
  rewrite (bool_decide_true ("CartCheckoutInitiated" = "CartCheckoutInitiated")) by done.
  rewrite (bool_decide_false ("CartCheckoutInitiated" = "CartExpired")) by done. cbn [andb]. split; [|done].
  destruct (decide (u = user)) as [->|Hne]; [by rewrite !bool_decide_true|].
  by rewrite !bool_decide_false.
Qed.

Lemma resume_ok io now t s s' t' ts :
  resume uuid4 isoformat io now t s = Some (s', t') → t ∈ ts → carts_ok (s, ts) →
  (∀ user, initiated user s' ≤ claimed_carts user s') ∧
  (∀ m user, m ∈ cart_outbox s' → is_initiated user m = true →
     ∃ its, obj_get (payload m) "items" = items_json its ∧ its ≠ []) ∧ thread_ok t'.
Proof.
  intros H Ht [Hc Hi Hf]. cbn [fst snd] in *. rewrite Forall_forall in Hf.
  destruct (resume_quiet _ _ _ _ _ _ H (Hf t Ht)) as [Hok [[Eo Eq]|(user & key & token & its & -> & Ec)]].
  - split_and!; [|by rewrite Eo|done]. intros u. unfold initiated, claimed_carts. rewrite Eo, Eq. apply Hc.
  - apply claim_counts in Ec as [Eo Eq]. specialize (Hf _ Ht). cbn in Hf. split_and!; [| |done].
    + intros u. unfold initiated, claimed_carts. rewrite Eo, !tally_app. specialize (Eq u). specialize (Hc u).
      unfold initiated, claimed_carts in Hc. destruct (checkout_message_kind user its now u) as [K1 K2].
      assert (E1 : tally (is_initiated u) [checkout_message isoformat user its now] = ite (u =?s user) 1)
        by (unfold tally; cbn [sumZ]; rewrite K1; lia).
      assert (E2 : tally (is_abandoned u) [checkout_message isoformat user its now] = 0)
        by (unfold tally; cbn [sumZ]; rewrite K2; done).
      lia.
    + intros m u. rewrite Eo. intros [Hm| ->%list_elem_of_singleton]%elem_of_app Hk; [by eapply Hi|].
      by exists its.
Qed.

Lemma sweep_counts which reason now s u :
  (∀ r, which r = true → is_claimed u r = (cart_user_id r =?s u) && (reason =?s "checkout_abandoned")) →
  initiated u (sweep which reason now s) = initiated u s ∧
  claimed_carts u (sweep which reason now s) = claimed_carts u s.
Proof.
  intros Hw. unfold initiated, claimed_carts, sweep. cbn [with_cart_outbox with_carts cart_outbox carts].
  rewrite !tally_app. split.
  - assert (tally (is_initiated u) (map (expired_message reason now) (List.filter which (carts s))) = 0); [|lia].
    unfold tally. rewrite sumZ_map. apply sumZ_zero. done.
  - assert (E : tally (is_claimed u) (update_where which (set_cart_status "expired" now) (carts s)) +
      tally (is_abandoned u) (map (expired_message reason now) (List.filter which (carts s))) =
      tally (is_claimed u) (carts s)); [|lia].
    unfold tally, update_where. rewrite !sumZ_map, sumZ_filter, <-sumZ_add. apply sumZ_ext. intros r _.
    destruct (which r) eqn:E; [|unfold ite at 2; lia]. rewrite (Hw r E). unfold is_claimed, is_abandoned.
    cbn [set_cart_status cart_status expired_message msg_type aggregate_id].
    rewrite (bool_decide_false ("expired" = "checkout_in_progress")), andb_false_r by done.
    rewrite (bool_decide_true ("CartExpired" = "CartExpired")) by done. cbn [andb].
    unfold ite at 1 2. change (reason_is "checkout_abandoned" (expired_message reason now r)) with (reason =?s "checkout_abandoned").
    lia.
Qed.

Lemma sweep_messages which reason now s m user :
  m ∈ cart_outbox (sweep which reason now s) → is_initiated user m = true → m ∈ cart_outbox s.
Proof.
  intros [Hm|(r & -> & _)%elem_of_map]%elem_of_app Hk; [done|]. by cbn in Hk.
Qed.

Lemma perform_ok now m w : carts_ok w → carts_ok (perform uuid4 isoformat now m w).
Proof.
  destruct w as [s ts]. intros Hok. pose proof Hok as [Hc Hi Hf]. destruct m as [t|i io|user| |]; cbn [perform fst snd].
  - destruct (is_request t) eqn:Er; [|done]. constructor; [done..|]. apply Forall_app. split; [done|].
    apply Forall_singleton. by destruct t.
  - destruct (ts !! i) as [t|] eqn:Et; [|done].
    destruct (resume uuid4 isoformat io now t s) as [[s' t']|] eqn:E; [|done].
    destruct (resume_ok _ _ _ _ _ _ ts E (list_elem_of_lookup_2 _ _ _ Et) Hok) as (H1 & H2 & H3).
    constructor; [done..|]. by apply Forall_insert.
  - by constructor.
  - constructor; unfold EXPIRE_BY_TTL; cbn [fst snd]; [| |done].
    + intros u. destruct (sweep_counts (ttl_over now) "ttl_expired" now s u) as [-> ->]; [|apply Hc].
      intros r Hr. unfold ttl_over, is_claimed in *. bool_to_prop.
      rewrite (bool_decide_false (cart_status r = "checkout_in_progress")) by congruence. by rewrite !andb_false_r.
    + intros m user Hm Hk. eapply Hi; [|done]. by eapply sweep_messages.
  - constructor; unfold RECLAIM_STALE_CHECKOUT; cbn [fst snd]; [| |done].
    + intros u. destruct (sweep_counts (stale_checkout now) "checkout_abandoned" now s u) as [-> ->]; [|apply Hc].
      intros r Hr. unfold stale_checkout, is_claimed in *. bool_to_prop.
      by rewrite (bool_decide_true (cart_status r = "checkout_in_progress")).
    + intros m user Hm Hk. eapply Hi; [|done]. by eapply sweep_messages.
Qed.

Lemma perform_all_ok ms w : carts_ok w → carts_ok (perform_all uuid4 isoformat ms w).
Proof.
  revert w. induction ms as [|[now m] ms IH]; intros w Hw; [done|]. cbn. apply IH. by apply perform_ok.
Qed.

(** Redis keeps another holder's lock through any await. *)
Lemma lock_kept io now t s s' t' user owner :
  resume uuid4 isoformat io now t s = Some (s', t') →
  redis_get (locks s) (lock_key_for user) now = Some owner → token_of t ≠ Some owner →
  redis_get (locks s') (lock_key_for user) now = Some owner.
Proof.
  intros H Ho Ht. assert (Hsame : locks s' = locks s → redis_get (locks s') (lock_key_for user) now = Some owner)
    by by intros ->.
  destruct t; cbn [resume] in H; cbv zeta in H;
    try (repeat case_match; simplify_eq; apply Hsame; done).
  - destruct io; [simplify_eq; by apply Hsame|]. destruct (acquire _ _ _ _) as [m b] eqn:Ea.
    assert (Hm : redis_get m (lock_key_for user) now = Some owner).
    { unfold acquire in Ea. destruct (decide (lock_key_for user0 = lock_key_for user)) as [E|E].
      - rewrite E, Ho in Ea. by injection Ea as <- _.
      - destruct (redis_get (locks s) (lock_key_for user0) now); injection Ea as <- _; [done|].
        unfold redis_get, redis_set in *. by rewrite lookup_insert_ne. }
    destruct b; by simplify_eq.
  - destruct (_ in_ open_keys s); [done|]. destruct (claim _ _ _ _ _ _ _) as [s1 r] eqn:Ec.
    assert (E : s' = s1) by (destruct r; congruence). apply Hsame. rewrite E. clear H E. unfold claim in Ec.
    destruct (_ in_ _); [congruence|]. destruct (active_rows _ _); [congruence|].
    by destruct io; injection Ec as <- _.
  - destruct io; [by injection H as <- <-|]. injection H as <- <-. cbn [with_locks locks].
    unfold release. case_bool_decide as Hb; [|done]. cbn [fst].
    destruct (decide (lock_key_for user0 = lock_key_for user)) as [E|E].
    + rewrite E, Ho in Hb. injection Hb as ->. by destruct Ht.
    + unfold redis_get in *. by rewrite lookup_delete_ne.
Qed.
End once.

Definition opened : world :=
  ({| cart_cache := ∅; locks := ∅; carts := []; cart_outbox := []; cart_keys := []; open_keys := [];
      cart_draws := 0 |}, []).

Lemma opened_ok : carts_ok opened.
Proof.
  constructor; [by intros| |constructor]. intros m user Hm. by apply not_elem_of_nil in Hm.
Qed.

(** C28 — A cart is handed to the saga at most once, however requests interleave:
    over any sequence of awaits of any number of requests, evictions, sweeps,
    expired locks and raised exceptions, the checkouts announced for a user never
    outnumber the carts of that user that were claimed for one, and none is
    announced with nothing in it; and no request ever takes away a checkout lock
    that another request holds. *)
Theorem cart_is_handed_over_once (uuid4 : nat → string) (isoformat : Z → string) (ms : list (Z * move)) :
  let w := perform_all uuid4 isoformat ms opened in
  (∀ user, initiated user w.1 ≤ claimed_carts user w.1) ∧
  (∀ m user, m ∈ cart_outbox w.1 → is_initiated user m = true →
     ∃ its, obj_get (payload m) "items" = items_json its ∧ its ≠ []) ∧
  (∀ t io now user owner s' t', t ∈ w.2 → resume uuid4 isoformat io now t w.1 = Some (s', t') →
     redis_get (locks w.1) (lock_key_for user) now = Some owner → token_of t ≠ Some owner →
     redis_get (locks s') (lock_key_for user) now = Some owner).
Proof.
  intros w. destruct (perform_all_ok uuid4 isoformat ms opened opened_ok) as [H1 H2 _]. fold w in H1, H2.
  split; [done|]. split; [done|]. intros t io now user owner s' t' _. apply lock_kept.
Qed.

(** ** An addition between the claim and the cache *)

(** Units of [product] over the announced checkouts. *)
Definition ordered_units (product : string) (s : system) : Z :=
  sumZ (λ m, match obj_get (payload m) "items" with
             | JObj its => match dict_get its product with Some (JInt q) => q | _ => 0 end
             | _ => 0
             end) (List.filter (λ m, msg_type m =?s "CartCheckoutInitiated") (cart_outbox s)).

Definition run_moves (start : Z) (ms : list move) : list (Z * move) :=
  imap (λ i m, (start + Z.of_nat i, m)) ms.

Definition go (i : nat) : move := Resume i None.

(** Two of A are added; a checkout claims the cart; before it drops the cache key
    one B is added; the checkout ends; the cart is checked out again. *)
Definition racing_moves : list move :=
  [Arrive (AddCheckKey "u" "k1" "A" 2); go 0; go 0; go 0; go 0; go 0; go 0;
   Arrive (CheckoutAcquire "u" "k2" "t1"); go 1; go 1; go 1; go 1;
   Arrive (AddCheckKey "u" "k3" "B" 1); go 2; go 2; go 2; go 2; go 2; go 2;
   go 1; go 1;
   Arrive (CheckoutAcquire "u" "k4" "t2"); go 3; go 3; go 3; go 3; go 3; go 3].

(** Adding during a checkout orders twice: an addition that reads the cache
    after the checkout's commit and before its deletion of the key starts a new
    cart holding the goods already handed over, so checking that cart out orders
    them again: two units were added, four are ordered, and every request was
    answered with success. *)
Theorem add_during_checkout_orders_twice (isoformat : Z → string) :
  let w := perform_all unary_id isoformat (run_moves 0 racing_moves) opened in
  ordered_units "A" w.1 = 4 ∧
  w.2 = [Answered (Cart [("A", 2)]); Answered (Status "Checkout initiated");
         Answered (Cart [("A", 2); ("B", 1)]); Answered (Status "Checkout initiated")].
Proof. vm_compute. split; reflexivity. Qed.

End CartService.
