(* ===== verification/AuditLog.v ===== *)
(** * The audit log

    [audit_rules.py]: every record carries the hash of the one before it, and
    [verify_chain] walks the log and reports every break.  [audit_service.py]:
    an append reads the tail under an advisory lock and writes the next record.

    Appends are modelled as interleaved requests, one step per statement, with
    the lock and the UNIQUE constraints of the table; a switch removes the lock,
    because the service claims that the constraints alone are enough.

    [sha256] is a parameter: no theorem assumes that it has no collisions, a
    theorem that depends on it says that a collision is the only way out.  What
    PostgreSQL does to a JSON payload between INSERT and SELECT is the parameter
    [jsonb]; a timestamp column returns the same instant in UTC. *)

From S2P Require Import Prelude PyValue Session PyJson.
From Stdlib Require Import Ascii.
Import PyJson.

Module AuditRules.

Definition GENESIS_HASH : string := "0000000000000000000000000000000000000000000000000000000000000000".

Definition HASHED_FIELDS : list string :=
  ["sequence"; "actor"; "action"; "resource_type"; "resource_id"; "recorded_at"; "payload"].

Record ChainBreak := { cb_index : nat; cb_sequence : option Z; cb_reason : string }.

(** A record as [verify_chain] sees it: the keys [to_dict] writes. *)
Record record := {
  sequence : option Z;
  actor : json;
  action : json;
  resource_type : json;
  resource_id : json;
  recorded_at : json;
  r_payload : json;
  prev_hash : option string;
  record_hash : string;
}.

(** [record.get(field)] *)
Definition field (r : record) (name : string) : json :=
  if name =?s "sequence" then match sequence r with Some z => JInt z | None => JNull end
  else if name =?s "actor" then actor r
  else if name =?s "action" then action r
  else if name =?s "resource_type" then resource_type r
  else if name =?s "resource_id" then resource_id r
  else if name =?s "recorded_at" then recorded_at r
  else if name =?s "payload" then r_payload r
  else JNull.

(** [prev_hash or GENESIS_HASH] *)
Definition or_genesis (prev : option string) : string :=
  match prev with Some s => if is_empty s then GENESIS_HASH else s | None => GENESIS_HASH end.

Definition hash_mismatch : string :=
  "record_hash does not match the record's contents; a field was changed after it was written".

Section chain.
Context (float_repr : pyfloat → string) (sha256 : string → string).

Definition canonical_bytes (r : record) : string :=
  dumps float_repr (JObj (map (λ f, (f, field r f)) HASHED_FIELDS)).

Definition compute_hash (prev : option string) (r : record) : string :=
  sha256 (or_genesis prev +:+ canonical_bytes r).

Definition link (prev : option string) (r : record) : string * string :=
  let resolved_prev := or_genesis prev in (resolved_prev, compute_hash (Some resolved_prev) r).

Definition sequence_breaks (index : nat) (last_sequence seq : option Z) : list ChainBreak :=
  match last_sequence, seq with
  | Some l, Some s =>
      if s <=? l then
        [{| cb_index := index; cb_sequence := seq;
            cb_reason := "sequence went backwards or repeated (" +:+ dec l +:+ " then " +:+ dec s +:+ ")" |}]
      else if negb (s =? l + 1) then
        [{| cb_index := index; cb_sequence := seq;
            cb_reason := "sequence gap: " +:+ dec l +:+ " then " +:+ dec s |}]
      else []
  | _, _ => []
  end.

Definition link_breaks (index : nat) (expected_prev : string) (r : record) : list ChainBreak :=
  if bool_decide (prev_hash r = Some expected_prev) then []
  else [{| cb_index := index; cb_sequence := sequence r;
           cb_reason := "prev_hash does not match the previous record's hash (expected " +:+
             take_chars 12 expected_prev +:+ "..., found " +:+
             take_chars 12 (default "None" (prev_hash r)) +:+ "...)" |}].

Definition hash_breaks (index : nat) (r : record) : list ChainBreak :=
  if record_hash r =?s compute_hash (prev_hash r) r then []
  else [{| cb_index := index; cb_sequence := sequence r; cb_reason := hash_mismatch |}].

Fixpoint verify_from (index : nat) (expected_prev : string) (last_sequence : option Z) (records : list record)
    : list ChainBreak :=
  match records with
  | [] => []
  | r :: records' =>
      link_breaks index expected_prev r ++ hash_breaks index r ++
      sequence_breaks index last_sequence (sequence r) ++
      verify_from (S index) (record_hash r)
        (match sequence r with Some s => Some s | None => last_sequence end) records'
  end.

Definition verify_chain (records : list record) : list ChainBreak := verify_from 0 GENESIS_HASH None records.

Definition chain_is_intact (records : list record) : bool :=
  match verify_chain records with [] => true | _ => false end.

(** ** What a clean verification means *)

(** The hash the next record must link to. *)
Definition tail_hash (prev : string) (rs : list record) : string := default prev (record_hash <$> last rs).

Definition collision : Prop := ∃ x y, x ≠ y ∧ sha256 x = sha256 y.

(** The hashed fields agree, up to the order of keys inside the payload. *)
Definition same_content (r r' : record) : Prop :=
  ∀ f, f ∈ HASHED_FIELDS → alike float_repr (sort_keys (field r f)) (sort_keys (field r' f)).

Inductive chained (p : string) : list record → Prop :=
| chained_nil : chained p []
| chained_snoc rs r :
    chained p rs → prev_hash r = Some (tail_hash p rs) → record_hash r = compute_hash (prev_hash r) r →
    chained p (rs ++ [r]).

Lemma verify_from_app i p l rs rs' :
  verify_from i p l (rs ++ rs') =
  verify_from i p l rs ++
  verify_from (i + length rs) (tail_hash p rs)
    (foldl (λ l r, match sequence r with Some s => Some s | None => l end) l rs) rs'.
Proof.
  revert i p l. induction rs as [|r rs IH]; intros i p l; [by rewrite Nat.add_0_r|].
  cbn [app verify_from length foldl]. rewrite IH, <-!app_assoc.
  replace (S i + length rs)%nat with (i + S (length rs))%nat by lia.
  do 4 f_equal. unfold tail_hash. destruct rs as [|r' rs]; [done|].
  rewrite !last_cons. by destruct (last rs).
Qed.

Lemma verified_chained p l rs : verify_from 0 p l rs = [] → chained p rs.
Proof.
  induction rs as [|r rs IH] using rev_ind; [constructor|].
  rewrite verify_from_app. intros [H1 H2]%app_eq_nil. cbn [verify_from] in H2.
  apply app_eq_nil in H2 as [Hl H2]. apply app_eq_nil in H2 as [Hh _].
  constructor; [by apply IH| |].
  - unfold link_breaks in Hl. by case_bool_decide.
  - unfold hash_breaks in Hh. by case_bool_decide.
Qed.

Lemma canonical_bytes_inj `{!FloatText float_repr} r r' : canonical_bytes r = canonical_bytes r' → same_content r r'.
Proof.
  intros H%dumps_inj; [|done]. inversion H as [| | | | | |d d' Hd]; subst.
  repeat match goal with H : Forall2 _ (_ :: _) _ |- _ => inversion H; clear H; subst end.
  cbn [fst snd] in *. intros f Hf. unfold HASHED_FIELDS in Hf.
  repeat (apply elem_of_cons in Hf as [->|Hf]; [tauto|]). by apply not_elem_of_nil in Hf.
Qed.

Lemma canonical_bytes_ext r r' :
  (∀ f, f ∈ HASHED_FIELDS → sort_keys (field r f) = sort_keys (field r' f)) → canonical_bytes r = canonical_bytes r'.
Proof.
  intros H. unfold canonical_bytes, dumps. cbn [sort_keys]. do 3 f_equal. rewrite !map_map.
  apply map_ext_in. intros f Hf%list_elem_of_In. by rewrite H.
Qed.

Lemma append_inj_length (a b s t : string) :
  String.length a = String.length b → a +:+ s = b +:+ t → a = b ∧ s = t.
Proof.
  revert b. induction a as [|c a IH]; intros [|d b] Hl H; try done.
  injection H as -> H. apply IH in H as [-> ->]; [done|]. by injection Hl.
Qed.

Section hashed.
Context `{!FloatText float_repr} (Hlength : ∀ x, String.length (sha256 x) = 64%nat).

Lemma or_genesis_hash p rs : String.length p = 64%nat → chained p rs → String.length (tail_hash p rs) = 64%nat.
Proof.
  intros Hp H. destruct H as [|rs r _ _ Hr]; [done|]. unfold tail_hash. rewrite last_snoc. cbn. rewrite Hr. apply Hlength.
Qed.

Lemma or_genesis_some h : String.length h = 64%nat → or_genesis (Some h) = h.
Proof. intros H. unfold or_genesis, is_empty. rewrite bool_decide_false; [done|]. by intros ->. Qed.

(** Equal hashes of two links mean equal links, or a collision. *)
Lemma compute_hash_inj h h' r r' :
  String.length h = 64%nat → String.length h' = 64%nat →
  compute_hash (Some h) r = compute_hash (Some h') r' → (h = h' ∧ same_content r r') ∨ collision.
Proof.
  intros Hh Hh' E. unfold compute_hash in E. rewrite !or_genesis_some in E by done.
  destruct (decide (h +:+ canonical_bytes r = h' +:+ canonical_bytes r')) as [Heq|Hne].
  - left. apply append_inj_length in Heq as [-> Hb]; [|congruence]. by apply canonical_bytes_inj in Hb.
  - right. by eexists _, _.
Qed.

Lemma chained_determined rs rs' :
  chained GENESIS_HASH rs → chained GENESIS_HASH rs' → tail_hash GENESIS_HASH rs = tail_hash GENESIS_HASH rs' →
  Forall2 same_content rs rs' ∨ collision ∨ ∃ x, sha256 x = GENESIS_HASH.
Proof.
  intros H. revert rs'. induction H as [|rs r Hc IH Hp Hh]; intros rs' H' E.
  - destruct H' as [|rs' r' _ _ Hr']; [left; by constructor|].
    unfold tail_hash in E. rewrite last_snoc in E. cbn in E. right; right. unfold compute_hash in Hr'. rewrite <-E in Hr'. eauto.
  - destruct H' as [|rs' r' Hc' Hp' Hr'].
    + unfold tail_hash in E. rewrite last_snoc in E. cbn in E. right; right. unfold compute_hash in Hh. rewrite E in Hh. eauto.
    + unfold tail_hash in E. rewrite !last_snoc in E. cbn in E. rewrite Hh, Hr', Hp, Hp' in E.
      apply compute_hash_inj in E as [[Ht Hs]|?]; [|by right; left|by apply or_genesis_hash..].
      destruct (IH _ Hc' Ht) as [?|?]; [|by right]. left. by apply Forall2_app; [|constructor].
Qed.

End hashed.

(** The last hash commits to the whole log: if two logs both verify and
    end in the same hash, they hold the same records in the same order, field by
    field, unless two different texts with one SHA-256 hash are known, or a text
    whose hash is the sixty-four zeros a log starts from.  So no edit, deletion,
    insertion or exchange of records that leaves the last hash alone goes
    unreported. *)
Theorem tail_hash_commits_to_log `{!FloatText float_repr}
    (Hlength : ∀ x, String.length (sha256 x) = 64%nat) (rs rs' : list record)
    (Hv : verify_chain rs = []) (Hv' : verify_chain rs' = [])
    (Htail : tail_hash GENESIS_HASH rs = tail_hash GENESIS_HASH rs') :
  Forall2 same_content rs rs' ∨ collision ∨ ∃ x, sha256 x = GENESIS_HASH.
Proof.
  apply verified_chained in Hv, Hv'. by apply chained_determined.
Qed.

(** Blame: an edit that keeps a record's links is reported at that record and
    nowhere else. *)
Theorem edit_is_blamed `{!FloatText float_repr} (rs1 rs2 : list record) (r r' : record) :
  verify_chain (rs1 ++ r :: rs2) = [] →
  sequence r' = sequence r → prev_hash r' = prev_hash r → record_hash r' = record_hash r →
  ¬ same_content r r' →
  verify_chain (rs1 ++ r' :: rs2) =
    [{| cb_index := length rs1; cb_sequence := sequence r; cb_reason := hash_mismatch |}] ∨ collision.
Proof.
  intros Hv Hs Hp Hh Hc. unfold verify_chain in *. rewrite verify_from_app in *.
  apply app_eq_nil in Hv as [-> Hv]. cbn [app verify_from] in *.
  apply app_eq_nil in Hv as [Hl Hv]. apply app_eq_nil in Hv as [Hb Hv]. apply app_eq_nil in Hv as [Hq Hv].
  unfold link_breaks in *. rewrite Hs, Hp, Hh, Hl, Hq, Hv, app_nil_r.
  assert (record_hash r = compute_hash (prev_hash r) r) as Er.
  { unfold hash_breaks in Hb. by destruct (decide (record_hash r = compute_hash (prev_hash r) r));
      [|rewrite bool_decide_false in Hb]. }
  clear Hl Hq Hv. unfold hash_breaks. rewrite Hs, Hp, Hh. case_bool_decide as Er'; [right|by left].
  rewrite Er in Er'. unfold compute_hash in Er'.
  eexists _, _; split; [|exact Er'].
  intros E. apply (inj (String.append _)) in E. apply Hc. by apply canonical_bytes_inj.
Qed.

End chain.

End AuditRules.

(** ** The service *)

Module AuditService.
Import AuditRules.

Record AuditAppendRequest := {
  q_actor : string;
  q_action : string;
  q_resource_type : string;
  q_resource_id : string;
  q_payload : json;
  q_recorded_at : option datetime;
}.

Record AuditRecord := {
  ar_sequence : Z;
  ar_actor : string;
  ar_action : string;
  ar_resource_type : string;
  ar_resource_id : string;
  ar_payload : json;
  ar_recorded_at : datetime;
  ar_prev_hash : string;
  ar_record_hash : string;
}.

Definition EVENT_RECORDED := "AuditRecordAppended".

Definition to_dict (r : AuditRecord) : record :=
  {| sequence := Some (ar_sequence r); actor := JStr (ar_actor r); action := JStr (ar_action r);
     resource_type := JStr (ar_resource_type r); resource_id := JStr (ar_resource_id r);
     recorded_at := JStr (isoformat (ar_recorded_at r)); r_payload := ar_payload r;
     prev_hash := Some (ar_prev_hash r); record_hash := ar_record_hash r |}.

(** [order_by(sequence.desc()).limit(1)] *)
Definition latest (rows : list AuditRecord) : option AuditRecord :=
  head (sort_le (λ r r', ar_sequence r' <=? ar_sequence r) rows).

(** [order_by(sequence)] *)
Definition in_sequence (rows : list AuditRecord) : list AuditRecord :=
  sort_le (λ r r', ar_sequence r <=? ar_sequence r') rows.

Definition list_records (limit offset : nat) (rows : list AuditRecord) : list AuditRecord :=
  take limit (drop offset (in_sequence rows)).

Definition get_by_resource (resource : string) (limit : nat) (rows : list AuditRecord) : list AuditRecord :=
  take limit (in_sequence (List.filter (λ r, ar_resource_id r =?s resource) rows)).

(** A request: before the lock, before reading the tail, before the commit. *)
Inductive thread :=
| Locking (q : AuditAppendRequest)
| Reading (q : AuditAppendRequest)
| Committing (r : AuditRecord) (m : OutboxMessage)
| Answered (a : exn + AuditRecord).

Record world := {
  rows : list AuditRecord;
  audit_outbox : list OutboxMessage;
  holder : option nat;
  threads : list thread;
}.

(** The two UNIQUE constraints of the table. *)
Definition conflicts (r : AuditRecord) (rs : list AuditRecord) : bool :=
  existsb (λ r', (ar_sequence r' =? ar_sequence r) || (ar_record_hash r' =?s ar_record_hash r)) rs.

(** The end of a transaction frees the lock. *)
Definition finish (i : nat) (a : exn + AuditRecord) (w : world) : world :=
  {| rows := rows w; audit_outbox := audit_outbox w;
     holder := if bool_decide (holder w = Some i) then None else holder w;
     threads := <[i := Answered a]> (threads w) |}.

Definition become (i : nat) (t : thread) (h : option nat) (w : world) : world :=
  {| rows := rows w; audit_outbox := audit_outbox w; holder := h; threads := <[i := t]> (threads w) |}.

Section service.
Context (float_repr : pyfloat → string) (sha256 : string → string) (jsonb : json → json).

(** What SELECT returns for a row that was inserted as [r]. *)
Definition stored (r : AuditRecord) : AuditRecord :=
  {| ar_sequence := ar_sequence r; ar_actor := ar_actor r; ar_action := ar_action r;
     ar_resource_type := ar_resource_type r; ar_resource_id := ar_resource_id r;
     ar_payload := jsonb (ar_payload r);
     ar_recorded_at := {| instant := instant (ar_recorded_at r); utc_offset := 0 |};
     ar_prev_hash := ar_prev_hash r; ar_record_hash := ar_record_hash r |}.

(** The row and the event for a request that has read [tail]. *)
Definition plan_append (tail : option AuditRecord) (q : AuditAppendRequest) (now : Z)
    : AuditRecord * OutboxMessage :=
  let next_sequence := match tail with None => 1 | Some t => ar_sequence t + 1 end in
  let prev := match tail with None => GENESIS_HASH | Some t => ar_record_hash t end in
  let recorded := default {| instant := now; utc_offset := 0 |} (q_recorded_at q) in
  let fields :=
    {| sequence := Some next_sequence; actor := JStr (q_actor q); action := JStr (q_action q);
       resource_type := JStr (q_resource_type q); resource_id := JStr (q_resource_id q);
       recorded_at := JStr (isoformat recorded); r_payload := q_payload q; prev_hash := None; record_hash := "" |} in
  let hashes := link float_repr sha256 (Some prev) fields in
  ({| ar_sequence := next_sequence; ar_actor := q_actor q; ar_action := q_action q;
      ar_resource_type := q_resource_type q; ar_resource_id := q_resource_id q; ar_payload := q_payload q;
      ar_recorded_at := recorded; ar_prev_hash := hashes.1; ar_record_hash := hashes.2 |},
   {| aggregate_type := "Audit"; aggregate_id := dec next_sequence; msg_type := EVENT_RECORDED;
      payload := [("sequence", JInt next_sequence); ("actor", JStr (q_actor q)); ("action", JStr (q_action q));
                  ("resource_type", JStr (q_resource_type q)); ("resource_id", JStr (q_resource_id q));
                  ("record_hash", JStr hashes.2)];
      msg_created_at := now |}).

(** One statement of request [i]; [None] while it waits for the lock. *)
Definition append_record (locking : bool) (i : nat) (io : option string) (now : Z) (w : world) : option world :=
  match threads w !! i with
  | Some (Locking q) =>
      match io, holder w with
      | Some e, _ => Some (finish i (inl (Raised e)) w)
      | None, Some _ => if locking then None else Some (become i (Reading q) (holder w) w)
      | None, None => Some (become i (Reading q) (if locking then Some i else None) w)
      end
  | Some (Reading q) =>
      match io with
      | Some e => Some (finish i (inl (Raised e)) w)
      | None => let (r, m) := plan_append (latest (rows w)) q now in
                Some (become i (Committing r m) (holder w) w)
      end
  | Some (Committing r m) =>
      match io with
      | Some e => Some (finish i (inl (Http 500 e)) w)
      | None =>
          if conflicts r (rows w) then Some (finish i (inl (Http 409 "concurrent append conflicted; retry")) w)
          else Some (finish i (inr r)
                 {| rows := rows w ++ [stored r]; audit_outbox := audit_outbox w ++ [m];
                    holder := holder w; threads := threads w |})
      end
  | _ => None
  end.

Definition verify (rs : list AuditRecord) : list record * list ChainBreak :=
  let records := map to_dict (in_sequence rs) in (records, verify_chain float_repr sha256 records).

(** An interleaving of requests: who moves, what the database answers, when. *)
Record move := { who : nat; db_error : option string; clock : Z }.

Definition perform (locking : bool) (w : world) (m : move) : world :=
  default w (append_record locking (who m) (db_error m) (clock m) w).

Definition opened (qs : list AuditAppendRequest) : world :=
  {| rows := []; audit_outbox := []; holder := None; threads := map Locking qs |}.

Definition history (locking : bool) (qs : list AuditAppendRequest) (ms : list move) : world :=
  foldl (perform locking) (opened qs) ms.

(** A request whose row reads back as it was hashed. *)
Definition storable (q : AuditAppendRequest) : Prop :=
  sort_keys (jsonb (q_payload q)) = sort_keys (q_payload q) ∧
  match q_recorded_at q with Some t => utc_offset t = 0 | None => True end.

(** ** The log stays one chain *)

(** [r] is the row a request [q] is stored as. *)
Definition row_of (q : AuditAppendRequest) (r : AuditRecord) : Prop :=
  ar_actor r = q_actor q ∧ ar_action r = q_action q ∧ ar_resource_type r = q_resource_type q ∧
  ar_resource_id r = q_resource_id q ∧ ar_payload r = jsonb (q_payload q).

Section requests.
Context (qs : list AuditAppendRequest).

Definition thread_ok (rs : list AuditRecord) (t : thread) : Prop :=
  match t with
  | Locking q | Reading q => q ∈ qs
  | Committing r m => ∃ k q now, (k ≤ length rs)%nat ∧ q ∈ qs ∧ (r, m) = plan_append (last (take k rs)) q now
  | Answered _ => True
  end.

(** The one thing a check of the log can find: a row of a request that does not
    read back as it was hashed. *)
Definition excused (rs : list AuditRecord) (b : ChainBreak) : Prop :=
  cb_reason b = hash_mismatch ∧ ∃ r q, rs !! cb_index b = Some r ∧ q ∈ qs ∧ row_of q r ∧ ¬ storable q.

Record log_ok (w : world) : Prop := {
  ok_sequence : ∀ i r, rows w !! i = Some r → ar_sequence r = Z.of_nat i + 1;
  ok_hashes : ∀ r, r ∈ rows w → String.length (ar_record_hash r) = 64%nat;
  ok_verified : ∀ b, b ∈ verify_chain float_repr sha256 (map to_dict (rows w)) → excused (rows w) b;
  ok_announced : map aggregate_id (audit_outbox w) = map (λ r, dec (ar_sequence r)) (rows w);
  ok_threads : ∀ t, t ∈ threads w → thread_ok (rows w) t;
}.

Lemma sequences_increase rs :
  (∀ i r, rs !! i = Some r → ar_sequence r = Z.of_nat i + 1) →
  ∀ rs1 r, rs = rs1 ++ [r] → ∀ r', r' ∈ rs1 → ar_sequence r' < ar_sequence r.
Proof.
  intros H rs1 r -> r' [i Hi]%list_elem_of_lookup. pose proof (lookup_lt_Some _ _ _ Hi).
  rewrite (H i r'), (H (length rs1) r); [lia|by apply list_lookup_middle|by apply lookup_app_l_Some].
Qed.

Lemma latest_last rs :
  (∀ i r, rs !! i = Some r → ar_sequence r = Z.of_nat i + 1) → latest rs = last rs.
Proof.
  intros H. destruct rs as [|r rs] using rev_ind; [done|]. rewrite last_snoc. apply sort_le_head.
  intros r' Hr'. apply Z.leb_gt. by eapply sequences_increase.
Qed.

Lemma in_sequence_id rs :
  (∀ i r, rs !! i = Some r → ar_sequence r = Z.of_nat i + 1) → in_sequence rs = rs.
Proof.
  intros H. apply sort_le_id. enough (∀ n, (∀ i r, rs !! i = Some r → ar_sequence r = Z.of_nat i + n) →
    Sorted (in_order (λ r r', ar_sequence r <=? ar_sequence r')) rs) as Hs by by apply (Hs 1).
  clear H. induction rs as [|r rs IH]; intros n H; constructor.
  - apply (IH (n + 1)). intros i r' Hi. rewrite (H (S i) r' Hi). lia.
  - destruct rs as [|r' rs]; constructor. unfold in_order. apply Z.leb_le.
    rewrite (H 0%nat r eq_refl), (H 1%nat r' eq_refl). lia.
Qed.

(** The hash of a planned row is the hash of what is read back. *)
Lemma planned_hash tail q now r m :
  storable q → plan_append tail q now = (r, m) →
  ar_record_hash (stored r) = compute_hash float_repr sha256 (Some (ar_prev_hash r)) (to_dict (stored r)).
Proof.
  intros [Hp Ht] [= <- <-]. cbn [stored ar_record_hash ar_prev_hash link fst snd].
  unfold compute_hash. do 2 f_equal. apply canonical_bytes_ext. intros f Hf.
  repeat (apply elem_of_cons in Hf as [->|Hf]; [try reflexivity|]); [| |by apply not_elem_of_nil in Hf].
  - cbn. destruct (q_recorded_at q) as [[t o]|]; cbn in Ht |- *; [by rewrite Ht|done].
  - exact (eq_sym Hp).
Qed.

Lemma tail_of_rows rs : tail_hash GENESIS_HASH (map to_dict rs) = match last rs with None => GENESIS_HASH | Some t => ar_record_hash t end.
Proof. unfold tail_hash. rewrite fmap_last || rewrite last_fmap. by destruct (last rs). Qed.

Section hashed.
Context (Hlength : ∀ x, String.length (sha256 x) = 64%nat).

Lemma last_sequence_of rs l :
  foldl (λ l r, match sequence r with Some s => Some s | None => l end) l (map to_dict rs) =
  match last rs with None => l | Some t => Some (ar_sequence t) end.
Proof.
  revert l. induction rs as [|r rs IH] using rev_ind; intros l; [done|].
  rewrite map_app, foldl_app, last_snoc. done.
Qed.

Lemma excused_grows rs r b : excused rs b → excused (rs ++ [r]) b.
Proof. intros (Hr & r' & q & Hl & Hq). split; [done|]. exists r', q. split; [by apply lookup_app_l_Some|done]. Qed.

(** The next planned row adds nothing to what a check finds, but for its own hash. *)
Lemma verified_snoc rs q now r m :
  (∀ i r, rs !! i = Some r → ar_sequence r = Z.of_nat i + 1) →
  (∀ r, r ∈ rs → String.length (ar_record_hash r) = 64%nat) →
  plan_append (last rs) q now = (r, m) →
  verify_chain float_repr sha256 (map to_dict (rs ++ [stored r])) =
  verify_chain float_repr sha256 (map to_dict rs) ++ hash_breaks float_repr sha256 (length rs) (to_dict (stored r)).
Proof.
  intros Hs Hh Hp. unfold verify_chain in *. rewrite map_app, verify_from_app. f_equal. cbn [map verify_from].
  assert (ar_prev_hash r = tail_hash GENESIS_HASH (map to_dict rs)) as Hprev.
  { rewrite tail_of_rows. injection Hp as <- _. cbn [ar_prev_hash link fst].
    destruct (last rs) as [t|] eqn:E; apply or_genesis_some; [|done]. apply Hh. by apply last_Some_elem_of. }
  unfold link_breaks. cbn [to_dict prev_hash record_hash sequence].
  rewrite bool_decide_true by (by rewrite <-Hprev). rewrite length_map.
  cbn [app]. rewrite app_nil_r, last_sequence_of. cbn [Nat.add]. rewrite <-(app_nil_r (hash_breaks _ _ (length rs) _)). rewrite <-!app_assoc. f_equal. cbn [app].
  injection Hp as <- _. cbn [stored ar_sequence].
  destruct (last rs) as [t|]; [|done]. cbn. rewrite (proj2 (Z.leb_gt _ _)) by lia. by rewrite Z.eqb_refl.
Qed.

(** And its own hash only when the request does not read back as it was hashed. *)
Lemma planned_break rs tail q now r m b :
  q ∈ qs → plan_append tail q now = (r, m) → b ∈ hash_breaks float_repr sha256 (length rs) (to_dict (stored r)) → excused (rs ++ [stored r]) b.
Proof.
  intros Hq Hp. unfold hash_breaks. destruct (_ =?s _) eqn:E; [by intros ?%elem_of_nil|]. intros ->%list_elem_of_singleton.
  apply bool_decide_eq_false in E. split; [done|]. cbn [cb_index]. exists (stored r), q.
  split; [by apply list_lookup_middle|]. split_and!; [done|by injection Hp as <- _|].
  intros Hst. apply E. exact (planned_hash _ _ _ _ _ Hst Hp).
Qed.

Lemma planned_sequence rs q now r m k :
  (∀ i r, rs !! i = Some r → ar_sequence r = Z.of_nat i + 1) → (k ≤ length rs)%nat →
  plan_append (last (take k rs)) q now = (r, m) →
  ar_sequence r = Z.of_nat k + 1 ∧ aggregate_id m = dec (ar_sequence r).
Proof.
  intros Hs Hk [= <- <-]. cbn. split; [|done]. destruct k as [|k]; [done|].
  destruct (lookup_lt_is_Some_2 rs k ltac:(lia)) as [t Ht].
  rewrite (take_S_r _ _ t Ht), last_snoc. rewrite (Hs k t Ht). lia.
Qed.

Lemma sequence_free rs r :
  (∀ i r, rs !! i = Some r → ar_sequence r = Z.of_nat i + 1) → conflicts r rs = false →
  1 ≤ ar_sequence r ≤ Z.of_nat (length rs) + 1 → ar_sequence r = Z.of_nat (length rs) + 1.
Proof.
  intros Hs Hc Hr. destruct (decide (ar_sequence r = Z.of_nat (length rs) + 1)) as [|Hne]; [done|].
  destruct (lookup_lt_is_Some_2 rs (Z.to_nat (ar_sequence r - 1)) ltac:(lia)) as [t Ht].
  pose proof (Hs _ _ Ht). unfold conflicts in Hc.
  assert (existsb (λ r', (ar_sequence r' =? ar_sequence r) || (ar_record_hash r' =?s ar_record_hash r)) rs = true) as E.
  { apply existsb_exists. exists t. split; [by apply list_elem_of_In; eapply list_elem_of_lookup_2|].
    replace (ar_sequence t) with (ar_sequence r) by lia. by rewrite Z.eqb_refl. }
  by rewrite E in Hc.
Qed.

Lemma thread_ok_grows rs r t : thread_ok rs t → thread_ok (rs ++ [r]) t.
Proof.
  destruct t; try done. intros (k & q & now & Hk & Hq & E). exists k, q, now.
  rewrite length_app, take_app_le by done. by split_and!; [lia| |].
Qed.

Lemma threads_update (P : thread → Prop) (i : nat) t (ts : list thread) :
  (∀ t', t' ∈ ts → P t') → P t → ∀ t', t' ∈ <[i := t]> ts → P t'.
Proof.
  intros H Ht t' [j Hj]%list_elem_of_lookup. destruct (decide (i = j)) as [->|Hne].
  - apply list_lookup_insert_Some in Hj as [(_ & <- & _)|(? & _)]; done.
  - rewrite list_lookup_insert_ne in Hj by done. apply H. by eapply list_elem_of_lookup_2.
Qed.

(** Committing the row of one request. *)
Lemma commit_ok w r m :
  log_ok w → thread_ok (rows w) (Committing r m) → conflicts r (rows w) = false →
  log_ok {| rows := rows w ++ [stored r]; audit_outbox := audit_outbox w ++ [m]; holder := holder w; threads := threads w |}.
Proof.
  intros [Hs Hh Hv Ha Ht] (k & q & now & Hk & Hq & E) Hc. symmetry in E.
  destruct (planned_sequence _ _ _ _ _ _ Hs Hk E) as [Hseq Hid].
  assert (ar_sequence r = Z.of_nat (length (rows w)) + 1) as Hnext by (apply sequence_free; [done..|lia]).
  replace k with (length (rows w)) in E by lia. rewrite firstn_all in E.
  constructor; cbn [rows audit_outbox threads].
  - intros i r' [[_ Hi]|[-> <-]]%lookup_snoc_Some; [by apply Hs|done].
  - intros r' [?| ->%list_elem_of_singleton]%elem_of_app; [by apply Hh|]. injection E as <- _. apply Hlength.
  - intros b. rewrite (verified_snoc _ _ _ _ _ Hs Hh E). intros [Hb|Hb]%elem_of_app; [by apply excused_grows, Hv|].
    by eapply planned_break.
  - rewrite !map_app, Ha. cbn. by rewrite Hid.
  - intros t Hin. by apply thread_ok_grows, Ht.
Qed.

Lemma update_ok w i t h :
  log_ok w → thread_ok (rows w) t → log_ok {| rows := rows w; audit_outbox := audit_outbox w; holder := h; threads := <[i := t]> (threads w) |}.
Proof. intros [Hs Hh Hv Ha Ht] H. constructor; [done..|]. by apply threads_update. Qed.

Lemma append_record_ok locking i io now w w' :
  log_ok w → append_record locking i io now w = Some w' → log_ok w'.
Proof.
  intros Hok. unfold append_record. destruct (threads w !! i) as [t|] eqn:Et; [|done].
  pose proof (ok_threads _ Hok _ (list_elem_of_lookup_2 _ _ _ Et)) as Ht.
  destruct t as [q|q|r m|a]; [| | |done].
  - destruct io, (holder w), locking; intros [= <-]; by apply update_ok.
  - destruct io as [e|]; [intros [= <-]; by apply update_ok|].
    destruct (plan_append _ _ _) as [r m] eqn:E. intros [= <-]. apply update_ok; [done|].
    exists (length (rows w)), q, now. rewrite firstn_all, <-latest_last by apply Hok. by split_and!.
  - destruct io as [e|]; [intros [= <-]; by apply update_ok|].
    destruct (conflicts r (rows w)) eqn:Ec; intros [= <-]; [by apply update_ok|].
    apply (update_ok {| rows := _; audit_outbox := _; holder := _; threads := _ |}); [by apply commit_ok|done].
Qed.

End hashed.
End requests.

(** C35 — However requests interleave, and whether or not the advisory lock is
    taken, the log never forks, whatever the requests hold: its rows are numbered
    1, 2, 3, ... without a gap or a repetition, and each committed row has exactly
    one event.  The service's own check of the whole log never finds a broken link
    or sequence; it finds a hash that does not match only at the row of a request
    that is not read back as it was hashed (a timestamp with an offset other than
    UTC, or a payload PostgreSQL's jsonb changes), so it finds nothing at all when
    every request is. *)
Theorem audit_log_never_forks (Hlength : ∀ x, String.length (sha256 x) = 64%nat)
    (locking : bool) (qs : list AuditAppendRequest) (ms : list move) :
  let w := history locking qs ms in
  map ar_sequence (rows w) = seqZ 1 (Z.of_nat (length (rows w))) ∧
  map aggregate_id (audit_outbox w) = map (λ r, dec (ar_sequence r)) (rows w) ∧
  (verify (rows w)).1 = map to_dict (rows w) ∧
  (∀ b, b ∈ (verify (rows w)).2 → cb_reason b = hash_mismatch ∧
     ∃ r q, rows w !! cb_index b = Some r ∧ q ∈ qs ∧ row_of q r ∧ ¬ storable q) ∧
  ((∀ q, q ∈ qs → storable q) → (verify (rows w)).2 = []).
Proof.
  cbv zeta. unfold history.
  assert (log_ok qs (foldl (perform locking) (opened qs) ms)) as [Hs _ Hv Ha _].
  { assert (log_ok qs (opened qs)) as H.
    { constructor; [done|by intros r ?%elem_of_nil|by intros b ?%elem_of_nil|done|]. by intros t (q & -> & Hq)%elem_of_map. }
    revert H. generalize (opened qs).
    induction ms as [|m ms IH]; intros w H; [done|]. cbn [foldl]. apply IH.
    unfold perform. destruct (append_record _ _ _ _ _) eqn:E; [|done]. by eapply append_record_ok. }
  unfold verify. rewrite in_sequence_id by done. cbn [fst snd]. split_and!; [|done|done|exact Hv|].
  - apply list_eq. intros i. rewrite list_lookup_fmap.
    destruct (_ !! i) as [r|] eqn:E; cbn.
    + pose proof (lookup_lt_Some _ _ _ E). rewrite (Hs _ _ E). symmetry. apply lookup_seqZ. lia.
    + apply lookup_ge_None in E. symmetry. apply lookup_seqZ_ge. lia.
  - intros Hst. destruct (verify_chain _ _ _) as [|b bs]; [done|]. destruct (Hv b ltac:(by left)) as (_ & r & q & _ & Hq & _ & Hn). by destruct Hn; apply Hst.
Qed.

(** A record reported with a time zone other than UTC is accepted and then
    reported as tampered with: the hash is taken over the timestamp as the
    caller wrote it, the check recomputes it over the timestamp as the database
    returns it, in UTC, and (unless SHA-256 collides) the two differ. *)
Theorem offset_timestamp_reported_as_tampering `{!FloatText float_repr}
    (q : AuditAppendRequest) (t : datetime) (now : Z)
    (Hq : q_recorded_at q = Some t)
    (Hiso : isoformat t ≠ isoformat {| instant := instant t; utc_offset := 0 |}) :
  let step := {| who := 0; db_error := None; clock := now |} in
  let w := history true [q] [step; step; step] in
  (∃ r, threads w = [Answered (inr r)] ∧ ar_recorded_at r = t) ∧
  ((verify (rows w)).2 = [{| cb_index := 0; cb_sequence := Some 1; cb_reason := hash_mismatch |}] ∨
   collision sha256).
Proof.
  cbv zeta. destruct (plan_append None q now) as [r m] eqn:E.
  assert (history true [q] (replicate 3 {| who := 0; db_error := None; clock := now |}) =
    {| rows := [stored r]; audit_outbox := [m]; holder := None; threads := [Answered (inr r)] |}) as Hw.
  { unfold history, perform. cbn -[plan_append]. rewrite E. cbn -[plan_append]. reflexivity. }
  unfold history in *. cbn [replicate] in Hw. rewrite Hw. cbn [threads rows]. injection E as <- <-.
  split; [eexists; split; [done|]; cbn; by rewrite Hq|].
  unfold verify, in_sequence, verify_chain. cbn [snd sort_le foldr insert_le map verify_from].
  unfold link_breaks. cbn [to_dict prev_hash stored ar_prev_hash link fst]. rewrite bool_decide_true by done.
  cbn [app sequence_breaks]. rewrite app_nil_r. unfold hash_breaks.
  case_bool_decide as Eh; [right|by left]. cbn [record_hash to_dict stored ar_record_hash link snd prev_hash] in Eh.
  unfold compute_hash in Eh. eexists _, _; split; [|exact Eh]. intros Ebytes.
  apply (inj (String.append _)), canonical_bytes_inj in Ebytes; [|done].
  specialize (Ebytes "recorded_at" ltac:(by_compute)). cbn [field to_dict stored ar_recorded_at] in Ebytes.
  apply alike_str_inv in Ebytes. rewrite Hq in Ebytes. cbn [default] in Ebytes. by destruct Hiso.
Qed.

End service.

(** ** Concrete runs *)

Definition text_of_float (f : pyfloat) : string :=
  match f with FFin m e => dec m +:+ "." +:+ dec e | FInf b => if b then "-Infinity" else "Infinity" | FNan => "NaN" end.

#[global] Instance text_of_float_ok : FloatText text_of_float.
Proof.
  assert (∀ a b, number_text a → number_text b → number_text (a +:+ "." +:+ b)) as Happ.
  { intros a b [(c & r & -> & Hc) Ha] [_ Hb]. split; [by eexists _, _|]. intros x.
    rewrite !has_char_app. intros [H|[H|H]%orb_true_iff]%orb_true_iff; [by apply Ha| |by apply Hb].
    cbn in H. rewrite orb_false_r in H. by apply bool_decide_eq_true in H as <-. }
  constructor.
  - intros [m e|[]|]; cbn; [by apply Happ; apply dec_number| | |];
      (split; [by eexists _, _|]; intros c Hc; cbn in Hc;
       repeat (apply orb_true_iff in Hc as [<-%bool_decide_eq_true|Hc]; [done|]); done).
  - intros f z E.
    assert (∃ c, has_char c (text_of_float f) = true ∧ ¬ (48 <= code c <= 57 ∨ code c = 45)) as (c & Hc & Hn).
    { destruct f as [m e|[]|]; [exists "."%char|exists "I"%char..|exists "N"%char]; (split; [|vm_compute; intuition congruence]);
        [|done..]. cbn. rewrite has_char_app. cbn. by rewrite orb_true_r. }
    rewrite E in Hc. apply Hn. by eapply dec_digits.
Qed.

Lemma hex_fixed_length n z t : String.length (hex_fixed n z t) = (n + String.length t)%nat.
Proof. revert z t. induction n as [|n IH]; intros z t; [done|]. cbn [hex_fixed]. rewrite IH. cbn. lia. Qed.

(** A stand-in for SHA-256 that the kernel evaluates quickly. *)
Fixpoint checksum (s : string) (acc : Z) : Z :=
  match s with EmptyString => acc | String c s' => checksum s' (Z.land (acc * 257 + code c + 1) (2 ^ 61 - 1)) end.

Definition sample_sha256 (s : string) : string := hex_fixed 64 (checksum s 7) "".

Lemma sample_sha256_length x : String.length (sample_sha256 x) = 64%nat.
Proof. unfold sample_sha256. by rewrite hex_fixed_length. Qed.

Definition sample_request (action : string) (body : list (string * json)) (at_ : option datetime) : AuditAppendRequest :=
  {| q_actor := "dlq-reprocessor"; q_action := action; q_resource_type := "message"; q_resource_id := "m-1";
     q_payload := JObj body; q_recorded_at := at_ |}.

Definition sample_requests : list AuditAppendRequest :=
  [sample_request "escalated" [("attempts", JInt 3); ("dlq", JStr "dlq.Order.events")] None;
   sample_request "replayed" [("by", JNull)] (Some {| instant := 5; utc_offset := 0 |})].

Definition go (i : nat) (now : Z) : move := {| who := i; db_error := None; clock := now |}.

Definition sample_history (locking : bool) (ms : list move) : world :=
  history text_of_float sample_sha256 Datatypes.id locking sample_requests ms.

(** Without the lock the second writer is refused by the constraint. *)
Lemma audit_log_never_forks_witness :
  let w := sample_history false [go 0 1; go 1 2; go 0 3; go 1 4; go 0 5; go 1 6] in
  threads w !! 1%nat = Some (Answered (inl (Http 409 "concurrent append conflicted; retry"))) ∧
  map ar_sequence (rows w) = [1] ∧
  (verify text_of_float sample_sha256 (rows w)).2 = [].
Proof.
  intros w.
  assert (∀ q, q ∈ sample_requests → storable Datatypes.id q) as Hq
    by (intros q Hq; unfold sample_requests in Hq; elem_cases Hq; subst; by split).
  destruct (audit_log_never_forks text_of_float sample_sha256 Datatypes.id sample_sha256_length false sample_requests
    [go 0 1; go 1 2; go 0 3; go 1 4; go 0 5; go 1 6]) as (Hs & _ & _ & _ & Hv).
  split; [vm_compute; reflexivity|]. split; [exact Hs|]. exact (Hv Hq).
Defined.

Definition sample_log : list record :=
  map to_dict (rows (sample_history true [go 0 1; go 0 2; go 0 3; go 1 4; go 1 5; go 1 6])).

(** The payload of a record with its keys in another order: the same content. *)
Definition swapped_keys (r : record) : record :=
  {| sequence := sequence r; actor := actor r; action := action r; resource_type := resource_type r;
     resource_id := resource_id r; recorded_at := recorded_at r;
     r_payload := match r_payload r with JObj d => JObj (rev d) | v => v end;
     prev_hash := prev_hash r; record_hash := record_hash r |}.

Lemma tail_hash_commits_to_log_witness :
  length sample_log = 2%nat ∧
  (Forall2 (same_content text_of_float) sample_log (map swapped_keys sample_log) ∨
   collision sample_sha256 ∨ ∃ x, sample_sha256 x = GENESIS_HASH).
Proof.
  split; [vm_compute; reflexivity|].
  apply (tail_hash_commits_to_log text_of_float sample_sha256 sample_sha256_length); vm_compute; reflexivity.
Defined.

(** Noon in Dhaka, reported by a caller in Dhaka. *)
Definition dhaka_noon : datetime := {| instant := 21600000000; utc_offset := 360 |}.

Lemma offset_timestamp_reported_as_tampering_witness :
  isoformat dhaka_noon = "1970-01-01T12:00:00+06:00" ∧
  ((verify text_of_float sample_sha256
      (rows (history text_of_float sample_sha256 Datatypes.id true
         [sample_request "escalated" [] (Some dhaka_noon)] [go 0 9; go 0 9; go 0 9]))).2 =
     [{| cb_index := 0; cb_sequence := Some 1; cb_reason := hash_mismatch |}] ∨ collision sample_sha256).
Proof.
  split; [vm_compute; reflexivity|].
  refine (proj2 (offset_timestamp_reported_as_tampering text_of_float sample_sha256 Datatypes.id
    (sample_request "escalated" [] (Some dhaka_noon)) dhaka_noon 9 eq_refl _)).
  vm_compute. discriminate.
Defined.

End AuditService.
