(* ===== verification/WebhookHandler.v ===== *)
(** * Payment-provider webhooks

    [webhook_rules.py]: the signature header and its verification.
    [main.py] of the webhook handler: the four layers, over a Redis key per
    event with an expiry, the table of processed events and the outbox of the
    payment service.  Redis may be flushed or unavailable at any moment, and the
    commit may fail.

    Bytes and text are strings.  [hmac_sha256 key message] is the hexadecimal
    digest and [json_loads] the JSON parser, both parameters. *)

From S2P Require Import Prelude PyValue PyJson PyText Session.
From Stdlib Require Import Ascii.
Import PyJson PyText.

Module WebhookRules.

Definition DEFAULT_TOLERANCE_SECONDS : Z := 300.
Definition DEDUP_TTL_SECONDS : Z := 7 * 24 * 60 * 60.
Definition SIGNATURE_SCHEME := "v1".

Inductive Admission := ACCEPT | MISSING_SIGNATURE | MALFORMED_SIGNATURE | BAD_SIGNATURE | STALE.

#[global] Instance Admission_eq : EqDecision Admission.
Proof. solve_decision. Defined.

Record SignatureCheck := { admission : Admission; detail : string; timestamp : option Z }.

Definition accepted (c : SignatureCheck) : bool := bool_decide (admission c = ACCEPT).

(** One [key=value] part of the header. *)
Definition read_part (acc : option Z * option string) (part : string) : option Z * option string :=
  match partition_on "="%char (strip part) with
  | None => acc
  | Some (key, value) =>
      if strip key =?s "t" then (parse_int 10 (strip value), acc.2)
      else if strip key =?s SIGNATURE_SCHEME then (acc.1, Some (strip value))
      else acc
  end.

Definition parse_signature_header (header : option string) : option Z * option string :=
  match header with
  | None => (None, None)
  | Some h => if is_empty h then (None, None) else foldl read_part (None, None) (split_on ","%char h)
  end.

(** [hmac.compare_digest] on [str]: [None] is the [TypeError] for a character
    outside ASCII. *)
Fixpoint is_ascii (s : string) : bool :=
  match s with EmptyString => true | String c s' => (code c <? 128) && is_ascii s' end.

Definition compare_digest (a b : string) : option bool :=
  if is_ascii a && is_ascii b then Some (a =?s b) else None.

Definition dedup_key (event_id : string) : string := "webhook:seen:" +:+ event_id.

Section rules.
Context (hmac_sha256 : string → string → string).

Definition expected_signature (secret : string) (timestamp : Z) (raw_body : string) : string :=
  hmac_sha256 secret (dec timestamp +:+ "." +:+ raw_body).

(** [None] is the exception of [compare_digest]. *)
Definition verify_signature (secret raw_body : string) (header : option string) (now tolerance : Z)
    : option SignatureCheck :=
  let refuse a d t := Some {| admission := a; detail := d; timestamp := t |} in
  if match header with Some h => is_empty h | None => true end then
    refuse MISSING_SIGNATURE "no signature header" None
  else match parse_signature_header header with
  | (Some ts, Some signature) =>
      if is_empty signature then refuse MALFORMED_SIGNATURE "signature header is missing t or v1" None
      else
        let age := now - ts in
        if tolerance <? age then
          refuse STALE ("timestamp is " +:+ dec age +:+ "s old, tolerance is " +:+ dec tolerance +:+ "s") (Some ts)
        else if age <? - tolerance then
          refuse STALE ("timestamp is " +:+ dec (- age) +:+ "s in the future, tolerance is " +:+ dec tolerance +:+ "s")
            (Some ts)
        else match compare_digest (expected_signature secret ts raw_body) signature with
             | None => None
             | Some false => refuse BAD_SIGNATURE "signature does not match" (Some ts)
             | Some true => refuse ACCEPT "signature verified" (Some ts)
             end
  | _ => refuse MALFORMED_SIGNATURE "signature header is missing t or v1" None
  end.

(** The header a sender writes: [t=<unix seconds>,v1=<hex hmac>]. *)
Definition signed_header (secret raw_body : string) (t : Z) : string :=
  "t=" +:+ dec t +:+ "," +:+ SIGNATURE_SCHEME +:+ "=" +:+ expected_signature secret t raw_body.

Definition is_hex (c : Ascii.ascii) : bool :=
  ((48 <=? code c) && (code c <=? 57)) || ((97 <=? code c) && (code c <=? 102)).

Lemma lacks_hex (p : Ascii.ascii → bool) s :
  (∀ c, has_char c s = true → is_hex c = true) → (∀ c, is_hex c = true → p c = false) → lacks p s.
Proof. intros H Hp c Hc. by apply Hp, H. Qed.

Lemma hex_ascii s : (∀ c, has_char c s = true → is_hex c = true) → is_ascii s = true.
Proof.
  induction s as [|c s IH]; intros H; [done|]. cbn. rewrite IH.
  - rewrite andb_true_r. assert (is_hex c = true) as Hc by (apply H; cbn; by rewrite bool_decide_true).
    unfold is_hex in Hc. lia.
  - intros d Hd. apply H. cbn. by rewrite Hd, orb_true_r.
Qed.

Lemma is_hex_not c d : is_hex d = false → is_hex c = true → bool_decide (c = d) = false.
Proof. intros Hd Hc. apply bool_decide_eq_false. congruence. Qed.

(** Reading a header back. *)
Lemma parse_signed t sig :
  (∀ c, has_char c sig = true → is_hex c = true) →
  parse_signature_header (Some ("t=" +:+ dec t +:+ "," +:+ SIGNATURE_SCHEME +:+ "=" +:+ sig)) = (Some t, Some sig).
Proof.
  intros Hsig. unfold parse_signature_header. change (is_empty _) with false. cbv iota.
  assert (∀ p, (∀ c, is_hex c = true → p c = false) → lacks p sig) as Hhex by (intros p; by apply lacks_hex).
  assert (∀ p, (∀ c, 48 ≤ code c ≤ 57 ∨ code c = 45 → p c = false) → lacks p (dec t)) as Hdec.
  { intros p Hp c Hc. by eapply Hp, dec_digits. }
  change ("t=" +:+ dec t +:+ "," +:+ SIGNATURE_SCHEME +:+ "=" +:+ sig)
    with (String "t"%char (String "="%char (dec t)) +:+ String ","%char (String "v"%char (String "1"%char (String "="%char sig)))).
  rewrite split_on_app, split_on_single; cycle 1.
  - do 3 (apply lacks_cons; split; [done|]). apply Hhex. intros c. by apply is_hex_not.
  - do 2 (apply lacks_cons; split; [done|]). apply Hdec. intros c Hc. apply bool_decide_eq_false.
    intros ->. vm_compute in Hc. intuition congruence.
  - cbn [foldl]. unfold read_part at 2. rewrite strip_lacks.
    2: { do 2 (apply lacks_cons; split; [done|]). apply dec_no_space. }
    change (String "t"%char (String "="%char (dec t))) with ("t" +:+ String "="%char (dec t)).
    rewrite partition_on_app by (by apply lacks_char). change (strip "t" =?s "t") with true. cbv iota.
    rewrite strip_lacks, parse_int_dec by apply dec_no_space. unfold read_part. rewrite strip_lacks.
    2: { do 3 (apply lacks_cons; split; [done|]). apply Hhex. intros c Hc. unfold is_hex in Hc. unfold is_space. lia. }
    change (String "v"%char (String "1"%char (String "="%char sig))) with ("v1" +:+ String "="%char sig).
    rewrite partition_on_app by (by apply lacks_char). change (strip "v1" =?s "t") with false. change (strip "v1" =?s SIGNATURE_SCHEME) with true.
    cbv iota. rewrite strip_lacks; [done|]. apply Hhex. intros c Hc. unfold is_hex in Hc. unfold is_space. lia.
Qed.

(** The signature header round-trips, and nothing else gets in: a request
    signed by a holder of the secret within the tolerance is always accepted and
    its timestamp read back exactly; and any request that is accepted carries,
    for a timestamp within the tolerance in both directions, the signature a
    holder of the secret would have written for exactly this body. *)
Theorem signed_requests_are_accepted
    (Hhex : ∀ k m, hmac_sha256 k m ≠ "" ∧ ∀ c, has_char c (hmac_sha256 k m) = true → is_hex c = true)
    (secret raw_body : string) (now tolerance t : Z) :
  (parse_signature_header (Some (signed_header secret raw_body t)) =
     (Some t, Some (expected_signature secret t raw_body))) ∧
  (- tolerance ≤ now - t ≤ tolerance →
   verify_signature secret raw_body (Some (signed_header secret raw_body t)) now tolerance =
     Some {| admission := ACCEPT; detail := "signature verified"; timestamp := Some t |}) ∧
  (∀ header check, verify_signature secret raw_body header now tolerance = Some check → accepted check = true →
   ∃ t', timestamp check = Some t' ∧ - tolerance ≤ now - t' ≤ tolerance ∧
     parse_signature_header header = (Some t', Some (expected_signature secret t' raw_body))).
Proof.
  destruct (Hhex secret (dec t +:+ "." +:+ raw_body)) as [Hne Hsig].
  pose proof (parse_signed t _ Hsig) as Hparse. split_and!; [exact Hparse| |].
  - intros Hage. unfold verify_signature. change (is_empty (signed_header secret raw_body t)) with false. cbv iota.
    unfold signed_header, expected_signature. rewrite Hparse. unfold is_empty at 1. rewrite bool_decide_false by done.
    rewrite (proj2 (Z.ltb_ge _ _)), (proj2 (Z.ltb_ge _ _)) by lia.
    unfold compare_digest. rewrite hex_ascii by done. cbn. by rewrite bool_decide_true.
  - intros header check Hv Ha. unfold verify_signature in Hv.
    destruct (match header with Some h => is_empty h | None => true end); [by injection Hv as <-|].
    destruct (parse_signature_header header) as [[t'|] [sig|]] eqn:Ep; try by injection Hv as <-.
    destruct (is_empty sig); [by injection Hv as <-|].
    destruct (tolerance <? now - t') eqn:E1; [by injection Hv as <-|].
    destruct (now - t' <? - tolerance) eqn:E2; [by injection Hv as <-|].
    destruct (compare_digest _ _) as [[]|] eqn:Ec; [|by injection Hv as <-|done]. injection Hv as <-.
    bool_to_prop. exists t'. split_and!; [done|lia|lia|]. unfold compare_digest in Ec.
    destruct (is_ascii _ && is_ascii _); [|done]. injection Ec as Ec. by apply bool_decide_eq_true in Ec as ->.
Qed.

End rules.

End WebhookRules.

(** ** The handler *)

Module WebhookHandler.
Import WebhookRules.

Record hooks := {
  seen : gmap string Z;                       (** Redis: key and expiry *)
  processed : list (string * string);         (** [processed_webhooks] *)
  hook_outbox : list OutboxMessage;
}.

Inductive load_error := JSONDecodeError | LoadRaised (what : string).

Record request := { raw_body : string; x_signature : option string }.

(** What the infrastructure does during one request. *)
Record conditions := {
  redis_down : bool;
  statement_error : option string;
  commit_error : option string;
}.

Record response := { status_code : Z; content : list (string * json) }.

Definition problem (status : Z) (what : string) : response :=
  {| status_code := status; content := [("detail", JStr what)] |}.

Definition duplicate (layer : string) : response :=
  {| status_code := 200; content := [("status", JStr "duplicate"); ("layer", JStr layer)] |}.

(** An exception that leaves the handler. *)
Definition crashed : response := problem 500 "Internal Server Error".

(** [SET key "1" NX EX ttl]: [true] when the key was set. *)
Definition set_nx (key : string) (now : Z) (m : gmap string Z) : gmap string Z * bool :=
  match m !! key with
  | Some e => if now <? e then (m, false) else (<[key := now + DEDUP_TTL_SECONDS]> m, true)
  | None => (<[key := now + DEDUP_TTL_SECONDS]> m, true)
  end.

Section handler.
Context (hmac_sha256 : string → string → string) (json_loads : string → load_error + json).
Context (repr : json → string) (WEBHOOK_SECRET : string).

Definition emitted (event_id event_type : string) (event : list (string * json)) (now : Z) : OutboxMessage :=
  let intent := obj_get event "payment_intent_id" in
  {| aggregate_type := "Payment";
     aggregate_id := py_str repr (if truthy intent then intent else JStr event_id);
     msg_type := "PspWebhook." +:+ event_type;
     payload := [("event_id", JStr event_id); ("event_type", JStr event_type); ("received_at", JInt now);
                 ("psp_payload", JObj event)];
     msg_created_at := now |}.

(** Layers 3 and 4: one transaction. *)
Definition record_event (event_id event_type : json) (event : list (string * json)) (env : conditions) (now : Z)
    (d : hooks) : hooks * response :=
  match event_id, event_type, statement_error env with
  | JStr i, JStr ty, None =>
      if i in_ (processed d).*1 then (d, duplicate "postgres")
      else match commit_error env with
           | Some _ => (d, problem 500 "failed to record")
           | None =>
               ({| seen := seen d; processed := processed d ++ [(i, ty)];
                   hook_outbox := hook_outbox d ++ [emitted i ty event now] |},
                {| status_code := 200; content := [("status", JStr "accepted"); ("event_id", JStr i)] |})
           end
  | _, _, _ => (d, crashed)
  end.

(** Layer 2. *)
Definition deduplicate (event_id : json) (env : conditions) (now : Z) (d : hooks) : hooks * bool :=
  if redis_down env then (d, true)
  else let (m, first_time) := set_nx (dedup_key (py_str repr event_id)) now (seen d) in
       ({| seen := m; processed := processed d; hook_outbox := hook_outbox d |}, first_time).

Definition receive_webhook (req : request) (env : conditions) (now : Z) (d : hooks) : hooks * response :=
  match verify_signature hmac_sha256 WEBHOOK_SECRET (raw_body req) (x_signature req) now DEFAULT_TOLERANCE_SECONDS with
  | None => (d, crashed)
  | Some check =>
      if negb (accepted check) then
        (d, problem (if bool_decide (admission check = MALFORMED_SIGNATURE) then 400 else 401) (detail check))
      else match json_loads (raw_body req) with
      | inl JSONDecodeError => (d, problem 400 "body is not JSON")
      | inl (LoadRaised _) => (d, crashed)
      | inr (JObj event) =>
          let event_id := obj_get event "id" in
          let event_type := default (JStr "unknown") (dict_get event "type") in
          if negb (truthy event_id) then (d, problem 400 "event has no id")
          else let (d, first_time) := deduplicate event_id env now d in
               if first_time : bool then record_event event_id event_type event env now d
               else (d, duplicate "redis")
      | inr _ => (d, crashed)
      end
  end.

(** A history: requests, and Redis losing its memory. *)
Inductive event := Delivery (req : request) (env : conditions) (now : Z) | Flush.

Definition happens (d : hooks) (e : event) : hooks :=
  match e with
  | Delivery req env now => (receive_webhook req env now d).1
  | Flush => {| seen := ∅; processed := processed d; hook_outbox := hook_outbox d |}
  end.

Definition no_hooks : hooks := {| seen := ∅; processed := []; hook_outbox := [] |}.

(** [m] is what a signed request in the history asked to emit. *)
Definition signed_in (history : list event) (m : OutboxMessage) : Prop :=
  ∃ req env now check i ty body,
    Delivery req env now ∈ history ∧
    verify_signature hmac_sha256 WEBHOOK_SECRET (raw_body req) (x_signature req) now DEFAULT_TOLERANCE_SECONDS =
      Some check ∧ accepted check = true ∧
    json_loads (raw_body req) = inr (JObj body) ∧ m = emitted i ty body now ∧ obj_get body "id" = JStr i.

Definition event_id_of (m : OutboxMessage) : option json := dict_get (payload m) "event_id".

Record hooks_ok (history : list event) (d : hooks) : Prop := {
  hk_unique : NoDup (processed d).*1;
  hk_emitted : map event_id_of (hook_outbox d) = map (λ i, Some (JStr i)) (processed d).*1;
  hk_signed : ∀ m, m ∈ hook_outbox d → signed_in history m;
}.

(** What one request does, in three cases. *)
Lemma receive_cases req env now d :
  let (d', r) := receive_webhook req env now d in
  (processed d' = processed d ∧ hook_outbox d' = hook_outbox d ∧ dict_get (content r) "status" ≠ Some (JStr "accepted")) ∨
  ∃ i ty m, i ∉ (processed d).*1 ∧ processed d' = processed d ++ [(i, ty)] ∧ hook_outbox d' = hook_outbox d ++ [m] ∧
    event_id_of m = Some (JStr i) ∧ signed_in [Delivery req env now] m ∧
    r = {| status_code := 200; content := [("status", JStr "accepted"); ("event_id", JStr i)] |}.
Proof.
  unfold receive_webhook. destruct (verify_signature _ _ _ _ _ _) as [check|] eqn:Ev; [|by left].
  destruct (accepted check) eqn:Ea; cbn [negb]; [|by left].
  destruct (json_loads (raw_body req)) as [[]|[| | | | | |body]] eqn:Ej; try by left.
  destruct (truthy (obj_get body "id")); cbn [negb]; [|by left].
  destruct (deduplicate _ env now d) as [d1 first_time] eqn:Ed.
  assert (processed d1 = processed d ∧ hook_outbox d1 = hook_outbox d) as [Hp Ho].
  { unfold deduplicate in Ed. destruct (redis_down env); [by injection Ed as <- _|].
    destruct (set_nx _ _ _); by injection Ed as <- _. }
  destruct first_time; [|left; by split_and!]. unfold record_event.
  destruct (obj_get body "id") as [| | | |i| |] eqn:Ei; try (left; by split_and!).
  destruct (default _ _) as [| | | |ty| |]; try (left; by split_and!).
  destruct (statement_error env); [left; by split_and!|].
  unfold in_listb. case_bool_decide as Hin; [left; by split_and!|].
  destruct (commit_error env); [left; by split_and!|]. right. exists i, ty, (emitted i ty body now).
  cbn [processed hook_outbox]. rewrite Hp, Ho in *. split_and!; try done.
  exists req, env, now, check, i, ty, body. split_and!; try done. left.
Qed.

Lemma signed_in_mono h h' m : (∀ e, e ∈ h → e ∈ h') → signed_in h m → signed_in h' m.
Proof. intros H (req & env & now & check & i & ty & body & Hin & ?). exists req, env, now, check, i, ty, body. split; auto. Qed.

Lemma happens_ok h d e : hooks_ok h d → hooks_ok (h ++ [e]) (happens d e).
Proof.
  intros [Hu He Hs]. assert (∀ m, m ∈ hook_outbox d → signed_in (h ++ [e]) m) as Hs'.
  { intros m Hm. eapply signed_in_mono; [|by apply Hs]. intros x Hx. apply elem_of_app. by left. }
  destruct e as [req env now|]; [|by constructor]. cbn [happens].
  pose proof (receive_cases req env now d) as H. destruct (receive_webhook req env now d) as [d' r].
  destruct H as [(Hp & Ho & _)|(i & ty & m & Hi & Hp & Ho & Hm & Hsg & _)]; constructor; cbn [fst]; rewrite ?Hp, ?Ho.
  - done.
  - done.
  - done.
  - rewrite fmap_app. apply NoDup_app. split_and!; [done| |apply NoDup_singleton].
    intros x Hx ->%list_elem_of_singleton. done.
  - rewrite map_app, He, fmap_app, map_app. cbn. by rewrite Hm.
  - intros m' [Hm'| ->%list_elem_of_singleton]%elem_of_app; [by apply Hs'|].
    eapply signed_in_mono; [|exact Hsg]. intros x ->%list_elem_of_singleton. apply elem_of_app. right. left.
Qed.

(** C37 — Every event is recorded and emitted together and at most once: in any
    history of deliveries, retries, cache flushes, cache outages and failed
    commits, no two outbox events have the same event id, the emitted events are
    exactly the recorded ones, in order, and each comes from a delivery whose
    signature was verified over its body.  A delivery is answered "accepted"
    only if it added its event. *)
Theorem webhooks_are_emitted_once (history : list event) :
  let d := foldl happens no_hooks history in
  NoDup (processed d).*1 ∧
  map event_id_of (hook_outbox d) = map (λ i, Some (JStr i)) (processed d).*1 ∧
  (∀ m, m ∈ hook_outbox d → signed_in history m) ∧
  (∀ req env now, dict_get (content (receive_webhook req env now d).2) "status" = Some (JStr "accepted") →
     ∃ m, hook_outbox (receive_webhook req env now d).1 = hook_outbox d ++ [m] ∧
          event_id_of m ∉ map event_id_of (hook_outbox d)).
Proof.
  cbv zeta. assert (hooks_ok history (foldl happens no_hooks history)) as [Hu He Hs].
  { induction history as [|e h IH] using rev_ind.
    - constructor; [constructor|done|]. intros m Hm. by apply not_elem_of_nil in Hm.
    - rewrite foldl_app. by apply happens_ok. }
  split_and!; [done..|]. intros req env now. pose proof (receive_cases req env now (foldl happens no_hooks history)) as H.
  destruct (receive_webhook _ _ _ _) as [d' r]. cbn [fst snd].
  destruct H as [(_ & _ & Hn)|(i & ty & m & Hi & _ & Ho & Hm & _)]; [done|]. intros _. exists m. split; [done|].
  rewrite He, Hm. intros (x & [= ->] & Hx)%elem_of_map. done.
Qed.

Definition healthy : conditions := {| redis_down := false; statement_error := None; commit_error := None |}.

(** A request that layer 1 admits, for the event [i]. *)
Record admitted (req : request) (now : Z) (i : string) (body : list (string * json)) : Prop := {
  ad_signed : ∃ check, verify_signature hmac_sha256 WEBHOOK_SECRET (raw_body req) (x_signature req) now
                DEFAULT_TOLERANCE_SECONDS = Some check ∧ accepted check = true;
  ad_json : json_loads (raw_body req) = inr (JObj body);
  ad_id : obj_get body "id" = JStr i ∧ i ≠ "";
  ad_type : ∃ ty, default (JStr "unknown") (dict_get body "type") = JStr ty;
}.

Lemma receive_admitted req now i body env d :
  admitted req now i body →
  receive_webhook req env now d =
    let (d, first_time) := deduplicate (JStr i) env now d in
    if first_time : bool then record_event (JStr i) (default (JStr "unknown") (dict_get body "type")) body env now d
    else (d, duplicate "redis").
Proof.
  intros [(check & Hv & Ha) Hj [Hi Hne] _]. unfold receive_webhook. rewrite Hv, Ha, Hj, Hi. cbn [negb].
  by rewrite (proj2 (truthy_str i)).
Qed.

(** A delivery whose commit fails is lost: it is answered 500 so that the
    provider sends it again, but its Redis key was set before the transaction
    and stays, so every retry within seven days is answered 200 "duplicate" by
    the cache, and the event is neither recorded nor emitted. *)
Theorem failed_commit_loses_webhook (req req' : request) (now now' : Z) (i e : string)
    (body body' : list (string * json)) (env : conditions) (d : hooks)
    (Hreq : admitted req now i body) (Hreq' : admitted req' now' i body')
    (Hseen : seen d !! dedup_key i = None) (Hnew : i ∉ (processed d).*1)
    (Henv : redis_down env = false ∧ statement_error env = None ∧ commit_error env = Some e)
    (Hsoon : now' < now + DEDUP_TTL_SECONDS) :
  let first := receive_webhook req env now d in
  let retry := receive_webhook req' healthy now' first.1 in
  status_code first.2 = 500 ∧ retry.2 = duplicate "redis" ∧
  processed retry.1 = processed d ∧ hook_outbox retry.1 = hook_outbox d.
Proof.
  cbv zeta. rewrite (receive_admitted _ _ _ _ healthy _ Hreq'), (receive_admitted _ _ _ _ env _ Hreq).
  destruct Henv as (Hr & Hs & Hc), (ad_type _ _ _ _ Hreq) as [ty Hty].
  assert (deduplicate (JStr i) env now d =
    ({| seen := <[dedup_key i := now + DEDUP_TTL_SECONDS]> (seen d); processed := processed d;
        hook_outbox := hook_outbox d |}, true)) as ->.
  { unfold deduplicate, set_nx, py_str. by rewrite Hr, Hseen. }
  unfold record_event. rewrite Hty, Hs, Hc. cbn [processed].
  unfold in_listb. rewrite bool_decide_false by done. cbn [fst snd].
  unfold deduplicate, set_nx, py_str. cbn [redis_down healthy seen]. rewrite lookup_insert_eq.
  rewrite (proj2 (Z.ltb_lt _ _) Hsoon). by split_and!.
Qed.

End handler.

(** ** Concrete runs *)

Definition sample_hmac (key message : string) : string := hex_fixed 8 (Z.of_nat (String.length (key +:+ message))) "".

Lemma sample_hmac_hex k m : sample_hmac k m ≠ "" ∧ ∀ c, has_char c (sample_hmac k m) = true → is_hex c = true.
Proof.
  unfold sample_hmac. generalize (Z.of_nat (String.length (k +:+ m))). intros z.
  assert (∀ x, is_hex (hex_char (Z.land x 15)) = true) as Hhex.
  { intros x. unfold hex_char. assert (0 ≤ Z.land x 15 < 16) as Hx.
    { change 15 with (Z.ones 4). rewrite Z.land_ones by lia. apply Z.mod_pos_bound. lia. }
    revert Hx. generalize (Z.land x 15). clear. intros y Hy.
    assert (y = 0 ∨ y = 1 ∨ y = 2 ∨ y = 3 ∨ y = 4 ∨ y = 5 ∨ y = 6 ∨ y = 7 ∨ y = 8 ∨ y = 9 ∨ y = 10 ∨ y = 11 ∨
            y = 12 ∨ y = 13 ∨ y = 14 ∨ y = 15) as H by lia.
    repeat (destruct H as [->|H]; [reflexivity|]). subst. reflexivity. }
  assert (∀ n x t, (∀ c, has_char c t = true → is_hex c = true) → ∀ c, has_char c (hex_fixed n x t) = true → is_hex c = true) as Hall.
  { induction n as [|n IH]; intros x t Ht c; [apply Ht|]. cbn [hex_fixed]. apply IH.
    intros d [<-%bool_decide_eq_true|Hd]%orb_true_iff; [apply Hhex|by apply Ht]. }
  split; [by cbn|by apply Hall].
Qed.

Definition sample_secret := "whsec_test".
Definition sample_body := "{charge.succeeded evt_1}".

Lemma signed_requests_are_accepted_witness :
  signed_header sample_hmac sample_secret sample_body 1700000000 = "t=1700000000,v1=0000002d" ∧
  verify_signature sample_hmac sample_secret sample_body (Some "t=1700000000,v1=0000002d") 1700000250 300 =
    Some {| admission := ACCEPT; detail := "signature verified"; timestamp := Some 1700000000 |}.
Proof.
  split; [vm_compute; reflexivity|].
  refine (proj1 (proj2 (signed_requests_are_accepted sample_hmac sample_hmac_hex sample_secret sample_body
    1700000250 300 1700000000)) _). lia.
Defined.

Definition sample_event : list (string * json) :=
  [("id", JStr "evt_1"); ("type", JStr "charge.succeeded"); ("payment_intent_id", JStr "pi_9")].

Definition sample_loads (body : string) : load_error + json :=
  if body =?s sample_body then inr (JObj sample_event) else inl JSONDecodeError.

Definition sample_delivery (t : Z) : request :=
  {| raw_body := sample_body; x_signature := Some (signed_header sample_hmac sample_secret sample_body t) |}.

Lemma sample_admitted t now :
  (t, now) ∈ [(1, 3); (5, 7)] → admitted sample_hmac sample_loads sample_secret (sample_delivery t) now "evt_1" sample_event.
Proof.
  intros H. elem_cases H; (constructor; [eexists; split; vm_compute; reflexivity|vm_compute; reflexivity|by split|by eexists]).
Qed.

Lemma failed_commit_loses_webhook_witness :
  let broken := {| redis_down := false; statement_error := None; commit_error := Some "connection reset" |} in
  let first := receive_webhook sample_hmac sample_loads (λ _, "") sample_secret (sample_delivery 1) broken 3 no_hooks in
  let retry := receive_webhook sample_hmac sample_loads (λ _, "") sample_secret (sample_delivery 5) healthy 7 first.1 in
  status_code first.2 = 500 ∧ retry.2 = duplicate "redis" ∧ processed retry.1 = [] ∧ hook_outbox retry.1 = [].
Proof.
  apply (failed_commit_loses_webhook sample_hmac sample_loads (λ _, "") sample_secret _ _ 3 7 "evt_1" "connection reset"
    sample_event sample_event); [apply sample_admitted; by_compute|apply sample_admitted; by_compute|done|by apply not_elem_of_nil|by split_and!|vm_compute; reflexivity].
Defined.

End WebhookHandler.
