(* ===== verification/DlqReprocessor.v ===== *)
(** * Dead letters

    [KafkaClient]: the consuming loop of the shared library, which routes what
    it cannot process to [dlq.<topic>].  [DlqRules] and [DlqWorker]: the
    decisions and the loop of the reprocessor, which puts a dead letter back on
    its topic at most three times, an hour apart, and then escalates it to the
    audit log.

    Kafka is modelled by what the clients rely on: a partition is a list of
    messages, [poll] returns the message at the consumer's position and moves
    on, and a commit stores the position a restart resumes from.  Redis keeps
    the attempt counters with their expiry; times are in microseconds. *)

From S2P Require Import Prelude PyValue PyJson PyText AuditLog.
From Stdlib Require Import Ascii.
Import PyJson PyText.

(** ** The shared consumer *)

Module KafkaClient.

Record message := {
  m_topic : string;
  m_partition : Z;
  m_offset : Z;
  m_value : option string;
  m_headers : list (string * string);
}.

(** [dict(...)] of the headers: the last one of a name wins. *)
Definition decode_headers (m : message) : list (string * string) :=
  foldl (λ d '(k, v), dict_set d k v) [] (m_headers m).

(** A partition and one consumer group on it. *)
Record consumer := { log : list message; position : nat; committed : nat }.

(** [consumer.poll()], [consumer.commit()], and a restart of the process. *)
Definition poll (c : consumer) : option (message * consumer) :=
  match log c !! position c with
  | Some m => Some (m, {| log := log c; position := S (position c); committed := committed c |})
  | None => None
  end.

Definition commit_to (n : nat) (c : consumer) : consumer :=
  {| log := log c; position := position c; committed := n |}.

Definition restart (c : consumer) : consumer := {| log := log c; position := committed c; committed := committed c |}.

(** A message as [_route_to_dlq] produces it. *)
Record dead_letter := { dl_topic : string; dl_value : option string; dl_error : string }.

(** [_route_to_dlq]: an error of the producer is logged and swallowed. *)
Definition _route_to_dlq (produce_error : option string) (dlq_topic : string) (raw : option string) (error : string)
    (dlq : list dead_letter) : list dead_letter :=
  match produce_error with
  | Some _ => dlq
  | None => dlq ++ [{| dl_topic := dlq_topic; dl_value := raw; dl_error := error |}]
  end.

(** One turn of [consume]: deserialise and process ([Some] is the text of the
    exception), then commit. *)
Definition consume (process : message → list (string * string) → option string) (produce_error : option string)
    (s : consumer * list dead_letter) : consumer * list dead_letter :=
  match poll s.1 with
  | None => s
  | Some (m, c) =>
      let dlq :=
        match process m (decode_headers m) with
        | None => s.2
        | Some e => _route_to_dlq produce_error ("dlq." +:+ m_topic m) (m_value m) e s.2
        end in
      (commit_to (position c) c, dlq)
  end.

(** A message that could not be processed and could not be written to the dead
    letters either is committed all the same: a restart does not see it again. *)
Lemma failed_dlq_write_is_committed process e s m :
  log s.1 !! position s.1 = Some m → is_Some (process m (decode_headers m)) →
  let s' := consume process (Some e) s in
  s'.2 = s.2 ∧ position (restart s'.1) = S (position s.1).
Proof.
  intros Hm [x Hx]. cbv zeta. unfold consume, poll. rewrite Hm. cbn. by rewrite Hx.
Qed.

End KafkaClient.

(** ** Decisions *)

Module DlqRules.

Definition MAX_RETRIES : Z := 3.
Definition DEFAULT_BACKOFF_US : Z := 3600 * 1000000.
Definition ATTEMPT_TTL_US : Z := 7 * 24 * 60 * 60 * 1000000.

Definition SCHEMA_ERROR_PATTERNS : list string :=
  ["schema"; "avro"; "deserial"; "incompatible"; "magic byte"; "unknown magic"; "serializationerror"; "registry"].

Inductive Action := REPUBLISH | ESCALATE | WAIT.

#[global] Instance Action_eq : EqDecision Action.
Proof. solve_decision. Defined.

Record Recovery := { action : Action; reason : string; schema_incompatible : bool }.

Definition attempts_key (fingerprint : string) : string := "dlq:attempts:" +:+ fingerprint.

Definition is_schema_incompatible (error_text : option string) : bool :=
  match error_text with
  | None => false
  | Some t => if is_empty t then false else existsb (λ p, contains p (lower t)) SCHEMA_ERROR_PATTERNS
  end.

Definition plan_recovery (attempts : Z) (error_text : option string) (since_last : option Z)
    (max_retries backoff : Z) : Recovery :=
  if is_schema_incompatible error_text then
    {| action := ESCALATE; reason := "schema-incompatible; requires manual schema resolution"; schema_incompatible := true |}
  else if max_retries <=? attempts then
    {| action := ESCALATE; reason := "exhausted " +:+ dec attempts +:+ " of " +:+ dec max_retries +:+ " automatic retries";
       schema_incompatible := false |}
  else match since_last with
  | Some t =>
      if t <? backoff then
        {| action := WAIT; reason := "backoff has " +:+ dec (Z.quot (backoff - t) 1000000) +:+ "s remaining";
           schema_incompatible := false |}
      else {| action := REPUBLISH; reason := "retry " +:+ dec (attempts + 1) +:+ " of " +:+ dec max_retries;
              schema_incompatible := false |}
  | None => {| action := REPUBLISH; reason := "retry " +:+ dec (attempts + 1) +:+ " of " +:+ dec max_retries;
               schema_incompatible := false |}
  end.

(** [s[len(p):]] after [s.startswith(p)] *)
Fixpoint drop_prefix (p s : string) : option string :=
  match p, s with
  | EmptyString, _ => Some s
  | String a p', String b s' => if bool_decide (a = b) then drop_prefix p' s' else None
  | String _ _, EmptyString => None
  end.

Definition original_topic (dlq_topic : string) : option string :=
  match drop_prefix "dlq." dlq_topic with
  | Some r => if is_empty r then None else Some r
  | None => None
  end.

Definition safe_char (c : Ascii.ascii) : bool :=
  ((65 <=? code c) && (code c <=? 90)) || ((97 <=? code c) && (code c <=? 122)) ||
  ((48 <=? code c) && (code c <=? 57)) || (c in_ [("."%char); ("_"%char); ("-"%char)]).

(** [^[A-Za-z0-9._-]+$]: the final [$] also matches before one last newline. *)
Fixpoint safe_line (s : string) : bool :=
  match s with
  | EmptyString => true
  | String c EmptyString => safe_char c || (code c =? 10)
  | String c s' => safe_char c && safe_line s'
  end.

Definition is_valid_topic (topic : option string) : bool :=
  match topic with
  | Some (String c s) => safe_char c && safe_line s
  | _ => false
  end.

Lemma drop_prefix_inv p s r : drop_prefix p s = Some r → s = p +:+ r.
Proof.
  revert s. induction p as [|a p IH]; intros s H; [by injection H as ->|].
  destruct s as [|b s]; [done|]. cbn in H. case_bool_decide; [|done]. subst. apply IH in H as ->. done.
Qed.

Lemma drop_prefix_app p r : drop_prefix p (p +:+ r) = Some r.
Proof. induction p as [|a p IH]; [done|]. rewrite append_cons. cbn. by rewrite bool_decide_true. Qed.

Lemma original_topic_inv t r : original_topic t = Some r → t = "dlq." +:+ r ∧ r ≠ "".
Proof.
  unfold original_topic. destruct (drop_prefix _ _) as [r'|] eqn:E; [|done]. unfold is_empty. case_bool_decide; [done|].
  intros [= ->]. split; [by apply drop_prefix_inv|done].
Qed.

Lemma original_topic_dlq r : r ≠ "" → original_topic ("dlq." +:+ r) = Some r.
Proof. intros H. unfold original_topic. rewrite drop_prefix_app. unfold is_empty. by rewrite bool_decide_false. Qed.

End DlqRules.

(** ** The worker *)

Module DlqWorker.
Import KafkaClient DlqRules AuditLog.AuditService.

(** Outside world of one message. *)
Record conditions := {
  counters_down : bool;           (** reading the counters raises *)
  counters_readonly : bool;       (** writing them raises *)
  produce_error : option string;
  audit_status : option Z;        (** [None]: audit-service cannot be reached *)
}.

Record republished := { rp_topic : string; rp_value : string; rp_at : Z }.

(** Redis ([key] to value and expiry), the topics written to, the audit log, and
    the worker's own statistics. *)
Record worker := {
  rds : gmap string (Z * Z);
  produced : list republished;
  audited : list AuditAppendRequest;
  stats : list (string * Z);
}.

Definition bump (k : string) (w : worker) : worker :=
  {| rds := rds w; produced := produced w; audited := audited w;
     stats := dict_set (stats w) k (default 0 (dict_get (stats w) k) + 1) |}.

Definition redis_get (key : string) (now : Z) (m : gmap string (Z * Z)) : option Z :=
  match m !! key with Some (v, e) => if now <? e then Some v else None | None => None end.

Definition error_header (m : message) : string :=
  match List.find (λ '(k, _), k =?s "error") (m_headers m) with Some (_, v) => v | None => "" end.

Section worker.
Context (sha256 : string → string) (BACKOFF : Z).

Definition message_fingerprint (payload : string) : string := sha256 payload.

Definition escalation (m : message) (payload why : string) (schema : bool) : AuditAppendRequest :=
  {| q_actor := "dlq-reprocessor"; q_action := "dlq.escalated"; q_resource_type := "KafkaMessage";
     q_resource_id := m_topic m +:+ ":" +:+ dec (m_partition m) +:+ ":" +:+ dec (m_offset m);
     q_payload := JObj [("topic", JStr (m_topic m)); ("partition", JInt (m_partition m)); ("offset", JInt (m_offset m));
       ("reason", JStr why); ("schema_incompatible", JBool schema);
       ("error", JStr (take_chars 2000 (error_header m))); ("payload_preview", JStr (take_chars 512 payload));
       ("payload_sha256", JStr (message_fingerprint payload))];
     q_recorded_at := None |}.

Definition escalate (env : conditions) (m : message) (payload why : string) (schema : bool) (w : worker) : worker * bool :=
  match audit_status env with
  | Some s => if 300 <=? s then (w, false)
              else ({| rds := rds w; produced := produced w; audited := audited w ++ [escalation m payload why schema];
                       stats := stats w |}, true)
  | None => (w, false)
  end.

(** Attempts made, and the time since the last one. *)
Definition history_of (env : conditions) (fingerprint : string) (now : Z) (w : worker) : Z * option Z :=
  if counters_down env then (0, None)
  else (default 0 (redis_get (attempts_key fingerprint) now (rds w)),
        match redis_get (attempts_key fingerprint +:+ ":at") now (rds w) with
        | Some t => Some (now - t)
        | None => None
        end).

Definition record_attempt (env : conditions) (fingerprint : string) (attempts now : Z) (w : worker) : worker :=
  if counters_readonly env then w
  else {| rds := <[attempts_key fingerprint +:+ ":at" := (now, now + ATTEMPT_TTL_US)]>
                   (<[attempts_key fingerprint := (attempts + 1, now + ATTEMPT_TTL_US)]> (rds w));
          produced := produced w; audited := audited w; stats := stats w |}.

(** [handle]: [true] when the offset may be committed. *)
Definition handle (env : conditions) (m : message) (now : Z) (w : worker) : worker * bool :=
  let payload := default "" (m_value m) in
  let target := original_topic (m_topic m) in
  if negb (is_valid_topic target) then
    escalate env m payload ("no valid original topic for " +:+ m_topic m) false (bump "escalated" w)
  else
    let fingerprint := message_fingerprint payload in
    let (attempts, since) := history_of env fingerprint now w in
    let decision := plan_recovery attempts (Some (error_header m)) since MAX_RETRIES BACKOFF in
    match action decision with
    | WAIT => (bump "waiting" w, false)
    | ESCALATE =>
        match escalate env m payload (reason decision) (schema_incompatible decision) w with
        | (w', true) => (bump "escalated" w', true)
        | (w', false) => (bump "errors" w', false)
        end
    | REPUBLISH =>
        match produce_error env with
        | Some _ => (bump "errors" w, false)
        | None =>
            (bump "republished" (record_attempt env fingerprint attempts now
               {| rds := rds w;
                  produced := produced w ++ [{| rp_topic := default "" target; rp_value := payload; rp_at := now |}];
                  audited := audited w; stats := stats w |}), true)
        end
    end.

(** One turn of [consume_forever]: [commit(message=msg)] stores the offset after
    the message. *)
Definition consume_one (env : conditions) (now : Z) (s : consumer * worker) : consumer * worker :=
  match poll s.1 with
  | None => s
  | Some (m, c) =>
      let (w, done_) := handle env m now (bump "seen" s.2) in
      (if done_ : bool then commit_to (position c) c else c, w)
  end.

(** ** Retries are bounded and spaced *)

Record delivery := { d_msg : message; d_env : conditions; d_now : Z }.

Definition handled (w : worker) (d : delivery) : worker := (handle (d_env d) (d_msg d) (d_now d) w).1.

(** Redis can be read and written. *)
Definition counted (d : delivery) : Prop := counters_down (d_env d) = false ∧ counters_readonly (d_env d) = false.

Definition same_bytes (f : string) (r : republished) : bool := message_fingerprint (rp_value r) =?s f.

Definition attempts_of (f : string) (w : worker) : list republished := List.filter (same_bytes f) (produced w).

(** What the counters say about one fingerprint. *)
Definition counters_ok (t0 : Z) (w : worker) (f : string) : Prop :=
  match last (attempts_of f w) with
  | None => rds w !! attempts_key f = None ∧ rds w !! (attempts_key f +:+ ":at") = None
  | Some r =>
      (∃ e, t0 + ATTEMPT_TTL_US ≤ e ∧ rds w !! attempts_key f = Some (Z.of_nat (length (attempts_of f w)), e)) ∧
      (∃ e, t0 + ATTEMPT_TTL_US ≤ e ∧ rds w !! (attempts_key f +:+ ":at") = Some (rp_at r, e))
  end.

(** Consecutive times at least [BACKOFF] apart. *)
Definition spaced (rs : list republished) : Prop :=
  ∀ l1 r r' l2, rs = l1 ++ r :: r' :: l2 → BACKOFF ≤ rp_at r' - rp_at r.

Lemma spaced_snoc rs x :
  spaced rs → (∀ r, last rs = Some r → BACKOFF ≤ rp_at x - rp_at r) → spaced (rs ++ [x]).
Proof.
  intros Hs Hl l1 r r' l2 E. destruct l2 as [|y l2 _] using rev_ind.
  - assert (l1 ++ r :: [r'] = (l1 ++ [r]) ++ [r']) as E' by by rewrite <-app_assoc.
    rewrite E' in E. apply app_inj_tail in E as [-> ->]. apply Hl. apply last_snoc.
  - assert (l1 ++ r :: r' :: l2 ++ [y] = (l1 ++ r :: r' :: l2) ++ [y]) as E' by by rewrite <-app_assoc.
    rewrite E' in E. apply app_inj_tail in E as [-> _]. by apply (Hs l1 r r' l2).
Qed.

Section bounded.
Context (Hlength : ∀ x, String.length (sha256 x) = 64%nat) (t0 : Z).

Lemma keys_apart x y :
  attempts_key (sha256 x) ≠ attempts_key (sha256 y) +:+ ":at" ∧
  (sha256 x ≠ sha256 y → attempts_key (sha256 x) ≠ attempts_key (sha256 y) ∧
     attempts_key (sha256 x) +:+ ":at" ≠ attempts_key (sha256 y) +:+ ":at").
Proof.
  split.
  - intros E%(f_equal String.length). unfold attempts_key in E. rewrite !string_length_app, !Hlength in E. cbn in E. lia.
  - intros Hne. unfold attempts_key. split; intros E; [by apply (inj (String.append _)) in E|].
    rewrite !app_assoc_str in E. apply (inj (String.append _)) in E.
    assert (∀ a b c d : string, String.length a = String.length b → a +:+ c = b +:+ d → a = b) as Happ.
    { clear. intros a. induction a as [|x a IH]; intros [|y b] c d Hl H; try done.
      injection H as -> H. f_equal. eapply IH; [by injection Hl|done]. }
    apply Hne. eapply Happ; [by rewrite !Hlength|done].
Qed.

(** Reading the counters of a payload. *)
Lemma history_counted env x now w :
  counters_down env = false → t0 <= now < t0 + ATTEMPT_TTL_US → counters_ok t0 w (sha256 x) →
  history_of env (sha256 x) now w =
    (Z.of_nat (length (attempts_of (sha256 x) w)), (λ r, now - rp_at r) <$> last (attempts_of (sha256 x) w)).
Proof.
  intros He Hnow Hok. unfold history_of. rewrite He. unfold counters_ok, redis_get in *.
  destruct (last (attempts_of (sha256 x) w)) as [r|] eqn:El; cbn.
  - destruct Hok as [(e1 & H1 & ->) (e2 & H2 & ->)].
    by rewrite (proj2 (Z.ltb_lt now e1)), (proj2 (Z.ltb_lt now e2)) by lia.
  - destruct Hok as [-> ->]. apply last_None in El. by rewrite El.
Qed.

Record worker_ok (ds : list delivery) (w : worker) : Prop := {
  wk_counters : ∀ x, counters_ok t0 w (sha256 x);
  wk_bounded : ∀ x, Z.of_nat (length (attempts_of (sha256 x) w)) ≤ MAX_RETRIES;
  wk_spaced : ∀ x, spaced (attempts_of (sha256 x) w);
  wk_origin : ∀ r, r ∈ produced w → ∃ d, d ∈ ds ∧ m_topic (d_msg d) = "dlq." +:+ rp_topic r ∧
                default "" (m_value (d_msg d)) = rp_value r ∧ is_valid_topic (Some (rp_topic r)) = true ∧
                is_schema_incompatible (Some (error_header (d_msg d))) = false;
}.

Lemma republish_ok ds w d topic :
  worker_ok ds w → counted d → t0 <= d_now d < t0 + ATTEMPT_TTL_US →
  original_topic (m_topic (d_msg d)) = Some topic → is_valid_topic (Some topic) = true →
  is_schema_incompatible (Some (error_header (d_msg d))) = false →
  let payload := default "" (m_value (d_msg d)) in
  let n := Z.of_nat (length (attempts_of (sha256 payload) w)) in
  n < MAX_RETRIES →
  (∀ r, last (attempts_of (sha256 payload) w) = Some r → BACKOFF ≤ d_now d - rp_at r) →
  worker_ok (ds ++ [d]) (record_attempt (d_env d) (sha256 payload) n (d_now d)
    {| rds := rds w; produced := produced w ++ [{| rp_topic := topic; rp_value := payload; rp_at := d_now d |}];
       audited := audited w; stats := stats w |}).
Proof.
  intros [Hc Hb Hs Ho] [_ Hw] Hnow Ht Hvt Hsi payload n Hn Hlast. unfold record_attempt. rewrite Hw.
  set (x := {| rp_topic := topic; rp_value := payload; rp_at := d_now d |}).
  assert (∀ y, List.filter (same_bytes (sha256 y)) (produced w ++ [x]) =
    List.filter (same_bytes (sha256 y)) (produced w) ++ if sha256 payload =?s sha256 y then [x] else []) as Hf.
  { intros y. rewrite List.filter_app. done. }
  constructor.
  - intros y. unfold counters_ok, attempts_of. cbn [produced rds]. rewrite Hf.
    destruct (keys_apart payload y) as [H1 H2], (keys_apart y payload) as [H3 H4].
    case_bool_decide as E.
    + rewrite last_snoc, length_app. cbn [rp_at x]. rewrite <-E. split.
      * exists (d_now d + ATTEMPT_TTL_US). split; [lia|]. rewrite lookup_insert_ne by (rewrite <-E in H1; congruence).
        rewrite lookup_insert_eq. do 2 f_equal. unfold n, attempts_of. cbn. lia.
      * exists (d_now d + ATTEMPT_TTL_US). split; [lia|]. by rewrite lookup_insert_eq.
    + destruct (H2 E). rewrite app_nil_r. specialize (Hc y). unfold counters_ok, attempts_of in Hc.
      by rewrite !lookup_insert_ne.
  - intros y. unfold attempts_of. cbn [produced]. rewrite Hf. case_bool_decide as E.
    + rewrite length_app. cbn [length]. unfold n, attempts_of in Hn. rewrite <-E. lia.
    + rewrite app_nil_r. apply Hb.
  - intros y. unfold attempts_of. cbn [produced]. rewrite Hf. case_bool_decide as E; [|rewrite app_nil_r; apply Hs].
    apply spaced_snoc; [apply Hs|]. rewrite <-E. apply Hlast.
  - cbn [produced]. intros r [Hr| ->%list_elem_of_singleton]%elem_of_app.
    + destruct (Ho r Hr) as (d' & Hd' & ?). exists d'. split; [apply elem_of_app; by left|done].
    + exists d. split; [apply elem_of_app; right; left|]. by apply original_topic_inv in Ht as [? _].
Qed.

Lemma worker_ok_same ds w w' :
  worker_ok ds w → rds w' = rds w → produced w' = produced w → worker_ok ds w'.
Proof.
  intros [Hc Hb Hs Ho] Er Ep. unfold counters_ok, attempts_of in *.
  constructor; unfold counters_ok, attempts_of; rewrite ?Er, ?Ep; done.
Qed.

Lemma worker_ok_mono ds d w : worker_ok ds w → worker_ok (ds ++ [d]) w.
Proof.
  intros [Hc Hb Hs Ho]. constructor; try done.
  intros r Hr. destruct (Ho r Hr) as (d' & Hd' & ?). exists d'. split; [apply elem_of_app; by left|done].
Qed.

Lemma escalate_same env m payload why schema w w' b :
  escalate env m payload why schema w = (w', b) → rds w' = rds w ∧ produced w' = produced w.
Proof. unfold escalate. destruct (audit_status env) as [s|]; [destruct (300 <=? s)|]; intros [= <- <-]; done. Qed.

Lemma plan_republish n e since :
  action (plan_recovery n e since MAX_RETRIES BACKOFF) = REPUBLISH →
  is_schema_incompatible e = false ∧ n < MAX_RETRIES ∧ ∀ t, since = Some t → BACKOFF ≤ t.
Proof.
  unfold plan_recovery. destruct (is_schema_incompatible e); [done|]. destruct (MAX_RETRIES <=? n) eqn:En; [done|].
  bool_to_prop. destruct since as [t|]; [destruct (t <? BACKOFF) eqn:Et; [done|]|]; intros _; bool_to_prop;
    (split_and!; [done..|]); [by intros ? [= <-]|done].
Qed.

Lemma handled_ok ds w d :
  worker_ok ds w → counted d → t0 <= d_now d < t0 + ATTEMPT_TTL_US → worker_ok (ds ++ [d]) (handled w d).
Proof.
  intros Hok Hd Hnow. pose proof (worker_ok_mono _ d _ Hok) as Hok'. unfold handled, handle.
  destruct (is_valid_topic (original_topic (m_topic (d_msg d)))) eqn:Ev; cbn [negb].
  2: { destruct (escalate _ _ _ _ _ _) as [w' b] eqn:E. apply escalate_same in E as [? ?]. by eapply worker_ok_same. }
  destruct (original_topic _) as [topic|] eqn:Et; [|done]. cbn [default].
  rewrite (history_counted _ _ _ _ (proj1 Hd) Hnow (wk_counters _ _ Hok _)).
  destruct (action _) eqn:Ea; [| |by eapply worker_ok_same].
  - apply plan_republish in Ea as (Hsi & Hn & Hlast). destruct (produce_error (d_env d)); [by eapply worker_ok_same|].
    cbn [fst]. eapply worker_ok_same; [eapply (republish_ok ds w d topic); try done|done..].
    intros r Hr. apply Hlast. unfold message_fingerprint. by rewrite Hr.
  - destruct (escalate _ _ _ _ _ _) as [w' []] eqn:E; apply escalate_same in E as [? ?]; by eapply worker_ok_same.
Qed.

End bounded.

Definition fresh : worker := {| rds := ∅; produced := []; audited := []; stats := [] |}.

(** A poison message cannot circle for ever: over any week in which the
    counters can be read and written, the same bytes are put back at most three
    times and at least one backoff apart; every message put back came from the
    dead letters of exactly the topic it is written to, unchanged, and none of
    them failed because it could not be decoded. *)
Theorem poison_messages_are_bounded (Hlength : ∀ x, String.length (sha256 x) = 64%nat)
    (t0 : Z) (ds : list delivery)
    (Hds : ∀ d, d ∈ ds → counted d ∧ t0 <= d_now d < t0 + ATTEMPT_TTL_US) :
  let w := foldl handled fresh ds in
  (∀ payload, (length (attempts_of (message_fingerprint payload) w) ≤ 3)%nat ∧
     spaced (attempts_of (message_fingerprint payload) w)) ∧
  (∀ r, r ∈ produced w → ∃ d, d ∈ ds ∧ m_topic (d_msg d) = "dlq." +:+ rp_topic r ∧
     default "" (m_value (d_msg d)) = rp_value r ∧
     is_schema_incompatible (Some (error_header (d_msg d))) = false).
Proof.
  cbv zeta. assert (worker_ok t0 ds (foldl handled fresh ds)) as [_ Hb Hs Ho].
  { induction ds as [|d ds IH] using rev_ind.
    - constructor; try done; [by intros x [|? ?] ? ? ? ?|]. intros r Hr. by apply not_elem_of_nil in Hr.
    - rewrite foldl_app. apply handled_ok; [done|apply IH| |]; try (apply Hds; apply elem_of_app; right; left).
      intros d' Hd'. apply Hds. apply elem_of_app. by left. }
  split; [intros payload; split; [specialize (Hb payload); unfold MAX_RETRIES, message_fingerprint in *; lia|apply Hs]|].
  intros r Hr. destruct (Ho r Hr) as (d & ? & ? & ? & _ & ?). by exists d.
Qed.

(** A dead letter that must wait can be lost: the loop leaves its offset
    uncommitted but polls on, and the next letter that is dealt with commits
    past it; after a restart the waiting letter is never seen again, although it
    was neither put back nor escalated. *)
Theorem waiting_letter_is_skipped (env env' : conditions) (now now' : Z) (c : consumer) (w : worker) (m m' : message)
    (Hm : log c !! position c = Some m) (Hm' : log c !! S (position c) = Some m')
    (Hwait : handle env m now (bump "seen" w) = (bump "waiting" (bump "seen" w), false))
    (Hnext : (handle env' m' now' (bump "seen" (bump "waiting" (bump "seen" w)))).2 = true) :
  let s1 := consume_one env now (c, w) in
  let s2 := consume_one env' now' s1 in
  produced s1.2 = produced w ∧ audited s1.2 = audited w ∧ rds s1.2 = rds w ∧
  committed s1.1 = committed c ∧
  position (restart s2.1) = S (S (position c)).
Proof.
  cbv zeta. assert (consume_one env now (c, w) =
    ({| log := log c; position := S (position c); committed := committed c |}, bump "waiting" (bump "seen" w))) as ->.
  { unfold consume_one, poll. cbn [fst snd]. by rewrite Hm, Hwait. }
  split_and!; [done..|]. unfold consume_one, poll. cbn [fst snd log position]. rewrite Hm'.
  destruct (handle env' m' now' (bump "seen" (bump "waiting" (bump "seen" w)))) as [w' b].
  cbn [snd] in Hnext. by rewrite Hnext.
Qed.

End worker.

(** ** Concrete runs *)

Definition letter (topic payload error : string) (offset : Z) : message :=
  {| m_topic := topic; m_partition := 0; m_offset := offset; m_value := Some payload;
     m_headers := [("error", error)] |}.

Definition fine : conditions :=
  {| counters_down := false; counters_readonly := false; produce_error := None; audit_status := Some 201 |}.

Definition hours (n : Z) : Z := n * 3600 * 1000000.

(** The same bytes every two hours. *)
Definition poison (n : Z) : delivery :=
  {| d_msg := letter "dlq.Order.events" "{bad}" "timeout" n; d_env := fine; d_now := hours (2 * n) |}.

Definition sample_work (ds : list delivery) : worker := foldl (handled sample_sha256 DEFAULT_BACKOFF_US) fresh ds.

Lemma poison_messages_are_bounded_witness :
  let w := sample_work (map poison [1; 2; 3; 4; 5]) in
  map rp_topic (produced w) = ["Order.events"; "Order.events"; "Order.events"] ∧
  length (audited w) = 2%nat ∧
  (length (attempts_of sample_sha256 (sample_sha256 "{bad}") w) ≤ 3)%nat.
Proof.
  intros w. split; [vm_compute; reflexivity|]. split; [vm_compute; reflexivity|].
  refine (proj1 (proj1 (poison_messages_are_bounded sample_sha256 DEFAULT_BACKOFF_US sample_sha256_length 0
    (map poison [1; 2; 3; 4; 5]) _) "{bad}")).
  intros d (n & -> & Hn)%elem_of_map. elem_cases Hn; subst; (split; [by split|by_compute]).
Defined.

Definition one_attempt : worker := sample_work [poison 1].

Definition two_letters : consumer :=
  {| log := [letter "dlq.Order.events" "{bad}" "timeout" 0; letter "dlq.Order.events" "{other}" "timeout" 1];
     position := 0; committed := 0 |}.

Lemma waiting_letter_is_skipped_witness :
  let s1 := consume_one sample_sha256 DEFAULT_BACKOFF_US fine (hours 2 + 5) (two_letters, one_attempt) in
  let s2 := consume_one sample_sha256 DEFAULT_BACKOFF_US fine (hours 2 + 6) s1 in
  map rp_value (produced s2.2) = ["{bad}"; "{other}"] ∧ position (restart s2.1) = 2%nat.
Proof.
  intros s1 s2. split; [vm_compute; reflexivity|].
  refine (proj2 (proj2 (proj2 (proj2 (waiting_letter_is_skipped sample_sha256 DEFAULT_BACKOFF_US fine fine
    (hours 2 + 5) (hours 2 + 6) two_letters one_attempt
    (letter "dlq.Order.events" "{bad}" "timeout" 0) (letter "dlq.Order.events" "{other}" "timeout" 1)
    eq_refl eq_refl _ _))))); vm_compute; reflexivity.
Defined.

End DlqWorker.
