(* ===== verification/NotificationWorker.v ===== *)
(** * Notification delivery

    [notification_rules.py] decides what a provider's answer means;
    [main.py] of the notification worker claims a batch of records, calls the
    provider for each and settles the record.  Several workers share the table;
    a worker may die at any moment, before or after a provider call, and lose
    its batch.  Times are in microseconds. *)

From S2P Require Import Prelude PyValue PyJson Session.

Module NotificationRules.

Definition MAX_ATTEMPTS : Z := 5.
Definition BASE_DELAY_SECONDS : Z := 5.
Definition MAX_DELAY_SECONDS : Z := 300.

Definition VALID_CHANNELS : list string := ["email"; "sms"; "push"].
Definition PERMANENT_FAILURES : list string := ["invalid_address"; "unsubscribed"; "blocked"; "template_missing"].
Definition RETRYABLE_FAILURES : list string := ["timeout"; "rate_limited"; "provider_error"; "connection_error"].

Inductive Disposition := DELIVERED | RETRY | FAILED.

#[global] Instance Disposition_eq : EqDecision Disposition.
Proof. solve_decision. Defined.

Record DeliveryDecision := { disposition : Disposition; delay_seconds : option Z; d_detail : string }.

Definition terminal (d : DeliveryDecision) : bool := disposition d in_ [DELIVERED; FAILED].

Definition is_valid_channel (channel : string) : bool := channel in_ VALID_CHANNELS.

(** With [random_fraction() = j / 2^53], in exact arithmetic. *)
Definition backoff_delay (attempt j : Z) : Z :=
  let attempt := if attempt <? 1 then 1 else attempt in
  let exponent := Z.min (attempt - 1) 16 in
  let window := Z.min MAX_DELAY_SECONDS (BASE_DELAY_SECONDS * 2 ^ exponent) in
  window * (2 ^ 53 + j) / 2 ^ 54.

Definition classify (result_code : string) (attempt j max_attempts : Z) : DeliveryDecision :=
  if result_code =?s "delivered" then
    {| disposition := DELIVERED; delay_seconds := None; d_detail := "delivered" |}
  else if result_code in_ PERMANENT_FAILURES then
    {| disposition := FAILED; delay_seconds := None; d_detail := "permanent failure: " +:+ result_code |}
  else if max_attempts <=? attempt then
    {| disposition := FAILED; delay_seconds := None;
       d_detail := "giving up after " +:+ dec attempt +:+ " attempts, last failure: " +:+ result_code |}
  else
    {| disposition := RETRY; delay_seconds := Some (backoff_delay attempt j);
       d_detail := if result_code in_ RETRYABLE_FAILURES then "retrying after " +:+ result_code
                   else "retrying after unrecognised result " +:+ repr_str result_code |}.

Lemma backoff_delay_bounds attempt j :
  0 ≤ j < 2 ^ 53 → 2 ≤ backoff_delay attempt j < MAX_DELAY_SECONDS.
Proof.
  intros Hj. unfold backoff_delay. set (e := Z.min _ 16). set (w := Z.min _ _).
  assert (0 ≤ e) as He by (unfold e; case_match; lia).
  assert (1 ≤ 2 ^ e) by (change 1 with (2 ^ 0) at 1; by apply Z.pow_le_mono_r).
  assert (5 ≤ w ≤ 300) by (unfold w, MAX_DELAY_SECONDS, BASE_DELAY_SECONDS; lia).
  split.
  - apply Z.div_le_lower_bound; [lia|]. nia.
  - apply Z.div_lt_upper_bound; [lia|]. unfold MAX_DELAY_SECONDS. nia.
Qed.

End NotificationRules.

Module NotificationWorker.
Import NotificationRules.

Definition BATCH_SIZE : nat := 20.
Definition LEASE_US : Z := 60 * 1000000.

Record NotificationRecord := {
  n_id : string;
  n_user_id : string;
  n_channel : string;
  n_template_name : string;
  n_status : string;
  n_payload : json;
  n_attempts : Z;
  n_next_attempt_at : option Z;
  n_claimed_at : option Z;
  n_claimed_by : option string;
  n_delivered_at : option Z;
  n_last_error : option string;
  n_created_at : Z;
}.

Definition claimable (now : Z) (r : NotificationRecord) : bool :=
  (n_status r in_ ["PENDING"; "RETRY"]) &&
  match n_next_attempt_at r with None => true | Some t => t <=? now end &&
  match n_claimed_at r with None => true | Some t => t <? now - LEASE_US end.

Definition older (r r' : NotificationRecord) : bool := n_created_at r <=? n_created_at r'.

(** Rows locked by another worker's claim are skipped. *)
Definition selected (locked : string → bool) (now : Z) (rows : list NotificationRecord) : list NotificationRecord :=
  take BATCH_SIZE (sort_le older (List.filter (λ r, claimable now r && negb (locked (n_id r))) rows)).

Definition set_claimed (now : Z) (who : string) (r : NotificationRecord) : NotificationRecord :=
  {| n_id := n_id r; n_user_id := n_user_id r; n_channel := n_channel r; n_template_name := n_template_name r;
     n_status := "SENDING"; n_payload := n_payload r; n_attempts := n_attempts r;
     n_next_attempt_at := n_next_attempt_at r; n_claimed_at := Some now; n_claimed_by := Some who;
     n_delivered_at := n_delivered_at r; n_last_error := n_last_error r; n_created_at := n_created_at r |}.

(** [CLAIM_SQL]: the rows after the statement, and the rows it returns. *)
Definition claim_batch (locked : string → bool) (now : Z) (who : string) (rows : list NotificationRecord)
    : list NotificationRecord * list NotificationRecord :=
  let ids := map n_id (selected locked now rows) in
  (update_where (λ r, n_id r in_ ids) (set_claimed now who) rows, selected locked now rows).

Definition set_settled (status : string) (delivered next : option Z) (error : option string) (r : NotificationRecord)
    : NotificationRecord :=
  {| n_id := n_id r; n_user_id := n_user_id r; n_channel := n_channel r; n_template_name := n_template_name r;
     n_status := status; n_payload := n_payload r; n_attempts := n_attempts r + 1;
     n_next_attempt_at := next; n_claimed_at := None; n_claimed_by := None;
     n_delivered_at := delivered; n_last_error := error; n_created_at := n_created_at r |}.

Definition settle (record_id : string) (d : DeliveryDecision) (now : Z) : list NotificationRecord → list NotificationRecord :=
  update_where (λ r, n_id r =?s record_id) (λ r,
    match disposition d with
    | DELIVERED => set_settled "DELIVERED" (Some now) (n_next_attempt_at r) None r
    | RETRY => set_settled "RETRY" (n_delivered_at r) (Some (now + default 0 (delay_seconds d) * 1000000)) (Some (d_detail d)) r
    | FAILED => set_settled "FAILED" (n_delivered_at r) (n_next_attempt_at r) (Some (d_detail d)) r
    end).

(** The table, the batch each worker still holds, and the provider calls made:
    the record and the provider's answer. *)
Record system := {
  rows : list NotificationRecord;
  crew : list (list NotificationRecord);
  sent : list (string * string);
}.

(** The decision for a claimed row; [answer] is the provider's, [None] when the
    adapter raised. *)
Definition decide_on (row : NotificationRecord) (answer : option string) (j : Z) : DeliveryDecision * option string :=
  if negb (is_valid_channel (n_channel row)) then
    ({| disposition := FAILED; delay_seconds := None; d_detail := "unknown channel " +:+ repr_str (n_channel row) |}, None)
  else let result := default "provider_error" answer in
       (classify result (n_attempts row + 1) j MAX_ATTEMPTS, Some result).

Definition record_call (id : string) (result : option string) (calls : list (string * string)) : list (string * string) :=
  match result with Some r => calls ++ [(id, r)] | None => calls end.

(** What can happen: an idle worker claims; a worker processes the next row of
    its batch; a worker dies, possibly between the provider's answer and the
    settlement. *)
Inductive move :=
| Claim (w : nat) (locked : string → bool) (now : Z)
| Process (w : nat) (answer : option string) (now j : Z)
| Die (w : nat) (after_call : option (option string)).

Definition perform (s : system) (m : move) : system :=
  match m with
  | Claim w locked now =>
      match crew s !! w with
      | Some [] =>
          let (rows', batch) := claim_batch locked now (dec (Z.of_nat w)) (rows s) in
          {| rows := rows'; crew := <[w := batch]> (crew s); sent := sent s |}
      | _ => s
      end
  | Process w answer now j =>
      match crew s !! w with
      | Some (row :: batch) =>
          let (decision, result) := decide_on row answer j in
          {| rows := settle (n_id row) decision now (rows s); crew := <[w := batch]> (crew s);
             sent := record_call (n_id row) result (sent s) |}
      | _ => s
      end
  | Die w after_call =>
      match crew s !! w with
      | Some (row :: batch) =>
          {| rows := rows s; crew := <[w := []]> (crew s);
             sent := match after_call with
                     | Some answer => record_call (n_id row) (decide_on row answer 0).2 (sent s)
                     | None => sent s
                     end |}
      | _ => s
      end
  end.

Definition history : system → list move → system := foldl perform.

(** ** At most five calls, and none after a final answer *)

(** The provider's answers for one record, in order. *)
Definition calls (id : string) (s : system) : list string := map snd (List.filter (λ c, c.1 =?s id) (sent s)).

(** An answer after which the record may be tried again. *)
Definition not_final (result : string) : Prop := result ≠ "delivered" ∧ result ∉ PERMANENT_FAILURES.

Definition all_but_last_not_final (rs : list string) : Prop :=
  ∀ i r, rs !! i = Some r → (S i < length rs)%nat → not_final r.

Definition in_flight (id : string) (s : system) : Prop :=
  ∃ w b c, crew s !! w = Some b ∧ c ∈ b ∧ n_id c = id.

Definition open_row (r : NotificationRecord) (rs : list string) : Prop :=
  Z.of_nat (length rs) = n_attempts r ∧ n_attempts r < MAX_ATTEMPTS ∧ Forall not_final rs.

Record sys_ok (s : system) : Prop := {
  sy_ids : NoDup (map n_id (rows s));
  sy_batch : ∀ w b, crew s !! w = Some b → NoDup (map n_id b) ∧
    ∀ c, c ∈ b → ∃ r, r ∈ rows s ∧ n_id r = n_id c ∧ n_status r = "SENDING" ∧ n_attempts r = n_attempts c;
  sy_apart : ∀ w w' b b' c c', crew s !! w = Some b → crew s !! w' = Some b' → c ∈ b → c' ∈ b' →
    n_id c = n_id c' → w = w';
  sy_open : ∀ r, r ∈ rows s → n_status r ∈ ["PENDING"; "RETRY"] ∨ (n_status r = "SENDING" ∧ in_flight (n_id r) s) →
    open_row r (calls (n_id r) s);
  sy_all : ∀ r, r ∈ rows s → (length (calls (n_id r) s) ≤ 5)%nat ∧ all_but_last_not_final (calls (n_id r) s);
}.

Lemma calls_record id id' result s rows' crew' :
  calls id {| rows := rows'; crew := crew'; sent := record_call id' result (sent s) |} =
  calls id s ++ if id' =?s id then from_option (λ r, [r]) [] result else [].
Proof.
  unfold calls, record_call. cbn [sent]. destruct result as [r|]; cbn [from_option].
  - rewrite List.filter_app, map_app. f_equal. cbn. by case_bool_decide.
  - by case_bool_decide; rewrite app_nil_r.
Qed.

Lemma not_final_snoc rs result : Forall not_final rs → all_but_last_not_final (rs ++ from_option (λ r, [r]) [] result).
Proof.
  intros H i r Hi Hl. destruct result as [x|]; cbn [from_option] in *.
  - rewrite length_app in Hl. cbn in Hl. rewrite lookup_app_l in Hi by lia. by eapply Forall_lookup_1.
  - rewrite app_nil_r in *. by eapply Forall_lookup_1.
Qed.

Lemma settled_id id d now rows : map n_id (settle id d now rows) = map n_id rows.
Proof.
  unfold settle, update_where. rewrite map_map. apply map_ext. intros r. case_bool_decide; [|done].
  by destruct (disposition d).
Qed.

(** What one row looks like after a settlement. *)
Lemma elem_of_settle r' id d now rows :
  r' ∈ settle id d now rows →
  (r' ∈ rows ∧ n_id r' ≠ id) ∨
  (n_id r' = id ∧ ∃ r, r ∈ rows ∧ n_id r = id ∧ n_attempts r' = n_attempts r + 1 ∧
     n_status r' = match disposition d with DELIVERED => "DELIVERED" | RETRY => "RETRY" | FAILED => "FAILED" end).
Proof.
  intros (r & -> & Hr)%elem_of_map. case_bool_decide as E; [right|by left].
  split; [by destruct (disposition d)|]. exists r. by destruct (disposition d).
Qed.

Lemma decide_on_retry row answer j d result :
  decide_on row answer j = (d, result) → disposition d = RETRY →
  ∃ x, result = Some x ∧ not_final x ∧ n_attempts row + 1 < MAX_ATTEMPTS.
Proof.
  unfold decide_on. destruct (is_valid_channel _); cbn [negb]; intros [= <- <-]; [|done].
  unfold classify. case_bool_decide; [done|]. unfold in_listb at 1. case_bool_decide; [done|].
  destruct (MAX_ATTEMPTS <=? n_attempts row + 1) eqn:E; [done|]. bool_to_prop. intros _. eexists. split_and!; done.
Qed.

Lemma decide_on_some row answer j d result :
  decide_on row answer j = (d, result) → (length (from_option (λ r, [r]) [] result) ≤ 1)%nat.
Proof. intros _. by destruct result; cbn; lia. Qed.

Lemma in_flight_insert id s w b rows' sent' :
  (w < length (crew s))%nat →
  in_flight id {| rows := rows'; crew := <[w := b]> (crew s); sent := sent' |} →
  id ∈ map n_id b ∨ ∃ w' b' c, w' ≠ w ∧ crew s !! w' = Some b' ∧ c ∈ b' ∧ n_id c = id.
Proof.
  intros Hw (w' & b' & c & Hb & Hc & E). cbn [crew] in Hb. destruct (decide (w = w')) as [<-|Hne].
  - rewrite list_lookup_insert_eq in Hb by done. injection Hb as <-. left. apply elem_of_map. by exists c.
  - rewrite list_lookup_insert_ne in Hb by done. right. by exists w', b', c.
Qed.

Lemma selected_part locked now rows : ∃ rest,
  List.filter (λ r, claimable now r && negb (locked (n_id r))) rows ≡ₚ selected locked now rows ++ rest.
Proof.
  unfold selected. set (l := List.filter _ rows). exists (drop BATCH_SIZE (sort_le older l)).
  by rewrite take_drop, sort_le_perm.
Qed.

Lemma worker_selected_elem locked now rows r :
  r ∈ selected locked now rows → r ∈ List.filter (λ r, claimable now r && negb (locked (n_id r))) rows.
Proof. intros Hr. destruct (selected_part locked now rows) as [rest ->]. apply elem_of_app. by left. Qed.

Lemma selected_nodup locked now rows : NoDup (map n_id rows) → NoDup (map n_id (selected locked now rows)).
Proof.
  intros H. destruct (selected_part locked now rows) as [rest Hp]. apply (fmap_Permutation n_id) in Hp.
  eapply nodup_map_filter in H. change (@map) with (λ A B (f : A → B) (l : list A), f <$> l) in H. cbv beta in H.
  rewrite Hp, fmap_app in H. by apply NoDup_app in H as [H _].
Qed.

Lemma selected_spec locked now rows r :
  r ∈ selected locked now rows → r ∈ rows ∧ n_status r ∈ ["PENDING"; "RETRY"].
Proof.
  intros Hr%worker_selected_elem. apply elem_of_filter_bool in Hr as [Hr E]. split; [done|].
  unfold claimable in E. bool_to_prop. unfold in_listb in *. by bool_to_prop.
Qed.

Lemma claim_ids locked now who rows : map n_id (claim_batch locked now who rows).1 = map n_id rows.
Proof. cbn. unfold update_where. rewrite map_map. apply map_ext. intros r. by case_match. Qed.

Lemma elem_of_claim locked now who rows r :
  NoDup (map n_id rows) → r ∈ (claim_batch locked now who rows).1 →
  (r ∈ rows ∧ n_id r ∉ map n_id (selected locked now rows)) ∨
  (∃ r0, r0 ∈ selected locked now rows ∧ r0 ∈ rows ∧ r = set_claimed now who r0).
Proof.
  intros Hids (r0 & -> & Hr)%elem_of_map. unfold in_listb. case_bool_decide as E; [right|by left].
  apply elem_of_map in E as (r1 & E & Hr1). exists r0.
  by rewrite (map_key_inj n_id rows r0 r1 Hids Hr (proj1 (selected_spec _ _ _ _ Hr1)) E) at 1.
Qed.

Lemma claim_ok s w locked now : sys_ok s → sys_ok (perform s (Claim w locked now)).
Proof.
  intros Hok. cbn [perform]. destruct (crew s !! w) as [[|? ?]|] eqn:Ew; [|done..].
  pose proof (lookup_lt_Some _ _ _ Ew) as Hw. destruct Hok as [Hids Hb Hap Hop Hall].
  destruct (claim_batch locked now (dec (Z.of_nat w)) (rows s)) as [rows' batch] eqn:Ec.
  assert (rows' = (claim_batch locked now (dec (Z.of_nat w)) (rows s)).1) as Er by by rewrite Ec.
  assert (batch = selected locked now (rows s)) as -> by by injection Ec.
  assert (∀ r, r ∈ rows' → (r ∈ rows s ∧ n_id r ∉ map n_id (selected locked now (rows s))) ∨
    (∃ r0, r0 ∈ selected locked now (rows s) ∧ r0 ∈ rows s ∧ r = set_claimed now (dec (Z.of_nat w)) r0)) as Hcase.
  { intros r Hr. rewrite Er in Hr. by apply elem_of_claim in Hr. }
  (* a row of another batch is being sent, so it was not selected *)
  assert (∀ w' b c r0, crew s !! w' = Some b → c ∈ b → r0 ∈ selected locked now (rows s) → n_id c ≠ n_id r0) as Hfresh.
  { intros w' b c r0 Hb' Hc [Hr0 Hst]%selected_spec E. destruct (Hb _ _ Hb') as [_ H].
    destruct (H c Hc) as (r & Hr & Ei & Es & _). rewrite E in Ei.
    rewrite (map_key_inj n_id (rows s) r r0 Hids Hr Hr0 Ei) in Es. rewrite Es in Hst. elem_cases Hst. }
  constructor; cbn [rows crew].
  - rewrite Er. by rewrite claim_ids.
  - intros w' b Hb'. destruct (decide (w = w')) as [<-|Hne].
    + rewrite list_lookup_insert_eq in Hb' by done. injection Hb' as <-. split; [by apply selected_nodup|].
      intros c Hc. exists (set_claimed now (dec (Z.of_nat w)) c). split_and!; [|done..].
      rewrite Er. cbn. apply elem_of_map. exists c. split; [|by eapply selected_spec].
      unfold in_listb. rewrite bool_decide_true; [done|]. apply elem_of_map. by exists c.
    + rewrite list_lookup_insert_ne in Hb' by done. destruct (Hb _ _ Hb') as [Hnd H]. split; [done|].
      intros c Hc. destruct (H c Hc) as (r & Hr & Ei & Es & Ea). exists r. split_and!; [|done..].
      rewrite Er. cbn. apply elem_of_map. exists r. split; [|done]. unfold in_listb. rewrite bool_decide_false; [done|].
      intros (r0 & E & Hr0)%elem_of_map. by eapply (Hfresh w' b c r0); [..|congruence].
  - intros w1 w2 b1 b2 c1 c2 H1 H2 Hc1 Hc2 E.
    destruct (decide (w = w1)) as [<-|Hn1], (decide (w = w2)) as [<-|Hn2]; [done| | |].
    + rewrite list_lookup_insert_eq in H1 by done. injection H1 as <-. rewrite list_lookup_insert_ne in H2 by done.
      by destruct (Hfresh w2 b2 c2 c1).
    + rewrite list_lookup_insert_eq in H2 by done. injection H2 as <-. rewrite list_lookup_insert_ne in H1 by done.
      by destruct (Hfresh w1 b1 c1 c2).
    + rewrite !list_lookup_insert_ne in * by done. by eapply Hap.
  - intros r Hr Hst. destruct (Hcase r Hr) as [[Hr' Hn]|(r0 & Hsel & Hr0 & ->)].
    + apply (Hop r Hr'). destruct Hst as [?|[Hst Hfl]]; [by left|right; split; [done|]].
      apply in_flight_insert in Hfl; [|done]. destruct Hfl as [?|(w' & b' & c & _ & ? & ? & ?)]; [done|by exists w', b', c].
    + apply (Hop r0 Hr0). left. by eapply selected_spec.
  - intros r Hr. destruct (Hcase r Hr) as [[Hr' _]|(r0 & _ & Hr0 & ->)]; [by apply Hall|by apply (Hall r0)].
Qed.

(** A worker's batch shrinks to a part of it. *)
Lemma shrink_crew s w b b' rows' sent' :
  sys_ok s → crew s !! w = Some b → (∀ c, c ∈ b' → c ∈ b) → NoDup (map n_id b') →
  (∀ w0 b0 c, (<[w := b']> (crew s)) !! w0 = Some b0 → c ∈ b0 →
     ∃ r, r ∈ rows' ∧ n_id r = n_id c ∧ n_status r = "SENDING" ∧ n_attempts r = n_attempts c) →
  NoDup (map n_id rows') →
  (∀ r, r ∈ rows' → n_status r ∈ ["PENDING"; "RETRY"] ∨
     (n_status r = "SENDING" ∧ in_flight (n_id r) {| rows := rows'; crew := <[w := b']> (crew s); sent := sent' |}) →
     open_row r (calls (n_id r) {| rows := rows'; crew := <[w := b']> (crew s); sent := sent' |})) →
  (∀ r, r ∈ rows' → (length (calls (n_id r) {| rows := rows'; crew := <[w := b']> (crew s); sent := sent' |}) ≤ 5)%nat ∧
     all_but_last_not_final (calls (n_id r) {| rows := rows'; crew := <[w := b']> (crew s); sent := sent' |})) →
  sys_ok {| rows := rows'; crew := <[w := b']> (crew s); sent := sent' |}.
Proof.
  intros Hok Hw Hsub Hnd Hback Hids Hop Hall. pose proof (lookup_lt_Some _ _ _ Hw) as Hlen.
  constructor; cbn [rows crew]; try done.
  - intros w0 b0 Hb0. split; [|intros c Hc; by eapply Hback].
    destruct (decide (w = w0)) as [<-|Hne].
    + rewrite list_lookup_insert_eq in Hb0 by done. by injection Hb0 as <-.
    + rewrite list_lookup_insert_ne in Hb0 by done. by eapply sy_batch.
  - assert (∀ w0 b0 c, (<[w := b']> (crew s)) !! w0 = Some b0 → c ∈ b0 → ∃ b1, crew s !! w0 = Some b1 ∧ c ∈ b1) as Hold.
    { intros w0 b0 c H Hc. destruct (decide (w = w0)) as [<-|Hne].
      - rewrite list_lookup_insert_eq in H by done. injection H as <-. exists b. auto.
      - rewrite list_lookup_insert_ne in H by done. eauto. }
    intros w1 w2 b1 b2 c1 c2 H1 H2 Hc1 Hc2 E. destruct (Hold _ _ _ H1 Hc1) as (? & ? & ?), (Hold _ _ _ H2 Hc2) as (? & ? & ?).
    by eapply (sy_apart _ Hok).
Qed.

(** Rows other than the one a worker was processing are as they were. *)
Lemma other_in_flight s w row batch id rows' sent' :
  sys_ok s → crew s !! w = Some (row :: batch) → ∀ b', (∀ c, c ∈ b' → c ∈ batch) →
  in_flight id {| rows := rows'; crew := <[w := b']> (crew s); sent := sent' |} →
  id ≠ n_id row ∧ in_flight id s.
Proof.
  intros Hok Hw b' Hsub Hfl. apply in_flight_insert in Hfl; [|by eapply lookup_lt_Some].
  destruct (sy_batch _ Hok _ _ Hw) as [Hnd _]. apply NoDup_cons in Hnd as [Hrow _].
  destruct Hfl as [(c & -> & Hc)%elem_of_map|(w' & b0 & c & Hne & Hb0 & Hc & <-)].
  - split; [intros E; apply Hrow, elem_of_map; exists c; auto|]. exists w, (row :: batch), c. split_and!; [done| |done]. right. auto.
  - split; [|by exists w', b0, c]. intros E. apply Hne. symmetry. eapply (sy_apart _ Hok w w' _ _ row c); try done. left.
Qed.

Lemma head_open s w row batch :
  sys_ok s → crew s !! w = Some (row :: batch) →
  (∃ r, r ∈ rows s ∧ n_id r = n_id row ∧ n_status r = "SENDING" ∧ n_attempts r = n_attempts row) ∧
  open_row row (calls (n_id row) s).
Proof.
  intros Hok Hw. destruct (sy_batch _ Hok _ _ Hw) as [_ H]. destruct (H row ltac:(left)) as (r & Hr & Ei & Es & Ea).
  split; [by exists r|]. rewrite <-Ei. destruct (sy_open _ Hok r Hr) as (H1 & H2 & H3).
  - right. split; [done|]. exists w, (row :: batch), row. split_and!; [done|left|done].
  - rewrite Ea in H1, H2. by split_and!.
Qed.

Lemma open_calls_snoc row rs result :
  open_row row rs → (length (rs ++ from_option (λ r, [r]) [] result) ≤ 5)%nat ∧
  all_but_last_not_final (rs ++ from_option (λ r, [r]) [] result).
Proof.
  intros (Hl & Ha & Hf). split; [|by apply not_final_snoc]. rewrite length_app. unfold MAX_ATTEMPTS in Ha.
  destruct result; cbn; lia.
Qed.

Lemma process_ok s w answer now j : sys_ok s → sys_ok (perform s (Process w answer now j)).
Proof.
  intros Hok. cbn [perform]. destruct (crew s !! w) as [[|row batch]|] eqn:Ew; [done| |done].
  destruct (decide_on row answer j) as [d result] eqn:Ed.
  destruct (head_open _ _ _ _ Hok Ew) as [(r0 & Hr0 & Ei0 & Es0 & Ea0) Hopen].
  destruct (sy_batch _ Hok _ _ Ew) as [Hnd _]. apply NoDup_cons in Hnd as [Hrow Hnd].
  assert (∀ id, calls id {| rows := settle (n_id row) d now (rows s); crew := <[w:=batch]> (crew s);
            sent := record_call (n_id row) result (sent s) |} =
          calls id s ++ if n_id row =?s id then from_option (λ r, [r]) [] result else []) as Hcalls
    by (intros id; apply calls_record).
  eapply shrink_crew; try done.
  - intros c Hc. by right.
  - intros w0 b0 c Hb0 Hc.
    destruct (other_in_flight s w row batch (n_id c) [] [] Hok Ew batch ltac:(done) ltac:(by exists w0, b0, c)) as [Hne (w1 & b1 & c1 & Hb1 & Hc1 & E1)].
    assert (∃ b2, crew s !! w0 = Some b2 ∧ c ∈ b2) as (b2 & Hb2 & Hc2).
    { destruct (decide (w = w0)) as [<-|Hn].
      - rewrite list_lookup_insert_eq in Hb0 by (by eapply lookup_lt_Some). injection Hb0 as <-. exists (row :: batch). split; [done|by right].
      - rewrite list_lookup_insert_ne in Hb0 by done. by exists b0. }
    destruct (proj2 (sy_batch _ Hok _ _ Hb2) c Hc2) as (r & Hr & Ei & Es & Ea). exists r. split_and!; [|done..].
    apply elem_of_map. exists r. split; [|done]. rewrite bool_decide_false; [done|congruence].
  - rewrite settled_id. apply Hok.
  - intros r Hr Hst. rewrite Hcalls. apply elem_of_settle in Hr as [[Hr Hne]|(Ei & r1 & Hr1 & Ei1 & Ea & Es)].
    + rewrite bool_decide_false, app_nil_r by congruence. apply (sy_open _ Hok r Hr).
      destruct Hst as [?|[? Hfl]]; [by left|right; split; [done|]].
      by apply (other_in_flight s w row batch) in Hfl as [_ ?].
    + rewrite Ei, bool_decide_true by done.
      assert (r1 = r0) as -> by (apply (map_key_inj n_id (rows s)); [apply Hok|done|done|congruence]).
      assert (disposition d = RETRY) as Hd.
      { destruct (disposition d); [|done|]; rewrite Es in Hst; destruct Hst as [H|[H _]]; try done; elem_cases H. }
      destruct (decide_on_retry _ _ _ _ _ Ed Hd) as (x & -> & Hnf & Hlt). destruct Hopen as (Hl & _ & Hf). cbn [from_option].
      split_and!; [rewrite length_app; cbn; lia|lia|]. apply Forall_app. split; [done|by apply Forall_singleton].
  - intros r Hr. rewrite Hcalls. apply elem_of_settle in Hr as [[Hr Hne]|(Ei & _)].
    + rewrite bool_decide_false, app_nil_r by congruence. by apply (sy_all _ Hok).
    + rewrite Ei, bool_decide_true by done. by eapply open_calls_snoc.
Qed.

Lemma die_ok s w after_call : sys_ok s → sys_ok (perform s (Die w after_call)).
Proof.
  intros Hok. cbn [perform]. destruct (crew s !! w) as [[|row batch]|] eqn:Ew; [done| |done].
  destruct (head_open _ _ _ _ Hok Ew) as [_ Hopen].
  set (result := match after_call with Some a => (decide_on row a 0).2 | None => None end).
  assert (match after_call with Some a => record_call (n_id row) (decide_on row a 0).2 (sent s) | None => sent s end =
          record_call (n_id row) result (sent s)) as -> by by destruct after_call.
  assert (∀ id, calls id {| rows := rows s; crew := <[w:=[]]> (crew s); sent := record_call (n_id row) result (sent s) |} =
          calls id s ++ if n_id row =?s id then from_option (λ r, [r]) [] result else []) as Hcalls
    by (intros id; apply calls_record).
  eapply shrink_crew; try done.
  - intros c Hc. by apply not_elem_of_nil in Hc.
  - constructor.
  - intros w0 b0 c Hb0 Hc. destruct (decide (w = w0)) as [<-|Hn].
    + rewrite list_lookup_insert_eq in Hb0 by (by eapply lookup_lt_Some). injection Hb0 as <-. by apply not_elem_of_nil in Hc.
    + rewrite list_lookup_insert_ne in Hb0 by done. by apply (proj2 (sy_batch _ Hok _ _ Hb0)).
  - apply Hok.
  - intros r Hr Hst. rewrite Hcalls. destruct (decide (n_id row = n_id r)) as [E|E].
    + exfalso. destruct (sy_batch _ Hok _ _ Ew) as [_ Hback]. destruct (Hback row ltac:(left)) as (r1 & Hr1 & Ei & Es & _).
      rewrite (map_key_inj n_id (rows s) r r1 (sy_ids _ Hok) Hr Hr1 ltac:(congruence)) in Hst.
      destruct Hst as [H|[_ Hfl]]; [rewrite Es in H; elem_cases H|].
      apply (other_in_flight s w row batch) in Hfl as [Hne _]; [congruence|done..|]. intros c Hc. by apply not_elem_of_nil in Hc.
    + rewrite bool_decide_false, app_nil_r by done. apply (sy_open _ Hok r Hr).
      destruct Hst as [?|[? Hfl]]; [by left|right; split; [done|]].
      apply (other_in_flight s w row batch) in Hfl as [_ ?]; [done..|]. intros c Hc. by apply not_elem_of_nil in Hc.
  - intros r Hr. rewrite Hcalls. case_bool_decide as E; [|rewrite app_nil_r; by apply (sy_all _ Hok)].
    rewrite <-E. by eapply open_calls_snoc.
Qed.

Lemma history_ok s ms : sys_ok s → sys_ok (history s ms).
Proof.
  revert s. induction ms as [|m ms IH]; intros s Hok; [done|]. cbn. apply IH.
  destruct m; [by apply claim_ok|by apply process_ok|by apply die_ok].
Qed.

(** Records as notification-service schedules them, and idle workers. *)
Definition scheduled (r : NotificationRecord) : Prop := n_status r = "PENDING" ∧ n_attempts r = 0.

Definition opened (rs : list NotificationRecord) (workers : nat) : system :=
  {| rows := rs; crew := replicate workers []; sent := [] |}.

Lemma opened_sys_ok rs workers : NoDup (map n_id rs) → Forall scheduled rs → sys_ok (opened rs workers).
Proof.
  intros Hids Hrs. assert (∀ w b, replicate workers ([] : list NotificationRecord) !! w = Some b → b = []) as Hnil
    by (intros w b [-> _]%lookup_replicate_1; done).
  constructor; cbn [rows crew opened]; try done.
  - intros w b ->%Hnil. split; [constructor|]. intros c Hc. by apply not_elem_of_nil in Hc.
  - intros w w' b b' c c' ->%Hnil _ Hc. by apply not_elem_of_nil in Hc.
  - intros r Hr _. rewrite Forall_forall in Hrs. destruct (Hrs r Hr) as [_ Ha]. split_and!; cbn; [lia|unfold MAX_ATTEMPTS; lia|constructor].
  - intros r Hr. split; [cbn; lia|]. by intros [|?] ? ?.
Qed.

(** C40 — No notification is sent twice after an answer that settles it: however
    claims, calls and crashes of any number of workers interleave, the provider
    is called at most five times for one record, never again after it answered
    "delivered" or with a permanent failure, and a record is never in the hands
    of two workers at once. *)
Theorem notifications_are_sent_sparingly (rs : list NotificationRecord) (workers : nat) (ms : list move)
    (Hids : NoDup (map n_id rs)) (Hrs : Forall scheduled rs) :
  let s := history (opened rs workers) ms in
  (∀ r, r ∈ rows s →
     (length (calls (n_id r) s) ≤ 5)%nat ∧
     ∀ i result, calls (n_id r) s !! i = Some result → result = "delivered" ∨ result ∈ PERMANENT_FAILURES →
       length (calls (n_id r) s) = S i) ∧
  (∀ w w' b b' c c', crew s !! w = Some b → crew s !! w' = Some b' → c ∈ b → c' ∈ b' → n_id c = n_id c' → w = w').
Proof.
  intros s. assert (sys_ok s) as Hok by (apply history_ok; by apply opened_sys_ok). split; [|apply Hok].
  intros r Hr. destruct (sy_all _ Hok r Hr) as [Hl Hf]. split; [done|]. intros i x Hi Hx.
  pose proof (lookup_lt_Some _ _ _ Hi). destruct (decide (length (calls (n_id r) s) = S i)) as [|Hne]; [done|].
  destruct (Hf i x Hi ltac:(lia)) as [H1 H2]. by destruct Hx.
Qed.

(** A record being sent that no worker holds. *)
Definition stranded (r : NotificationRecord) (s : system) : Prop :=
  r ∈ rows s ∧ n_status r = "SENDING" ∧ ¬ in_flight (n_id r) s.

Lemma stranded_perform s m r : sys_ok s → stranded r s → stranded r (perform s m).
Proof.
  intros Hok (Hr & Hs & Hfl). destruct m as [w locked now|w answer now j|w after]; cbn [perform].
  - destruct (crew s !! w) as [[|? ?]|] eqn:Ew; [|done..]. pose proof (lookup_lt_Some _ _ _ Ew) as Hw.
    assert (n_id r ∉ map n_id (selected locked now (rows s))) as Hn.
    { intros (r0 & E & [Hr0 Hst]%selected_spec)%elem_of_map.
      rewrite <-(map_key_inj n_id (rows s) r r0 (sy_ids _ Hok) Hr Hr0 E), Hs in Hst. elem_cases Hst. }
    unfold claim_batch. split_and!; [|done|].
    + cbn [rows]. apply elem_of_map. exists r. split; [|done]. unfold in_listb. by rewrite bool_decide_false.
    + intros H%in_flight_insert; [|done]. destruct H as [?|(w' & b & c & _ & ? & ? & ?)]; [done|]. apply Hfl. by exists w', b, c.
  - destruct (crew s !! w) as [[|row batch]|] eqn:Ew; [done| |done]. destruct (decide_on row answer j) as [d result].
    assert (n_id r ≠ n_id row) as Hne.
    { intros E. apply Hfl. exists w, (row :: batch), row. split_and!; [done|left|done]. }
    split_and!; [|done|].
    + cbn [rows]. apply elem_of_map. exists r. split; [|done]. by rewrite bool_decide_false.
    + intros H. by apply (other_in_flight s w row batch) in H as [_ ?].
  - destruct (crew s !! w) as [[|row batch]|] eqn:Ew; [done| |done]. split_and!; [done..|].
    intros H. apply (other_in_flight s w row batch) in H as [_ ?]; [done..|]. intros c Hc. by apply not_elem_of_nil in Hc.
Qed.

(** A worker that dies strands its batch: every record it had claimed and
    not settled stays "SENDING" in every continuation, whichever worker looks
    for work and however long after the lease, because a claim only considers
    PENDING and RETRY records. *)
Theorem dead_worker_strands_its_batch (rs : list NotificationRecord) (workers : nat) (ms ms' : list move)
    (w : nat) (after_call : option (option string)) (b : list NotificationRecord) (c : NotificationRecord)
    (Hids : NoDup (map n_id rs)) (Hrs : Forall scheduled rs)
    (Hb : crew (history (opened rs workers) ms) !! w = Some b) (Hc : c ∈ b) :
  let s := history (perform (history (opened rs workers) ms) (Die w after_call)) ms' in
  ∃ r, r ∈ rows s ∧ n_id r = n_id c ∧ n_status r = "SENDING".
Proof.
  set (s0 := history _ ms) in *. assert (sys_ok s0) as Hok by (apply history_ok; by apply opened_sys_ok).
  destruct (proj2 (sy_batch _ Hok _ _ Hb) c Hc) as (r & Hr & Ei & Es & _).
  assert (sys_ok (perform s0 (Die w after_call))) as Hok' by by apply die_ok.
  assert (stranded r (perform s0 (Die w after_call))) as Hst.
  { cbn [perform]. rewrite Hb. destruct b as [|row batch]; [by apply not_elem_of_nil in Hc|]. split_and!; [done..|].
    intros H%in_flight_insert; [|by eapply lookup_lt_Some].
    destruct H as [H|(w' & b' & c' & Hne & Hb' & Hc' & E)]; [by apply not_elem_of_nil in H|].
    apply Hne. symmetry. eapply (sy_apart _ Hok w w' _ _ c c'); try done. congruence. }
  cbv zeta. revert Hok' Hst. generalize (perform s0 (Die w after_call)). clear Hb Hok s0 Hr.
  induction ms' as [|m ms' IH]; intros s Hok Hst; [exists r; by destruct Hst as (? & ? & _)|].
  cbn [history foldl]. apply IH; [by apply (history_ok s [m])|by apply stranded_perform].
Qed.

(** ** Concrete runs *)

Definition sample_record (i : string) (created : Z) : NotificationRecord :=
  {| n_id := i; n_user_id := "u"; n_channel := "email"; n_template_name := "welcome"; n_status := "PENDING";
     n_payload := JObj []; n_attempts := 0; n_next_attempt_at := None; n_claimed_at := None; n_claimed_by := None;
     n_delivered_at := None; n_last_error := None; n_created_at := created |}.

Definition sample_records : list NotificationRecord := [sample_record "n1" 1; sample_record "n2" 2].

Definition nobody : string → bool := λ _, false.

(** A time-out, then a delivery. *)
Definition sample_moves : list move :=
  [Claim 0 nobody 10; Process 0 (Some "timeout") 11 0; Process 0 (Some "delivered") 12 0;
   Claim 1 nobody 2500011; Process 1 (Some "delivered") 2500012 0; Claim 0 nobody 900000000].

Lemma notifications_are_sent_sparingly_witness :
  let s := history (opened sample_records 2) sample_moves in
  map n_status (rows s) = ["DELIVERED"; "DELIVERED"] ∧ calls "n1" s = ["timeout"; "delivered"] ∧
  length (calls "n1" s) = 2%nat.
Proof.
  intros s. split; [vm_compute; reflexivity|]. split; [vm_compute; reflexivity|].
  destruct (notifications_are_sent_sparingly sample_records 2 sample_moves ltac:(by_compute)
    ltac:(by repeat constructor)) as [H _].
  refine (proj2 (H (nth 0 (rows s) (sample_record "" 0)) _) 1%nat "delivered" _ _);
    [left|vm_compute; reflexivity|by left].
Defined.

Lemma dead_worker_strands_its_batch_witness :
  let s := history (perform (history (opened sample_records 2) [Claim 0 nobody 10]) (Die 0 None))
             [Claim 1 nobody 900000000] in
  crew s = [[]; []] ∧ ∃ r, r ∈ rows s ∧ n_id r = "n1" ∧ n_status r = "SENDING".
Proof.
  split; [vm_compute; reflexivity|].
  apply (dead_worker_strands_its_batch sample_records 2 [Claim 0 nobody 10] [Claim 1 nobody 900000000] 0 None
    sample_records (sample_record "n1" 1)); [by_compute|by repeat constructor|vm_compute; reflexivity|left].
Defined.

End NotificationWorker.
