(* ===== verification/SellerRules.v ===== *)
(** * Seller onboarding rules

    [seller_rules.py]: the states of a seller account, the decision of every
    operation, the listing permission, and the transition table the module keeps
    beside them. *)

From S2P Require Import Prelude PyValue.

Module SellerRules.

Inductive SellerStatus :=
| REGISTERED | DOCUMENTS_SUBMITTED | UNDER_REVIEW | APPROVED | ACTIVE | REJECTED | SUSPENDED | BANNED.

#[global] Instance SellerStatus_eq : EqDecision SellerStatus.
Proof. solve_decision. Defined.

Definition all_statuses : list SellerStatus :=
  [REGISTERED; DOCUMENTS_SUBMITTED; UNDER_REVIEW; APPROVED; ACTIVE; REJECTED; SUSPENDED; BANNED].

Definition value (s : SellerStatus) : string :=
  match s with
  | REGISTERED => "registered" | DOCUMENTS_SUBMITTED => "documents_submitted" | UNDER_REVIEW => "under_review"
  | APPROVED => "approved" | ACTIVE => "active" | REJECTED => "rejected" | SUSPENDED => "suspended" | BANNED => "banned"
  end.

Definition TERMINAL : list SellerStatus := [BANNED].

Inductive DocumentType := NATIONAL_ID | TRADE_LICENCE | TAX_REGISTRATION | BANK_STATEMENT.

#[global] Instance DocumentType_eq : EqDecision DocumentType.
Proof. solve_decision. Defined.

Definition doc_value (d : DocumentType) : string :=
  match d with
  | NATIONAL_ID => "national_id" | TRADE_LICENCE => "trade_licence"
  | TAX_REGISTRATION => "tax_registration" | BANK_STATEMENT => "bank_statement"
  end.

(** [DocumentType(value)] *)
Definition document_type (v : string) : option DocumentType :=
  List.find (λ d, doc_value d =?s v) [NATIONAL_ID; TRADE_LICENCE; TAX_REGISTRATION; BANK_STATEMENT].

Definition REQUIRED_DOCUMENTS : list DocumentType := [NATIONAL_ID; TRADE_LICENCE].

Definition CURRENT_CONTRACT_VERSION : Z := 1.
Definition COMMISSION_BPS_BY_VERSION : list (Z * Z) := [(1, 1200)].

Definition commission_bps (version : option Z) : option Z :=
  match version with Some v => dict_get COMMISSION_BPS_BY_VERSION v | None => None end.

Definition EVENT_REGISTERED := "SellerRegistered".
Definition EVENT_DOCUMENTS_SUBMITTED := "SellerDocumentsSubmitted".
Definition EVENT_REVIEW_STARTED := "SellerReviewStarted".
Definition EVENT_APPROVED := "SellerApproved".
Definition EVENT_REJECTED := "SellerRejected".
Definition EVENT_ACTIVATED := "SellerActivated".
Definition EVENT_SUSPENDED := "SellerSuspended".
Definition EVENT_REINSTATED := "SellerReinstated".
Definition EVENT_BANNED := "SellerBanned".

Inductive Outcome := OK | INVALID | NOT_ALLOWED.

#[global] Instance Outcome_eq : EqDecision Outcome.
Proof. solve_decision. Defined.

Record Decision := {
  outcome : Outcome;
  new_status : option SellerStatus;
  event : option string;
  detail : string;
}.

Definition ok (d : Decision) : bool := bool_decide (outcome d = OK).

Definition _ok (s : SellerStatus) (e d : string) : Decision :=
  {| outcome := OK; new_status := Some s; event := Some e; detail := d |}.
Definition _not_allowed (d : string) : Decision :=
  {| outcome := NOT_ALLOWED; new_status := None; event := None; detail := d |}.
Definition _invalid (d : string) : Decision :=
  {| outcome := INVALID; new_status := None; event := None; detail := d |}.

(** [SellerStatus(value)], or None *)
Definition _as_status (v : string) : option SellerStatus := List.find (λ s, value s =?s v) all_statuses.

Definition may_list_products (status : string) (accepted : option Z) (current : Z) : bool :=
  if negb (bool_decide (_as_status status = Some ACTIVE)) then false else bool_decide (accepted = Some current).

Definition may_receive_orders (status : string) (accepted : option Z) (current : Z) : bool :=
  may_list_products status accepted current.

Definition needs_contract_acceptance (status : string) (accepted : option Z) (current : Z) : bool :=
  if negb (_as_status status in_ [Some ACTIVE; Some APPROVED]) then false else negb (bool_decide (accepted = Some current)).

(** The required types not among [submitted]; unknown types are ignored. *)
Definition missing_documents (submitted : list string) : list DocumentType :=
  List.filter (λ d, negb (existsb (λ v, bool_decide (document_type v = Some d)) submitted)) REQUIRED_DOCUMENTS.

(** [sorted(d.value for d in ...)] *)
Definition missing_names (submitted : list string) : list string :=
  sort_by Datatypes.id (map doc_value (missing_documents submitted)).

(** [not s or not s.strip()] *)
Definition blank (s : string) : bool := is_empty s || is_empty (strip s).

Definition plan_registration (legal_name display_name contact_email : string) : Decision :=
  if blank legal_name then _invalid "legal_name is required"
  else if blank display_name then _invalid "display_name is required"
  else if is_empty contact_email || negb (contains "@" contact_email) then
    _invalid "contact_email must be an email address"
  else _ok REGISTERED EVENT_REGISTERED "registered; documents required before review".

Definition plan_document_submission (status : string) (submitted : list string) : Decision :=
  match _as_status status with
  | None => _not_allowed ("unrecognised seller status " +:+ repr_str status)
  | Some current =>
      if negb (current in_ [REGISTERED; REJECTED; DOCUMENTS_SUBMITTED]) then
        _not_allowed ("documents cannot be submitted from " +:+ value current +:+
          " (a seller past review resubmits by appealing, not by uploading)")
      else match missing_documents submitted with
           | [] => _ok DOCUMENTS_SUBMITTED EVENT_DOCUMENTS_SUBMITTED "queued for review"
           | _ => _invalid ("missing required document(s): " +:+ join ", " (missing_names submitted))
           end
  end.

Definition plan_review_start (status : string) : Decision :=
  if negb (bool_decide (_as_status status = Some DOCUMENTS_SUBMITTED)) then
    _not_allowed ("review can only start from documents_submitted, not " +:+ repr_str status)
  else _ok UNDER_REVIEW EVENT_REVIEW_STARTED "under review".

Definition plan_review_result (status : string) (approved : bool) (reason : string) : Decision :=
  if negb (bool_decide (_as_status status = Some UNDER_REVIEW)) then
    _not_allowed ("a verdict requires a review in progress; status is " +:+ repr_str status)
  else if approved then _ok APPROVED EVENT_APPROVED "approved; contract acceptance required before selling"
  else if blank reason then _invalid "a rejection must carry a reason the seller can act on"
  else _ok REJECTED EVENT_REJECTED (strip reason).

Definition plan_contract_acceptance (status : string) (version current_version : Z) : Decision :=
  if negb (_as_status status in_ [Some APPROVED; Some ACTIVE]) then
    _not_allowed ("contract cannot be accepted from " +:+ repr_str status +:+ "; it requires a completed review")
  else if negb (version =? current_version) then
    _invalid ("contract version " +:+ dec version +:+ " is not the current version " +:+ dec current_version +:+
      "; the seller was shown terms that are no longer in force")
  else _ok ACTIVE EVENT_ACTIVATED ("active on contract version " +:+ dec version).

Definition plan_suspension (status reason : string) : Decision :=
  if negb (bool_decide (_as_status status = Some ACTIVE)) then
    _not_allowed ("only an active seller can be suspended, not " +:+ repr_str status)
  else if blank reason then _invalid "a suspension must carry a reason"
  else _ok SUSPENDED EVENT_SUSPENDED (strip reason).

Definition plan_reinstatement (status : string) : Decision :=
  if negb (bool_decide (_as_status status = Some SUSPENDED)) then
    _not_allowed ("only a suspended seller can be reinstated, not " +:+ repr_str status)
  else _ok ACTIVE EVENT_REINSTATED "reinstated".

Definition plan_ban (status reason : string) : Decision :=
  match _as_status status with
  | None => _not_allowed ("unrecognised seller status " +:+ repr_str status)
  | Some BANNED => _not_allowed "seller is already banned"
  | Some _ => if blank reason then _invalid "a ban must carry a reason" else _ok BANNED EVENT_BANNED (strip reason)
  end.

(** The table kept for documentation and tests. *)
Definition TRANSITIONS (s : SellerStatus) : list SellerStatus :=
  match s with
  | REGISTERED => [DOCUMENTS_SUBMITTED; BANNED]
  | DOCUMENTS_SUBMITTED => [DOCUMENTS_SUBMITTED; UNDER_REVIEW; BANNED]
  | UNDER_REVIEW => [APPROVED; REJECTED; BANNED]
  | APPROVED => [ACTIVE; BANNED]
  | ACTIVE => [ACTIVE; SUSPENDED; BANNED]
  | REJECTED => [DOCUMENTS_SUBMITTED; BANNED]
  | SUSPENDED => [ACTIVE; BANNED]
  | BANNED => []
  end.

Definition reachable_statuses (status : string) : list SellerStatus :=
  match _as_status status with Some s => TRANSITIONS s | None => [] end.

(** ** Lemmas *)

Lemma as_seller_status_value s : _as_status (value s) = Some s.
Proof. by destruct s. Qed.

Lemma as_status_inv v s : _as_status v = Some s → v = value s.
Proof. intros H. apply find_elem in H as [_ H]. by apply bool_decide_eq_true in H. Qed.

(** The decisions an existing account can be subject to. *)
Inductive operation :=
| SubmitDocuments (submitted : list string)
| StartReview
| RecordResult (approved : bool) (reason : string)
| AcceptContract (version : Z)
| Suspend (reason : string)
| Reinstate
| Ban (reason : string).

Definition plan (op : operation) (status : string) : Decision :=
  match op with
  | SubmitDocuments submitted => plan_document_submission status submitted
  | StartReview => plan_review_start status
  | RecordResult approved reason => plan_review_result status approved reason
  | AcceptContract version => plan_contract_acceptance status version CURRENT_CONTRACT_VERSION
  | Suspend reason => plan_suspension status reason
  | Reinstate => plan_reinstatement status
  | Ban reason => plan_ban status reason
  end.

(** The event of each accepted move. *)
Definition event_for (from to : SellerStatus) : option string :=
  match from, to with
  | (REGISTERED | REJECTED | DOCUMENTS_SUBMITTED), DOCUMENTS_SUBMITTED => Some EVENT_DOCUMENTS_SUBMITTED
  | DOCUMENTS_SUBMITTED, UNDER_REVIEW => Some EVENT_REVIEW_STARTED
  | UNDER_REVIEW, APPROVED => Some EVENT_APPROVED
  | UNDER_REVIEW, REJECTED => Some EVENT_REJECTED
  | (APPROVED | ACTIVE), ACTIVE => Some EVENT_ACTIVATED
  | ACTIVE, SUSPENDED => Some EVENT_SUSPENDED
  | SUSPENDED, ACTIVE => Some EVENT_REINSTATED
  | BANNED, _ => None
  | _, BANNED => Some EVENT_BANNED
  | _, _ => None
  end.

Lemma seller_plan_ok op status :
  ok (plan op status) = true →
  ∃ from to, _as_status status = Some from ∧ new_status (plan op status) = Some to ∧ to ∈ TRANSITIONS from ∧
    event (plan op status) = event_for from to ∧ is_Some (event_for from to) ∧
    (∀ v, op = AcceptContract v → v = CURRENT_CONTRACT_VERSION) ∧
    (event_for from to = Some EVENT_ACTIVATED ↔ ∃ v, op = AcceptContract v).
Proof.
  destruct op as [docs| |approved reason|version|reason| |reason]; cbn [plan].
  - unfold plan_document_submission. destruct (_as_status status) as [s|]; [|done].
    unfold in_listb. case_bool_decide as Hs; [|done]. destruct (missing_documents docs); [|done]. intros _.
    exists s, DOCUMENTS_SUBMITTED. elem_cases Hs; subst; (split_and!; [done|done|by_compute|done|by eexists|done|split; [done|by intros [? ?]]]).
  - unfold plan_review_start. case_bool_decide as Hs; [|done]. intros _. rewrite Hs.
    eexists _, _; (split_and!; [done|done|by_compute|done|by eexists|done|split; [done|by intros [? ?]]]).
  - unfold plan_review_result. case_bool_decide as Hs; [|done]. cbn [negb]. rewrite Hs.
    destruct approved; [|destruct (blank reason); [done|]]; intros _;
      eexists _, _; (split_and!; [done|done|by_compute|done|by eexists|done|split; [done|by intros [? ?]]]).
  - unfold plan_contract_acceptance, in_listb. case_bool_decide as Hs; [|done]. cbn [negb].
    destruct (version =? _) eqn:E; [|done]. apply Z.eqb_eq in E. intros _.
    elem_cases Hs; subst; rewrite Hs;
      (eexists _, _; split_and!; [done|done|by_compute|done|by eexists|by intros ? [= <-]|split; [by eexists|done]]).
  - unfold plan_suspension. case_bool_decide as Hs; [|done]. cbn [negb]. rewrite Hs. destruct (blank reason); [done|].
    intros _. eexists _, _; (split_and!; [done|done|by_compute|done|by eexists|done|split; [done|by intros [? ?]]]).
  - unfold plan_reinstatement. case_bool_decide as Hs; [|done]. intros _. rewrite Hs.
    eexists _, _; (split_and!; [done|done|by_compute|done|by eexists|done|split; [done|by intros [? ?]]]).
  - unfold plan_ban. destruct (_as_status status) as [s|]; [|done]. destruct (blank reason); [by destruct s|].
    destruct s; try done; intros _; eexists _, BANNED;
      (split_and!; [done|done|by_compute|done|by eexists|done|split; [done|by intros [? ?]]]).
Qed.

(** The documented table is the machine: a seller in a recognised state
    can be moved to a state by some request exactly when the table lists that
    state, and a seller in an unrecognised state by none. *)
Theorem table_is_the_machine (status : string) (to : SellerStatus) :
  to ∈ reachable_statuses status ↔
  ∃ op, ok (plan op status) = true ∧ new_status (plan op status) = Some to.
Proof.
  unfold reachable_statuses. split.
  - destruct (_as_status status) as [s|] eqn:Es; [|by intros ?%not_elem_of_nil]. apply as_status_inv in Es as ->.
    intros H. destruct s; cbn [TRANSITIONS] in H; elem_cases H; subst.
    all: first [exists (Ban "x"); by split
      | exists (SubmitDocuments ["national_id"; "trade_licence"]); by split
      | exists StartReview; by split | exists (RecordResult true ""); by split
      | exists (RecordResult false "x"); by split | exists (AcceptContract 1); by split
      | exists (Suspend "x"); by split | exists Reinstate; by split].
  - intros (op & Hok & Hn). destruct (seller_plan_ok op status Hok) as (from & to' & -> & Hn' & Hin & _). congruence.
Qed.

End SellerRules.
