(* ===== verification/SellerService.v ===== *)
(** * The seller service

    [seller_service.py] over the tables of [models.py]: every handler that
    writes, with its idempotency key, its event and its commit, and the reads.
    The last part replays two handlers that overlap. *)

From S2P Require Import Prelude PyValue Session Lifecycle SellerRules.
Import SellerRules Lifecycle.

Module SellerService.

Record Seller := {
  s_id : string;
  legal_name : string;
  display_name : string;
  contact_email : string;
  contact_phone : option string;
  status : string;
  status_reason : option string;
  accepted_contract_version : option Z;
  contract_accepted_at : option Z;
  address_line : option string;
  city : option string;
  district : option string;
  country : string;
  latitude : option string;
  longitude : option string;
  s_created_at : Z;
  s_updated_at : Z;
}.

Record SellerDocument := { sd_seller_id : string; sd_document_type : string; sd_media_id : string; sd_submitted_at : Z }.

Record db := {
  sellers : list Seller;
  documents : list SellerDocument;
  se_outbox : list OutboxMessage;
  se_keys : key_table;
  se_draws : nat;
}.

Definition with_sellers f d : db :=
  {| sellers := f (sellers d); documents := documents d; se_outbox := se_outbox d; se_keys := se_keys d; se_draws := se_draws d |}.
Definition with_documents f d : db :=
  {| sellers := sellers d; documents := f (documents d); se_outbox := se_outbox d; se_keys := se_keys d; se_draws := se_draws d |}.
Definition with_outbox f d : db :=
  {| sellers := sellers d; documents := documents d; se_outbox := f (se_outbox d); se_keys := se_keys d; se_draws := se_draws d |}.
Definition with_keys f d : db :=
  {| sellers := sellers d; documents := documents d; se_outbox := se_outbox d; se_keys := f (se_keys d); se_draws := se_draws d |}.
Definition draw d : db :=
  {| sellers := sellers d; documents := documents d; se_outbox := se_outbox d; se_keys := se_keys d; se_draws := S (se_draws d) |}.

Record SellerRegisterRequest := {
  rq_legal_name : string;
  rq_display_name : string;
  rq_contact_email : string;
  rq_contact_phone : option string;
  rq_address_line : option string;
  rq_city : option string;
  rq_district : option string;
  rq_country : string;
  rq_latitude : option string;
  rq_longitude : option string;
}.

Record DocumentRef := { dr_document_type : string; dr_media_id : string }.

Record SellerLocationRequest := {
  lo_latitude : option string;
  lo_longitude : option string;
  lo_address_line : option string;
  lo_city : option string;
  lo_district : option string;
}.

(** [SellerResponse]: the row, and what is derived from it. *)
Record SellerResponse := {
  rs_seller : Seller;
  rs_current_contract_version : Z;
  rs_may_list_products : bool;
  rs_may_receive_orders : bool;
  rs_needs_contract_acceptance : bool;
  rs_missing_documents : list string;
}.

Definition EVENT_LOCATION_UPDATED := "SellerLocationUpdated".

Definition may_list (s : Seller) : bool :=
  may_list_products (status s) (accepted_contract_version s) CURRENT_CONTRACT_VERSION.

Definition to_response (s : Seller) (submitted_types : list string) : SellerResponse :=
  {| rs_seller := s; rs_current_contract_version := CURRENT_CONTRACT_VERSION; rs_may_list_products := may_list s;
     rs_may_receive_orders := may_receive_orders (status s) (accepted_contract_version s) CURRENT_CONTRACT_VERSION;
     rs_needs_contract_acceptance :=
       needs_contract_acceptance (status s) (accepted_contract_version s) CURRENT_CONTRACT_VERSION;
     rs_missing_documents := missing_names submitted_types |}.

(** The columns [_apply] sets. *)
Definition set_status (st : string) (reason : option string) (now : Z) (s : Seller) : Seller :=
  {| s_id := s_id s; legal_name := legal_name s; display_name := display_name s; contact_email := contact_email s;
     contact_phone := contact_phone s; status := st;
     status_reason := match reason with Some r => Some r | None => status_reason s end;
     accepted_contract_version := accepted_contract_version s; contract_accepted_at := contract_accepted_at s;
     address_line := address_line s; city := city s; district := district s; country := country s;
     latitude := latitude s; longitude := longitude s; s_created_at := s_created_at s; s_updated_at := now |}.

(** The columns [accept_contract] sets. *)
Definition set_contract (version now : Z) (s : Seller) : Seller :=
  {| s_id := s_id s; legal_name := legal_name s; display_name := display_name s; contact_email := contact_email s;
     contact_phone := contact_phone s; status := status s; status_reason := status_reason s;
     accepted_contract_version := Some version; contract_accepted_at := Some now;
     address_line := address_line s; city := city s; district := district s; country := country s;
     latitude := latitude s; longitude := longitude s; s_created_at := s_created_at s; s_updated_at := now |}.

Definition or_keep {A} (new old : option A) : option A := match new with Some x => Some x | None => old end.

(** The columns [set_location] sets. *)
Definition set_place (r : SellerLocationRequest) (now : Z) (s : Seller) : Seller :=
  {| s_id := s_id s; legal_name := legal_name s; display_name := display_name s; contact_email := contact_email s;
     contact_phone := contact_phone s; status := status s; status_reason := status_reason s;
     accepted_contract_version := accepted_contract_version s; contract_accepted_at := contract_accepted_at s;
     address_line := or_keep (lo_address_line r) (address_line s); city := or_keep (lo_city r) (city s);
     district := or_keep (lo_district r) (district s); country := country s;
     latitude := or_keep (lo_latitude r) (latitude s); longitude := or_keep (lo_longitude r) (longitude s);
     s_created_at := s_created_at s; s_updated_at := now |}.

Definition text_or_null (o : option string) : json := match o with Some s => JStr s | None => JNull end.
Definition int_or_null (o : option Z) : json := match o with Some z => JInt z | None => JNull end.

(** The payload of [_emit]. *)
Definition event_payload (s : Seller) : list (string * json) :=
  [("seller_id", JStr (s_id s)); ("display_name", JStr (display_name s)); ("status", JStr (status s));
   ("status_reason", text_or_null (status_reason s));
   ("accepted_contract_version", int_or_null (accepted_contract_version s));
   ("city", text_or_null (city s)); ("district", text_or_null (district s)); ("country", JStr (country s));
   ("latitude", text_or_null (latitude s)); ("longitude", text_or_null (longitude s));
   ("may_list_products", JBool (may_list s))].

Definition seller_event (s : Seller) (event : string) (now : Z) : OutboxMessage :=
  {| aggregate_type := "Seller"; aggregate_id := s_id s; msg_type := event; payload := event_payload s;
     msg_created_at := now |}.

Definition _emit (s : Seller) (event : string) (now : Z) : M db unit :=
  exec (with_outbox (λ ms, ms ++ [seller_event s event now])).

Definition _reject {A} (d : Decision) : M db A :=
  if bool_decide (outcome d = INVALID) then raise (Http 422 (detail d)) else raise (Http 409 (detail d)).

Definition _load (seller_id : string) : M db Seller :=
  found <- query (λ d, List.find (λ s, s_id s =?s seller_id) (sellers d)) ;;
  match found with Some s => ret s | None => raise (Http 404 "Seller not found") end.

Definition types_of (seller_id : string) (d : db) : list string :=
  map sd_document_type (List.filter (λ x, sd_seller_id x =?s seller_id) (documents d)).

Definition _document_types (seller_id : string) : M db (list string) := query (types_of seller_id).

Definition update_seller (seller_id : string) (f : Seller → Seller) : M db unit :=
  exec (with_sellers (update_where (λ s, s_id s =?s seller_id) f)).

Section handlers.
Context (uuid4 : nat → string) (fault : db → option string).

(** [changes] are those the handler already made to the loaded object. *)
Definition _apply (seller : Seller) (changes : Seller → Seller) (decision : Decision) (reason : option string) (now : Z)
    : M db SellerResponse :=
  if negb (ok decision) then _reject decision
  else
    let f s := set_status (default "" (value <$> new_status decision)) reason now (changes s) in
    update_seller (s_id seller) f ;;;
    (match event decision with Some e => _emit (f seller) e now | None => ret tt end) ;;;
    commit fault ;;;
    types <- _document_types (s_id seller) ;;
    ret (to_response (f seller) types).

Definition new_seller (id : string) (r : SellerRegisterRequest) (decision : Decision) (now : Z) : Seller :=
  {| s_id := id; legal_name := strip (rq_legal_name r); display_name := strip (rq_display_name r);
     contact_email := strip (rq_contact_email r); contact_phone := rq_contact_phone r;
     status := default "" (value <$> new_status decision); status_reason := None; accepted_contract_version := None;
     contract_accepted_at := None; address_line := rq_address_line r; city := rq_city r; district := rq_district r;
     country := upper (rq_country r); latitude := rq_latitude r; longitude := rq_longitude r; s_created_at := now;
     s_updated_at := now |}.

(** [await db.flush()]: the INSERT may be refused, and nothing catches that. *)
Definition flush : M db unit :=
  e <- query fault ;; match e with None => ret tt | Some text => raise (Raised text) end.

Definition register_seller (request : SellerRegisterRequest) (idempotency_key : string) (now : Z) : M db SellerResponse :=
  known <- query (λ d, dict_get (se_keys d) idempotency_key) ;;
  match known with
  | Some (Some id) =>
      seller <- _load id ;;
      types <- _document_types id ;;
      ret (to_response seller types)
  | Some None => raise (Http 409 "Duplicate request still in flight")
  | None =>
      exec (with_keys (λ ks, ks ++ [(idempotency_key, None)])) ;;;
      let decision := plan_registration (rq_legal_name request) (rq_display_name request) (rq_contact_email request) in
      if negb (ok decision) then rollback ;;; _reject decision
      else
        n <- query se_draws ;;
        exec draw ;;;
        let seller := new_seller (uuid4 n) request decision now in
        exec (with_sellers (λ ss, ss ++ [seller])) ;;;
        flush ;;;
        _emit seller (default "" (event decision)) now ;;;
        exec (with_keys (λ ks, dict_set ks idempotency_key (Some (s_id seller)))) ;;;
        commit fault ;;;
        ret (to_response seller [])
  end.

(** One document of a submission replaces the seller's document of its type. *)
Definition attach (seller_id document_type media_id : string) (now : Z) (docs : list SellerDocument) : list SellerDocument :=
  List.filter (λ x, negb ((sd_seller_id x =?s seller_id) && (sd_document_type x =?s document_type))) docs ++
  [{| sd_seller_id := seller_id; sd_document_type := document_type; sd_media_id := media_id; sd_submitted_at := now |}].

Definition submit_documents (seller_id : string) (docs : list DocumentRef) (now : Z) : M db SellerResponse :=
  seller <- _load seller_id ;;
  let incoming := foldl (λ d x, dict_set d (dr_document_type x) (dr_media_id x)) [] docs in
  existing <- _document_types seller_id ;;
  let decision := plan_document_submission (status seller) (existing ++ incoming.*1) in
  if negb (ok decision) then rollback ;;; _reject decision
  else
    for_each incoming (λ '(ty, media), exec (with_documents (attach seller_id ty media now))) ;;;
    _apply seller Datatypes.id decision (Some "") now.

Definition start_review (seller_id : string) (now : Z) : M db SellerResponse :=
  seller <- _load seller_id ;;
  _apply seller Datatypes.id (plan_review_start (status seller)) None now.

Definition record_review_result (seller_id : string) (approved : bool) (reason : option string) (now : Z)
    : M db SellerResponse :=
  seller <- _load seller_id ;;
  let decision := plan_review_result (status seller) approved (default "" reason) in
  _apply seller Datatypes.id decision (if approved then None else Some (detail decision)) now.

Definition accept_contract (seller_id : string) (version now : Z) : M db SellerResponse :=
  seller <- _load seller_id ;;
  let decision := plan_contract_acceptance (status seller) version CURRENT_CONTRACT_VERSION in
  if negb (ok decision) then _reject decision
  else _apply seller (set_contract version now) decision None now.

Definition suspend_seller (seller_id reason : string) (now : Z) : M db SellerResponse :=
  seller <- _load seller_id ;;
  let decision := plan_suspension (status seller) reason in
  _apply seller Datatypes.id decision (Some (detail decision)) now.

Definition reinstate_seller (seller_id : string) (now : Z) : M db SellerResponse :=
  seller <- _load seller_id ;;
  _apply seller Datatypes.id (plan_reinstatement (status seller)) (Some "") now.

Definition ban_seller (seller_id reason : string) (now : Z) : M db SellerResponse :=
  seller <- _load seller_id ;;
  let decision := plan_ban (status seller) reason in
  _apply seller Datatypes.id decision (Some (detail decision)) now.

(** The commit has no handler: its exception is the framework's 500. *)
Definition set_location (seller_id : string) (r : SellerLocationRequest) (now : Z) : M db SellerResponse :=
  seller <- _load seller_id ;;
  update_seller seller_id (set_place r now) ;;;
  _emit (set_place r now seller) EVENT_LOCATION_UPDATED now ;;;
  failed <- try_commit fault ;;
  match failed with
  | Some e => raise (Raised e)
  | None => types <- _document_types seller_id ;; ret (to_response (set_place r now seller) types)
  end.

(** *** Reads *)

Definition get_seller (seller_id : string) : M db SellerResponse :=
  seller <- _load seller_id ;;
  types <- _document_types seller_id ;;
  ret (to_response seller types).

Definition get_permission (seller_id : string) : M db (list (string * json)) :=
  seller <- _load seller_id ;;
  ret [("seller_id", JStr (s_id seller)); ("status", JStr (status seller));
       ("may_list_products", JBool (may_list seller));
       ("may_receive_orders",
        JBool (may_receive_orders (status seller) (accepted_contract_version seller) CURRENT_CONTRACT_VERSION))].

Definition get_commission (seller_id : string) : M db (list (string * json)) :=
  seller <- _load seller_id ;;
  let version := accepted_contract_version seller in
  match commission_bps version with
  | None =>
      raise (Http 409 ("seller " +:+ seller_id +:+ " has no commission rate: accepted contract version is " +:+
        (match version with Some v => dec v | None => "None" end) +:+
        ". Nothing may be booked against a contract that cannot be produced."))
  | Some rate =>
      ret [("seller_id", JStr (s_id seller)); ("accepted_contract_version", int_or_null version);
           ("current_contract_version", JInt CURRENT_CONTRACT_VERSION); ("commission_bps", JInt rate)]
  end.

Definition list_sellers (st : option string) (limit : nat) : M db (list SellerResponse) :=
  match st with
  | Some x => if negb (is_empty x) && negb (x in_ map value all_statuses)
              then raise (Http 422 ("unknown status " +:+ repr_str x)) else ret tt
  | None => ret tt
  end ;;;
  rows <- query (λ d, take (Nat.min limit 200)
    (sort_le (λ a b, s_created_at b <=? s_created_at a)
      (match st with
       | Some x => if is_empty x then sellers d else List.filter (λ s, status s =?s x) (sellers d)
       | None => sellers d end))) ;;
  query (λ d, map (λ s, to_response s (types_of (s_id s) d)) rows).

End handlers.

(** ** What a committed decision does *)

(** The life of an account: its status and the contract version it accepted. *)
Definition account_move (s s' : SellerStatus * option Z) (e : string) : Prop :=
  s'.1 ∈ TRANSITIONS s.1 ∧ event_for s.1 s'.1 = Some e ∧
  s'.2 = if e =?s EVENT_ACTIVATED then Some CURRENT_CONTRACT_VERSION else s.2.

(** Moving the shop on the map is not part of it. *)
Definition account_event (e : string) : bool := negb (e =?s EVENT_LOCATION_UPDATED).

Lemma event_for_account from to e : event_for from to = Some e → account_event e = true.
Proof. intros H. by destruct from, to; cbn in H; simplify_eq. Qed.

Definition account : lifecycle (SellerStatus * option Z).
Proof.
  refine {| initial := λ e s, e = EVENT_REGISTERED ∧ s = (REGISTERED, None); move := account_move; counts := account_event |}.
  - by intros e s [-> _].
  - intros s s' e (_ & H & _). by eapply event_for_account.
Defined.

Definition state_of (s : Seller) : option (SellerStatus * option Z) :=
  (λ st, (st, accepted_contract_version s)) <$> _as_status (status s).

Definition document_key (x : SellerDocument) : string * string := (sd_seller_id x, sd_document_type x).

(** One seller's row changed and one event about it appended. *)
Definition amended (seller : Seller) (f : Seller → Seller) (e : string) (now : Z) (d d' : db) : Prop :=
  sellers d' = update_where (λ s, s_id s =?s s_id seller) f (sellers d) ∧
  se_outbox d' = se_outbox d ++ [seller_event (f seller) e now] ∧ se_draws d' = se_draws d ∧
  (NoDup (map document_key (documents d)) → NoDup (map document_key (documents d'))) ∧
  (∀ s, s_id (f s) = s_id s).

(** The change a decision makes to the row. *)
Definition moves (f : Seller → Seller) (e : string) (seller : Seller) : Prop :=
  (∃ from to, _as_status (status seller) = Some from ∧ status (f seller) = value to ∧ to ∈ TRANSITIONS from ∧
     event_for from to = Some e ∧
     accepted_contract_version (f seller) =
       if e =?s EVENT_ACTIVATED then Some CURRENT_CONTRACT_VERSION else accepted_contract_version seller) ∨
  (e = EVENT_LOCATION_UPDATED ∧ status (f seller) = status seller ∧
     accepted_contract_version (f seller) = accepted_contract_version seller).

(** What a request other than a registration can commit. *)
Definition served (d d' : db) : Prop :=
  d' = d ∨ ∃ seller f e now, seller ∈ sellers d ∧ amended seller f e now d d' ∧ moves f e seller.

Lemma attach_keys id ty media now docs :
  NoDup (map document_key docs) → NoDup (map document_key (attach id ty media now docs)).
Proof.
  intros H. unfold attach. rewrite map_app. cbn [map]. apply NoDup_app. split_and!.
  - by apply nodup_map_filter.
  - intros k (x & -> & Hx)%elem_of_map. apply elem_of_filter_bool in Hx as [_ Hx].
    intros E%list_elem_of_singleton. unfold document_key in E. cbn in E. injection E as E1 E2.
    by rewrite E1, E2, !bool_decide_true in Hx.
  - apply NoDup_singleton.
Qed.

Lemma attach_all id incoming now : ∀ s,
  ∃ docs, (for_each incoming (λ '(ty, media), exec (with_documents (attach id ty media now)))) s
      = (Session (committed s) (with_documents (λ _, docs) (working s)), inr tt) ∧
    (NoDup (map document_key (documents (working s))) → NoDup (map document_key docs)).
Proof.
  induction incoming as [|[ty media] incoming IH]; intros s; cbn [for_each].
  - exists (documents (working s)). split; [|done]. by destruct s as [? []].
  - rewrite bind_exec. destruct (IH (Session (committed s) (with_documents (attach id ty media now) (working s))))
      as (docs & -> & H). exists docs. split; [done|]. intros Hd. apply H. by apply attach_keys.
Qed.

Lemma seller_load_cases id d :
  (∃ seller, _load id (Session d d) = (Session d d, inr seller) ∧ seller ∈ sellers d ∧ s_id seller = id) ∨
  _load id (Session d d) = (Session d d, inl (Http 404 "Seller not found")).
Proof.
  unfold _load. rewrite bind_query. cbn [working]. destruct (List.find _ _) as [s|] eqn:E; [left|by right].
  apply find_elem in E as [Hs E]. apply bool_decide_eq_true in E. by exists s.
Qed.

(** Every handler that loads a seller first: not found, or the rest on it. *)
Lemma run_load {A} id (k : Seller → M db A) d :
  (∀ seller, seller ∈ sellers d → s_id seller = id → served d (run (k seller) d).1) →
  served d (run (bind (_load id) k) d).1.
Proof.
  intros H. unfold run, bind. destruct (seller_load_cases id d) as [(s & -> & Hs & E)| -> ]; [|by left].
  exact (H s Hs E).
Qed.

Lemma seller_reject_uncommitting {A} dec : uncommitting (_reject (A := A) dec).
Proof. unfold _reject. monadic. Qed.

Lemma apply_served fault op changes reason now seller docs d :
  seller ∈ sellers d →
  (NoDup (map document_key (documents d)) → NoDup (map document_key docs)) →
  (∀ s, s_id (changes s) = s_id s) →
  (∀ s, accepted_contract_version (changes s) =
     match op with AcceptContract v => Some v | _ => accepted_contract_version s end) →
  served d (committed (_apply fault seller changes (plan op (status seller)) reason now
    (Session d (with_documents (λ _, docs) d))).1).
Proof.
  intros Hs Hdocs Hid Hver. unfold _apply. destruct (ok _) eqn:Eok; cbn [negb].
  2:{ left. by rewrite seller_reject_uncommitting. }
  destruct (seller_plan_ok _ _ Eok) as (from & to & Hfrom & Hto & Hin & Hev & [e He] & Hv & Hact).
  rewrite He in Hev. rewrite Hto, Hev. cbn [default fmap option_fmap option_map]. unfold update_seller, _emit. symex.
  destruct (fault _); [by left|]. right. eexists seller, _, e, now. split; [done|].
  split; [split; [reflexivity|]; split; [reflexivity|]; split; [reflexivity|]; split; [exact Hdocs|exact Hid]|].
  left. exists from, to. split_and!; [done|done|done|done|]. cbn. rewrite Hver.
  destruct op; cbn in *; try (rewrite bool_decide_false; [done|]; intros ->; destruct (proj1 Hact He) as [? ?]; done).
  rewrite bool_decide_true; [by rewrite (Hv _ eq_refl)|]. apply Some_inj. rewrite <-He. apply Hact. by eexists.
Qed.

(** [_apply] as the rest of a handler, on a fresh session. *)
Lemma apply_run_served fault op changes reason now seller d :
  seller ∈ sellers d → (∀ s, s_id (changes s) = s_id s) →
  (∀ s, accepted_contract_version (changes s) =
     match op with AcceptContract v => Some v | _ => accepted_contract_version s end) →
  served d (run (_apply fault seller changes (plan op (status seller)) reason now) d).1.
Proof.
  intros Hs Hid Hver. pose proof (apply_served fault op changes reason now seller (documents d) d Hs id Hid Hver) as H.
  replace (with_documents (λ _, documents d) d) with d in H by by destruct d. unfold run.
  by destruct (_apply _ _ _ _ _ _ _).
Qed.

Lemma rejected_served {A} (dec : Decision) (m : M db A) d :
  (ok dec = true → served d (run m d).1) →
  served d (run (if negb (ok dec) then _reject dec else m) d).1.
Proof. destruct (ok dec); cbn [negb]; [auto|]. intros _. left. apply run_uncommitting, seller_reject_uncommitting. Qed.

Lemma submit_served fault id docs now d : served d (run (submit_documents fault id docs now) d).1.
Proof.
  apply run_load. intros seller Hs <-. unfold run, _document_types. rewrite bind_query. cbn [working].
  set (incoming := foldl _ _ _).
  change (plan_document_submission (status seller) (types_of (s_id seller) d ++ incoming.*1))
    with (plan (SubmitDocuments (types_of (s_id seller) d ++ incoming.*1)) (status seller)).
  set (op := SubmitDocuments _). destruct (ok _) eqn:Eok; cbn [negb].
  - destruct (attach_all (s_id seller) incoming now (Session d d)) as (dl & E & Hd). unfold bind. rewrite E. cbn in *.
    pose proof (apply_served fault op Datatypes.id (Some "") now seller dl d Hs Hd (λ _, eq_refl) (λ _, eq_refl)) as H.
    by destruct (_apply _ _ _ _ _ _ _).
  - rewrite bind_rollback. left. cbn [committed]. pose proof (seller_reject_uncommitting (A := SellerResponse) (plan op (status seller)) (Session d d)) as H.
    by destruct (_reject _ _).
Qed.

Lemma location_served fault id r now d : served d (run (set_location fault id r now) d).1.
Proof.
  apply run_load. intros seller Hs <-. unfold run, update_seller, _emit, _document_types. symex.
  rewrite bind_try_commit. cbn [working committed]. destruct (fault _); [by left|]. right.
  eexists seller, (set_place r now), EVENT_LOCATION_UPDATED, now. split; [done|]. split; [by split_and!|by right].
Qed.

(** A request against the service. *)
Inductive request :=
| Register (r : SellerRegisterRequest) (key : string)
| Submit (id : string) (docs : list DocumentRef)
| Start (id : string)
| Verdict (id : string) (approved : bool) (reason : option string)
| Accept (id : string) (version : Z)
| SuspendSeller (id reason : string)
| ReinstateSeller (id : string)
| BanSeller (id reason : string)
| Relocate (id : string) (r : SellerLocationRequest).

Definition serve (uuid4 : nat → string) (fault : db → option string) (now : Z) (r : request) : M db SellerResponse :=
  match r with
  | Register r key => register_seller uuid4 fault r key now
  | Submit id docs => submit_documents fault id docs now
  | Start id => start_review fault id now
  | Verdict id approved reason => record_review_result fault id approved reason now
  | Accept id version => accept_contract fault id version now
  | SuspendSeller id reason => suspend_seller fault id reason now
  | ReinstateSeller id => reinstate_seller fault id now
  | BanSeller id reason => ban_seller fault id reason now
  | Relocate id r => set_location fault id r now
  end.

Inductive seller_step (uuid4 : nat → string) (d : db) : db → Prop :=
| seller_request fault now r : seller_step uuid4 d (run (serve uuid4 fault now r) d).1.

(** A new account: its row, its first event, and nothing else about its id. *)
Definition registered (uuid4 : nat → string) (d d' : db) : Prop :=
  ∃ s now, s_id s = uuid4 (se_draws d) ∧ status s = value REGISTERED ∧ accepted_contract_version s = None ∧
    sellers d' = sellers d ++ [s] ∧ se_outbox d' = se_outbox d ++ [seller_event s EVENT_REGISTERED now] ∧
    se_draws d' = S (se_draws d) ∧ documents d' = documents d.

Lemma seller_registration_ok l dn e : ok (plan_registration l dn e) = true →
  new_status (plan_registration l dn e) = Some REGISTERED ∧ event (plan_registration l dn e) = Some EVENT_REGISTERED.
Proof. unfold plan_registration. by repeat case_match. Qed.

Lemma register_effect uuid4 fault r key now d :
  let d' := (run (register_seller uuid4 fault r key now) d).1 in d' = d ∨ registered uuid4 d d'.
Proof.
  cbv zeta. unfold run, register_seller. rewrite bind_query. cbn [working].
  destruct (dict_get _ _) as [[id|]|]; [|by left|].
  - left. unfold bind at 1. destruct (seller_load_cases id d) as [(s & -> & _)| -> ]; done.
  - rewrite bind_exec. cbn [working committed]. set (dec := plan_registration _ _ _). destruct (ok dec) eqn:Eok; cbn [negb].
    2:{ left. rewrite bind_rollback. cbn [committed]. pose proof (seller_reject_uncommitting (A := SellerResponse) dec (Session d d)) as H.
        by destruct (_reject _ _). }
    destruct (seller_registration_ok _ _ _ Eok) as [Hn He]. fold dec in Hn, He. unfold flush, _emit. symex.
    destruct (fault _); [by left|]. symex. destruct (fault _); [by left|]. right.
    exists (new_seller (uuid4 (se_draws d)) r dec now), now. cbn. rewrite Hn, He. by split_and!.
Qed.

Lemma serve_effect uuid4 fault now r d :
  let d' := (run (serve uuid4 fault now r) d).1 in served d d' ∨ registered uuid4 d d'.
Proof.
  cbv zeta. destruct r as [r key|id docs|id|id approved reason|id version|id reason|id|id reason|id r]; cbn [serve].
  - destruct (register_effect uuid4 fault r key now d) as [H|H]; [left; by left|by right].
  - left. apply submit_served.
  - left. apply run_load. intros s Hs _. by apply (apply_run_served fault StartReview).
  - left. apply run_load. intros s Hs _. by apply (apply_run_served fault (RecordResult approved (default "" reason))).
  - left. apply run_load. intros s Hs _. apply rejected_served. intros _.
    by apply (apply_run_served fault (AcceptContract version)).
  - left. apply run_load. intros s Hs _. by apply (apply_run_served fault (Suspend reason)).
  - left. apply run_load. intros s Hs _. by apply (apply_run_served fault Reinstate).
  - left. apply run_load. intros s Hs _. by apply (apply_run_served fault (Ban reason)).
  - left. apply location_served.
Qed.

(** ** A record is its history *)

(** What must have happened, in this order, for an account to be in a state. *)
Definition milestones (st : SellerStatus) : list string :=
  match st with
  | REGISTERED => [EVENT_REGISTERED]
  | BANNED => [EVENT_REGISTERED; EVENT_BANNED]
  | DOCUMENTS_SUBMITTED => [EVENT_REGISTERED; EVENT_DOCUMENTS_SUBMITTED]
  | UNDER_REVIEW => [EVENT_REGISTERED; EVENT_DOCUMENTS_SUBMITTED; EVENT_REVIEW_STARTED]
  | APPROVED => [EVENT_REGISTERED; EVENT_DOCUMENTS_SUBMITTED; EVENT_REVIEW_STARTED; EVENT_APPROVED]
  | REJECTED => [EVENT_REGISTERED; EVENT_DOCUMENTS_SUBMITTED; EVENT_REVIEW_STARTED; EVENT_REJECTED]
  | ACTIVE | SUSPENDED =>
      [EVENT_REGISTERED; EVENT_DOCUMENTS_SUBMITTED; EVENT_REVIEW_STARTED; EVENT_APPROVED; EVENT_ACTIVATED]
  end.

(** A move either reaches the next milestone or keeps those it had. *)
Lemma milestones_move from to e : to ∈ TRANSITIONS from → event_for from to = Some e →
  milestones to `sublist_of` milestones from ∨
  ∃ ms, milestones to = ms ++ [e] ∧ ms `sublist_of` milestones from.
Proof.
  intros Hin He. destruct from; cbn in Hin; elem_cases Hin; subst; cbn in He; simplify_eq; cbn;
    first [left; repeat constructor; fail
      | right; eexists [_]; split; [reflexivity|repeat constructor]
      | right; eexists [_; _]; split; [reflexivity|repeat constructor]
      | right; eexists [_; _; _]; split; [reflexivity|repeat constructor]
      | right; eexists [_; _; _; _]; split; [reflexivity|repeat constructor]].
Qed.

Lemma account_milestones es s : journey account None es s → milestones s.1 `sublist_of` es.
Proof.
  apply (journey_milestones account (λ s, milestones s.1)); [by intros e ? [-> ->]|].
  intros s' s'' e (Hin & He & _). by apply milestones_move.
Qed.

Lemma account_banned base es s : (∀ b, base = Some b → b.1 ≠ BANNED) → journey account base es s → EVENT_BANNED ∈ es ↔ s.1 = BANNED.
Proof.
  intros Hb H. split.
  - revert base es s Hb H. intros base es s _. apply (journey_since account EVENT_BANNED (λ s, s.1 = BANNED)); [by intros e ? [-> _]|].
    intros [from v] [to v'] e (Hin & He & _). cbn [fst] in *.
    destruct from; cbn in Hin; elem_cases Hin; subst; cbn in He; simplify_eq; naive_solver.
  - induction H as [s E|e s _ [-> ->]|es [from v] [to v'] e _ _ (Hin & He & _)]; [by intros ?%(Hb s E)|done|].
    cbn [fst] in *. intros ->. apply elem_of_app. right. apply list_elem_of_singleton. destruct from; cbn in Hin, He; elem_cases Hin; by simplify_eq.
Qed.

Lemma account_terms base es s : journey account base es s →
  s.2 = if EVENT_ACTIVATED in_ es then Some CURRENT_CONTRACT_VERSION else b ← base; b.2.
Proof.
  unfold in_listb. induction 1 as [s ->|e s -> [-> ->]|es s s' e _ IH (_ & _ & ->)]; [done|by rewrite bool_decide_false by by_compute|].
  destruct (bool_decide_reflect (e = EVENT_ACTIVATED)) as [E|E]; [|rewrite IH].
  - rewrite bool_decide_true; [done|]. subst. apply elem_of_app. right. by left.
  - erewrite bool_decide_ext; [reflexivity|]. rewrite elem_of_app, list_elem_of_singleton. naive_solver.
Qed.

(** *** The account the platform sells under

    migrations/015_seller_db_platform_seller.sql puts it in the table, active and
    on the first contract, without any event. *)
Definition PLATFORM_SELLER : string := "00000000-0000-0000-0000-000000000001".

Definition platform_seller (now : Z) : Seller :=
  {| s_id := PLATFORM_SELLER; legal_name := "Platform First-Party Seller"; display_name := "Marketplace";
     contact_email := "platform@example.invalid"; contact_phone := None; status := "active";
     status_reason := Some "seeded by migration 015; the platform's own first-party shop";
     accepted_contract_version := Some 1; contract_accepted_at := Some now; address_line := None; city := None; district := None;
     country := "BD"; latitude := None; longitude := None; s_created_at := now; s_updated_at := now |}.

Definition seed (id : string) : option (SellerStatus * option Z) := if id =?s PLATFORM_SELLER then Some (ACTIVE, Some 1) else None.

Lemma seed_platform id : is_Some (seed id) ↔ id = PLATFORM_SELLER.
Proof. unfold seed. destruct (bool_decide_reflect (id = PLATFORM_SELLER)); split; [done|by eexists|by intros []|done]. Qed.

Lemma seed_none id : id ≠ PLATFORM_SELLER → seed id = None.
Proof. intros H. unfold seed. by rewrite bool_decide_false. Qed.

Lemma seed_live id b : seed id = Some b → b = (ACTIVE, Some CURRENT_CONTRACT_VERSION).
Proof. unfold seed. destruct (_ =?s _); [by intros [= <-]|done]. Qed.

(** An active account is on the current contract. *)
Lemma active_terms id es s : journey account (seed id) es s → s.1 = ACTIVE → s.2 = Some CURRENT_CONTRACT_VERSION.
Proof.
  intros Hj Ha. rewrite (account_terms _ _ _ Hj). destruct (seed id) as [b|] eqn:Eb; cbn [mbind option_bind].
  - apply seed_live in Eb as ->. by destruct (_ in_ es).
  - unfold in_listb. rewrite bool_decide_true; [done|]. eapply elem_of_submseteq; [|apply sublist_submseteq, (account_milestones _ _ Hj)].
    rewrite Ha. by_compute.
Qed.

Record seller_ok (uuid4 : nat → string) (d : db) : Prop := {
  so_documents : NoDup (map document_key (documents d));
  so_table : table_ok account s_id state_of event_payload uuid4 seed (faithful account seed) (sellers d) (se_outbox d) (se_draws d);
}.

Lemma served_ok uuid4 d d' : served d d' → seller_ok uuid4 d → seller_ok uuid4 d'.
Proof.
  intros [->|(seller & f & e & now & Hs & (Es & Eo & Ed & Hd & Hid) & Hm)] [H1 H2]; [done|]. constructor; [auto|].
  rewrite Es, Eo, Ed. eapply table_amend; [done|done|done|apply Hid|done|]. intros s Hst Hj. unfold state_of in *.
  destruct Hm as [(from & to & Hf & Ht & Hin & He & Ha)|(-> & Hsame & Ha)].
  - rewrite Hf in Hst. injection Hst as <-. rewrite Ht, as_seller_status_value. eexists. split; [reflexivity|].
    eapply journey_told; [apply Hid|exact Hj|]. by left.
  - rewrite Hsame, Ha. exists s. split; [done|]. eapply journey_told; [apply Hid|exact Hj|]. by right.
Qed.

Lemma registered_ok uuid4 d d' `{!Inj (=) (=) uuid4} : (∀ n, uuid4 n ≠ PLATFORM_SELLER) → registered uuid4 d d' → seller_ok uuid4 d → seller_ok uuid4 d'.
Proof.
  intros Hne (s & now & Hid & Hst & Hv & Es & Eo & Ed & Edoc) [H1 H2]. constructor; [by rewrite Edoc|].
  rewrite Es, Eo, Ed. eapply table_register; [done|intros n; by apply seed_none|done|done|done|done| |done|].
  - unfold state_of. by rewrite Hst, Hv.
  - apply journey_start; [rewrite Hid; by apply seed_none|by split].
Qed.

Lemma seller_step_ok uuid4 d d' `{!Inj (=) (=) uuid4} : (∀ n, uuid4 n ≠ PLATFORM_SELLER) → seller_step uuid4 d d' → seller_ok uuid4 d → seller_ok uuid4 d'.
Proof.
  intros Hne [fault now r]. destruct (serve_effect uuid4 fault now r d) as [H|H]; [by apply served_ok|by apply registered_ok].
Qed.

(** C33 — A seller's record is the outcome of its announced history: over any
    sequence of requests handled one at a time, with any commit failing, from the
    table a migration seeds with the platform's own account or an empty one, every
    account has a recognised status, reached by the legal journey its outbox events
    tell in order, from registration, or from the state it was seeded in for the
    platform's account.  The last event carries the record as it stands, so a
    consumer that has read them all agrees with the service; only the platform's
    account can have no event.  An account may list products exactly when it is
    active, and then it is on the current contract and never banned, and any but
    the platform's was registered, documented, reviewed, approved and activated, in
    that order; and it has at most one document of each type. *)
Theorem seller_record_is_its_history (uuid4 : nat → string) (d0 d : db)
    (Huuid : Inj (=) (=) uuid4) (Hseed : ∀ n, uuid4 n ≠ PLATFORM_SELLER) (Hok : seller_ok uuid4 d0) (Hreach : rtc (seller_step uuid4) d0 d) :
  NoDup (map document_key (documents d)) ∧
  ∀ s, s ∈ sellers d → ∃ st,
    let told_events := events_of account (s_id s) (se_outbox d) in
    let platform := s_id s = PLATFORM_SELLER in
    status s = value st ∧ journey account (seed (s_id s)) told_events (st, accepted_contract_version s) ∧
    (payload <$> last (messages_of (s_id s) (se_outbox d)) = Some (event_payload s) ∨
       platform ∧ messages_of (s_id s) (se_outbox d) = []) ∧
    (may_list s = true ↔ st = ACTIVE) ∧
    (may_list s = true → EVENT_BANNED ∉ told_events ∧ accepted_contract_version s = Some CURRENT_CONTRACT_VERSION ∧
       (¬ platform → milestones ACTIVE `sublist_of` told_events)) ∧
    (st = BANNED ↔ EVENT_BANNED ∈ told_events).
Proof.
  assert (H : seller_ok uuid4 d).
  { eapply (rtc_invariant _ (seller_ok uuid4)); [|exact Hreach|exact Hok]. intros; by eapply seller_step_ok. }
  split; [apply H|]. intros s Hs. destruct (rows_told _ _ _ _ _ _ _ _ _ _ (so_table _ _ H) s Hs) as [[st v] [H1 H2 H3]].
  unfold state_of in H1. destruct (_as_status (status s)) as [st'|] eqn:Est; [|done]. injection H1 as -> <-.
  exists st. apply as_status_inv in Est. unfold faithful in H2.
  assert (Hlist : may_list s = true ↔ st = ACTIVE).
  { unfold may_list, may_list_products. rewrite Est, as_seller_status_value. case_bool_decide as E; cbn [negb].
    - injection E as ->. split; [done|]. intros _. apply bool_decide_eq_true. exact (active_terms _ _ _ H2 eq_refl).
    - split; [done|]. intros ->. by destruct E. }
  assert (Hban : EVENT_BANNED ∈ events_of account (s_id s) (se_outbox d) ↔ st = BANNED).
  { refine (account_banned (seed (s_id s)) _ _ _ H2). intros b ->%seed_live. done. }
  split_and!; [done|done| |exact Hlist| |by rewrite Hban].
  - destruct H3 as [H3|[H3 Hp%seed_platform]]; [by left|by right].
  - intros Hl. pose proof (proj1 Hlist Hl) as ->. split; [by rewrite Hban|]. split; [exact (active_terms _ _ _ H2 eq_refl)|].
    intros Hne. rewrite (seed_none _ Hne) in H2. exact (account_milestones _ _ H2).
Qed.

(** ** Two handlers that overlap *)

Lemma find_update (id : string) (f : Seller → Seller) l : (∀ s, s_id (f s) = s_id s) →
  List.find (λ s, s_id s =?s id) (update_where (λ s, s_id s =?s id) f l) =
  f <$> List.find (λ s, s_id s =?s id) l.
Proof.
  intros Hid. induction l as [|s l IH]; [done|]. cbn. destruct (bool_decide_reflect (s_id s = id)) as [E|E]; cbn.
  - by rewrite bool_decide_true by by rewrite Hid.
  - by rewrite bool_decide_false.
Qed.

(** One decision committed on the account [id]: its row and its last event. *)
Lemma apply_effect seller changes dec reason now d row st e :
  (∀ s, s_id (changes s) = s_id s) → ok dec = true → new_status dec = Some st → event dec = Some e →
  List.find (λ s, s_id s =?s s_id seller) (sellers d) = Some row →
  let f s := set_status (value st) reason now (changes s) in
  let d' := (run (_apply (λ _, None) seller changes dec reason now) d).1 in
  List.find (λ s, s_id s =?s s_id seller) (sellers d') = Some (f row) ∧
  messages_of (s_id seller) (se_outbox d') = messages_of (s_id seller) (se_outbox d) ++ [seller_event (f seller) e now].
Proof.
  intros Hid Hok Hst He Hf f d'. subst d'. unfold run, _apply. rewrite Hok, Hst, He. cbn [negb].
  unfold update_seller, _emit, _document_types. symex. cbn [fst].
  split; [cbn; by rewrite find_update, Hf by done|]. cbn [se_outbox with_outbox with_sellers]. apply messages_same, Hid.
Qed.

(** The same for a handler that loads the account first. *)
Lemma run_loaded {A} id seller (k : Seller → M db A) d :
  List.find (λ s, s_id s =?s id) (sellers d) = Some seller → run (bind (_load id) k) d = run (k seller) d.
Proof. intros H. unfold run, bind, _load, bind, query. cbn [working]. by rewrite H. Qed.

(** A ban can be lost: nothing locks the row between a handler's read and
    its commit, so a reviewer's approval that read the account before a ban
    committed, and commits after it, puts the status back to approved; the
    seller accepts the contract and may list products, though the ban was
    answered with success, announced, and documented as final. *)
Theorem approval_overwrites_ban (d : db) (seller : Seller) (id why : string) (t1 t2 t3 : Z)
    (Hrow : List.find (λ s, s_id s =?s id) (sellers d) = Some seller)
    (Hreview : status seller = value UNDER_REVIEW) (Hwhy : blank why = false) :
  let fine := λ _ : db, None in
  let banned := (run (ban_seller fine id why t1) d).1 in
  let approved :=
    (run (_apply fine seller Datatypes.id (plan_review_result (status seller) true "") None t2) banned).1 in
  let accepted := (run (accept_contract fine id CURRENT_CONTRACT_VERSION t3) approved).1 in
  TRANSITIONS BANNED = [] ∧
  status <$> List.find (λ s, s_id s =?s id) (sellers banned) = Some (value BANNED) ∧
  may_list <$> List.find (λ s, s_id s =?s id) (sellers accepted) = Some true ∧
  map msg_type (messages_of id (se_outbox accepted)) =
    map msg_type (messages_of id (se_outbox d)) ++ [EVENT_BANNED; EVENT_APPROVED; EVENT_ACTIVATED].
Proof.
  intros fine banned approved accepted. subst fine.
  assert (Hid : s_id seller = id) by (apply find_elem in Hrow as [_ H]; by apply bool_decide_eq_true in H).
  assert (Hban : plan_ban (status seller) why = _ok BANNED EVENT_BANNED (strip why)).
  { unfold plan_ban. by rewrite Hreview, as_seller_status_value, Hwhy. }
  assert (Hplan : plan_review_result (status seller) true "" =
    _ok APPROVED EVENT_APPROVED "approved; contract acceptance required before selling") by by rewrite Hreview.
  destruct (apply_effect seller Datatypes.id (plan_ban (status seller) why) (Some (detail (plan_ban (status seller) why))) t1 d seller BANNED EVENT_BANNED)
    as [R1 M1]; [done|by rewrite Hban..|by rewrite Hid|]. rewrite Hid in R1, M1.
  assert (E1 : banned = (run (_apply (λ _, None) seller Datatypes.id (plan_ban (status seller) why) (Some (detail (plan_ban (status seller) why))) t1) d).1).
  { unfold banned, ban_seller. by rewrite (run_loaded id seller) by done. }
  cbv zeta in R1, M1. rewrite <-E1 in R1, M1.
  destruct (apply_effect seller Datatypes.id (plan_review_result (status seller) true "") None t2 banned
    (set_status (value BANNED) (Some (detail (plan_ban (status seller) why))) t1 (Datatypes.id seller)) APPROVED EVENT_APPROVED)
    as [R2 M2]; [done|by rewrite Hplan..|rewrite Hid; exact R1|]. rewrite Hid in R2, M2. fold approved in R2, M2.
  cbv zeta in R2, M2. set (row := set_status (value APPROVED) _ _ _) in R2.
  assert (Hrid : s_id row = id) by exact Hid.
  destruct (apply_effect row (set_contract CURRENT_CONTRACT_VERSION t3) (plan_contract_acceptance (value APPROVED) 1 1)
    None t3 approved row ACTIVE EVENT_ACTIVATED) as [R3 M3]; [done..|by rewrite Hrid|]. rewrite Hrid in R3, M3.
  assert (E3 : accepted = (run (_apply (λ _, None) row (set_contract CURRENT_CONTRACT_VERSION t3)
    (plan_contract_acceptance (value APPROVED) 1 1) None t3) approved).1).
  { unfold accepted, accept_contract. by rewrite (run_loaded id row) by done. }
  cbv zeta in R3, M3. rewrite <-E3 in R3, M3. split_and!; [done|by rewrite R1|by rewrite R3|].
  rewrite M3, M2, M1, !map_app. cbn [map seller_event msg_type]. by rewrite <-!app_assoc.
Qed.

(** ** An account from registration to its first listing *)

(** The database as the migrations leave it. *)
Definition seeded_sellers (now : Z) : db := {| sellers := [platform_seller now]; documents := []; se_outbox := []; se_keys := []; se_draws := 0 |}.

Lemma seeded_sellers_ok uuid4 now : seller_ok uuid4 (seeded_sellers now).
Proof.
  constructor; [apply NoDup_nil_2|]. apply (seeded_ok _ _ _ _ _ _ _ (platform_seller now) (ACTIVE, Some 1)); [done|done|]. by constructor.
Qed.

Definition no_sellers : db := {| sellers := []; documents := []; se_outbox := []; se_keys := []; se_draws := 0 |}.

Definition sample_registration : SellerRegisterRequest :=
  {| rq_legal_name := " Dhaka Crafts Ltd "; rq_display_name := "Dhaka Crafts"; rq_contact_email := "a@b.com";
     rq_contact_phone := None; rq_address_line := None; rq_city := Some "Dhaka"; rq_district := None; rq_country := "bd";
     rq_latitude := None; rq_longitude := None |}.

Definition sample_documents : list DocumentRef :=
  [{| dr_document_type := "national_id"; dr_media_id := "m1" |}; {| dr_document_type := "trade_licence"; dr_media_id := "m2" |}].

Definition sample_requests : list request :=
  [Register sample_registration "k1"; Submit "" []; Submit "" sample_documents; Start ""; Verdict "" false (Some "blurred");
   Submit "" sample_documents; Start ""; Verdict "" true None; Accept "" 2; Accept "" 1].

Definition after (rs : list request) (d : db) : db :=
  foldl (λ d r, (run (serve unary_id (λ _, None) 1 r) d).1) d rs.

Lemma seller_after_reachable rs : ∀ d, rtc (seller_step unary_id) d (after rs d).
Proof.
  induction rs as [|r rs IH]; intros d; [apply rtc_refl|]. eapply rtc_l; [|apply IH]. by constructor.
Qed.

Lemma no_sellers_ok : seller_ok unary_id no_sellers.
Proof.
  constructor; [apply NoDup_nil_2|apply no_rows_ok].
Qed.

Lemma unary_id_not_platform n : unary_id n ≠ PLATFORM_SELLER.
Proof. by destruct n as [|[|n]]. Qed.

(** Beside the platform's account a seller registers, is turned down and is approved. *)
Lemma seller_record_is_its_history_witness :
  let d := after sample_requests (seeded_sellers 0) in
  events_of account "" (se_outbox d) = ["SellerRegistered"; "SellerDocumentsSubmitted"; "SellerReviewStarted"; "SellerRejected";
    "SellerDocumentsSubmitted"; "SellerReviewStarted"; "SellerApproved"; "SellerActivated"] ∧
  events_of account PLATFORM_SELLER (se_outbox d) = [] ∧
  length (documents d) = 2%nat ∧ NoDup (map document_key (documents d)) ∧
  ∃ p s, p ∈ sellers d ∧ s ∈ sellers d ∧ may_list p = true ∧ may_list s = true ∧ s_id p = PLATFORM_SELLER ∧
    journey account (seed PLATFORM_SELLER) [] (ACTIVE, accepted_contract_version p) ∧
    milestones ACTIVE `sublist_of` events_of account "" (se_outbox d).
Proof.
  cbv zeta. set (d := after sample_requests (seeded_sellers 0)).
  destruct (seller_record_is_its_history unary_id (seeded_sellers 0) d unary_id_inj unary_id_not_platform (seeded_sellers_ok unary_id 0) (seller_after_reachable _ _)) as [H1 H2].
  assert (E0 : events_of account PLATFORM_SELLER (se_outbox d) = []) by (vm_compute; reflexivity).
  split; [vm_compute; reflexivity|]. split; [exact E0|]. split; [vm_compute; reflexivity|]. split; [exact H1|].
  destruct (sellers d) as [|p [|s l]] eqn:E; [vm_compute in E; discriminate E..|]. exists p, s.
  assert (Hp : p ∈ p :: s :: l) by left. assert (Hs : s ∈ p :: s :: l) by (right; left).
  assert (Hm : map (λ s, (s_id s, may_list s)) (sellers d) = [(PLATFORM_SELLER, true); ("", true)]) by (vm_compute; reflexivity).
  rewrite E in Hm. cbn [map] in Hm. injection Hm as Hpid Hpl Hid Hl _.
  split; [exact Hp|]. split; [exact Hs|]. split; [exact Hpl|]. split; [exact Hl|]. split; [exact Hpid|]. split.
  - destruct (H2 p Hp) as (st & _ & Hj & _ & Hlist & _). rewrite Hpid, E0 in Hj. by rewrite (proj1 Hlist Hpl) in Hj.
  - destruct (H2 s Hs) as (st & _ & _ & _ & _ & H & _). destruct (H Hl) as (_ & _ & Hmil). rewrite Hid in Hmil. by apply Hmil.
Defined.

Definition in_review : db := after (take 4 sample_requests) no_sellers.

Lemma approval_overwrites_ban_witness :
  ∃ seller, List.find (λ s, s_id s =?s "") (sellers in_review) = Some seller ∧
    let banned := (run (ban_seller (λ _, None) "" "fraud" 5) in_review).1 in
    let approved :=
      (run (_apply (λ _, None) seller Datatypes.id (plan_review_result (status seller) true "") None 6) banned).1 in
    let accepted := (run (accept_contract (λ _, None) "" CURRENT_CONTRACT_VERSION 7) approved).1 in
    may_list <$> List.find (λ s, s_id s =?s "") (sellers accepted) = Some true.
Proof.
  destruct (List.find (λ s, s_id s =?s "") (sellers in_review)) as [seller|] eqn:E; [|vm_compute in E; discriminate E].
  exists seller. split; [reflexivity|].
  assert (Hst : status seller = value UNDER_REVIEW).
  { assert (H : status <$> List.find (λ s, s_id s =?s "") (sellers in_review) = Some (value UNDER_REVIEW))
      by (vm_compute; reflexivity). rewrite E in H. injection H as H. exact H. }
  exact (proj1 (proj2 (proj2 (approval_overwrites_ban in_review seller "" "fraud" 5 6 7 E Hst eq_refl)))).
Defined.

End SellerService.
