(* ===== verification/MediaRules.v ===== *)
(** * Media rules

    [media_rules.py]: the lifecycle of an asset, what may be uploaded for which
    purpose, who may read it, and where its bytes live. *)

From S2P Require Import Prelude PyValue PyJson PyText Lifecycle.
From Stdlib Require Import Ascii.
Import PyText.

Module MediaRules.

Inductive MediaStatus := QUARANTINED | SCANNING | CLEAN | INFECTED | DELETED.

#[global] Instance MediaStatus_eq : EqDecision MediaStatus.
Proof. solve_decision. Defined.

Definition value (s : MediaStatus) : string :=
  match s with
  | QUARANTINED => "quarantined" | SCANNING => "scanning" | CLEAN => "clean" | INFECTED => "infected" | DELETED => "deleted"
  end.

(** [MediaStatus(value)]; [None] is the [ValueError]. *)
Definition media_status (v : string) : option MediaStatus :=
  List.find (λ s, value s =?s v) [QUARANTINED; SCANNING; CLEAN; INFECTED; DELETED].

Definition TERMINAL : list MediaStatus := [INFECTED; DELETED].

Definition EVENT_REGISTERED := "MediaRegistered".
Definition EVENT_SCAN_STARTED := "MediaScanStarted".
Definition EVENT_PUBLISHED := "MediaPublished".
Definition EVENT_QUARANTINED := "MediaQuarantined".
Definition EVENT_DELETED := "MediaDeleted".

Definition ALLOWED_CONTENT_TYPES : list string := ["image/jpeg"; "image/png"; "image/webp"; "image/gif"; "video/mp4"].

Definition MAX_BYTES : Z := 25 * 1024 * 1024.

Inductive Outcome := OK | INVALID | NOT_ALLOWED.

#[global] Instance Outcome_eq : EqDecision Outcome.
Proof. solve_decision. Defined.

Record Decision := {
  outcome : Outcome;
  new_status : option MediaStatus;
  event : option string;
  detail : string;
}.

Definition ok (d : Decision) : bool := bool_decide (outcome d = OK).

Definition accept (s : MediaStatus) (e : option string) (why : string) : Decision :=
  {| outcome := OK; new_status := Some s; event := e; detail := why |}.
Definition refuse (o : Outcome) (why : string) : Decision :=
  {| outcome := o; new_status := None; event := None; detail := why |}.

Definition is_servable (status : string) : bool := status =?s value CLEAN.

Definition plan_registration (filename content_type : string) (size_bytes : Z) (allowed : option (list string)) : Decision :=
  let permitted := default ALLOWED_CONTENT_TYPES allowed in
  if is_empty filename || is_empty (strip filename) then refuse INVALID "filename is required"
  else if negb (content_type in_ permitted) then
    refuse INVALID ("content type " +:+ repr_str content_type +:+ " is not allowed")
  else if size_bytes <=? 0 then refuse INVALID ("size must be positive, got " +:+ dec size_bytes)
  else if MAX_BYTES <? size_bytes then
    refuse INVALID ("size " +:+ dec size_bytes +:+ " exceeds the " +:+ dec MAX_BYTES +:+ " byte limit")
  else accept QUARANTINED (Some EVENT_REGISTERED) "registered and quarantined pending scan".

Definition plan_scan_start (current : MediaStatus) : Decision :=
  if current in_ TERMINAL then refuse NOT_ALLOWED (value current +:+ " is terminal")
  else if bool_decide (current = SCANNING) then accept SCANNING None "scan already in progress"
  else accept SCANNING (Some EVENT_SCAN_STARTED) "scan started; asset is not servable while it runs".

Definition plan_scan_result (current : MediaStatus) (infected : bool) : Decision :=
  if current in_ TERMINAL then
    if bool_decide (current = INFECTED) && infected then accept INFECTED None "already quarantined as infected"
    else refuse NOT_ALLOWED (value current +:+ " is terminal")
  else if negb (bool_decide (current = SCANNING)) then
    refuse NOT_ALLOWED ("no scan in progress (status is " +:+ value current +:+ ")")
  else if infected then accept INFECTED (Some EVENT_QUARANTINED) "scanner reported infected; quarantined permanently"
  else accept CLEAN (Some EVENT_PUBLISHED) "scanned clean; asset is now servable".

Definition plan_delete (current : MediaStatus) : Decision :=
  if bool_decide (current = DELETED) then accept DELETED None "already deleted"
  else accept DELETED (Some EVENT_DELETED) "deleted".

(** ** What an asset is for *)

Inductive AssetPurpose := PRODUCT_IMAGE | SELLER_DOCUMENT | TRY_ON_SOURCE | POST_MEDIA.

#[global] Instance AssetPurpose_eq : EqDecision AssetPurpose.
Proof. solve_decision. Defined.

Definition all_purposes : list AssetPurpose := [PRODUCT_IMAGE; SELLER_DOCUMENT; TRY_ON_SOURCE; POST_MEDIA].

Definition purpose_value (p : AssetPurpose) : string :=
  match p with
  | PRODUCT_IMAGE => "product_image" | SELLER_DOCUMENT => "seller_document"
  | TRY_ON_SOURCE => "try_on_source" | POST_MEDIA => "post_media"
  end.

(** [AssetPurpose(value)]; [None] is the [ValueError]. *)
Definition asset_purpose (v : string) : option AssetPurpose := List.find (λ p, purpose_value p =?s v) all_purposes.

Definition CONFIDENTIAL_PURPOSES : list AssetPurpose := [SELLER_DOCUMENT; TRY_ON_SOURCE].

Definition DOCUMENT_CONTENT_TYPES : list string := ["application/pdf"].

Definition is_confidential (purpose : string) : bool :=
  match asset_purpose purpose with Some p => p in_ CONFIDENTIAL_PURPOSES | None => true end.

Definition is_publicly_servable (status purpose : string) : bool := is_servable status && negb (is_confidential purpose).

Definition allowed_content_types (purpose : string) : list string :=
  match asset_purpose purpose with
  | None => []
  | Some SELLER_DOCUMENT => ALLOWED_CONTENT_TYPES ++ DOCUMENT_CONTENT_TYPES
  | Some _ => ALLOWED_CONTENT_TYPES
  end.

Definition prefix_of (p : AssetPurpose) : string :=
  match p with PRODUCT_IMAGE => "products" | SELLER_DOCUMENT => "documents" | TRY_ON_SOURCE => "try-on" | POST_MEDIA => "posts" end.

(** The text of [InvalidPurpose], or the key. *)
Definition storage_key (purpose owner_id asset_id : string) : string + string :=
  match asset_purpose purpose with
  | None => inl ("unknown purpose " +:+ repr_str purpose)
  | Some p => inr (prefix_of p +:+ "/" +:+ owner_id +:+ "/" +:+ asset_id)
  end.

Definition plan_registration_for (purpose filename content_type : string) (size_bytes : Z) : Decision :=
  match asset_purpose purpose with
  | None => refuse INVALID ("unknown purpose " +:+ repr_str purpose)
  | Some _ => plan_registration filename content_type size_bytes (Some (allowed_content_types purpose))
  end.

(** ** Where the bytes live *)

Definition DEFAULT_BUCKET := "media".

(** [key.split("/")[0]] *)
Definition first_segment (key : string) : string := default "" (head (split_on "/"%char key)).

Definition purpose_prefix (p : AssetPurpose) : string :=
  match storage_key (purpose_value p) "_" "_" with inr k => first_segment k | inl _ => "" end.

Definition public_prefixes : list string :=
  map purpose_prefix (List.filter (λ p, negb (is_confidential (purpose_value p))) all_purposes).

Definition confidential_prefixes : list string :=
  map purpose_prefix (List.filter (λ p, is_confidential (purpose_value p)) all_purposes).

(** The resources of the policy's one statement, which lets anyone read. *)
Definition public_resources (bucket : string) : list string :=
  map (λ prefix, "arn:aws:s3:::" +:+ bucket +:+ "/" +:+ prefix +:+ "/*") (sort_by Datatypes.id public_prefixes).

Definition may_issue_upload_url (status purpose : string) : Decision :=
  match asset_purpose purpose with
  | None => refuse INVALID ("unknown purpose " +:+ repr_str purpose)
  | Some _ =>
      if status =?s value QUARANTINED then
        {| outcome := OK; new_status := None; event := None; detail := "upload permitted" |}
      else refuse NOT_ALLOWED ("upload is only permitted while quarantined (status is " +:+ status +:+ ")")
  end.

(** ** Lemmas *)

Lemma media_status_value s : media_status (value s) = Some s.
Proof. by destruct s. Qed.

Lemma media_status_inv v s : media_status v = Some s → v = value s.
Proof. intros H. apply find_elem in H as [_ H]. by apply bool_decide_eq_true in H. Qed.

Lemma asset_purpose_inv v p : asset_purpose v = Some p → v = purpose_value p.
Proof. intros H. apply find_elem in H as [_ H]. by apply bool_decide_eq_true in H. Qed.

(** The decisions an existing asset is subject to. *)
Inductive operation := ScanStart | ScanResult (infected : bool) | Delete.

Definition plan (op : operation) (current : MediaStatus) : Decision :=
  match op with
  | ScanStart => plan_scan_start current
  | ScanResult infected => plan_scan_result current infected
  | Delete => plan_delete current
  end.

Definition event_for (from to : MediaStatus) : option string :=
  match from, to with
  | (QUARANTINED | CLEAN), SCANNING => Some EVENT_SCAN_STARTED
  | SCANNING, CLEAN => Some EVENT_PUBLISHED
  | SCANNING, INFECTED => Some EVENT_QUARANTINED
  | DELETED, _ => None
  | _, DELETED => Some EVENT_DELETED
  | _, _ => None
  end.

(** The life of an asset. *)
Definition asset_life : Lifecycle.lifecycle MediaStatus.
Proof.
  refine {| Lifecycle.initial := λ e s, e = EVENT_REGISTERED ∧ s = QUARANTINED;
            Lifecycle.move := λ s s' e, event_for s s' = Some e; Lifecycle.counts := λ _, true |}; done.
Defined.

(** An accepted decision announces a move, or keeps the state. *)
Lemma media_plan_ok op current : ok (plan op current) = true →
  ∃ to, new_status (plan op current) = Some to ∧
    ((∃ e, event (plan op current) = Some e ∧ event_for current to = Some e) ∨
     event (plan op current) = None ∧ to = current).
Proof.
  destruct op as [|infected|], current; cbn; try destruct infected; try done; intros _; eexists;
    (split; [reflexivity|]); first [left; eexists; split; reflexivity|right; by split].
Qed.

(** *** Journeys *)

(** What must have happened, in this order, for an asset to be in a state. *)
Definition milestones (s : MediaStatus) : list string :=
  match s with
  | QUARANTINED => [EVENT_REGISTERED]
  | SCANNING => [EVENT_REGISTERED; EVENT_SCAN_STARTED]
  | CLEAN => [EVENT_REGISTERED; EVENT_SCAN_STARTED; EVENT_PUBLISHED]
  | INFECTED => [EVENT_REGISTERED; EVENT_SCAN_STARTED; EVENT_QUARANTINED]
  | DELETED => [EVENT_REGISTERED; EVENT_DELETED]
  end.

Lemma milestones_step from to e : event_for from to = Some e →
  milestones to `sublist_of` milestones from ∨ ∃ l, milestones to = l ++ [e] ∧ l `sublist_of` milestones from.
Proof.
  intros He. destruct from, to; cbn in He; simplify_eq; cbn;
    first [left; repeat constructor; fail
      | right; eexists [_]; split; [reflexivity|repeat constructor]
      | right; eexists [_; _]; split; [reflexivity|repeat constructor]].
Qed.

Lemma life_milestones es s : Lifecycle.journey asset_life None es s → milestones s `sublist_of` es.
Proof.
  apply (Lifecycle.journey_milestones asset_life milestones); [by intros e ? [-> ->]|]. intros from to e. apply milestones_step.
Qed.

(** No event of a kind leads back to where it cannot have happened. *)
Lemma life_since es s : Lifecycle.journey asset_life None es s →
  (EVENT_SCAN_STARTED ∈ es → s ≠ QUARANTINED) ∧ (EVENT_QUARANTINED ∈ es → s ∈ TERMINAL) ∧
  (EVENT_DELETED ∈ es → s = DELETED).
Proof.
  intros H. split_and!; revert H;
    [apply (Lifecycle.journey_since asset_life _ (λ s, s ≠ QUARANTINED))
    |apply (Lifecycle.journey_since asset_life _ (λ s, s ∈ TERMINAL))
    |apply (Lifecycle.journey_since asset_life _ (λ s, s = DELETED))]; try (by intros e ? [-> _]);
    intros from to e He Hor; cbn in He; destruct from, to; cbn in He; simplify_eq; try done; try by_compute;
    destruct Hor as [Hor|Hor]; try done; unfold TERMINAL in Hor; elem_cases Hor.
Qed.

(** What the announcements of an asset tell of its state when handlers overlap:
    what must have happened for it did, and an asset a scan has read is not taken
    for one that was never scanned. *)
Definition announced (es : list string) (s : MediaStatus) : Prop :=
  milestones s `sublist_of` es ∧ (EVENT_SCAN_STARTED ∈ es → s ≠ QUARANTINED).

Lemma journey_announced es s : Lifecycle.journey asset_life None es s → announced es s.
Proof. intros H. split; [by apply life_milestones|by apply (life_since es s)]. Qed.

(** A decision on an older state, announced after everything else. *)
Lemma announced_later es0 es from to e : announced es0 from → es0 `prefix_of` es → event_for from to = Some e → announced (es ++ [e]) to.
Proof.
  intros [Hm _] [tail ->] He. split.
  - destruct (milestones_step _ _ _ He) as [Hs|(l & -> & Hs)].
    + etrans; [exact Hs|]. etrans; [exact Hm|]. rewrite <-app_assoc. by apply sublist_inserts_r.
    + apply sublist_app; [|done]. etrans; [exact Hs|]. etrans; [exact Hm|]. by apply sublist_inserts_r.
  - intros _ ->. by destruct from.
Qed.

(** The key the service derives is under an open prefix exactly when the
    purpose is public. *)
Lemma derived_key_is_guarded purpose owner_id asset_id key :
  storage_key purpose owner_id asset_id = inr key →
  first_segment key ∈ public_prefixes ↔ is_confidential purpose = false.
Proof.
  unfold storage_key. destruct (asset_purpose purpose) as [p|] eqn:E; [|done]. intros [= <-].
  apply asset_purpose_inv in E as ->.
  assert (Hf : first_segment (prefix_of p +:+ "/" +:+ owner_id +:+ "/" +:+ asset_id) = prefix_of p).
  { unfold first_segment. change ("/" +:+ owner_id +:+ "/" +:+ asset_id) with (String "/" (owner_id +:+ "/" +:+ asset_id)).
    rewrite split_on_app; [done|]. apply lacks_char. by destruct p. }
  rewrite Hf. destruct p; split; intros H; try done; try by_compute; exfalso; revert H; by_compute.
Qed.

End MediaRules.
