(* ===== verification/MediaService.v ===== *)
(** * The media service

    [media_service.py] over the tables of [models.py], with the address
    functions of [storage.py]; the client that signs an upload address is the
    object store's and is a parameter.  No handler locks the row it loads, so
    histories are of two kinds: requests one after the other ([media_step]), and
    requests that load, wait and commit in any order ([overlap_step]), where a
    stale verdict can bring back an infected asset ([stale_verdict_republishes]). *)

From S2P Require Import Prelude PyValue PyJson PyText Session Lifecycle MediaRules.
Import PyText Lifecycle MediaRules.

Module MediaService.

Record MediaAsset := {
  a_id : string;
  a_owner_id : string;
  a_filename : string;
  a_content_type : string;
  a_size_bytes : Z;
  a_storage_key : option string;
  a_checksum : option string;
  a_purpose : string;
  a_status : string;
  a_scan_detail : option string;
  a_created_at : Z;
  a_updated_at : Z;
}.

Record db := {
  assets : list MediaAsset;
  md_outbox : list OutboxMessage;
  md_keys : key_table;
  md_draws : nat;
}.

Definition with_assets f d : db :=
  {| assets := f (assets d); md_outbox := md_outbox d; md_keys := md_keys d; md_draws := md_draws d |}.
Definition with_outbox f d : db :=
  {| assets := assets d; md_outbox := f (md_outbox d); md_keys := md_keys d; md_draws := md_draws d |}.
Definition with_keys f d : db :=
  {| assets := assets d; md_outbox := md_outbox d; md_keys := f (md_keys d); md_draws := md_draws d |}.
Definition draw d : db :=
  {| assets := assets d; md_outbox := md_outbox d; md_keys := md_keys d; md_draws := S (md_draws d) |}.

Record MediaRegisterRequest := {
  mr_owner_id : string;
  mr_purpose : string;
  mr_filename : string;
  mr_content_type : string;
  mr_size_bytes : Z;
  mr_storage_key : option string;
  mr_checksum : option string;
}.

Record MediaResponse := {
  re_asset : MediaAsset;
  re_servable : bool;
  re_publicly_servable : bool;
}.

Definition to_response (a : MediaAsset) : MediaResponse :=
  {| re_asset := a; re_servable := is_servable (a_status a);
     re_publicly_servable := is_publicly_servable (a_status a) (a_purpose a) |}.

Definition event_payload (a : MediaAsset) : list (string * json) :=
  [("media_id", JStr (a_id a)); ("owner_id", JStr (a_owner_id a)); ("status", JStr (a_status a));
   ("purpose", JStr (a_purpose a)); ("content_type", JStr (a_content_type a)); ("filename", JStr (a_filename a))].

Definition asset_event (a : MediaAsset) (event : string) (now : Z) : OutboxMessage :=
  {| aggregate_type := "Media"; aggregate_id := a_id a; msg_type := event; payload := event_payload a; msg_created_at := now |}.

Definition _emit (a : MediaAsset) (event : string) (now : Z) : M db unit :=
  exec (with_outbox (λ ms, ms ++ [asset_event a event now])).

Definition _reject {A} (d : Decision) : M db A :=
  if bool_decide (outcome d = INVALID) then raise (Http 422 (detail d)) else raise (Http 409 (detail d)).

Definition _load (media_id : string) : M db MediaAsset :=
  found <- query (λ d, List.find (λ a, a_id a =?s media_id) (assets d)) ;;
  match found with Some a => ret a | None => raise (Http 404 "Media not found") end.

(** [MediaStatus(asset.status)] *)
Definition status_of_asset (a : MediaAsset) : M db MediaStatus :=
  match media_status (a_status a) with Some s => ret s | None => raise (Raised "not a valid MediaStatus") end.

(** The attributes [_apply] assigns. *)
Definition set_status (st : string) (scan_detail : option string) (a : MediaAsset) : MediaAsset :=
  {| a_id := a_id a; a_owner_id := a_owner_id a; a_filename := a_filename a; a_content_type := a_content_type a;
     a_size_bytes := a_size_bytes a; a_storage_key := a_storage_key a; a_checksum := a_checksum a;
     a_purpose := a_purpose a; a_status := st;
     a_scan_detail := match scan_detail with Some x => Some x | None => a_scan_detail a end;
     a_created_at := a_created_at a; a_updated_at := a_updated_at a |}.

Definition set_key (key : string) (a : MediaAsset) : MediaAsset :=
  {| a_id := a_id a; a_owner_id := a_owner_id a; a_filename := a_filename a; a_content_type := a_content_type a;
     a_size_bytes := a_size_bytes a; a_storage_key := Some key; a_checksum := a_checksum a;
     a_purpose := a_purpose a; a_status := a_status a; a_scan_detail := a_scan_detail a;
     a_created_at := a_created_at a; a_updated_at := a_updated_at a |}.

(** What the session writes for an object it loaded as [loaded] and finds
    [edited]: the columns that were given another value, on the row as it is by
    then; [updated_at] goes with any of them, and nothing is written when no
    column changed. *)
Definition changed {A} `{EqDecision A} (col : MediaAsset → A) (loaded edited : MediaAsset) : bool :=
  negb (bool_decide (col edited = col loaded)).

Definition flush_asset (loaded edited : MediaAsset) (now : Z) (row : MediaAsset) : MediaAsset :=
  if changed a_status loaded edited || changed a_scan_detail loaded edited || changed a_storage_key loaded edited then
    {| a_id := a_id row; a_owner_id := a_owner_id row; a_filename := a_filename row; a_content_type := a_content_type row;
       a_size_bytes := a_size_bytes row;
       a_storage_key := if changed a_storage_key loaded edited then a_storage_key edited else a_storage_key row;
       a_checksum := a_checksum row; a_purpose := a_purpose row;
       a_status := if changed a_status loaded edited then a_status edited else a_status row;
       a_scan_detail := if changed a_scan_detail loaded edited then a_scan_detail edited else a_scan_detail row;
       a_created_at := a_created_at row; a_updated_at := now |}
  else row.

Definition update_asset (media_id : string) (f : MediaAsset → MediaAsset) : M db unit :=
  exec (with_assets (update_where (λ a, a_id a =?s media_id) f)).

(** [not asset.storage_key] *)
Definition no_key (a : MediaAsset) : bool := match a_storage_key a with Some k => is_empty k | None => true end.

(** [s.rstrip("/")] *)
Definition rstrip_slash : string → string := rstrip_by (λ c, bool_decide (c = Ascii.ascii_of_N 47)).

Section handlers.
Context (uuid4 : nat → string) (sign : string → string → string) (endpoint bucket : string).
Context (fault : db → option string).

Definition public_url (key : string) : string := rstrip_slash endpoint +:+ "/" +:+ bucket +:+ "/" +:+ key.

Definition UPLOAD_URL_TTL_SECONDS : Z := 900.

Record Upload := { up_url : string; up_content_type : string; up_expires_in : Z; up_storage_key : string }.

(** [sign] is the client's [generate_presigned_url]. *)
Definition presigned_upload_url (key content_type : string) : Upload :=
  {| up_url := sign key content_type; up_content_type := content_type; up_expires_in := UPLOAD_URL_TTL_SECONDS;
     up_storage_key := key |}.

Definition _apply (asset : MediaAsset) (decision : Decision) (scan_detail : option string) (now : Z) : M db MediaResponse :=
  if negb (ok decision) then _reject decision
  else
    let edited := set_status (default "" (value <$> new_status decision)) scan_detail asset in
    update_asset (a_id asset) (flush_asset asset edited now) ;;;
    (match event decision with Some e => _emit edited e now | None => ret tt end) ;;;
    commit fault ;;;
    ret (to_response edited).

Definition new_asset (id : string) (r : MediaRegisterRequest) (decision : Decision) (now : Z) : MediaAsset :=
  {| a_id := id; a_owner_id := mr_owner_id r; a_filename := mr_filename r; a_content_type := mr_content_type r;
     a_size_bytes := mr_size_bytes r; a_storage_key := mr_storage_key r; a_checksum := mr_checksum r;
     a_purpose := mr_purpose r; a_status := default "" (value <$> new_status decision); a_scan_detail := None;
     a_created_at := now; a_updated_at := now |}.

(** [storage_key(...)] on a handler's path: [InvalidPurpose] is not caught. *)
Definition derive_key (a : MediaAsset) : M db string :=
  match storage_key (a_purpose a) (a_owner_id a) (a_id a) with inr k => ret k | inl e => raise (Raised e) end.

Definition flush : M db unit :=
  e <- query fault ;; match e with None => ret tt | Some text => raise (Raised text) end.

Definition register_media (r : MediaRegisterRequest) (idempotency_key : string) (now : Z) : M db MediaResponse :=
  known <- query (λ d, dict_get (md_keys d) idempotency_key) ;;
  match known with
  | Some (Some id) => asset <- _load id ;; ret (to_response asset)
  | Some None => raise (Http 409 "Duplicate request still in flight")
  | None =>
      exec (with_keys (λ ks, ks ++ [(idempotency_key, None)])) ;;;
      let decision := plan_registration_for (mr_purpose r) (mr_filename r) (mr_content_type r) (mr_size_bytes r) in
      if negb (ok decision) then rollback ;;; _reject decision
      else
        n <- query md_draws ;;
        exec draw ;;;
        let inserted := new_asset (uuid4 n) r decision now in
        exec (with_assets (λ rows, rows ++ [inserted])) ;;;
        flush ;;;
        asset <- (if no_key inserted then
                    key <- derive_key inserted ;;
                    update_asset (a_id inserted) (flush_asset inserted (set_key key inserted) now) ;;;
                    ret (set_key key inserted)
                  else ret inserted) ;;
        _emit asset (default "" (event decision)) now ;;;
        exec (with_keys (λ ks, dict_set ks idempotency_key (Some (a_id asset)))) ;;;
        commit fault ;;;
        ret (to_response asset)
  end.

(** What the three handlers that take a decision do with the asset they loaded. *)
Definition decide_on (op : operation) (asset : MediaAsset) (why : option string) (now : Z) : M db MediaResponse :=
  current <- status_of_asset asset ;; _apply asset (plan op current) why now.

Definition start_scan (media_id : string) (now : Z) : M db MediaResponse :=
  asset <- _load media_id ;; decide_on ScanStart asset None now.

Definition record_scan_result (media_id : string) (infected : bool) (why : option string) (now : Z) : M db MediaResponse :=
  asset <- _load media_id ;; decide_on (ScanResult infected) asset why now.

Definition delete_media (media_id : string) (now : Z) : M db MediaResponse :=
  asset <- _load media_id ;; decide_on Delete asset None now.

Definition get_media (media_id : string) : M db MediaResponse :=
  asset <- _load media_id ;; ret (to_response asset).

(** The key and the public address. *)
Definition get_location (media_id : string) : M db (string * string) :=
  asset <- _load media_id ;;
  if is_confidential (a_purpose asset) then raise (Http 404 "Media not found")
  else if negb (is_servable (a_status asset)) then
    raise (Http 409 ("media is not servable (status " +:+ a_status asset +:+ ")"))
  else if no_key asset then raise (Http 404 "no storage key recorded")
  else let key := default "" (a_storage_key asset) in ret (key, public_url key).

(** What [get_upload_url] does with the asset it loaded.  The commit has no
    handler. *)
Definition issue_upload_url (asset : MediaAsset) (now : Z) : M db Upload :=
  let decision := may_issue_upload_url (a_status asset) (a_purpose asset) in
  if negb (ok decision) then _reject decision
  else if no_key asset then
    key <- derive_key asset ;;
    update_asset (a_id asset) (flush_asset asset (set_key key asset) now) ;;;
    failed <- try_commit fault ;;
    match failed with
    | Some e => raise (Raised e)
    | None => ret (presigned_upload_url key (a_content_type asset))
    end
  else ret (presigned_upload_url (default "" (a_storage_key asset)) (a_content_type asset)).

Definition get_upload_url (media_id : string) (now : Z) : M db Upload :=
  asset <- _load media_id ;; issue_upload_url asset now.

End handlers.

(** ** What a request commits *)

Definition state_of (a : MediaAsset) : option MediaStatus := media_status (a_status a).

(** What was announced of an asset. *)
Definition told_of (id : string) (d : db) : list string := events_of asset_life id (md_outbox d).

(** The columns no handler changes, and the events carry. *)
Definition identity (a : MediaAsset) := (a_id a, a_owner_id a, a_purpose a, a_content_type a, a_filename a).

Lemma identity_id a r : identity a = identity r → a_id a = a_id r.
Proof. by intros [= -> _ _ _ _]. Qed.

Lemma identity_payload a r : identity a = identity r → a_status a = a_status r → event_payload a = event_payload r.
Proof. unfold event_payload. by intros [= -> -> -> -> ->] ->. Qed.

Lemma flush_identity loaded edited now r : identity (flush_asset loaded edited now r) = identity r.
Proof. unfold flush_asset. by destruct (_ || _). Qed.

Lemma flush_id loaded edited now r : a_id (flush_asset loaded edited now r) = a_id r.
Proof. apply identity_id, flush_identity. Qed.

Lemma flush_status loaded edited now r :
  a_status (flush_asset loaded edited now r) = if changed a_status loaded edited then a_status edited else a_status r.
Proof. unfold flush_asset. destruct (changed a_status loaded edited) eqn:E; cbn [orb]; [done|]. by destruct (_ || _). Qed.

Lemma value_changed st why a s : media_status (a_status a) = Some s →
  changed a_status a (set_status (value st) why a) = negb (bool_decide (st = s)).
Proof.
  intros Hs%media_status_inv. unfold changed. cbn. rewrite Hs. f_equal. apply bool_decide_ext. split; [by destruct st, s|by intros ->].
Qed.

Section tables.
Context (uuid4 : nat → string) (story : list string → MediaStatus → Prop).

(** Every asset's announcements tell its story, and the last carries it. *)
Definition media_table (d : db) : Prop :=
  table_ok asset_life a_id state_of event_payload uuid4 (λ _, None) (λ _, story) (assets d) (md_outbox d) (md_draws d).

Lemma media_row d a : media_table d → a ∈ assets d → ∃ s, a_status a = value s ∧ story (told_of (a_id a) d) s ∧
  payload <$> last (messages_of (a_id a) (md_outbox d)) = Some (event_payload a).
Proof.
  intros H Ha. destruct (rows_told _ _ _ _ _ _ _ _ _ _ H a Ha) as [s [H1 H2 [H3|[_ []]]]]; [|done]. exists s.
  split_and!; [by apply media_status_inv|done|done].
Qed.

Lemma media_reject_uncommitting {A} dec : uncommitting (_reject (A := A) dec).
Proof. unfold _reject. monadic. Qed.

Lemma media_load_cases id d :
  (∃ a, _load id (Session d d) = (Session d d, inr a) ∧ a ∈ assets d ∧ a_id a = id) ∨
  _load id (Session d d) = (Session d d, inl (Http 404 "Media not found")).
Proof.
  unfold _load. rewrite bind_query. cbn [working]. destruct (List.find _ _) as [a|] eqn:E; [left|by right].
  apply find_elem in E as [Ha E]. apply bool_decide_eq_true in E. by exists a.
Qed.

(** A decision on an asset as it was loaded, committed on the row [r] it has now. *)
Lemma apply_table fault op asset r current why now d :
  media_table d → r ∈ assets d → identity asset = identity r → media_status (a_status asset) = Some current →
  (∀ s to e, a_status r = value s → story (told_of (a_id r) d) s → event_for current to = Some e → story (told_of (a_id r) d ++ [e]) to) →
  media_table (run (_apply fault asset (plan op current) why now) d).1.
Proof.
  intros Hok Hr Hid Hst Hstory. unfold run, _apply. destruct (ok _) eqn:Eok; cbn [negb].
  2:{ pose proof (media_reject_uncommitting (A := MediaResponse) (plan op current) (Session d d)) as H.
      destruct (_reject _ _) as [s r']. cbn in *. by rewrite H. }
  destruct (media_plan_ok _ _ Eok) as (to & Hto & Hev). rewrite Hto. cbn [default fmap option_fmap option_map Datatypes.id].
  change (id (value to)) with (value to). unfold update_asset. rewrite bind_exec. cbn [working committed]. rewrite (identity_id _ _ Hid).
  pose proof (value_changed to why asset current Hst) as Hch.
  destruct Hev as [(e & -> & He)|[-> ->]]; unfold _emit; symex; (destruct (fault _); [done|]); cbn [fst committed].
  - assert (Hne : to ≠ current) by (intros ->; by destruct current). rewrite bool_decide_false in Hch by done.
    unfold media_table. cbn [assets md_outbox md_draws with_assets with_outbox].
    eapply table_amend; [exact Hok|done|intros x; apply flush_id|by cbn; apply identity_id| |].
    + apply identity_payload; [by rewrite flush_identity|]. by rewrite flush_status, Hch.
    + intros s Hs Hes. exists to. split; [unfold state_of; rewrite flush_status, Hch; apply media_status_value|].
      rewrite events_snoc by (by cbn; apply identity_id). cbn [counts asset_life]. apply (Hstory s); [|done|done]. by apply media_status_inv.
  - rewrite bool_decide_true in Hch by done. unfold media_table. cbn [assets md_outbox md_draws with_assets with_outbox].
    eapply table_touch; [exact Hok|done|intros x; apply flush_id| |].
    + unfold state_of. by rewrite flush_status, Hch.
    + apply identity_payload; [apply flush_identity|]. by rewrite flush_status, Hch.
Qed.

Lemma decided_table fault op asset r why now d :
  media_table d → r ∈ assets d → identity asset = identity r →
  (∀ current s to e, media_status (a_status asset) = Some current → a_status r = value s → story (told_of (a_id r) d) s →
     event_for current to = Some e → story (told_of (a_id r) d ++ [e]) to) →
  media_table (run (decide_on fault op asset why now) d).1.
Proof.
  intros Hok Hr Hid Hstory. unfold run, decide_on, status_of_asset. destruct (media_status _) as [current|] eqn:E; [|done].
  rewrite bind_ret. apply (apply_table fault op asset r current why now d); [done..|]. intros s to e ???. by eapply Hstory.
Qed.

Lemma issue_table sign fault asset r now d :
  media_table d → r ∈ assets d → identity asset = identity r → media_table (run (issue_upload_url sign fault asset now) d).1.
Proof.
  intros Hok Hr Hid. unfold run, issue_upload_url. destruct (negb (ok _)).
  { pose proof (media_reject_uncommitting (A := Upload) (may_issue_upload_url (a_status asset) (a_purpose asset)) (Session d d)) as H.
    destruct (_reject _ _). cbn in *. by rewrite H. }
  destruct (no_key asset); [|done]. unfold derive_key. destruct (storage_key _ _ _) as [e|key]; [done|].
  unfold update_asset. symex. rewrite bind_try_commit. cbn [working committed]. destruct (fault _); [done|].
  unfold media_table. cbn. rewrite (identity_id _ _ Hid).
  assert (Hs : a_status (flush_asset asset (set_key key asset) now r) = a_status r).
  { rewrite flush_status. unfold changed. by rewrite bool_decide_true. }
  eapply table_touch; [exact Hok|done|intros x; apply flush_id|unfold state_of; by rewrite Hs|].
  apply identity_payload; [apply flush_identity|done].
Qed.

Lemma media_registration_ok p fn ct sz : ok (plan_registration_for p fn ct sz) = true →
  is_Some (asset_purpose p) ∧ new_status (plan_registration_for p fn ct sz) = Some QUARANTINED ∧
  event (plan_registration_for p fn ct sz) = Some EVENT_REGISTERED.
Proof.
  unfold plan_registration_for. destruct (asset_purpose p) eqn:E; [|done]. unfold plan_registration.
  repeat case_match; done.
Qed.

Lemma register_table fault r key now d `{!Inj (=) (=) uuid4} : story [EVENT_REGISTERED] QUARANTINED →
  media_table d → media_table (run (register_media uuid4 fault r key now) d).1.
Proof.
  intros Hstory Hok. unfold run, register_media. rewrite bind_query. cbn [working].
  destruct (dict_get _ _) as [[id|]|]; [|done|].
  { destruct (media_load_cases id d) as [(a & E & _)|E]; [by rewrite (bind_inr_eq _ _ _ _ _ E)|by rewrite (bind_inl_eq _ _ _ _ _ E)]. }
  rewrite bind_exec. cbn [working committed]. set (dec := plan_registration_for _ _ _ _).
  destruct (ok dec) eqn:Eok; cbn [negb].
  2:{ rewrite bind_rollback. cbn [committed]. pose proof (media_reject_uncommitting (A := MediaResponse) dec (Session d d)) as H.
      destruct (_reject _ _). cbn in *. by rewrite H. }
  destruct (media_registration_ok _ _ _ _ Eok) as (Hp & Hn & He). fold dec in Hn, He.
  rewrite bind_query, !bind_exec. cbn [working committed]. cbv zeta.
  unfold flush. rewrite bind_assoc, bind_query. cbn [working]. destruct (fault _); [done|]. rewrite bind_ret.
  set (a := new_asset _ _ _ _).
  assert (Ha : a_status a = value QUARANTINED) by (subst a; cbn; by rewrite Hn).
  assert (Hnew : ∀ ms, payload ms = event_payload a → aggregate_id ms = a_id a → msg_type ms = EVENT_REGISTERED →
    table_ok asset_life a_id state_of event_payload uuid4 (λ _, None) (λ _, story) (assets d ++ [a]) (md_outbox d ++ [ms]) (S (md_draws d))).
  { intros ms E1 E2 E3. eapply table_register; [done|done|exact Hok|done|done|done| |done|by rewrite E3].
    unfold state_of. rewrite Ha. apply media_status_value. }
  destruct (no_key a).
  - unfold derive_key, storage_key. destruct Hp as [p Hp]. cbn [a_purpose new_asset a]. rewrite Hp.
    unfold update_asset, _emit. symex. destruct (fault _); [done|]. cbn [fst committed ret]. unfold media_table.
    cbn [assets md_outbox md_draws with_assets with_outbox with_keys draw].
    set (edited := set_key _ a).
    assert (Hs : a_status (flush_asset a edited now a) = a_status a).
    { rewrite flush_status. unfold changed. by rewrite bool_decide_true. }
    eapply table_touch; [by apply Hnew; [..|cbn; rewrite He]|apply elem_of_app; right; by left|intros x; apply flush_id|unfold state_of; by rewrite Hs|].
    apply identity_payload; [apply flush_identity|done].
  - rewrite bind_ret. unfold _emit. symex. destruct (fault _); [done|]. cbn [fst committed ret]. unfold media_table.
    cbn [assets md_outbox md_draws with_assets with_outbox with_keys draw]. apply Hnew; [done|done|]. cbn. by rewrite He.
Qed.

End tables.

(** Handlers that do not overlap: the story is a legal journey. *)
Definition media_ok (uuid4 : nat → string) : db → Prop := media_table uuid4 (journey asset_life None).

(** ** Histories *)

Inductive request :=
| Register (r : MediaRegisterRequest) (key : string)
| StartScan (id : string)
| Verdict (id : string) (infected : bool) (why : option string)
| DeleteMedia (id : string)
| UploadUrl (id : string).

Definition serve (uuid4 : nat → string) (sign : string → string → string) (fault : db → option string) (now : Z)
    (r : request) (d : db) : db :=
  match r with
  | Register r key => (run (register_media uuid4 fault r key now) d).1
  | StartScan id => (run (start_scan fault id now) d).1
  | Verdict id infected why => (run (record_scan_result fault id infected why now) d).1
  | DeleteMedia id => (run (delete_media fault id now) d).1
  | UploadUrl id => (run (get_upload_url sign fault id now) d).1
  end.

Inductive media_step (uuid4 : nat → string) (sign : string → string → string) (d : db) : db → Prop :=
| media_request fault now r : media_step uuid4 sign d (serve uuid4 sign fault now r d).

(** A handler that loads an asset does the rest on it, or nothing. *)
Lemma loaded_run {A} id (k : MediaAsset → M db A) d :
  (run (bind (_load id) k) d).1 = d ∨ ∃ a, a ∈ assets d ∧ a_id a = id ∧ run (bind (_load id) k) d = run (k a) d.
Proof.
  unfold run. destruct (media_load_cases id d) as [(a & E & Ha & Hid)|E].
  - right. exists a. by rewrite (bind_inr_eq _ _ _ _ _ E).
  - left. by rewrite (bind_inl_eq _ _ _ _ _ E).
Qed.

Lemma decided_ok uuid4 fault op id why now d : media_ok uuid4 d →
  media_ok uuid4 (run (asset <- _load id ;; decide_on fault op asset why now) d).1.
Proof.
  intros Hok. destruct (loaded_run id (λ a, decide_on fault op a why now) d) as [->|(a & Ha & _ & ->)]; [done|].
  apply (decided_table _ _ fault op a a); [done..|]. intros current s to e Hs Hv Hj He.
  rewrite Hv, media_status_value in Hs. injection Hs as ->. by eapply journey_move.
Qed.

Lemma media_step_ok uuid4 sign d d' `{!Inj (=) (=) uuid4} : media_step uuid4 sign d d' → media_ok uuid4 d → media_ok uuid4 d'.
Proof.
  intros [fault now [r key|id|id infected why|id|id]] Hok; cbn [serve].
  - apply register_table; [done|by apply journey_start|done].
  - by apply (decided_ok uuid4 fault ScanStart).
  - by apply (decided_ok uuid4 fault (ScanResult infected)).
  - by apply (decided_ok uuid4 fault Delete).
  - unfold get_upload_url. destruct (loaded_run id (λ a, issue_upload_url sign fault a now) d) as [->|(a & Ha & _ & ->)]; [done|]. by apply (issue_table _ _ _ _ a a).
Qed.

(** ** Handlers that overlap *)

(** [_load] takes no lock: between it and the commit other requests run.  A
    request that has loaded its asset is held with the asset as it was loaded;
    [h_told] is what had been announced of the asset by then. *)
Inductive job := Decide (op : operation) (why : option string) | Issue.

Record held := { h_job : job; h_asset : MediaAsset; h_told : list string }.

Record world := World { w_db : db; w_held : list held }.

Definition finish (sign : string → string → string) (fault : db → option string) (now : Z) (h : held) (d : db) : db :=
  match h_job h with
  | Decide op why => (run (decide_on fault op (h_asset h) why now) d).1
  | Issue => (run (issue_upload_url sign fault (h_asset h) now) d).1
  end.

Inductive overlap_step (uuid4 : nat → string) (sign : string → string → string) (w : world) : world → Prop :=
| request_loads id job asset : (run (_load id) (w_db w)).2 = inr asset →
    overlap_step uuid4 sign w (World (w_db w) (w_held w ++ [{| h_job := job; h_asset := asset; h_told := told_of id (w_db w) |}]))
| request_finishes i h fault now : w_held w !! i = Some h →
    overlap_step uuid4 sign w (World (finish sign fault now h (w_db w)) (delete i (w_held w)))
| asset_registered fault r key now :
    overlap_step uuid4 sign w (World (run (register_media uuid4 fault r key now) (w_db w)).1 (w_held w)).

(** Requests handled one after the other are requests that happen not to overlap. *)
Lemma one_at_a_time uuid4 sign d d' hs : media_step uuid4 sign d d' → rtc (overlap_step uuid4 sign) (World d hs) (World d' hs).
Proof.
  assert (Hone : ∀ id job fault now {A} (k : MediaAsset → M db A),
    (∀ a, finish sign fault now {| h_job := job; h_asset := a; h_told := told_of id d |} d = (run (k a) d).1) →
    rtc (overlap_step uuid4 sign) (World d hs) (World (run (bind (_load id) k) d).1 hs)).
  { intros id job fault now A k Hk. destruct (media_load_cases id d) as [(a & E & _)|E]; unfold run at 1.
    - rewrite (bind_inr_eq _ _ _ _ _ E). change (let (s, r) := k a (Session d d) in (committed s, r)) with (run (k a) d). rewrite <-Hk.
      eapply rtc_l; [apply (request_loads _ _ (World d hs) id job a); unfold run; cbn [w_db]; by rewrite E|]. apply rtc_once. cbn [w_db w_held].
      pose proof (request_finishes uuid4 sign (World d (hs ++ [{| h_job := job; h_asset := a; h_told := told_of id d |}])) (length hs)
        {| h_job := job; h_asset := a; h_told := told_of id d |} fault now (list_lookup_middle hs [] _ _ eq_refl)) as Hf.
      cbn [w_db w_held] in Hf. by rewrite delete_middle, app_nil_r in Hf.
    - by rewrite (bind_inl_eq _ _ _ _ _ E). }
  intros [fault now [r key|id|id infected why|id|id]]; cbn [serve].
  - apply rtc_once. by apply (asset_registered _ _ (World d hs)).
  - by apply (Hone id (Decide ScanStart None) fault now).
  - by apply (Hone id (Decide (ScanResult infected) why) fault now).
  - by apply (Hone id (Decide Delete None) fault now).
  - by apply (Hone id Issue fault now).
Qed.

(** Nothing announced is taken back, and no asset is removed or becomes another. *)
Definition grows (d d' : db) : Prop :=
  (∃ ms, md_outbox d' = md_outbox d ++ ms) ∧ ∀ r, r ∈ assets d → ∃ r', r' ∈ assets d' ∧ identity r' = identity r.

Lemma media_grows_refl d : grows d d.
Proof. split; [exists []; by rewrite app_nil_r|]. intros r Hr. by exists r. Qed.

Lemma grows_update p loaded edited now rows ms d d' :
  assets d' = update_where p (flush_asset loaded edited now) (assets d ++ rows) → md_outbox d' = md_outbox d ++ ms → grows d d'.
Proof.
  intros Ea Eo. split; [by exists ms|]. intros r Hr. exists (if p r then flush_asset loaded edited now r else r). rewrite Ea. split.
  - apply elem_of_map. exists r. split; [done|]. apply elem_of_app. by left.
  - destruct (p r); [apply flush_identity|done].
Qed.

Lemma grows_told d d' id : grows d d' → told_of id d `prefix_of` told_of id d'.
Proof.
  intros [[ms E] _]. unfold told_of, events_of, messages_of. rewrite E, List.filter_app, map_app, List.filter_app. by eexists.
Qed.

Lemma finish_grows sign fault now h d : grows d (finish sign fault now h d).
Proof.
  unfold finish, run. destruct (h_job h) as [op why|].
  - unfold decide_on, status_of_asset. destruct (media_status _) as [current|]; [|apply media_grows_refl]. rewrite bind_ret. unfold _apply.
    destruct (ok _); cbn [negb].
    2:{ pose proof (media_reject_uncommitting (A := MediaResponse) (plan op current) (Session d d)) as H.
        destruct (_reject _ _). cbn in *. rewrite H. apply media_grows_refl. }
    unfold update_asset. rewrite bind_exec. cbn [working committed].
    destruct (event _); unfold _emit; symex; (destruct (fault _); [apply media_grows_refl|]); cbn [fst committed].
    + eapply (grows_update _ _ _ _ []); [by rewrite app_nil_r|done].
    + eapply (grows_update _ _ _ _ [] []); by rewrite app_nil_r.
  - unfold issue_upload_url. destruct (negb (ok _)).
    { pose proof (media_reject_uncommitting (A := Upload) (may_issue_upload_url (a_status (h_asset h)) (a_purpose (h_asset h))) (Session d d)) as H.
      destruct (_reject _ _). cbn in *. rewrite H. apply media_grows_refl. }
    destruct (no_key _); [|apply media_grows_refl]. unfold derive_key. destruct (storage_key _ _ _) as [e|key]; [apply media_grows_refl|].
    unfold update_asset. symex. rewrite bind_try_commit. cbn [working committed]. destruct (fault _); [apply media_grows_refl|].
    eapply (grows_update _ _ _ _ [] []); by rewrite app_nil_r.
Qed.

Lemma register_grows uuid4 fault r key now d : grows d (run (register_media uuid4 fault r key now) d).1.
Proof.
  unfold run, register_media. rewrite bind_query. cbn [working]. destruct (dict_get _ _) as [[id|]|]; [|apply media_grows_refl|].
  { destruct (media_load_cases id d) as [(a & E & _)|E];
      [rewrite (bind_inr_eq _ _ _ _ _ E)|rewrite (bind_inl_eq _ _ _ _ _ E)]; apply media_grows_refl. }
  rewrite bind_exec. cbn [working committed]. set (dec := plan_registration_for _ _ _ _). destruct (ok dec); cbn [negb].
  2:{ rewrite bind_rollback. cbn [committed]. pose proof (media_reject_uncommitting (A := MediaResponse) dec (Session d d)) as H.
      destruct (_reject _ _). cbn in *. rewrite H. apply media_grows_refl. }
  rewrite bind_query, !bind_exec. cbn [working committed]. cbv zeta.
  unfold flush. rewrite bind_assoc, bind_query. cbn [working]. destruct (fault _); [apply media_grows_refl|]. rewrite bind_ret.
  set (a := new_asset _ _ _ _). destruct (no_key a).
  - unfold derive_key. destruct (storage_key _ _ _) as [e|k]; [apply media_grows_refl|]. unfold update_asset, _emit. symex.
    destruct (fault _); [apply media_grows_refl|]. by eapply grows_update.
  - rewrite bind_ret. unfold _emit. symex. destruct (fault _); [apply media_grows_refl|]. split; [by eexists|].
    intros x Hx. exists x. split; [|done]. cbn. apply elem_of_app. by left.
Qed.

(** A held request is about an asset that is still there, as it was when loaded. *)
Definition held_ok (d : db) (h : held) : Prop :=
  ∃ r s, r ∈ assets d ∧ identity (h_asset h) = identity r ∧ a_status (h_asset h) = value s ∧
    announced (h_told h) s ∧ h_told h `prefix_of` told_of (a_id r) d.

Record world_ok (uuid4 : nat → string) (w : world) : Prop := {
  wo_table : media_table uuid4 announced (w_db w);
  wo_held : ∀ h, h ∈ w_held w → held_ok (w_db w) h;
}.

Lemma held_grows d d' h : grows d d' → held_ok d h → held_ok d' h.
Proof.
  intros Hg (r & s & Hr & Hid & Hs & Ha & Hp). destruct (proj2 Hg r Hr) as (r' & Hr' & Hid'). exists r', s.
  split_and!; [done|by rewrite Hid'|done|done|]. rewrite (identity_id _ _ Hid'). etrans; [exact Hp|by apply grows_told].
Qed.

Lemma finish_table uuid4 sign fault now h d : media_table uuid4 announced d → held_ok d h →
  media_table uuid4 announced (finish sign fault now h d).
Proof.
  intros Hok (r & s & Hr & Hid & Hs & Ha & Hp). unfold finish. destruct (h_job h) as [op why|]; [|by eapply issue_table].
  eapply decided_table; [done..|]. intros current s' to e Hc _ _ He. rewrite Hs, media_status_value in Hc. injection Hc as <-.
  by eapply announced_later.
Qed.

Lemma overlap_step_ok uuid4 sign w w' `{!Inj (=) (=) uuid4} : overlap_step uuid4 sign w w' → world_ok uuid4 w → world_ok uuid4 w'.
Proof.
  intros Hstep [H1 H2]. destruct Hstep as [id job asset Hl|i h fault now Hh|fault r key now]; constructor; cbn [w_db w_held].
  - done.
  - intros h [Hh| ->%list_elem_of_singleton]%elem_of_app; [by apply H2|]. unfold run in Hl.
    destruct (media_load_cases id (w_db w)) as [(a & E & Ha & <-)|E]; rewrite E in Hl; [|done]. injection Hl as ->.
    destruct (media_row _ _ _ _ H1 Ha) as (s & Hs & Hst & _). by exists asset, s.
  - apply finish_table; [done|]. apply H2. by eapply list_elem_of_lookup_2.
  - intros h' Hh'. eapply held_grows; [apply finish_grows|]. apply H2. apply (elem_of_delete_at _ _ _ _ Hh). by right.
  - apply register_table; [done|by apply journey_announced, journey_start|done].
  - intros h Hh. eapply held_grows; [apply register_grows|]. by apply H2.
Qed.

(** What handing out an address rests on, whatever the rows have to tell. *)
Lemma location_given endpoint bucket id d key url : (run (get_location endpoint bucket id) d).2 = inr (key, url) →
  ∃ a, a ∈ assets d ∧ a_id a = id ∧ a_storage_key a = Some key ∧ is_confidential (a_purpose a) = false ∧ a_status a = value CLEAN.
Proof.
  unfold run, get_location. destruct (media_load_cases id d) as [(a & E & Ha & <-)|E]; [|by rewrite (bind_inl_eq _ _ _ _ _ E)].
  rewrite (bind_inr_eq _ _ _ _ _ E). destruct (is_confidential _) eqn:Ec; [done|].
  destruct (negb (is_servable _)) eqn:Es; [done|]. destruct (no_key a) eqn:Ek; [done|]. cbn. intros [= Hk _]. exists a.
  unfold no_key in Ek. destruct (a_storage_key a) as [k|] eqn:Eak; [|done]. cbn in Hk. subst k.
  unfold is_servable in Es. bool_to_prop. by split_and!.
Qed.

Lemma upload_given sign fault asset now d upload : (run (issue_upload_url sign fault asset now) d).2 = inr upload →
  a_status asset = value QUARANTINED.
Proof.
  unfold run, issue_upload_url. destruct (negb (ok _)) eqn:Eok; [unfold _reject; by destruct (bool_decide _)|]. intros _.
  unfold may_issue_upload_url in Eok. destruct (asset_purpose _); [|done]. by case_bool_decide.
Qed.

(** C34 — Only what was scanned, and is public, is handed out.  Over any
    interleaving of registrations and of requests that load an asset and commit
    on it later, with any commit failing: an asset whose address is given out is
    not confidential, and it was announced registered, then a scan of it as
    started, then the asset as published; a request gives out an address to
    upload to only for an asset of which no scan had been announced when the
    request read it; and the last event carries the record as it stands.  When
    requests do not overlap, the history announced of an asset handed out is a
    legal one that ends in the clean state, with no infection found and no
    withdrawal, an address to upload to is given out only for an asset no scan
    has ever read, and an asset once found infected stays so until deleted;
    overlapping verdicts can bring such an asset back. *)
Theorem only_scanned_media_is_handed_out (uuid4 : nat → string) (sign : string → string → string)
    (endpoint bucket : string) (d0 : db) (Huuid : Inj (=) (=) uuid4) (Hok : media_ok uuid4 d0) :
  (∀ w, rtc (overlap_step uuid4 sign) (World d0 []) w →
     (∀ id key url, (run (get_location endpoint bucket id) (w_db w)).2 = inr (key, url) →
        ∃ a, a ∈ assets (w_db w) ∧ a_id a = id ∧ a_storage_key a = Some key ∧ is_confidential (a_purpose a) = false ∧
          milestones CLEAN `sublist_of` told_of id (w_db w)) ∧
     (∀ h fault now upload, h ∈ w_held w → (run (issue_upload_url sign fault (h_asset h) now) (w_db w)).2 = inr upload →
        EVENT_SCAN_STARTED ∉ h_told h ∧ h_told h `prefix_of` told_of (a_id (h_asset h)) (w_db w)) ∧
     (∀ a, a ∈ assets (w_db w) → payload <$> last (messages_of (a_id a) (md_outbox (w_db w))) = Some (event_payload a))) ∧
  (∀ d, rtc (media_step uuid4 sign) d0 d →
     (∀ id key url, (run (get_location endpoint bucket id) d).2 = inr (key, url) →
        journey asset_life None (told_of id d) CLEAN ∧ EVENT_QUARANTINED ∉ told_of id d ∧ EVENT_DELETED ∉ told_of id d) ∧
     (∀ fault now id upload, (run (get_upload_url sign fault id now) d).2 = inr upload → EVENT_SCAN_STARTED ∉ told_of id d) ∧
     (∀ a, a ∈ assets d → EVENT_QUARANTINED ∈ told_of (a_id a) d → a_status a = value INFECTED ∨ a_status a = value DELETED)).
Proof.
  split.
  - intros w Hreach. assert (H : world_ok uuid4 w).
    { eapply (rtc_invariant _ (world_ok uuid4)); [|exact Hreach|]; [intros; by eapply overlap_step_ok|]. constructor.
      - eapply table_weaken; [|exact Hok]. intros ???. apply journey_announced.
      - by intros h ?%not_elem_of_nil. }
    destruct H as [H1 H2]. split_and!.
    + intros id key url (a & Ha & <- & Hk & Hc & Hs)%location_given. exists a. split_and!; [done..|].
      destruct (media_row _ _ _ _ H1 Ha) as (s & Hs' & [Hm _] & _). rewrite Hs in Hs'. by replace CLEAN with s by (by destruct s).
    + intros h fault now upload Hh Hu%upload_given. destruct (H2 h Hh) as (r & s & _ & Hid & Hs & [_ Hq] & Hp).
      rewrite (identity_id _ _ Hid). split; [|done]. intros Hin%Hq. apply Hin. rewrite Hu in Hs. by destruct s.
    + intros a Ha. by destruct (media_row _ _ _ _ H1 Ha) as (s & _ & _ & Hl).
  - intros d Hreach. assert (H : media_ok uuid4 d).
    { eapply (rtc_invariant _ (media_ok uuid4)); [|exact Hreach|exact Hok]. intros; by eapply media_step_ok. }
    split_and!.
    + intros id key url (a & Ha & <- & _ & _ & Hs)%location_given. destruct (media_row _ _ _ _ H Ha) as (s & Hs' & Hj & _).
      assert (s = CLEAN) as -> by (rewrite Hs in Hs'; by destruct s).
      destruct (life_since _ _ Hj) as (_ & L2 & L3). split_and!; [done| |by intros ?%L3].
      intros Hin%L2. unfold TERMINAL in Hin. elem_cases Hin.
    + intros fault now id upload Hu. unfold get_upload_url, run in Hu.
      destruct (media_load_cases id d) as [(a & E & Ha & <-)|E]; [|by rewrite (bind_inl_eq _ _ _ _ _ E) in Hu].
      rewrite (bind_inr_eq _ _ _ _ _ E) in Hu. apply upload_given in Hu. destruct (media_row _ _ _ _ H Ha) as (s & Hs & Hj & _).
      intros Hin%(life_since _ _ Hj). apply Hin. rewrite Hu in Hs. by destruct s.
    + intros a Ha Hin. destruct (media_row _ _ _ _ H Ha) as (s & Hs & Hj & _). apply (life_since _ _ Hj) in Hin.
      rewrite Hs. unfold TERMINAL in Hin. elem_cases Hin; subst; auto.
Qed.

(** A caller's own key is stored as given: papers that should stay behind the
    closed prefixes can be put under an open one. *)
Example supplied_key_escapes_the_policy :
  let r := {| mr_owner_id := "o"; mr_purpose := "seller_document"; mr_filename := "id.pdf";
              mr_content_type := "application/pdf"; mr_size_bytes := 1; mr_storage_key := Some "products/o/x";
              mr_checksum := None |} in
  let d := (run (register_media unary_id (λ _, None) r "k" 1) {| assets := []; md_outbox := []; md_keys := []; md_draws := 0 |}).1 in
  map (λ a, (is_confidential (a_purpose a), default "" (a_storage_key a))) (assets d) = [(true, "products/o/x")] ∧
  first_segment "products/o/x" ∈ public_prefixes.
Proof. split; [vm_compute; reflexivity|by_compute]. Qed.

Definition no_media : db := {| assets := []; md_outbox := []; md_keys := []; md_draws := 0 |}.

Definition photo : MediaRegisterRequest :=
  {| mr_owner_id := "owner"; mr_purpose := "product_image"; mr_filename := "front.jpg"; mr_content_type := "image/jpeg";
     mr_size_bytes := 1000; mr_storage_key := None; mr_checksum := None |}.

Definition sample_requests : list request :=
  [Register photo "k"; UploadUrl ""; Verdict "" false None; StartScan ""; StartScan ""; Verdict "" false (Some "ok")].

Definition after (rs : list request) : db := foldl (λ d r, serve unary_id (λ k _, k) (λ _, None) 1 r d) no_media rs.

Lemma media_after_reachable rs : rtc (media_step unary_id (λ k _, k)) no_media (after rs).
Proof.
  unfold after. assert (H : ∀ d, rtc (media_step unary_id (λ k _, k)) d (foldl (λ d r, serve unary_id (λ k _, k) (λ _, None) 1 r d) d rs)); [|apply H].
  induction rs as [|r rs IH]; intros d; [apply rtc_refl|]. eapply rtc_l; [|apply IH]. by constructor.
Qed.

(** Two verdicts of one scan, both read before either is written. *)
Definition load_asset (id : string) (j : job) (w : world) : world :=
  match (run (_load id) (w_db w)).2 with
  | inr a => World (w_db w) (w_held w ++ [{| h_job := j; h_asset := a; h_told := told_of id (w_db w) |}])
  | inl _ => w
  end.

Definition finish_first (w : world) : world :=
  match w_held w !! 0%nat with
  | Some h => World (finish (λ k _, k) (λ _, None) 2 h (w_db w)) (delete 0%nat (w_held w))
  | None => w
  end.

Lemma load_asset_reach id j w : rtc (overlap_step unary_id (λ k _, k)) w (load_asset id j w).
Proof.
  unfold load_asset. destruct (run (_load id) (w_db w)).2 as [e|a] eqn:E; [done|]. apply rtc_once. by constructor.
Qed.

Lemma finish_first_reach w : rtc (overlap_step unary_id (λ k _, k)) w (finish_first w).
Proof. unfold finish_first. destruct (w_held w !! 0%nat) as [h|] eqn:E; [|done]. apply rtc_once. by constructor. Qed.

Definition both_read : world :=
  load_asset "" (Decide (ScanResult false) (Some "ok")) (load_asset "" (Decide (ScanResult true) (Some "EICAR"))
    (World (after [Register photo "k"; StartScan ""]) [])).

Definition both_written : world := finish_first (finish_first both_read).

Lemma media_after_overlaps rs : rtc (overlap_step unary_id (λ k _, k)) (World no_media []) (World (after rs) []).
Proof.
  pose proof (media_after_reachable rs) as H. induction H as [d|d d' d'' Hs H IH]; [done|]. etrans; [by apply one_at_a_time|done].
Qed.

Lemma both_written_reach : rtc (overlap_step unary_id (λ k _, k)) (World no_media []) both_written.
Proof.
  etrans; [apply (media_after_overlaps [Register photo "k"; StartScan ""])|]. unfold both_written, both_read.
  etrans; [apply load_asset_reach|]. etrans; [apply load_asset_reach|]. etrans; apply finish_first_reach.
Qed.

(** An infected asset is given out: the verdict that it is clean was read before
    the one that it is not was written, and is written after it. *)
Example stale_verdict_republishes :
  map a_status (assets (w_db (finish_first both_read))) = [value INFECTED] ∧
  map a_status (assets (w_db both_written)) = [value CLEAN] ∧
  told_of "" (w_db both_written) = [EVENT_REGISTERED; EVENT_SCAN_STARTED; EVENT_QUARANTINED; EVENT_PUBLISHED] ∧
  (run (get_location "http://localhost:9000/" "media" "") (w_db both_written)).2 =
    inr ("products/owner/", "http://localhost:9000/media/products/owner/").
Proof. split_and!; vm_compute; reflexivity. Qed.

Lemma only_scanned_media_is_handed_out_witness :
  let d := after sample_requests in
  (run (get_location "http://localhost:9000/" "media" "") d).2 =
    inr ("products/owner/", "http://localhost:9000/media/products/owner/") ∧
  journey asset_life None (told_of "" d) CLEAN ∧
  milestones CLEAN `sublist_of` told_of "" (w_db both_written).
Proof.
  cbv zeta. set (d := after sample_requests).
  assert (Hl : (run (get_location "http://localhost:9000/" "media" "") d).2 =
    inr ("products/owner/", "http://localhost:9000/media/products/owner/")) by (vm_compute; reflexivity).
  split; [exact Hl|].
  destruct (only_scanned_media_is_handed_out unary_id (λ k _, k) "http://localhost:9000/" "media" no_media unary_id_inj
    (no_rows_ok _ _ _ _ _ _ _)) as [HA HB].
  split; [exact (proj1 (proj1 (HB d (media_after_reachable _)) _ _ _ Hl))|].
  destruct (proj1 (HA both_written both_written_reach) "" _ _ (proj2 (proj2 (proj2 stale_verdict_republishes)))) as (a & _ & _ & _ & _ & Hm).
  exact Hm.
Defined.

End MediaService.
