(* ===== verification/ReviewRules.v ===== *)
(** * Review rules

    [review_rules.py] of the reviews service: who may review a purchase, what a
    rating may be, what a pile of ratings adds up to, and what reports and
    rulings do to a review.  Times are microseconds. *)

From S2P Require Import Prelude PyValue.

Module ReviewRules.

Definition MIN_RATING : Z := 1.
Definition MAX_RATING : Z := 5.
Definition REVIEW_WINDOW_DAYS : Z := 90.
Definition EDIT_WINDOW_DAYS : Z := 14.

(** [timedelta(days=n)] *)
Definition days (n : Z) : Z := n * 24 * 3600 * 1000000.

Inductive Verdict := ALLOWED | NOT_DELIVERED | NOT_IN_ORDER | ALREADY_REVIEWED | WINDOW_CLOSED | NOT_THE_BUYER.

#[global] Instance Verdict_eq : EqDecision Verdict.
Proof. solve_decision. Defined.

Definition DELIVERED_STATES : list string := ["DELIVERED"; "SETTLED"].

Record Eligibility := { verdict : Verdict; detail : option string }.

Definition allowed (e : Eligibility) : bool := bool_decide (verdict e = ALLOWED).

Definition http_status (e : Eligibility) : Z :=
  match verdict e with
  | ALLOWED => 200 | NOT_THE_BUYER => 403 | NOT_DELIVERED => 403 | NOT_IN_ORDER => 404
  | ALREADY_REVIEWED => 409 | WINDOW_CLOSED => 422
  end.

Definition refuse (v : Verdict) (why : string) : Eligibility := {| verdict := v; detail := Some why |}.

Definition may_review (buyer_id order_buyer_id seller_order_status : string) (product_ids_in_order : list string)
    (product_id : string) (delivered_at : option Z) (now : Z) (already_reviewed : bool) (window_days : Z)
    : Eligibility :=
  if negb (buyer_id =?s order_buyer_id) then refuse NOT_THE_BUYER "a purchase may only be reviewed by its buyer"
  else if negb (seller_order_status in_ DELIVERED_STATES) then
    refuse NOT_DELIVERED ("this order is " +:+ seller_order_status +:+
      "; a product can only be reviewed once it has been delivered")
  else if negb (product_id in_ product_ids_in_order) then
    refuse NOT_IN_ORDER "that product was not part of this order"
  else if already_reviewed then
    refuse ALREADY_REVIEWED
      "this purchase has already been reviewed; edit that review instead of adding another"
  else match delivered_at with
  | Some t =>
      if days window_days <? now - t then
        refuse WINDOW_CLOSED ("reviews close " +:+ dec window_days +:+ " days after delivery")
      else {| verdict := ALLOWED; detail := None |}
  | None => {| verdict := ALLOWED; detail := None |}
  end.

Definition may_edit (authored_at now window_days : Z) : bool := now - authored_at <=? days window_days.

(** The [ValueError]'s text, or the rating. *)
Definition validate_rating (repr : json → string) (value : json) (field : string) : string + Z :=
  match value with
  | JInt v =>
      if negb ((MIN_RATING <=? v) && (v <=? MAX_RATING)) then
        inl (field +:+ " must be between " +:+ dec MIN_RATING +:+ " and " +:+ dec MAX_RATING +:+ ", got " +:+ dec v)
      else inr v
  | _ => inl (field +:+ " must be a whole number of stars, got " +:+ py_repr repr value)
  end.

(** [average] is the exact quotient: the sum of the ratings and their number. *)
Record Aggregate := { average : option (Z * Z); count : Z }.

Definition known (a : Aggregate) : bool := 0 <? count a.

(** [[r for r in ratings if r is not None]] *)
Definition present (ratings : list (option Z)) : list Z := omap Datatypes.id ratings.

Definition aggregate_ratings (ratings : list (option Z)) : Aggregate :=
  match present ratings with
  | [] => {| average := None; count := 0 |}
  | rs => {| average := Some (sumZ Datatypes.id rs, Z.of_nat (length rs)); count := Z.of_nat (length rs) |}
  end.

Definition stars : list Z := [1; 2; 3; 4; 5].

Definition distribution (ratings : list (option Z)) : list (Z * Z) :=
  foldl (λ counts rating,
    match rating with
    | None => counts
    | Some r => match dict_get counts r with Some n => dict_set counts r (n + 1) | None => counts end
    end) (map (λ s, (s, 0)) stars) ratings.

(** The two arguments of the ranking's [quality_inputs]. *)
Definition quality_signal (a : Aggregate) : option (Z * Z) * Z := (average a, count a).

(** ** Moderation *)

Inductive ReportReason := ABUSIVE | SPAM | IRRELEVANT | PERSONAL_INFO | FAKE.

Definition all_reasons : list ReportReason := [ABUSIVE; SPAM; IRRELEVANT; PERSONAL_INFO; FAKE].

Definition reason_value (r : ReportReason) : string :=
  match r with
  | ABUSIVE => "abusive" | SPAM => "spam" | IRRELEVANT => "irrelevant" | PERSONAL_INFO => "personal_info" | FAKE => "fake"
  end.

(** [ReportReason(value)] *)
Definition report_reason (v : string) : option ReportReason := List.find (λ r, reason_value r =?s v) all_reasons.

Definition REPORTS_TO_HIDE : Z := 3.

Inductive ModerationState := VISIBLE | HIDDEN_PENDING_REVIEW | REMOVED | CLEARED.

#[global] Instance ModerationState_eq : EqDecision ModerationState.
Proof. solve_decision. Defined.

Definition state_value (s : ModerationState) : string :=
  match s with
  | VISIBLE => "visible" | HIDDEN_PENDING_REVIEW => "hidden_pending_review" | REMOVED => "removed" | CLEARED => "cleared"
  end.

Definition REPORTABLE_STATES : list ModerationState := [VISIBLE; HIDDEN_PENDING_REVIEW].
Definition PUBLIC_STATES : list ModerationState := [VISIBLE; CLEARED].

Definition _as_state (v : string) : option ModerationState :=
  List.find (λ s, state_value s =?s v) [VISIBLE; HIDDEN_PENDING_REVIEW; REMOVED; CLEARED].

Definition is_public (state : string) : bool :=
  match _as_state state with Some s => s in_ PUBLIC_STATES | None => false end.

Definition may_report (state : string) (reporter_is_author : bool) : Eligibility :=
  if reporter_is_author then refuse NOT_THE_BUYER "a review cannot be reported by the person who wrote it"
  else match _as_state state with
  | None => refuse ALREADY_REVIEWED "this review is in a state that cannot be reported"
  | Some current =>
      if negb (current in_ REPORTABLE_STATES) then
        refuse ALREADY_REVIEWED "a moderator has already ruled on this review"
      else {| verdict := ALLOWED; detail := None |}
  end.

Definition state_after_report (current : string) (distinct_reporters threshold : Z) : ModerationState :=
  match _as_state current with
  | None => HIDDEN_PENDING_REVIEW
  | Some VISIBLE => if threshold <=? distinct_reporters then HIDDEN_PENDING_REVIEW else VISIBLE
  | Some state => state
  end.

Definition visible_to (state : string) (viewer_is_author : bool) : bool := viewer_is_author || is_public state.

(** ** Lemmas *)

Lemma as_state_value s : _as_state (state_value s) = Some s.
Proof. by destruct s. Qed.

Lemma as_state_inv v s : _as_state v = Some s → v = state_value s.
Proof. intros H. apply find_elem in H as [_ H]. by apply bool_decide_eq_true in H. Qed.

Lemma state_value_inj s s' : state_value s = state_value s' → s = s'.
Proof. by destruct s, s'. Qed.

Lemma validate_rating_ok repr v field r : validate_rating repr v field = inr r → v = JInt r ∧ 1 ≤ r ≤ 5.
Proof.
  destruct v; try done. cbn. destruct (_ && _) eqn:E; [|done]. intros [= <-].
  unfold MIN_RATING, MAX_RATING in E. bool_to_prop. split; [done|lia].
Qed.

Lemma may_review_allowed b o st ps p dl now already w :
  verdict (may_review b o st ps p dl now already w) = ALLOWED →
  b = o ∧ st ∈ DELIVERED_STATES ∧ p ∈ ps ∧ already = false ∧ ∀ t, dl = Some t → now - t ≤ days w.
Proof.
  unfold may_review, in_listb. repeat case_bool_decide; cbn; try done. destruct already; cbn; [done|].
  destruct dl as [t|]; cbn; [|by intros _; split_and!].
  destruct (_ <? _) eqn:E; [done|]. intros _. bool_to_prop. split_and!; [done..|]. intros t' [= <-]. lia.
Qed.

(** *** What a summary adds up to *)

Definition on_scale (ratings : list (option Z)) : Prop := ∀ r, Some r ∈ ratings → 1 ≤ r ≤ 5.

Definition bump (counts : list (Z * Z)) (rating : option Z) : list (Z * Z) :=
  match rating with
  | None => counts
  | Some r => match dict_get counts r with Some n => dict_set counts r (n + 1) | None => counts end
  end.

Lemma bump_keys counts rating : (bump counts rating).*1 = counts.*1.
Proof.
  destruct rating as [r|]; [|done]. cbn. destruct (dict_get counts r) eqn:E; [|done].
  rewrite dict_set_keys, decide_True; [done|]. apply dict_get_is_Some. by eexists.
Qed.

(** A weighted total over the counts moves by the weight of the star counted. *)
Lemma bump_total (w : Z → Z) counts r :
  r ∈ counts.*1 → sumZ (λ p, w p.1 * p.2) (bump counts (Some r)) = sumZ (λ p, w p.1 * p.2) counts + w r.
Proof.
  cbn. intros Hr. apply dict_get_is_Some in Hr as [n E]. rewrite E. revert E.
  induction counts as [|[k v] counts IH]; [done|]. cbn. destruct (decide (r = k)) as [->|]; cbn.
  - intros [= ->]. lia.
  - intros E. rewrite IH by done. lia.
Qed.

Lemma distribution_total (w : Z → Z) ratings : on_scale ratings →
  sumZ (λ p, w p.1 * p.2) (distribution ratings) = sumZ w (present ratings).
Proof.
  intros Hs. change (distribution ratings) with (foldl bump (map (λ s, (s, 0)) stars) ratings).
  assert (H : ∀ counts, counts.*1 = stars →
    sumZ (λ p, w p.1 * p.2) (foldl bump counts ratings) = sumZ (λ p, w p.1 * p.2) counts + sumZ w (present ratings)).
  { induction ratings as [|r ratings IH]; intros counts Hk; cbn [foldl]; [cbn; lia|].
    rewrite IH; [|intros r' Hr'; apply Hs; by right|by rewrite bump_keys].
    destruct r as [r|]; [|done]. rewrite bump_total; [change (present (Some r :: ratings)) with (r :: present ratings); cbn [sumZ]; lia|]. rewrite Hk.
    assert (Hr : 1 ≤ r ≤ 5) by (apply Hs; left). unfold stars.
    assert (r = 1 ∨ r = 2 ∨ r = 3 ∨ r = 4 ∨ r = 5) as [->|[->|[->|[->| ->]]]] by lia; by_compute. }
  rewrite H; [|done]. cbn. lia.
Qed.

End ReviewRules.
