(* ===== verification/ReviewService.v ===== *)
(** * The reviews service, and the order service it asks

    [review_service.py] and [order_client.py] over the tables of [models.py].
    A submission and a report each have a point where other requests can run
    between what they read and what they write: the submission after the order
    service answered, the report between its two transactions.  Each is split
    there, and the histories at the end of the file interleave the halves freely
    with the other requests and with the order service itself. *)

From S2P Require Import Prelude PyValue PyJson Session SplitRules OrderDb SagaOrchestrator OrderSystem OrderReads ReviewRules.
Import ReviewRules.

Module ReviewService.

Record Review := {
  rv_id : string;
  rv_seller_order_id : string;
  rv_order_id : string;
  rv_product_id : string;
  rv_seller_id : string;
  rv_buyer_id : string;
  rv_product_rating : Z;
  rv_seller_rating : option Z;
  rv_title : option string;
  rv_body : option string;
  rv_created_at : Z;
  rv_updated_at : Z;
  rv_moderation_state : string;
  rv_moderated_at : option Z;
  rv_moderation_note : option string;
}.

Record ReviewReport := { rp_review_id : string; rp_reporter_id : string; rp_reason : string; rp_note : option string }.

Record db := {
  reviews : list Review;
  reports : list ReviewReport;
  rv_outbox : list OutboxMessage;
  rv_keys : key_table;
  rv_draws : nat;
}.

Definition with_reviews f d : db :=
  {| reviews := f (reviews d); reports := reports d; rv_outbox := rv_outbox d; rv_keys := rv_keys d; rv_draws := rv_draws d |}.
Definition with_reports f d : db :=
  {| reviews := reviews d; reports := f (reports d); rv_outbox := rv_outbox d; rv_keys := rv_keys d; rv_draws := rv_draws d |}.
Definition with_outbox f d : db :=
  {| reviews := reviews d; reports := reports d; rv_outbox := f (rv_outbox d); rv_keys := rv_keys d; rv_draws := rv_draws d |}.
Definition with_keys f d : db :=
  {| reviews := reviews d; reports := reports d; rv_outbox := rv_outbox d; rv_keys := f (rv_keys d); rv_draws := rv_draws d |}.
Definition draw d : db :=
  {| reviews := reviews d; reports := reports d; rv_outbox := rv_outbox d; rv_keys := rv_keys d; rv_draws := S (rv_draws d) |}.

Definition EVENT_REVIEW_PUBLISHED := "ReviewPublished".
Definition EVENT_REVIEW_UPDATED := "ReviewUpdated".
Definition EVENT_REVIEW_HIDDEN := "ReviewHidden".
Definition EVENT_REVIEW_MODERATED := "ReviewModerated".

(** The answer of [_view]. *)
Record ReviewView := {
  vw_id : string;
  vw_seller_order_id : string;
  vw_product_id : string;
  vw_seller_id : string;
  vw_buyer_id : string;
  vw_product_rating : Z;
  vw_seller_rating : option Z;
  vw_title : option string;
  vw_body : option string;
  vw_created_at : Z;
  vw_updated_at : Z;
  vw_moderation_state : string;
}.

Definition _view (r : Review) : ReviewView :=
  {| vw_id := rv_id r; vw_seller_order_id := rv_seller_order_id r; vw_product_id := rv_product_id r;
     vw_seller_id := rv_seller_id r; vw_buyer_id := rv_buyer_id r; vw_product_rating := rv_product_rating r;
     vw_seller_rating := rv_seller_rating r; vw_title := rv_title r; vw_body := rv_body r;
     vw_created_at := rv_created_at r; vw_updated_at := rv_updated_at r; vw_moderation_state := rv_moderation_state r |}.

Definition _event_payload (r : Review) : list (string * json) :=
  [("review_id", JStr (rv_id r)); ("product_id", JStr (rv_product_id r)); ("seller_id", JStr (rv_seller_id r));
   ("seller_order_id", JStr (rv_seller_order_id r)); ("product_rating", JInt (rv_product_rating r));
   ("seller_rating", match rv_seller_rating r with Some z => JInt z | None => JNull end)].

Definition emit (r : Review) (event : string) (extra : list (string * json)) (now : Z) : M db unit :=
  exec (with_outbox (λ ms, ms ++ [{| aggregate_type := "Review"; aggregate_id := rv_id r; msg_type := event;
    payload := _event_payload r ++ extra; msg_created_at := now |}])).

(** ** Asking the order service *)

(** The body of a purchase answer. *)
Record purchase := {
  pb_order_id : string;
  pb_seller_id : string;
  pb_buyer_id : string;
  pb_status : string;
  pb_delivered_at : option string;
  pb_product_ids : list string;
}.

(** What the call through the breaker gives: an exception with its text, or a
    response with its status and, for a 200, its body. *)
Inductive reply :=
| Refused (exc : string)          (** [CircuitOpenError], [BulkheadFullError] *)
| Unreachable (exc_type : string) (** [TimeoutException], [RequestError] *)
| NotOk (status_code : Z)
| Purchased (body : purchase).

Definition fetch_purchase (answer : reply) : M db purchase :=
  match answer with
  | Refused exc =>
      raise (Http 503 ("cannot verify the purchase right now (" +:+ exc +:+ "); a review is not accepted unverified"))
  | Unreachable exc_type =>
      raise (Http 503 ("order service unreachable (" +:+ exc_type +:+ "); a review is not accepted unverified"))
  | NotOk code =>
      if code =? 404 then raise (Http 404 "no such purchase")
      else raise (Http 503 ("could not verify the purchase (order service returned " +:+ dec code +:+
        "); refusing rather than accepting an unverified review"))
  | Purchased body => ret body
  end.

(** [uuid.UUID(...)] on a handler's path: its [ValueError] is not caught. *)
Definition as_uuid (s : string) : M db string :=
  match UUID s with Some u => ret u | None => raise (Raised "badly formed hexadecimal UUID string") end.

(** *** Constraints and commits *)

Definition purchase_key (r : Review) : string * string := (rv_seller_order_id r, rv_product_id r).
Definition report_key (p : ReviewReport) : string * string := (rp_review_id p, rp_reporter_id p).

(** [uq_review_per_purchase_product], [uq_one_report_per_person] and the key of
    [idempotency_keys] *)
Definition integrity (d : db) : bool :=
  bool_decide (NoDup (map purchase_key (reviews d))) && bool_decide (NoDup (map report_key (reports d))) &&
  bool_decide (NoDup (rv_keys d).*1).

Definition INTEGRITY_ERROR := "IntegrityError".

Section handlers.
Context (uuid4 : nat → string) (fromisoformat : string → option (Z * option Z)) (repr : json → string)
  (fault : db → option string).

(** The database refuses a commit that violates a constraint, and may refuse
    any other. *)
Definition refuses (d : db) : option string := if integrity d then fault d else Some INTEGRITY_ERROR.

(** [await db.commit()] with nothing around it *)
Definition plain_commit : M db unit :=
  failed <- try_commit refuses ;; match failed with None => ret tt | Some e => raise (Raised e) end.

(** ... with an [except IntegrityError] that answers 409 *)
Definition commit_unique (conflict : string) : M db unit :=
  failed <- try_commit refuses ;;
  match failed with
  | None => ret tt
  | Some e => if e =?s INTEGRITY_ERROR then raise (Http 409 conflict) else raise (Raised e)
  end.

(** A naive time is read as UTC; the offset is in minutes. *)
Definition _parse (value : option string) : option Z :=
  match value with
  | None => None
  | Some v =>
      match fromisoformat (replace "Z" "+00:00" v) with
      | Some (local, Some offset) => Some (local - offset * 60000000)
      | Some (local, None) => Some local
      | None => None
      end
  end.

(** ** Submitting *)

Record SubmitRequest := {
  sr_seller_order_id : string;
  sr_product_id : string;
  sr_product_rating : Z;
  sr_seller_rating : option Z;
  sr_title : option string;
  sr_body : option string;
}.

Definition rating_or_422 (value : Z) (field : string) : M db Z :=
  match validate_rating repr (JInt value) field with inr r => ret r | inl e => raise (Http 422 e) end.

(** The answer stored under an idempotency key. *)
Definition stored_answer (key : option string) : M db (option ReviewView) :=
  match key with
  | None => ret None
  | Some k =>
      if is_empty k then ret None
      else
        known <- query (λ d, dict_get (rv_keys d) k) ;;
        match known with
        | None => ret None
        | Some None => raise (Http 409 "a submission with this key is still in flight")
        | Some (Some result_id) => query (λ d, _view <$> List.find (λ r, rv_id r =?s result_id) (reviews d))
        end
  end.

(** Up to the row that is about to be inserted; its id and its times are chosen
    when it is. *)
Definition submit_check (buyer_id : string) (q : SubmitRequest) (key : option string) (answer : reply) (now : Z)
    : M db (ReviewView + Review) :=
  stored <- stored_answer key ;;
  match stored with
  | Some view => ret (inl view)
  | None =>
      purchase <- fetch_purchase answer ;;
      already <- query (λ d, List.filter (λ r, (rv_seller_order_id r =?s sr_seller_order_id q) &&
                                               (rv_product_id r =?s sr_product_id q)) (reviews d)) ;;
      let eligibility := may_review buyer_id (pb_buyer_id purchase) (pb_status purchase) (pb_product_ids purchase)
        (sr_product_id q) (_parse (pb_delivered_at purchase)) now
        (negb (bool_decide (length already = 0%nat))) REVIEW_WINDOW_DAYS in
      if negb (allowed eligibility) then raise (Http (http_status eligibility) (default "" (detail eligibility)))
      else
        product_rating <- rating_or_422 (sr_product_rating q) "product_rating" ;;
        seller_rating <- match sr_seller_rating q with
                         | None => ret None
                         | Some v => r <- rating_or_422 v "seller_rating" ;; ret (Some r)
                         end ;;
        order_id <- as_uuid (pb_order_id purchase) ;;
        seller_id <- as_uuid (pb_seller_id purchase) ;;
        buyer <- as_uuid buyer_id ;;
        ret (inr {| rv_id := ""; rv_seller_order_id := sr_seller_order_id q; rv_order_id := order_id;
          rv_product_id := sr_product_id q; rv_seller_id := seller_id; rv_buyer_id := buyer;
          rv_product_rating := product_rating; rv_seller_rating := seller_rating; rv_title := sr_title q;
          rv_body := sr_body q; rv_created_at := 0; rv_updated_at := 0; rv_moderation_state := "visible";
          rv_moderated_at := None; rv_moderation_note := None |})
  end.

Definition inserted (i : string) (now : Z) (r : Review) : Review :=
  {| rv_id := i; rv_seller_order_id := rv_seller_order_id r; rv_order_id := rv_order_id r;
     rv_product_id := rv_product_id r; rv_seller_id := rv_seller_id r; rv_buyer_id := rv_buyer_id r;
     rv_product_rating := rv_product_rating r; rv_seller_rating := rv_seller_rating r; rv_title := rv_title r;
     rv_body := rv_body r; rv_created_at := now; rv_updated_at := now;
     rv_moderation_state := rv_moderation_state r; rv_moderated_at := rv_moderated_at r;
     rv_moderation_note := rv_moderation_note r |}.

Definition submit_publish (draft : Review) (key : option string) (now : Z) : M db ReviewView :=
  n <- query rv_draws ;;
  exec draw ;;;
  let review := inserted (uuid4 n) now draft in
  exec (with_reviews (λ rs, rs ++ [review])) ;;;
  emit review EVENT_REVIEW_PUBLISHED [] now ;;;
  (match key with
   | Some k => if is_empty k then ret tt else exec (with_keys (λ ks, ks ++ [(k, Some (rv_id review))]))
   | None => ret tt
   end) ;;;
  commit_unique "this purchase has already been reviewed" ;;;
  ret (_view review).

Definition submit_review (buyer_id : string) (q : SubmitRequest) (key : option string) (answer : reply) (now : Z)
    : M db ReviewView :=
  r <- submit_check buyer_id q key answer now ;;
  match r with inl view => ret view | inr draft => submit_publish draft key now end.

(** ** Editing *)

Definition load (review_id : string) : M db Review :=
  found <- query (λ d, List.find (λ r, rv_id r =?s review_id) (reviews d)) ;;
  match found with Some r => ret r | None => raise (Http 404 "no such review") end.

Definition update_review (review_id : string) (f : Review → Review) : M db unit :=
  exec (with_reviews (update_where (λ r, rv_id r =?s review_id) f)).

Record EditRequest := {
  er_product_rating : option Z;
  er_seller_rating : option Z;
  er_title : option string;
  er_body : option string;
}.

(** The columns an edit sets. *)
Definition set_words (e : EditRequest) (now : Z) (r : Review) : Review :=
  {| rv_id := rv_id r; rv_seller_order_id := rv_seller_order_id r; rv_order_id := rv_order_id r;
     rv_product_id := rv_product_id r; rv_seller_id := rv_seller_id r; rv_buyer_id := rv_buyer_id r;
     rv_product_rating := default (rv_product_rating r) (er_product_rating e);
     rv_seller_rating := match er_seller_rating e with Some z => Some z | None => rv_seller_rating r end;
     rv_title := match er_title e with Some t => Some t | None => rv_title r end;
     rv_body := match er_body e with Some t => Some t | None => rv_body r end;
     rv_created_at := rv_created_at r; rv_updated_at := now;
     rv_moderation_state := rv_moderation_state r; rv_moderated_at := rv_moderated_at r;
     rv_moderation_note := rv_moderation_note r |}.

Definition check_optional (value : option Z) (field : string) : M db unit :=
  match value with None => ret tt | Some v => rating_or_422 v field ;;; ret tt end.

Definition edit_review (review_id buyer_id : string) (e : EditRequest) (now : Z) : M db ReviewView :=
  review <- load review_id ;;
  if negb (rv_buyer_id review =?s buyer_id) then raise (Http 404 "no such review")
  else if negb (may_edit (rv_created_at review) now EDIT_WINDOW_DAYS) then
    raise (Http 422 "the edit window for this review has closed")
  else
    check_optional (er_product_rating e) "product_rating" ;;;
    check_optional (er_seller_rating e) "seller_rating" ;;;
    update_review review_id (set_words e now) ;;;
    emit (set_words e now review) EVENT_REVIEW_UPDATED [] now ;;;
    plain_commit ;;;
    load_again <- load review_id ;;
    ret (_view load_again).

(** ** Reporting and ruling *)

(** The columns a change of moderation state sets. *)
Definition set_state (st : string) (ruled : option (Z * option string)) (now : Z) (r : Review) : Review :=
  {| rv_id := rv_id r; rv_seller_order_id := rv_seller_order_id r; rv_order_id := rv_order_id r;
     rv_product_id := rv_product_id r; rv_seller_id := rv_seller_id r; rv_buyer_id := rv_buyer_id r;
     rv_product_rating := rv_product_rating r; rv_seller_rating := rv_seller_rating r; rv_title := rv_title r;
     rv_body := rv_body r; rv_created_at := rv_created_at r; rv_updated_at := now; rv_moderation_state := st;
     rv_moderated_at := match ruled with Some (t, _) => Some t | None => rv_moderated_at r end;
     rv_moderation_note := match ruled with Some (_, n) => n | None => rv_moderation_note r end |}.

Definition unknown_reason (v : string) : string :=
  "unknown reason " +:+ repr_str v +:+ "; expected one of [" +:+
  join ", " (map repr_str (sort_by Datatypes.id (map reason_value all_reasons))) +:+ "]".

(** The first transaction of [report_review]; it returns the review as loaded. *)
Definition report_file (review_id reporter_id reason : string) (note : option string) : M db Review :=
  match report_reason reason with
  | None => raise (Http 422 (unknown_reason reason))
  | Some why =>
      review <- load review_id ;;
      let decision := may_report (rv_moderation_state review) (rv_buyer_id review =?s reporter_id) in
      if negb (allowed decision) then raise (Http (http_status decision) (default "" (detail decision)))
      else
        reporter <- as_uuid reporter_id ;;
        exec (with_reports (λ ps, ps ++ [{| rp_review_id := rv_id review; rp_reporter_id := reporter;
          rp_reason := reason_value why; rp_note := note |}])) ;;;
        commit_unique "you have already reported this review" ;;;
        ret review
  end.

(** [COUNT(DISTINCT reporter_id)] *)
Definition reporters (review_id : string) (d : db) : list string :=
  remove_dups (map rp_reporter_id (List.filter (λ p, rp_review_id p =?s review_id) (reports d))).

(** The second transaction: the count, and the state it calls for. *)
Definition report_count (review : Review) (now : Z) : M db (Z * string) :=
  n <- query (λ d, Z.of_nat (length (reporters (rv_id review) d))) ;;
  let new_state := state_value (state_after_report (rv_moderation_state review) n REPORTS_TO_HIDE) in
  if negb (new_state =?s rv_moderation_state review) then
    update_review (rv_id review) (set_state new_state None now) ;;;
    emit (set_state new_state None now review) EVENT_REVIEW_HIDDEN [("reporters", JInt n)] now ;;;
    plain_commit ;;;
    ret (n, new_state)
  else ret (n, rv_moderation_state review).

Definition report_review (review_id reporter_id reason : string) (note : option string) (now : Z) : M db (Z * string) :=
  review <- report_file review_id reporter_id reason note ;;
  report_count review now.

Definition ruling (decision : string) : string :=
  if decision =?s "remove" then state_value REMOVED else state_value CLEARED.

Definition moderate_review (review_id decision : string) (note : option string) (now : Z) : M db ReviewView :=
  if negb (decision in_ ["remove"; "clear"]) then
    raise (Http 422 ("decision must be 'remove' or 'clear', got " +:+ repr_str decision))
  else
    review <- load review_id ;;
    update_review review_id (set_state (ruling decision) (Some (now, note)) now) ;;;
    emit (set_state (ruling decision) (Some (now, note)) now review) EVENT_REVIEW_MODERATED
      [("moderation_state", JStr (ruling decision))] now ;;;
    plain_commit ;;;
    load_again <- load review_id ;;
    ret (_view load_again).

End handlers.

(** ** Reads *)

Definition shown (r : Review) : bool := rv_moderation_state r in_ map state_value PUBLIC_STATES.

(** The ratings of a product's public reviews. *)
Definition product_ratings (product_id : string) (d : db) : list (option Z) :=
  map (λ r, Some (rv_product_rating r)) (List.filter (λ r, (rv_product_id r =?s product_id) && shown r) (reviews d)).

Record Summary := { sm_id : string; sm_average : option (Z * Z); sm_count : Z; sm_distribution : list (Z * Z) }.

Definition product_summary (product_id : string) : M db Summary :=
  ratings <- query (product_ratings product_id) ;;
  let summary := aggregate_ratings ratings in
  ret {| sm_id := product_id; sm_average := average summary; sm_count := count summary;
         sm_distribution := distribution ratings |}.

Definition seller_ratings (seller_id : string) (d : db) : list (option Z) :=
  map rv_seller_rating (List.filter (λ r, (rv_seller_id r =?s seller_id) && shown r) (reviews d)).

Definition seller_summary (seller_id : string) : M db Summary :=
  ratings <- query (seller_ratings seller_id) ;;
  let signal := quality_signal (aggregate_ratings ratings) in
  ret {| sm_id := seller_id; sm_average := signal.1; sm_count := signal.2; sm_distribution := distribution ratings |}.

Definition newest (r r' : Review) : bool := rv_created_at r' <=? rv_created_at r.

Definition list_for_product (product_id : string) (limit : nat) : M db (list ReviewView) :=
  query (λ d, map _view (take (Nat.min limit 100)
    (sort_le newest (List.filter (λ r, (rv_product_id r =?s product_id) && shown r) (reviews d))))).

Definition my_reviews (buyer_id : string) (limit : nat) : M db (list ReviewView) :=
  buyer <- as_uuid buyer_id ;;
  query (λ d, map _view (List.filter (λ r, visible_to (rv_moderation_state r) true) (take (Nat.min limit 200)
    (sort_le newest (List.filter (λ r, rv_buyer_id r =?s buyer) (reviews d)))))).

Record QueueEntry := { qe_review : ReviewView; qe_report_count : Z; qe_reasons : list string; qe_notes : list string }.

Definition queue_entry (d : db) (r : Review) : QueueEntry :=
  let rows := List.filter (λ p, rp_review_id p =?s rv_id r) (reports d) in
  {| qe_review := _view r; qe_report_count := Z.of_nat (length rows);
     qe_reasons := sort_by Datatypes.id (remove_dups (map rp_reason rows));
     qe_notes := List.filter (λ n, negb (is_empty n)) (omap rp_note rows) |}.

Definition moderation_queue (limit : nat) : M db (list QueueEntry) :=
  query (λ d, map (queue_entry d) (take (Nat.min limit 200)
    (sort_le (λ r r', rv_created_at r <=? rv_created_at r')
      (List.filter (λ r, rv_moderation_state r =?s state_value HIDDEN_PENDING_REVIEW) (reviews d))))).

(** ** What each half commits *)

Definition rated (r : Review) : Prop :=
  1 ≤ rv_product_rating r ≤ 5 ∧ ∀ s, rv_seller_rating r = Some s → 1 ≤ s ≤ 5.

(** A change of a row that leaves what identifies it. *)
Definition revises (f : Review → Review) : Prop := ∀ r,
  rv_id (f r) = rv_id r ∧ purchase_key (f r) = purchase_key r ∧ rv_order_id (f r) = rv_order_id r ∧
  rv_seller_id (f r) = rv_seller_id r ∧ rv_buyer_id (f r) = rv_buyer_id r.

(** The rows of one review rewritten, and nothing else that matters here. *)
Definition revised (id : string) (f : Review → Review) (d d' : db) : Prop :=
  reviews d' = update_where (λ r, rv_id r =?s id) f (reviews d) ∧ reports d' = reports d ∧
  rv_draws d' = rv_draws d ∧ integrity d' = true.

Lemma try_commit_run (fault : db → option string) (s : session db) :
  try_commit (refuses fault) s =
    if integrity (working s) then
      match fault (working s) with
      | None => (Session (working s) (working s), inr None)
      | Some e => (Session (committed s) (committed s), inr (Some e))
      end
    else (Session (committed s) (committed s), inr (Some INTEGRITY_ERROR)).
Proof. unfold try_commit, refuses. by destruct (integrity (working s)). Qed.

(** A commit with nothing around it, or with the conflict handler, at the end
    of a computation: nothing, or everything pending with the constraints met. *)
Lemma commit_cases {A} fault (how : M db unit) (k : unit → M db A) (s : session db) :
  how = plain_commit fault ∨ (∃ why, how = commit_unique fault why) →
  (∃ e, bind how k s = (Session (committed s) (committed s), inl e)) ∨
  (integrity (working s) = true ∧ bind how k s = k tt (Session (working s) (working s))).
Proof.
  intros [->|[why ->]]; unfold plain_commit, commit_unique; rewrite bind_assoc; unfold bind at 1 3; rewrite try_commit_run;
    (destruct (integrity (working s)) eqn:Ei; [destruct (fault (working s))|]); try (by left; eexists);
    try (by right); left; case_bool_decide; by eexists.
Qed.

Lemma review_load_cases id d :
  (∃ r, load id (Session d d) = (Session d d, inr r) ∧ r ∈ reviews d ∧ rv_id r = id) ∨
  load id (Session d d) = (Session d d, inl (Http 404 "no such review")).
Proof.
  unfold load. rewrite bind_query. cbn [working]. destruct (List.find _ _) as [r|] eqn:E; [left|by right].
  apply find_elem in E as [Hr E]. apply bool_decide_eq_true in E. by exists r.
Qed.

Lemma check_optional_cases repr value field (s : session db) :
  (∃ e, check_optional repr value field s = (s, inl e)) ∨
  (check_optional repr value field s = (s, inr tt) ∧ ∀ v, value = Some v → 1 ≤ v ≤ 5).
Proof.
  destruct value as [v|]; [|by right]. unfold check_optional, rating_or_422.
  destruct (validate_rating _ _ _) as [e|r] eqn:E; [by left; eexists|].
  apply validate_rating_ok in E as [[= ->] Hr]. right. split; [done|]. by intros ? [= <-].
Qed.

Lemma edit_effect repr fault id buyer e now d :
  let d' := (run (edit_review repr fault id buyer e now) d).1 in
  d' = d ∨ (revised id (set_words e now) d d' ∧ ∀ r, rated r → rated (set_words e now r)).
Proof.
  cbv zeta. unfold run, edit_review.
  destruct (review_load_cases id d) as [(r & El & _)|El]; [rewrite (bind_inr_eq _ _ _ _ _ El)|rewrite (bind_inl_eq _ _ _ _ _ El); by left].
  destruct (negb _); [by left|]. destruct (negb _); [by left|].
  destruct (check_optional_cases repr (er_product_rating e) "product_rating" (Session d d)) as [[x Ec]|[Ec H1]];
    [rewrite (bind_inl_eq _ _ _ _ _ Ec); by left|rewrite (bind_inr_eq _ _ _ _ _ Ec); clear Ec].
  destruct (check_optional_cases repr (er_seller_rating e) "seller_rating" (Session d d)) as [[x Ec]|[Ec H2]];
    [rewrite (bind_inl_eq _ _ _ _ _ Ec); by left|rewrite (bind_inr_eq _ _ _ _ _ Ec); clear Ec].
  unfold update_review, emit. rewrite !bind_exec. cbn [working committed].
  match goal with |- context [bind (plain_commit fault) ?k ?s] =>
    destruct (commit_cases fault (plain_commit fault) k s (or_introl eq_refl)) as [[x ->]|[Hi ->]] end; [by left|].
  cbn [working committed] in *. right. split.
  - unfold load. rewrite bind_assoc, bind_query. cbn [working].
    destruct (List.find _ _); (split; [reflexivity|]; split; [reflexivity|]; split; [reflexivity|exact Hi]).
  - intros r' [Hp Hs]. split; cbn.
    + destruct (er_product_rating e) as [v|]; [by apply H1|done].
    + intros s. destruct (er_seller_rating e) as [v|]; [intros [= <-]; by apply H2|apply Hs].
Qed.

Lemma moderate_effect fault id decision note now d :
  let d' := (run (moderate_review fault id decision note now) d).1 in
  d' = d ∨ revised id (set_state (ruling decision) (Some (now, note)) now) d d'.
Proof.
  cbv zeta. unfold run, moderate_review. destruct (negb _); [by left|].
  destruct (review_load_cases id d) as [(r & El & _)|El]; [rewrite (bind_inr_eq _ _ _ _ _ El)|rewrite (bind_inl_eq _ _ _ _ _ El); by left].
  unfold update_review, emit. rewrite !bind_exec. cbn [working committed].
  match goal with |- context [bind (plain_commit fault) ?k ?s] =>
    destruct (commit_cases fault (plain_commit fault) k s (or_introl eq_refl)) as [[x ->]|[Hi ->]] end; [by left|].
  cbn [working committed] in *. right. unfold load. rewrite bind_assoc, bind_query. cbn [working].
  destruct (List.find _ _); (split; [reflexivity|]; split; [reflexivity|]; split; [reflexivity|exact Hi]).
Qed.

Lemma file_effect fault id reporter reason note d :
  match run (report_file fault id reporter reason note) d with
  | (d', inl _) => d' = d
  | (d', inr v) => v ∈ reviews d ∧ rv_id v = id ∧ _as_state (rv_moderation_state v) in_ map Some REPORTABLE_STATES = true ∧
      rv_buyer_id v ≠ reporter ∧ reviews d' = reviews d ∧ rv_draws d' = rv_draws d ∧ integrity d' = true ∧
      ∃ p, reports d' = reports d ++ [p] ∧ rp_review_id p = id ∧ UUID reporter = Some (rp_reporter_id p)
  end.
Proof.
  unfold run, report_file. destruct (report_reason reason) as [why|]; [|done].
  destruct (review_load_cases id d) as [(r & El & Hr & <-)|El]; [rewrite (bind_inr_eq _ _ _ _ _ El)|by rewrite (bind_inl_eq _ _ _ _ _ El)].
  destruct (negb (allowed _)) eqn:Ea; [done|]. unfold as_uuid.
  destruct (UUID reporter) as [u|] eqn:Eu; [|done]. rewrite bind_ret, bind_exec. cbn [working committed].
  match goal with |- context [bind (commit_unique fault ?why) ?k ?s] =>
    destruct (commit_cases fault (commit_unique fault why) k s (or_intror (ex_intro _ why eq_refl))) as [[x ->]|[Hi ->]] end; [done|].
  cbn [ret committed working] in *. split; [done|]. split; [done|].
  unfold may_report, allowed in Ea. destruct (bool_decide_reflect (rv_buyer_id r = reporter)) as [|Hne]; [done|].
  destruct (_as_state _) as [st|]; [|done]. split; [by destruct st|].
  split; [done|]. split; [done|]. split; [done|]. split; [exact Hi|]. by eexists.
Qed.

Lemma count_effect fault v now d :
  match run (report_count fault v now) d with
  | (d', inl _) => d' = d
  | (d', inr _) =>
      let n := Z.of_nat (length (reporters (rv_id v) d)) in
      let st := state_value (state_after_report (rv_moderation_state v) n REPORTS_TO_HIDE) in
      (st = rv_moderation_state v ∧ d' = d) ∨ (st ≠ rv_moderation_state v ∧ revised (rv_id v) (set_state st None now) d d')
  end.
Proof.
  unfold run, report_count. rewrite bind_query. cbn [working]. case_bool_decide as Es; cbn [negb]; [by left|].
  unfold update_review, emit. rewrite !bind_exec. cbn [working committed].
  match goal with |- context [bind (plain_commit fault) ?k ?s] =>
    destruct (commit_cases fault (plain_commit fault) k s (or_introl eq_refl)) as [[x ->]|[Hi ->]] end; [done|].
  cbn [working committed ret] in *. cbv zeta. right. split; [done|].
  split; [reflexivity|]; split; [reflexivity|]; split; [reflexivity|exact Hi].
Qed.

Lemma publish_effect uuid4 fault draft key now d :
  match run (submit_publish uuid4 fault draft key now) d with
  | (d', inl _) => d' = d
  | (d', inr _) => reviews d' = reviews d ++ [inserted (uuid4 (rv_draws d)) now draft] ∧ reports d' = reports d ∧
      rv_draws d' = S (rv_draws d) ∧ integrity d' = true
  end.
Proof.
  unfold run, submit_publish. rewrite bind_query, !bind_exec. cbv zeta. unfold emit. rewrite bind_exec.
  cbn [working committed].
  set (i := uuid4 (rv_draws d)). match goal with |- context [bind ?how _ (Session d ?x)] => set (keyed := how); set (w := x) end.
  assert (H : ∃ w', keyed (Session d w) = (Session d w', inr tt) ∧ reviews w' = reviews w ∧ reports w' = reports w ∧
    rv_draws w' = rv_draws w).
  { subst keyed. destruct key as [k|]; [destruct (is_empty k)|]; by eexists. }
  destruct H as (w' & E & Hr & Hp & Hd).
  rewrite (bind_inr_eq _ _ _ _ _ E).
  match goal with |- context [bind (commit_unique fault ?why) ?k ?s] =>
    destruct (commit_cases fault (commit_unique fault why) k s (or_intror (ex_intro _ why eq_refl))) as [[x ->]|[Hi ->]] end; [done|].
  cbn [ret committed working] in *. by rewrite Hr, Hp, Hd.
Qed.

Lemma submit_check_uncommitting fromisoformat repr buyer q key answer now :
  uncommitting (submit_check fromisoformat repr buyer q key answer now).
Proof.
  assert (Hu : ∀ s, uncommitting (as_uuid s)) by (intros s; unfold as_uuid; monadic).
  assert (Hr : ∀ v f, uncommitting (rating_or_422 repr v f)) by (intros v f; unfold rating_or_422; monadic).
  assert (Hs : uncommitting (stored_answer key)) by (unfold stored_answer; monadic).
  assert (Hf : uncommitting (fetch_purchase answer)) by (unfold fetch_purchase; monadic).
  unfold submit_check. repeat (monadic; try (apply Hu || apply Hr || apply Hs || apply Hf)).
Qed.

(** What an accepted submission was checked against. *)
Record checked (body : purchase) (buyer : string) (q : SubmitRequest) (draft : Review) : Prop := {
  ck_buyer : pb_buyer_id body = buyer ∧ UUID buyer = Some (rv_buyer_id draft);
  ck_status : pb_status body ∈ DELIVERED_STATES;
  ck_product : rv_product_id draft = sr_product_id q ∧ sr_product_id q ∈ pb_product_ids body;
  ck_seller_order : rv_seller_order_id draft = sr_seller_order_id q;
  ck_order : UUID (pb_order_id body) = Some (rv_order_id draft);
  ck_seller : UUID (pb_seller_id body) = Some (rv_seller_id draft);
  ck_rated : rated draft;
  ck_state : rv_moderation_state draft = state_value VISIBLE;
}.

Lemma as_uuid_inr s (st st' : session db) u : as_uuid s st = (st', inr u) → UUID s = Some u ∧ st' = st.
Proof. unfold as_uuid. destruct (UUID s); intros H; unfold ret, raise in H; by simplify_eq. Qed.

Lemma rating_inr repr v f (st st' : session db) r :
  rating_or_422 repr v f st = (st', inr r) → 1 ≤ r ≤ 5.
Proof.
  unfold rating_or_422. destruct (validate_rating _ _ _) as [e|x] eqn:E; intros H; unfold ret, raise in H; simplify_eq.
  by apply validate_rating_ok in E as [_ ?].
Qed.

Lemma submit_check_draft fromisoformat repr buyer q key answer now s s' draft :
  submit_check fromisoformat repr buyer q key answer now s = (s', inr (inr draft)) →
  ∃ body, answer = Purchased body ∧ checked body buyer q draft.
Proof.
  unfold submit_check. intros H. step_bind H. destruct a as [view|]; [unfold ret in H; by simplify_eq|].
  step_bind H. destruct answer as [| |code|body]; cbn in Est0; try (unfold raise in Est0; by simplify_eq).
  { destruct (code =? 404); unfold raise in Est0; by simplify_eq. }
  unfold ret in Est0. simplify_eq. step_bind H. unfold query in Est0. simplify_eq.
  destruct (negb (allowed _)) eqn:Ea; [unfold raise in H; by simplify_eq|].
  apply negb_false_iff, bool_decide_eq_true, may_review_allowed in Ea as (Hb & Hst & Hp & _).
  step_bind H. apply rating_inr in Est0.
  step_bind H. rename Est1 into Esr.
  step_bind H. apply as_uuid_inr in Est1 as [Ho ->]. step_bind H. apply as_uuid_inr in Est1 as [Hs ->].
  step_bind H. apply as_uuid_inr in Est1 as [Hu ->]. unfold ret in H. simplify_eq.
  eexists. split; [done|]. constructor; cbn; try done.
  split; [exact Est0|]. intros v Hv. cbn in Hv. subst a1. destruct (sr_seller_rating q); [|unfold ret in Esr; by simplify_eq].
  step_bind Esr. apply rating_inr in Est1. unfold ret in Esr. by simplify_eq.
Qed.

(** ** Histories *)

(** Half of a request that is still to run. *)
Inductive task :=
| Publish (draft : Review) (key : option string)
| CountReports (review : Review).

(** Both databases, the halves under way, and those that will never run or
    failed when they did. *)
Record world := { orders : OrderDb.t; rdb : db; tasks : list task; dropped : list task }.

Inductive move :=
| OrderMoves (o : OrderDb.t)
| Submit (buyer : string) (q : SubmitRequest) (key : option string) (answer : reply) (now : Z)
| Edit (id buyer : string) (e : EditRequest) (fault : db → option string) (now : Z)
| Report (id reporter reason : string) (note : option string) (fault : db → option string)
| Moderate (id decision : string) (note : option string) (fault : db → option string) (now : Z)
| Resume (i : nat) (fault : db → option string) (now : Z)
| Crash (i : nat).

Section world.
Context (uuid4 : nat → string) (fromisoformat : string → option (Z * option Z)) (repr : json → string).

Definition with_rdb (d : db) (w : world) : world :=
  {| orders := orders w; rdb := d; tasks := tasks w; dropped := dropped w |}.

Definition begin (t : task) (w : world) : world :=
  {| orders := orders w; rdb := rdb w; tasks := tasks w ++ [t]; dropped := dropped w |}.

(** The task [t] at position [i] is over; [lost] says its effect is missing. *)
Definition finish (i : nat) (t : task) (lost : bool) (w : world) : world :=
  {| orders := orders w; rdb := rdb w; tasks := delete i (tasks w);
     dropped := if lost then dropped w ++ [t] else dropped w |}.

Definition failed {A} (r : exn + A) : bool := match r with inl _ => true | inr _ => false end.

Definition perform (w : world) (m : move) : world :=
  match m with
  | OrderMoves o => {| orders := o; rdb := rdb w; tasks := tasks w; dropped := dropped w |}
  | Submit buyer q key answer now =>
      match run (submit_check fromisoformat repr buyer q key answer now) (rdb w) with
      | (d, inr (inr draft)) => begin (Publish draft key) (with_rdb d w)
      | (d, _) => with_rdb d w
      end
  | Edit id buyer e fault now => with_rdb (run (edit_review repr fault id buyer e now) (rdb w)).1 w
  | Report id reporter reason note fault =>
      match run (report_file fault id reporter reason note) (rdb w) with
      | (d, inr review) => begin (CountReports review) (with_rdb d w)
      | (d, inl _) => with_rdb d w
      end
  | Moderate id decision note fault now => with_rdb (run (moderate_review fault id decision note now) (rdb w)).1 w
  | Resume i fault now =>
      match tasks w !! i with
      | Some (Publish draft key) =>
          let (d, r) := run (submit_publish uuid4 fault draft key now) (rdb w) in
          finish i (Publish draft key) (failed r) (with_rdb d w)
      | Some (CountReports review) =>
          let (d, r) := run (report_count fault review now) (rdb w) in
          finish i (CountReports review) (failed r) (with_rdb d w)
      | None => w
      end
  | Crash i => match tasks w !! i with Some t => finish i t true w | None => w end
  end.

(** The answer the order service gives to the purchase endpoint. *)
Definition encode (p : OrderReads.Purchase) : purchase :=
  {| pb_order_id := OrderReads.pu_order_id p; pb_seller_id := OrderReads.pu_seller_id p;
     pb_buyer_id := OrderReads.pu_buyer_id p; pb_status := OrderReads.pu_status p;
     pb_delivered_at := (λ t, PyJson.isoformat {| PyJson.instant := t; PyJson.utc_offset := 0 |}) <$> OrderReads.pu_delivered_at p;
     pb_product_ids := OrderReads.pu_product_ids p |}.

Definition honest (o : OrderDb.t) (seller_order_id : string) (answer : reply) : Prop :=
  match answer with
  | Purchased body => ∃ p, (run (OrderReads.get_purchase seller_order_id) o).2 = inr p ∧ body = encode p
  | _ => True
  end.

Section history.
Context (order_moves : OrderDb.t → OrderDb.t → Prop).

(** What the surroundings guarantee: the order service only moves as its own
    code does and answers from its database, and the identity the gateway takes
    from a verified token is a UUID in canonical form. *)
Definition legal (w : world) (m : move) : Prop :=
  match m with
  | OrderMoves o => order_moves (orders w) o
  | Submit _ q _ answer _ => honest (orders w) (sr_seller_order_id q) answer
  | Report _ reporter _ _ _ => UUID reporter = Some reporter
  | _ => True
  end.

Inductive world_step (w : world) : world → Prop :=
| world_move m : legal w m → world_step w (perform w m).

(** The purchase a review speaks of, as the order database [o] knows it. *)
Definition bought (o : OrderDb.t) (r : Review) : Prop :=
  ∃ c saga, c ∈ OrderDb.seller_orders o ∧ OrderDb.so_id c = rv_seller_order_id r ∧
    OrderDb.so_status c ∈ DELIVERED_STATES ∧ UUID (OrderDb.so_seller_id c) = Some (rv_seller_id r) ∧
    saga ∈ OrderDb.sagas o ∧ OrderDb.id saga = OrderDb.so_order_id c ∧
    UUID (OrderDb.user_id saga) = Some (rv_buyer_id r) ∧
    ∃ l, l ∈ OrderDb.order_lines o ∧ OrderDb.ol_seller_order_id l = rv_seller_order_id r ∧
      OrderDb.ol_product_id l = rv_product_id r.

(** ... at some moment up to now. *)
Definition verified (o : OrderDb.t) (r : Review) : Prop := ∃ past, rtc order_moves past o ∧ bought past r.

Definition counting (id : string) (ts : list task) : Prop := ∃ v, CountReports v ∈ ts ∧ rv_id v = id.

(** What the reports on a review allow its state to be. *)
Record moderated (w : world) (r : Review) : Prop := {
  mo_known : is_Some (_as_state (rv_moderation_state r));
  mo_hidden : rv_moderation_state r = state_value HIDDEN_PENDING_REVIEW → (3 ≤ length (reporters (rv_id r) (rdb w)))%nat;
  mo_visible : rv_moderation_state r = state_value VISIBLE →
    (length (reporters (rv_id r) (rdb w)) ≤ 2)%nat ∨ counting (rv_id r) (tasks w ++ dropped w);
}.

Record world_ok (w : world) : Prop := {
  wo_drawn : ∀ r, r ∈ reviews (rdb w) → ∃ n, (n < rv_draws (rdb w))%nat ∧ rv_id r = uuid4 n;
  wo_ids : NoDup (map rv_id (reviews (rdb w)));
  wo_integrity : integrity (rdb w) = true;
  wo_good : ∀ r, r ∈ reviews (rdb w) → rated r ∧ verified (orders w) r ∧ moderated w r;
  wo_drafts : ∀ draft key, Publish draft key ∈ tasks w →
    rated draft ∧ verified (orders w) draft ∧ rv_moderation_state draft = state_value VISIBLE;
  wo_reported : ∀ p, p ∈ reports (rdb w) →
    ∃ r, r ∈ reviews (rdb w) ∧ rv_id r = rp_review_id p ∧ rp_reporter_id p ≠ rv_buyer_id r;
  wo_counting : ∀ v, CountReports v ∈ tasks w → ∃ r, r ∈ reviews (rdb w) ∧ rv_id r = rv_id v ∧
    _as_state (rv_moderation_state v) in_ map Some REPORTABLE_STATES = true ∧
    (rv_moderation_state v = state_value VISIBLE ∨ rv_moderation_state r ≠ state_value VISIBLE);
}.

(** *** Each move keeps the invariant *)

Lemma reporters_same id d d' : reports d' = reports d → reporters id d' = reporters id d.
Proof. intros E. unfold reporters. by rewrite E. Qed.

Lemma reporters_grow id d d' ps : reports d' = reports d ++ ps → (length (reporters id d) ≤ length (reporters id d'))%nat.
Proof.
  intros E. apply submseteq_length, NoDup_submseteq; [apply NoDup_remove_dups|]. unfold reporters. intros x.
  rewrite !elem_of_remove_dups, E, List.filter_app, map_app, elem_of_app. by left.
Qed.

Lemma verified_moves o o' r : verified o r → order_moves o o' → verified o' r.
Proof. intros (past & H & B) Hm. exists past. split; [|done]. by eapply rtc_r. Qed.

Lemma verified_same o r r' :
  purchase_key r' = purchase_key r → rv_seller_id r' = rv_seller_id r → rv_buyer_id r' = rv_buyer_id r →
  verified o r → verified o r'.
Proof.
  intros [= E1 E2] E3 E4 (past & H & c & saga & B). exists past. split; [done|]. exists c, saga. by rewrite E1, E2, E3, E4.
Qed.

Lemma order_moves_ok w o : order_moves (orders w) o → world_ok w →
  world_ok {| orders := o; rdb := rdb w; tasks := tasks w; dropped := dropped w |}.
Proof.
  intros Hm Hok. destruct Hok as [H1 H2 H3 H4 H5 H6 H7]. constructor; cbn; try done.
  - intros r Hr. destruct (H4 r Hr) as (Ha & Hb & [M1 M2 M3]). split_and!; [done|by eapply verified_moves|by constructor].
  - intros draft key Hd. destruct (H5 _ _ Hd) as (Ha & Hb & Hc). split_and!; [done|by eapply verified_moves|done].
Qed.

(** Rows of one review rewritten. *)
Lemma revised_ok id f w d' :
  revises f → revised id f (rdb w) d' → (∀ r, rated r → rated (f r)) →
  (∀ r, rv_moderation_state (f r) = state_value VISIBLE → rv_moderation_state r = state_value VISIBLE) →
  (∀ r, r ∈ reviews (rdb w) → rv_id r = id → moderated w r → is_Some (_as_state (rv_moderation_state (f r))) ∧
     (rv_moderation_state (f r) = state_value HIDDEN_PENDING_REVIEW → (3 ≤ length (reporters id (rdb w)))%nat)) →
  world_ok w → world_ok (with_rdb d' w).
Proof.
  intros Hf (Er & Ep & Ed & Ei) Hrate Hvis Hmod [H1 H2 H3 H4 H5 H6 H7].
  assert (Hrow : ∀ r', r' ∈ reviews d' → ∃ r, r ∈ reviews (rdb w) ∧ rv_id r' = rv_id r ∧
    (r' = f r ∧ rv_id r = id ∨ r' = r ∧ rv_id r ≠ id)).
  { intros r'. rewrite Er. intros (r & -> & Hr)%elem_of_map. exists r. split; [done|].
    case_bool_decide; [|by eauto]. split; [apply Hf|by left]. }
  assert (Hback : ∀ r, r ∈ reviews (rdb w) → ∃ r', r' ∈ reviews d' ∧ rv_id r' = rv_id r ∧ rv_buyer_id r' = rv_buyer_id r ∧
    (rv_moderation_state r' = state_value VISIBLE → rv_moderation_state r = state_value VISIBLE)).
  { intros r Hr. rewrite Er. exists (if rv_id r =?s id then f r else r). split; [apply elem_of_map; by exists r|].
    case_bool_decide; [|done]. split; [apply Hf|]. split; [apply Hf|apply Hvis]. }
  constructor; cbn [with_rdb orders rdb tasks dropped].
  - rewrite Ed. intros r' (r & Hr & -> & _)%Hrow. by apply H1.
  - assert (E : map rv_id (reviews d') = map rv_id (reviews (rdb w))); [|by rewrite E].
    rewrite Er. unfold update_where. rewrite map_map. apply map_ext. intros r. case_bool_decide; [apply Hf|done].
  - done.
  - intros r' (r & Hr & Eid & [[-> Hid]|[-> Hid]])%Hrow; destruct (H4 r Hr) as (Ha & Hb & Hc).
    + destruct (Hmod r Hr Hid Hc) as [Hk Hh]. destruct (Hf r) as (F1 & F2 & F3 & F4 & F5).
      split_and!; [by apply Hrate|by eapply verified_same|].
      constructor; cbn; rewrite ?(reporters_same _ _ _ Ep), ?F1, ?Hid; [done|done|].
      intros Hv%Hvis. rewrite <-Hid. by apply Hc.
    + split_and!; [done|done|]. destruct Hc as [M1 M2 M3].
      constructor; cbn; rewrite ?(reporters_same _ _ _ Ep); done.
  - done.
  - rewrite Ep. intros p Hp. destruct (H6 p Hp) as (r & Hr & E & Hne).
    destruct (Hback r Hr) as (r' & Hr' & E1 & E2 & _). exists r'. split; [done|]. rewrite E1, E2. done.
  - intros v Hv. destruct (H7 v Hv) as (r & Hr & E & Hs & Hst).
    destruct (Hback r Hr) as (r' & Hr' & E1 & _ & E3). exists r'. split; [done|]. rewrite E1. split; [done|]. split; [done|].
    destruct Hst as [Hst|Hst]; [by left|right]. intros Hc. by apply Hst, E3.
Qed.

Lemma set_words_revises e now : revises (set_words e now).
Proof. done. Qed.

Lemma set_state_revises st ruled now : revises (set_state st ruled now).
Proof. done. Qed.

Lemma with_rdb_same w : with_rdb (rdb w) w = w.
Proof. by destruct w. Qed.

Lemma edit_ok w id buyer e fault now : world_ok w → world_ok (perform w (Edit id buyer e fault now)).
Proof.
  intros Hok. cbn. destruct (edit_effect repr fault id buyer e now (rdb w)) as [->|[Hr Hs]]; [by rewrite with_rdb_same|].
  eapply revised_ok; [apply set_words_revises|exact Hr|exact Hs|done| |done].
  intros r Hin <- [M1 M2 _]. by split.
Qed.

Lemma ruling_state decision : ruling decision = state_value REMOVED ∨ ruling decision = state_value CLEARED.
Proof. unfold ruling. case_bool_decide; [by left|by right]. Qed.

Lemma moderate_ok w id decision note fault now : world_ok w → world_ok (perform w (Moderate id decision note fault now)).
Proof.
  intros Hok. cbn. destruct (moderate_effect fault id decision note now (rdb w)) as [->|Hr]; [by rewrite with_rdb_same|].
  eapply revised_ok; [apply set_state_revises|exact Hr|done| | |done].
  - intros r. cbn. by destruct (ruling_state decision) as [-> | ->].
  - intros r _ _ _. cbn. by destruct (ruling_state decision) as [-> | ->].
Qed.

Lemma finish_ok w i t lost :
  tasks w !! i = Some t → world_ok w →
  (lost = false → ∀ v r, t = CountReports v → r ∈ reviews (rdb w) → rv_id r = rv_id v →
     rv_moderation_state r = state_value VISIBLE → (length (reporters (rv_id r) (rdb w)) ≤ 2)%nat) →
  world_ok (finish i t lost w).
Proof.
  intros Ht [H1 H2 H3 H4 H5 H6 H7] Hv. constructor; cbn; try done.
  - intros r Hr. destruct (H4 r Hr) as (Ha & Hb & [M1 M2 M3]). split_and!; [done|done|]. constructor; cbn; [done|done|].
    intros Hs. destruct (M3 Hs) as [?|(v & Hin & Ev)]; [by left|].
    apply elem_of_app in Hin as [Hin|Hin].
    + apply (elem_of_delete_at _ _ _ _ Ht) in Hin as [<-|Hin].
      * destruct lost; [|left; by eapply (Hv eq_refl v)]. right. exists v. split; [|done].
        apply elem_of_app. right. apply elem_of_app. right. by left.
      * right. exists v. split; [|done]. apply elem_of_app. by left.
    + right. exists v. split; [|done]. apply elem_of_app. right. destruct lost; [|done]. apply elem_of_app. by left.
  - intros draft key Hd. apply (H5 draft key). apply (elem_of_delete_at _ _ _ _ Ht). by right.
  - intros v Hin. apply (H7 v). apply (elem_of_delete_at _ _ _ _ Ht). by right.
Qed.

Lemma submit_ok w buyer q key answer now :
  honest (orders w) (sr_seller_order_id q) answer → world_ok w → world_ok (perform w (Submit buyer q key answer now)).
Proof.
  intros Hh Hok. cbn. unfold run.
  pose proof (submit_check_uncommitting fromisoformat repr buyer q key answer now (Session (rdb w) (rdb w))) as Hu.
  destruct (submit_check _ _ _ _ _ _ _ _) as [s [e|[v|draft]]] eqn:E; cbn in Hu; rewrite Hu, with_rdb_same; [done|done|].
  apply submit_check_draft in E as (body & -> & [[C1 C1'] C2 [C3 C3'] C4 C5 C6 C7 C8]).
  destruct Hh as (p & Hp & ->). destruct Hok as [H1 H2 H3 H4 H5 H6 H7]. constructor; cbn; try done.
  - intros r Hr. destruct (H4 r Hr) as (Ha & Hb & [M1 M2 M3]). split_and!; [done|done|]. constructor; cbn; [done|done|].
    intros Hs. destruct (M3 Hs) as [?|(v & Hin & Ev)]; [by left|]. right. exists v. split; [|done].
    rewrite !elem_of_app in *. tauto.
  - intros draft' key' [Hd|Hd%list_elem_of_singleton]%elem_of_app; [by apply (H5 draft' key')|]. injection Hd as -> ->.
    split_and!; [done| |done]. exists (orders w). split; [apply rtc_refl|].
    unfold run, OrderReads.get_purchase in Hp. rewrite bind_query in Hp. cbn [working] in Hp.
    destruct (List.find _ _) as [c|] eqn:Ef; [|done]. rewrite bind_query in Hp. cbn [working] in Hp.
    destruct (OrderDb.find_saga _ _) as [saga|] eqn:Es; [|done]. rewrite bind_query in Hp. cbn [working] in Hp.
    unfold ret in Hp. injection Hp as <-. cbn in *.
    apply find_elem in Ef as [Hc Ec]. apply find_elem in Es as [Hs Es]. bool_to_prop.
    exists c, saga. rewrite C4, C3. split_and!; [done|congruence|done|done|done|done|congruence|].
    unfold OrderDb.product_ids_of in C3'. apply elem_of_map in C3' as (l & El & Hl). apply elem_of_filter_bool in Hl as [Hl E2].
    bool_to_prop. exists l. split_and!; [done|congruence|done].
  - intros v [Hv|Hv%list_elem_of_singleton]%elem_of_app; [by apply H7|done].
Qed.

Lemma report_ok w id reporter reason note fault :
  UUID reporter = Some reporter → world_ok w → world_ok (perform w (Report id reporter reason note fault)).
Proof.
  intros Hu Hok. cbn. pose proof (file_effect fault id reporter reason note (rdb w)) as H.
  destruct (run _ (rdb w)) as [d' [e|v]]; [subst; by rewrite with_rdb_same|].
  destruct H as (Hv & Eid & Hst & Hne & Er & Ed & Ei & p & Ep & Epid & Eu). rewrite Hu in Eu. injection Eu as Eu.
  destruct Hok as [H1 H2 H3 H4 H5 H6 H7]. constructor; cbn; rewrite ?Er, ?Ed; try done.
  - intros r Hr. destruct (H4 r Hr) as (Ha & Hb & [M1 M2 M3]). split_and!; [done|done|]. constructor; cbn.
    + done.
    + intros Hs. specialize (M2 Hs). pose proof (reporters_grow (rv_id r) _ _ _ Ep). lia.
    + intros Hs. destruct (decide (rv_id r = id)) as [E|E].
      * right. exists v. split; [|by rewrite Eid]. rewrite !elem_of_app, list_elem_of_singleton. by left; right.
      * assert (Ers : reporters (rv_id r) d' = reporters (rv_id r) (rdb w)).
        { unfold reporters. rewrite Ep, List.filter_app. cbn [List.filter].
          rewrite bool_decide_false by congruence. by rewrite app_nil_r. }
        rewrite Ers. destruct (M3 Hs) as [?|(v' & Hin & Ev)]; [by left|]. right. exists v'. split; [|done].
        rewrite !elem_of_app in *. tauto.
  - intros draft key [Hd|Hd%list_elem_of_singleton]%elem_of_app; [by apply (H5 draft key)|done].
  - rewrite Ep. intros p' [Hp| ->%list_elem_of_singleton]%elem_of_app; [by apply H6|].
    exists v. split_and!; [done|congruence|congruence].
  - intros v' [Hv'|Hv'%list_elem_of_singleton]%elem_of_app; [by apply H7|]. injection Hv' as ->.
    exists v. split_and!; [done|done|done|]. destruct (decide (rv_moderation_state v = state_value VISIBLE)); [by left|by right].
Qed.

Lemma publish_ok w draft d' now :
  Inj (=) (=) uuid4 → rated draft → verified (orders w) draft → rv_moderation_state draft = state_value VISIBLE →
  reviews d' = reviews (rdb w) ++ [inserted (uuid4 (rv_draws (rdb w))) now draft] → reports d' = reports (rdb w) →
  rv_draws d' = S (rv_draws (rdb w)) → integrity d' = true →
  world_ok w → world_ok (with_rdb d' w).
Proof.
  intros Hinj Hr Hv Hs Er Ep Ed Ei [H1 H2 H3 H4 H5 H6 H7]. set (r0 := inserted _ _ _) in Er.
  assert (Hfresh : ∀ r, r ∈ reviews (rdb w) → rv_id r ≠ rv_id r0).
  { intros r Hin E. destruct (H1 r Hin) as (n & Hn & E'). rewrite E' in E. apply (inj uuid4) in E. lia. }
  constructor; cbn; rewrite ?Er, ?Ep, ?Ed; try done.
  - intros r [Hin| ->%list_elem_of_singleton]%elem_of_app; [|exists (rv_draws (rdb w)); split; [lia|done]].
    destruct (H1 r Hin) as (n & Hn & ?). exists n. split; [lia|done].
  - rewrite map_app. apply NoDup_app. split_and!; [done| |apply NoDup_singleton].
    intros x (r & -> & Hin)%elem_of_map E%list_elem_of_singleton. by apply (Hfresh r).
  - intros r [Hin| ->%list_elem_of_singleton]%elem_of_app.
    + destruct (H4 r Hin) as (Ha & Hb & [M1 M2 M3]). split_and!; [done|done|].
      constructor; cbn; rewrite ?(reporters_same _ _ _ Ep); done.
    + split_and!; [done|by eapply verified_same|]. constructor; cbn; rewrite Hs; [by eexists|done|]. intros _. left.
      assert (E : reporters (rv_id r0) d' = []); [|cbn in E; rewrite E; cbn; lia].
      unfold reporters. rewrite Ep, filter_none; [done|]. intros p Hp. destruct (H6 p Hp) as (r & Hin & E & _).
      apply bool_decide_eq_false. rewrite <-E. by apply Hfresh.
  - intros p Hp. destruct (H6 p Hp) as (r & Hin & Hrest). exists r. split; [apply elem_of_app; by left|done].
  - intros v Hin. destruct (H7 v Hin) as (r & Hr' & Hrest). exists r. split; [apply elem_of_app; by left|done].
Qed.

Lemma state_after_visible n : state_after_report (state_value VISIBLE) n REPORTS_TO_HIDE =
  if REPORTS_TO_HIDE <=? n then HIDDEN_PENDING_REVIEW else VISIBLE.
Proof. done. Qed.

(** A count finishes: the review it was about is hidden, or has too few reports. *)
Lemma count_ok w i v fault now :
  tasks w !! i = Some (CountReports v) → world_ok w → world_ok (perform w (Resume i fault now)).
Proof.
  intros Ht Hok. cbn. rewrite Ht. pose proof (count_effect fault v now (rdb w)) as H.
  destruct (run _ (rdb w)) as [d' [e|x]]; cbn [failed].
  { subst d'. rewrite with_rdb_same. by apply finish_ok. }
  assert (Hv : CountReports v ∈ tasks w) by by eapply list_elem_of_lookup_2.
  destruct (wo_counting _ Hok v Hv) as (r & Hr & Er & Hre & Hst). cbv zeta in H.
  set (n := Z.of_nat (length (reporters (rv_id v) (rdb w)))) in H.
  destruct H as [[Es ->]|[Es Hrev]].
  - rewrite with_rdb_same. apply finish_ok; [done|done|]. intros _ v' r' [= <-] Hr' E' Hvis.
    assert (r' = r) as -> by (by apply (map_key_inj rv_id _ _ _ (wo_ids _ Hok) Hr' Hr); congruence).
    destruct Hst as [Hst|]; [|done]. rewrite Hst, state_after_visible in Es. rewrite E'.
    destruct (_ <=? n) eqn:En; [done|]. unfold REPORTS_TO_HIDE in En. bool_to_prop. subst n. lia.
  - assert (Hhid : state_after_report (rv_moderation_state v) n REPORTS_TO_HIDE = HIDDEN_PENDING_REVIEW ∧ 3 ≤ n).
    { unfold in_listb in Hre. bool_to_prop. cbn [map REPORTABLE_STATES] in Hre. elem_cases Hre; apply as_state_inv in Hre.
      - rewrite Hre, state_after_visible in *. destruct (_ <=? n) eqn:En; [|by destruct Es].
        unfold REPORTS_TO_HIDE in En. bool_to_prop. by split.
      - by rewrite Hre in Es. }
    destruct Hhid as [Hhid Hn]. rewrite Hhid in Hrev. apply finish_ok; [done| |].
    + eapply revised_ok; [apply set_state_revises|exact Hrev|done|done| |done].
      intros r' _ _ _. split; [by eexists|]. intros _. subst n. lia.
    + intros _ v' r' [= <-] Hr' E' Hvis. cbn [rdb with_rdb] in Hr'. destruct Hrev as (E & _). rewrite E in Hr'.
      apply elem_of_map in Hr' as (r0 & -> & _). case_bool_decide; [done|]. by destruct E'.
Qed.

Lemma review_resume_ok w i fault now : Inj (=) (=) uuid4 → world_ok w → world_ok (perform w (Resume i fault now)).
Proof.
  intros Hinj Hok. destruct (tasks w !! i) as [[draft key|v]|] eqn:Ht; [|by apply (count_ok _ _ v)|by cbn; rewrite Ht].
  cbn. rewrite Ht. pose proof (publish_effect uuid4 fault draft key now (rdb w)) as H.
  assert (Hd : Publish draft key ∈ tasks w) by by eapply list_elem_of_lookup_2.
  destruct (wo_drafts _ Hok _ _ Hd) as (Ha & Hb & Hc).
  destruct (run _ (rdb w)) as [d' [e|x]]; cbn [failed].
  - subst d'. rewrite with_rdb_same. by apply finish_ok.
  - destruct H as (E1 & E2 & E3 & E4). apply finish_ok; [done|by eapply publish_ok|done].
Qed.

Lemma world_step_ok w w' : Inj (=) (=) uuid4 → world_step w w' → world_ok w → world_ok w'.
Proof.
  intros Hinj [m Hm] Hok. destruct m as [o|buyer q key answer now|id buyer e fault now|id reporter reason note fault|
    id decision note fault now|i fault now|i].
  - by apply order_moves_ok.
  - by apply submit_ok.
  - by apply edit_ok.
  - by apply report_ok.
  - by apply moderate_ok.
  - by apply review_resume_ok.
  - cbn. destruct (tasks w !! i) eqn:Ht; [|done]. by apply finish_ok.
Qed.

Definition opened (o : OrderDb.t) : world :=
  {| orders := o; rdb := {| reviews := []; reports := []; rv_outbox := []; rv_keys := []; rv_draws := 0 |};
     tasks := []; dropped := [] |}.

Lemma review_opened_ok o : world_ok (opened o).
Proof. constructor; cbn; try (intros ? H; by apply not_elem_of_nil in H); try (intros ? ? H; by apply not_elem_of_nil in H); constructor. Qed.

(** A ruling stands unless it is about this review or a count of its reports is under way. *)
Definition ruled (r : Review) : Prop :=
  rv_moderation_state r = state_value REMOVED ∨ rv_moderation_state r = state_value CLEARED.

Lemma revised_other id f d d' r : r ∈ reviews d → rv_id r ≠ id → revised id f d d' → r ∈ reviews d'.
Proof. intros Hr Hne (E & _). rewrite E. apply elem_of_map. exists r. by rewrite bool_decide_false. Qed.

Lemma ruling_stands w m r :
  r ∈ reviews (rdb w) → (∀ decision note fault now, m ≠ Moderate (rv_id r) decision note fault now) →
  ¬ counting (rv_id r) (tasks w) →
  ∃ r', r' ∈ reviews (rdb (perform w m)) ∧ rv_id r' = rv_id r ∧ rv_moderation_state r' = rv_moderation_state r.
Proof.
  intros Hr Hm Hno. destruct m as [o|buyer q key answer now|id buyer e fault now|id reporter reason note fault|
    id decision note fault now|i fault now|i]; cbn.
  - by exists r.
  - exists r. split; [|done]. unfold run.
    pose proof (submit_check_uncommitting fromisoformat repr buyer q key answer now (Session (rdb w) (rdb w))) as Hu.
    destruct (submit_check _ _ _ _ _ _ _ _) as [s [e|[v|draft]]]; cbn in *; by rewrite Hu.
  - destruct (edit_effect repr fault id buyer e now (rdb w)) as [->|[(E & _) _]]; [by exists r|]. rewrite E.
    exists (if rv_id r =?s id then set_words e now r else r). split; [apply elem_of_map; by exists r|]. by case_bool_decide.
  - pose proof (file_effect fault id reporter reason note (rdb w)) as H. exists r. split; [|done].
    destruct (run _ (rdb w)) as [d' [e|v]]; cbn; [by subst|]. destruct H as (_ & _ & _ & _ & -> & _). done.
  - exists r. split; [|done]. destruct (moderate_effect fault id decision note now (rdb w)) as [->|H]; [done|].
    eapply revised_other; [done| |exact H]. intros <-. by eapply Hm.
  - destruct (tasks w !! i) as [[draft key|v]|] eqn:Ht; [| |by exists r].
    + pose proof (publish_effect uuid4 fault draft key now (rdb w)) as H. exists r. split; [|done].
      destruct (run _ (rdb w)) as [d' [e|x]]; cbn; [by subst|]. destruct H as (-> & _). apply elem_of_app. by left.
    + pose proof (count_effect fault v now (rdb w)) as H. exists r. split; [|done].
      destruct (run _ (rdb w)) as [d' [e|x]]; cbn; [by subst|]. cbv zeta in H. destruct H as [[_ ->]|[_ H]]; [done|].
      eapply revised_other; [done| |exact H]. intros E. apply Hno. exists v. split; [by eapply list_elem_of_lookup_2|done].
  - destruct (tasks w !! i); by exists r.
Qed.

End history.
End world.

(** *** What a product page shows *)

Definition public_rows (product_id : string) (d : db) : list Review :=
  List.filter (λ r, (rv_product_id r =?s product_id) && shown r) (reviews d).

Lemma present_ratings rows : present (map (λ r, Some (rv_product_rating r)) rows) = map rv_product_rating rows.
Proof. induction rows as [|r rows IH]; [done|]. cbn. f_equal. exact IH. Qed.

(** [summary] counts each of [rows] once. *)
Definition sums_up (rows : list Review) (summary : Summary) : Prop :=
  sm_count summary = Z.of_nat (length rows) ∧ sumZ snd (sm_distribution summary) = sm_count summary ∧
  match sm_average summary with
  | None => rows = []
  | Some (total, n) => n = sm_count summary ∧ total = sumZ rv_product_rating rows ∧
      total = sumZ (λ p, p.1 * p.2) (sm_distribution summary)
  end.

Definition summary_of (product_id : string) (rows : list Review) : Summary :=
  let ratings := map (λ r, Some (rv_product_rating r)) rows in
  {| sm_id := product_id; sm_average := average (aggregate_ratings ratings); sm_count := count (aggregate_ratings ratings);
     sm_distribution := distribution ratings |}.

Lemma summary_of_sums product_id rows : (∀ r, r ∈ rows → rated r) → sums_up rows (summary_of product_id rows).
Proof.
  intros Hr. assert (Hs : on_scale (map (λ r, Some (rv_product_rating r)) rows)).
  { intros x (r & [= ->] & Hin)%elem_of_map. by apply Hr. }
  pose proof (distribution_total (λ _, 1) _ Hs) as H1. pose proof (distribution_total Datatypes.id _ Hs) as Hw.
  unfold sums_up, summary_of, aggregate_ratings. cbn [sm_count sm_distribution sm_average].
  rewrite present_ratings, ?sumZ_map in *.
  assert (Hone : ∀ (A : Type) (l : list A), sumZ (λ _, 1) l = Z.of_nat (length l)).
  { intros A l. induction l as [|x l IH]; cbn [sumZ length]; lia. }
  rewrite Hone in H1. rewrite (sumZ_ext (λ p, 1 * p.2) snd) in H1 by (intros; lia). unfold Datatypes.id in Hw.
  rewrite H1. destruct rows as [|r rows]; [done|]. cbn [map average count sumZ length] in *.
  rewrite length_map, sumZ_map. split_and!; [done..|]. by rewrite Hw.
Qed.

Lemma summary_sums_up product_id d : (∀ r, r ∈ reviews d → rated r) →
  ∃ summary, run (product_summary product_id) d = (d, inr summary) ∧ sums_up (public_rows product_id d) summary.
Proof.
  intros Hr. exists (summary_of product_id (public_rows product_id d)). split; [reflexivity|].
  apply summary_of_sums. intros r [Hin _]%elem_of_filter_bool. by apply Hr.
Qed.

(** C32 — Every published review rests on a delivered purchase: however
    submissions, edits, reports, rulings and the order service's own requests
    interleave, with any request stopping half way and any commit failing, a
    purchase of a product has at most one review; each review was checked
    against an order database the order service really went through, in which
    its buyer's order with that seller was delivered and held that product; its
    ratings are one to five stars; and a product page counts each public review
    exactly once. *)
Theorem reviews_rest_on_purchases (uuid4 uuid4' : nat → string) (fromisoformat : string → option (Z * option Z))
    (repr : json → string) (order_fault : OrderDb.t → option string) (o : OrderDb.t) (w : world)
    (Huuid : Inj (=) (=) uuid4)
    (Hreach : rtc (world_step uuid4 fromisoformat repr (OrderSystem.order_step uuid4' repr order_fault)) (opened o) w) :
  NoDup (map purchase_key (reviews (rdb w))) ∧
  (∀ r, r ∈ reviews (rdb w) → rated r ∧
     ∃ past, rtc (OrderSystem.order_step uuid4' repr order_fault) past (orders w) ∧ bought past r) ∧
  (∀ product_id, ∃ summary, run (product_summary product_id) (rdb w) = (rdb w, inr summary) ∧
     sums_up (public_rows product_id (rdb w)) summary).
Proof.
  assert (H : world_ok uuid4 (OrderSystem.order_step uuid4' repr order_fault) w).
  { eapply (rtc_invariant _ (world_ok uuid4 _)); [|exact Hreach|apply review_opened_ok]. intros; by eapply world_step_ok. }
  split.
  - pose proof (wo_integrity _ _ _ H) as Hi. unfold integrity in Hi. by bool_to_prop.
  - split; [intros r Hr; destruct (wo_good _ _ _ H r Hr) as (? & ? & _); done|].
    intros product_id. apply summary_sums_up. intros r Hr. by apply (wo_good _ _ _ H r Hr).
Qed.

(** It takes three people to hide a review, and three are enough: in any
    such interleaving no one reports a review twice, nor their own; a review
    hidden for a moderator was reported by at least three people; one still
    shown without a ruling was reported by at most two, unless a count is under
    way or was lost; and a ruling stands whatever request comes next, other
    than another ruling, unless such a count is under way. *)
Theorem three_people_hide_a_review (uuid4 uuid4' : nat → string) (fromisoformat : string → option (Z * option Z))
    (repr : json → string) (order_fault : OrderDb.t → option string) (o : OrderDb.t) (w : world)
    (Huuid : Inj (=) (=) uuid4)
    (Hreach : rtc (world_step uuid4 fromisoformat repr (OrderSystem.order_step uuid4' repr order_fault)) (opened o) w) :
  NoDup (map report_key (reports (rdb w))) ∧
  (∀ p r, p ∈ reports (rdb w) → r ∈ reviews (rdb w) → rp_review_id p = rv_id r → rp_reporter_id p ≠ rv_buyer_id r) ∧
  (∀ r, r ∈ reviews (rdb w) →
     (rv_moderation_state r = state_value HIDDEN_PENDING_REVIEW → (3 ≤ length (reporters (rv_id r) (rdb w)))%nat) ∧
     (rv_moderation_state r = state_value VISIBLE →
        (length (reporters (rv_id r) (rdb w)) ≤ 2)%nat ∨ counting (rv_id r) (tasks w ++ dropped w)) ∧
     (ruled r → ¬ counting (rv_id r) (tasks w) → ∀ m,
        (∀ decision note fault now, m ≠ Moderate (rv_id r) decision note fault now) →
        ∃ r', r' ∈ reviews (rdb (perform uuid4 fromisoformat repr w m)) ∧ rv_id r' = rv_id r ∧ ruled r')).
Proof.
  assert (H : world_ok uuid4 (OrderSystem.order_step uuid4' repr order_fault) w).
  { eapply (rtc_invariant _ (world_ok uuid4 _)); [|exact Hreach|apply review_opened_ok]. intros; by eapply world_step_ok. }
  split; [|split].
  - pose proof (wo_integrity _ _ _ H) as Hi. unfold integrity in Hi. by bool_to_prop.
  - intros p r Hp Hr E. destruct (wo_reported _ _ _ H p Hp) as (r' & Hr' & E' & Hne).
    by rewrite (map_key_inj rv_id _ _ _ (wo_ids _ _ _ H) Hr Hr') by congruence.
  - intros r Hr. destruct (wo_good _ _ _ H r Hr) as (_ & _ & [_ M2 M3]). split; [done|]. split; [done|].
    intros Hru Hno m Hm. destruct (ruling_stands uuid4 fromisoformat repr w m r Hr Hm Hno) as (r' & Hr' & E & Es).
    exists r'. split; [done|]. split; [done|]. unfold ruled. by rewrite Es.
Qed.

(** ** A review, its reports, and a ruling *)

Definition u (n : Z) : string := "4cc1484d-0000-4000-8000-" +:+ hex_fixed 12 n "".

Definition sample_order : SagaOrchestrator.CreateOrderRequest :=
  {| SagaOrchestrator.req_user_id := u 100; SagaOrchestrator.req_total_cents := 1090;
     SagaOrchestrator.req_items_payload := JList [SplitRules.sample_line (u 2) (u 9) 1 500] |}.

Definition order_uuid (n : nat) : string := u (200 + Z.of_nat n).

(** The order service: started, reserved, confirmed, dispatched. *)
Definition shipped_order : OrderDb.t :=
  let d := (run (SagaOrchestrator.start_saga order_uuid (λ _, "") (λ _, None) sample_order "k" 5) OrderDb.empty).1 in
  let d := (run (SagaOrchestrator.advance_saga order_uuid (λ _, None) (order_uuid 0) "InventoryReserved" "e" 6) d).1 in
  let act a d := (run (SagaOrchestrator.transition_seller_order order_uuid (λ _, None) (order_uuid 0) (order_uuid 1) a None 9) d).1 in
  act "dispatch" (act "confirm" d).

Definition delivered_order : OrderDb.t :=
  (run (SagaOrchestrator.transition_seller_order order_uuid (λ _, None) (order_uuid 0) (order_uuid 1) "deliver" None 9) shipped_order).1.

Definition no_date (s : string) : option (Z * option Z) := None.
Definition fine (d : db) : option string := None.

Definition answer_from (o : OrderDb.t) : reply :=
  match (run (OrderReads.get_purchase (order_uuid 1)) o).2 with inr p => Purchased (encode p) | inl e => NotOk (status_of e) end.

Definition five_stars : SubmitRequest :=
  {| sr_seller_order_id := order_uuid 1; sr_product_id := u 9; sr_product_rating := 5; sr_seller_rating := None;
     sr_title := None; sr_body := Some "fine" |}.

Definition publish_first : list move :=
  [Submit (u 100) five_stars (Some "key") (answer_from shipped_order) 10; OrderMoves delivered_order;
   Submit (u 100) five_stars (Some "key") (answer_from delivered_order) 11;
   Submit (u 100) five_stars (Some "other") (answer_from delivered_order) 12; Resume 0 fine 13; Resume 0 fine 14].

Definition reports_by (n : Z) : list move := [Report "" (u n) "spam" None fine; Resume 0 fine 20].

Definition sample_moves : list move := publish_first ++ reports_by 301 ++ reports_by 302 ++ reports_by 303.

Definition play (ms : list move) (w : world) : world := foldl (perform unary_id no_date (λ _, "")) w ms.

Definition sample_steps := world_step unary_id no_date (λ _, "") (OrderSystem.order_step order_uuid (λ _, "") (λ _, None)).

Lemma honest_answer o : honest o (order_uuid 1) (answer_from o).
Proof. unfold honest, answer_from. destruct (run _ o).2 as [e|p] eqn:E; [done|]. by exists p. Qed.

Lemma legal_submit w o key now : orders w = o →
  legal (OrderSystem.order_step order_uuid (λ _, "") (λ _, None)) w (Submit (u 100) five_stars key (answer_from o) now).
Proof. intros <-. exact (honest_answer (orders w)). Qed.

Fixpoint legal_all (w : world) (ms : list move) : Prop :=
  match ms with
  | [] => True
  | m :: ms' => legal (OrderSystem.order_step order_uuid (λ _, "") (λ _, None)) w m ∧
      legal_all (perform unary_id no_date (λ _, "") w m) ms'
  end.

Lemma legal_reachable ms : ∀ w, legal_all w ms → rtc sample_steps w (play ms w).
Proof.
  induction ms as [|m ms IH]; intros w; [intros _; apply rtc_refl|]. intros [Hm H].
  eapply rtc_l; [exact (world_move _ _ _ _ w m Hm)|by apply IH].
Qed.

Lemma delivery_is_a_step : OrderSystem.order_step order_uuid (λ _, "") (λ _, None) shipped_order delivered_order.
Proof. exact (OrderSystem.step_seller_action order_uuid (λ _, "") (λ _, None) shipped_order _ _ _ _ _). Qed.

Lemma legal_delivery w : orders w = shipped_order →
  legal (OrderSystem.order_step order_uuid (λ _, "") (λ _, None)) w (OrderMoves delivered_order).
Proof. intros E. cbn [legal]. rewrite E. exact delivery_is_a_step. Qed.

Lemma play_reachable : rtc sample_steps (opened shipped_order) (play sample_moves (opened shipped_order)).
Proof.
  apply legal_reachable. unfold sample_moves, publish_first, reports_by. cbn [app legal_all].
  split; [apply legal_submit; vm_compute; reflexivity|].
  split; [apply legal_delivery; vm_compute; reflexivity|].
  do 2 (split; [apply legal_submit; vm_compute; reflexivity|]).
  repeat (split; [first [exact I|vm_compute; reflexivity]|]). exact I.
Qed.

Lemma reviews_rest_on_purchases_witness :
  let w := play sample_moves (opened shipped_order) in
  map rv_seller_order_id (reviews (rdb w)) = [order_uuid 1] ∧
  ∃ r past, reviews (rdb w) = [r] ∧ bought past r ∧
    NoDup (map purchase_key (reviews (rdb w))) ∧ length (dropped w) = 1%nat.
Proof.
  cbv zeta. set (w := play sample_moves (opened shipped_order)).
  destruct (reviews_rest_on_purchases unary_id order_uuid no_date (λ _, "") (λ _, None) shipped_order w unary_id_inj
    play_reachable) as (H1 & H2 & _).
  split; [vm_compute; reflexivity|].
  assert (Hl : length (reviews (rdb w)) = 1%nat) by (vm_compute; reflexivity).
  destruct (reviews (rdb w)) as [|r [|]] eqn:E; [discriminate Hl| |discriminate Hl].
  destruct (H2 r) as (_ & past & _ & Hb); [left|]. exists r, past. split; [reflexivity|]. split; [exact Hb|].
  split; [exact H1|]. vm_compute. reflexivity.
Defined.

Lemma three_people_hide_a_review_witness :
  let w := play sample_moves (opened shipped_order) in
  map rp_reporter_id (reports (rdb w)) = [u 301; u 302; u 303] ∧
  ∃ r, reviews (rdb w) = [r] ∧ rv_moderation_state r = state_value HIDDEN_PENDING_REVIEW ∧
    (3 ≤ length (reporters (rv_id r) (rdb w)))%nat ∧ NoDup (map report_key (reports (rdb w))).
Proof.
  cbv zeta. set (w := play sample_moves (opened shipped_order)).
  destruct (three_people_hide_a_review unary_id order_uuid no_date (λ _, "") (λ _, None) shipped_order w unary_id_inj
    play_reachable) as (H1 & _ & H3).
  split; [vm_compute; reflexivity|].
  assert (Hl : map rv_moderation_state (reviews (rdb w)) = [state_value HIDDEN_PENDING_REVIEW]) by (vm_compute; reflexivity).
  destruct (reviews (rdb w)) as [|r [|]] eqn:E; [discriminate Hl| |discriminate Hl]. injection Hl as Hl.
  destruct (H3 r) as [H _]; [left|]. exists r. split; [reflexivity|]. split; [exact Hl|]. split; [exact (H Hl)|exact H1].
Defined.

(** A ruling that comes between a third report and its count is overruled by
    it: the count works on the state the review had when it was reported. *)
Example late_count_overrules_a_moderator :
  let before := play (publish_first ++ reports_by 301 ++ reports_by 302 ++ [Report "" (u 303) "spam" None fine;
    Moderate "" "clear" (Some "genuine") fine 30]) (opened shipped_order) in
  let later := play [Resume 0 fine 31] before in
  map rv_moderation_state (reviews (rdb before)) = ["cleared"] ∧
  map rv_moderation_state (reviews (rdb later)) = ["hidden_pending_review"].
Proof. vm_compute. by split. Qed.

End ReviewService.
