(* ===== verification/ReadModel.v ===== *)
(** * The product read model (shared/libs/python-common/read_model.py)

    The [products] documents of the search index are assembled by four writers.
    Module [ReadModel] has the table of field owners, the check every write
    goes through, and the write itself; the search engine is the class
    [SearchIndex], which says what its partial update, its scripted update by
    query and its deletion do to the fields of the documents.  [MapIndex] is an
    instance.

    The main lemma, [writes_by_owner], is that a field's value is a function of
    the writes of its owner alone: whatever the other writers do in between can
    be left out. *)

From S2P Require Import Prelude PyValue PyJson.

(** ** The search engine

    A document is seen through its fields.  A partial update leaves every field
    it does not name alone and combines the ones it names with what is there:
    the engine merges objects and replaces everything else. *)

Class SearchIndex (Ix : Type) := {
  field : Ix → string → string → option json;
  found : Ix → string → bool;
  stored : Ix → list string;
  doc_path : json → option string;
  term : option json → json → bool;
  blend : option json → json → json;
  put_partial : Ix → string → list (string * json) → Ix;
  assign_where : Ix → string * json → list (string * json) → (string → bool) → Ix;
  remove : Ix → string → Ix;
}.

Class SearchIndexLaws (Ix : Type) `{SearchIndex Ix} : Prop := {
  (** The id of a document in the request's path: the client refuses an empty one. *)
  doc_path_str s : doc_path (JStr s) = if is_empty s then None else Some s;
  doc_path_null : doc_path JNull = None;
  (** [{"term": {f: v}}] and [{"exists": {"field": f}}] *)
  term_absent v : term None v = false;
  term_null v : term (Some JNull) v = false;
  term_str s q : term (Some (JStr s)) (JStr q) = (s =?s q);
  term_bool b q : term (Some (JBool b)) (JBool q) = Bool.eqb b q;
  blend_flat old v : (∀ d, v ≠ JObj d) → blend old v = v;
  field_found ix id f v : field ix id f = Some v → found ix id = true;
  stored_found ix id : id ∈ stored ix ↔ found ix id = true;
  stored_once ix : NoDup (stored ix);
  (** [es.update(id=..., body={"doc": fs, "doc_as_upsert": True})] *)
  found_put ix id fs id' : found (put_partial ix id fs) id' = (id' =?s id) || found ix id';
  field_put ix id fs id' f : NoDup fs.*1 →
    field (put_partial ix id fs) id' f =
      match (if id' =?s id then dict_get fs f else None) with
      | Some v => Some (blend (field ix id f) v)
      | None => field ix id' f
      end;
  (** [es.update_by_query] with [conflicts="proceed"]: every document the query
      matches is assigned the fields, except those [skipped] on a version conflict. *)
  found_assign ix q fs skipped id : found (assign_where ix q fs skipped) id = found ix id;
  field_assign ix q fs skipped id f : NoDup fs.*1 →
    field (assign_where ix q fs skipped) id f =
      match (if term (field ix id q.1) q.2 && negb (skipped id) then dict_get fs f else None) with
      | Some v => Some v
      | None => field ix id f
      end;
  (** [es.delete(id=..., ignore=[404])] *)
  found_remove ix id id' : found (remove ix id) id' = negb (id' =?s id) && found ix id';
  field_remove ix id id' f : field (remove ix id) id' f = if id' =?s id then None else field ix id' f;
}.

Module ReadModel.

Definition PRODUCTS_INDEX := "products".
Definition CATALOG := "catalog-service".
Definition PRICING := "pricing-service".
Definition INVENTORY := "inventory-service".
Definition SELLER_SIGNALS := "seller-projection".
Definition ANY_OWNER := "*".

Definition KNOWN_WRITERS : list string := [CATALOG; PRICING; INVENTORY; SELLER_SIGNALS].

Definition PRODUCT_FIELD_OWNERS : list (string * string) :=
  [("product_id", CATALOG); ("seller_id", CATALOG); ("sku", CATALOG); ("category_id", CATALOG);
   ("name", CATALOG); ("description", CATALOG); ("is_active", CATALOG); ("base_price_cents", CATALOG);
   ("catalog_updated_at", CATALOG); ("price_cents", PRICING); ("quantity_available", INVENTORY);
   ("seller_may_sell", SELLER_SIGNALS); ("seller_rating", SELLER_SIGNALS);
   ("seller_review_count", SELLER_SIGNALS); ("seller_on_time_dispatch_rate", SELLER_SIGNALS);
   ("seller_cancellation_rate", SELLER_SIGNALS); ("seller_return_rate", SELLER_SIGNALS);
   ("seller_confidence", SELLER_SIGNALS); ("seller_location", SELLER_SIGNALS);
   ("seller_signals_updated_at", SELLER_SIGNALS); ("updated_at", ANY_OWNER)].

Definition owner_of (f : string) : option string := dict_get PRODUCT_FIELD_OWNERS f.

Definition fields_owned_by (owner : string) : list string :=
  (List.filter (λ p, (p.2 =?s owner) || (p.2 =?s ANY_OWNER)) PRODUCT_FIELD_OWNERS).*1.

Definition foreign_fields (owner : string) : list string :=
  (List.filter (λ p, negb (p.2 =?s owner) && negb (p.2 =?s ANY_OWNER)) PRODUCT_FIELD_OWNERS).*1.

(** [", ".join(sorted(xs))] *)
Definition listed (xs : list string) : string := join ", " (sort_by (λ x, x) xs).

(** [None] when the write may go ahead, otherwise the text of the [OwnershipError]. *)
Definition validate_product_write (owner : string) (fields : list string) : option string :=
  if negb (owner in_ KNOWN_WRITERS)
  then Some ("unknown writer " +:+ repr_str owner +:+ "; expected one of [" +:+
             join ", " (map repr_str (sort_by (λ x, x) KNOWN_WRITERS)) +:+ "]")
  else
    let allowed := fields_owned_by owner in
    let offending := List.filter (λ f, negb (f in_ allowed)) fields in
    if bool_decide (offending = []) then None
    else
      let unknown := List.filter (λ f, negb (f in_ PRODUCT_FIELD_OWNERS.*1)) offending in
      let stolen := List.filter (λ f, f in_ PRODUCT_FIELD_OWNERS.*1) offending in
      let describe f := f +:+ " (" +:+ default "" (owner_of f) +:+ ")" in
      let parts :=
        (if bool_decide (stolen = []) then []
         else ["fields owned by another service: " +:+ join ", " (map describe (sort_by (λ x, x) stolen))]) ++
        (if bool_decide (unknown = []) then [] else ["fields nobody owns: " +:+ listed unknown]) in
      Some (owner +:+ " may not write " +:+ join "; " parts +:+
            ". Writing another service's field into this document overwrites live data that this service cannot reconstruct.").

(** The ["doc"] of the update body; [doc_as_upsert] is what [put_partial] does. *)
Definition product_update_body (owner : string) (fields : list (string * json)) : string + list (string * json) :=
  match validate_product_write owner fields.*1 with
  | Some e => inl e
  | None => inr fields
  end.

(** [d.setdefault(k, v)] *)
Definition setdefault (d : list (string * json)) (k : string) (v : json) : list (string * json) :=
  match dict_get d k with Some _ => d | None => dict_set d k v end.

Section write.
Context {Ix : Type} `{SearchIndex Ix}.

Definition write_product (product_id : json) (owner : string) (fields : list (string * json)) (ix : Ix) : string + Ix :=
  match product_update_body owner fields with
  | inl e => inl e
  | inr doc =>
      match doc_path product_id with
      | None => inl "Empty value passed for a required argument."
      | Some id => inr (put_partial ix id (setdefault doc "product_id" product_id))
      end
  end.
End write.

(** The inputs of the ranking formula, out of a document. *)
Definition quality_from_document (source : string → option json) : list (string * json) :=
  let get f := default JNull (source f) in
  [("rating", get "seller_rating"); ("review_count", get "seller_review_count");
   ("on_time_dispatch_rate", get "seller_on_time_dispatch_rate");
   ("cancellation_rate", get "seller_cancellation_rate"); ("return_rate", get "seller_return_rate");
   ("confidence", get "seller_confidence")].

Definition has_seller_signals (source : string → option json) : bool :=
  match source "seller_signals_updated_at" with None | Some JNull => false | Some _ => true end.

(** ** Who may write what *)

Lemma validate_none owner fields : validate_product_write owner fields = None ↔
  owner ∈ KNOWN_WRITERS ∧ ∀ f, f ∈ fields → f ∈ fields_owned_by owner.
Proof.
  unfold validate_product_write, in_listb. destruct (bool_decide_reflect (owner ∈ KNOWN_WRITERS)) as [Ho|Ho]; cbn [negb].
  - destruct (bool_decide_reflect (List.filter (λ f, negb (bool_decide (f ∈ fields_owned_by owner))) fields = [])) as [E|E].
    + split; [|done]. intros _. split; [done|]. intros f Hf. apply dec_stable. intros Hn.
      assert (f ∈ []) as []%not_elem_of_nil. rewrite <-E. apply elem_of_filter_bool. split; [done|].
      by rewrite bool_decide_false.
    + split; [done|]. intros [_ H]. destruct E. apply filter_none. intros f Hf. rewrite bool_decide_true; [done|auto].
  - split; [done|]. by intros [? _].
Qed.

Lemma owned_owner owner f : f ∈ fields_owned_by owner → owner_of f = Some owner ∨ f = "updated_at".
Proof.
  unfold fields_owned_by. intros ([k o] & -> & Hp)%list_elem_of_fmap. apply elem_of_filter_bool in Hp as [Hin Ho].
  assert (Hnd : NoDup PRODUCT_FIELD_OWNERS.*1) by by_compute.
  apply orb_true_iff in Ho as [Ho|Ho]; apply bool_decide_eq_true in Ho; cbn [snd fst] in *; subst.
  - left. by apply elem_dict_get.
  - right. unfold PRODUCT_FIELD_OWNERS in Hin. by elem_cases Hin.
Qed.

(** The owner's fields, the shared one and the foreign ones are all there are. *)
Lemma owned_or_foreign owner f : is_Some (owner_of f) →
  (f ∈ fields_owned_by owner ∧ f ∉ foreign_fields owner) ∨ (f ∉ fields_owned_by owner ∧ f ∈ foreign_fields owner).
Proof.
  intros [o Ho]. assert (Hnd : NoDup PRODUCT_FIELD_OWNERS.*1) by by_compute. pose proof (dict_get_elem _ _ _ Ho) as Hin.
  assert (Hiff : ∀ P : string * string → bool, f ∈ (List.filter P PRODUCT_FIELD_OWNERS).*1 ↔ P (f, o) = true).
  { intros P. rewrite list_elem_of_fmap. split.
    - intros ([k o'] & -> & Hp). apply elem_of_filter_bool in Hp as [Hk Hp]. apply (elem_dict_get _ _ _ Hnd) in Hk.
      unfold owner_of in Ho. cbn [fst] in *. congruence.
    - intros Hp. exists (f, o). split; [done|]. by apply elem_of_filter_bool. }
  unfold fields_owned_by, foreign_fields. rewrite !Hiff. cbn [snd]. rewrite <-negb_orb, negb_true_iff.
  destruct (_ || _); [left|right]; by split.
Qed.

Lemma foreign_not_owned owner f : f ∈ foreign_fields owner → f ∉ fields_owned_by owner.
Proof.
  intros Hf. destruct (owned_or_foreign owner f) as [[_ ?]|[? _]]; [|done..].
  apply dict_get_is_Some. unfold foreign_fields in Hf. apply list_elem_of_fmap in Hf as (x & -> & [Hx _]%elem_of_filter_bool).
  apply list_elem_of_fmap. by exists x.
Qed.

(** ** Sequences of writes

    One successful write, whoever makes it; a write the ownership check or the
    client refuses does nothing. *)

Inductive write :=
| Partial (owner : string) (product_id : json) (fields : list (string * json))
| Signals (seller_id : string) (fields : list (string * json)) (skipped : string → bool).

Definition writer (w : write) : string :=
  match w with Partial owner _ _ => owner | Signals _ _ _ => SELLER_SIGNALS end.

Definition fields_of (w : write) : list (string * json) :=
  match w with Partial _ _ fields | Signals _ fields _ => fields end.

(** Python dictionaries have distinct keys. *)
Definition well_formed (w : write) : Prop := NoDup (fields_of w).*1.

(** The writers whose writes a field of owner [o] depends on: the query of the
    seller projection selects documents by a field of catalog's. *)
Definition sources_of (o : string) : list string := if o =?s SELLER_SIGNALS then [CATALOG; SELLER_SIGNALS] else [o].

Lemma setdefault_other (d : list (string * json)) k v f : f ≠ k → dict_get (setdefault d k v) f = dict_get d f.
Proof. intros H. unfold setdefault. destruct (dict_get d k); [done|]. by apply dict_get_set_ne. Qed.

Lemma setdefault_nodup (d : list (string * json)) k v : NoDup d.*1 → NoDup (setdefault d k v).*1.
Proof. unfold setdefault. destruct (dict_get d k); [done|]. apply dict_set_nodup. Qed.

Section writes.
Context {Ix : Type} `{SearchIndexLaws Ix}.
Implicit Types (ix : Ix) (w : write).

Definition apply ix w : Ix :=
  match w with
  | Partial owner product_id fields =>
      match write_product product_id owner fields ix with inr ix' => ix' | inl _ => ix end
  | Signals seller_id fields skipped =>
      match validate_product_write SELLER_SIGNALS fields.*1 with
      | None => assign_where ix ("seller_id", JStr seller_id) fields skipped
      | Some _ => ix
      end
  end.

Lemma write_product_inr product_id owner fields ix ix' : write_product product_id owner fields ix = inr ix' →
  validate_product_write owner fields.*1 = None ∧
  ∃ id, doc_path product_id = Some id ∧ ix' = put_partial ix id (setdefault fields "product_id" product_id).
Proof.
  unfold write_product, product_update_body. intros Hw. destruct (validate_product_write _ _); [done|].
  destruct (doc_path product_id); [|done]. injection Hw as <-. eauto.
Qed.

(** The fields a write may touch. *)
Lemma unowned_field owner (fields : list (string * json)) f o : validate_product_write owner fields.*1 = None → owner_of f = Some o →
  o ≠ owner → o ≠ ANY_OWNER → dict_get fields f = None.
Proof.
  intros [_ Hall]%validate_none Ho Hne Hany. destruct (dict_get fields f) as [v|] eqn:E; [|done].
  apply dict_get_elem in E. assert (Hf : f ∈ fields.*1) by (apply list_elem_of_fmap; by exists (f, v)).
  apply Hall, owned_owner in Hf as [Hf| ->]; [congruence|]. vm_compute in Ho. injection Ho as <-. by destruct Hany.
Qed.

Lemma apply_foreign ix w id f o : well_formed w → owner_of f = Some o → o ≠ writer w → o ≠ ANY_OWNER →
  f ≠ "product_id" → field (apply ix w) id f = field ix id f.
Proof.
  intros Hw Ho Hne Hany Hf. destruct w as [owner pid fields|seller fields skipped]; cbn [apply writer fields_of] in *.
  - destruct (write_product pid owner fields ix) as [|ix'] eqn:E; [done|].
    apply write_product_inr in E as (Hv & i & Hi & ->). rewrite field_put by by apply setdefault_nodup.
    rewrite setdefault_other, (unowned_field owner fields f o) by done. by destruct (id =?s i).
  - destruct (validate_product_write SELLER_SIGNALS fields.*1) eqn:Hv; [done|]. rewrite field_assign by done.
    rewrite (unowned_field SELLER_SIGNALS fields f o) by done. by destruct (_ && _).
Qed.

(** Two states of the index that agree on the fields of some owners. *)
Definition agree (S : list string) ix1 ix2 : Prop :=
  ∀ id f o, owner_of f = Some o → o ∈ S → f ≠ "product_id" → field ix1 id f = field ix2 id f.

Definition closed (S : list string) : Prop := ANY_OWNER ∉ S ∧ (SELLER_SIGNALS ∈ S → CATALOG ∈ S).

Lemma agree_apply S ix1 ix2 w : closed S → well_formed w → agree S ix1 ix2 → agree S (apply ix1 w) (apply ix2 w).
Proof.
  intros [Hany Hcl] Hw Hag id f o Ho HoS Hf. destruct (decide (o = writer w)) as [->|Hne].
  2:{ rewrite !(apply_foreign _ w id f o) by (congruence || by intros ->). by eapply Hag. }
  destruct w as [owner pid fields|seller fields skipped]; cbn [apply writer fields_of] in *.
  - unfold write_product. destruct (product_update_body owner fields) as [|doc] eqn:E; [by eapply Hag|].
    unfold product_update_body in E. destruct (validate_product_write _ _); [done|]. injection E as <-.
    destruct (doc_path pid) as [i|]; [|by eapply Hag]. rewrite !field_put by by apply setdefault_nodup.
    rewrite (Hag i f owner), (Hag id f owner) by done. done.
  - destruct (validate_product_write SELLER_SIGNALS fields.*1); [by eapply Hag|]. rewrite !field_assign by done.
    cbn [fst snd]. rewrite (Hag id f SELLER_SIGNALS), (Hag id "seller_id" CATALOG) by (done || by apply Hcl). done.
Qed.

Lemma agree_dropped S ix w : closed S → well_formed w → writer w ∉ S → agree S (apply ix w) ix.
Proof. intros [Hany _] Hw Hn id f o Ho HoS Hf. apply (apply_foreign _ _ _ _ o); try done; by intros ->. Qed.

Lemma agree_trans S ix1 ix2 ix3 : agree S ix1 ix2 → agree S ix2 ix3 → agree S ix1 ix3.
Proof. intros H12 H23 id f o ???. by rewrite (H12 id f o), (H23 id f o). Qed.

Lemma agree_writes S ws ix1 ix2 : closed S → Forall well_formed ws → agree S ix1 ix2 →
  agree S (foldl apply ix1 ws) (foldl apply ix2 (List.filter (λ w, writer w in_ S) ws)).
Proof.
  intros Hcl. revert ix1 ix2. induction ws as [|w ws IH]; intros ix1 ix2 Hws Hag; [done|].
  apply Forall_cons in Hws as [Hw Hws]. cbn [foldl List.filter]. unfold in_listb at 1.
  destruct (bool_decide_reflect (writer w ∈ S)) as [Hin|Hin]; cbn [foldl]; apply IH; try done.
  - by apply agree_apply.
  - eapply agree_trans; [by apply agree_dropped|done].
Qed.

Lemma sources_closed o : o ∈ KNOWN_WRITERS → closed (sources_of o).
Proof. unfold KNOWN_WRITERS. intros Ho. elem_cases Ho; split; by_compute. Qed.

(** A field's value is what its owner's writes made it. *)
Lemma writes_by_owner ws ix id f o : Forall well_formed ws → owner_of f = Some o → o ∈ KNOWN_WRITERS → f ≠ "product_id" →
  field (foldl apply ix ws) id f = field (foldl apply ix (List.filter (λ w, writer w in_ sources_of o) ws)) id f.
Proof.
  intros Hws Ho Hk Hf. apply (agree_writes (sources_of o) ws ix ix (sources_closed o Hk) Hws) with o; try done.
  unfold sources_of. case_bool_decide as E; [subst; right|]; left.
Qed.

(** ** The id inside a document is the document's id *)

Definition names_itself (w : write) : Prop :=
  match w with
  | Partial _ product_id fields =>
      (∃ s, product_id = JStr s) ∧ ∀ v, dict_get fields "product_id" = Some v → v = product_id
  | Signals _ _ _ => True
  end.

Definition ids_ok ix : Prop := ∀ id v, field ix id "product_id" = Some v → v = JStr id.

Lemma ids_apply ix w : well_formed w → names_itself w → ids_ok ix → ids_ok (apply ix w).
Proof.
  intros Hw Hn Hok id v. destruct w as [owner pid fields|seller fields skipped]; cbn [apply fields_of] in *.
  - destruct (write_product pid owner fields ix) as [|ix'] eqn:E; [by apply Hok|].
    apply write_product_inr in E as (_ & i & Hi & ->). destruct Hn as [[s ->] Hn].
    rewrite doc_path_str in Hi. destruct (is_empty s); [done|]. injection Hi as ->.
    rewrite field_put by by apply setdefault_nodup.
    assert (Hget : dict_get (setdefault fields "product_id" (JStr i)) "product_id" = Some (JStr i)).
    { unfold setdefault. destruct (dict_get fields "product_id") as [v'|] eqn:E; [|apply dict_get_set_eq].
      by rewrite E, (Hn v'). }
    rewrite Hget. destruct (bool_decide_reflect (id = i)) as [->|]; [|by apply Hok].
    rewrite blend_flat by done. congruence.
  - destruct (validate_product_write SELLER_SIGNALS fields.*1) eqn:Hv; [by apply Hok|]. rewrite field_assign by done.
    rewrite (unowned_field SELLER_SIGNALS fields "product_id" CATALOG) by done. destruct (_ && _); by apply Hok.
Qed.

(** A document, once there, is never taken away by a write. *)
Lemma apply_found ix w id : found ix id = true → found (apply ix w) id = true.
Proof.
  intros Hf. destruct w as [owner pid fields|seller fields skipped]; cbn [apply].
  - destruct (write_product pid owner fields ix) as [|ix'] eqn:E; [done|].
    apply write_product_inr in E as (_ & i & Hi & ->). rewrite found_put, Hf. apply orb_true_r.
  - destruct (validate_product_write _ _); [done|]. by rewrite found_assign.
Qed.
End writes.

End ReadModel.

(** ** A search index as a finite map *)

Module MapIndex.

Notation index := (gmap string (gmap string json)).

Definition fields_map (fs : list (string * json)) : gmap string json := list_to_map fs.

Definition map_merge (old : option json) (v : json) : json :=
  match v, old with
  | JObj d, Some (JObj d0) => JObj (foldl (λ acc '(k, x), dict_set acc k x) d0 d)
  | _, _ => v
  end.

Definition map_term (x : option json) (v : json) : bool :=
  match x, v with
  | Some (JStr s), JStr q => s =?s q
  | Some (JBool b), JBool q => Bool.eqb b q
  | _, _ => false
  end.

Definition overlay (fs : list (string * json)) (doc : gmap string json) : gmap string json :=
  merge (λ new old, match new with Some v => Some v | None => old end) (fields_map fs) doc.

#[global] Instance map_index : SearchIndex index := {
  field ix id f := doc ← ix !! id; doc !! f;
  found ix id := bool_decide (is_Some (ix !! id));
  stored ix := (map_to_list ix).*1;
  doc_path v := match v with JStr s => if is_empty s then None else Some s | _ => None end;
  term := map_term;
  blend := map_merge;
  put_partial ix id fs :=
    let doc := default ∅ (ix !! id) in
    <[id := overlay (map (λ '(k, v), (k, map_merge (doc !! k) v)) fs) doc]> ix;
  assign_where ix q fs skipped :=
    map_imap (λ id doc, Some (if map_term (doc !! q.1) q.2 && negb (skipped id) then overlay fs doc else doc)) ix;
  remove ix id := delete id ix;
}.

Lemma fields_map_get (fs : list (string * json)) f : NoDup fs.*1 → fields_map fs !! f = dict_get fs f.
Proof.
  intros Hnd. unfold fields_map. destruct (dict_get fs f) as [v|] eqn:E.
  - by apply elem_of_list_to_map_1, dict_get_elem.
  - apply not_elem_of_list_to_map_1. intros Hin. apply dict_get_is_Some in Hin as [v Hv]. congruence.
Qed.

Lemma overlay_get fs doc f : NoDup fs.*1 →
  overlay fs doc !! f = match dict_get fs f with Some v => Some v | None => doc !! f end.
Proof.
  intros Hnd. unfold overlay. rewrite lookup_merge, fields_map_get by done.
  destruct (dict_get fs f), (doc !! f); reflexivity.
Qed.

Lemma map_dict_get (h : string → json → json) (fs : list (string * json)) f :
  dict_get (map (λ '(k, v), (k, h k v)) fs) f = h f <$> dict_get fs f.
Proof. induction fs as [|[k v] fs IH]; [done|]. cbn. by case_decide; subst. Qed.

Lemma map_keys (h : string → json → json) (fs : list (string * json)) : (map (λ '(k, v), (k, h k v)) fs).*1 = fs.*1.
Proof. induction fs as [|[k v] fs IH]; [done|]. cbn. by rewrite <-IH. Qed.

#[global] Instance map_index_laws : SearchIndexLaws index.
Proof.
  constructor; try done.
  - intros old [] Hv; try reflexivity. by destruct (Hv d).
  - intros ix id f v. cbn. intros Hf. apply bool_decide_eq_true. destruct (ix !! id); [by eexists|done].
  - intros ix id. cbn. rewrite bool_decide_eq_true, list_elem_of_fmap. split.
    + intros ([k doc] & -> & Hk%elem_of_map_to_list). by eexists.
    + intros [doc Hd]. exists (id, doc). split; [done|]. by apply elem_of_map_to_list.
  - intros ix. apply NoDup_fst_map_to_list.
  - intros ix id fs id'. cbn [found put_partial remove map_index]. destruct (bool_decide_reflect (id' = id)) as [->|Hne].
    + rewrite lookup_insert_eq. by apply bool_decide_eq_true; eexists.
    + by rewrite lookup_insert_ne.
  - intros ix id fs id' f Hnd. cbn [field put_partial map_index]. destruct (bool_decide_reflect (id' = id)) as [->|Hne].
    + rewrite lookup_insert_eq. cbn. rewrite overlay_get by (by rewrite map_keys). rewrite map_dict_get.
      destruct (ix !! id), (dict_get fs f); reflexivity.
    + by rewrite lookup_insert_ne.
  - intros ix q fs skipped id. cbn [found assign_where map_index]. rewrite map_lookup_imap. by destruct (ix !! id).
  - intros ix q fs skipped id f Hnd. cbn [field assign_where term map_index]. rewrite map_lookup_imap. destruct (ix !! id) as [doc|] eqn:E; cbn.
    + destruct (map_term _ _ && _); [|done]. by rewrite overlay_get.
    + done.
  - intros ix id id'. cbn [found put_partial remove map_index]. destruct (bool_decide_reflect (id' = id)) as [->|Hne]; cbn [negb andb].
    + by rewrite lookup_delete_eq.
    + by rewrite lookup_delete_ne.
  - intros ix id id' f. cbn [field remove map_index]. destruct (bool_decide_reflect (id' = id)) as [->|Hne]; cbn [negb andb].
    + by rewrite lookup_delete_eq.
    + by rewrite lookup_delete_ne.
Qed.

End MapIndex.
