(* ===== verification/CatalogService.v ===== *)
(** * Catalog service (services/catalog-service, app/services, app/routes/products.py)

    Module [CatalogRules] is [catalog_rules.py]: SKU normalisation, the event
    payload, and the decision whether a seller may list.  Module
    [CatalogService] has the products with their outbox, the question to the
    seller service behind its circuit breaker ([seller_client.py]), the handler
    that creates a product and the two reads.

    What can go wrong outside is an argument: the answer to the HTTP request,
    an error of the database at commit beyond its own constraints, and an error
    of the read-back after it. *)

From S2P Require Import Prelude PyValue PyText Session Resilience.
From Stdlib Require Import Ascii.
Import Resilience PyText.

Module CatalogRules.

Definition PRODUCT_EVENT_FIELDS : list string :=
  ["id"; "seller_id"; "category_id"; "sku"; "name"; "description"; "price_cents"; "is_active"; "created_at"].

Definition PLATFORM_SELLER_ID := "00000000-0000-0000-0000-000000000001".

(** ** SKUs: [^[A-Z0-9][A-Z0-9._-]{1,63}$] on stripped, upper-cased text *)

Definition sku_first (c : Ascii.ascii) : bool :=
  ((65 <=? code c) && (code c <=? 90)) || ((48 <=? code c) && (code c <=? 57)).

Definition sku_rest (c : Ascii.ascii) : bool :=
  sku_first c || bool_decide (c = "."%char) || bool_decide (c = "_"%char) || bool_decide (c = "-"%char).

Fixpoint all_chars (p : Ascii.ascii → bool) (s : string) : bool :=
  match s with EmptyString => true | String c s' => p c && all_chars p s' end.

Definition sku_matches (s : string) : bool :=
  match s with
  | EmptyString => false
  | String c s' =>
      sku_first c && all_chars sku_rest s' && (1 <=? Z.of_nat (String.length s')) && (Z.of_nat (String.length s') <=? 63)
  end.

(** The normal form, or the text of [InvalidSku]. *)
Definition normalize_sku (raw : option string) : string + string :=
  match raw with
  | None => inl "sku is required"
  | Some raw =>
      let candidate := upper (strip raw) in
      if is_empty candidate then inl "sku is required"
      else if negb (sku_matches candidate)
      then inl ("sku must be 2-64 characters of A-Z, 0-9, dot, underscore or hyphen, starting alphanumeric (got "
                +:+ repr_str raw +:+ ")")
      else inr candidate
  end.

(** ** The event *)

Record Product := {
  p_id : string;
  p_seller_id : string;
  p_category_id : string;
  p_sku : string;
  p_name : string;
  p_description : option string;
  p_price_cents : Z;
  p_is_active : bool;
  p_created_at : Z;
}.

Definition or_null (o : option string) : json := match o with Some s => JStr s | None => JNull end.

(** The payload, or the text of the [RuntimeError] about missing fields. *)
Definition build_product_event (product : Product) (created_at_iso : string) : string + list (string * json) :=
  let payload :=
    [("id", JStr (p_id product)); ("seller_id", JStr (p_seller_id product));
     ("category_id", JStr (p_category_id product)); ("sku", JStr (p_sku product)); ("name", JStr (p_name product));
     ("description", or_null (p_description product)); ("price_cents", JInt (p_price_cents product));
     ("is_active", JBool (p_is_active product)); ("created_at", JStr created_at_iso)] in
  let missing := List.filter (λ f, negb (f in_ payload.*1)) PRODUCT_EVENT_FIELDS in
  if bool_decide (missing = []) then inr payload
  else inl ("ProductCreated payload is missing [" +:+ join ", " (map repr_str missing) +:+
            "]; the read model would index nulls for them").

(** ** May this seller list? *)

Inductive ListingOutcome := ALLOWED | REFUSED | UNKNOWN_SELLER | UNAVAILABLE.

#[global] Instance ListingOutcome_eq : EqDecision ListingOutcome.
Proof. solve_decision. Defined.

Record ListingDecision := { outcome : ListingOutcome; detail : string }.

Definition ok (d : ListingDecision) : bool := bool_decide (outcome d = ALLOWED).

(** [None] is the [KeyError]. *)
Definition http_status (d : ListingDecision) : option Z :=
  match outcome d with REFUSED => Some 403 | UNKNOWN_SELLER => Some 404 | UNAVAILABLE => Some 503 | ALLOWED => None end.

(** [inl] is the [AttributeError] of a body that is not an object. *)
Definition decide_listing (repr : json → string) (permission : json) (unreachable_reason : option string)
    : string + ListingDecision :=
  let reason := default "" unreachable_reason in
  if negb (is_empty reason)
  then inr {| outcome := UNAVAILABLE;
              detail := "cannot verify the seller right now (" +:+ reason +:+
                        "); listings are refused rather than accepted unchecked" |}
  else match permission with
  | JNull => inr {| outcome := UNKNOWN_SELLER; detail := "no such seller" |}
  | JObj d =>
      match dict_get d "may_list_products" with
      | Some (JBool true) => inr {| outcome := ALLOWED; detail := "" |}
      | _ =>
          let status := default (JStr "unknown") (dict_get d "status") in
          inr {| outcome := REFUSED; detail := "seller is " +:+ py_str repr status +:+ " and may not list products" |}
      end
  | _ => inl "object has no attribute 'get'"
  end.

(** ** Lemmas *)

Lemma all_chars_spec p s : all_chars p s = true ↔ ∀ c, has_char c s = true → p c = true.
Proof.
  induction s as [|a s IH]; cbn; [done|]. rewrite andb_true_iff, IH. split.
  - intros [Ha Hs] c [Hc|Hc]%orb_true_iff; [apply bool_decide_eq_true in Hc; by subst|auto].
  - intros H. split; [apply H; by rewrite bool_decide_true|]. intros c Hc. apply H. rewrite Hc. apply orb_true_r.
Qed.

Lemma sku_first_char c : sku_first c = true → is_space c = false ∧ upper_char c = c.
Proof.
  unfold sku_first, is_space, upper_char. intros H. split.
  - apply orb_true_iff in H as [H|H]; bool_to_prop; apply orb_false_iff; split; apply andb_false_iff;
      rewrite !Z.leb_gt; lia.
  - destruct ((97 <=? code c) && (code c <=? 122)) eqn:E; [|done].
    apply orb_true_iff in H as [H|H]; bool_to_prop; lia.
Qed.

Lemma sku_rest_char c : sku_rest c = true → is_space c = false ∧ upper_char c = c.
Proof.
  unfold sku_rest. intros [[[H|H]%orb_true_iff|H]%orb_true_iff|H]%orb_true_iff; [by apply sku_first_char|..];
    apply bool_decide_eq_true in H; subst; done.
Qed.

Lemma map_chars_id f s : (∀ c, has_char c s = true → f c = c) → map_chars f s = s.
Proof.
  induction s as [|a s IH]; cbn; intros H; [done|]. rewrite H by (by rewrite bool_decide_true).
  rewrite IH; [done|]. intros c Hc. apply H. rewrite Hc. apply orb_true_r.
Qed.

Lemma sku_matches_chars s : sku_matches s = true → ∀ c, has_char c s = true → is_space c = false ∧ upper_char c = c.
Proof.
  destruct s as [|a s]; [done|]. cbn. intros H c Hc. bool_to_prop.
  apply orb_true_iff in Hc as [Hc|Hc].
  - apply bool_decide_eq_true in Hc as <-. by apply sku_first_char.
  - apply sku_rest_char. by eapply all_chars_spec.
Qed.

(** A normal SKU is its own normal form. *)
Lemma sku_normal s : sku_matches s = true → normalize_sku (Some s) = inr s.
Proof.
  intros Hs. pose proof (sku_matches_chars s Hs) as Hc. unfold normalize_sku.
  assert (E : upper (strip s) = s).
  { rewrite strip_lacks by (intros c H; by apply Hc). apply map_chars_id. intros c H. by apply Hc. }
  rewrite E, Hs. unfold is_empty. rewrite bool_decide_false; [done|]. by intros ->.
Qed.

Lemma normalize_matches raw s : normalize_sku raw = inr s → sku_matches s = true.
Proof.
  destruct raw as [raw|]; [|done]. unfold normalize_sku. destruct (is_empty _); [done|].
  destruct (sku_matches _) eqn:E; cbn [negb]; [|done]. by intros [= <-].
Qed.

Lemma event_complete product t : ∃ payload, build_product_event product t = inr payload ∧ payload.*1 = PRODUCT_EVENT_FIELDS.
Proof. by eexists. Qed.

(** Only an explicit yes is a yes. *)
Lemma listing_allowed repr permission reason d : decide_listing repr permission reason = inr d →
  ok d = true → default "" reason = "" ∧ ∃ o, permission = JObj o ∧ dict_get o "may_list_products" = Some (JBool true).
Proof.
  unfold decide_listing, ok. intros H Hok%bool_decide_eq_true. destruct (is_empty _) eqn:E; cbn [negb] in H; [|by simplify_eq].
  apply bool_decide_eq_true in E. split; [done|].
  destruct permission as [| | | | | |o]; try done; [by simplify_eq|]. exists o. split; [done|].
  destruct (dict_get o "may_list_products") as [[|[]| | | | |]|]; by simplify_eq.
Qed.

(** A decision that is not a yes has a status. *)
Lemma refused_status repr permission reason d : decide_listing repr permission reason = inr d → ok d = false →
  ∃ st, http_status d = Some st ∧ st ∈ [403; 404; 503] ∧ (st = 503 ↔ default "" reason ≠ "").
Proof.
  unfold decide_listing, ok, http_status. intros H Hok%bool_decide_eq_false.
  destruct (is_empty _) eqn:E; cbn [negb] in H; unfold is_empty in E; bool_to_prop.
  - destruct permission as [| | | | | |o]; try done; simplify_eq; cbn in *; [exists 404; split_and!; [done|by_compute|done]|].
    destruct (dict_get o "may_list_products") as [[|[]| | | | |]|]; simplify_eq; cbn in *; try done;
      (exists 403; split_and!; [done|by_compute|done]).
  - simplify_eq. exists 503. split_and!; [done|by_compute|done].
Qed.

Example normalize_ex : normalize_sku (Some "  abc-1 ") = inr "ABC-1". Proof. reflexivity. Qed.
Example normalize_bad : normalize_sku (Some "x") =
  inl "sku must be 2-64 characters of A-Z, 0-9, dot, underscore or hyphen, starting alphanumeric (got 'x')".
Proof. reflexivity. Qed.

End CatalogRules.

Module CatalogService.
Import CatalogRules.

(** ** State *)

Record cdb := {
  products : list Product;
  categories : list string;
  ca_outbox : list OutboxMessage;
  ca_keys : list string;
  ca_draws : nat;
}.

Definition with_products f d : cdb :=
  {| products := f (products d); categories := categories d; ca_outbox := ca_outbox d; ca_keys := ca_keys d; ca_draws := ca_draws d |}.
Definition with_outbox f d : cdb :=
  {| products := products d; categories := categories d; ca_outbox := f (ca_outbox d); ca_keys := ca_keys d; ca_draws := ca_draws d |}.
Definition with_keys f d : cdb :=
  {| products := products d; categories := categories d; ca_outbox := ca_outbox d; ca_keys := f (ca_keys d); ca_draws := ca_draws d |}.
Definition draw d : cdb :=
  {| products := products d; categories := categories d; ca_outbox := ca_outbox d; ca_keys := ca_keys d; ca_draws := S (ca_draws d) |}.

Record ProductCreate := {
  pc_seller_id : option string;
  pc_category_id : string;
  pc_sku : string;
  pc_name : string;
  pc_description : option string;
  pc_price_cents : Z;
  pc_is_active : bool;
}.

(** ** Asking the seller service (seller_client.py) *)

Inductive http_answer := NoAnswer (error_name : string) | Answer (status_code : Z) (body : option json).

(** The breaker afterwards, and [(permission, unreachable)]; [inl] is a body
    that is not JSON. *)
Definition fetch_permission (now later : Z) (a : http_answer) (b : AsyncCircuitBreaker)
    : AsyncCircuitBreaker * (string + json * option string) :=
  match enter now b with
  | (b, Some (CircuitOpenError _)) => (b, inr (JNull, Some "seller-service circuit is open"))
  | (b, Some (BulkheadFullError _)) => (b, inr (JNull, Some "too many seller checks in flight"))
  | (b, None) =>
      match a with
      | NoAnswer e => (leave later (Some None) b, inr (JNull, Some ("seller-service unreachable (" +:+ e +:+ ")")))
      | Answer status body =>
          (leave later None b,
           if status =? 404 then inr (JNull, None)
           else if 500 <=? status then inr (JNull, Some ("seller-service returned " +:+ dec status))
           else if negb (status =? 200) then inr (JNull, Some ("seller-service rejected the query (" +:+ dec status +:+ ")"))
           else match body with Some v => inr (v, None) | None => inl "JSONDecodeError" end)
      end
  end.

(** [breaker_state()] *)
Definition breaker_state (b : AsyncCircuitBreaker) : State * Z * Z * Z :=
  (state b, total_calls b, total_failures b, total_short_circuited b).

(** ** Creating a product (catalog_service.py) *)

Inductive db_error := IntegrityError (orig : string) | DatabaseError (text : string).

Section handlers.
Context (uuid4 : nat → string) (isoformat : Z → string) (repr : json → string).
Context (duplicate_sku foreign_key : string → string).
Context (fault : cdb → option db_error) (refresh_error : option string).

(** The table's own constraints, for the row about to be stored. *)
Definition constraint_error (product : Product) (d : cdb) : option db_error :=
  if existsb (λ p, p_sku p =?s p_sku product) (products d) then Some (IntegrityError (duplicate_sku (p_sku product)))
  else if negb (p_category_id product in_ categories d) then Some (IntegrityError (foreign_key (p_category_id product)))
  else None.

Definition listing_error (d : ListingDecision) : exn :=
  match http_status d with Some st => Http st (detail d) | None => Raised "KeyError" end.

(** What is raised for an [IntegrityError] whose text is [orig]. *)
Definition integrity_error (sku orig : string) : exn :=
  if contains "ux_products_sku" orig || contains "sku" orig
  then Http 409 ("sku " +:+ repr_str sku +:+ " already exists") else Http 422 orig.

Definition new_product (id sku : string) (product_in : ProductCreate) (now : Z) : Product :=
  {| p_id := id; p_seller_id := default PLATFORM_SELLER_ID (pc_seller_id product_in);
     p_category_id := pc_category_id product_in; p_sku := sku; p_name := pc_name product_in;
     p_description := pc_description product_in; p_price_cents := pc_price_cents product_in;
     p_is_active := pc_is_active product_in; p_created_at := now |}.

Definition product_message (product : Product) (payload : list (string * json)) (now : Z) : OutboxMessage :=
  {| aggregate_type := "Product"; aggregate_id := p_id product; msg_type := "ProductCreated"; payload := payload;
     msg_created_at := now |}.

(** [fetched] is what [fetch_permission] returned or raised. *)
Definition create_product (product_in : ProductCreate) (idempotency_key : string)
    (fetched : string + json * option string) (now : Z) : M cdb Product :=
  known <- query (λ d, idempotency_key in_ ca_keys d) ;;
  if known then raise (Http 409 "Idempotency key already processed")
  else
  exec (with_keys (λ ks, ks ++ [idempotency_key])) ;;;
  match normalize_sku (Some (pc_sku product_in)) with
  | inl e => rollback ;;; raise (Http 422 e)
  | inr sku =>
  match fetched with
  | inl e => raise (Raised e)
  | inr (permission, unreachable) =>
  match decide_listing repr permission unreachable with
  | inl e => raise (Raised e)
  | inr decision =>
  if negb (ok decision) then rollback ;;; raise (listing_error decision)
  else
  n <- query ca_draws ;;
  exec draw ;;;
  let product := new_product (uuid4 n) sku product_in now in
  match build_product_event product (isoformat now) with
  | inl e => raise (Raised e)
  | inr payload =>
  refused <- query (λ d, match constraint_error product d with Some e => Some e | None => fault d end) ;;
  exec (with_products (λ ps, ps ++ [product])) ;;;
  exec (with_outbox (λ ms, ms ++ [product_message product payload now])) ;;;
  match refused with
  | Some (IntegrityError orig) => rollback ;;; raise (integrity_error sku orig)
  | Some (DatabaseError text) => rollback ;;; raise (Http 500 text)
  | None =>
  commit (λ _, None) ;;;
  match refresh_error with
  | Some text => rollback ;;; raise (Http 500 text)
  | None => ret product
  end end end end end end.

(** ** Reads (routes/products.py) *)

Definition get_product_endpoint (product_id : string) : M cdb Product :=
  found <- query (λ d, List.find (λ p, p_id p =?s product_id) (products d)) ;;
  match found with Some p => ret p | None => raise (Http 404 "Product not found") end.

Definition list_products_endpoint (seller_id : string) (limit : nat) : M cdb (list Product) :=
  query (λ d, take (Nat.min limit 200)
    (sort_le (λ a b, p_created_at b <=? p_created_at a) (List.filter (λ p, p_seller_id p =?s seller_id) (products d)))).

End handlers.

(** The question is only asked for a new key and a well-formed SKU. *)
Definition asks (product_in : ProductCreate) (idempotency_key : string) (d : cdb) : bool :=
  negb (idempotency_key in_ ca_keys d) &&
  match normalize_sku (Some (pc_sku product_in)) with inr _ => true | inl _ => false end.

(** ** What one request does *)

(** The row and the message a creation stores. *)
Definition stores (isoformat : Z → string) (product : Product) (now : Z) (key : string) (d d' : cdb) : Prop :=
  ∃ payload, build_product_event product (isoformat now) = inr payload ∧
    products d' = products d ++ [product] ∧ ca_outbox d' = ca_outbox d ++ [product_message product payload now] ∧
    ca_keys d' = ca_keys d ++ [key] ∧ categories d' = categories d ∧ ca_draws d' = S (ca_draws d).

Section effect.
Context (uuid4 : nat → string) (isoformat : Z → string) (repr : json → string).
Context (duplicate_sku foreign_key : string → string).
Context (fault : cdb → option db_error) (refresh_error : option string).

(** Everything a creation can come to: refused with nothing changed, or stored
    (and then answered, unless the read-back failed). *)
Lemma create_effect product_in key fetched now d :
  let out := run (create_product uuid4 isoformat repr duplicate_sku foreign_key fault refresh_error product_in key fetched now) d in
  (out.1 = d ∧ ∃ e, out.2 = inl e) ∨
  ∃ sku permission decision,
    let product := new_product (uuid4 (ca_draws d)) sku product_in now in
    normalize_sku (Some (pc_sku product_in)) = inr sku ∧ fetched = inr permission ∧
    decide_listing repr permission.1 permission.2 = inr decision ∧ ok decision = true ∧ key ∉ ca_keys d ∧
    constraint_error duplicate_sku foreign_key product d = None ∧ stores isoformat product now key d out.1 ∧
    out.2 = match refresh_error with Some text => inl (Http 500 text) | None => inr product end.
Proof.
  cbv zeta. unfold run, create_product. symex. unfold in_listb.
  destruct (bool_decide_reflect (key ∈ ca_keys d)) as [Hk|Hk]; [left; split; [done|by eexists]|]. symex.
  destruct (normalize_sku (Some (pc_sku product_in))) as [e|sku] eqn:Es; [symex; left; split; [done|by eexists]|].
  destruct fetched as [e|[permission unreachable]]; [left; split; [done|by eexists]|].
  destruct (decide_listing repr permission unreachable) as [e|decision] eqn:Ed; [left; split; [done|by eexists]|].
  destruct (ok decision) eqn:Eok; cbn [negb]; [|symex; left; split; [done|by eexists]].
  symex. set (product := new_product (uuid4 (ca_draws d)) sku product_in now). cbv zeta.
  destruct (event_complete product (isoformat now)) as (payload & Ep & _). cbn [ca_draws with_keys]. fold product. rewrite Ep. symex.
  change (constraint_error _ _ product (draw _)) with (constraint_error duplicate_sku foreign_key product d).
  destruct (constraint_error duplicate_sku foreign_key product d) as [[orig|text]|] eqn:Ec;
    [symex; left; split; [done|by eexists]..|].
  destruct (fault _) as [[orig|text]|]; [symex; left; split; [done|by eexists]..|]. symex. right.
  exists sku, (permission, unreachable), decision. fold product. cbn [fst snd].
  destruct refresh_error as [text|]; symex; cbn [committed fst snd]; (split_and!; try done; by exists payload).
Qed.

End effect.

(** ** The catalogue stays in order *)

Record catalog_ok (uuid4 : nat → string) (isoformat : Z → string) (d : cdb) : Prop := {
  ct_skus : NoDup (map p_sku (products d));
  ct_normal : ∀ p, p ∈ products d → sku_matches (p_sku p) = true ∧ p_category_id p ∈ categories d;
  ct_ids : ∀ p, p ∈ products d → ∃ n, (n < ca_draws d)%nat ∧ p_id p = uuid4 n;
  ct_distinct : NoDup (map p_id (products d));
  ct_told : Forall2 (λ p m, ∃ payload now, build_product_event p (isoformat now) = inr payload ∧ m = product_message p payload now)
              (products d) (ca_outbox d);
}.

Lemma constraint_none dup fk product d : constraint_error dup fk product d = None →
  p_sku product ∉ map p_sku (products d) ∧ p_category_id product ∈ categories d.
Proof.
  unfold constraint_error. destruct (existsb _ _) eqn:E; [done|]. unfold in_listb.
  destruct (bool_decide_reflect (p_category_id product ∈ categories d)) as [Hc|]; cbn [negb]; [|done]. intros _. split; [|done].
  intros (p & Hp & Hin)%elem_of_map. apply not_true_iff_false in E. apply E. apply existsb_exists. exists p.
  rewrite <-list_elem_of_In. split; [done|]. by apply bool_decide_eq_true.
Qed.

Lemma stores_ok uuid4 isoformat dup fk product_in sku now key d d' `{!Inj (=) (=) uuid4} :
  let product := new_product (uuid4 (ca_draws d)) sku product_in now in
  normalize_sku (Some (pc_sku product_in)) = inr sku → constraint_error dup fk product d = None →
  stores isoformat product now key d d' → catalog_ok uuid4 isoformat d → catalog_ok uuid4 isoformat d'.
Proof.
  cbv zeta. intros Hs%normalize_matches [Hnew Hcat]%constraint_none (payload & Hp & Ep & Eo & _ & Ec & Ed) [H1 H2 H3 H4 H5].
  assert (Hid : uuid4 (ca_draws d) ∉ map p_id (products d)).
  { intros (p & E & (n & Hn & E')%H3)%elem_of_map. rewrite E' in E. apply (inj uuid4) in E. lia. }
  constructor; rewrite ?Ep, ?Eo, ?Ec, ?Ed, ?map_app.
  - apply NoDup_app. split_and!; [done| |apply NoDup_singleton]. by intros x Hx ->%list_elem_of_singleton.
  - intros p [Hin| ->%list_elem_of_singleton]%elem_of_app; [by apply H2|by split].
  - intros p [Hin| ->%list_elem_of_singleton]%elem_of_app.
    + destruct (H3 p Hin) as (n & ? & ?). exists n. split; [lia|done].
    + exists (ca_draws d). split; [lia|done].
  - apply NoDup_app. split_and!; [done| |apply NoDup_singleton]. by intros x Hx ->%list_elem_of_singleton.
  - apply Forall2_app; [done|]. constructor; [|constructor]. by exists payload, now.
Qed.

(** ** The seller service is asked, and obeyed *)

Definition answered_yes (a : http_answer) : Prop :=
  ∃ o, a = Answer 200 (Some (JObj o)) ∧ dict_get o "may_list_products" = Some (JBool true).

(** The request went out and was answered about the seller. *)
Definition usable (now : Z) (a : http_answer) (b : AsyncCircuitBreaker) : Prop :=
  (enter now b).2 = None ∧ ∃ st body, a = Answer st body ∧ (st = 200 ∨ st = 404).

Lemma fetch_cases now later a b : let asked := (fetch_permission now later a b).2 in
  (¬ usable now a b ∧ ∃ why, asked = inr (JNull, Some why) ∧ why ≠ "") ∨
  (∃ body, usable now a b ∧ a = Answer 404 body ∧ asked = inr (JNull, None)) ∨
  (∃ body, usable now a b ∧ a = Answer 200 body ∧
     asked = match body with Some v => inr (v, None) | None => inl "JSONDecodeError" end).
Proof.
  cbv zeta. unfold fetch_permission, usable. destruct (enter now b) as [b1 [[r|l]|]]; cbn [fst snd];
    [left; split; [by intros [? _]|by eexists]..|].
  destruct a as [e|st body]; [left; split; [by intros (_ & ? & ? & ? & _)|by eexists]|].
  destruct (st =? 404) eqn:E4; bool_to_prop; [subst; right; left; exists body; by eauto 8|].
  assert (Hn : st ≠ 200 → ¬ ((None : option refusal) = None ∧ ∃ st0 body0, Answer st body = Answer st0 body0 ∧ (st0 = 200 ∨ st0 = 404))).
  { intros Hne (_ & s & bd & [= <- <-] & [?|?]); lia. }
  destruct (500 <=? st) eqn:E5; bool_to_prop; [left; split; [apply Hn; lia|by eexists]|].
  destruct (st =? 200) eqn:E2; cbn [negb]; bool_to_prop; [subst|left; split; [by apply Hn|by eexists]].
  right. right. exists body. by eauto 8.
Qed.

(** Nothing is listed without permission: a product is stored only when
    the seller service answered 200 with an explicit [true], the key is new and
    the SKU has a normal form, which is what is stored; the row, its event with
    every field the read model needs and the key are then committed together.
    Any other outcome leaves the database as it was, so the key can be used
    again, and a seller that could not be checked is a 503, an unknown one a
    404, and one who may not list a 403. *)
Theorem listings_fail_closed (uuid4 : nat → string) (isoformat : Z → string) (repr : json → string)
    (duplicate_sku foreign_key : string → string) (fault : cdb → option db_error) (refresh_error : option string)
    (product_in : ProductCreate) (key : string) (a : http_answer) (t later now : Z) (b : AsyncCircuitBreaker) (d : cdb) :
  let asked := (fetch_permission t later a b).2 in
  let out := run (create_product uuid4 isoformat repr duplicate_sku foreign_key fault refresh_error product_in key asked now) d in
  (out.1 = d ∧ (∃ e, out.2 = inl e) ∨
   answered_yes a ∧ key ∉ ca_keys d ∧ ∃ p payload, stores isoformat p now key d out.1 ∧
     build_product_event p (isoformat now) = inr payload ∧ payload.*1 = PRODUCT_EVENT_FIELDS ∧
     normalize_sku (Some (pc_sku product_in)) = inr (p_sku p) ∧ normalize_sku (Some (p_sku p)) = inr (p_sku p) ∧
     (refresh_error = None → out.2 = inr p)) ∧
  (asks product_in key d = true →
     (¬ usable t a b → ∃ text, out.2 = inl (Http 503 text)) ∧
     (usable t a b → ∀ body, a = Answer 404 body → out.2 = inl (Http 404 "no such seller")) ∧
     (usable t a b → ∀ o, a = Answer 200 (Some (JObj o)) → dict_get o "may_list_products" ≠ Some (JBool true) →
        ∃ text, out.2 = inl (Http 403 text))).
Proof.
  cbv zeta. split.
  - destruct (create_effect uuid4 isoformat repr duplicate_sku foreign_key fault refresh_error product_in key
        (fetch_permission t later a b).2 now d) as [[? ?]|(sku & perm & dec & Hs & Hf & Hd & Hok & Hk & _ & Hst & Hr)];
      [by left|]. right.
    destruct (listing_allowed _ _ _ _ Hd Hok) as (Hreason & o & Ho & Hyes). split; [|split; [done|]].
    + destruct (fetch_cases t later a b) as [(_ & why & E & Hw)|[(body & _ & _ & E)|(body & _ & -> & E)]]; rewrite Hf in E.
      * injection E as ->. by destruct Hw.
      * injection E as ->. by cbn in Ho.
      * destruct body as [v|]; [|done]. injection E as ->. cbn in Ho. subst. by exists o.
    + destruct (event_complete (new_product (uuid4 (ca_draws d)) sku product_in now) (isoformat now)) as (payload & Ep & Ek).
      eexists _, payload. split_and!; [exact Hst|exact Ep|exact Ek|exact Hs|by apply sku_normal, (normalize_matches (Some (pc_sku product_in)))|].
      intros ->. exact Hr.
  - intros Hasks. unfold asks, in_listb in Hasks. apply andb_true_iff in Hasks as [Hk%negb_true_iff Hs].
    destruct (normalize_sku (Some (pc_sku product_in))) as [|sku] eqn:Es; [done|].
    unfold run, create_product. symex. unfold in_listb. rewrite Hk. symex. rewrite Es.
    destruct (fetch_cases t later a b) as [(Hu & why & -> & Hw)|[(body & Hu & -> & ->)|(body & Hu & -> & ->)]].
    + unfold decide_listing, is_empty. cbn [default]. rewrite bool_decide_false by done. cbn. split; [by eexists|]. split; intros; by destruct Hu.
    + cbn. by split_and!.
    + split; [done|]. split; [by intros _ ? [=]|]. intros _ o [= ->] Hno. unfold decide_listing. cbn [default].
      change (is_empty "") with true. cbn [negb].
      destruct (dict_get o "may_list_products") as [[|[]| | | | |]|]; try done; cbn; by eexists.
Qed.

(** A seller service that answers every question with a 5xx looks healthy to
    the breaker: the exchange ends as a success, which even closes a circuit
    that was probing. *)
Lemma answered_5xx_closes_circuit (now later status : Z) (body : option json) (b : AsyncCircuitBreaker) :
  500 <= status → (enter now b).2 = None →
  let b' := (fetch_permission now later (Answer status body) b).1 in
  state b' = CLOSED ∧ consecutive_failures b' = 0 ∧ total_failures b' = total_failures b.
Proof.
  intros _ He. cbv zeta. unfold fetch_permission. destruct (enter now b) as [b1 o] eqn:E. cbn in He. subst o. cbn.
  split_and!; [done|done|]. unfold enter, _before_call in E. rewrite Z.add_0_r.
  destruct (state b); [|destruct (_ <? _)|destruct (probe_in_flight b)]; try done;
    (destruct (_ <=? _); [done|]; injection E as <-; cbn; lia).
Qed.

Lemma empty_catalog_ok uuid4 isoformat cats : catalog_ok uuid4 isoformat
  {| products := []; categories := cats; ca_outbox := []; ca_keys := []; ca_draws := 0 |}.
Proof. constructor; cbn; try (by intros ? ?%not_elem_of_nil); constructor. Qed.

(** Any one creation keeps the catalogue in order. *)
Lemma create_ok uuid4 isoformat repr dup fk fault refresh product_in key fetched now d `{!Inj (=) (=) uuid4} :
  catalog_ok uuid4 isoformat d →
  catalog_ok uuid4 isoformat (run (create_product uuid4 isoformat repr dup fk fault refresh product_in key fetched now) d).1.
Proof.
  intros Hok. destruct (create_effect uuid4 isoformat repr dup fk fault refresh product_in key fetched now d)
    as [[-> _]|(sku & perm & dec & Hs & _ & _ & _ & _ & Hc & Hst & _)]; [done|]. by eapply stores_ok.
Qed.

(** ** Concrete runs *)

Definition sample_category := "cat-1".
Definition empty_catalog : cdb :=
  {| products := []; categories := [sample_category]; ca_outbox := []; ca_keys := []; ca_draws := 0 |}.

Definition sample_product (sku : string) : ProductCreate :=
  {| pc_seller_id := Some "seller-1"; pc_category_id := sample_category; pc_sku := sku; pc_name := "Kettle";
     pc_description := None; pc_price_cents := 4500; pc_is_active := true |}.

Definition sample_yes : http_answer :=
  Answer 200 (Some (JObj [("status", JStr "active"); ("may_list_products", JBool true)])).

Definition sample_create (sku key : string) (a : http_answer) (d : cdb) : cdb * (exn + Product) :=
  run (create_product unary_id dec (λ _, "...") (λ s, "duplicate key value violates ux_products_sku")
         (λ c, "violates foreign key constraint") (λ _, None) None (sample_product sku) key
         (fetch_permission 0 0 a (new_breaker 5 30 10)).2 7) d.

Definition listed_once : cdb := (sample_create " abc-1" "k1" sample_yes empty_catalog).1.

Example first_listing : map p_sku (products listed_once) = ["ABC-1"] ∧ length (ca_outbox listed_once) = 1%nat.
Proof. by_compute. Qed.

Example same_sku_again : (sample_create "Abc-1 " "k2" sample_yes listed_once).2 = inl (Http 409 "sku 'ABC-1' already exists").
Proof. reflexivity. Qed.

Example truthy_is_not_true :
  (sample_create "abc-2" "k2" (Answer 200 (Some (JObj [("may_list_products", JStr "true")]))) listed_once).2 =
  inl (Http 403 "seller is unknown and may not list products").
Proof. reflexivity. Qed.

Example outage_refuses : answered 201 (sample_create "abc-2" "k2" (Answer 502 None) listed_once).2 = 503.
Proof. reflexivity. Qed.

End CatalogService.
