(* ===== verification/ReindexWorker.v ===== *)
(** * Reindex worker (workers/reindex-worker, app/reindex_rules.py and app/main.py)

    Module [ReindexRules] has the rules: the fields a backfill may write, the
    cursor, the freshness guard, and which documents may be reaped.  Module
    [ReindexWorker] has one backfill pass and one reap pass over the search
    index and the catalog's table.

    Other writers work on both while a pass runs.  Each batch sees its own
    state of the table, and before each row, and between the worker's read of a
    document and its write, any writes of others may happen.  The endless loop
    with its sleep is not modelled.  [while True] has fuel; [backfill_visits_every_product]
    shows how much is enough. *)

From S2P Require Import Prelude PyValue PyJson ReadModel CatalogService.
Import ReadModel CatalogRules CatalogService.

Module ReindexRules.

Definition CATALOG_FIELDS : list string :=
  ["product_id"; "seller_id"; "sku"; "name"; "description"; "is_active"; "base_price_cents"; "category_id"; "updated_at"].

Definition CATALOG_TIMESTAMP_FIELD := "catalog_updated_at".

Definition FOREIGN_FIELDS : list string :=
  ["price_cents"; "quantity_available"; "seller_may_sell"; "seller_rating"; "seller_review_count";
   "seller_on_time_dispatch_rate"; "seller_cancellation_rate"; "seller_return_rate"; "seller_confidence";
   "seller_location"; "seller_signals_updated_at"].

Definition DEFAULT_BATCH_SIZE : nat := 500.
Definition CATALOG_MARKER_FIELDS : list string := ["sku"; "catalog_updated_at"].
Definition DEFAULT_REAP_GRACE_SECONDS : Z := 3600.

Record Cursor := { cu_updated_at : option Z; cu_product_id : option string }.

Definition start : Cursor := {| cu_updated_at := None; cu_product_id := None |}.

Definition at_start (c : Cursor) : bool :=
  match cu_updated_at c, cu_product_id c with None, None => true | _, _ => false end.

(** A column of a row: a timestamp, or a value that JSON has too. *)
Inductive cell := Val (v : json) | Time (t : Z).

(** [datetime.fromisoformat]: an instant, or the wall clock of a naive timestamp. *)
Inductive stamp := Aware (instant : Z) | Naive (wall : Z).

Definition in_utc (s : stamp) : Z := match s with Aware t | Naive t => t end.

Section rules.
Context (isoformat : Z → string) (fromisoformat : string → option stamp).

Definition parse_timestamp (value : cell) : option Z :=
  match value with
  | Time t => Some t
  | Val (JStr s) => if is_empty s then None else in_utc <$> fromisoformat (replace "Z" "+00:00" (strip s))
  | Val _ => None
  end.

Definition should_index (source_updated_at indexed_updated_at : cell) : bool :=
  match parse_timestamp indexed_updated_at with
  | None => true
  | Some indexed =>
      match parse_timestamp source_updated_at with
      | None => true
      | Some source => indexed <=? source
      end
  end.

Record ReapDecision := { reap : bool; reason : string }.

(** [doc.get(f)] is neither [None] nor the empty string. *)
Definition present (v : json) : bool := match v with JNull => false | JStr s => negb (is_empty s) | _ => true end.

Definition is_reapable (doc : string → json) (now grace_seconds : Z) (allow_undated : bool) : ReapDecision :=
  let confirmed := List.filter (λ f, present (doc f)) CATALOG_MARKER_FIELDS in
  if negb (bool_decide (confirmed = []))
  then {| reap := false; reason := "catalog has confirmed it (" +:+ join ", " confirmed +:+ ")" |}
  else match parse_timestamp (Val (doc "updated_at")) with
  | None =>
      if allow_undated
      then {| reap := true; reason := "no catalog data and no timestamp; undated reaping enabled" |}
      else {| reap := false; reason := "no usable timestamp, so age is unknown" |}
  | Some seen_at =>
      let age := now - seen_at in
      let seconds := dec (Z.quot age 1000000) in
      if age <? grace_seconds * 1000000
      then {| reap := false; reason := "only " +:+ seconds +:+ "s old; grace is " +:+ dec grace_seconds +:+ "s" |}
      else {| reap := true; reason := "no catalog data and " +:+ seconds +:+ "s old" |}
  end.

Definition cell_json (c : cell) : json := match c with Val v => v | Time t => JStr (isoformat t) end.

(** A column that is absent or NULL writes nothing. *)
Definition emitted (row : list (string * cell)) (f : string) : option json :=
  match dict_get row f with Some (Val JNull) | None => None | Some c => Some (cell_json c) end.

Definition build_document (row : list (string * cell)) : list (string * json) :=
  let doc := omap (λ f, (λ v, (f, v)) <$> emitted row f) CATALOG_FIELDS in
  match dict_get doc "updated_at" with
  | Some v => dict_set doc CATALOG_TIMESTAMP_FIELD v
  | None => doc
  end.

Definition next_cursor (rows : list (list (string * cell))) (current : Cursor) : Cursor :=
  match last rows with
  | None => current
  | Some row =>
      {| cu_updated_at := parse_timestamp (default (Val JNull) (dict_get row "updated_at"));
         cu_product_id := match dict_get row "product_id" with Some (Val (JStr s)) => Some s | _ => None end |}
  end.

Definition is_complete {A} (rows : list A) (batch_size : nat) : bool := Nat.ltb (length rows) batch_size.

End rules.

End ReindexRules.

Module ReindexWorker.
Import ReindexRules.

(** ** The scan (SCAN_SQL) *)

(** [(created_at, id) > ($1, $2)] as Postgres compares rows; a uuid compares as
    its canonical text does. *)
Definition key_ltb (a b : Z * string) : bool :=
  (a.1 <? b.1) || ((a.1 =? b.1) && String.ltb a.2 b.2).

Definition key_leb (a b : Z * string) : bool := negb (key_ltb b a).

Definition row_key (p : Product) : Z * string := (p_created_at p, p_id p).

Definition after_cursor (c : Cursor) (p : Product) : bool :=
  match cu_updated_at c, cu_product_id c with
  | None, _ => true
  | Some t, Some i => key_ltb (t, i) (row_key p)
  | Some t, None => t <? p_created_at p
  end.

Definition selected (p : Product) : list (string * cell) :=
  [("product_id", Val (JStr (p_id p))); ("seller_id", Val (JStr (p_seller_id p))); ("sku", Val (JStr (p_sku p)));
   ("name", Val (JStr (p_name p))); ("description", Val (or_null (p_description p)));
   ("is_active", Val (JBool (p_is_active p))); ("category_id", Val (JStr (p_category_id p)));
   ("base_price_cents", Val (JInt (p_price_cents p))); ("updated_at", Time (p_created_at p))].

Definition scan (d : cdb) (c : Cursor) (batch : nat) : list Product :=
  take batch (List.filter (after_cursor c) (sort_le (λ p q, key_leb (row_key p) (row_key q)) (products d))).

(** ** One pass *)

Record stats := {
  passes : Z; scanned : Z; indexed : Z; skipped_newer : Z; errors : Z;
  reap_examined : Z; reap_kept : Z; reaped : Z;
}.

Definition count_pass (s i k : Z) (x : stats) : stats :=
  {| passes := passes x + 1; scanned := scanned x + s; indexed := indexed x + i; skipped_newer := skipped_newer x + k;
     errors := errors x; reap_examined := reap_examined x; reap_kept := reap_kept x; reaped := reaped x |}.

Definition count_errors (n : Z) (x : stats) : stats :=
  {| passes := passes x; scanned := scanned x; indexed := indexed x; skipped_newer := skipped_newer x;
     errors := errors x + n; reap_examined := reap_examined x; reap_kept := reap_kept x; reaped := reaped x |}.

Definition count_reap (e k r : Z) (x : stats) : stats :=
  {| passes := passes x; scanned := scanned x; indexed := indexed x; skipped_newer := skipped_newer x; errors := errors x;
     reap_examined := reap_examined x + e; reap_kept := reap_kept x + k; reaped := reaped x + r |}.

(** What happens around one row: writes of others before the read and between
    it and the write, and failures of the two requests. *)
Record row_weather := {
  meanwhile : list write;
  read_fails : bool;
  in_between : list write;
  write_fails : bool;
}.

Section worker.
Context {Ix : Type} `{SearchIndex Ix}.
Context (isoformat : Z → string) (fromisoformat : string → option stamp).

(** The state of a pass: the index, the rows seen so far, and the counters. *)
Record progress := { ix : Ix; seen : list Product; n_indexed : Z; n_skipped : Z; n_errors : Z }.

Definition indexed_timestamp (ix : Ix) (product_id : string) (fails : bool) : cell :=
  if fails then Val JNull else Val (default JNull (field ix product_id CATALOG_TIMESTAMP_FIELD)).

Definition write_document (product_id : string) (doc : list (string * json)) (ix : Ix) : string + Ix :=
  write_product (JStr product_id) CATALOG doc ix.

Definition process_row (env : nat → row_weather) (st : progress) (p : Product) : progress :=
  let w := env (length (seen st)) in
  let row := selected p in
  let step (i k e : Z) (x : Ix) :=
    {| ix := x; seen := seen st ++ [p]; n_indexed := n_indexed st + i; n_skipped := n_skipped st + k; n_errors := n_errors st + e |} in
  let ix1 := foldl apply (ix st) (meanwhile w) in
  let mark := indexed_timestamp ix1 (p_id p) (read_fails w) in
  if negb (should_index fromisoformat (default (Val JNull) (dict_get row "updated_at")) mark) then step 0 1 0 ix1
  else
    let ix2 := foldl apply ix1 (in_between w) in
    if write_fails w then step 0 0 1 ix2
    else match write_document (p_id p) (build_document isoformat row) ix2 with
         | inl _ => step 0 0 1 ix2
         | inr ix3 => step 1 0 0 ix3
         end.

(** [Finished], stopped by an exception of the database, or out of fuel. *)
Inductive ending := Finished | Stopped | OutOfFuel.

Fixpoint batches (fuel batch n : nat) (table : nat → option cdb) (env : nat → row_weather) (c : Cursor) (st : progress)
    : ending * progress :=
  match fuel with
  | O => (OutOfFuel, st)
  | S fuel =>
      match table n with
      | None => (Stopped, st)
      | Some d =>
          let rows := scan d c batch in
          let st := foldl (process_row env) st rows in
          if is_complete rows batch then (Finished, st)
          else batches fuel batch (S n) table env (next_cursor fromisoformat (map selected rows) c) st
      end
  end.

Definition run_pass (fuel batch : nat) (table : nat → option cdb) (env : nat → row_weather) (ix0 : Ix) (x : stats)
    : ending * progress * stats :=
  let '(e, st) := batches fuel batch 0 table env start
    {| ix := ix0; seen := []; n_indexed := 0; n_skipped := 0; n_errors := 0 |} in
  (e, st, match e with
          | Finished => count_errors (n_errors st) (count_pass (Z.of_nat (length (seen st))) (n_indexed st) (n_skipped st) x)
          | _ => count_errors (n_errors st) x
          end).

(** ** Reaping *)

(** Around one hit: what others do first, the table the check sees ([None] when
    the query fails), and whether the deletion fails. *)
Record hit_weather := { others : list write; catalog_now : option cdb; delete_fails : bool }.

Definition no_sku (ix : Ix) (id : string) : bool :=
  match field ix id "sku" with None | Some JNull => true | Some _ => false end.

(** ORPHAN_QUERY, in whatever order the engine keeps its documents. *)
Definition orphans (ix : Ix) : list string := take 1000 (List.filter (no_sku ix) (stored ix)).

Record reaping := { rix : Ix; examined : Z; kept : Z; gone : list string; failures : Z }.

Definition process_hit (grace now : Z) (undated : bool) (env : nat → hit_weather) (source : string → string → json)
    (st : reaping) (doc_id : string) : reaping :=
  let w := env (Z.to_nat (examined st)) in
  let ix1 := foldl apply (rix st) (others w) in
  let step (x : Ix) (k : Z) (g : list string) (f : Z) :=
    {| rix := x; examined := examined st + 1; kept := kept st + k; gone := gone st ++ g; failures := failures st + f |} in
  let decision := is_reapable fromisoformat (source doc_id) now grace undated in
  if negb (reap decision) then step ix1 1 [] 0
  else match catalog_now w with
  | None => step ix1 1 [] 1
  | Some d =>
      if existsb (λ p, p_id p =?s doc_id) (products d) then step ix1 1 [] 0
      else if delete_fails w then step ix1 0 [] 1
      else step (remove ix1 doc_id) 0 [doc_id] 0
  end.

Definition reap_pass (enabled : bool) (grace now : Z) (undated search_fails : bool) (env : nat → hit_weather) (ix0 : Ix) (x : stats)
    : reaping * stats :=
  let st0 := {| rix := ix0; examined := 0; kept := 0; gone := []; failures := 0 |} in
  if negb enabled then (st0, x)
  else if search_fails then (st0, count_errors 1 x)
  else
    let st := foldl (process_hit grace now undated env (λ id f, default JNull (field ix0 id f))) st0 (orphans ix0) in
    (st, count_errors (failures st) (count_reap (examined st) (kept st) (Z.of_nat (length (gone st))) x)).

End worker.

(** ** The key order *)

Definition key_lt (a b : Z * string) : Prop := key_ltb a b = true.

Lemma key_lt_irrefl a : ¬ key_lt a a.
Proof. unfold key_lt, key_ltb. rewrite text_lt_irrefl, Z.ltb_irrefl, andb_false_r. done. Qed.

#[global] Instance key_lt_trans : Transitive key_lt.
Proof.
  intros [a s] [b t] [c u]. unfold key_lt, key_ltb. cbn [fst snd]. intros H1 H2. apply orb_true_iff in H1, H2.
  apply orb_true_iff. rewrite !andb_true_iff, !Z.ltb_lt, !Z.eqb_eq in *.
  destruct H1 as [?|[? ?]], H2 as [?|[? ?]]; [left; lia..|]. right. split; [lia|]. by eapply text_lt_trans.
Qed.

Lemma key_trichotomy a b : ¬ key_lt a b → a = b ∨ key_lt b a.
Proof.
  destruct a as [a s], b as [b t]. unfold key_lt, key_ltb. cbn [fst snd]. intros H. apply not_true_iff_false in H.
  apply orb_false_iff in H as [H1 H2]. apply Z.ltb_ge in H1. destruct (Z.eqb_spec a b) as [->|Hne]; cbn in *.
  - apply text_trichotomy in H2 as [->|H2]; [by left|]. right. rewrite Z.eqb_refl, H2. apply orb_true_r.
  - right. rewrite (proj2 (Z.ltb_lt _ _)) by lia. done.
Qed.

(** Rows in strictly increasing key order. *)
Definition ascending : list Product → Prop := StronglySorted (λ p q, key_lt (row_key p) (row_key q)).

Lemma ascending_app l1 l2 : ascending l1 → ascending l2 → (∀ p q, p ∈ l1 → q ∈ l2 → key_lt (row_key p) (row_key q)) → ascending (l1 ++ l2).
Proof.
  intros H1 H2 H. induction H1 as [|p l1 H1 IH Hp]; [done|]. cbn. constructor.
  - apply IH. intros p' q Hp' Hq. apply H; [by right|done].
  - apply Forall_app. split; [done|]. apply Forall_forall. intros q Hq. apply H; [left|done].
Qed.

Lemma ascending_filter P l : ascending l → ascending (List.filter P l).
Proof.
  induction 1 as [|p l Hl IH Hp]; [constructor|]. cbn. destruct (P p); [|done]. constructor; [done|].
  apply Forall_forall. intros q [Hq _]%elem_of_filter_bool. by eapply Forall_forall in Hp.
Qed.

(** A prefix holds everything up to its last row. *)
Lemma ascending_take n l p q : ascending l → last (take n l) = Some q → p ∈ l → ¬ key_lt (row_key q) (row_key p) → p ∈ take n l.
Proof.
  revert n. induction l as [|x l IH]; intros n Hl Hq Hp Hn; [by apply not_elem_of_nil in Hp|].
  inversion Hl as [|? ? Hl' Hx]; subst. destruct n as [|n]; [done|]. cbn [take] in *.
  apply elem_of_cons in Hp as [->|Hp]; [left|]. right. destruct (take n l) as [|y m] eqn:E.
  - cbn in Hq. injection Hq as ->. destruct Hn. by eapply Forall_forall in Hx.
  - rewrite <-E. apply IH; try done. by rewrite E.
Qed.

Lemma ascending_take_sub n l : ascending l → ascending (take n l).
Proof.
  revert n. induction l as [|x l IH]; intros n Hl; [by rewrite take_nil|]. inversion Hl as [|? ? Hl' Hx]; subst.
  destruct n; [constructor|]. cbn. constructor; [by apply IH|]. apply Forall_forall. intros q Hq.
  eapply Forall_forall in Hx; [done|]. eapply elem_of_submseteq; [exact Hq|]. apply sublist_submseteq, sublist_take.
Qed.

Lemma sort_le_strict (d : list Product) : NoDup (map row_key d) →
  ascending (sort_le (λ p q, key_leb (row_key p) (row_key q)) d).
Proof.
  intros Hnd. set (le := λ p q, key_leb (row_key p) (row_key q)).
  assert (Hs : Sorted (in_order le) (sort_le le d)).
  { apply sort_le_sorted. unfold le, key_leb. intros x y Hxy. apply negb_false_iff in Hxy. apply negb_true_iff, not_true_iff_false.
    intros Hyx. by apply (key_lt_irrefl (row_key x)), (key_lt_trans _ _ _ Hyx). }
  assert (Hnd' : NoDup (map row_key (sort_le le d))) by by rewrite (sort_le_perm le d).
  apply Sorted_StronglySorted in Hs.
  2:{ intros x y z Hxy Hyz. unfold in_order, le, key_leb in *. apply negb_true_iff, not_true_iff_false in Hxy.
      apply negb_true_iff, not_true_iff_false in Hyz. apply negb_true_iff, not_true_iff_false. intros Hzx.
      apply key_trichotomy in Hxy as [Hxy|Hxy]; [by rewrite Hxy in Hyz|].
      apply key_trichotomy in Hyz as [Hyz|Hyz]; [rewrite Hyz in Hzx; by apply (key_lt_irrefl (row_key x)), (key_lt_trans _ _ _ Hxy)|].
      apply (key_lt_irrefl (row_key x)). eapply key_lt_trans; [exact Hxy|]. by eapply key_lt_trans. }
  revert Hs Hnd'. generalize (sort_le le d). induction 1 as [|x l Hl IH Hx]; intros Hn; constructor.
  - apply IH. cbn in Hn. by apply NoDup_cons in Hn as [_ Hn].
  - cbn in Hn. apply NoDup_cons in Hn as [Hn _]. apply Forall_forall. intros y Hy. eapply Forall_forall in Hx; [|exact Hy].
    unfold in_order, le, key_leb in Hx. apply negb_true_iff, not_true_iff_false, key_trichotomy in Hx as [Hx|Hx]; [|done].
    destruct Hn. apply elem_of_map. by exists y.
Qed.

(** ** A pass visits every product *)

Definition cursor_of (q : Product) : Cursor := {| cu_updated_at := Some (p_created_at q); cu_product_id := Some (p_id q) |}.

Lemma next_cursor_last fromiso rows c :
  next_cursor fromiso (map selected rows) c = match last rows with Some q => cursor_of q | None => c end.
Proof.
  unfold next_cursor. replace (last (map selected rows)) with (selected <$> last rows) by (symmetry; apply fmap_last).
  by destruct (last rows).
Qed.

Lemma scan_spec d c batch : NoDup (map row_key (products d)) →
  let rows := scan d c batch in
  ascending rows ∧ (length rows ≤ batch)%nat ∧ (∀ p, p ∈ rows → p ∈ products d ∧ after_cursor c p = true) ∧
  (∀ p, p ∈ products d → after_cursor c p = true →
     (length rows < batch)%nat ∨ (∃ q, last rows = Some q ∧ ¬ key_lt (row_key q) (row_key p)) → p ∈ rows).
Proof.
  intros Hnd. cbv zeta. unfold scan. set (le := λ p q, key_leb (row_key p) (row_key q)).
  set (l := List.filter (after_cursor c) (sort_le le (products d))).
  assert (Hl : ascending l) by by apply ascending_filter, sort_le_strict.
  assert (Hin : ∀ p, p ∈ l ↔ p ∈ products d ∧ after_cursor c p = true).
  { intros p. unfold l. by rewrite elem_of_filter_bool, (sort_le_perm le (products d)). }
  split_and!; [by apply ascending_take_sub|rewrite length_take; lia| |].
  - intros p Hp. apply Hin. eapply elem_of_submseteq; [exact Hp|]. apply sublist_submseteq, sublist_take.
  - intros p Hp Hc [Hshort|(q & Hq & Hn)].
    + rewrite length_take in Hshort. rewrite take_ge by lia. by apply Hin.
    + eapply ascending_take; [done|exact Hq|by apply Hin|done].
Qed.

Lemma ascending_last l p : ascending l → p ∈ l → ∃ q, last l = Some q ∧ (p = q ∨ key_lt (row_key p) (row_key q)).
Proof.
  intros Hasc. revert p. induction Hasc as [|x l Hl IH Hx]; intros p Hp; [by apply not_elem_of_nil in Hp|]. destruct l as [|y l].
  - apply list_elem_of_singleton in Hp as ->. exists x. by eauto.
  - rewrite last_cons_cons. apply elem_of_cons in Hp as [->|Hp]; [|by apply IH].
    destruct (IH y ltac:(left)) as (q & Hq & _). exists q. split; [done|]. right. rewrite Forall_forall in Hx.
    by apply Hx, last_Some_elem_of.
Qed.

Lemma ascending_nodup l : ascending l → NoDup l.
Proof.
  induction 1 as [|x l Hl IH Hx]; constructor; [|done]. intros Hin. eapply Forall_forall in Hx; [|exact Hin]. by apply key_lt_irrefl in Hx.
Qed.

Section pass.
Context {Ix : Type} `{SearchIndexLaws Ix}.
Context (isoformat : Z → string) (fromisoformat : string → option stamp) (env : nat → row_weather).

Notation run_rows := (foldl (process_row (Ix := Ix) isoformat fromisoformat env)).

Definition total_counted (st : progress (Ix := Ix)) : Z := n_indexed st + n_skipped st + n_errors st.

Lemma process_row_seen st p : seen (process_row isoformat fromisoformat env st p) = seen st ++ [p] ∧
  total_counted (process_row isoformat fromisoformat env st p) = total_counted st + 1.
Proof.
  unfold process_row, total_counted. destruct (negb _); [cbn; split; [done|lia]|].
  destruct (write_fails _); [cbn; split; [done|lia]|]. destruct (write_document _ _ _); cbn; (split; [done|lia]).
Qed.

Lemma rows_seen rows st : seen (run_rows st rows) = seen st ++ rows ∧
  total_counted (run_rows st rows) = total_counted st + Z.of_nat (length rows).
Proof.
  revert st. induction rows as [|p rows IH]; intros st; cbn [foldl length]; [rewrite app_nil_r; split; [done|lia]|].
  destruct (IH (process_row isoformat fromisoformat env st p)) as [H1 H2]. destruct (process_row_seen st p) as [E1 E2].
  rewrite H1, H2, E1, E2, <-app_assoc. split; [done|lia].
Qed.

Context (d : nat → cdb) (batch N : nat).
Context (Hbatch : (1 ≤ batch)%nat).
Context (Hkeys : ∀ n, NoDup (map row_key (products (d n)))).
Context (Hsize : ∀ n, (length (products (d n)) ≤ N)%nat).
Context (Hgrow : ∀ n p, p ∈ products (d n) → p ∈ products (d (S n))).

(** At the start of a batch: everything the cursor has passed was seen, nothing else was. *)
Record on_track (n : nat) (c : Cursor) (rows : list Product) : Prop := {
  tr_ascending : ascending rows;
  tr_seen : ∀ p, p ∈ rows → p ∈ products (d n) ∧ after_cursor c p = false;
  tr_covered : ∀ p, p ∈ products (d 0) → after_cursor c p = false → p ∈ rows;
}.

Lemma grown n p : p ∈ products (d 0) → p ∈ products (d n).
Proof. intros Hp. induction n as [|n IH]; [done|]. by apply Hgrow. Qed.

Lemma cursor_passed q p : after_cursor (cursor_of q) p = false ↔ ¬ key_lt (row_key q) (row_key p).
Proof. unfold key_lt. by rewrite not_true_iff_false. Qed.

Lemma seen_before c q (rows : list Product) : (∀ p, p ∈ rows → after_cursor c p = false) → after_cursor c q = true →
  ∀ p, p ∈ rows → key_lt (row_key p) (row_key q).
Proof.
  intros Hrows Hq p Hp. specialize (Hrows p Hp). unfold after_cursor in *.
  destruct (cu_updated_at c) as [t|]; [|done]. destruct (cu_product_id c) as [i|].
  - apply not_true_iff_false in Hrows. change (¬ key_lt (t, i) (row_key p)) in Hrows. change (key_lt (t, i) (row_key q)) in Hq.
    apply key_trichotomy in Hrows as [Hrows|Hrows]; [by rewrite <-Hrows|by eapply key_lt_trans].
  - unfold key_lt, key_ltb. cbn. apply orb_true_iff. left. bool_to_prop. apply Z.ltb_lt. lia.
Qed.

Lemma track_batch n c rows : on_track n c rows → let new := scan (d n) c batch in
  ascending (rows ++ new) ∧ (∀ p, p ∈ rows ++ new → p ∈ products (d n)) ∧
  (is_complete new batch = true → ∀ p, p ∈ products (d 0) → p ∈ rows ++ new) ∧
  (is_complete new batch = false → new ≠ [] ∧ on_track (S n) (next_cursor fromisoformat (map selected new) c) (rows ++ new)).
Proof.
  intros [H1 H2 H3]. destruct (scan_spec (d n) c batch (Hkeys n)) as (S1 & S2 & S3 & S4). cbv zeta.
  set (new := scan (d n) c batch) in *.
  assert (Hasc : ascending (rows ++ new)).
  { apply ascending_app; [done|done|]. intros p q Hp Hq. eapply seen_before; [|by apply S3|exact Hp]. intros; by apply H2. }
  assert (Hsub : ∀ p, p ∈ rows ++ new → p ∈ products (d n)) by (intros p [?|?]%elem_of_app; [by apply H2|by apply S3]).
  split_and!; [done|done|..]; unfold is_complete; intros Hc.
  - apply Nat.ltb_lt in Hc. intros p Hp. apply elem_of_app. destruct (after_cursor c p) eqn:E; [right|left; auto].
    apply S4; [by apply grown|done|by left].
  - apply Nat.ltb_ge in Hc. assert (Hne : new ≠ []) by (intros E; rewrite E in Hc; cbn in Hc; lia). split; [done|].
    rewrite next_cursor_last. destruct (last new) as [q|] eqn:Hq; [|by apply last_None in Hq].
    assert (Hqn : q ∈ new) by by apply last_Some_elem_of. constructor; [done| |].
    + intros p Hp. split; [by apply Hgrow, Hsub|]. apply cursor_passed. intros Hlt.
      apply (key_lt_irrefl (row_key p)). apply elem_of_app in Hp as [Hp|Hp].
      * eapply key_lt_trans; [|exact Hlt]. eapply seen_before; [|by apply S3|exact Hp]. intros; by apply H2.
      * destruct (ascending_last new p S1 Hp) as (q' & Hq' & Hle). rewrite Hq in Hq'. injection Hq' as <-.
        destruct Hle as [->|Hle]; [done|]. by eapply key_lt_trans.
    + intros p Hp Hn. apply cursor_passed in Hn. apply elem_of_app. destruct (after_cursor c p) eqn:E; [right|left; auto].
      apply S4; [by apply grown|done|]. right. by exists q.
Qed.

Lemma batches_finish fuel n c st : on_track n c (seen st) → (N < length (seen st) + fuel)%nat →
  let out := batches isoformat fromisoformat fuel batch n (λ n, Some (d n)) env c st in
  out.1 = Finished ∧ ascending (seen out.2) ∧ (∀ p, p ∈ products (d 0) → p ∈ seen out.2) ∧
  total_counted out.2 - Z.of_nat (length (seen out.2)) = total_counted st - Z.of_nat (length (seen st)).
Proof.
  revert n c st. induction fuel as [|fuel IH]; intros n c st Htr Hfuel.
  - exfalso. assert (length (seen st) ≤ length (products (d n)))%nat; [|pose proof (Hsize n); lia].
    apply submseteq_length, NoDup_submseteq; [apply ascending_nodup, Htr|]. intros p Hp. by apply Htr.
  - cbn [batches]. destruct (track_batch n c (seen st) Htr) as (T1 & T2 & T3 & T4). set (new := scan (d n) c batch) in *.
    destruct (rows_seen new st) as [Es Et]. destruct (is_complete new batch) eqn:Ec.
    + cbn [fst snd]. rewrite Es, Et, length_app. split_and!; [done|done|by apply T3|lia].
    + destruct (T4 eq_refl) as [Hne Htr']. rewrite <-Es in Htr'.
      assert (Hpos : (0 < length new)%nat) by (destruct new; [done|cbn; lia]).
      destruct (IH (S n) _ _ Htr') as (F1 & F2 & F3 & F4); [rewrite Es, length_app; lia|].
      split_and!; [done|done|done|]. rewrite F4, Et, Es, length_app. lia.
Qed.

(** Whatever was seen was in the table at some point. *)
Lemma batches_subset fuel n c st : (∀ p, p ∈ seen st → p ∈ products (d n)) →
  ∃ m, ∀ p, p ∈ seen (batches isoformat fromisoformat fuel batch n (λ n, Some (d n)) env c st).2 → p ∈ products (d m).
Proof.
  revert n c st. induction fuel as [|fuel IH]; intros n c st Hst; cbn [batches]; [by exists n|].
  set (new := scan (d n) c batch). destruct (rows_seen new st) as [Es _].
  assert (Hnew : ∀ p, p ∈ seen (run_rows st new) → p ∈ products (d n)).
  { intros p. rewrite Es. intros [?|Hp]%elem_of_app; [auto|]. by apply (scan_spec (d n) c batch (Hkeys n)). }
  destruct (is_complete new batch); [by exists n|]. apply IH. intros p Hp. by apply Hgrow, Hnew.
Qed.

End pass.

(** The tables a pass meets, batch after batch. *)
Record growing (d : nat → cdb) (N : nat) : Prop := {
  gr_ids : ∀ n, NoDup (map p_id (products (d n)));
  gr_size : ∀ n, (length (products (d n)) ≤ N)%nat;
  gr_grow : ∀ n p, p ∈ products (d n) → p ∈ products (d (S n));
}.

Lemma growing_keys d N n : growing d N → NoDup (map row_key (products (d n))).
Proof.
  intros [Hids _ _]. specialize (Hids n). induction (products (d n)) as [|p l IH]; [constructor|].
  cbn in *. apply NoDup_cons in Hids as [Hp Hl]. constructor; [|by apply IH].
  intros (q & E & Hq)%elem_of_map. apply Hp, elem_of_map. exists q. split; [|done]. by injection E.
Qed.

(** A backfill visits every product, once, and ends: while a pass runs,
    rows may be added between batches, and any reads and writes of the index may
    fail; if the table never exceeds [N] rows and a batch holds at least one,
    [N + 1] batches suffice, every product there at the start is visited, no
    product is visited twice, and every visit is counted as indexed, skipped or
    failed. *)
Theorem backfill_visits_every_product {Ix : Type} `{SearchIndexLaws Ix} (isoformat : Z → string)
    (fromisoformat : string → option stamp) (d : nat → cdb) (env : nat → row_weather) (batch N : nat) (ix0 : Ix) (x : stats)
    (Hbatch : (1 ≤ batch)%nat) (Htable : growing d N) :
  let '(e, st, x') := run_pass isoformat fromisoformat (S N) batch (λ n, Some (d n)) env ix0 x in
  e = Finished ∧ NoDup (seen st) ∧ (∀ p, p ∈ products (d 0%nat) → p ∈ seen st) ∧
  passes x' = passes x + 1 ∧ scanned x' = scanned x + Z.of_nat (length (seen st)) ∧
  (indexed x' - indexed x) + (skipped_newer x' - skipped_newer x) + (errors x' - errors x) = Z.of_nat (length (seen st)).
Proof.
  pose proof (λ n, growing_keys d N n Htable) as Hkeys. destruct Htable as [Hids Hsize Hgrow].
  unfold run_pass. set (st0 := {| ix := ix0; seen := []; n_indexed := 0; n_skipped := 0; n_errors := 0 |}).
  assert (Htr : on_track d 0 start (seen st0)) by (constructor; [constructor|by intros ? ?%not_elem_of_nil|done]).
  destruct (batches_finish isoformat fromisoformat env d batch N Hbatch Hkeys Hsize Hgrow (S N) 0 start st0 Htr) as (F1 & F2 & F3 & F4);
    [cbn; lia|].
  destruct (batches _ _ _ _ _ _ _ _ _) as [e st]. cbn [fst snd] in *. subst e.
  split_and!; [done|by apply ascending_nodup|done|..]; cbn in *; unfold total_counted in F4; cbn in F4; lia.
Qed.

(** ** What a pass does to the index *)

Section effects.
Context {Ix : Type} `{SearchIndexLaws Ix}.
Context (isoformat : Z → string) (fromisoformat : string → option stamp) (env : nat → row_weather).

Notation run_rows := (foldl (process_row (Ix := Ix) isoformat fromisoformat env)).

Definition mark_read (st : progress (Ix := Ix)) (p : Product) : cell :=
  indexed_timestamp (foldl apply (ix st) (meanwhile (env (length (seen st))))) (p_id p) (read_fails (env (length (seen st)))).

(** The writes one row comes to, in order. *)
Definition row_writes (st : progress (Ix := Ix)) (p : Product) : list write :=
  let w := env (length (seen st)) in
  if negb (should_index fromisoformat (Time (p_created_at p)) (mark_read st p)) then meanwhile w
  else meanwhile w ++ in_between w ++
       if write_fails w then [] else [Partial CATALOG (JStr (p_id p)) (build_document isoformat (selected p))].

Lemma process_row_writes st p : ix (process_row isoformat fromisoformat env st p) = foldl apply (ix st) (row_writes st p).
Proof.
  unfold process_row, row_writes, mark_read. cbn [default dict_get selected].
  change (default (Val JNull) (dict_get (selected p) "updated_at")) with (Time (p_created_at p)).
  destruct (negb _); [done|]. destruct (write_fails _); cbn [ix]; rewrite !foldl_app; [done|]. cbn [foldl apply].
  unfold write_document. by destruct (write_product _ _ _ _).
Qed.

(** The document of a row, spelled out. *)
Lemma build_document_eq p : build_document isoformat (selected p) =
  [("product_id", JStr (p_id p)); ("seller_id", JStr (p_seller_id p)); ("sku", JStr (p_sku p)); ("name", JStr (p_name p))] ++
  match p_description p with Some text => [("description", JStr text)] | None => [] end ++
  [("is_active", JBool (p_is_active p)); ("base_price_cents", JInt (p_price_cents p)); ("category_id", JStr (p_category_id p));
   ("updated_at", JStr (isoformat (p_created_at p))); (CATALOG_TIMESTAMP_FIELD, JStr (isoformat (p_created_at p)))].
Proof. by destruct p as [i s c k n [de|] pr a t]. Qed.

Lemma build_document_wf p : NoDup (build_document isoformat (selected p)).*1.
Proof. rewrite build_document_eq. destruct (p_description p); by_compute. Qed.

(** A backfill writes catalog's fields only. *)
Lemma build_document_valid p : validate_product_write CATALOG (build_document isoformat (selected p)).*1 = None.
Proof. rewrite build_document_eq. by destruct (p_description p). Qed.

Lemma build_document_flat p f v : dict_get (build_document isoformat (selected p)) f = Some v → ∀ o, v ≠ JObj o.
Proof.
  intros Hv%dict_get_elem o ->. rewrite build_document_eq in Hv. destruct (p_description p); cbn [app] in Hv; elem_cases Hv.
Qed.

(** Others' writes that leave catalog's fields to catalog. *)
Definition others_only (w : write) : Prop := well_formed w ∧ writer w ≠ CATALOG.

Definition fair (w : row_weather) : Prop := Forall others_only (meanwhile w) ∧ Forall others_only (in_between w).

Lemma others_keep ws (i : Ix) id f : Forall others_only ws → owner_of f = Some CATALOG → f ≠ "product_id" →
  field (foldl apply i ws) id f = field i id f.
Proof.
  intros Hws Ho Hf. revert i. induction Hws as [|w ws [Hw Hc] Hws IH]; intros i; [done|]. cbn [foldl].
  rewrite IH. by apply (apply_foreign _ _ _ _ CATALOG).
Qed.

Lemma row_others st p id f : fair (env (length (seen st))) → owner_of f = Some CATALOG → f ≠ "product_id" → id ≠ p_id p →
  field (ix (process_row isoformat fromisoformat env st p)) id f = field (ix st) id f.
Proof.
  intros [H1 H2] Ho Hf Hid. rewrite process_row_writes. unfold row_writes. destruct (negb _); [by apply others_keep|].
  rewrite !foldl_app. destruct (write_fails _); cbn [foldl]; [by rewrite !others_keep|]. cbn [apply].
  unfold write_product, product_update_body. rewrite build_document_valid, doc_path_str.
  destruct (is_empty (p_id p)) eqn:E; [by rewrite !others_keep|].
  rewrite field_put by apply setdefault_nodup, build_document_wf. rewrite bool_decide_false by done. by rewrite !others_keep.
Qed.

(** The row's own document, when the row is written. *)
Lemma row_written st p f v : fair (env (length (seen st))) → p_id p ≠ "" → write_fails (env (length (seen st))) = false →
  should_index fromisoformat (Time (p_created_at p)) (mark_read st p) = true → f ≠ "product_id" →
  dict_get (build_document isoformat (selected p)) f = Some v →
  field (ix (process_row isoformat fromisoformat env st p)) (p_id p) f = Some v.
Proof.
  intros [H1 H2] Hid Hw Hs Hf Hv. rewrite process_row_writes. unfold row_writes. rewrite Hs, Hw. cbn [negb].
  rewrite !foldl_app. cbn [foldl apply]. unfold write_product, product_update_body. rewrite build_document_valid, doc_path_str.
  unfold is_empty. rewrite bool_decide_false by done. rewrite field_put by apply setdefault_nodup, build_document_wf.
  rewrite bool_decide_true, setdefault_other, Hv by done. by rewrite blend_flat by by eapply build_document_flat.
Qed.

(** The document carries a mark of catalog's that is later than the row. *)
Definition newer (i : Ix) (p : Product) : bool :=
  match parse_timestamp fromisoformat (Val (default JNull (field i (p_id p) CATALOG_TIMESTAMP_FIELD))) with
  | Some t => p_created_at p <? t
  | None => false
  end.

(** The row visited as the [n]-th is left alone: its mark was read, and is later. *)
Definition left_alone (i : Ix) (n : nat) (p : Product) : bool := negb (read_fails (env n)) && newer i p.

Lemma guard_passes st p : fair (env (length (seen st))) →
  should_index fromisoformat (Time (p_created_at p)) (mark_read st p) = negb (left_alone (ix st) (length (seen st)) p).
Proof.
  intros [H1 _]. unfold should_index, mark_read, indexed_timestamp, left_alone, newer. destruct (read_fails _); [done|].
  rewrite others_keep by done. destruct (parse_timestamp _ _) as [t|]; [|done]. cbn [parse_timestamp negb andb]. apply Z.leb_antisym.
Qed.

(** The rows left alone, from the [n]-th visited on; and what the others write
    around the rows. *)
Fixpoint passed_over (i : Ix) (n : nat) (rows : list Product) : list Product :=
  match rows with
  | [] => []
  | p :: rows => (if left_alone i n p then [p] else []) ++ passed_over i (S n) rows
  end.

Fixpoint others_around (i : Ix) (n : nat) (rows : list Product) : list write :=
  match rows with
  | [] => []
  | p :: rows => meanwhile (env n) ++ (if left_alone i n p then [] else in_between (env n)) ++ others_around i (S n) rows
  end.

Lemma passed_over_newer i n rows p : p ∈ passed_over i n rows → p ∈ rows ∧ newer i p = true.
Proof.
  revert n. induction rows as [|q rows IH]; intros n; cbn [passed_over]; [by intros ?%not_elem_of_nil|].
  intros [Hp|[Hp ?]%IH]%elem_of_app; [|split; [by right|done]]. destruct (left_alone i n q) eqn:E; [|by apply not_elem_of_nil in Hp].
  apply list_elem_of_singleton in Hp as ->. apply andb_true_iff in E as [_ E]. split; [left|done].
Qed.

Lemma newer_passed_over i n rows p : (∀ m, read_fails (env m) = false) → p ∈ rows → newer i p = true → p ∈ passed_over i n rows.
Proof.
  intros Hr. revert n. induction rows as [|q rows IH]; intros n Hp Hn; cbn [passed_over]; [by apply not_elem_of_nil in Hp|].
  apply elem_of_app. apply elem_of_cons in Hp as [->|Hp]; [left|by right; apply IH].
  unfold left_alone. rewrite Hr, Hn. left.
Qed.

Lemma others_around_ext i i' n rows : (∀ p, p ∈ rows → newer i p = newer i' p) →
  passed_over i n rows = passed_over i' n rows ∧ others_around i n rows = others_around i' n rows.
Proof.
  revert n. induction rows as [|p rows IH]; intros n Hn; [done|]. cbn [passed_over others_around]. unfold left_alone.
  rewrite (Hn p) by left. destruct (IH (S n)) as [-> ->]; [|done]. intros q Hq. apply Hn. by right.
Qed.

Definition live : list string := [PRICING; INVENTORY].

Lemma live_closed : closed live.
Proof. split; by_compute. Qed.

Lemma agree_foldl S ws (i1 i2 : Ix) : closed S → Forall well_formed ws → agree S i1 i2 → agree S (foldl apply i1 ws) (foldl apply i2 ws).
Proof.
  intros Hc Hws. revert i1 i2. induction Hws as [|w ws Hw Hws IH]; intros i1 i2 Hag; [done|]. cbn [foldl].
  apply IH. by apply agree_apply.
Qed.

Lemma fair_wf n : fair (env n) → Forall well_formed (meanwhile (env n) ++ in_between (env n)).
Proof. intros [H1 H2]. apply Forall_app. split; eapply Forall_impl; try eassumption; by intros w [? _]. Qed.

(** Price and stock are what they would be without the backfill. *)
Lemma row_live st p i2 : fair (env (length (seen st))) → agree live (ix st) i2 →
  agree live (ix (process_row isoformat fromisoformat env st p))
    (foldl apply i2 (meanwhile (env (length (seen st))) ++ if left_alone (ix st) (length (seen st)) p then [] else in_between (env (length (seen st))))).
Proof.
  intros Hf Hag. rewrite process_row_writes. unfold row_writes. rewrite (guard_passes st p Hf), negb_involutive.
  pose proof (fair_wf _ Hf) as Hwf. destruct (left_alone _ _ _).
  { rewrite app_nil_r. apply agree_foldl; [apply live_closed| |done]. by apply Forall_app in Hwf as [? _]. }
  rewrite app_assoc, foldl_app. pose proof (agree_foldl live _ _ _ live_closed Hwf Hag) as Hag'.
  destruct (write_fails _); [done|]. cbn [foldl]. eapply agree_trans; [|exact Hag'].
  apply agree_dropped; [apply live_closed|apply build_document_wf|by_compute].
Qed.

(** The row's own document, when the row is left alone. *)
Lemma row_left st p f : fair (env (length (seen st))) → left_alone (ix st) (length (seen st)) p = true →
  owner_of f = Some CATALOG → f ≠ "product_id" →
  field (ix (process_row isoformat fromisoformat env st p)) (p_id p) f = field (ix st) (p_id p) f.
Proof.
  intros Hf Hl Ho Hne. rewrite process_row_writes. unfold row_writes. rewrite (guard_passes st p Hf), Hl. cbn [negb].
  destruct Hf. by apply others_keep.
Qed.

Lemma row_counted st p : fair (env (length (seen st))) → write_fails (env (length (seen st))) = false →
  n_skipped (process_row isoformat fromisoformat env st p) =
    n_skipped st + if left_alone (ix st) (length (seen st)) p then 1 else 0.
Proof.
  intros Hf Hw. unfold process_row. change (default (Val JNull) (dict_get (selected p) "updated_at")) with (Time (p_created_at p)).
  fold (mark_read st p). rewrite (guard_passes st p Hf), negb_involutive, Hw. destruct (left_alone _ _ _); [done|].
  by destruct (write_document _ _ _).
Qed.

(** What the rows have become: [i0] is the index before the first of them. *)
Record repaired (i0 : Ix) (n : nat) (rows : list Product) (i : Ix) : Prop := {
  rp_fields : ∀ p f v, p ∈ rows → newer i0 p = false → f ≠ "product_id" → owner_of f = Some CATALOG →
    dict_get (build_document isoformat (selected p)) f = Some v → field i (p_id p) f = Some v;
  rp_left : ∀ p f, p ∈ passed_over i0 n rows → owner_of f = Some CATALOG → f ≠ "product_id" → field i (p_id p) f = field i0 (p_id p) f;
  rp_others : ∀ id f, owner_of f = Some CATALOG → f ≠ "product_id" → id ∉ map p_id rows → field i id f = field i0 id f;
}.

Lemma rows_repaired rows st i2 : (∀ n, fair (env n)) → (∀ n, write_fails (env n) = false) → NoDup (map p_id rows) →
  (∀ p, p ∈ rows → p_id p ≠ "") → agree live (ix st) i2 →
  n_skipped (run_rows st rows) = n_skipped st + Z.of_nat (length (passed_over (ix st) (length (seen st)) rows)) ∧
  repaired (ix st) (length (seen st)) rows (ix (run_rows st rows)) ∧
  agree live (ix (run_rows st rows)) (foldl apply i2 (others_around (ix st) (length (seen st)) rows)).
Proof.
  intros Hfair Hok. revert st i2. induction rows as [|p rows IH]; intros st i2 Hnd Hrows Hag.
  { split_and!; [cbn; lia| |done]. constructor; [by intros ? ? ? ?%not_elem_of_nil|by intros ? ? ?%not_elem_of_nil|done]. }
  cbn [map] in Hnd. apply NoDup_cons in Hnd as [Hp Hnd]. set (n := length (seen st)).
  set (st1 := process_row isoformat fromisoformat env st p).
  assert (Hne : ∀ q, q ∈ rows → p_id q ≠ p_id p) by (intros q Hq E; apply Hp; rewrite <-E; apply elem_of_map; by exists q).
  assert (Hnewer : ∀ q, q ∈ rows → newer (ix st1) q = newer (ix st) q).
  { intros q Hq. unfold newer, st1. rewrite row_others; [done|by apply Hfair|done|done|by apply Hne]. }
  assert (En : length (seen st1) = S n).
  { destruct (process_row_seen isoformat fromisoformat env st p) as [Es _]. fold st1 in Es. rewrite Es, length_app. cbn. lia. }
  destruct (IH st1 _ Hnd (λ q Hq, Hrows q (list_elem_of_further _ _ _ Hq)) (row_live st p i2 (Hfair _) Hag)) as (I1 & [R1 R2 R3] & I4).
  rewrite En in *. destruct (others_around_ext (ix st1) (ix st) (S n) rows Hnewer) as [Ep Eo]. rewrite Ep in *. rewrite Eo in *.
  cbn [foldl passed_over others_around]. fold st1 n. split_and!.
  - rewrite I1. unfold st1. rewrite (row_counted st p (Hfair _) (Hok _)). fold n. destruct (left_alone _ _ _); cbn; lia.
  - constructor.
    + intros q f v Hq Hn Hf Ho Hv. apply elem_of_cons in Hq as [->|Hq]; [|apply R1; [done|by rewrite Hnewer|done..]].
      rewrite R3 by done. apply row_written; [done|by apply Hrows; left|done| |done|done].
      rewrite (guard_passes st p (Hfair _)). unfold left_alone. by rewrite Hn, andb_false_r.
    + intros q f [Hq|Hq]%elem_of_app Ho Hf.
      * destruct (left_alone (ix st) n p) eqn:El; [|by apply not_elem_of_nil in Hq]. apply list_elem_of_singleton in Hq as ->.
        rewrite R3 by done. by apply row_left.
      * rewrite R2 by done. apply passed_over_newer in Hq as [Hq _]. apply row_others; [done|done|done|by apply Hne].
    + intros id f Ho Hf Hnin. cbn [map] in Hnin. apply not_elem_of_cons in Hnin as [Hne' Hnin].
      rewrite R3 by done. by apply row_others.
  - by rewrite app_assoc, foldl_app.
Qed.

Lemma batches_rows table fuel batch n c st : ∃ rows,
  (batches isoformat fromisoformat fuel batch n table env c st).2 = run_rows st rows.
Proof.
  revert n c st. induction fuel as [|fuel IH]; intros n c st; cbn [batches]; [by exists []|].
  destruct (table n) as [d|]; [|by exists []]. destruct (is_complete _ _); [by eexists|].
  destruct (IH (S n) (next_cursor fromisoformat (map selected (scan d c batch)) c) (run_rows st (scan d c batch))) as [rows Hr].
  exists (scan d c batch ++ rows). by rewrite Hr, foldl_app.
Qed.

End effects.


(** C8 — A backfill repairs what catalog owns and leaves price and stock be: when no write
    fails and the others leave catalog's fields alone, every product there at the
    start, unless its document carries a catalog timestamp later than the row,
    ends with every value its row has, whatever the document held before (the
    time of the last update, which every writer sets, and the id the document
    repeats are not part of this); a document with a later timestamp keeps every
    field of catalog's and is counted as skipped, unless its timestamp could not
    be read; a document the pass has written does not count as later in the next
    pass; and the price and the stock of every document are exactly what the
    others' writes alone would have made them. *)
Theorem backfill_repairs_catalog_fields {Ix : Type} `{SearchIndexLaws Ix} (isoformat : Z → string)
    (fromisoformat : string → option stamp) (d : nat → cdb) (env : nat → row_weather) (batch N : nat) (ix0 : Ix) (x : stats)
    (Hbatch : (1 ≤ batch)%nat) (Htable : growing d N) (Hids : ∀ n p, p ∈ products (d n) → p_id p ≠ "")
    (Hfair : ∀ n, fair (env n)) (Hwrites : ∀ n, write_fails (env n) = false) :
  let '(e, st, x') := run_pass isoformat fromisoformat (S N) batch (λ n, Some (d n)) env ix0 x in
  let left := passed_over fromisoformat env ix0 0 (seen st) in
  e = Finished ∧ skipped_newer x' = skipped_newer x + Z.of_nat (length left) ∧
  (∀ p, p ∈ products (d 0%nat) → newer fromisoformat ix0 p = false →
     (∀ f v, (f, v) ∈ build_document isoformat (selected p) → f ≠ "updated_at" → f ≠ "product_id" → field (ix st) (p_id p) f = Some v) ∧
     (parse_timestamp fromisoformat (Val (JStr (isoformat (p_created_at p)))) = Some (p_created_at p) →
        newer fromisoformat (ix st) p = false)) ∧
  (∀ p, p ∈ products (d 0%nat) → newer fromisoformat ix0 p = true → (∀ n, read_fails (env n) = false) → p ∈ left) ∧
  (∀ p f, p ∈ left → owner_of f = Some CATALOG → f ≠ "product_id" →
     newer fromisoformat ix0 p = true ∧ field (ix st) (p_id p) f = field ix0 (p_id p) f) ∧
  ∀ id f, f ∈ ["price_cents"; "quantity_available"] →
    field (ix st) id f = field (foldl apply ix0 (others_around fromisoformat env ix0 0 (seen st))) id f.
Proof.
  unfold run_pass. set (st0 := {| ix := ix0; seen := []; n_indexed := 0; n_skipped := 0; n_errors := 0 |}).
  assert (Htr : on_track d 0 start (seen st0)) by (constructor; [constructor|by intros ? ?%not_elem_of_nil|done]).
  destruct (batches_finish isoformat fromisoformat env d batch N Hbatch (λ n, growing_keys d N n Htable) (gr_size _ _ Htable)
    (gr_grow _ _ Htable) (S N) 0 start st0 Htr) as (F1 & F2 & F3 & F4); [cbn; lia|].
  destruct (batches_rows isoformat fromisoformat env (λ n, Some (d n)) (S N) batch 0 start st0) as [rows Hr].
  pose proof (batches_subset isoformat fromisoformat env d batch (λ n, growing_keys d N n Htable) (gr_grow _ _ Htable)
    (S N) 0 start st0 ltac:(by intros ? ?%not_elem_of_nil))
    as [m Hsub].
  destruct (batches _ _ _ _ _ _ _ _ _) as [e st]. cbn [fst snd] in *. subst e st.
  destruct (rows_seen isoformat fromisoformat env rows st0) as [Es _]. cbn [seen st0 app] in Es. rewrite Es in *.
  assert (Hnd : NoDup (map p_id rows)).
  { apply (NoDup_fmap_2_strong p_id rows); [|by apply ascending_nodup]. intros p q Hp Hq E.
    eapply (map_key_inj p_id); [apply (gr_ids _ _ Htable m)|by apply Hsub|by apply Hsub|done]. }
  destruct (rows_repaired isoformat fromisoformat env rows st0 ix0 Hfair Hwrites Hnd) as (I1 & [R1 R2 R3] & I4).
  { intros p Hp. eapply Hids. by apply Hsub. }
  { by intros ????. }
  cbn [ix seen st0 length n_skipped] in *.
  assert (Hset : ∀ p f v, p ∈ products (d 0%nat) → newer fromisoformat ix0 p = false → (f, v) ∈ build_document isoformat (selected p) →
    f ≠ "updated_at" → f ≠ "product_id" → field (ix (foldl (process_row isoformat fromisoformat env) st0 rows)) (p_id p) f = Some v).
  { intros p f v Hp Hn Hv Hf Hf'. apply R1; [by apply F3|done|done| |by apply elem_dict_get; [apply build_document_wf|]].
    rewrite build_document_eq in Hv. destruct (p_description p); cbn [app] in Hv; elem_cases Hv; done. }
  split_and!; [done|cbn; lia|..].
  - intros p Hp Hn. split; [intros f v; by apply Hset|]. intros Ht. unfold newer.
    rewrite (Hset p CATALOG_TIMESTAMP_FIELD (JStr (isoformat (p_created_at p)))); [|done|done|rewrite build_document_eq|done|done].
    + cbn [from_option]. unfold id. rewrite Ht. apply Z.ltb_irrefl.
    + destruct (p_description p); cbn [app]; repeat (first [left|right]).
  - intros p Hp Hn Hrf. apply newer_passed_over; [done|by apply F3|done].
  - intros p f Hp Ho Hf. split; [by apply passed_over_newer in Hp as [_ ?]|by apply R2].
  - intros id f Hf. apply elem_of_cons in Hf as [->|Hf]; [apply (I4 id _ PRICING); by_compute|].
    apply list_elem_of_singleton in Hf as ->. apply (I4 id _ INVENTORY); by_compute.
Qed.

(** ** The reaper *)

(** Why a document may be removed: nothing of catalog's in it, and either old
    enough or undated with undated reaping on. *)
Definition forsaken (fromisoformat : string → option stamp) (source : string → json) (now grace : Z) (undated : bool) : Prop :=
  present (source "sku") = false ∧ present (source CATALOG_TIMESTAMP_FIELD) = false ∧
  match parse_timestamp fromisoformat (Val (source "updated_at")) with
  | Some t => grace * 1000000 ≤ now - t
  | None => undated = true
  end.

Lemma reapable_forsaken fromiso source now grace undated :
  reap (is_reapable fromiso source now grace undated) = true ↔ forsaken fromiso source now grace undated.
Proof.
  unfold is_reapable, forsaken, CATALOG_MARKER_FIELDS, CATALOG_TIMESTAMP_FIELD. cbn [List.filter].
  destruct (present (source "sku")) eqn:E1; [rewrite bool_decide_false by done; cbn; split; [done|by intros [? _]]|].
  destruct (present (source "catalog_updated_at")) eqn:E2; [rewrite bool_decide_false by done; cbn; split; [by intros [=]|by intros (_ & ? & _)]|].
  rewrite bool_decide_true by done. cbn [negb]. destruct (parse_timestamp _ _) as [t|].
  - destruct (Z.ltb_spec (now - t) (grace * 1000000)) as [Hlt|Hge]; cbn; split.
    + by intros [=].
    + intros (_ & _ & ?). lia.
    + intros _. by split_and!; [| |lia].
    + done.
  - destruct undated; cbn; split; try done. by intros (_ & _ & ?).
Qed.

Section reaper.
Context {Ix : Type} `{SearchIndexLaws Ix}.
Context (fromisoformat : string → option stamp) (grace now : Z) (undated : bool) (env : nat → hit_weather).

Record reaped_ok (ix0 : Ix) (st : reaping (Ix := Ix)) : Prop := {
  ro_gone : ∀ id, id ∈ gone st →
    forsaken fromisoformat (λ f, default JNull (field ix0 id f)) now grace undated ∧
    ∃ k d, catalog_now (env k) = Some d ∧ id ∉ map p_id (products d);
  ro_kept : ∀ id, found ix0 id = true → found (rix st) id = true ∨ id ∈ gone st;
}.

Lemma foldl_found ws (i : Ix) id : found i id = true → found (foldl apply i ws) id = true.
Proof. revert i. induction ws as [|w ws IH]; intros i Hi; [done|]. cbn. by apply IH, apply_found. Qed.

Lemma process_hit_ok ix0 st id :
  reaped_ok ix0 st → reaped_ok ix0 (process_hit fromisoformat grace now undated env (λ id f, default JNull (field ix0 id f)) st id).
Proof.
  intros [H1 H2]. unfold process_hit. set (w := env (Z.to_nat (examined st))).
  assert (Hkeep : ∀ x, found ix0 x = true → found (foldl apply (rix st) (others w)) x = true ∨ x ∈ gone st).
  { intros x Hx. destruct (H2 x Hx) as [?|?]; [left; by apply foldl_found|by right]. }
  assert (Hsame : reaped_ok ix0 {| rix := foldl apply (rix st) (others w); examined := examined st + 1; kept := 0; gone := gone st ++ []; failures := 0 |}).
  { rewrite app_nil_r. by constructor. }
  destruct (reap (is_reapable fromisoformat _ now grace undated)) eqn:Er; cbn [negb]; [|destruct Hsame; by constructor].
  apply reapable_forsaken in Er. destruct (catalog_now w) as [d|] eqn:Ed; [|destruct Hsame; by constructor].
  destruct (existsb _ _) eqn:Ee; [destruct Hsame; by constructor|]. destruct (delete_fails w); [destruct Hsame; by constructor|].
  constructor; cbn [gone rix].
  - intros x [Hx| ->%list_elem_of_singleton]%elem_of_app; [by apply H1|]. split; [done|]. exists (Z.to_nat (examined st)), d.
    split; [done|]. intros (p & -> & Hp)%elem_of_map. apply not_true_iff_false in Ee. apply Ee, existsb_exists. exists p.
    rewrite <-list_elem_of_In. split; [done|]. by apply bool_decide_eq_true.
  - intros x Hx. rewrite found_remove, elem_of_app, list_elem_of_singleton. destruct (bool_decide_reflect (x = id)) as [->|Hne]; cbn; [tauto|].
    destruct (Hkeep x Hx); tauto.
Qed.

Lemma reap_ok ix0 hits st : reaped_ok ix0 st →
  reaped_ok ix0 (foldl (process_hit fromisoformat grace now undated env (λ id f, default JNull (field ix0 id f))) st hits).
Proof. revert st. induction hits as [|id hits IH]; intros st Hst; [done|]. cbn. by apply IH, process_hit_ok. Qed.
End reaper.

(** The reaper never touches a product: whatever else happens to the index
    and the catalog while it runs, a document disappears only if the search saw
    nothing of catalog's in it, it was past the grace period (or had no date,
    with undated reaping on), and at that moment the catalog had no such
    product; in particular the document of a product that exists throughout
    stays, and with reaping off nothing goes. *)
Theorem reaper_spares_products {Ix : Type} `{SearchIndexLaws Ix} (fromisoformat : string → option stamp)
    (enabled : bool) (grace now : Z) (undated search_fails : bool) (env : nat → hit_weather) (ix0 : Ix) (x : stats) :
  let '(st, x') := reap_pass fromisoformat enabled grace now undated search_fails env ix0 x in
  (enabled = false → gone st = []) ∧
  (∀ id, id ∈ gone st →
     forsaken fromisoformat (λ f, default JNull (field ix0 id f)) now grace undated ∧
     ∃ k d, catalog_now (env k) = Some d ∧ id ∉ map p_id (products d)) ∧
  (∀ id, found ix0 id = true → found (rix st) id = true ∨ id ∈ gone st) ∧
  (∀ id, found ix0 id = true → (∀ k d, catalog_now (env k) = Some d → id ∈ map p_id (products d)) → found (rix st) id = true).
Proof.
  unfold reap_pass. set (st0 := {| rix := ix0; examined := 0; kept := 0; gone := []; failures := 0 |}).
  assert (H00 : reaped_ok fromisoformat grace now undated env ix0 st0) by (constructor; [by intros ? ?%not_elem_of_nil|by left]).
  assert (Hall : ∀ st, reaped_ok fromisoformat grace now undated env ix0 st → (enabled = false → gone st = []) →
    (enabled = false → gone st = []) ∧
    (∀ id, id ∈ gone st → forsaken fromisoformat (λ f, default JNull (field ix0 id f)) now grace undated ∧
       ∃ k d, catalog_now (env k) = Some d ∧ id ∉ map p_id (products d)) ∧
    (∀ id, found ix0 id = true → found (rix st) id = true ∨ id ∈ gone st) ∧
    (∀ id, found ix0 id = true → (∀ k d, catalog_now (env k) = Some d → id ∈ map p_id (products d)) → found (rix st) id = true)).
  { intros st [H1 H2] He. split_and!; [done|done|done|]. intros id Hid Hp. destruct (H2 id Hid) as [?|Hg]; [done|].
    destruct (H1 id Hg) as (_ & k & d & Hk & Hn). by destruct Hn; eapply Hp. }
  destruct enabled; cbn [negb]; [|by apply Hall]. destruct search_fails; [by apply Hall|].
  apply Hall; [by apply reap_ok|done].
Qed.

(** ** An empty batch size never ends *)

(** With [BATCH_SIZE] 0 no batch is short, and the unchanged cursor an empty
    batch leaves does not stop the scan: the pass is never over. *)
Lemma empty_batches_never_finish {Ix : Type} `{SearchIndex Ix} isoformat fromiso fuel n table env c (st : progress (Ix := Ix)) :
  (∀ n, is_Some (table n)) → (batches isoformat fromiso fuel 0 n table env c st).1 = OutOfFuel.
Proof.
  intros Ht. revert n c st. induction fuel as [|fuel IH]; intros n c st; [done|]. cbn [batches].
  destruct (Ht n) as [d ->]. by apply IH.
Qed.

(** The two lists of field names say the same as the shared table. *)
Lemma field_lists_agree :
  CATALOG_FIELDS ++ [CATALOG_TIMESTAMP_FIELD] ≡ₚ fields_owned_by CATALOG ∧ FOREIGN_FIELDS ≡ₚ foreign_fields CATALOG.
Proof. split; by_compute. Qed.

(** ** Concrete runs *)

Definition sample_row (id sku : string) (t : Z) : Product :=
  {| p_id := id; p_seller_id := "seller-1"; p_category_id := "cat-1"; p_sku := sku; p_name := "Kettle";
     p_description := None; p_price_cents := 4500; p_is_active := true; p_created_at := t |}.

Definition sample_rows : list Product := [sample_row "p2" "K-2" 20; sample_row "p1" "K-1" 10; sample_row "p3" "K-3" 20].

Definition sample_table (n : nat) : cdb :=
  {| products := sample_rows; categories := ["cat-1"]; ca_outbox := []; ca_keys := []; ca_draws := 3 |}.

Definition sample_from (s : string) : option stamp := Aware <$> parse_int 10 s.

Definition repriced : write := Partial PRICING (JStr "p2") [("price_cents", JInt 3900); ("updated_at", JStr "25")].

Definition sample_weather (n : nat) : row_weather :=
  {| meanwhile := if Nat.eqb n 1 then [repriced] else []; read_fails := false; in_between := []; write_fails := false |}.

Definition no_stats : stats :=
  {| passes := 0; scanned := 0; indexed := 0; skipped_newer := 0; errors := 0; reap_examined := 0; reap_kept := 0; reaped := 0 |}.

(** One document, stripped of everything but a stock level. *)
Definition damaged : MapIndex.index := {["p2" := {["quantity_available" := JInt 4]}]}.

Definition sample_pass : ending * progress * stats :=
  run_pass dec sample_from 4 2 (λ n, Some (sample_table n)) sample_weather damaged no_stats.

Example pass_repairs :
  let '(e, st, x) := sample_pass in
  map p_id (seen st) = ["p1"; "p2"; "p3"] ∧ field (ix st) "p2" "sku" = Some (JStr "K-2") ∧
  field (ix st) "p2" "quantity_available" = Some (JInt 4) ∧ field (ix st) "p2" "price_cents" = Some (JInt 3900) ∧
  field (ix st) "p2" "description" = None ∧ indexed x = 3.
Proof. vm_compute. by split_and!. Qed.

Lemma sample_growing : growing sample_table 3.
Proof. constructor; [intros n; change (NoDup (map p_id sample_rows)); by_compute|intros n; cbn; lia|done]. Qed.

Lemma sample_fair n : fair (sample_weather n).
Proof.
  unfold fair, sample_weather. cbn. split; [|constructor]. destruct (Nat.eqb n 1); [|constructor].
  constructor; [|constructor]. split; [|by_compute]. unfold well_formed. by_compute.
Qed.

Lemma sample_ids p : p ∈ sample_rows → p_id p ≠ "".
Proof. unfold sample_rows. intros Hp. by elem_cases Hp. Qed.

(** A document whose catalog timestamp is ahead of its row. *)
Definition ahead : MapIndex.index := <["p1" := {[CATALOG_TIMESTAMP_FIELD := JStr "99"]}]> damaged.

Lemma backfill_visits_every_product_witness :
  let '(e, st, x') := sample_pass in e = Finished ∧ NoDup (seen st) ∧ sample_row "p3" "K-3" 20 ∈ seen st.
Proof.
  pose proof (backfill_visits_every_product dec sample_from sample_table sample_weather 2 3 damaged no_stats
    ltac:(lia) sample_growing) as H.
  change (run_pass dec sample_from 4 2 (λ n, Some (sample_table n)) sample_weather damaged no_stats) with sample_pass in H.
  destruct sample_pass as [[e st] x']. destruct H as (H1 & H2 & H3 & _). split; [exact H1|]. split; [exact H2|].
  apply H3. right. right. left.
Defined.

Lemma backfill_repairs_catalog_fields_witness :
  let '(e, st, x') := run_pass dec sample_from 4 2 (λ n, Some (sample_table n)) sample_weather ahead no_stats in
  e = Finished ∧ field (ix st) "p3" "sku" = Some (JStr "K-3") ∧ field (ix st) "p1" "sku" = None ∧
  newer sample_from (ix st) (sample_row "p3" "K-3" 20) = false.
Proof.
  pose proof (backfill_repairs_catalog_fields dec sample_from sample_table sample_weather 2 3 ahead no_stats
    ltac:(lia) sample_growing (λ n, sample_ids) sample_fair (λ n, eq_refl)) as H.
  destruct (run_pass _ _ _ _ _ _ _ _) as [[e st] x']. destruct H as (H1 & _ & H3 & H4 & H5 & _). split; [exact H1|].
  assert (Hin : sample_row "p3" "K-3" 20 ∈ products (sample_table 0)) by (right; right; left).
  assert (Hn : newer sample_from ahead (sample_row "p3" "K-3" 20) = false) by (vm_compute; reflexivity).
  destruct (H3 _ Hin Hn) as [Hset Hnext].
  split; [apply (Hset "sku"); [rewrite build_document_eq; right; right; left|done|done]|].
  split; [|apply Hnext; vm_compute; reflexivity].
  assert (Hleft : newer sample_from ahead (sample_row "p1" "K-1" 10) = true) by (vm_compute; reflexivity).
  destruct (H5 (sample_row "p1" "K-1" 10) "sku") as [_ E]; [apply H4; [right; left|exact Hleft|done]|reflexivity|done|].
  refine (eq_trans E _). vm_compute. reflexivity.
Defined.

(** An old document of catalog's own is kept, a parentless one goes. *)
Definition strewn : MapIndex.index :=
  {["p2" := {["quantity_available" := JInt 4; "updated_at" := JStr "5"]};
    "ghost" := {["price_cents" := JInt 1; "updated_at" := JStr "5"]};
    "young" := {["price_cents" := JInt 1; "updated_at" := JStr "9000000000"]}]}.

Definition sample_reaping : reaping * stats :=
  reap_pass sample_from true 3600 9000000001 false false
    (λ n, {| others := []; catalog_now := Some (sample_table 0); delete_fails := false |}) strewn no_stats.

Lemma reaper_spares_products_witness :
  gone sample_reaping.1 = ["ghost"] ∧ found (rix sample_reaping.1) "young" = true ∧ reap_kept sample_reaping.2 = 2 ∧
  found (rix sample_reaping.1) "p2" = true.
Proof.
  split_and!; [vm_compute; reflexivity..|].
  pose proof (reaper_spares_products (Ix := MapIndex.index) sample_from true 3600 9000000001 false false
    (λ n, {| others := []; catalog_now := Some (sample_table 0); delete_fails := false |}) strewn no_stats) as H.
  fold sample_reaping in H. destruct sample_reaping as [st x]. cbn [fst snd]. apply H; [reflexivity|].
  intros k d [= <-]. by_compute.
Defined.

End ReindexWorker.
