(* ===== verification/StreamProcessor.v ===== *)
(** * Stream processor (workers/stream-processor, app/)

    The worker that keeps the product documents current.  Module [EventRules]
    is [consumers/event_rules.py] (what a message is), [SellerProjection] is
    [seller_projection.py] (what belongs on a seller's documents), and
    [StreamProcessor] has [indexers/seller_refresh.py], the router
    [consumers/event_router.py] and the callback of [main.py].

    The search engine is the class of [ReadModel].  What the three services
    answer, what other writers do meanwhile, which documents an update by query
    skips or a count cannot see yet, and which requests fail are arguments.
    [json.loads], [float()] and [sorted()] of a list are parameters. *)

From S2P Require Import Prelude PyValue PyJson ReadModel.
Import ReadModel.

Module EventRules.

Definition PRODUCT_CREATED := "ProductCreated".
Definition PRICE_UPDATED := "PriceUpdated".
Definition INVENTORY_RESERVED := "InventoryReserved".
Definition INVENTORY_RESERVATION_FAILED := "InventoryReservationFailed".
Definition INVENTORY_RELEASED := "InventoryReleased".

Definition SELLER_SIGNAL_EVENTS : list string :=
  ["ReviewPublished"; "ReviewUpdated"; "SellerOrderDelivered"; "SellerOrderReturned"; "SellerOrderCancelled";
   "SellerApproved"; "SellerReinstated"; "SellerLocationUpdated"; "SellerSuspended"; "SellerBanned"; "SellerRejected"].

Definition INDEXED_EVENTS : list string := [PRODUCT_CREATED; PRICE_UPDATED; INVENTORY_RESERVED] ++ SELLER_SIGNAL_EVENTS.

Definition TYPE_HEADER := "eventType".

Definition has_key (d : list (string * json)) (k : string) : bool :=
  match dict_get d k with Some _ => true | None => false end.

(** The type by the shape of the payload. *)
Definition type_by_shape (d : list (string * json)) : json :=
  if has_key d "reason" && has_key d "quantity_requested" then JStr INVENTORY_RESERVATION_FAILED
  else if has_key d "base_price_cents" then JStr PRICE_UPDATED
  else if has_key d "total_quantity_available" || has_key d "quantity_reserved" then JStr INVENTORY_RESERVED
  else if has_key d "name" && has_key d "description" then JStr PRODUCT_CREATED
  else JNull.

(** [JNull] is Python's [None]: unknown. *)
Definition infer_event_type (msg_data : list (string * json)) (payload : json) (headers : list (string * string)) : json :=
  let from_header := default "" (dict_get headers TYPE_HEADER) in
  if negb (is_empty from_header) then JStr from_header
  else
    let explicit := if truthy (obj_get msg_data "type") then obj_get msg_data "type" else obj_get msg_data "event_type" in
    if truthy explicit then explicit
    else match payload with JObj d => type_by_shape d | _ => JNull end.

Definition is_product_payload (payload : json) : bool :=
  match payload with JObj d => truthy (obj_get d "name") || truthy (obj_get d "sku") | _ => false end.

End EventRules.

Module SellerProjection.

Definition REFRESH_TRIGGERS : list string :=
  ["ReviewPublished"; "ReviewUpdated"; "SellerOrderDelivered"; "SellerOrderReturned"; "SellerOrderCancelled";
   "SellerApproved"; "SellerReinstated"; "SellerLocationUpdated"; "SellerSuspended"; "SellerBanned"; "SellerRejected"].

Definition VISIBILITY_EVENTS : list string :=
  ["SellerSuspended"; "SellerBanned"; "SellerRejected"; "SellerApproved"; "SellerReinstated"].

Definition changes_visibility (event_type : string) : bool := event_type in_ VISIBILITY_EVENTS.
Definition is_refresh_trigger (event_type : string) : bool := event_type in_ REFRESH_TRIGGERS.

Record SellerSignals := {
  may_sell : option bool;
  rating : json;
  review_count : json;
  on_time_dispatch_rate : json;
  cancellation_rate : json;
  return_rate : json;
  confidence : json;
  latitude : option pyfloat;
  longitude : option pyfloat;
}.

(** [lo <= f <= hi] *)
Definition within (f : pyfloat) (lo hi : Z) : bool :=
  match f with
  | FFin m e =>
      if 0 <=? e then (lo <=? m * 2 ^ e) && (m * 2 ^ e <=? hi) else (lo * 2 ^ (- e) <=? m) && (m <=? hi * 2 ^ (- e))
  | FInf _ | FNan => false
  end.

Section projection.
Context (repr : json → string) (to_float : json → pyexn + pyfloat).

Definition seller_id_from (payload : list (string * json)) : option string :=
  if truthy (obj_get payload "seller_id") then Some (py_str repr (obj_get payload "seller_id"))
  else if truthy (obj_get payload "id") then Some (py_str repr (obj_get payload "id"))
  else None.

(** [inl] is the [OverflowError] of a number too large for a float. *)
Definition parse_coordinates (latitude longitude : json) : pyexn + option (pyfloat * pyfloat) :=
  match latitude, longitude with
  | JNull, _ | _, JNull => inr None
  | _, _ =>
      match to_float latitude with
      | inl OverflowError => inl OverflowError
      | inl _ => inr None
      | inr lat =>
          match to_float longitude with
          | inl OverflowError => inl OverflowError
          | inl _ => inr None
          | inr lon => inr (if negb (within lat (-90) 90) || negb (within lon (-180) 180) then None else Some (lat, lon))
          end
      end
  end.

Definition build_signal_fields (s : SellerSignals) : list (string * json) :=
  [("seller_may_sell", match may_sell s with Some b => JBool b | None => JNull end);
   ("seller_rating", rating s); ("seller_review_count", review_count s);
   ("seller_on_time_dispatch_rate", on_time_dispatch_rate s); ("seller_cancellation_rate", cancellation_rate s);
   ("seller_return_rate", return_rate s); ("seller_confidence", confidence s);
   ("seller_location",
    match latitude s, longitude s with
    | Some lat, Some lon => JObj [("lat", JFloat lat); ("lon", JFloat lon)]
    | _, _ => JNull
    end)].

(** [x or {}], then attributes: [None] is the [AttributeError] of a body that is
    neither falsy nor an object. *)
Definition as_dict (v : json) : option (list (string * json)) :=
  if truthy v then match v with JObj d => Some d | _ => None end else Some [].

Definition signals_from_responses (metrics reviews profile : json) : string + SellerSignals :=
  match as_dict profile, as_dict reviews, as_dict metrics with
  | Some p, Some r, Some m =>
      match parse_coordinates (obj_get p "latitude") (obj_get p "longitude") with
      | inl _ => inl "OverflowError"
      | inr place =>
          inr {| may_sell := match obj_get p "may_list_products" with JNull => None | v => Some (truthy v) end;
                 rating := obj_get r "rating"; review_count := obj_get r "review_count";
                 on_time_dispatch_rate := obj_get m "on_time_dispatch_rate";
                 cancellation_rate := obj_get m "cancellation_rate"; return_rate := obj_get m "return_rate";
                 confidence := obj_get m "confidence"; latitude := fst <$> place; longitude := snd <$> place |}
      end
  | _, _, _ => inl "AttributeError"
  end.
End projection.

End SellerProjection.

Module StreamProcessor.
Import EventRules SellerProjection.

(** ** What goes on around a message *)

Inductive http_reply := Unreachable | Replied (status_code : Z) (body : option json).

(** One round of the verification: what others write before the count, whether
    the count fails, which documents it cannot see yet; then what others write
    before the repeated update and which documents that one skips ([None] when
    it raises). *)
Record attempt := {
  before_count : list write;
  count_fails : bool;
  unseen : string → bool;
  before_retry : list write;
  retry : option (string → bool);
}.

Record refresh_weather := {
  metrics_reply : http_reply;
  reviews_reply : http_reply;
  profile_reply : http_reply;
  now_monotonic : Z;
  marked_at : Z;
  iso_now : string;
  skipped : string → bool;
  update_error : option string;
  attempts : nat → attempt;
}.

Record world (Ix : Type) := World { windex : Ix; last_refresh : gmap string Z }.
Arguments World {_} _ _.
Arguments windex {_} _.
Arguments last_refresh {_} _.

(** How the verification of a forced refresh ended. *)
Inductive verdict := NotAsked | NoOpinion | Settled (attempt : nat) | CouldNotVerify | GaveUp.

Definition VISIBILITY_ATTEMPTS : nat := 5.
Definition REFRESH_COALESCE_US : Z := 30 * 1000000.

Section worker.
Context {Ix : Type} `{SearchIndex Ix}.
Context (repr : json → string) (to_float : json → pyexn + pyfloat).

(** ** Refreshing a seller (seller_refresh.py) *)

Definition _get_json (r : http_reply) : json :=
  match r with Replied 200 (Some v) => v | _ => JNull end.

Definition should_refresh (seller_id : string) (now : Z) (w : world Ix) : bool :=
  match last_refresh w !! seller_id with None => true | Some last => REFRESH_COALESCE_US <=? now - last end.

Definition _mark_refreshed (seller_id : string) (now : Z) (w : world Ix) : world Ix :=
  World (windex w) (<[seller_id := now]> (last_refresh w)).

Definition fetch_signals (env : refresh_weather) : string + SellerSignals :=
  signals_from_responses to_float (_get_json (metrics_reply env)) (_get_json (reviews_reply env)) (_get_json (profile_reply env)).

(** [must: term seller_id; must_not: term seller_may_sell] *)
Definition stale (seller_id : string) (desired : bool) (ix : Ix) (id : string) : bool :=
  term (field ix id "seller_id") (JStr seller_id) && negb (term (field ix id "seller_may_sell") (JBool desired)).

Definition remaining (seller_id : string) (desired : bool) (unseen : string → bool) (ix : Ix) : Z :=
  Z.of_nat (length (List.filter (λ id, stale seller_id desired ix id && negb (unseen id)) (stored ix))).

(** Rounds [k], [k + 1], ... of [_ensure_visibility_applied], [n] of them left. *)
Fixpoint ensure_from (n k : nat) (env : nat → attempt) (seller_id : string) (desired : bool) (fields : list (string * json)) (ix : Ix)
    : Ix * verdict :=
  match n with
  | O => (ix, GaveUp)
  | S n =>
      let a := env k in
      let ix := foldl apply ix (before_count a) in
      if count_fails a then (ix, CouldNotVerify)
      else if remaining seller_id desired (unseen a) ix =? 0 then (ix, Settled k)
      else
        let ix := foldl apply ix (before_retry a) in
        let ix := match retry a with Some skips => apply ix (Signals seller_id fields skips) | None => ix end in
        ensure_from n (S k) env seller_id desired fields ix
  end.

Definition _ensure_visibility_applied (env : nat → attempt) (seller_id : string) (fields : list (string * json)) (ix : Ix)
    : Ix * verdict :=
  match obj_get fields "seller_may_sell" with
  | JBool desired => ensure_from VISIBILITY_ATTEMPTS 0 env seller_id desired fields ix
  | _ => (ix, NoOpinion)
  end.

(** The world afterwards and the verdict, or the exception raised. *)
Definition refresh_seller (seller_id : string) (force : bool) (env : refresh_weather) (w : world Ix) : world Ix * (string + verdict) :=
  if negb force && negb (should_refresh seller_id (now_monotonic env) w) then (w, inr NotAsked)
  else match fetch_signals env with
  | inl e => (w, inl e)
  | inr signals =>
      let fields := build_signal_fields signals in
      match validate_product_write SELLER_SIGNALS fields.*1 with
      | Some e => (w, inl e)
      | None =>
          let fields := dict_set fields "seller_signals_updated_at" (JStr (iso_now env)) in
          let ix := apply (windex w) (Signals seller_id fields (skipped env)) in
          match update_error env with
          | Some e => (World ix (last_refresh w), inl e)
          | None =>
              let (ix, v) := if force then _ensure_visibility_applied (attempts env) seller_id fields ix else (ix, NotAsked) in
              (_mark_refreshed seller_id (marked_at env) (World ix (last_refresh w)), inr v)
          end
      end
  end.

(** ** Routing (event_router.py) *)

(** The write a document event asks for: its id, its owner and its fields. *)
Definition document_write (event_type : string) (payload : list (string * json)) : option (json * string * list (string * json)) :=
  let get k := obj_get payload k in
  if event_type =?s PRODUCT_CREATED then
    Some (get "id", CATALOG,
      [("seller_id", get "seller_id"); ("sku", get "sku"); ("category_id", get "category_id"); ("name", get "name");
       ("description", get "description"); ("is_active", default (JBool true) (dict_get payload "is_active"));
       ("base_price_cents", get "price_cents"); ("updated_at", get "created_at")])
  else if event_type =?s PRICE_UPDATED then
    Some (get "product_id", PRICING, [("price_cents", get "base_price_cents"); ("updated_at", get "created_at")])
  else if event_type =?s INVENTORY_RESERVED then
    Some (get "product_id", INVENTORY, [("quantity_available", get "total_quantity_available"); ("updated_at", get "updated_at")])
  else None.

(** Around one message: what others have written since the last one, the error
    of the index request and whether it took effect all the same, and the
    surroundings of a refresh. *)
Record weather := {
  meanwhile : list write;
  es_error : option (string * bool);
  refreshing : refresh_weather;
}.

(** [None] when the router returns, otherwise the exception. *)
Definition process_event (event_type : string) (payload : list (string * json)) (env : weather) (w : world Ix)
    : world Ix * option string :=
  match document_write event_type payload with
  | Some (doc_id, owner, fields) =>
      match write_product doc_id owner fields (windex w) with
      | inl e => (w, Some e)
      | inr ix =>
          match es_error env with
          | None => (World ix (last_refresh w), None)
          | Some (e, applied) => (World (if applied : bool then ix else windex w) (last_refresh w), Some e)
          end
      end
  | None =>
      if is_refresh_trigger event_type then
        match seller_id_from repr payload with
        | None => (w, None)
        | Some seller_id =>
            if is_empty seller_id then (w, None)
            else
              let (w, r) := refresh_seller seller_id (changes_visibility event_type) (refreshing env) w in
              (w, match r with inl e => Some e | inr _ => None end)
        end
      else (w, None)
  end.

(** ** The callback (main.py) *)

Context (json_loads : string → option json) (sortable : list json → bool).

(** What a message turns out to be: skipped, an error, or an event to route. *)
Inductive reading := Skip | Refuse (e : string) | Route (event_type : string) (payload : list (string * json)).

Definition as_message (value : json) : option json :=
  match value with JStr s => json_loads s | v => Some v end.

Definition payload_of (msg_data : list (string * json)) : json :=
  match default (JObj msg_data) (dict_get msg_data "payload") with
  | JStr s => default (JStr s) (json_loads s)
  | v => v
  end.

(** [event_type not in INDEXED_EVENTS]; [None] is the [TypeError] of an unhashable type. *)
Definition indexed_event (event_type : json) : option (option string) :=
  match event_type with
  | JStr s => Some (if s in_ INDEXED_EVENTS then Some s else None)
  | JList _ | JObj _ => None
  | _ => Some None
  end.

(** [sorted(payload)] in the warning about a payload that is no product. *)
Definition can_sort (payload : json) : bool :=
  match payload with JObj _ | JStr _ => true | JList l => sortable l | _ => false end.

Definition read_message (value : json) (headers : list (string * string)) : reading :=
  match as_message value with
  | Some (JObj msg_data) =>
      let payload := payload_of msg_data in
      let event_type := infer_event_type msg_data payload headers in
      match event_type with
      | JNull => Skip
      | _ =>
      match indexed_event event_type with
      | None => Refuse "TypeError"
      | Some None => Skip
      | Some (Some ty) =>
          if (ty =?s PRODUCT_CREATED) && negb (is_product_payload payload)
          then if can_sort payload then Skip else Refuse "TypeError"
          else match payload with
          | JObj d =>
              if negb (ty in_ SELLER_SIGNAL_EVENTS) && negb (truthy (obj_get d "id"))
              then Refuse "Event payload missing required 'id' field for idempotent indexing"
              else Route ty d
          | _ => Refuse "AttributeError"
          end
      end end
  | _ => Refuse "ValueError"
  end.

(** A message as it arrives, with its surroundings. *)
Record arrival := { value : json; headers : list (string * string); env : weather }.

(** The exception sends the message to its dead-letter topic. *)
Definition callback_wrapper (a : arrival) (w : world Ix) : world Ix * option string :=
  let w := World (foldl apply (windex w) (meanwhile (env a))) (last_refresh w) in
  match read_message (value a) (headers a) with
  | Skip => (w, None)
  | Refuse e => (w, Some e)
  | Route ty payload => process_event ty payload (env a) w
  end.

Definition handled (w : world Ix) (a : arrival) : world Ix := (callback_wrapper a w).1.

End worker.

(** ** What search shows (search-service, search_engine.py): the filters of the query *)

Section search.
Context {Ix : Type} `{SearchIndex Ix}.

Definition exists_field (v : option json) : bool := match v with None | Some JNull => false | Some _ => true end.

Definition searchable (shop : option string) (ix : Ix) (id : string) : bool :=
  term (field ix id "is_active") (JBool true) && exists_field (field ix id "sku") &&
  negb (term (field ix id "seller_may_sell") (JBool false)) &&
  match shop with
  | Some s => is_empty s || term (field ix id "seller_id") (JStr s)
  | None => true
  end.
End search.

(** ** The two gates *)

Lemma gates_agree event_type payload : event_type ∈ INDEXED_EVENTS ↔
  is_Some (document_write event_type payload) ∨ is_refresh_trigger event_type = true.
Proof.
  unfold document_write, is_refresh_trigger, in_listb. rewrite bool_decide_eq_true.
  change REFRESH_TRIGGERS with SELLER_SIGNAL_EVENTS. unfold INDEXED_EVENTS. rewrite elem_of_app.
  assert (E : event_type ∈ [PRODUCT_CREATED; PRICE_UPDATED; INVENTORY_RESERVED] ↔
    is_Some (document_write event_type payload)).
  { unfold document_write. repeat case_bool_decide; subst; try (split; [by eexists|intros _; by_compute]).
    split; [|by intros []]. intros Hin. by elem_cases Hin. }
  rewrite E. done.
Qed.

Section lemmas.
Context {Ix : Type} `{SearchIndexLaws Ix}.
Context (repr : json → string) (to_float : json → pyexn + pyfloat).
Context (json_loads : string → option json) (sortable : list json → bool).

Notation handle := (handled (Ix := Ix) repr to_float json_loads sortable).
Notation read := (read_message json_loads sortable).

(** ** Documents *)

Lemma document_write_wf ty payload pid owner fields : document_write ty payload = Some (pid, owner, fields) →
  NoDup fields.*1 ∧ validate_product_write owner fields.*1 = None ∧ dict_get fields "product_id" = None ∧
  (owner, ty) ∈ [(CATALOG, PRODUCT_CREATED); (PRICING, PRICE_UPDATED); (INVENTORY, INVENTORY_RESERVED)].
Proof.
  unfold document_write. intros Hd. repeat case_bool_decide; subst; simplify_eq;
    (split_and!; [by_compute|reflexivity|reflexivity|by_compute]).
Qed.

(** What a message tells about a field of a document, when its write takes effect. *)
Definition told (a : arrival) (id f : string) : option json :=
  match read (value a) (headers a) with
  | Route ty payload =>
      match document_write ty payload with
      | Some (pid, owner, fields) =>
          if bool_decide (doc_path (Ix := Ix) pid = Some id) && match es_error (env a) with Some (_, applied) => applied | None => true end
          then dict_get fields f else None
      | None => None
      end
  | _ => None
  end.

Definition signal_fields (s : SellerSignals) (iso : string) : list (string * json) :=
  dict_set (build_signal_fields s) "seller_signals_updated_at" (JStr iso).

Lemma signal_fields_valid s : validate_product_write SELLER_SIGNALS (build_signal_fields s).*1 = None.
Proof. done. Qed.

Lemma signal_write_wf seller s iso skips : well_formed (Signals seller (signal_fields s iso) skips).
Proof. unfold well_formed. cbn. by_compute. Qed.

(** ** Other writers around a message *)

Definition spares (o : string) (w : write) : Prop := well_formed w ∧ writer w ≠ o.

Definition bystanders (o : string) (a : arrival) : Prop :=
  Forall (spares o) (meanwhile (env a)) ∧
  ∀ k, Forall (spares o) (before_count (attempts (refreshing (env a)) k)) ∧
       Forall (spares o) (before_retry (attempts (refreshing (env a)) k)).

Lemma spared ws (i : Ix) id f o : Forall (spares o) ws → owner_of f = Some o → o ≠ ANY_OWNER → f ≠ "product_id" →
  field (foldl apply i ws) id f = field i id f.
Proof.
  intros Hws Ho Hany Hf. revert i. induction Hws as [|w ws [Hw Hc] Hws IH]; intros i; [done|]. cbn [foldl].
  rewrite IH. by apply (apply_foreign _ _ _ _ o).
Qed.

Lemma ensure_keeps n k envs seller desired s iso (i : Ix) id f o :
  (∀ k, Forall (spares o) (before_count (envs k)) ∧ Forall (spares o) (before_retry (envs k))) →
  owner_of f = Some o → o ≠ ANY_OWNER → o ≠ SELLER_SIGNALS → f ≠ "product_id" →
  field (ensure_from n k envs seller desired (signal_fields s iso) i).1 id f = field i id f.
Proof.
  intros Henv Ho Hany Hsel Hf. revert k i. induction n as [|n IH]; intros k i; [done|]. cbn [ensure_from].
  destruct (Henv k) as [H1 H2]. destruct (count_fails _); [by apply (spared _ _ _ _ o)|].
  destruct (_ =? 0); [by apply (spared _ _ _ _ o)|]. rewrite IH.
  destruct (retry _) as [skips|].
  - rewrite (apply_foreign _ _ _ _ o) by (done || apply signal_write_wf). by rewrite !(spared _ _ _ _ o).
  - by rewrite !(spared _ _ _ _ o).
Qed.

Lemma refresh_keeps seller force rw (w : world Ix) id f o :
  (∀ k, Forall (spares o) (before_count (attempts rw k)) ∧ Forall (spares o) (before_retry (attempts rw k))) →
  owner_of f = Some o → o ≠ ANY_OWNER → o ≠ SELLER_SIGNALS → f ≠ "product_id" →
  field (windex (refresh_seller to_float seller force rw w).1) id f = field (windex w) id f.
Proof.
  intros Henv Ho Hany Hsel Hf. unfold refresh_seller. destruct (_ && _); [done|].
  destruct (fetch_signals to_float rw) as [|s]; [done|]. rewrite signal_fields_valid. fold (signal_fields s (iso_now rw)).
  assert (E : field (apply (windex w) (Signals seller (signal_fields s (iso_now rw)) (skipped rw))) id f = field (windex w) id f)
    by (apply (apply_foreign _ _ _ _ o); try done; apply signal_write_wf).
  destruct (update_error rw); [done|]. destruct force; [|done]. unfold _ensure_visibility_applied.
  destruct (obj_get _ _) as [|desired| | | | |]; [done| |done..]. rewrite <-E.
  pose proof (ensure_keeps VISIBILITY_ATTEMPTS 0 (attempts rw) seller desired s (iso_now rw)
    (apply (windex w) (Signals seller (signal_fields s (iso_now rw)) (skipped rw))) id f o Henv Ho Hany Hsel Hf) as Ek.
  by destruct (ensure_from _ _ _ _ _ _ _).
Qed.

(** One message changes an owner's field to what it tells about it, or not at all. *)
Lemma handled_field a (w : world Ix) id f o v0 : bystanders o a → owner_of f = Some o → o ≠ ANY_OWNER → o ≠ SELLER_SIGNALS →
  f ≠ "product_id" → (∀ v, told a id f = Some v → ∀ d, v ≠ JObj d) → field (windex w) id f = v0 →
  field (windex (handle w a)) id f = match told a id f with Some v => Some v | None => v0 end.
Proof.
  intros [Hb Hbs] Ho Hany Hsel Hf Hflat <-. unfold handled, callback_wrapper, told in *.
  assert (E : field (foldl apply (windex w) (meanwhile (env a))) id f = field (windex w) id f) by by apply (spared _ _ _ _ o).
  set (w1 := World (foldl apply (windex w) (meanwhile (env a))) (last_refresh w)).
  change (field (windex w1) id f = field (windex w) id f) in E.
  destruct (read (value a) (headers a)) as [|e|ty payload]; [done..|].
  unfold process_event. destruct (document_write ty payload) as [[[pid owner] fields]|] eqn:Ed.
  - destruct (document_write_wf _ _ _ _ _ Ed) as (Hnd & Hv & Hpid & _). unfold write_product, product_update_body. rewrite Hv.
    destruct (doc_path pid) as [i|] eqn:Ep; [|by rewrite bool_decide_false].
    assert (Hput : field (put_partial (windex w1) i (setdefault fields "product_id" pid)) id f =
      match (if bool_decide (Some i = Some id) then dict_get fields f else None) with
      | Some v => Some (blend (field (windex w1) i f) v) | None => field (windex w1) id f end).
    { rewrite field_put by by apply setdefault_nodup. rewrite setdefault_other by done.
      rewrite (bool_decide_ext (id = i) (Some i = Some id)) by naive_solver. done. }
    destruct (es_error (env a)) as [[e [|]]|]; cbn [fst windex andb];
      rewrite ?andb_true_r, ?andb_false_r in *; try exact E; rewrite Hput;
      (destruct (bool_decide _); [|exact E]; destruct (dict_get fields f) as [v|]; [|exact E];
       rewrite blend_flat; [done|by apply Hflat]).
  - destruct (is_refresh_trigger ty); [|done]. destruct (seller_id_from repr payload) as [seller|]; [|done].
    destruct (is_empty seller); [done|].
    pose proof (refresh_keeps seller (changes_visibility ty) (refreshing (env a)) w1 id f o Hbs Ho Hany Hsel Hf) as Er.
    destruct (refresh_seller _ _ _ _ _) as [w2 [e|v]]; cbn [fst] in *; by rewrite Er.
Qed.

End lemmas.

(** A document shows what its owners last said: over any sequence of
    messages, with index requests failing before or after they took effect and
    other writers at work on their own fields, every catalog, price and stock
    field of every document is the value in the last creation, price or
    reservation event that was applied to it, and events of the other kinds,
    redelivered ones included, leave it alone. *)
Theorem documents_follow_their_owners {Ix : Type} `{SearchIndexLaws Ix} (repr : json → string)
    (to_float : json → pyexn + pyfloat) (json_loads : string → option json) (sortable : list json → bool)
    (arrivals : list arrival) (w : world Ix) (id f o : string)
    (Ho : owner_of f = Some o) (Hdoc : o ∈ [CATALOG; PRICING; INVENTORY]) (Hf : f ≠ "product_id")
    (Hby : Forall (bystanders o) arrivals)
    (Hflat : ∀ a v, a ∈ arrivals → told (Ix := Ix) json_loads sortable a id f = Some v → ∀ d, v ≠ JObj d) :
  field (windex (foldl (handled repr to_float json_loads sortable) w arrivals)) id f =
    foldl (λ acc a, match told (Ix := Ix) json_loads sortable a id f with Some v => Some v | None => acc end)
      (field (windex w) id f) arrivals.
Proof.
  assert (Ho' : o ≠ ANY_OWNER ∧ o ≠ SELLER_SIGNALS) by (elem_cases Hdoc; by_compute). destruct Ho' as [Hany Hsel].
  revert w. induction arrivals as [|a arrivals IH]; intros w; [done|]. apply Forall_cons in Hby as [Ha Hby]. cbn [foldl].
  rewrite IH; [|done|intros; eapply Hflat; [by right|done]]. f_equal.
  apply (handled_field _ _ _ _ _ _ _ _ o); try done. intros v. apply Hflat. left.
Qed.

(** ** Visibility *)

Section visibility.
Context {Ix : Type} `{SearchIndexLaws Ix}.
Context (to_float : json → pyexn + pyfloat).

Lemma remaining_zero seller desired (hidden : string → bool) (i : Ix) : remaining seller desired hidden i = 0 ↔
  ∀ id, term (field i id "seller_id") (JStr seller) = true → hidden id = false → term (field i id "seller_may_sell") (JBool desired) = true.
Proof.
  unfold remaining. split.
  - intros Hz id Hs Hh. destruct (term (field i id "seller_may_sell") (JBool desired)) eqn:E; [done|]. exfalso.
    assert (Hin : id ∈ List.filter (λ id, stale seller desired i id && negb (hidden id)) (stored i)).
    { apply elem_of_filter_bool. split; [|unfold stale; by rewrite Hs, E, Hh].
      apply stored_found. destruct (field i id "seller_id") as [v|] eqn:Ev; [by eapply field_found|]. by rewrite term_absent in Hs. }
    destruct (List.filter _ _); [by apply not_elem_of_nil in Hin|]. cbn in Hz. lia.
  - intros Hall. rewrite filter_none; [done|]. intros id _. unfold stale.
    destruct (term (field i id "seller_id") (JStr seller)) eqn:Es; [|done]. destruct (hidden id) eqn:Eh; [by rewrite andb_false_r|].
    by rewrite (Hall id).
Qed.

Lemma ensure_settled n k envs seller desired fields (i i' : Ix) j :
  ensure_from n k envs seller desired fields i = (i', Settled j) →
  (k ≤ j < k + n)%nat ∧ remaining seller desired (unseen (envs j)) i' = 0.
Proof.
  revert k i. induction n as [|n IH]; intros k i He; [done|]. cbn [ensure_from] in He.
  destruct (count_fails _); [done|]. destruct (_ =? 0) eqn:Ez; bool_to_prop.
  - injection He as <- <-. split; [lia|done].
  - apply IH in He as [Hj Hr]. split; [lia|done].
Qed.

(** A verdict other than a settled one is a failed count, or five rounds that
    each found a document in disagreement. *)
Lemma ensure_verdicts n k envs seller desired fields (i : Ix) : let v := (ensure_from n k envs seller desired fields i).2 in
  (∃ j, v = Settled j) ∨ (v = CouldNotVerify ∧ ∃ j, count_fails (envs j) = true) ∨ v = GaveUp.
Proof.
  revert k i. induction n as [|n IH]; intros k i; cbn [ensure_from]; [by right; right|].
  destruct (count_fails _) eqn:Ec; [right; left; by eauto|]. destruct (_ =? 0); [left; by eauto|]. apply IH.
Qed.

(** Nobody in the way: the first look settles it. *)
Record calm (rw : refresh_weather) : Prop := {
  cm_update : update_error rw = None;
  cm_skipped : ∀ id, skipped rw id = false;
  cm_count : before_count (attempts rw 0) = [] ∧ count_fails (attempts rw 0) = false;
}.

Lemma forced_refresh seller rw (w : world Ix) s b : fetch_signals to_float rw = inr s → may_sell s = Some b → update_error rw = None →
  ∃ i v, refresh_seller to_float seller true rw w = (World i (<[seller := marked_at rw]> (last_refresh w)), inr v) ∧
    ensure_from VISIBILITY_ATTEMPTS 0 (attempts rw) seller b (signal_fields s (iso_now rw))
      (apply (windex w) (Signals seller (signal_fields s (iso_now rw)) (skipped rw))) = (i, v).
Proof.
  intros Hs Hb Hu. unfold refresh_seller. cbn [negb andb]. rewrite Hs, signal_fields_valid, Hu. fold (signal_fields s (iso_now rw)).
  unfold _ensure_visibility_applied. change (obj_get (signal_fields s (iso_now rw)) "seller_may_sell")
    with (match may_sell s with Some b => JBool b | None => JNull end). rewrite Hb.
  destruct (ensure_from _ _ _ _ _ _ _) as [i v]. by exists i, v.
Qed.

(** The flag of a document survives everything but the seller projection. *)
Lemma flag_survives ws (i : Ix) id : Forall (spares SELLER_SIGNALS) ws →
  field (foldl apply i ws) id "seller_may_sell" = field i id "seller_may_sell".
Proof. intros Hws. by apply (spared ws i id _ SELLER_SIGNALS Hws). Qed.

(** A settled refresh has reached every document the count could see. *)
Lemma settled_documents n k0 envs seller fields b (i i' : Ix) k id :
  ensure_from n k0 envs seller b fields i = (i', Settled k) →
  term (field i' id "seller_id") (JStr seller) = true → unseen (envs k) id = false →
  term (field i' id "seller_may_sell") (JBool b) = true ∧
  (b = false → ∀ shop ws, Forall (spares SELLER_SIGNALS) ws → searchable shop (foldl apply i' ws) id = false).
Proof.
  intros He Hs Hh. apply ensure_settled in He as [_ Hz]. apply remaining_zero with (id := id) in Hz; [|done..].
  split; [done|]. intros -> shop ws Hws. unfold searchable. rewrite (flag_survives ws i' id Hws), Hz. cbn [negb].
  by rewrite andb_false_r.
Qed.

Lemma calm_settles rw seller s b (w : world Ix) i v : calm rw → may_sell s = Some b →
  ensure_from VISIBILITY_ATTEMPTS 0 (attempts rw) seller b (signal_fields s (iso_now rw))
    (apply (windex w) (Signals seller (signal_fields s (iso_now rw)) (skipped rw))) = (i, v) → v = Settled 0.
Proof.
  intros [_ Hskip [Hb Hc]] Hstanding He. cbn [ensure_from VISIBILITY_ATTEMPTS] in He. rewrite Hb, Hc in He. cbn [foldl] in He.
  rewrite (proj2 (Z.eqb_eq _ _)) in He; [by injection He as _ <-|]. apply remaining_zero. intros id Hs _.
  assert (Ea : apply (windex w) (Signals seller (signal_fields s (iso_now rw)) (skipped rw)) =
    assign_where (windex w) ("seller_id", JStr seller) (signal_fields s (iso_now rw)) (skipped rw)) by done.
  rewrite Ea in *.
  rewrite field_assign in Hs by apply (signal_write_wf seller s (iso_now rw) (skipped rw)).
  rewrite field_assign by apply (signal_write_wf seller s (iso_now rw) (skipped rw)). cbn [fst snd] in *. rewrite Hskip in *.
  cbn [negb] in *. rewrite andb_true_r in *.
  change (dict_get (signal_fields s (iso_now rw)) "seller_id") with (@None json) in Hs.
  change (dict_get (signal_fields s (iso_now rw)) "seller_may_sell") with
    (Some (match may_sell s with Some b => JBool b | None => JNull end)). rewrite Hstanding.
  assert (Hs' : term (field (windex w) id "seller_id") (JStr seller) = true)
    by (destruct (term (field (windex w) id "seller_id") (JStr seller)) eqn:E; [done|cbn in Hs; congruence]).
  rewrite Hs', term_bool. apply eqb_reflx.
Qed.

End visibility.

(** C26 — A suspension takes the catalogue off the shelf, or says that it could
    not: a refresh forced by a visibility event reads the seller's standing,
    writes it, and keeps writing until a count finds no disagreeing document;
    it makes at most five rounds, whatever else is written meanwhile.  When it
    reports success every document of the seller the last count could see
    carries the standing, and with "may not sell" none of them can be found by
    search afterwards, whatever the other writers go on to write; and when
    nothing interferes the first look succeeds. *)
Theorem suspension_hides_the_catalogue {Ix : Type} `{SearchIndexLaws Ix} (to_float : json → pyexn + pyfloat)
    (seller : string) (rw : refresh_weather) (w : world Ix) (s : SellerSignals) (b : bool)
    (Hfetch : fetch_signals to_float rw = inr s) (Hstanding : may_sell s = Some b) (Hok : update_error rw = None) :
  ∃ w' v, refresh_seller to_float seller true rw w = (w', inr v) ∧
    ((∃ k, v = Settled k ∧ (k < VISIBILITY_ATTEMPTS)%nat) ∨ (v = CouldNotVerify ∧ ∃ k, count_fails (attempts rw k) = true) ∨ v = GaveUp) ∧
    (∀ k id, v = Settled k → term (field (windex w') id "seller_id") (JStr seller) = true → unseen (attempts rw k) id = false →
       term (field (windex w') id "seller_may_sell") (JBool b) = true ∧
       (b = false → ∀ shop ws, Forall (spares SELLER_SIGNALS) ws → searchable shop (foldl apply (windex w') ws) id = false)) ∧
    (calm rw → v = Settled 0).
Proof.
  destruct (forced_refresh to_float seller rw w s b Hfetch Hstanding Hok) as (i & v & Hr & He).
  exists (World i (<[seller := marked_at rw]> (last_refresh w))), v. cbn [windex]. split; [done|]. split_and!.
  - pose proof (ensure_verdicts VISIBILITY_ATTEMPTS 0 (attempts rw) seller b (signal_fields s (iso_now rw))
      (apply (windex w) (Signals seller (signal_fields s (iso_now rw)) (skipped rw)))) as Hv. rewrite He in Hv. cbn [snd] in Hv.
    destruct Hv as [[j ->]|Hv]; [left|by right]. exists j. split; [done|]. apply ensure_settled in He as [? _]. lia.
  - intros k id ->. by eapply settled_documents.
  - intros Hc. by eapply calm_settles.
Qed.

(** ** Concrete runs *)

Definition down : refresh_weather :=
  {| metrics_reply := Unreachable; reviews_reply := Unreachable; profile_reply := Unreachable; now_monotonic := 0; marked_at := 0;
     iso_now := "t"; skipped := λ _, false; update_error := None;
     attempts := λ _, {| before_count := []; count_fails := false; unseen := λ _, false; before_retry := []; retry := None |} |}.

Definition fair_weather : weather := {| meanwhile := []; es_error := None; refreshing := down |}.

Definition event_message (ty : string) (payload : list (string * json)) (env : weather) : arrival :=
  {| value := JObj [("payload", JObj payload)]; headers := [(TYPE_HEADER, ty)]; env := env |}.

Definition kettle : arrival := event_message "ProductCreated"
  [("id", JStr "p1"); ("seller_id", JStr "s1"); ("sku", JStr "K-1"); ("name", JStr "Kettle"); ("description", JNull);
   ("category_id", JStr "cat-1"); ("price_cents", JInt 4500); ("is_active", JBool true); ("created_at", JStr "10")] fair_weather.

Definition priced (cents : Z) : arrival := event_message "PriceUpdated"
  [("id", JStr "pr1"); ("product_id", JStr "p1"); ("base_price_cents", JInt cents); ("created_at", JStr "20")] fair_weather.

(** A failed reservation without a type header. *)
Definition failed_reservation : arrival :=
  {| value := JObj [("id", JStr "it1"); ("product_id", JStr "p1"); ("quantity_requested", JInt 5); ("quantity_available", JInt 2);
                    ("reason", JStr "InsufficientStock")]; headers := []; env := fair_weather |}.

(** A suspension as seller-service tells it when asked. *)
Definition suspended : arrival := event_message "SellerSuspended" [("id", JStr "s1"); ("status", JStr "suspended")]
  {| meanwhile := []; es_error := None;
     refreshing := {| metrics_reply := Unreachable; reviews_reply := Unreachable;
       profile_reply := Replied 200 (Some (JObj [("id", JStr "s1"); ("may_list_products", JBool false)]));
       now_monotonic := 0; marked_at := 0; iso_now := "t"; skipped := skipped down; update_error := None; attempts := attempts down |} |}.

Definition sample_stream (arrivals : list arrival) : world MapIndex.index :=
  foldl (handled (λ _, "...") (λ _, inl TypeError) (λ _, None) (λ _, false)) (World ∅ ∅) arrivals.

(** A creation delivered again does not touch the price. *)
Example redelivered_creation_keeps_price :
  field (windex (sample_stream [kettle; priced 3900; kettle])) "p1" "price_cents" = Some (JInt 3900).
Proof. reflexivity. Qed.

Example failed_reservation_is_no_product : windex (sample_stream [failed_reservation]) = ∅.
Proof. reflexivity. Qed.

Example suspension_hides : searchable None (windex (sample_stream [kettle])) "p1" = true ∧
  searchable None (windex (sample_stream [kettle; suspended])) "p1" = false.
Proof. by_compute. Qed.

(** The creation and the suspension travel on different topics: a product of a
    suspended seller whose creation is read after the refresh has no standing
    on it, and nothing comes to put one there. *)
Lemma late_product_is_for_sale : searchable None (windex (sample_stream [suspended; kettle])) "p1" = true.
Proof. reflexivity. Qed.

(** Becoming active on the current contract is no refresh trigger. *)
Lemma activation_is_ignored payload : read_message (λ _, None) (λ _, false) (JObj payload) [(TYPE_HEADER, "SellerActivated")] = Skip.
Proof. unfold read_message, infer_event_type. cbn [as_message]. reflexivity. Qed.

Definition sample_told (f : string) (a : arrival) : option json := told (Ix := MapIndex.index) (λ _, None) (λ _, false) a "p1" f.

Lemma documents_follow_their_owners_witness :
  owner_of "price_cents" = Some PRICING ∧
  field (windex (sample_stream [kettle; priced 3900; kettle; priced 4100; failed_reservation])) "p1" "price_cents" =
    foldl (λ acc a, match sample_told "price_cents" a with Some v => Some v | None => acc end)
      (field (windex (sample_stream [])) "p1" "price_cents") [kettle; priced 3900; kettle; priced 4100; failed_reservation].
Proof.
  split; [reflexivity|]. unfold sample_stream, sample_told.
  apply (documents_follow_their_owners (Ix := MapIndex.index) (λ _, "...") (λ _, inl TypeError) (λ _, None) (λ _, false)
    [kettle; priced 3900; kettle; priced 4100; failed_reservation] (World ∅ ∅) "p1" "price_cents" PRICING);
    [reflexivity|by_compute|done| |].
  - repeat constructor.
  - intros a v Ha Hv. elem_cases Ha; vm_compute in Hv; by simplify_eq.
Defined.

Definition suspension : refresh_weather := refreshing (env suspended).

Definition suspended_signals : SellerSignals :=
  {| may_sell := Some false; rating := JNull; review_count := JNull; on_time_dispatch_rate := JNull; cancellation_rate := JNull;
     return_rate := JNull; confidence := JNull; latitude := None; longitude := None |}.

Lemma suspension_hides_the_catalogue_witness : ∃ w' v,
  refresh_seller (λ _, inl TypeError) "s1" true suspension (sample_stream [kettle]) = (w', inr v) ∧ v = Settled 0 ∧
  searchable None (windex w') "p1" = false.
Proof.
  destruct (suspension_hides_the_catalogue (λ _, inl TypeError) "s1" suspension (sample_stream [kettle]) suspended_signals false
    eq_refl eq_refl eq_refl) as (w' & v & Hr & _ & Hs & Hc).
  assert (Hv : v = Settled 0) by (apply Hc; constructor; [reflexivity|intros id; reflexivity|split; reflexivity]).
  exists w', v. split; [exact Hr|]. split; [exact Hv|].
  assert (Hin : term (field (windex w') "p1" "seller_id") (JStr "s1") = true).
  { apply (f_equal fst) in Hr. cbn [fst] in Hr. rewrite <-Hr. reflexivity. }
  exact (proj2 (Hs 0%nat "p1" Hv Hin eq_refl) eq_refl None [] (Forall_nil_2 _)).
Defined.

End StreamProcessor.
