(* ===== verification/CreateOnce.v ===== *)
(** * Services that store one row and announce it

    Seven services have the same handler: pricing, tax, delivery quotes,
    notifications, dispatch, promotions and users.  Each inserts its idempotency
    key, builds a row and an outbox message, commits both, and answers with the
    row.  The handlers are written out in the order of their sources; [outcome]
    says what all of them promise, and the class [CreationLaws] is the proof
    obligation that one of them keeps it.  Also here: the two reads of
    pricing-service, and the pruning of outbox tables (retention.py). *)

From stdpp Require Import relations.
From S2P Require Import Prelude PyValue PyJson Session.

Module CreateOnce.

(** ** Tables, and the statements the handlers share *)

Record tables (Row : Type) := Tables {
  co_rows : list Row;
  co_outbox : list OutboxMessage;
  co_keys : list string;
  co_draws : nat;
}.
Arguments Tables {_} _ _ _ _.
Arguments co_rows {_} _.
Arguments co_outbox {_} _.
Arguments co_keys {_} _.
Arguments co_draws {_} _.

Definition no_tables {Row} : tables Row := Tables [] [] [] 0.

Definition or_null (o : option string) : json := match o with Some s => JStr s | None => JNull end.

Section statements.
Context {Row : Type} (uuid4 : nat → string) (fault : tables Row → option string) (refresh_error : option string).

(** [insert(IdempotencyKey)...on_conflict_do_nothing()] and its row count. *)
Definition insert_key (key : string) : M (tables Row) bool :=
  known <- query (λ d, key in_ co_keys d) ;;
  if known then ret false
  else exec (λ d, Tables (co_rows d) (co_outbox d) (co_keys d ++ [key]) (co_draws d)) ;;; ret true.

Definition next_uuid : M (tables Row) string :=
  n <- query co_draws ;;
  exec (λ d, Tables (co_rows d) (co_outbox d) (co_keys d) (S (co_draws d))) ;;;
  ret (uuid4 n).

Definition add (row : Row) : M (tables Row) unit :=
  exec (λ d, Tables (co_rows d ++ [row]) (co_outbox d) (co_keys d) (co_draws d)).

Definition add_message (m : OutboxMessage) : M (tables Row) unit :=
  exec (λ d, Tables (co_rows d) (co_outbox d ++ [m]) (co_keys d) (co_draws d)).

(** [commit] and [refresh] under one [except]. *)
Definition finish (row : Row) : M (tables Row) Row :=
  commit fault ;;;
  match refresh_error with
  | Some text => rollback ;;; raise (Http 500 text)
  | None => ret row
  end.

(** [scalar_one_or_none()] *)
Definition one_or_none {A} (found : list A) : M (tables Row) (option A) :=
  match found with
  | [] => ret None
  | [x] => ret (Some x)
  | _ => raise (Raised "MultipleResultsFound")
  end.

Definition already_processed : exn := Http 409 "Idempotency key already processed".
End statements.

(** What a handler is: the identifiers drawn, what the commit and the refresh
    answer, the request, its key, and the clock readings of the request. *)
Definition handler (Row Req : Type) : Type :=
  (nat → string) → (tables Row → option string) → option string → Req → string → (nat → Z) → M (tables Row) Row.

Section services.
Context (isoformat : Z → string).

(** ** Prices (pricing_service.py) *)

Record Price := {
  pr_id : string; pr_product_id : string; pr_base_price_cents : Z; pr_currency : string;
  pr_effective_date : Z; pr_created_at : Z;
}.
Record PriceSetRequest := { ps_product_id : string; ps_base_price_cents : Z; ps_currency : option string }.

Definition new_price (price_in : PriceSetRequest) (id : string) (clock : nat → Z) : Price :=
  {| pr_id := id; pr_product_id := ps_product_id price_in; pr_base_price_cents := ps_base_price_cents price_in;
     pr_currency := default "USD" (ps_currency price_in); pr_effective_date := clock 0%nat; pr_created_at := clock 2%nat |}.

Definition price_message (price_in : PriceSetRequest) (id : string) (clock : nat → Z) : OutboxMessage :=
  {| aggregate_type := "Price"; aggregate_id := ps_product_id price_in; msg_type := "PriceUpdated";
     payload := [("id", JStr id); ("product_id", JStr (ps_product_id price_in));
       ("base_price_cents", JInt (ps_base_price_cents price_in)); ("currency", or_null (ps_currency price_in));
       ("effective_date", JStr (isoformat (clock 0%nat))); ("created_at", JStr (isoformat (clock 1%nat)))];
     msg_created_at := clock 3%nat |}.

Definition set_product_price : handler Price PriceSetRequest := λ uuid4 fault refresh_error price_in idempotency_key clock,
  fresh <- insert_key idempotency_key ;;
  if negb fresh then raise already_processed
  else
  price_id <- next_uuid uuid4 ;;
  add (new_price price_in price_id clock) ;;;
  add_message (price_message price_in price_id clock) ;;;
  finish fault refresh_error (new_price price_in price_id clock).

Definition get_price_endpoint (product_id : string) : M (tables Price) Price :=
  found <- query (λ d, List.filter (λ p, pr_product_id p =?s product_id) (co_rows d)) ;;
  price_record <- one_or_none found ;;
  match price_record with None => raise (Http 404 "Price not found for product") | Some p => ret p end.

(** ** Tax rules (tax_service.py) *)

Record TaxRule := {
  tx_id : string; tx_country_code : string; tx_region_code : option string; tx_rate_basis_points : Z;
  tx_is_active : bool; tx_created_at : Z;
}.
Record TaxRuleCreate := { tc_country_code : string; tc_region_code : option string; tc_rate_basis_points : Z; tc_is_active : bool }.

Definition new_tax_rule (rule_in : TaxRuleCreate) (id : string) (clock : nat → Z) : TaxRule :=
  {| tx_id := id; tx_country_code := tc_country_code rule_in; tx_region_code := tc_region_code rule_in;
     tx_rate_basis_points := tc_rate_basis_points rule_in; tx_is_active := tc_is_active rule_in; tx_created_at := clock 1%nat |}.

Definition tax_message (rule_in : TaxRuleCreate) (id : string) (clock : nat → Z) : OutboxMessage :=
  {| aggregate_type := "TaxRule"; aggregate_id := id; msg_type := "TaxRuleCreated";
     payload := [("id", JStr id); ("country_code", JStr (tc_country_code rule_in)); ("region_code", or_null (tc_region_code rule_in));
       ("tax_rate_basis_points", JInt (tc_rate_basis_points rule_in)); ("is_active", JBool (tc_is_active rule_in));
       ("created_at", JStr (isoformat (clock 0%nat)))];
     msg_created_at := clock 2%nat |}.

Definition create_tax_rule : handler TaxRule TaxRuleCreate := λ uuid4 fault refresh_error rule_in idempotency_key clock,
  fresh <- insert_key idempotency_key ;;
  if negb fresh then raise already_processed
  else
  rule_id <- next_uuid uuid4 ;;
  add (new_tax_rule rule_in rule_id clock) ;;;
  add_message (tax_message rule_in rule_id clock) ;;;
  finish fault refresh_error (new_tax_rule rule_in rule_id clock).

(** ** Delivery quotes (quote_service.py) *)

Record DeliveryQuote := {
  dq_id : string; dq_cart_id : string; dq_user_id : string; dq_destination_region : string;
  dq_amount_cents : Z; dq_estimated_days : Z; dq_created_at : Z;
}.
Record QuoteRequest := { qr_cart_id : string; qr_user_id : string; qr_destination_region : string; qr_weight_grams : Z }.

(** Amount and days for a region. *)
Definition quote_terms (region : string) : Z * Z :=
  if region =?s "Blatten" then (1500 + 500, 7) else (1500, 3).

Definition new_quote (request : QuoteRequest) (id : string) (clock : nat → Z) : DeliveryQuote :=
  let (amount_cents, estimated_days) := quote_terms (qr_destination_region request) in
  {| dq_id := id; dq_cart_id := qr_cart_id request; dq_user_id := qr_user_id request;
     dq_destination_region := qr_destination_region request; dq_amount_cents := amount_cents;
     dq_estimated_days := estimated_days; dq_created_at := clock 0%nat |}.

Definition quote_message (quote : DeliveryQuote) (clock : nat → Z) : OutboxMessage :=
  {| aggregate_type := "DeliveryQuote"; aggregate_id := dq_cart_id quote; msg_type := "DeliveryQuoteGenerated";
     payload := [("id", JStr (dq_id quote)); ("cart_id", JStr (dq_cart_id quote)); ("user_id", JStr (dq_user_id quote));
       ("destination_region", JStr (dq_destination_region quote)); ("amount_cents", JInt (dq_amount_cents quote));
       ("estimated_days", JInt (dq_estimated_days quote)); ("created_at", JStr (isoformat (dq_created_at quote)))];
     msg_created_at := clock 1%nat |}.

Definition generate_quote : handler DeliveryQuote QuoteRequest := λ uuid4 fault refresh_error request idempotency_key clock,
  fresh <- insert_key idempotency_key ;;
  if negb fresh then raise already_processed
  else
  quote_id <- next_uuid uuid4 ;;
  let quote := new_quote request quote_id clock in
  add quote ;;;
  add_message (quote_message quote clock) ;;;
  finish fault refresh_error quote.

(** ** Notifications (notification_service.py) *)

Record NotificationRecord := {
  no_id : string; no_user_id : string; no_channel : string; no_template_name : string; no_status : string;
  no_payload : list (string * json); no_created_at : Z;
}.
Record NotificationRequest := { nr_user_id : string; nr_channel : string; nr_template_name : string; nr_payload : list (string * json) }.

Definition new_notification (request : NotificationRequest) (id : string) (clock : nat → Z) : NotificationRecord :=
  {| no_id := id; no_user_id := nr_user_id request; no_channel := nr_channel request; no_template_name := nr_template_name request;
     no_status := "PENDING"; no_payload := nr_payload request; no_created_at := clock 0%nat |}.

Definition notification_message (n : NotificationRecord) (clock : nat → Z) : OutboxMessage :=
  {| aggregate_type := "Notification"; aggregate_id := no_id n; msg_type := "NotificationDispatchRequested";
     payload := [("id", JStr (no_id n)); ("user_id", JStr (no_user_id n)); ("channel", JStr (no_channel n));
       ("template_name", JStr (no_template_name n)); ("status", JStr (no_status n)); ("payload", JObj (no_payload n));
       ("created_at", JStr (isoformat (no_created_at n)))];
     msg_created_at := clock 1%nat |}.

Definition schedule_notification : handler NotificationRecord NotificationRequest := λ uuid4 fault refresh_error request idempotency_key clock,
  fresh <- insert_key idempotency_key ;;
  if negb fresh then raise already_processed
  else
  notification_id <- next_uuid uuid4 ;;
  let notification := new_notification request notification_id clock in
  add notification ;;;
  add_message (notification_message notification clock) ;;;
  finish fault refresh_error notification.

(** ** Dispatch (fulfillment_service.py) *)

Record FulfillmentRecord := {
  fr_id : string; fr_order_id : string; fr_destination_region : string; fr_tracking_number : string;
  fr_courier : string; fr_status : string; fr_created_at : Z;
}.
Record DispatchRequest := { dr_order_id : string; dr_destination_region : string }.

(** [f"TRK-{uuid.uuid4().hex[:12].upper()}"] *)
Definition tracking_number (uuid : string) : string := "TRK-" +:+ upper (take_chars 12 (replace "-" "" uuid)).

(** Status and event type for a region. *)
Definition dispatch_terms (region : string) : string * string :=
  if region =?s "Blatten" then ("HELD_FOR_CLEARANCE", "OrderHeld") else ("DISPATCHED", "OrderDispatched").

Definition new_fulfillment (request : DispatchRequest) (tracking id : string) (clock : nat → Z) : FulfillmentRecord :=
  {| fr_id := id; fr_order_id := dr_order_id request; fr_destination_region := dr_destination_region request;
     fr_tracking_number := tracking; fr_courier := "SwissPost"; fr_status := (dispatch_terms (dr_destination_region request)).1;
     fr_created_at := clock 0%nat |}.

Definition dispatch_message (f : FulfillmentRecord) (event_type : string) (clock : nat → Z) : OutboxMessage :=
  {| aggregate_type := "Fulfillment"; aggregate_id := fr_order_id f; msg_type := event_type;
     payload := [("id", JStr (fr_id f)); ("order_id", JStr (fr_order_id f)); ("destination_region", JStr (fr_destination_region f));
       ("tracking_number", JStr (fr_tracking_number f)); ("courier", JStr (fr_courier f)); ("status", JStr (fr_status f));
       ("created_at", JStr (isoformat (fr_created_at f)))];
     msg_created_at := clock 1%nat |}.

Definition dispatch_order : handler FulfillmentRecord DispatchRequest := λ uuid4 fault refresh_error request idempotency_key clock,
  fresh <- insert_key idempotency_key ;;
  if negb fresh then raise already_processed
  else
  tracking_uuid <- next_uuid uuid4 ;;
  let '(status, event_type) := dispatch_terms (dr_destination_region request) in
  fulfillment_id <- next_uuid uuid4 ;;
  let fulfillment := new_fulfillment request (tracking_number tracking_uuid) fulfillment_id clock in
  add fulfillment ;;;
  add_message (dispatch_message fulfillment event_type clock) ;;;
  finish fault refresh_error fulfillment.

(** ** Promotions (promotion_service.py) *)

(** [expires_at] is kept as the text [isoformat()] gives it. *)
Record Promotion := {
  pm_id : string; pm_code : string; pm_discount_percent : Z; pm_max_discount_cents : Z; pm_is_active : bool;
  pm_expires_at : option string; pm_created_at : Z;
}.
Record PromotionCreate := {
  pi_code : string; pi_discount_percent : Z; pi_max_discount_cents : Z; pi_is_active : bool; pi_expires_at : option string;
}.

Definition new_promotion (promo_in : PromotionCreate) (id : string) (clock : nat → Z) : Promotion :=
  {| pm_id := id; pm_code := pi_code promo_in; pm_discount_percent := pi_discount_percent promo_in;
     pm_max_discount_cents := pi_max_discount_cents promo_in; pm_is_active := pi_is_active promo_in;
     pm_expires_at := pi_expires_at promo_in; pm_created_at := clock 1%nat |}.

Definition promotion_message (promo_in : PromotionCreate) (id : string) (clock : nat → Z) : OutboxMessage :=
  {| aggregate_type := "Promotion"; aggregate_id := id; msg_type := "PromotionCreated";
     payload := [("id", JStr id); ("code", JStr (pi_code promo_in)); ("discount_percent", JInt (pi_discount_percent promo_in));
       ("max_discount_cents", JInt (pi_max_discount_cents promo_in)); ("is_active", JBool (pi_is_active promo_in));
       ("expires_at", or_null (pi_expires_at promo_in)); ("created_at", JStr (isoformat (clock 0%nat)))];
     msg_created_at := clock 2%nat |}.

Definition create_promotion : handler Promotion PromotionCreate := λ uuid4 fault refresh_error promo_in idempotency_key clock,
  fresh <- insert_key idempotency_key ;;
  if negb fresh then raise already_processed
  else
  found <- query (λ d, List.filter (λ p, pm_code p =?s pi_code promo_in) (co_rows d)) ;;
  existing_promo <- one_or_none found ;;
  match existing_promo with
  | Some _ => raise (Http 400 "Promotion code already exists")
  | None =>
  promo_id <- next_uuid uuid4 ;;
  add (new_promotion promo_in promo_id clock) ;;;
  add_message (promotion_message promo_in promo_id clock) ;;;
  finish fault refresh_error (new_promotion promo_in promo_id clock)
  end.

(** ** Users (user_service.py) *)

Record User := { us_id : string; us_email : string; us_password_hash : string; us_is_active : bool; us_created_at : Z }.
Record UserCreate := { uc_email : string; uc_password : string }.

(** [pwd_context.hash], which salts: the number of identifiers drawn so far
    stands for the randomness. *)
Context (get_password_hash : nat → string → string).

Definition new_user (user_in : UserCreate) (id password_hash : string) (clock : nat → Z) : User :=
  {| us_id := id; us_email := uc_email user_in; us_password_hash := password_hash; us_is_active := true;
     us_created_at := clock 1%nat |}.

Definition user_message (user_in : UserCreate) (id : string) (clock : nat → Z) : OutboxMessage :=
  {| aggregate_type := "User"; aggregate_id := id; msg_type := "UserCreated";
     payload := [("id", JStr id); ("email", JStr (uc_email user_in)); ("is_active", JBool true);
       ("created_at", JStr (isoformat (clock 0%nat)))];
     msg_created_at := clock 2%nat |}.

Definition register_user : handler User UserCreate := λ uuid4 fault refresh_error user_in idempotency_key clock,
  fresh <- insert_key idempotency_key ;;
  if negb fresh then raise already_processed
  else
  found <- query (λ d, List.filter (λ u, us_email u =?s uc_email user_in) (co_rows d)) ;;
  existing_user <- one_or_none found ;;
  match existing_user with
  | Some _ => raise (Http 400 "Email already registered")
  | None =>
  user_id <- next_uuid uuid4 ;;
  n <- query co_draws ;;
  let hashed_password := get_password_hash n (uc_password user_in) in
  add (new_user user_in user_id hashed_password clock) ;;;
  add_message (user_message user_in user_id clock) ;;;
  finish fault refresh_error (new_user user_in user_id hashed_password clock)
  end.

(** ** What all of them promise *)

(** What a request is refused for, apart from its key; the row and the message
    it stores, from the identifiers starting at number [n]; and how many of
    those it draws. *)
Class Creation (Row Req : Type) := {
  refuse : Req → list Row → option exn;
  plan : (nat → string) → nat → Req → (nat → Z) → Row * OutboxMessage;
  drawn : nat;
  id_of : Row → string;
}.

Definition outcome {Row Req} `{Creation Row Req} (uuid4 : nat → string) (fault : tables Row → option string)
    (refresh_error : option string) (request : Req) (key : string) (clock : nat → Z) (d : tables Row) : tables Row * (exn + Row) :=
  if key in_ co_keys d then (d, inl already_processed)
  else match refuse request (co_rows d) with
  | Some e => (d, inl e)
  | None =>
      let (row, m) := plan uuid4 (co_draws d) request clock in
      let d' := Tables (co_rows d ++ [row]) (co_outbox d ++ [m]) (co_keys d ++ [key]) (co_draws d + drawn)%nat in
      match fault d' with
      | Some e => (d, inl (Http 500 e))
      | None => (d', match refresh_error with Some e => inl (Http 500 e) | None => inr row end)
      end
  end.

Class CreationLaws {Row Req} `{Creation Row Req} (h : handler Row Req) : Prop := {
  handle_outcome uuid4 fault refresh_error request key clock d :
    run (h uuid4 fault refresh_error request key clock) d = outcome uuid4 fault refresh_error request key clock d;
  plan_id uuid4 n request clock : ∃ j, (j < drawn)%nat ∧ id_of (plan uuid4 n request clock).1 = uuid4 (n + j)%nat;
  plan_announced uuid4 n request clock :
    dict_get (payload (plan uuid4 n request clock).2) "id" = Some (JStr (id_of (plan uuid4 n request clock).1));
}.

Section instances.
Definition no_refusal {Row Req} : Req → list Row → option exn := λ _ _, None.

(** An existing row with the same unique value is the caller's mistake. *)
Definition taken {Row} (same : Row → bool) (detail : string) (rows : list Row) : option exn :=
  match List.filter same rows with
  | [] => None
  | [_] => Some (Http 400 detail)
  | _ => Some (Raised "MultipleResultsFound")
  end.

#[export] Instance price_creation : Creation Price PriceSetRequest := {
  refuse := no_refusal; drawn := 1; id_of := pr_id;
  plan uuid4 n request clock := (new_price request (uuid4 n) clock, price_message request (uuid4 n) clock) }.

#[export] Instance tax_creation : Creation TaxRule TaxRuleCreate := {
  refuse := no_refusal; drawn := 1; id_of := tx_id;
  plan uuid4 n request clock := (new_tax_rule request (uuid4 n) clock, tax_message request (uuid4 n) clock) }.

#[export] Instance quote_creation : Creation DeliveryQuote QuoteRequest := {
  refuse := no_refusal; drawn := 1; id_of := dq_id;
  plan uuid4 n request clock := (new_quote request (uuid4 n) clock, quote_message (new_quote request (uuid4 n) clock) clock) }.

#[export] Instance notification_creation : Creation NotificationRecord NotificationRequest := {
  refuse := no_refusal; drawn := 1; id_of := no_id;
  plan uuid4 n request clock :=
    (new_notification request (uuid4 n) clock, notification_message (new_notification request (uuid4 n) clock) clock) }.

#[export] Instance dispatch_creation : Creation FulfillmentRecord DispatchRequest := {
  refuse := no_refusal; drawn := 2; id_of := fr_id;
  plan uuid4 n request clock :=
    let f := new_fulfillment request (tracking_number (uuid4 n)) (uuid4 (S n)) clock in
    (f, dispatch_message f (dispatch_terms (dr_destination_region request)).2 clock) }.

#[export] Instance promotion_creation : Creation Promotion PromotionCreate := {
  refuse request := taken (λ p, pm_code p =?s pi_code request) "Promotion code already exists"; drawn := 1; id_of := pm_id;
  plan uuid4 n request clock := (new_promotion request (uuid4 n) clock, promotion_message request (uuid4 n) clock) }.

#[export] Instance user_creation : Creation User UserCreate := {
  refuse request := taken (λ u, us_email u =?s uc_email request) "Email already registered"; drawn := 1; id_of := us_id;
  plan uuid4 n request clock :=
    (new_user request (uuid4 n) (get_password_hash (S n) (uc_password request)) clock, user_message request (uuid4 n) clock) }.
End instances.

(** The seven handlers. *)
Inductive creator : ∀ {Row Req}, Creation Row Req → handler Row Req → Prop :=
| prices : creator price_creation set_product_price
| taxes : creator tax_creation create_tax_rule
| quotes : creator quote_creation generate_quote
| notifications : creator notification_creation schedule_notification
| dispatches : creator dispatch_creation dispatch_order
| promotions : creator promotion_creation create_promotion
| users : creator user_creation register_user.

(** ** Every handler keeps the promise *)

Section shared.
Context {Row : Type}.
Implicit Types d : tables Row.

Definition with_key (key : string) d : tables Row := Tables (co_rows d) (co_outbox d) (co_keys d ++ [key]) (co_draws d).

(** The guard at the head of every handler. *)
Lemma keyed_run key (body : M (tables Row) Row) d :
  run (fresh <- insert_key key ;; if negb fresh then raise already_processed else body) d =
    if key in_ co_keys d then (d, inl already_processed)
    else let (s, r) := body (Session d (with_key key d)) in (committed s, r).
Proof.
  unfold run, insert_key. rewrite bind_assoc, bind_query. cbn [working]. by destruct (key in_ co_keys d).
Qed.

Lemma finish_run fault refresh (row : Row) s d :
  finish fault refresh row (Session s d) =
    match fault d with
    | Some e => (Session s s, inl (Http 500 e))
    | None => (Session d d, match refresh with Some e => inl (Http 500 e) | None => inr row end)
    end.
Proof. unfold finish. rewrite bind_commit. cbn [working committed]. destruct (fault d); [done|]. by destruct refresh. Qed.

Lemma taken_none (same : Row → bool) detail rows : taken same detail rows = None → List.filter same rows = [].
Proof. unfold taken. by destruct (List.filter same rows) as [|? []]. Qed.
End shared.

(** Past the guard, the statements are a straight line up to the commit. *)
Ltac straight_line :=
  unfold next_uuid, add, add_message, one_or_none, bind, query, exec, ret, raise, with_key;
  cbn [working committed co_rows co_outbox co_keys co_draws];
  rewrite ?finish_run, ?Nat.add_1_r.

Ltac keeps_promise h :=
  intros; unfold h; rewrite keyed_run; unfold outcome;
  cbn [refuse plan drawn no_refusal price_creation tax_creation quote_creation notification_creation dispatch_creation
       promotion_creation user_creation];
  match goal with |- context [?k in_ ?ks] => destruct (k in_ ks); [done|] end.

Ltac decide_commit :=
  match goal with |- context [match ?f ?d with Some e => (Session _ _, _) | None => _ end] => by destruct (f d) end.

Ltac first_drawn := intros; exists 0%nat; rewrite Nat.add_0_r; split; [cbn; lia|reflexivity].

#[export] Instance price_laws : CreationLaws set_product_price.
Proof. split; [keeps_promise set_product_price; straight_line; decide_commit|first_drawn|done]. Qed.

#[export] Instance tax_laws : CreationLaws create_tax_rule.
Proof. split; [keeps_promise create_tax_rule; straight_line; decide_commit|first_drawn|done]. Qed.

#[export] Instance quote_laws : CreationLaws generate_quote.
Proof.
  split; [keeps_promise generate_quote; straight_line; decide_commit| |done].
  intros. exists 0%nat. rewrite Nat.add_0_r. split; [cbn; lia|]. cbn. unfold new_quote. by destruct (quote_terms _).
Qed.

#[export] Instance notification_laws : CreationLaws schedule_notification.
Proof. split; [keeps_promise schedule_notification; straight_line; decide_commit|first_drawn|done]. Qed.

#[export] Instance dispatch_laws : CreationLaws dispatch_order.
Proof.
  split; [| |done].
  - keeps_promise dispatch_order. straight_line. destruct (dispatch_terms _) as [st ty]. straight_line.
    replace (co_draws d + 2)%nat with (S (S (co_draws d))) by lia. cbv zeta. cbn [snd]. decide_commit.
  - intros. exists 1%nat. rewrite Nat.add_1_r. split; [cbn; lia|reflexivity].
Qed.

#[export] Instance promotion_laws : CreationLaws create_promotion.
Proof.
  split; [|first_drawn|done]. keeps_promise create_promotion. unfold taken. straight_line.
  destruct (List.filter _ (co_rows d)) as [|p [|q l]]; [|done..]. straight_line. decide_commit.
Qed.

#[export] Instance user_laws : CreationLaws register_user.
Proof.
  split; [|first_drawn|done]. keeps_promise register_user. unfold taken. straight_line.
  destruct (List.filter _ (co_rows d)) as [|u [|v l]]; [|done..]. straight_line. decide_commit.
Qed.

Lemma creator_laws {Row Req} (C : Creation Row Req) h : creator C h → CreationLaws h.
Proof. intros []; exact _. Qed.

End services.

(** ** Retention (retention.py) *)

Lemma filter_sublist {A} (p : A → bool) l : List.filter p l `sublist_of` l.
Proof. induction l as [|x l IH]; [done|]. cbn. destruct (p x); [by apply sublist_skip|by apply sublist_cons]. Qed.

Definition DEFAULT_RETENTION_DAYS : Z := 7.
Definition US_PER_DAY : Z := 86400 * 1000000.

(** The tables afterwards, and the number of rows deleted. *)
Definition prune_outbox_once {Row} (retention_days now : Z) (d : tables Row) : tables Row * Z :=
  let old m := msg_created_at m <? now - retention_days * US_PER_DAY in
  (Tables (co_rows d) (List.filter (λ m, negb (old m)) (co_outbox d)) (co_keys d) (co_draws d),
   Z.of_nat (length (List.filter old (co_outbox d)))).

(** ** Histories *)

Record call (Row Req : Type) := {
  c_request : Req;
  c_key : string;
  c_fault : tables Row → option string;
  c_refresh : option string;
  c_clock : nat → Z;
}.
Arguments c_request {_ _} _.
Arguments c_key {_ _} _.
Arguments c_fault {_ _} _.
Arguments c_refresh {_ _} _.
Arguments c_clock {_ _} _.

Inductive event (Row Req : Type) := Call (c : call Row Req) | Prune (now : Z).
Arguments Call {_ _} _.
Arguments Prune {_ _} _.

Definition answer {Row Req} (h : handler Row Req) (uuid4 : nat → string) (c : call Row Req) (d : tables Row) : tables Row * (exn + Row) :=
  run (h uuid4 (c_fault c) (c_refresh c) (c_request c) (c_key c) (c_clock c)) d.

Definition happen {Row Req} (h : handler Row Req) (uuid4 : nat → string) (d : tables Row) (e : event Row Req) : tables Row :=
  match e with
  | Call c => (answer h uuid4 c d).1
  | Prune now => (prune_outbox_once DEFAULT_RETENTION_DAYS now d).1
  end.

Definition after {Row Req} (h : handler Row Req) (uuid4 : nat → string) (es : list (event Row Req)) : tables Row :=
  foldl (happen h uuid4) no_tables es.

Section history.
Context {Row Req : Type} (C : Creation Row Req) (h : handler Row Req) (Hlaws : CreationLaws h) (uuid4 : nat → string).
Implicit Types (d : tables Row) (es : list (event Row Req)).

(** The message that announced a row when it was stored. *)
Definition announces (row : Row) (m : OutboxMessage) : Prop :=
  ∃ n request clock, plan uuid4 n request clock = (row, m).

(** Everything one call can come to. *)
Lemma answer_cases (c : call Row Req) d :
  (answer h uuid4 c d).1 = d ∧ (∃ e, (answer h uuid4 c d).2 = inl e ∧ (c_key c ∈ co_keys d → e = already_processed)) ∨
  c_key c ∉ co_keys d ∧ refuse (c_request c) (co_rows d) = None ∧
    let (row, m) := plan uuid4 (co_draws d) (c_request c) (c_clock c) in
    (answer h uuid4 c d).1 = Tables (co_rows d ++ [row]) (co_outbox d ++ [m]) (co_keys d ++ [c_key c]) (co_draws d + drawn)%nat ∧
    (answer h uuid4 c d).2 = match c_refresh c with Some e => inl (Http 500 e) | None => inr row end.
Proof.
  unfold answer. rewrite handle_outcome. unfold outcome, in_listb.
  destruct (bool_decide_reflect (c_key c ∈ co_keys d)) as [Hk|Hk]; [left; split; [done|by eexists]|].
  destruct (refuse _ _) as [e|]; [left; split; [done|by exists e]|].
  destruct (plan _ _ _ _) as [row m]. destruct (c_fault c _) as [e|]; [left; split; [done|by eexists]|].
  right. split_and!; done.
Qed.

(** A message is gone only if some pruning found it older than a week. *)
Definition expired es (m : OutboxMessage) : Prop :=
  ∃ now, Prune now ∈ es ∧ msg_created_at m < now - DEFAULT_RETENTION_DAYS * US_PER_DAY.

Record kept es d : Prop := {
  kp_keys : NoDup (co_keys d);
  kp_length : length (co_keys d) = length (co_rows d);
  kp_ids : ∀ row, row ∈ co_rows d → ∃ j, (j < co_draws d)%nat ∧ id_of row = uuid4 j;
  kp_nodup : NoDup (map id_of (co_rows d));
  kp_told : ∃ ms, Forall2 announces (co_rows d) ms ∧ co_outbox d `sublist_of` ms ∧ ∀ m, m ∈ ms → m ∈ co_outbox d ∨ expired es m;
}.

Lemma kept_more es e d : kept es d → kept (es ++ [e]) d.
Proof.
  intros [H1 H2 H3 H4 (ms & Hf & Hs & Hm)]. split; [done..|]. exists ms. split_and!; [done..|].
  intros m [?|(now & Hp & Ho)]%Hm; [by left|]. right. exists now. rewrite elem_of_app. auto.
Qed.

Lemma kept_event es e d : Inj (=) (=) uuid4 → kept es d → kept (es ++ [e]) (happen h uuid4 d e).
Proof.
  intros Hinj Hk. destruct e as [c|now]; cbn [happen].
  - destruct (answer_cases c d) as [[-> _]|(Hkey & _ & Hplan)]; [by apply kept_more|].
    destruct (plan uuid4 (co_draws d) (c_request c) (c_clock c)) as [row m] eqn:Ep. destruct Hplan as [-> _].
    destruct (plan_id uuid4 (co_draws d) (c_request c) (c_clock c)) as (j & Hj & Ej). rewrite Ep in Ej. cbn [fst] in Ej.
    destruct (kept_more es (Call c) d Hk) as [H1 H2 H3 H4 (ms & Hf & Hs & Hm)].
    split; cbn [co_rows co_outbox co_keys co_draws].
    + apply NoDup_app. split_and!; [done| |apply NoDup_singleton]. intros k Hk' ->%list_elem_of_singleton. done.
    + rewrite !length_app, H2. done.
    + intros row' [Hr| ->%list_elem_of_singleton]%elem_of_app; [|exists (co_draws d + j)%nat; split; [lia|done]].
      destruct (H3 row' Hr) as (i & Hi & Ei). exists i. split; [lia|done].
    + rewrite map_app. apply NoDup_app. split_and!; [done| |apply NoDup_singleton].
      intros id (row' & -> & Hr)%elem_of_map Hid%list_elem_of_singleton. destruct (H3 row' Hr) as (i & Hi & Ei).
      rewrite Ei, Ej in Hid. apply Hinj in Hid. lia.
    + exists (ms ++ [m]). split_and!; [|by apply sublist_app|].
      * apply Forall2_app; [done|]. constructor; [by exists (co_draws d), (c_request c), (c_clock c)|constructor].
      * intros m' [[?|?]%Hm| ->%list_elem_of_singleton]%elem_of_app; rewrite elem_of_app; [by left; left|by right|].
        left. right. by apply list_elem_of_singleton.
  - destruct (kept_more es (Prune now) d Hk) as [H1 H2 H3 H4 (ms & Hf & Hs & Hm)].
    split; [done..|]. exists ms. cbn [prune_outbox_once fst co_rows co_outbox]. split_and!; [done| |].
    + etrans; [|exact Hs]. apply filter_sublist.
    + intros m [Hin|?]%Hm; [|by right].
      destruct (msg_created_at m <? now - DEFAULT_RETENTION_DAYS * US_PER_DAY) eqn:E.
      * right. exists now. split; [|lia]. apply elem_of_app. right. by apply list_elem_of_singleton.
      * left. apply elem_of_filter_bool. by rewrite E.
Qed.

Lemma kept_after es : Inj (=) (=) uuid4 → kept es (after h uuid4 es).
Proof.
  intros Hinj. unfold after. induction es as [|e es IH] using rev_ind.
  - split; [constructor|done|by intros ? ?%not_elem_of_nil|constructor|]. exists []. split_and!; [constructor|done|]. by intros ? ?%not_elem_of_nil.
  - rewrite foldl_app. by apply kept_event.
Qed.
End history.

(** C18 — A creation happens once, with its event, or not at all: over any
    history of requests to one of the seven services and prunings of its outbox,
    every key ever accepted has exactly one row, identifiers are distinct, and
    every row was stored together with one message that carries its identifier,
    which is still in the outbox, in order, unless it is older than a week.  The
    next request either changes nothing and is answered with an error, a repeated
    key always with 409; or its key is new and the row and the message built from
    it are added, and one that nothing refuses and whose commit works is. *)
Theorem creations_happen_once (isoformat : Z → string) (get_password_hash : nat → string → string) (uuid4 : nat → string)
    {Row Req : Set} (C : Creation Row Req) (h : handler Row Req)
    (Hcreator : creator isoformat get_password_hash C h) (Hinj : Inj (=) (=) uuid4) (es : list (event Row Req)) :
  let d := after h uuid4 es in
  NoDup (co_keys d) ∧ length (co_keys d) = length (co_rows d) ∧ NoDup (map id_of (co_rows d)) ∧
  (∃ ms, Forall2 (announces C uuid4) (co_rows d) ms ∧ co_outbox d `sublist_of` ms ∧ ∀ m, m ∈ ms → m ∈ co_outbox d ∨ expired es m) ∧
  (∀ row m, announces C uuid4 row m → dict_get (payload m) "id" = Some (JStr (id_of row))) ∧
  ∀ c, let out := answer h uuid4 c d in
    let '(row, m) := plan uuid4 (co_draws d) (c_request c) (c_clock c) in
    let stored := Tables (co_rows d ++ [row]) (co_outbox d ++ [m]) (co_keys d ++ [c_key c]) (co_draws d + drawn)%nat in
    ((out.1 = d ∧ (∃ e, out.2 = inl e) ∧ (c_key c ∈ co_keys d → out.2 = inl already_processed)) ∨
     (c_key c ∉ co_keys d ∧ out.1 = stored ∧ (c_refresh c = None → out.2 = inr row))) ∧
    (c_key c ∉ co_keys d → refuse (c_request c) (co_rows d) = None → c_fault c stored = None → out.1 = stored).
Proof.
  cbv zeta. pose proof (creator_laws _ _ _ _ Hcreator) as Hlaws.
  destruct (kept_after C h Hlaws uuid4 es Hinj) as [H1 H2 _ H4 H5]. split_and!; [done..| |].
  - intros row m (n & request & clock & Ep). pose proof (plan_announced uuid4 n request clock) as Ha. by rewrite Ep in Ha.
  - intros c. pose proof (answer_cases C h Hlaws uuid4 c (after h uuid4 es)) as Hc.
    destruct (plan _ _ _ _) as [row m] eqn:Ep. split.
    + destruct Hc as [[E (e & E2 & Hk)]|(Hk & _ & E & E2)]; [left|right].
      * split_and!; [done|by exists e|]. intros Hin. by rewrite E2, (Hk Hin).
      * split_and!; [done..|]. intros Hr. by rewrite E2, Hr.
    + intros Hk Hr Hf. unfold answer. rewrite handle_outcome. unfold outcome, in_listb.
      by rewrite bool_decide_false, Hr, Ep, Hf.
Qed.

(** A price set twice under two keys, one of them repeated, and a pruning. *)
Definition set_price (key : string) (cents : Z) (t : Z) : event Price PriceSetRequest :=
  Call {| c_request := {| ps_product_id := "p1"; ps_base_price_cents := cents; ps_currency := None |}; c_key := key;
          c_fault := λ _, None; c_refresh := None; c_clock := λ n, t + Z.of_nat n |}.

Definition price_history : list (event Price PriceSetRequest) :=
  [set_price "k1" 900 0; set_price "k1" 100 10; set_price "k2" 750 (8 * US_PER_DAY); Prune (9 * US_PER_DAY)].

Definition priced : tables Price := after (set_product_price dec) unary_id price_history.

Lemma creations_happen_once_witness :
  map pr_base_price_cents (co_rows priced) = [900; 750] ∧ length (co_outbox priced) = 1%nat ∧
  NoDup (co_keys priced) ∧ length (co_keys priced) = length (co_rows priced).
Proof.
  split_and!; [vm_compute; reflexivity..| |];
    apply (creations_happen_once dec (λ _ s, s) unary_id (price_creation dec) (set_product_price dec) (prices _ _) unary_id_inj price_history).
Defined.

(** ** Reading a price back *)

(** The endpoint expects one row for a product, and every change adds one: a
    product whose price was set twice has no readable price. *)
Lemma price_set_twice_is_unreadable product_id p q l (d : tables Price) :
  List.filter (λ p, pr_product_id p =?s product_id) (co_rows d) = p :: q :: l →
  (run (get_price_endpoint product_id) d).2 = inl (Raised "MultipleResultsFound").
Proof. intros E. unfold run, get_price_endpoint, bind, query. cbn [working]. by rewrite E. Qed.

Example second_price_breaks_the_read :
  (run (get_price_endpoint "p1") (after (set_product_price dec) unary_id [set_price "k1" 900 0])).2 =
    inr (new_price {| ps_product_id := "p1"; ps_base_price_cents := 900; ps_currency := None |} "" (λ n, Z.of_nat n)) ∧
  (run (get_price_endpoint "p1") priced).2 = inl (Raised "MultipleResultsFound").
Proof. split; vm_compute; reflexivity. Qed.

End CreateOnce.
