(* ===== verification/Marketplace.v ===== *)
(** * The shop window: seller service, catalog, stream processor and backfill together

    The paths that cross services:
    - a product is listed only if the seller service says so when asked
      ([market_step]: seller requests, questions, creations and prunings of the
      catalog's outbox in any order, with time between the answer and the
      creation; one seller request is handled at a time);
    - a product's creation event and the backfill of its row give its document the
      same data, apart from the time of the write ([stream_and_backfill_agree]);
    - a seller losing the right to sell is announced under a name the stream
      processor acts on, and the refresh it causes takes the products the index
      then has for the seller out of search ([lost_standing_reaches_search]). *)

From S2P Require Import Prelude PyValue PyJson Session Lifecycle Resilience SellerRules SellerService ReadModel CatalogService ReindexWorker StreamProcessor.
From S2P Require CreateOnce.
From S2P Require ReservationRules.
Import Lifecycle SellerRules SellerService.

Module Marketplace.

(** ** Listing needs a vetted seller *)

(** GET /sellers/{id}/permission, answered by the seller service as it stands. *)
Definition permission_answer (d : db) (seller_id : string) : CatalogService.http_answer :=
  match (run (get_permission seller_id) d).2 with
  | inr body => CatalogService.Answer 200 (Some (JObj body))
  | inl e => CatalogService.Answer (status_of e) None
  end.

(** An answer that came back is the service's own; a proxy may put an error in
    its place, and it may not come back at all. *)
Definition plausible (d : db) (seller_id : string) (a : CatalogService.http_answer) : Prop :=
  a = permission_answer d seller_id ∨ (∃ e, a = CatalogService.NoAnswer e) ∨
  ∃ st body, a = CatalogService.Answer st body ∧ st ≠ 200.

(** A creation whose question has been answered. *)
Record pending := {
  pd_request : CatalogService.ProductCreate;
  pd_key : string;
  pd_fetched : string + json * option string;
}.

Record market := {
  m_sellers : db;
  m_catalog : CatalogService.cdb;
  m_breaker : Resilience.AsyncCircuitBreaker;
  m_pending : list pending;
  m_prunings : list Z;
}.

Definition seller_of (r : CatalogService.ProductCreate) : string :=
  default CatalogRules.PLATFORM_SELLER_ID (CatalogService.pc_seller_id r).

Section market.
Context (uuid4 uuid4' : nat → string) (isoformat : Z → string) (repr : json → string).
Context (duplicate_sku foreign_key : string → string).

Definition create (p : pending) (fault : CatalogService.cdb → option CatalogService.db_error) (refresh : option string) (now : Z)
    (d : CatalogService.cdb) : CatalogService.cdb :=
  (run (CatalogService.create_product uuid4' isoformat repr duplicate_sku foreign_key fault refresh
          (pd_request p) (pd_key p) (pd_fetched p) now) d).1.

(** Retention deletes the catalog's outbox rows older than a week. *)
Definition prune_cutoff (now : Z) : Z := now - CreateOnce.CreateOnce.DEFAULT_RETENTION_DAYS * CreateOnce.CreateOnce.US_PER_DAY.

Definition prune_catalog (now : Z) (d : CatalogService.cdb) : CatalogService.cdb :=
  CatalogService.with_outbox (List.filter (λ m, negb (msg_created_at m <? prune_cutoff now))) d.

Inductive market_step (m : market) : market → Prop :=
| seller_serves d : seller_step uuid4 (m_sellers m) d →
    market_step m {| m_sellers := d; m_catalog := m_catalog m; m_breaker := m_breaker m; m_pending := m_pending m;
      m_prunings := m_prunings m |}
| catalog_asks request key now later a : plausible (m_sellers m) (seller_of request) a →
    let asked := CatalogService.fetch_permission now later a (m_breaker m) in
    market_step m {| m_sellers := m_sellers m; m_catalog := m_catalog m; m_breaker := asked.1;
      m_pending := m_pending m ++ [{| pd_request := request; pd_key := key; pd_fetched := asked.2 |}];
      m_prunings := m_prunings m |}
| catalog_creates i p fault refresh now : m_pending m !! i = Some p →
    market_step m {| m_sellers := m_sellers m; m_catalog := create p fault refresh now (m_catalog m); m_breaker := m_breaker m;
      m_pending := delete i (m_pending m); m_prunings := m_prunings m |}
| catalog_prunes now :
    market_step m {| m_sellers := m_sellers m; m_catalog := prune_catalog now (m_catalog m); m_breaker := m_breaker m;
      m_pending := m_pending m; m_prunings := m_prunings m ++ [now] |}.

(** The account is the platform's own, or the outbox tells that the seller
    registered, was documented, reviewed, approved and went live, in that order. *)
Definition vetted (d : db) (seller_id : string) : Prop :=
  seller_id = PLATFORM_SELLER ∨ milestones ACTIVE `sublist_of` events_of account seller_id (se_outbox d).

Lemma seller_step_outbox d d' : seller_step uuid4 d d' → ∃ ms, se_outbox d' = se_outbox d ++ ms.
Proof.
  intros [fault now r]. destruct (serve_effect uuid4 fault now r d) as [[->|(s & f & e & t & _ & (_ & -> & _) & _)]|(s & t & _ & _ & _ & _ & -> & _)];
    [exists []; by rewrite app_nil_r|by eexists..].
Qed.

Lemma events_app id ms ms' : events_of account id (ms ++ ms') = events_of account id ms ++ events_of account id ms'.
Proof. unfold events_of, messages_of. by rewrite List.filter_app, map_app, List.filter_app. Qed.

Lemma vetted_step d d' id : seller_step uuid4 d d' → vetted d id → vetted d' id.
Proof.
  intros [ms E]%seller_step_outbox [->|H]; [by left|right]. rewrite E, events_app. by apply sublist_inserts_r.
Qed.

(** Who may list is active on the current contract. *)
Lemma may_list_active s st : status s = value st → may_list s = true →
  st = ACTIVE ∧ accepted_contract_version s = Some CURRENT_CONTRACT_VERSION.
Proof.
  intros Hs. unfold may_list, may_list_products. rewrite Hs, as_seller_status_value. case_bool_decide as E; cbn [negb]; [|done].
  injection E as ->. intros H. split; [done|]. by apply bool_decide_eq_true in H.
Qed.

Lemma lister_vetted d s : seller_ok uuid4 d → s ∈ sellers d → may_list s = true → vetted d (s_id s).
Proof.
  intros Hok Hs Hl. destruct (rows_told _ _ _ _ _ _ _ _ _ _ (so_table _ _ Hok) s Hs) as [[st v] [H1 H2 H3]].
  unfold state_of in H1. destruct (_as_status (status s)) as [st'|] eqn:Est; [|done]. injection H1 as -> <-.
  apply as_status_inv in Est. destruct (may_list_active s st Est Hl) as [-> _].
  destruct (decide (s_id s = PLATFORM_SELLER)) as [|Hne]; [by left|right].
  unfold faithful in H2. rewrite (seed_none _ Hne) in H2. exact (account_milestones _ _ H2).
Qed.

Lemma permission_vetted d id : seller_ok uuid4 d → CatalogService.answered_yes (permission_answer d id) → vetted d id.
Proof.
  intros Hok (o & Ha & Ho). unfold permission_answer, run, get_permission, bind in Ha.
  destruct (seller_load_cases id d) as [(s & E & Hs & <-)|E]; rewrite E in Ha; [|done]. cbn in Ha. injection Ha as <-.
  cbn in Ho. injection Ho as Hl. by apply lister_vetted.
Qed.

(** The catalogue is in order with the messages [all] it has written; those not
    in its outbox were old enough for a pruning to delete them. *)
Record catalog_kept (prunings : list Z) (all : list OutboxMessage) (d : CatalogService.cdb) : Prop := {
  ck_ok : CatalogService.catalog_ok uuid4' isoformat (CatalogService.with_outbox (λ _, all) d);
  ck_kept : CatalogService.ca_outbox d `sublist_of` all;
  ck_gone : ∀ m, m ∈ all → m ∈ CatalogService.ca_outbox d ∨ ∃ now, now ∈ prunings ∧ msg_created_at m < prune_cutoff now;
}.

Record market_ok (m : market) : Prop := {
  mo_sellers : seller_ok uuid4 (m_sellers m);
  mo_catalog : ∃ all, catalog_kept (m_prunings m) all (m_catalog m);
  mo_pending : ∀ p perm dec, p ∈ m_pending m → pd_fetched p = inr perm →
    CatalogRules.decide_listing repr perm.1 perm.2 = inr dec → CatalogRules.ok dec = true → vetted (m_sellers m) (seller_of (pd_request p));
  mo_products : ∀ p, p ∈ CatalogService.products (m_catalog m) → vetted (m_sellers m) (CatalogRules.p_seller_id p);
}.

(** A yes that was heard was said. *)
Lemma heard_yes now later a b perm dec : (CatalogService.fetch_permission now later a b).2 = inr perm →
  CatalogRules.decide_listing repr perm.1 perm.2 = inr dec → CatalogRules.ok dec = true → CatalogService.answered_yes a.
Proof.
  intros Hf Hd Hok. destruct (CatalogRules.listing_allowed _ _ _ _ Hd Hok) as (Hreason & o & Ho & Hyes).
  destruct (CatalogService.fetch_cases now later a b) as [(_ & why & E & Hw)|[(body & _ & _ & E)|(body & _ & -> & E)]]; rewrite Hf in E.
  - injection E as ->. by destruct Hw.
  - injection E as ->. by cbn in Ho.
  - destruct body as [v|]; [|done]. injection E as ->. cbn in Ho. subst. by exists o.
Qed.

Lemma create_products p fault refresh now d : let d' := create p fault refresh now d in
  d' = d ∨ ∃ product perm dec, CatalogService.products d' = CatalogService.products d ++ [product] ∧
    CatalogRules.p_seller_id product = seller_of (pd_request p) ∧ pd_fetched p = inr perm ∧
    CatalogRules.decide_listing repr perm.1 perm.2 = inr dec ∧ CatalogRules.ok dec = true.
Proof.
  cbv zeta. unfold create.
  destruct (CatalogService.create_effect uuid4' isoformat repr duplicate_sku foreign_key fault refresh (pd_request p) (pd_key p) (pd_fetched p) now d)
    as [[-> _]|(sku & perm & dec & _ & Hf & Hd & Hok & _ & _ & (payload & _ & Ep & _) & _)]; [by left|].
  right. eexists _, perm, dec. split; [exact Ep|]. by split_and!.
Qed.

Context `{!Inj (=) (=) uuid4} `{!Inj (=) (=) uuid4'} (Hseed : ∀ n, uuid4 n ≠ PLATFORM_SELLER).

Lemma create_kept prunings all p fault refresh now d : catalog_kept prunings all d →
  ∃ all', catalog_kept prunings all' (create p fault refresh now d).
Proof.
  intros [H1 H2 H3]. unfold create.
  destruct (CatalogService.create_effect uuid4' isoformat repr duplicate_sku foreign_key fault refresh (pd_request p) (pd_key p) (pd_fetched p) now d)
    as [[-> _]|(sku & perm & dec & Hs & _ & _ & _ & _ & Hc & (payload & Ep & Erows & Eo & Ek & Ecat & Edraw) & _)]; [by exists all|].
  set (d' := (run _ d).1) in *. set (msg := CatalogService.product_message _ payload now) in *. exists (all ++ [msg]). constructor.
  - refine (CatalogService.stores_ok uuid4' isoformat duplicate_sku foreign_key (pd_request p) sku now (pd_key p)
      (CatalogService.with_outbox (λ _, all) d) _ Hs Hc _ H1). exists payload. by split_and!.
  - rewrite Eo. by apply sublist_app.
  - rewrite Eo. intros m [[Hm|Hg]%H3|Hm]%elem_of_app; rewrite ?elem_of_app; [by left; left|by right|by left; right].
Qed.

Lemma prune_kept prunings all now d : catalog_kept prunings all d → catalog_kept (prunings ++ [now]) all (prune_catalog now d).
Proof.
  intros [H1 H2 H3]. constructor; [exact H1| |].
  - etrans; [|exact H2]. apply CreateOnce.CreateOnce.filter_sublist.
  - intros m [Hm|(t & Ht & Hlt)]%H3; [|right; exists t; by rewrite elem_of_app; auto]. cbn.
    destruct (msg_created_at m <? prune_cutoff now) eqn:E.
    + right. exists now. rewrite elem_of_app, list_elem_of_singleton. bool_to_prop. by auto.
    + left. apply elem_of_filter_bool. by rewrite E.
Qed.

Lemma market_step_ok m m' : market_step m m' → market_ok m → market_ok m'.
Proof.
  intros Hstep [H1 H2 H3 H4]. destruct Hstep as [d Hd|request key now later a Ha asked|i p fault refresh now Hp|now].
  - constructor; cbn [m_sellers m_catalog m_pending m_prunings]; [by eapply seller_step_ok|done|..].
    + intros p perm dec ????. eapply vetted_step; [done|]. by eapply H3.
    + intros p Hp. eapply vetted_step; [done|]. by apply H4.
  - constructor; cbn [m_sellers m_catalog m_pending m_prunings]; [done|done| |done].
    intros p perm dec [Hp| ->%list_elem_of_singleton]%elem_of_app Hf Hd Hok; [by eapply H3|]. cbn [pd_fetched pd_request] in *.
    pose proof (heard_yes _ _ _ _ _ _ Hf Hd Hok) as Hyes. destruct Ha as [->|[[e ->]|(st & body & -> & Hst)]].
    + by apply permission_vetted.
    + by destruct Hyes as (? & ? & _).
    + destruct Hyes as (o & E & _). by injection E.
  - constructor; cbn [m_sellers m_catalog m_pending m_prunings]; [done|destruct H2 as [all H2]; by eapply create_kept| |].
    + intros q perm dec Hq. apply H3. apply (elem_of_delete_at _ _ _ _ Hp). by right.
    + intros q Hq. destruct (create_products p fault refresh now (m_catalog m)) as [E|(product & perm & dec & E & Es & Hf & Hd & Hok)];
        rewrite E in Hq; [by apply H4|]. apply elem_of_app in Hq as [Hq| ->%list_elem_of_singleton]; [by apply H4|].
      rewrite Es. eapply H3; [|done..]. by eapply list_elem_of_lookup_2.
  - constructor; cbn [m_sellers m_catalog m_pending m_prunings]; [done| |done|done].
    destruct H2 as [all H2]. exists all. by apply prune_kept.
Qed.

End market.


(** ** The event and the backfill write the same document *)

Import ReadModel CatalogRules EventRules ReindexWorker.ReindexWorker StreamProcessor.StreamProcessor.

Section agreement.
Context {Ix : Type} `{SearchIndexLaws Ix}.
Context (repr : json → string) (to_float : json → pyexn + pyfloat).
Context (json_loads : string → option json) (sortable : list json → bool) (isoformat : Z → string).

(** The message as Kafka brings it: the payload as an object or as its text,
    and its type in the header, on the message, or only in the payload's shape. *)
Definition carries (a : arrival) (ty : string) (payload : list (string * json)) : Prop :=
  ∃ msg, as_message json_loads (value a) = Some (JObj msg) ∧ payload_of json_loads msg = JObj payload ∧
    infer_event_type msg (JObj payload) (headers a) = JStr ty.

(** An untyped creation is recognised by its shape. *)
Lemma creation_shape p t payload : build_product_event p t = inr payload → type_by_shape payload = JStr PRODUCT_CREATED.
Proof. intros E. destruct p as [i s c k n de pr ac ca]. injection E as <-. reflexivity. Qed.

Lemma creation_routed a p t payload : build_product_event p t = inr payload → carries a PRODUCT_CREATED payload →
  p_id p ≠ "" → sku_matches (p_sku p) = true → read_message json_loads sortable (value a) (headers a) = Route PRODUCT_CREATED payload.
Proof.
  intros E (msg & Hm & Hp & Hty) Hid Hsku. unfold read_message. rewrite Hm, Hp, Hty. cbn [indexed_event].
  assert (Hprod : is_product_payload (JObj payload) = true).
  { assert (Hs : truthy (JStr (p_sku p)) = true) by (apply truthy_str; intros E'; by rewrite E' in Hsku).
    injection E as <-. unfold is_product_payload. change (obj_get _ "sku") with (JStr (p_sku p)). rewrite Hs. apply orb_true_r. }
  change (PRODUCT_CREATED in_ INDEXED_EVENTS) with true. cbv iota. rewrite Hprod. cbn [negb].
  change (PRODUCT_CREATED =?s PRODUCT_CREATED) with true. change (PRODUCT_CREATED in_ SELLER_SIGNAL_EVENTS) with false. cbn [negb andb].
  assert (Hidt : truthy (obj_get payload "id") = true) by (injection E as <-; by apply truthy_str). by rewrite Hidt.
Qed.

(** The fields the creation event of a product writes. *)
Definition created_fields (p : Product) (t : string) : list (string * json) :=
  [("seller_id", JStr (p_seller_id p)); ("sku", JStr (p_sku p)); ("category_id", JStr (p_category_id p)); ("name", JStr (p_name p));
   ("description", or_null (p_description p)); ("is_active", JBool (p_is_active p)); ("base_price_cents", JInt (p_price_cents p));
   ("updated_at", JStr t)].

Lemma creation_write p t payload : build_product_event p t = inr payload →
  document_write PRODUCT_CREATED payload = Some (JStr (p_id p), CATALOG, created_fields p t).
Proof. intros E. injection E as <-. reflexivity. Qed.

Lemma created_index a p t payload (w : world Ix) : build_product_event p t = inr payload → carries a PRODUCT_CREATED payload →
  p_id p ≠ "" → sku_matches (p_sku p) = true → meanwhile (env a) = [] → es_error (env a) = None →
  handled repr to_float json_loads sortable w a =
    World (put_partial (windex w) (p_id p) (setdefault (created_fields p t) "product_id" (JStr (p_id p)))) (last_refresh w).
Proof.
  intros E Hc Hid Hsku Hm He. unfold handled, callback_wrapper. rewrite Hm. cbn [foldl].
  rewrite (creation_routed a p t payload) by done. unfold process_event. rewrite (creation_write p t payload) by done.
  unfold write_product, product_update_body. change (validate_product_write CATALOG (created_fields p t).*1) with (@None string).
  rewrite doc_path_str. unfold is_empty. rewrite bool_decide_false by done. by rewrite He.
Qed.

Lemma backfilled_index p (i : Ix) : p_id p ≠ "" →
  write_document (p_id p) (ReindexRules.build_document isoformat (selected p)) i =
    inr (put_partial i (p_id p) (setdefault (ReindexRules.build_document isoformat (selected p)) "product_id" (JStr (p_id p)))).
Proof.
  intros Hid. unfold write_document, write_product, product_update_body. rewrite build_document_valid, doc_path_str.
  unfold is_empty. by rewrite bool_decide_false.
Qed.

Lemma created_nodup p t : NoDup (setdefault (created_fields p t) "product_id" (JStr (p_id p))).*1.
Proof. by_compute. Qed.

Lemma written_field (i : Ix) id fs f v : NoDup fs.*1 → dict_get fs f = Some v → (∀ o, v ≠ JObj o) → field (put_partial i id fs) id f = Some v.
Proof. intros Hnd Hv Hflat. rewrite field_put, bool_decide_true, Hv by done. by rewrite blend_flat. Qed.

Lemma created_flat p t f v : dict_get (created_fields p t) f = Some v → ∀ o, v ≠ JObj o.
Proof. intros Hv%dict_get_elem o ->. unfold created_fields, or_null in Hv. destruct (p_description p); elem_cases Hv. Qed.

End agreement.

(** C13 — The stream and the backfill agree on what a product is: from any index,
    handling the creation event of a stored product and writing its row by the
    backfill both give its document the product's id, seller, SKU, category,
    name, price, active flag and, if it has one, description, the values of the
    row under the same names.  They differ in time only: the event writes its own
    time as the last update and leaves the catalog's timestamp as it was, the
    backfill writes the row's creation time as both.  Both leave every other
    document, and every field another service owns, as they were; and a
    description the row does not have reads as null after either, if it did
    before. *)
Theorem stream_and_backfill_agree {Ix : Type} `{SearchIndexLaws Ix} (repr : json → string) (to_float : json → pyexn + pyfloat)
    (json_loads : string → option json) (sortable : list json → bool) (isoformat : Z → string)
    (p : Product) (t : string) (payload : list (string * json)) (a : arrival) (w : world Ix)
    (Hevent : build_product_event p t = inr payload) (Hcarried : carries json_loads a PRODUCT_CREATED payload)
    (Hid : p_id p ≠ "") (Hsku : sku_matches (p_sku p) = true) (Halone : meanwhile (env a) = []) (Hfine : es_error (env a) = None) :
  ∃ ix2, write_document (p_id p) (ReindexRules.build_document isoformat (selected p)) (windex w) = inr ix2 ∧
    let ix1 := windex (handled repr to_float json_loads sortable w a) in
    (∀ f v, (f, v) ∈ ReindexRules.build_document isoformat (selected p) →
       f ∉ ["product_id"; "updated_at"; ReindexRules.CATALOG_TIMESTAMP_FIELD] →
       field ix1 (p_id p) f = Some v ∧ field ix2 (p_id p) f = Some v) ∧
    (field ix1 (p_id p) "product_id" = Some (JStr (p_id p)) ∧ field ix2 (p_id p) "product_id" = Some (JStr (p_id p))) ∧
    (field ix1 (p_id p) "updated_at" = Some (JStr t) ∧
     field ix2 (p_id p) "updated_at" = Some (JStr (isoformat (p_created_at p))) ∧
     field ix1 (p_id p) ReindexRules.CATALOG_TIMESTAMP_FIELD = field (windex w) (p_id p) ReindexRules.CATALOG_TIMESTAMP_FIELD ∧
     field ix2 (p_id p) ReindexRules.CATALOG_TIMESTAMP_FIELD = Some (JStr (isoformat (p_created_at p)))) ∧
    (∀ id f, id ≠ p_id p ∨ f ∈ foreign_fields CATALOG → field ix1 id f = field (windex w) id f ∧ field ix2 id f = field (windex w) id f) ∧
    (p_description p = None → default JNull (field (windex w) (p_id p) "description") = JNull →
       default JNull (field ix1 (p_id p) "description") = JNull ∧ default JNull (field ix2 (p_id p) "description") = JNull).
Proof.
  eexists. split; [by apply backfilled_index|]. cbv zeta. rewrite (created_index repr to_float json_loads sortable a p t payload w) by done.
  cbn [windex]. set (doc := ReindexRules.build_document isoformat (selected p)).
  assert (Hwf2 : NoDup (setdefault doc "product_id" (JStr (p_id p))).*1) by apply setdefault_nodup, build_document_wf.
  split; [|split; [|split; [|split]]].
  - intros f v Hin Hf. apply not_elem_of_cons in Hf as [Hpid Hf].
    rewrite !field_put by (done || apply created_nodup). rewrite !bool_decide_true, !setdefault_other by done.
    assert (Hv2 : dict_get doc f = Some v) by (apply elem_dict_get; [apply build_document_wf|done]).
    assert (Hv1 : dict_get (created_fields p t) f = Some v).
    { revert Hin Hf. unfold doc, created_fields, or_null. rewrite build_document_eq. destruct (p_description p); cbn [app];
        intros Hin Hf; elem_cases Hin; first [reflexivity|exfalso; apply Hf; clear; by_compute]. }
    rewrite Hv1, Hv2. split; (rewrite blend_flat; [done|]); [by eapply created_flat|by eapply build_document_flat].
  - split; apply written_field; try done; [apply created_nodup|]. unfold doc. rewrite build_document_eq. by destruct (p_description p).
  - split_and!; [apply written_field; [apply created_nodup|done|done]| | |].
    2: rewrite field_put, bool_decide_true by (done || apply created_nodup); reflexivity.
    all: apply written_field; [done| |done]; unfold doc; rewrite build_document_eq; by destruct (p_description p).
  - intros id f Hor. rewrite !field_put by (done || apply created_nodup).
    destruct (bool_decide_reflect (id = p_id p)) as [->|]; [|done]. destruct Hor as [?|Hf]; [done|].
    assert (Hne : f ≠ "product_id") by (intros ->; revert Hf; by_compute). rewrite !setdefault_other by done.
    assert (Hn : ∀ fs : list (string * json), validate_product_write CATALOG fs.*1 = None → dict_get fs f = None).
    { intros fs [_ Hv]%validate_none. destruct (dict_get fs f) as [v|] eqn:E; [|done]. exfalso.
      apply (foreign_not_owned CATALOG f Hf), Hv, dict_get_is_Some. by exists v. }
    by rewrite (Hn (created_fields p t)), (Hn doc) by (reflexivity || apply build_document_valid).
  - intros Hd Hnull. rewrite !field_put by (done || apply created_nodup). rewrite !bool_decide_true, !setdefault_other by done.
    unfold doc. rewrite build_document_eq. unfold created_fields. rewrite Hd. cbn [or_null app].
    split; [|done]. change (dict_get _ "description") with (Some JNull). cbn [default]. by rewrite blend_flat.
Qed.

(** ** Losing the right to sell *)

(** [SellerResponse] as JSON. *)
Definition profile_json (created_at : Z → string) (r : SellerResponse) : json :=
  let s := rs_seller r in
  JObj [("id", JStr (s_id s)); ("legal_name", JStr (legal_name s)); ("display_name", JStr (display_name s));
        ("contact_email", JStr (contact_email s)); ("contact_phone", text_or_null (contact_phone s));
        ("status", JStr (status s)); ("status_reason", text_or_null (status_reason s));
        ("accepted_contract_version", int_or_null (accepted_contract_version s));
        ("current_contract_version", JInt (rs_current_contract_version r));
        ("may_list_products", JBool (rs_may_list_products r)); ("may_receive_orders", JBool (rs_may_receive_orders r));
        ("needs_contract_acceptance", JBool (rs_needs_contract_acceptance r));
        ("missing_documents", JList (map JStr (rs_missing_documents r)));
        ("city", text_or_null (city s)); ("district", text_or_null (district s)); ("country", JStr (country s));
        ("latitude", text_or_null (latitude s)); ("longitude", text_or_null (longitude s));
        ("created_at", JStr (created_at (s_created_at s)))].

(** GET /sellers/{id} as the seller service stands. *)
Definition profile_reply_of (created_at : Z → string) (d : db) (seller_id : string) : http_reply :=
  match (run (get_seller seller_id) d).2 with
  | inr r => Replied 200 (Some (profile_json created_at r))
  | inl e => Replied (status_of e) None
  end.

Lemma profile_of_seller created_at uuid4 d s : seller_ok uuid4 d → s ∈ sellers d →
  ∃ r, profile_reply_of created_at d (s_id s) = Replied 200 (Some (profile_json created_at r)) ∧ rs_may_list_products r = may_list s.
Proof.
  intros Hok Hs. unfold profile_reply_of, run, get_seller, bind.
  assert (Hl : _load (s_id s) (Session d d) = (Session d d, inr s)).
  { destruct (seller_load_cases (s_id s) d) as [(s' & E & Hs' & Eid)|E].
    - rewrite E. do 2 f_equal. by apply (map_key_inj s_id (sellers d)); [apply (so_table _ _ Hok)|..].
    - exfalso. unfold _load, bind, query in E. cbn [working] in E. destruct (List.find _ (sellers d)) as [x|] eqn:Ef; [done|].
      eapply find_none_elem in Ef; [|exact Hs]. by rewrite bool_decide_true in Ef. }
  rewrite Hl. unfold _document_types, query. cbn. eexists. split; reflexivity.
Qed.

(** The event under which a seller leaves good standing is one the stream
    processor acts on, and cannot wait its turn. *)
Lemma standing_lost_announced uuid4 fault now r d s s' `{!Inj (=) (=) uuid4} (Hseed : ∀ n, uuid4 n ≠ PLATFORM_SELLER) : seller_ok uuid4 d →
  let d' := (run (serve uuid4 fault now r) d).1 in
  s ∈ sellers d → s' ∈ sellers d' → s_id s' = s_id s → may_list s = true → may_list s' = false →
  ∃ m, se_outbox d' = se_outbox d ++ [m] ∧ aggregate_id m = s_id s ∧ payload m = event_payload s' ∧
    SellerProjection.changes_visibility (msg_type m) = true.
Proof.
  intros Hok. cbv zeta. intros Hs Hs' Hid Hl Hl'. pose proof (so_table _ _ Hok) as Htab.
  assert (Hsame : s' ∈ sellers d → False).
  { intros Hin. assert (s' = s) as -> by (by apply (map_key_inj s_id (sellers d)); [apply Htab|..]). congruence. }
  destruct (serve_effect uuid4 fault now r d) as [[E|(seller & f & e & t & Hsel & (Es & Eo & _ & _ & Hf) & Hm)]|(x & t & Ex & _ & _ & Es & _)].
  - rewrite E in Hs'. by destruct Hsame.
  - rewrite Es in Hs'. apply (updated_rows s_id) in Hs' as [->|[Hin _]]; [|by destruct Hsame|apply Htab|done].
    rewrite Hf in Hid. assert (seller = s) as -> by (by apply (map_key_inj s_id (sellers d)); [apply Htab|..]).
    exists (seller_event (f s) e t). split_and!; [done|by cbn; rewrite Hf|done|]. cbn [msg_type seller_event].
    destruct (rows_told _ _ _ _ _ _ _ _ _ _ Htab s Hs) as [[st v] [T1 _ _]]. unfold state_of in T1.
    destruct (_as_status (status s)) as [st'|] eqn:Est; [|done]. injection T1 as -> <-. pose proof (as_status_inv _ _ Est) as Hst.
    destruct (may_list_active s st Hst Hl) as [-> Hv].
    destruct Hm as [(from & to & Hfrom & Hto & Hin & Hev & Hver)|(-> & Hsta & Hver)].
    + rewrite Est in Hfrom. injection Hfrom as <-. cbn in Hin. elem_cases Hin; subst; cbn in Hev; injection Hev as <-; [|reflexivity..].
      exfalso. revert Hl'. unfold may_list, may_list_products. rewrite Hto, Hver. cbn. rewrite bool_decide_true by done.
      by rewrite bool_decide_true.
    + exfalso. revert Hl Hl'. unfold may_list. rewrite Hsta, Hver. congruence.
  - rewrite Es in Hs'. apply elem_of_app in Hs' as [Hin|Hx%list_elem_of_singleton]; [by destruct Hsame|]. subst x.
    destruct (rows_drawn _ _ _ _ _ _ _ _ _ _ Htab s Hs) as [(n & Hn & E)|Hp%seed_platform]; rewrite Hid in Ex.
    + rewrite E in Ex. apply (inj uuid4) in Ex. lia.
    + rewrite Hp in Ex. by destruct (Hseed (se_draws d)).
Qed.

Lemma standing_routed json_loads sortable a m s : carries json_loads a (msg_type m) (payload m) → payload m = event_payload s →
  SellerProjection.changes_visibility (msg_type m) = true →
  read_message json_loads sortable (value a) (headers a) = Route (msg_type m) (payload m).
Proof.
  intros (msg & Hm & Hp & Hty) Hpay Hvis. unfold read_message. rewrite Hm, Hp, Hty. cbn [indexed_event].
  apply bool_decide_eq_true in Hvis. unfold SellerProjection.VISIBILITY_EVENTS in Hvis.
  elem_cases Hvis; (match goal with E : msg_type m = _ |- _ => rewrite E end); reflexivity.
Qed.

Lemma standing_event ty d : SellerProjection.changes_visibility ty = true →
  document_write ty d = None ∧ SellerProjection.is_refresh_trigger ty = true.
Proof.
  intros Hvis%bool_decide_eq_true. unfold SellerProjection.VISIBILITY_EVENTS in Hvis. elem_cases Hvis; subst; by split.
Qed.

(** C5 — A seller who may no longer sell disappears from search: when a request
    to the seller service takes away an active seller's right to list, exactly
    one event is appended, under a name the stream processor treats as a change
    of visibility; and when that message is handled with the seller service
    answering as it then stands and nothing interfering, no document that carries
    the seller's id at that time can be found by search afterwards, whatever the
    catalog, the pricing, the inventory and the backfill go on to write.  A
    product of the seller's indexed only later is not covered: indexing a creation
    does not ask whether the seller may sell. *)
Theorem lost_standing_reaches_search {Ix : Type} `{SearchIndexLaws Ix} (repr : json → string) (to_float : json → pyexn + pyfloat)
    (json_loads : string → option json) (sortable : list json → bool) (created_at : Z → string) (uuid4 : nat → string)
    (fault : db → option string) (now : Z) (r : request) (d : db) (s s' : Seller)
    (Hinj : Inj (=) (=) uuid4) (Hseed : ∀ n, uuid4 n ≠ PLATFORM_SELLER) (Hok : seller_ok uuid4 d) (Hs : s ∈ sellers d)
    (Hs' : s' ∈ sellers (run (serve uuid4 fault now r) d).1) (Hid : s_id s' = s_id s) (Hne : s_id s ≠ "")
    (Hbefore : may_list s = true) (Hafter : may_list s' = false) :
  let d' := (run (serve uuid4 fault now r) d).1 in
  ∃ m, se_outbox d' = se_outbox d ++ [m] ∧ aggregate_id m = s_id s ∧
    SellerProjection.changes_visibility (msg_type m) = true ∧
    ∀ (a : arrival) (w : world Ix) sig,
      carries json_loads a (msg_type m) (payload m) →
      profile_reply (refreshing (env a)) = profile_reply_of created_at d' (s_id s) →
      fetch_signals to_float (refreshing (env a)) = inr sig → calm (refreshing (env a)) →
      (∀ id, unseen (attempts (refreshing (env a)) 0) id = false) →
      ∀ id shop ws, Forall (spares SELLER_SIGNALS) ws →
        let i := windex (handled repr to_float json_loads sortable w a) in
        term (field i id "seller_id") (JStr (s_id s)) = true → searchable shop (foldl apply i ws) id = false.
Proof.
  cbv zeta. destruct (standing_lost_announced uuid4 fault now r d s s' Hseed Hok Hs Hs' Hid Hbefore Hafter) as (m & Eo & Eid & Ep & Hvis).
  exists m. split_and!; [done..|]. intros a w sig Hc Hprof Hsig Hcalm Hseen id shop ws Hws.
  assert (Hok' : seller_ok uuid4 (run (serve uuid4 fault now r) d).1) by (by eapply seller_step_ok).
  destruct (profile_of_seller created_at uuid4 _ s' Hok' Hs') as (resp & Hresp & Hmay). rewrite Hid in Hresp. rewrite Hresp in Hprof.
  assert (Hsell : SellerProjection.may_sell sig = Some false).
  { unfold fetch_signals, SellerProjection.signals_from_responses in Hsig. rewrite Hprof in Hsig.
    cbn [_get_json] in Hsig.
    assert (E : SellerProjection.as_dict (profile_json created_at resp) =
      Some (match profile_json created_at resp with JObj o => o | _ => [] end)) by reflexivity.
    rewrite E in Hsig.
    destruct (SellerProjection.as_dict (_get_json (reviews_reply _))); [|done]. destruct (SellerProjection.as_dict (_get_json (metrics_reply _))); [|done].
    destruct (SellerProjection.parse_coordinates _ _ _); [done|]. injection Hsig as <-.
    change (obj_get _ "may_list_products") with (JBool (rs_may_list_products resp)). cbn. by rewrite Hmay, Hafter. }
  unfold handled, callback_wrapper. rewrite (standing_routed json_loads sortable a m s') by done.
  set (w1 := World _ (last_refresh w)). unfold process_event. destruct (standing_event (msg_type m) (payload m) Hvis) as [-> ->].
  assert (Hsid : SellerProjection.seller_id_from repr (payload m) = Some (s_id s)).
  { rewrite Ep. unfold SellerProjection.seller_id_from. change (obj_get (event_payload s') "seller_id") with (JStr (s_id s')).
    rewrite Hid, (proj2 (truthy_str (s_id s))) by done. done. }
  rewrite Hsid. unfold is_empty. rewrite bool_decide_false by done. rewrite Hvis.
  destruct (forced_refresh to_float (s_id s) (refreshing (env a)) w1 sig false Hsig Hsell (cm_update _ Hcalm)) as (i & v & Hr & He).
  rewrite Hr. cbn [fst windex]. pose proof (calm_settles _ _ _ _ _ _ _ Hcalm Hsell He) as ->. intros Hterm.
  eapply (settled_documents _ _ _ _ _ false); [exact He|done|done|done|done].
Qed.

(** ** Stock that comes back *)

(** The event that gives stock back is known and not indexed: the stock level
    on the document stays what the last reservation left. *)
Lemma release_events_are_ignored json_loads sortable body :
  read_message json_loads sortable (JObj body) [(TYPE_HEADER, ReservationRules.ReservationRules.EVENT_RELEASED)] = Skip.
Proof. reflexivity. Qed.

(** ** A concrete market *)

Definition live_requests : list request :=
  [Register sample_registration "k1"; Register sample_registration "k2"; Submit "a" sample_documents; Start "a";
   Verdict "a" true None; Accept "a" 1].

Definition live_sellers : db := after live_requests (seeded_sellers 0).

Definition opening : market :=
  {| m_sellers := live_sellers; m_catalog := CatalogService.empty_catalog; m_breaker := Resilience.new_breaker 5 30 10; m_pending := [];
     m_prunings := [] |}.

Definition wanted : CatalogService.ProductCreate :=
  {| CatalogService.pc_seller_id := Some "a"; CatalogService.pc_category_id := "cat-1"; CatalogService.pc_sku := " k-1";
     CatalogService.pc_name := "Kettle"; CatalogService.pc_description := None; CatalogService.pc_price_cents := 4500;
     CatalogService.pc_is_active := true |}.

(** The platform's own product: no seller is named. *)
Definition own_wanted : CatalogService.ProductCreate :=
  {| CatalogService.pc_seller_id := None; CatalogService.pc_category_id := "cat-1"; CatalogService.pc_sku := "own-1";
     CatalogService.pc_name := "Gift card"; CatalogService.pc_description := None; CatalogService.pc_price_cents := 1000;
     CatalogService.pc_is_active := true |}.

Notation sample_step := (market_step unary_id unary_id dec (λ _, "...") (λ _, "ux_products_sku") (λ _, "fk")).
Notation sample_creation := (create unary_id dec (λ _, "...") (λ _, "ux_products_sku") (λ _, "fk")).

Definition ask (r : CatalogService.ProductCreate) (key : string) (m : market) : market :=
  let asked := CatalogService.fetch_permission 0 0 (permission_answer (m_sellers m) (seller_of r)) (m_breaker m) in
  {| m_sellers := m_sellers m; m_catalog := m_catalog m; m_breaker := asked.1;
     m_pending := m_pending m ++ [{| pd_request := r; pd_key := key; pd_fetched := asked.2 |}]; m_prunings := m_prunings m |}.

Definition list_first (now : Z) (m : market) : market :=
  match m_pending m !! 0%nat with
  | Some p => {| m_sellers := m_sellers m; m_catalog := sample_creation p (λ _, None) None now (m_catalog m); m_breaker := m_breaker m;
                 m_pending := delete 0%nat (m_pending m); m_prunings := m_prunings m |}
  | None => m
  end.

Definition prune (now : Z) (m : market) : market :=
  {| m_sellers := m_sellers m; m_catalog := prune_catalog now (m_catalog m); m_breaker := m_breaker m;
     m_pending := m_pending m; m_prunings := m_prunings m ++ [now] |}.

(** Two questions, two creations more than a week apart and a pruning between them. *)
Definition later : Z := 8 * CreateOnce.CreateOnce.US_PER_DAY.

Definition listed_market : market :=
  list_first later (prune later (list_first 7 (ask own_wanted "k2" (ask wanted "k1" opening)))).

Lemma live_sellers_ok : seller_ok unary_id live_sellers.
Proof.
  pose proof unary_id_inj. eapply (rtc_invariant _ (seller_ok unary_id)); [|apply (seller_after_reachable live_requests (seeded_sellers 0))|apply seeded_sellers_ok].
  intros ????. eapply seller_step_ok; [done|exact unary_id_not_platform|done|done].
Qed.

Lemma ask_step r key m : sample_step m (ask r key m).
Proof.
  exact (catalog_asks unary_id unary_id dec (λ _, "...") (λ _, "ux_products_sku") (λ _, "fk") m r key 0 0
    (permission_answer (m_sellers m) (seller_of r)) (or_introl eq_refl)).
Qed.

Lemma list_first_reach now m : rtc sample_step m (list_first now m).
Proof. unfold list_first. destruct (m_pending m !! 0%nat) as [p|] eqn:E; [|done]. apply rtc_once. by constructor. Qed.

Lemma prune_step now m : sample_step m (prune now m).
Proof. exact (catalog_prunes unary_id unary_id dec (λ _, "...") (λ _, "ux_products_sku") (λ _, "fk") m now). Qed.

Lemma listed_reachable : rtc sample_step opening listed_market.
Proof.
  eapply rtc_l; [apply (ask_step wanted "k1")|]. eapply rtc_l; [apply (ask_step own_wanted "k2")|].
  etrans; [apply (list_first_reach 7)|]. eapply rtc_l; [apply (prune_step later)|]. apply list_first_reach.
Qed.


(** The event of the product, as the outbox has it, and its row. *)
Definition listed_product : Product := CatalogService.new_product "p1" "K-1" wanted 7.

Definition listed_payload : list (string * json) := match build_product_event listed_product "7" with inr d => d | inl _ => [] end.

Definition listed_arrival : arrival :=
  {| value := JObj [("payload", JObj listed_payload)]; headers := []; env := fair_weather |}.

Lemma stream_and_backfill_agree_witness : ∃ ix2,
  write_document "p1" (ReindexRules.build_document dec (selected listed_product)) (∅ : MapIndex.index) = inr ix2 ∧
  field (windex (handled (λ _, "...") (λ _, inl TypeError) (λ _, None) (λ _, false) (World ∅ ∅) listed_arrival)) "p1" "sku" = Some (JStr "K-1") ∧
  field ix2 "p1" "sku" = Some (JStr "K-1").
Proof.
  assert (Hc : carries (λ _, None) listed_arrival PRODUCT_CREATED listed_payload)
    by (exists [("payload", JObj listed_payload)]; split_and!; reflexivity).
  destruct (stream_and_backfill_agree (Ix := MapIndex.index) (λ _, "...") (λ _, inl TypeError) (λ _, None) (λ _, false) dec
    listed_product "7" listed_payload listed_arrival (World ∅ ∅) eq_refl Hc ltac:(done) eq_refl eq_refl eq_refl) as (ix2 & Hw & Hf & _).
  exists ix2. split; [exact Hw|]. apply Hf; [|by_compute]. rewrite build_document_eq. right. right. left.
Defined.

(** The suspension of the seller, and the window after its event. *)
Local Notation after_suspension := (run (serve unary_id (λ _, None) 1 (SuspendSeller "a" "fraud")) live_sellers).1.

Local Notation find_seller id d := (List.find (λ s, s_id s =?s id) (sellers d)).

Definition arrival_answered (profile : http_reply) (m : OutboxMessage) : arrival :=
  {| value := JObj [("payload", JObj (payload m))]; headers := [(TYPE_HEADER, msg_type m)];
     env := {| meanwhile := []; es_error := None;
       refreshing := {| metrics_reply := Unreachable; reviews_reply := Unreachable; profile_reply := profile;
         now_monotonic := 0; marked_at := 0; iso_now := "t";
         skipped := skipped down; update_error := None; attempts := attempts down |} |} |}.

Lemma answered_profile profile m : profile_reply (refreshing (env (arrival_answered profile m))) = profile.
Proof. reflexivity. Qed.

Local Notation suspension_arrival m := (arrival_answered (profile_reply_of dec after_suspension "a") m).

Local Notation window m := (handled (λ _, "...") (λ _, inl TypeError) (λ _, None) (λ _, false)
  (sample_stream [listed_arrival]) (suspension_arrival m)).

Definition suspension_message : OutboxMessage :=
  default {| aggregate_type := ""; aggregate_id := ""; msg_type := ""; payload := []; msg_created_at := 0 |} (last (se_outbox after_suspension)).

Lemma suspension_message_last : last (se_outbox after_suspension) = Some suspension_message.
Proof. vm_compute. reflexivity. Qed.

Lemma suspension_carried :
  carries (λ _, None) (suspension_arrival suspension_message) (msg_type suspension_message) (payload suspension_message).
Proof. exists [("payload", JObj (payload suspension_message))]. split_and!; [reflexivity|reflexivity|vm_compute; reflexivity]. Qed.

Lemma suspension_calm profile m : calm (refreshing (env (arrival_answered profile m))).
Proof. constructor; [reflexivity|intros id; reflexivity|split; reflexivity]. Qed.

Lemma suspension_unseen profile m id : unseen (attempts (refreshing (env (arrival_answered profile m))) 0) id = false.
Proof. reflexivity. Qed.

Lemma suspension_fetched :
  ∃ sig, fetch_signals (λ _, inl TypeError) (refreshing (env (suspension_arrival suspension_message))) = inr sig.
Proof.
  assert (Hok : match fetch_signals (λ _, inl TypeError) (refreshing (env (suspension_arrival suspension_message))) with inr _ => true | inl _ => false end = true)
    by (vm_compute; reflexivity).
  destruct (fetch_signals _ _) as [e|sig]; [discriminate Hok|by exists sig].
Qed.

(** What the window computes: p1 is for sale before the suspension's event and
    not after it. *)
Example suspension_window :
  term (field (windex (window suspension_message)) "p1" "seller_id") (JStr "a") = true ∧
  searchable None (windex (sample_stream [listed_arrival])) "p1" = true ∧
  searchable None (windex (window suspension_message)) "p1" = false.
Proof. split_and!; vm_compute; reflexivity. Qed.

Lemma lost_standing_reaches_search_witness :
  ∃ m, last (se_outbox after_suspension) = Some m ∧ SellerProjection.changes_visibility (msg_type m) = true ∧
    ∀ sig, carries (λ _, None) (suspension_arrival m) (msg_type m) (payload m) →
      fetch_signals (λ _, inl TypeError) (refreshing (env (suspension_arrival m))) = inr sig →
      term (field (windex (window m)) "p1" "seller_id") (JStr "a") = true →
      searchable None (windex (window m)) "p1" = false.
Proof.
  assert (Hl : may_list <$> find_seller "a" live_sellers = Some true) by (vm_compute; reflexivity).
  assert (Hl' : may_list <$> find_seller "a" after_suspension = Some false) by (vm_compute; reflexivity).
  destruct (find_seller "a" live_sellers) as [s|] eqn:E; [|discriminate Hl].
  destruct (find_seller "a" after_suspension) as [s'|] eqn:E'; [|discriminate Hl'].
  injection Hl as Hl. injection Hl' as Hl'.
  apply find_elem in E as [Hs Hid%bool_decide_eq_true]. apply find_elem in E' as [Hs' Hid'%bool_decide_eq_true].
  assert (Hne : s_id s ≠ "") by (rewrite Hid; discriminate).
  destruct (lost_standing_reaches_search (Ix := MapIndex.index) (λ _, "...") (λ _, inl TypeError) (λ _, None) (λ _, false) dec unary_id
    (λ _, None) 1 (SuspendSeller "a" "fraud") live_sellers s s' unary_id_inj unary_id_not_platform live_sellers_ok Hs Hs' (eq_trans Hid' (eq_sym Hid)) Hne Hl Hl')
    as (m & Eo & _ & Hvis & Hend).
  exists m. split; [rewrite Eo; apply last_snoc|]. split; [exact Hvis|]. intros sig Hc Hsig. rewrite Hid in Hend.
  exact (Hend _ (sample_stream [listed_arrival]) sig Hc (answered_profile _ m) Hsig (suspension_calm _ m) (suspension_unseen _ m) "p1" None []
    (Forall_nil_2 _)).
Defined.

End Marketplace.
