(* ===== verification/FraudService.v ===== *)
(** * Risk of a checkout (services/fraud-service, fraud_service.py)

    The device checks, the velocity check and the score; the handler with its
    cached answers; and what a history of evaluations adds up to.  Requests that
    overlap are part of the model: [unseen] are the evaluations that other
    requests committed only after this one had counted. *)

From S2P Require Import Prelude PyValue PyJson PyText Session.

Module FraudService.

Definition BLOCKED_APK_SIGNATURES : list string := ["0xBADF00D"; "0xDEADBEEF"].
Definition SECOND : Z := 1000000.

Record FraudEvaluation := {
  fe_id : string; fe_user_id : string; fe_ip_address : string; fe_device_fingerprint : string;
  fe_risk_score : Z; fe_is_blocked : bool; fe_reason : string; fe_created_at : Z;
}.

Record FraudRequest := {
  fq_user_id : string; fq_ip_address : option string; fq_device_fingerprint : option string;
  fq_telemetry : option (list (string * json));
}.

(** ** The device *)

(** [v < 50]; [None] is the [TypeError] of values that do not compare. *)
Definition under_50 (v : json) : option bool :=
  match v with
  | JBool b => Some (Z.b2z b <? 50)
  | JInt z => Some (z <? 50)
  | JFloat (FFin m e) => Some (if 0 <=? e then m * 2 ^ e <? 50 else m <? 50 * 2 ^ (- e))
  | JFloat (FInf negative) => Some negative
  | JFloat FNan => Some false
  | _ => None
  end.

Definition blocked_signature (v : json) : bool :=
  match v with JStr s => s in_ BLOCKED_APK_SIGNATURES | _ => false end.

(** The reason and the score of a device that is blocked outright. *)
Definition inspect_device (telemetry : list (string * json)) : option (option (string * Z)) :=
  if truthy (obj_get telemetry "is_rooted_jailbroken") then Some (Some ("Device rooted/jailbroken", 100))
  else match under_50 (default (JInt 999) (dict_get telemetry "interaction_time_ms")) with
  | None => None
  | Some true => Some (Some ("Zero-click suspicion (impossibly fast interaction)", 95))
  | Some false =>
      if blocked_signature (obj_get telemetry "apk_signature") then Some (Some ("Suspicious APK signature", 90))
      else Some None
  end.

(** ** The velocity *)

(** [(is_blocked, reason, risk_score)] of an unblocked device with [count]
    evaluations in the last minute. *)
Definition judge (count : Z) : bool * string * Z :=
  if 5 <? count then (true, "Velocity limit exceeded (Inventory Hoarding)", 85)
  else (false, "Clean", Z.min (10 + count * 5) 50).

Definition or_else (o : option string) (fallback : string) : string :=
  match o with Some s => if is_empty s then fallback else s | None => fallback end.

Definition same_source (user ip device : string) (e : FraudEvaluation) : bool :=
  (fe_user_id e =?s user) && (fe_ip_address e =?s ip) && (fe_device_fingerprint e =?s device).

Definition recent_requests (user ip device : string) (since : Z) (rows : list FraudEvaluation) : Z :=
  Z.of_nat (length (List.filter (λ e, same_source user ip device e && (since <=? fe_created_at e)) rows)).

(** ** The handler *)

Record fdb := { evaluations : list FraudEvaluation; fr_outbox : list OutboxMessage; fr_keys : key_table; fr_draws : nat }.

Definition no_evaluations : fdb := {| evaluations := []; fr_outbox := []; fr_keys := []; fr_draws := 0 |}.

Section handler.
Context (uuid4 : nat → string) (isoformat : Z → string).
Context (fault : fdb → option string) (refresh_error : option string) (unseen : FraudEvaluation → bool).

Definition fraud_message (e : FraudEvaluation) (t : Z) : OutboxMessage :=
  {| aggregate_type := "FraudEvaluation"; aggregate_id := fe_user_id e; msg_type := "FraudEvaluated";
     payload := [("id", JStr (fe_id e)); ("user_id", JStr (fe_user_id e)); ("risk_score", JInt (fe_risk_score e));
       ("is_blocked", JBool (fe_is_blocked e)); ("reason", JStr (fe_reason e)); ("created_at", JStr (isoformat (fe_created_at e)))];
     msg_created_at := t |}.

(** The evaluation stored under a key, for a key that is already there. *)
Definition cached (result_id : option string) : M fdb FraudEvaluation :=
  found <- query (λ d, match result_id with
                       | Some id => if is_empty id then None else List.find (λ e, fe_id e =?s id) (evaluations d)
                       | None => None
                       end) ;;
  match found with
  | Some e => ret e
  | None => raise (Http 409 "Idempotency key already processed but result not found")
  end.

Definition store (e : FraudEvaluation) (key : string) (t : Z) : M fdb FraudEvaluation :=
  exec (λ d, {| evaluations := evaluations d ++ [e]; fr_outbox := fr_outbox d ++ [fraud_message e t];
                fr_keys := dict_set (fr_keys d) key (Some (fe_id e)); fr_draws := fr_draws d |}) ;;;
  commit fault ;;;
  match refresh_error with
  | Some text => rollback ;;; raise (Http 500 text)
  | None => ret e
  end.

Definition evaluate_checkout_risk (request : FraudRequest) (idempotency_key : string) (clock : nat → Z) : M fdb FraudEvaluation :=
  known <- query (λ d, dict_get (fr_keys d) idempotency_key) ;;
  match known with
  | Some result_id => cached result_id
  | None =>
  exec (λ d, {| evaluations := evaluations d; fr_outbox := fr_outbox d; fr_keys := fr_keys d ++ [(idempotency_key, None)];
                fr_draws := fr_draws d |}) ;;;
  match inspect_device (default [] (fq_telemetry request)) with
  | None => raise (Raised "TypeError")
  | Some blocked =>
  let ip_addr := or_else (fq_ip_address request) "127.0.0.1" in
  let device_fp := or_else (fq_device_fingerprint request) "unknown" in
  count <- query (λ d, recent_requests (fq_user_id request) ip_addr device_fp (clock 0%nat - 60 * SECOND)
                         (List.filter (λ e, negb (unseen e)) (evaluations d))) ;;
  let '(is_blocked, reason, risk_score) :=
    match blocked with Some (reason, score) => (true, reason, score) | None => judge count end in
  n <- query fr_draws ;;
  exec (λ d, {| evaluations := evaluations d; fr_outbox := fr_outbox d; fr_keys := fr_keys d; fr_draws := S (fr_draws d) |}) ;;;
  store {| fe_id := uuid4 n; fe_user_id := fq_user_id request; fe_ip_address := ip_addr; fe_device_fingerprint := device_fp;
           fe_risk_score := risk_score; fe_is_blocked := is_blocked; fe_reason := reason; fe_created_at := clock 1%nat |}
        idempotency_key (clock 2%nat)
  end end.
End handler.

(** ** Histories *)

(** Filling in the value of a key that was just appended. *)
Lemma dict_set_last {V} (d : list (string * V)) k v v' : dict_get d k = None → dict_set (d ++ [(k, v)]) k v' = d ++ [(k, v')].
Proof.
  induction d as [|[k0 v0] d IH]; cbn; [by rewrite decide_True|]. case_decide; [done|]. intros H0. by rewrite IH.
Qed.

Lemma dict_get_snoc {V} (d : list (string * V)) k v k' :
  dict_get (d ++ [(k, v)]) k' = match dict_get d k' with Some x => Some x | None => if decide (k' = k) then Some v else None end.
Proof. induction d as [|[k0 v0] d IH]; cbn; [done|]. destruct (decide (k' = k0)); [done|apply IH]. Qed.

Record call := {
  c_request : FraudRequest; c_key : string; c_clock : nat → Z;
  c_fault : fdb → option string; c_refresh : option string; c_unseen : FraudEvaluation → bool;
}.

Section history.
Context (uuid4 : nat → string) (isoformat : Z → string).

Definition answer (c : call) (d : fdb) : fdb * (exn + FraudEvaluation) :=
  run (evaluate_checkout_risk uuid4 isoformat (c_fault c) (c_refresh c) (c_unseen c) (c_request c) (c_key c) (c_clock c)) d.

Definition after (cs : list call) (d : fdb) : fdb := foldl (λ d c, (answer c d).1) d cs.

(** The row a new call stores. *)
Definition assessed (c : call) (d : fdb) : option FraudEvaluation :=
  let ip := or_else (fq_ip_address (c_request c)) "127.0.0.1" in
  let device := or_else (fq_device_fingerprint (c_request c)) "unknown" in
  let user := fq_user_id (c_request c) in
  match inspect_device (default [] (fq_telemetry (c_request c))) with
  | None => None
  | Some blocked =>
      let '(is_blocked, reason, score) :=
        match blocked with
        | Some (reason, score) => (true, reason, score)
        | None => judge (recent_requests user ip device (c_clock c 0%nat - 60 * SECOND)
                           (List.filter (λ e, negb (c_unseen c e)) (evaluations d)))
        end in
      Some {| fe_id := uuid4 (fr_draws d); fe_user_id := user; fe_ip_address := ip; fe_device_fingerprint := device;
              fe_risk_score := score; fe_is_blocked := is_blocked; fe_reason := reason; fe_created_at := c_clock c 1%nat |}
  end.

(** Everything one call can come to. *)
Lemma assessment_cases c d :
  (∃ result_id, dict_get (fr_keys d) (c_key c) = Some result_id ∧ answer c d = run (cached result_id) d) ∨
  dict_get (fr_keys d) (c_key c) = None ∧
    ((answer c d).1 = d ∧ (∃ e, (answer c d).2 = inl e) ∨
     ∃ row, assessed c d = Some row ∧
       (answer c d).1 = {| evaluations := evaluations d ++ [row]; fr_outbox := fr_outbox d ++ [fraud_message isoformat row (c_clock c 2%nat)];
                           fr_keys := fr_keys d ++ [(c_key c, Some (fe_id row))]; fr_draws := S (fr_draws d) |} ∧
       (answer c d).2 = match c_refresh c with Some e => inl (Http 500 e) | None => inr row end).
Proof.
  unfold answer, evaluate_checkout_risk. destruct (dict_get (fr_keys d) (c_key c)) as [result_id|] eqn:Ek.
  - left. exists result_id. split; [done|]. unfold run. rewrite bind_query. cbn [working]. by rewrite Ek.
  - right. split; [done|]. unfold run, assessed. rewrite bind_query. cbn [working]. rewrite Ek. rewrite bind_exec. cbn [working committed].
    destruct (inspect_device _) as [blocked|]; [|left; split; [done|by eexists]].
    rewrite bind_query. cbn [working evaluations].
    destruct (match blocked with Some (reason, score) => (true, reason, score) | None => judge _ end) as [[b r] s].
    rewrite bind_query, bind_exec. unfold store. rewrite bind_exec, bind_commit. cbn [working committed evaluations fr_outbox fr_keys fr_draws fe_id].
    rewrite dict_set_last by done.
    destruct (c_fault c _) as [e|]; [left; split; [done|by eexists]|]. right. eexists. split; [done|].
    by destruct (c_refresh c).
Qed.

(** ** Scores *)

(** A block scores at least 85, anything else between 10 and 35. *)
Definition scored (e : FraudEvaluation) : Prop :=
  if fe_is_blocked e then fe_risk_score e ∈ [100; 95; 90; 85] else 10 ≤ fe_risk_score e ≤ 35 ∧ fe_reason e = "Clean".

Lemma device_scores telemetry reason score : inspect_device telemetry = Some (Some (reason, score)) → score ∈ [100; 95; 90; 85].
Proof.
  unfold inspect_device. destruct (truthy _); [intros [= _ <-]; by_compute|].
  destruct (under_50 _) as [[]|]; [intros [= _ <-]; by_compute| |done].
  destruct (blocked_signature _); [intros [= _ <-]; by_compute|done].
Qed.

Lemma recent_nonneg user ip device since rows : 0 ≤ recent_requests user ip device since rows.
Proof. unfold recent_requests. lia. Qed.

Lemma assessed_scored c d row : assessed c d = Some row → scored row.
Proof.
  unfold assessed, scored. destruct (inspect_device _) as [[[reason score]|]|] eqn:E; [| |done].
  - intros [= <-]. by eapply device_scores.
  - unfold judge. destruct (5 <? _) eqn:E5; intros [= <-]; cbn; [by_compute|].
    pose proof (recent_nonneg (fq_user_id (c_request c)) (or_else (fq_ip_address (c_request c)) "127.0.0.1")
      (or_else (fq_device_fingerprint (c_request c)) "unknown") (c_clock c 0%nat - 60 * SECOND)
      (List.filter (λ e, negb (c_unseen c e)) (evaluations d))). split; [lia|done].
Qed.

(** ** Velocity *)

Definition like (e e' : FraudEvaluation) : bool :=
  same_source (fe_user_id e) (fe_ip_address e) (fe_device_fingerprint e) e'.

(** Every clean evaluation found at most five like it in the minute before. *)
Definition paced (rows : list FraudEvaluation) : Prop :=
  ∀ pre e post, rows = pre ++ e :: post → fe_is_blocked e = false →
    (length (List.filter (λ e', like e e' && (fe_created_at e - 60 * SECOND <=? fe_created_at e')%Z) pre) ≤ 5)%nat.

(** A call that overlaps no other, on a clock that does not run backwards. *)
Definition orderly (c : call) : Prop := (∀ e, c_unseen c e = false) ∧ c_clock c 0%nat ≤ c_clock c 1%nat.

Lemma filter_weaken {A} (p q : A → bool) l : (∀ x, x ∈ l → p x = true → q x = true) → (length (List.filter p l) ≤ length (List.filter q l))%nat.
Proof.
  induction l as [|x l IH]; intros H; [done|]. cbn.
  assert (IH' := IH (λ y Hy, H y (list_elem_of_further _ _ _ Hy))). specialize (H x (list_elem_of_here _ _)).
  destruct (p x); [rewrite H by done; cbn; lia|]. destruct (q x); cbn; lia.
Qed.

Lemma assessed_paced c d row : orderly c → assessed c d = Some row → paced (evaluations d) → paced (evaluations d ++ [row]).
Proof.
  intros [Hun Hclock] Ha Hp pre e post E Hclean. destruct post as [|x post] using rev_ind.
  - apply app_inj_tail in E as [<- <-]. clear Hp.
    unfold assessed in Ha. destruct (inspect_device _) as [[[reason score]|]|]; [by injection Ha as <-| |done].
    unfold judge in Ha. destruct (5 <? _) eqn:E5 in Ha; injection Ha as <-; [done|]. cbn [fe_created_at].
    unfold recent_requests in E5. rewrite (filter_all (λ e, negb (c_unseen c e))) in E5 by (intros x _; by rewrite Hun). apply Z.ltb_ge in E5.
    etrans; [|apply (proj2 (Nat2Z.inj_le _ 5)); exact E5].
    apply filter_weaken. intros x _. unfold like. cbn [fe_user_id fe_ip_address fe_device_fingerprint].
    rewrite !andb_true_iff. intros [? ?]. split; [done|]. lia.
  - rewrite app_comm_cons, app_assoc in E. apply app_inj_tail in E as [E _]. by eapply Hp.
Qed.

(** Six at most in any minute: the last of them saw the others. *)
Lemma paced_window rows user ip device t : paced rows →
  (length (List.filter (λ e, negb (fe_is_blocked e) && same_source user ip device e &&
     ((t <=? fe_created_at e)%Z && (fe_created_at e <=? t + 60 * SECOND)%Z)) rows) ≤ 6)%nat.
Proof.
  set (p := λ e, _). intros Hp.
  destruct (decide (List.filter p rows = [])) as [->|Hne]; [cbn; lia|].
  assert (∃ pre e post, rows = pre ++ e :: post ∧ p e = true ∧ List.filter p post = []) as (pre & e & post & -> & He & Hpost).
  { clear Hp. induction rows as [|x rows IH] using rev_ind; [done|]. rewrite List.filter_app in Hne.
    destruct (p x) eqn:Ex; [by exists rows, x, []|]. cbn [List.filter] in Hne. rewrite Ex, app_nil_r in Hne.
    destruct (IH Hne) as (pre & e & post & -> & He & Hpost). exists pre, e, (post ++ [x]).
    split_and!; [by rewrite <- app_assoc|done|]. rewrite List.filter_app, Hpost. cbn. by rewrite Ex. }
  rewrite List.filter_app, length_app. cbn [List.filter]. rewrite He, Hpost. cbn [length].
  enough (length (List.filter p pre) ≤ 5)%nat by lia.
  assert (Hsplit := He). unfold p in Hsplit. rewrite !andb_true_iff in Hsplit. destruct Hsplit as [[Hclean Hsrc] [Ht1 Ht2]].
  etrans; [|apply (Hp pre e post eq_refl); by destruct (fe_is_blocked e)].
  apply filter_weaken. intros x _ Hx. unfold p in Hx. rewrite !andb_true_iff in Hx. destruct Hx as [[_ Hsx] [Hx1 _]].
  unfold like, same_source in *. rewrite !andb_true_iff, !bool_decide_eq_true in *.
  destruct Hsrc as [[-> ->] ->]. split; [by split; [split|]; apply Hsx|]. lia.
Qed.

(** ** Keys *)

Record fraud_ok (d : fdb) : Prop := {
  fo_ids : ∀ e, e ∈ evaluations d → ∃ j, (j < fr_draws d)%nat ∧ fe_id e = uuid4 j;
  fo_nodup : NoDup (map fe_id (evaluations d));
  fo_keys : ∀ k r, dict_get (fr_keys d) k = Some r → ∃ e, r = Some (fe_id e) ∧ e ∈ evaluations d;
  fo_scores : ∀ e, e ∈ evaluations d → scored e;
}.

Lemma cached_known (Hne : ∀ n, uuid4 n ≠ "") d e : fraud_ok d → e ∈ evaluations d → run (cached (Some (fe_id e))) d = (d, inr e).
Proof.
  intros [H1 H2 _ _] He. unfold run, cached. rewrite bind_query. cbn [working].
  assert (is_empty (fe_id e) = false) as ->.
  { destruct (H1 e He) as (j & _ & ->). unfold is_empty. by apply bool_decide_eq_false. }
  destruct (List.find _ (evaluations d)) as [e'|] eqn:Ef.
  - apply find_elem in Ef as [He' Hid%bool_decide_eq_true]. cbn. by rewrite (map_key_inj fe_id _ _ _ H2 He' He Hid).
  - exfalso. pose proof (find_none_elem _ _ e Ef He) as E. cbn in E. by rewrite bool_decide_true in E.
Qed.

Lemma fraud_step (Hinj : Inj (=) (=) uuid4) (Hne : ∀ n, uuid4 n ≠ "") c d : fraud_ok d → fraud_ok (answer c d).1.
Proof.
  intros Hok. destruct (assessment_cases c d) as [(r & Ek & ->)|[Hk [[-> _]|(row & Ea & -> & _)]]]; [|done|].
  - destruct (fo_keys _ Hok _ _ Ek) as (e & -> & He). by rewrite cached_known.
  - pose proof (assessed_scored _ _ _ Ea) as Hs. destruct Hok as [H1 H2 H3 H4].
    assert (Hid : fe_id row = uuid4 (fr_draws d)).
    { unfold assessed in Ea. destruct (inspect_device _); [|done].
      by destruct (match o with Some (reason, score) => (true, reason, score) | None => judge _ end) as [[??]?]; injection Ea as <-. }
    split; cbn [evaluations fr_keys fr_draws].
    + intros e [He| ->%list_elem_of_singleton]%elem_of_app; [|exists (fr_draws d); split; [lia|done]].
      destruct (H1 e He) as (j & Hj & Ej). exists j. split; [lia|done].
    + rewrite map_app. apply NoDup_app. split_and!; [done| |apply NoDup_singleton].
      intros id (e & -> & He)%elem_of_map E%list_elem_of_singleton. destruct (H1 e He) as (j & Hj & Ej).
      rewrite Ej, Hid in E. apply Hinj in E. lia.
    + intros k r E. rewrite dict_get_snoc in E. destruct (dict_get (fr_keys d) k) as [r'|] eqn:Ek.
      * injection E as ->. destruct (H3 _ _ Ek) as (e & -> & He). exists e. split; [done|]. apply elem_of_app. by left.
      * case_decide; [|done]. injection E as <-. exists row. split; [done|]. apply elem_of_app. right. by apply list_elem_of_singleton.
    + intros e [He| ->%list_elem_of_singleton]%elem_of_app; [by apply H4|done].
Qed.

(** The evaluation a key stands for. *)
Definition settled (d : fdb) (key : string) (e : FraudEvaluation) : Prop :=
  dict_get (fr_keys d) key = Some (Some (fe_id e)) ∧ e ∈ evaluations d.

Lemma settled_step c d key e : fraud_ok d → (∀ n, uuid4 n ≠ "") → settled d key e → settled (answer c d).1 key e.
Proof.
  intros Hok Hne [Hk He]. destruct (assessment_cases c d) as [(r & Ek & ->)|[_ [[-> _]|(row & _ & -> & _)]]]; [|done|].
  - destruct (fo_keys _ Hok _ _ Ek) as (e' & -> & He'). by rewrite cached_known.
  - split; cbn [fr_keys evaluations]; [by rewrite dict_get_snoc, Hk|]. apply elem_of_app. by left.
Qed.

Lemma answer_settles c d e : fraud_ok d → (∀ n, uuid4 n ≠ "") → (answer c d).2 = inr e → settled (answer c d).1 (c_key c) e.
Proof.
  intros Hok Hne. destruct (assessment_cases c d) as [(r & Ek & ->)|[Hk [[_ (x & ->)]|(row & _ & -> & ->)]]]; [|done|].
  - destruct (fo_keys _ Hok _ _ Ek) as (e' & -> & He'). rewrite cached_known by done. intros [= <-]. done.
  - destruct (c_refresh c); [done|]. intros [= <-]. split; cbn [fr_keys evaluations].
    + by rewrite dict_get_snoc, Hk, decide_True.
    + apply elem_of_app. right. by apply list_elem_of_singleton.
Qed.

Lemma settled_answer c d key e : fraud_ok d → (∀ n, uuid4 n ≠ "") → settled d key e → c_key c = key → answer c d = (d, inr e).
Proof.
  intros Hok Hne [Hk He] <-. destruct (assessment_cases c d) as [(r & Ek & ->)|[Hn _]]; [|congruence].
  rewrite Hk in Ek. injection Ek as <-. by apply cached_known.
Qed.

Lemma after_invariant (P : fdb → Prop) cs d :
  (∀ c d, c ∈ cs → fraud_ok d → P d → P (answer c d).1) → Inj (=) (=) uuid4 → (∀ n, uuid4 n ≠ "") →
  fraud_ok d → P d → fraud_ok (after cs d) ∧ P (after cs d).
Proof.
  intros HP Hinj Hne. revert d. induction cs as [|c cs IH]; intros d Hok Hd; [done|]. cbn.
  apply IH; [|by apply fraud_step|apply HP; [by left|done..]]. intros c' d' Hc. apply HP. by right.
Qed.

Lemma fraud_start : fraud_ok no_evaluations.
Proof. split; [by intros ? ?%not_elem_of_nil|constructor|done|by intros ? ?%not_elem_of_nil]. Qed.

Lemma paced_step c d : orderly c → fraud_ok d → (∀ n, uuid4 n ≠ "") → paced (evaluations d) → paced (evaluations (answer c d).1).
Proof.
  intros Hc Hok Hne Hp. destruct (assessment_cases c d) as [(r & Ek & ->)|[_ [[-> _]|(row & Ea & -> & _)]]]; [|done|].
  - destruct (fo_keys _ Hok _ _ Ek) as (e' & -> & He'). by rewrite cached_known.
  - by eapply assessed_paced.
Qed.
End history.

(** What a checkout's risk answers add up to: whatever the requests, a
    blocked evaluation scores at least 85 and any other between 10 and 35; when
    requests do not overlap, no minute sees more than six evaluations of one
    user, address and device pass; and a key that was answered is answered the
    same ever after, with nothing stored. *)
Theorem fraud_checks_hold (uuid4 : nat → string) (isoformat : Z → string) (cs : list call)
    (Hinj : Inj (=) (=) uuid4) (Hne : ∀ n, uuid4 n ≠ "") :
  let d := after uuid4 isoformat cs no_evaluations in
  (∀ e, e ∈ evaluations d → scored e) ∧
  (Forall orderly cs → ∀ user ip device t,
     (length (List.filter (λ e, negb (fe_is_blocked e) && same_source user ip device e &&
        ((t <=? fe_created_at e)%Z && (fe_created_at e <=? t + 60 * SECOND)%Z)) (evaluations d)) ≤ 6)%nat) ∧
  (∀ c e cs' c', (answer uuid4 isoformat c d).2 = inr e → c_key c' = c_key c →
     let d' := after uuid4 isoformat cs' (answer uuid4 isoformat c d).1 in answer uuid4 isoformat c' d' = (d', inr e)).
Proof.
  cbv zeta. assert (Hok : fraud_ok uuid4 (after uuid4 isoformat cs no_evaluations)).
  { apply (after_invariant uuid4 isoformat (λ _, True)); auto using fraud_start. }
  split_and!.
  - apply (fo_scores _ _ Hok).
  - intros Hcs user ip device t. apply paced_window.
    apply (after_invariant uuid4 isoformat (λ d, paced (evaluations d))); auto using fraud_start.
    + intros c d Hc Hd. apply paced_step; [|done..]. by eapply Forall_forall in Hcs.
    + intros pre e post E. by destruct pre.
  - intros c e cs' c' He Hkey.
    destruct (after_invariant uuid4 isoformat (λ d, settled d (c_key c) e) cs' (answer uuid4 isoformat c (after uuid4 isoformat cs no_evaluations)).1)
      as [Hok' Hs']; auto using fraud_step.
    + intros c0 d0 _ Hd0. by apply settled_step.
    + by eapply answer_settles.
    + by eapply settled_answer.
Qed.

(** ** Concrete runs *)

Definition sample_id (n : nat) : string := "e" +:+ unary_id n.

Definition checkout (key : string) (t : Z) (unseen : FraudEvaluation → bool) : call :=
  {| c_request := {| fq_user_id := "u"; fq_ip_address := None; fq_device_fingerprint := None; fq_telemetry := None |};
     c_key := key; c_clock := λ n, t + Z.of_nat n; c_fault := λ _, None; c_refresh := None; c_unseen := unseen |}.

Definition seven : list string := ["1"; "2"; "3"; "4"; "5"; "6"; "7"].

(** Seven checkouts a second apart: the seventh is blocked. *)
Definition in_turn : list call := imap (λ i k, checkout k (Z.of_nat i * SECOND) (λ _, false)) seven.

Lemma fraud_checks_hold_witness :
  map fe_is_blocked (evaluations (after sample_id dec in_turn no_evaluations)) = [false; false; false; false; false; false; true] ∧
  map fe_risk_score (evaluations (after sample_id dec in_turn no_evaluations)) = [10; 15; 20; 25; 30; 35; 85] ∧
  (length (List.filter (λ e, negb (fe_is_blocked e) && same_source "u" "127.0.0.1" "unknown" e &&
     ((0 <=? fe_created_at e)%Z && (fe_created_at e <=? 0 + 60 * SECOND)%Z))
     (evaluations (after sample_id dec in_turn no_evaluations))) ≤ 6)%nat.
Proof.
  split_and!; [vm_compute; reflexivity..|].
  refine (proj1 (proj2 (fraud_checks_hold sample_id dec in_turn _ _)) _ "u" "127.0.0.1" "unknown" 0).
  - intros x y E. unfold sample_id in E. rewrite !PyText.append_cons in E. injection E as E. by apply unary_id_inj.
  - intros n. unfold sample_id. by rewrite PyText.append_cons.
  - repeat constructor; intros; cbn; try done; lia.
Defined.

(** Seven that overlap, none of which sees another: all of them pass. *)
Example overlapping_checkouts_all_pass :
  map fe_is_blocked (evaluations (after sample_id dec (map (λ k, checkout k 0 (λ _, true)) seven) no_evaluations)) =
    [false; false; false; false; false; false; false].
Proof. vm_compute. reflexivity. Qed.

(** The default only stands in for a missing key: an explicit null does not
    compare, and the checkout is answered 500. *)
Lemma null_interaction_time_fails telemetry :
  truthy (obj_get telemetry "is_rooted_jailbroken") = false → dict_get telemetry "interaction_time_ms" = Some JNull →
  inspect_device telemetry = None.
Proof. intros H1 H2. unfold inspect_device. by rewrite H1, H2. Qed.

End FraudService.
