(* ===== verification/PriceBoard.v ===== *)
(** * The price search shows

    search_rules.py decides which of a document's two prices is shown; here also
    is how the price gets there: pricing-service announces it, the change
    capture appends the announcement to a log, Kafka keeps a product's messages
    in order, and the stream processor writes what it is given, with failing
    writes, redeliveries, replays of dead letters, other messages and other
    writers in between. *)

From stdpp Require Import relations gmap.
From S2P Require Import Prelude PyValue PyJson PyText Session CreateOnce ReadModel CatalogService ReindexWorker Marketplace StreamProcessor.
Import ReadModel EventRules StreamProcessor.

Module SearchRules.

Definition PRICING_FIELD := "price_cents".
Definition CATALOG_FIELD := "base_price_cents".

(** A price a field offers: a whole number that is not negative. *)
Definition offered (v : json) : option Z := match v with JInt z => if 0 <=? z then Some z else None | _ => None end.

Definition effective_price (source : string → json) : option Z * string :=
  match offered (source PRICING_FIELD) with
  | Some z => (Some z, "pricing")
  | None =>
      match offered (source CATALOG_FIELD) with
      | Some z => (Some z, "catalog-base")
      | None => (None, "unpriced")
      end
  end.

(** The price shown is never an invented one: it is one of the two fields, and
    nothing when neither is a price. *)
Lemma effective_price_spec source : match effective_price source with
  | (Some z, origin) => 0 ≤ z ∧ (origin = "pricing" ∧ source PRICING_FIELD = JInt z ∨
      origin = "catalog-base" ∧ offered (source PRICING_FIELD) = None ∧ source CATALOG_FIELD = JInt z)
  | (None, origin) => origin = "unpriced" ∧ offered (source PRICING_FIELD) = None ∧ offered (source CATALOG_FIELD) = None
  end.
Proof.
  assert (H : ∀ v z, offered v = Some z → 0 ≤ z ∧ v = JInt z).
  { intros [|b|x|f|t|l|o] z; cbn; try done. destruct (Z.leb_spec 0 x); [|done]. by intros [= <-]. }
  unfold effective_price. destruct (offered (source PRICING_FIELD)) as [z|] eqn:E1; [destruct (H _ _ E1); auto|].
  destruct (offered (source CATALOG_FIELD)) as [z|] eqn:E2; [destruct (H _ _ E2); auto|done].
Qed.

End SearchRules.

Module PriceBoard.
Import CreateOnce SearchRules.

Section board.
Context {Ix : Type} `{SearchIndexLaws Ix} (repr : json → string) (to_float : json → pyexn + pyfloat).
Context (json_loads : string → option json) (sortable : list json → bool).
Context (uuid4 : nat → string) (isoformat : Z → string) (product : string).

(** Pricing's tables, everything its outbox ever held, how far the consumer of
    the product's messages has come, and the read model.  The rest is a record of
    what happened, by positions among those messages: the one whose write took
    effect last, the ones whose last delivery failed without effect, the ones that
    were dead-lettered at some time, and the dead letters whose replay took effect. *)
Record board := Board {
  b_tables : tables Price; b_log : list OutboxMessage; b_read : nat; b_world : world Ix;
  b_landed : option nat; b_failed : list nat; b_dead : list nat; b_replayed : list nat;
}.

(** Kafka keeps the messages of one aggregate in one partition, in order. *)
Definition partition (log : list OutboxMessage) : list OutboxMessage := List.filter (λ m, aggregate_id m =?s product) log.

(** The index request worked, or failed after it took effect. *)
Definition lands (a : arrival) : bool := match es_error (env a) with Some (_, applied) => applied | None => true end.

(** The handler raised, and the message goes to the dead letters. *)
Definition raises (a : arrival) : bool := match es_error (env a) with Some _ => true | None => false end.

Definition priced_by (c : CreateOnce.call Price PriceSetRequest) (d : tables Price) : tables Price :=
  (CreateOnce.answer (set_product_price isoformat) uuid4 c d).1.

Definition without (i : nat) (l : list nat) : list nat := List.filter (λ j, negb (Nat.eqb j i)) l.

(** The consumer handles the message at [b_read] and commits, whatever came of it. *)
Definition delivered (a : arrival) (b : board) : board :=
  let i := b_read b in
  Board (b_tables b) (b_log b) (S i) (handled repr to_float json_loads sortable (b_world b) a)
    (if lands a then Some i else b_landed b) (if lands a then without i (b_failed b) else i :: b_failed b)
    (if raises a then i :: b_dead b else b_dead b) (b_replayed b).

(** The reprocessor puts a dead letter back on the topic, and it is handled again. *)
Definition replayed (a : arrival) (i : nat) (b : board) : board :=
  Board (b_tables b) (b_log b) (b_read b) (handled repr to_float json_loads sortable (b_world b) a)
    (if lands a then Some i else b_landed b) (b_failed b) (b_dead b) (if lands a then i :: b_replayed b else b_replayed b).

Definition with_world (w : world Ix) (b : board) : board :=
  Board (b_tables b) (b_log b) (b_read b) w (b_landed b) (b_failed b) (b_dead b) (b_replayed b).

Inductive board_step (b : board) : board → Prop :=
| price_set c : 0 ≤ ps_base_price_cents (c_request c) →
    board_step b (Board (priced_by c (b_tables b))
      (b_log b ++ drop (length (co_outbox (b_tables b))) (co_outbox (priced_by c (b_tables b)))) (b_read b) (b_world b)
      (b_landed b) (b_failed b) (b_dead b) (b_replayed b))
| outbox_pruned now :
    board_step b (Board (prune_outbox_once DEFAULT_RETENTION_DAYS now (b_tables b)).1 (b_log b) (b_read b) (b_world b)
      (b_landed b) (b_failed b) (b_dead b) (b_replayed b))
| message_delivered a m : partition (b_log b) !! b_read b = Some m → Marketplace.carries json_loads a (msg_type m) (payload m) →
    bystanders PRICING a → board_step b (delivered a b)
| message_unread m : partition (b_log b) !! b_read b = Some m →
    board_step b (Board (b_tables b) (b_log b) (S (b_read b)) (b_world b)
      (b_landed b) (b_read b :: b_failed b) (b_read b :: b_dead b) (b_replayed b))
| messages_redelivered k : (k ≤ b_read b)%nat →
    board_step b (Board (b_tables b) (b_log b) k (b_world b) (b_landed b) (b_failed b) (b_dead b) (b_replayed b))
| dead_letter_replayed a i m : i ∈ b_dead b → partition (b_log b) !! i = Some m → Marketplace.carries json_loads a (msg_type m) (payload m) →
    bystanders PRICING a → board_step b (replayed a i b)
| other_message a : told (Ix := Ix) json_loads sortable a product PRICING_FIELD = None → bystanders PRICING a →
    board_step b (with_world (handled repr to_float json_loads sortable (b_world b) a) b).

(** ** What the messages say *)

Definition price_of (m : OutboxMessage) : json := obj_get (payload m) "base_price_cents".

(** The price of the message at a position. *)
Definition shown (log : list OutboxMessage) (i : option nat) : option json := i ← i; price_of <$> partition log !! i.

Definition last_index (n : nat) : option nat := match n with O => None | S n => Some n end.

Definition announces_price (p : Price) (m : OutboxMessage) : Prop :=
  ∃ request id clock, p = new_price request id clock ∧ m = price_message isoformat request id clock ∧
    0 ≤ ps_base_price_cents request ∧ ∃ n, id = uuid4 n.

Lemma announces_price_facts p m : announces_price p m →
  aggregate_id m = pr_product_id p ∧ price_of m = JInt (pr_base_price_cents p) ∧ 0 ≤ pr_base_price_cents p.
Proof. by intros (request & id & clock & -> & -> & Hge & _). Qed.

Lemma price_told a p m : (∀ n, uuid4 n ≠ "") → announces_price p m → Marketplace.carries json_loads a (msg_type m) (payload m) →
  pr_product_id p ≠ "" → told (Ix := Ix) json_loads sortable a (pr_product_id p) PRICING_FIELD = if lands a then Some (JInt (pr_base_price_cents p)) else None.
Proof.
  intros Hne (request & id & clock & -> & -> & _ & n & ->) (msg & Hm & Hp & Hty) Hid.
  cbn [msg_type payload price_message] in Hty, Hp. unfold told, read_message. rewrite Hm, Hp, Hty. cbn [indexed_event].
  change ("PriceUpdated" in_ INDEXED_EVENTS) with true. cbv iota.
  change ("PriceUpdated" =?s PRODUCT_CREATED) with false. change ("PriceUpdated" in_ SELLER_SIGNAL_EVENTS) with false. cbn [negb andb].
  change (obj_get _ "id") with (JStr (uuid4 n)). rewrite (proj2 (truthy_str (uuid4 n))) by done. cbn [negb].
  unfold document_write. change ("PriceUpdated" =?s PRODUCT_CREATED) with false. change ("PriceUpdated" =?s PRICE_UPDATED) with true. cbv iota.
  change (obj_get _ "product_id") with (JStr (ps_product_id request)). rewrite doc_path_str. cbn [new_price pr_product_id] in *.
  unfold is_empty. rewrite (bool_decide_false (ps_product_id request = "")) by done. rewrite bool_decide_true by done. unfold lands.
  by destruct (es_error (env a)) as [[e []]|].
Qed.

(** ** The board stays right *)

Record board_ok (b : board) : Prop := {
  bo_log : Forall2 announces_price (co_rows (b_tables b)) (b_log b);
  bo_read : (b_read b ≤ length (partition (b_log b)))%nat;
  bo_landed : ∀ i, b_landed b = Some i → (i < length (partition (b_log b)))%nat;
  bo_shown : field (windex (b_world b)) product PRICING_FIELD = shown (b_log b) (b_landed b);
  bo_caught : b_replayed b = [] → ∀ i, (i < b_read b)%nat → i ∉ b_failed b → ∃ j, b_landed b = Some j ∧ (i ≤ j)%nat;
}.

(** The rows of the product and the messages about it, side by side. *)
Lemma partition_rows rows log : Forall2 announces_price rows log →
  Forall2 announces_price (List.filter (λ p, pr_product_id p =?s product) rows) (partition log).
Proof.
  unfold partition. induction 1 as [|p m rows log Hpm _ IH]; cbn; [constructor|].
  destruct (announces_price_facts p m Hpm) as (-> & _). by destruct (_ =?s product); [constructor|].
Qed.

(** What a call to pricing adds to its outbox. *)
Lemma price_call c d : 0 ≤ ps_base_price_cents (c_request c) →
  priced_by c d = d ∨ ∃ p m, announces_price p m ∧ co_rows (priced_by c d) = co_rows d ++ [p] ∧ co_outbox (priced_by c d) = co_outbox d ++ [m].
Proof.
  intros Hge. unfold priced_by.
  destruct (answer_cases (price_creation isoformat) (set_product_price isoformat) (price_laws isoformat) uuid4 c d)
    as [[-> _]|(_ & _ & Hplan)]; [by left|right]. cbn [plan price_creation] in Hplan. destruct Hplan as [-> _].
  eexists _, _. split; [|done]. by eexists (c_request c), _, (c_clock c); split_and!; [..|eexists].
Qed.

(** Handling one of the product's messages, the first time or again. *)
Lemma handled_price b a i m : (∀ n, uuid4 n ≠ "") → product ≠ "" → board_ok b → partition (b_log b) !! i = Some m →
  Marketplace.carries json_loads a (msg_type m) (payload m) → bystanders PRICING a →
  field (windex (handled repr to_float json_loads sortable (b_world b) a)) product PRICING_FIELD =
  shown (b_log b) (if lands a then Some i else b_landed b).
Proof.
  intros Hne Hprod Hok Hm Hc Hby. destruct (Forall2_lookup_r _ _ _ _ _ (partition_rows _ _ (bo_log b Hok)) Hm) as (p & Hp & Hpm).
  assert (Hpp : pr_product_id p = product).
  { apply list_elem_of_lookup_2 in Hp. apply elem_of_filter_bool in Hp as [_ Hp]. by apply bool_decide_eq_true in Hp. }
  pose proof (price_told a p m Hne Hpm Hc) as Htold. rewrite Hpp in Htold. specialize (Htold Hprod).
  rewrite (handled_field repr to_float json_loads sortable a (b_world b) product PRICING_FIELD PRICING
    (field (windex (b_world b)) product PRICING_FIELD) Hby eq_refl); [|done..|by intros v; rewrite Htold; destruct (lands a); [intros [= <-]|]|done].
  rewrite Htold. destruct (lands a); [|apply Hok]. unfold shown. cbn [mbind option_bind]. rewrite Hm. cbn.
  by destruct (announces_price_facts p m Hpm) as (_ & -> & _).
Qed.

Lemma without_elem i j l : j ∈ without i l ↔ j ∈ l ∧ j ≠ i.
Proof. unfold without. rewrite elem_of_filter_bool, negb_true_iff, Nat.eqb_neq. done. Qed.

Lemma delivered_ok b a m : (∀ n, uuid4 n ≠ "") → product ≠ "" → board_ok b → partition (b_log b) !! b_read b = Some m →
  Marketplace.carries json_loads a (msg_type m) (payload m) → bystanders PRICING a → board_ok (delivered a b).
Proof.
  intros Hne Hprod Hok Hm Hc Hby. pose proof (lookup_lt_Some _ _ _ Hm) as Hlt.
  pose proof (handled_price b a _ m Hne Hprod Hok Hm Hc Hby) as Hf. destruct Hok as [Hlog Hread Hland Hshown Hcaught].
  split; cbn [delivered b_tables b_log b_read b_world b_landed b_failed b_replayed]; [done|lia| |done|].
  - intros i. destruct (lands a); [by intros [= <-]|apply Hland].
  - intros Hr i Hi Hn. destruct (lands a).
    + exists (b_read b). split; [done|lia].
    + apply not_elem_of_cons in Hn as [Hne' Hn]. apply Hcaught; [done|lia|done].
Qed.

Lemma replayed_ok b a i m : (∀ n, uuid4 n ≠ "") → product ≠ "" → board_ok b → partition (b_log b) !! i = Some m →
  Marketplace.carries json_loads a (msg_type m) (payload m) → bystanders PRICING a → board_ok (replayed a i b).
Proof.
  intros Hne Hprod Hok Hm Hc Hby. pose proof (lookup_lt_Some _ _ _ Hm) as Hlt.
  pose proof (handled_price b a _ m Hne Hprod Hok Hm Hc Hby) as Hf. destruct Hok as [Hlog Hread Hland Hshown Hcaught].
  split; cbn [replayed b_tables b_log b_read b_world b_landed b_failed b_replayed]; [done|done| |done|].
  - intros j. destruct (lands a); [by intros [= <-]|apply Hland].
  - destruct (lands a); [done|exact Hcaught].
Qed.

Lemma board_step_ok b b' : (∀ n, uuid4 n ≠ "") → product ≠ "" → board_step b b' → board_ok b → board_ok b'.
Proof.
  intros Hne Hprod Hstep Hok. pose proof Hok as [Hlog Hread Hland Hshown Hcaught].
  destruct Hstep as [c Hge|now|a m Hm Hc Hby|m Hm|k Hk|a i m Hi Hm Hc Hby|a Ht Hby].
  - destruct (price_call c (b_tables b) Hge) as [->|(p & m & Hpm & Er & Eo)]; [by rewrite drop_all, app_nil_r|].
    rewrite Eo, drop_app_length. split; cbn [b_tables b_log b_read b_world b_landed b_failed b_replayed]; [|..|done].
    + rewrite Er. by apply Forall2_app; [|constructor].
    + unfold partition in *. rewrite List.filter_app, length_app. lia.
    + intros i Hi%Hland. unfold partition in *. rewrite List.filter_app, length_app. lia.
    + rewrite Hshown. unfold shown. destruct (b_landed b) as [i|]; [|done]. cbn [mbind option_bind]. specialize (Hland i eq_refl).
      unfold partition in *. by rewrite List.filter_app, lookup_app_l.
  - done.
  - by eapply delivered_ok.
  - apply lookup_lt_Some in Hm. split; cbn [b_tables b_log b_read b_world b_landed b_failed b_replayed]; [done|lia|done|done|].
    intros Hr i Hi [Hi' Hn]%not_elem_of_cons. apply Hcaught; [done|lia|done].
  - split; cbn [b_tables b_log b_read b_world b_landed b_failed b_replayed]; [done|lia|done|done|].
    intros Hr i Hi. apply Hcaught; [done|lia].
  - by eapply replayed_ok.
  - split; cbn [with_world b_tables b_log b_read b_world b_landed b_failed b_replayed]; [done|done|done| |done].
    rewrite (handled_field repr to_float json_loads sortable a (b_world b) product PRICING_FIELD PRICING
      (field (windex (b_world b)) product PRICING_FIELD) Hby eq_refl); [|done..|by intros v Hv; rewrite Ht in Hv|done].
    by rewrite Ht.
Qed.

(** The price row in force. *)
Definition current_price (d : tables Price) : option Price := last (List.filter (λ p, pr_product_id p =?s product) (co_rows d)).

Lemma shown_row rows log i : Forall2 announces_price rows log →
  match shown log i with
  | None => True
  | Some v => ∃ p, p ∈ rows ∧ pr_product_id p = product ∧ 0 ≤ pr_base_price_cents p ∧ v = JInt (pr_base_price_cents p)
  end.
Proof.
  intros Hf%partition_rows. unfold shown. destruct i as [i|]; [|done]. cbn [mbind option_bind].
  destruct (partition log !! i) as [m|] eqn:Hi; [|done]. cbn. destruct (Forall2_lookup_r _ _ _ _ _ Hf Hi) as (p & Hp & Hpm).
  apply list_elem_of_lookup_2 in Hp. apply elem_of_filter_bool in Hp as [Hp Hid%bool_decide_eq_true].
  destruct (announces_price_facts p m Hpm) as (_ & E & Hge). by exists p.
Qed.

Lemma shown_current rows log : Forall2 announces_price rows log →
  shown log (last_index (length (partition log))) = (λ p, JInt (pr_base_price_cents p)) <$> last (List.filter (λ p, pr_product_id p =?s product) rows) ∧
  ∀ p, last (List.filter (λ p, pr_product_id p =?s product) rows) = Some p → 0 ≤ pr_base_price_cents p.
Proof.
  intros Hf%partition_rows. unfold shown.
  destruct (List.filter (λ p, pr_product_id p =?s product) rows) as [|p ps _] using rev_ind.
  - apply Forall2_nil_inv_l in Hf as ->. done.
  - apply Forall2_app_inv_l in Hf as (ms & ms' & _ & Hm & ->). apply Forall2_cons_inv_l in Hm as (m & ms'' & Hpm & Hn & ->).
    apply Forall2_nil_inv_l in Hn as ->. rewrite length_app, Nat.add_comm, last_snoc. cbn. rewrite list_lookup_middle by done. cbn.
    destruct (announces_price_facts p m Hpm) as (_ & -> & Hge). split; [done|]. by intros ? [= <-].
Qed.

End board.

(** C22 — Search shows a price that was set, and the last one once it got there:
    prices are set, the outbox is pruned, messages arrive, fail, are redelivered
    and replayed from the dead letters, and others write, in any order.  Search
    never shows as the product's price one that was not set for it.  When the last
    message about the product is the one whose write took effect last, search shows
    the price of its last row, and with no row the list price or none at all; and
    it is that one whenever the consumer has read all the messages, the last
    delivery of the last of them did not fail, and no replayed dead letter took
    effect. *)
Theorem search_shows_the_price {Ix : Type} `{SearchIndexLaws Ix} (repr : json → string) (to_float : json → pyexn + pyfloat)
    (json_loads : string → option json) (sortable : list json → bool) (uuid4 : nat → string) (isoformat : Z → string) (product : string)
    (w : world Ix) (b : board (Ix := Ix)) (Hne : ∀ n, uuid4 n ≠ "") (Hprod : product ≠ "")
    (Hblank : field (windex w) product PRICING_FIELD = None)
    (Hrun : rtc (board_step repr to_float json_loads sortable uuid4 isoformat product) (Board no_tables [] 0 w None [] [] []) b) :
  let source := λ f, default JNull (field (windex (b_world b)) product f) in
  let messages := length (partition product (b_log b)) in
  (b_landed b = last_index messages →
     effective_price source =
       match current_price product (b_tables b) with
       | Some p => (Some (pr_base_price_cents p), "pricing")
       | None => match offered (source CATALOG_FIELD) with Some z => (Some z, "catalog-base") | None => (None, "unpriced") end
       end) ∧
  (b_read b = messages → (∀ i, last_index messages = Some i → i ∉ b_failed b) → b_replayed b = [] → b_landed b = last_index messages) ∧
  (field (windex (b_world b)) product PRICING_FIELD = None ∨
   ∃ p, p ∈ co_rows (b_tables b) ∧ pr_product_id p = product ∧ effective_price source = (Some (pr_base_price_cents p), "pricing")).
Proof.
  cbv zeta. assert (Hok : board_ok uuid4 isoformat product b).
  { eapply (rtc_invariant _ (board_ok uuid4 isoformat product)); [|exact Hrun|]; [intros x y; by apply board_step_ok|].
    split; [constructor|done|done|done|]. cbn. lia. }
  destruct Hok as [Hlog Hread Hland Hshown Hcaught]. split_and!.
  - intros El. rewrite El in Hshown. destruct (shown_current uuid4 isoformat product _ _ Hlog) as [Es Hge]. rewrite Es in Hshown.
    unfold effective_price, current_price. rewrite Hshown.
    destruct (last _) as [p|] eqn:El'; cbn; [|done]. by rewrite (proj2 (Z.leb_le 0 (pr_base_price_cents p)) (Hge p eq_refl)).
  - intros Hr Hlast Hrep. destruct (length (partition product (b_log b))) as [|n] eqn:En; cbn [last_index] in *.
    + destruct (b_landed b) as [i|]; [|done]. specialize (Hland i eq_refl). lia.
    + destruct (Hcaught Hrep n ltac:(lia) (Hlast n eq_refl)) as (j & Ej & Hj). specialize (Hland j Ej). rewrite Ej. f_equal. lia.
  - pose proof (shown_row uuid4 isoformat product _ _ (b_landed b) Hlog) as Hs. rewrite <- Hshown in Hs.
    destruct (field (windex (b_world b)) product PRICING_FIELD) as [v|] eqn:Ef; [|by left]. right. destruct Hs as (p & Hp & Hid & Hge & ->).
    exists p. split_and!; [done..|]. unfold effective_price. rewrite Ef. cbn. by rewrite (proj2 (Z.leb_le 0 (pr_base_price_cents p)) Hge).
Qed.

(** ** A concrete run *)

Definition sample_id (n : nat) : string := "e" +:+ unary_id n.

Definition repricing (key : string) (cents t : Z) : CreateOnce.call Price PriceSetRequest :=
  {| c_request := {| ps_product_id := "p1"; ps_base_price_cents := cents; ps_currency := None |}; c_key := key;
     c_fault := λ _, None; c_refresh := None; c_clock := λ n, t + Z.of_nat n |}.

Definition announcement (id : string) (cents t : Z) : OutboxMessage :=
  price_message dec {| ps_product_id := "p1"; ps_base_price_cents := cents; ps_currency := None |} id (λ n, t + Z.of_nat n).

(** A message brought by Kafka, in the weather given; a replay has lost its headers. *)
Definition bring (e : weather) (m : OutboxMessage) : arrival :=
  {| value := JObj [("payload", JObj (payload m))]; headers := [(TYPE_HEADER, msg_type m)]; env := e |}.
Definition bring_back (m : OutboxMessage) : arrival := {| value := JObj [("payload", JObj (payload m))]; headers := []; env := fair_weather |}.

(** The index is away. *)
Definition outage : weather := {| meanwhile := []; es_error := Some ("ConnectionError", false); refreshing := down |}.

Notation sample_step := (board_step (Ix := MapIndex.index) (λ _, "...") (λ _, inl TypeError) (λ _, None) (λ _, false) sample_id dec "p1").

Definition price_it (c : CreateOnce.call Price PriceSetRequest) (b : board (Ix := MapIndex.index)) : board :=
  Board (priced_by sample_id dec c (b_tables b))
    (b_log b ++ drop (length (co_outbox (b_tables b))) (co_outbox (priced_by sample_id dec c (b_tables b)))) (b_read b) (b_world b)
    (b_landed b) (b_failed b) (b_dead b) (b_replayed b).

Definition deliver (e : weather) (m : OutboxMessage) (b : board (Ix := MapIndex.index)) : board :=
  delivered (λ _, "...") (λ _, inl TypeError) (λ _, None) (λ _, false) (bring e m) b.

Definition replay (i : nat) (m : OutboxMessage) (b : board (Ix := MapIndex.index)) : board :=
  replayed (λ _, "...") (λ _, inl TypeError) (λ _, None) (λ _, false) (bring_back m) i b.

Definition redeliver (k : nat) (b : board (Ix := MapIndex.index)) : board :=
  Board (b_tables b) (b_log b) k (b_world b) (b_landed b) (b_failed b) (b_dead b) (b_replayed b).

Lemma price_it_step c b : 0 ≤ ps_base_price_cents (c_request c) → sample_step b (price_it c b).
Proof. apply price_set. Qed.

Lemma deliver_step e m b : e = fair_weather ∨ e = outage → msg_type m = "PriceUpdated" → partition "p1" (b_log b) !! b_read b = Some m → sample_step b (deliver e m b).
Proof.
  intros He Hty Hm. refine (message_delivered _ _ _ _ _ _ _ b (bring e m) m Hm _ _).
  - exists [("payload", JObj (payload m))]. split_and!; [done..|]. cbn [bring headers]. by rewrite Hty.
  - destruct He as [-> | ->]; (split; [constructor|]; intros k; split; constructor).
Qed.

Lemma replay_step i m b : i ∈ b_dead b → infer_event_type [("payload", JObj (payload m))] (JObj (payload m)) [] = JStr (msg_type m) →
  partition "p1" (b_log b) !! i = Some m → sample_step b (replay i m b).
Proof.
  intros Hi Hty Hm. refine (dead_letter_replayed _ _ _ _ _ _ _ b (bring_back m) i m Hi Hm _ _).
  - exists [("payload", JObj (payload m))]. by split_and!.
  - split; [constructor|]. intros k. split; constructor.
Qed.

(** Priced, delivered, priced again, and both messages delivered once more. *)
Definition opening : board := Board no_tables [] 0 (World (∅ : MapIndex.index) ∅) None [] [] [].
Definition board1 : board := deliver fair_weather (announcement "e" 900 0) (price_it (repricing "k1" 900 0) opening).
Definition board2 : board := redeliver 0 (price_it (repricing "k2" 750 9) board1).
Definition board3 : board := deliver fair_weather (announcement "ea" 750 9) (deliver fair_weather (announcement "e" 900 0) board2).

Lemma sample_run : rtc sample_step opening board3.
Proof.
  eapply rtc_l; [apply (price_it_step (repricing "k1" 900 0)); cbn; lia|].
  eapply rtc_l; [apply (deliver_step fair_weather (announcement "e" 900 0)); [by left|vm_compute; reflexivity..]|].
  eapply rtc_l; [apply (price_it_step (repricing "k2" 750 9)); cbn; lia|].
  eapply rtc_l; [apply (messages_redelivered _ _ _ _ _ _ _ _ 0); lia|].
  eapply rtc_l; [apply (deliver_step fair_weather (announcement "e" 900 0)); [by left|vm_compute; reflexivity..]|].
  eapply rtc_l; [apply (deliver_step fair_weather (announcement "ea" 750 9)); [by left|vm_compute; reflexivity..]|]. apply rtc_refl.
Qed.

Definition price_on (b : board (Ix := MapIndex.index)) : option Z * string := effective_price (λ f, default JNull (field (windex (b_world b)) "p1" f)).

(** The second price fails to be written: it goes to the dead letters, the
    consumer has read everything, and search shows the first. *)
Definition missed : board := deliver outage (announcement "ea" 750 9) (price_it (repricing "k2" 750 9) board1).

Example failed_write_leaves_the_old_price : rtc sample_step opening missed ∧
  b_read missed = length (partition "p1" (b_log missed)) ∧ price_on missed = (Some 900, "pricing") ∧
  pr_base_price_cents <$> current_price "p1" (b_tables missed) = Some 750.
Proof.
  split; [|vm_compute; done].
  eapply rtc_l; [apply (price_it_step (repricing "k1" 900 0)); cbn; lia|].
  eapply rtc_l; [apply (deliver_step fair_weather (announcement "e" 900 0)); [by left|vm_compute; reflexivity..]|].
  eapply rtc_l; [apply (price_it_step (repricing "k2" 750 9)); cbn; lia|].
  eapply rtc_l; [apply (deliver_step outage (announcement "ea" 750 9)); [by right|vm_compute; reflexivity..]|]. apply rtc_refl.
Qed.

(** The first price fails and the second is written; an hour later the dead letter
    is replayed, and search shows the first price again. *)
Definition overtaken : board :=
  replay 0 (announcement "e" 900 0)
    (deliver fair_weather (announcement "ea" 750 9) (price_it (repricing "k2" 750 9) (deliver outage (announcement "e" 900 0) (price_it (repricing "k1" 900 0) opening)))).

Example replay_brings_an_old_price_back : rtc sample_step opening overtaken ∧
  price_on overtaken = (Some 900, "pricing") ∧ pr_base_price_cents <$> current_price "p1" (b_tables overtaken) = Some 750.
Proof.
  split; [|vm_compute; done].
  eapply rtc_l; [apply (price_it_step (repricing "k1" 900 0)); cbn; lia|].
  eapply rtc_l; [apply (deliver_step outage (announcement "e" 900 0)); [by right|vm_compute; reflexivity..]|].
  eapply rtc_l; [apply (price_it_step (repricing "k2" 750 9)); cbn; lia|].
  eapply rtc_l; [apply (deliver_step fair_weather (announcement "ea" 750 9)); [by left|vm_compute; reflexivity..]|].
  eapply rtc_l; [apply (replay_step 0 (announcement "e" 900 0)); [vm_compute; by left|vm_compute; reflexivity..]|]. apply rtc_refl.
Qed.

Lemma search_shows_the_price_witness :
  pr_base_price_cents <$> current_price "p1" (b_tables board3) = Some 750 ∧
  effective_price (λ f, default JNull (field (windex (b_world board3)) "p1" f)) =
    match current_price "p1" (b_tables board3) with
    | Some p => (Some (pr_base_price_cents p), "pricing")
    | None => match offered (default JNull (field (windex (b_world board3)) "p1" CATALOG_FIELD)) with
              | Some z => (Some z, "catalog-base") | None => (None, "unpriced") end
    end.
Proof.
  split; [vm_compute; reflexivity|].
  destruct (search_shows_the_price (Ix := MapIndex.index) (λ _, "...") (λ _, inl TypeError) (λ _, None) (λ _, false) sample_id dec "p1"
    (World ∅ ∅) board3) as (Hprice & Hcaught & _).
  - intros n. unfold sample_id. by rewrite PyText.append_cons.
  - done.
  - reflexivity.
  - exact sample_run.
  - apply Hprice, Hcaught; [vm_compute; reflexivity| |vm_compute; reflexivity]. intros i _. vm_compute. apply not_elem_of_nil.
Defined.

End PriceBoard.
