(* ===== verification/TextLines.v ===== *)
(** * Lines and fields of a tool's report

    [str.splitlines()] and [str.rpartition(sep)], and the facts that let a
    report made of [key: value] fields be read back: lines ended by a newline
    split again, joined parts split again, and stripping a field keeps its key
    and its value. *)

From Stdlib Require Import Ascii.
From S2P Require Import Prelude PyValue PyJson PyText.
Import PyJson PyText.

Module TextLines.

Definition tab : Ascii.ascii := Ascii.ascii_of_N 9.
Definition newline : Ascii.ascii := Ascii.ascii_of_N 10.
Definition space : Ascii.ascii := Ascii.ascii_of_N 32.
Definition colon : Ascii.ascii := ":"%char.
Definition comma : Ascii.ascii := ","%char.

(** [str.splitlines()] on ASCII text. *)
Definition is_line_break (c : Ascii.ascii) : bool := ((10 <=? code c) && (code c <=? 13)) || ((28 <=? code c) && (code c <=? 30)).

Fixpoint splitlines (s : string) : list string :=
  match s with
  | EmptyString => []
  | String c s' =>
      if is_line_break c then
        "" :: match s' with
              | String n s'' => if (code c =? 13) && (code n =? 10) then splitlines s'' else splitlines s'
              | EmptyString => []
              end
      else match splitlines s' with w :: ws => String c w :: ws | [] => [String c ""] end
  end.

(** [s.rpartition(sep)]: what precedes the last separator, and what follows. *)
Fixpoint rpartition_on (sep : Ascii.ascii) (s : string) : option (string * string) :=
  match s with
  | EmptyString => None
  | String c s' =>
      match rpartition_on sep s' with
      | Some (a, b) => Some (String c a, b)
      | None => if bool_decide (c = sep) then Some ("", s') else None
      end
  end.

(** Checked by evaluation on a literal. *)
Lemma lacks_literal p s : forallb (λ c, negb (p c)) (String.list_ascii_of_string s) = true → lacks p s.
Proof.
  induction s as [|c s IH]; intros Hs; [intros d Hd; done|]. cbn in Hs. apply andb_true_iff in Hs as [Hc Hs].
  apply lacks_cons. split; [by apply negb_true_iff in Hc|by apply IH].
Qed.

(** ** Lines *)

Definition lines_text (lines : list string) : string := foldr (λ l rest, l +:+ String newline rest) "" lines.

Lemma space_line_break c : is_space c = false → is_line_break c = false.
Proof. unfold is_space, is_line_break. lia. Qed.

Lemma splitlines_app l rest : lacks is_line_break l → splitlines (l +:+ String newline rest) = l :: splitlines rest.
Proof.
  induction l as [|c l IH]; intros H.
  - rewrite append_nil. cbn [splitlines]. assert (is_line_break newline = true) as -> by reflexivity. f_equal. by destruct rest.
  - apply lacks_cons in H as [Hc H]. rewrite append_cons. cbn [splitlines]. by rewrite Hc, IH.
Qed.

Lemma splitlines_text lines : (∀ l, l ∈ lines → lacks is_line_break l) → splitlines (lines_text lines) = lines.
Proof.
  induction lines as [|l lines IH]; intros H; [done|]. cbn [lines_text foldr]. rewrite splitlines_app by (apply H; by left).
  f_equal. apply IH. intros. apply H. by right.
Qed.

(** ** Joined parts *)

Lemma join_cons sep x y xs : join (String sep "") (x :: y :: xs) = x +:+ String sep (join (String sep "") (y :: xs)).
Proof. reflexivity. Qed.

Lemma lacks_join p sep xs : p sep = false → (∀ x, x ∈ xs → lacks p x) → lacks p (join (String sep "") xs).
Proof.
  intros Hs. induction xs as [|x [|y xs] IH]; intros H; [intros c Hc; done|apply H; by left|]. rewrite join_cons.
  apply lacks_app; [apply H; by left|]. apply lacks_cons. split; [done|]. apply IH. intros. apply H. by right.
Qed.

Lemma split_on_join sep xs : xs ≠ [] → (∀ x, x ∈ xs → lacks (λ d, bool_decide (d = sep)) x) →
  split_on sep (join (String sep "") xs) = xs.
Proof.
  intros _Hne. destruct xs as [|x xs]; [done|]. clear _Hne. revert x. induction xs as [|y xs IH]; intros x H.
  - apply split_on_single, H. by left.
  - rewrite join_cons, split_on_app by (apply H; by left). f_equal. apply IH. intros. apply H. by right.
Qed.

(** ** Stripping *)

Lemma lstrip_ok p c s : p c = false → lstrip_by p (String c s) = String c s.
Proof. intros H. cbn. by rewrite H. Qed.

Lemma rstrip_cons p c s : rstrip_by p s ≠ "" → rstrip_by p (String c s) = String c (rstrip_by p s).
Proof. intros H. cbn. by destruct (rstrip_by p s). Qed.

Lemma rstrip_keep p c s : p c = false → rstrip_by p (String c s) = String c (rstrip_by p s).
Proof. intros H. cbn. destruct (rstrip_by p s); [by rewrite H|done]. Qed.

Lemma rstrip_app p a b : rstrip_by p b ≠ "" → rstrip_by p (a +:+ b) = a +:+ rstrip_by p b.
Proof.
  intros Hb. induction a as [|c a IH]; [done|]. rewrite !append_cons, <-IH. apply rstrip_cons. rewrite IH.
  destruct a; [done|]. by rewrite append_cons.
Qed.

Lemma rstrip_last p b : p b = false → ∀ a, rstrip_by p (a +:+ String b "") = a +:+ String b "".
Proof. intros Hb a. assert (E : rstrip_by p (String b "") = String b "") by (cbn; by rewrite Hb). rewrite rstrip_app; by rewrite E. Qed.

(** A text whose ends are not white space. *)
Definition trimmed (s : string) : Prop := lstrip_by is_space s = s ∧ rstrip_by is_space s = s.

Lemma trimmed_strip s : trimmed s → strip s = s.
Proof. intros [Hl Hr]. unfold strip, strip_by. by rewrite Hl, Hr. Qed.

Lemma lacks_trimmed s : lacks is_space s → trimmed s.
Proof. intros H. split; [by apply lstrip_lacks|by apply rstrip_lacks]. Qed.

Lemma strip_space_first s : trimmed s → strip (String space s) = s.
Proof. intros H. unfold strip, strip_by. cbn [lstrip_by]. assert (is_space space = true) as -> by reflexivity. by apply trimmed_strip. Qed.

(** ** Fields *)

Definition field_text (f : string * string) : string := f.1 +:+ String colon (String space f.2).

(** What stripping a field leaves of what follows the colon. *)
Definition field_tail (v : string) : string := if is_empty v then "" else String space v.

Record field_ok (f : string * string) : Prop := {
  key_plain : lacks (λ c, is_space c || bool_decide (c = colon)) f.1;
  value_trimmed : trimmed f.2 }.

Lemma key_char f c : field_ok f → has_char c f.1 = true → is_space c = false ∧ c ≠ colon.
Proof. intros [Hk _] Hc. apply Hk in Hc. apply orb_false_iff in Hc as [? ?]. bool_to_prop. done. Qed.

Lemma colon_not_space : is_space colon = false.
Proof. reflexivity. Qed.

Lemma rstrip_tail v : trimmed v → rstrip_by is_space (String space v) = field_tail v.
Proof.
  intros [_ Hr]. unfold field_tail, is_empty. case_bool_decide as E; [by subst|]. rewrite rstrip_cons; by rewrite Hr.
Qed.

Lemma rstrip_field f : field_ok f → rstrip_by is_space (field_text f) = f.1 +:+ String colon (field_tail f.2).
Proof.
  intros [_ Hv]. unfold field_text.
  assert (E : rstrip_by is_space (String colon (String space f.2)) = String colon (field_tail f.2))
    by by rewrite rstrip_keep, rstrip_tail.
  rewrite rstrip_app by by rewrite E. by rewrite E.
Qed.

Lemma lstrip_field f rest : field_ok f → lstrip_by is_space (f.1 +:+ String colon rest) = f.1 +:+ String colon rest.
Proof.
  intros Hf. destruct f as [[|c k] v]; [done|]. cbn [fst]. rewrite append_cons. apply lstrip_ok.
  eapply (key_char (String c k, v) c Hf). cbn. by rewrite bool_decide_true.
Qed.

Lemma strip_field f : field_ok f → strip (field_text f) = f.1 +:+ String colon (field_tail f.2).
Proof. intros Hf. unfold strip, strip_by. rewrite <-rstrip_field by done. f_equal. by apply lstrip_field. Qed.

Lemma rstrip_tail_idem f : field_ok f →
  rstrip_by is_space (f.1 +:+ String colon (field_tail f.2)) = f.1 +:+ String colon (field_tail f.2).
Proof.
  intros [_ Hv]. destruct (decide (f.2 = "")) as [E|E].
  - unfold field_tail, is_empty. rewrite bool_decide_true by done. by apply rstrip_last.
  - assert (Et : field_tail f.2 = String space f.2) by (unfold field_tail, is_empty; by rewrite bool_decide_false).
    rewrite Et. assert (Er : rstrip_by is_space (String colon (String space f.2)) = String colon (String space f.2)).
    { rewrite rstrip_cons; rewrite rstrip_tail by done; by rewrite Et. }
    rewrite rstrip_app; by rewrite Er.
Qed.

Lemma strip_field_again f : field_ok f → strip (f.1 +:+ String colon (field_tail f.2)) = f.1 +:+ String colon (field_tail f.2).
Proof. intros Hf. unfold strip, strip_by. by rewrite lstrip_field, rstrip_tail_idem. Qed.

(** Taking a stripped field apart. *)
Lemma partition_field f : field_ok f →
  partition_on colon (f.1 +:+ String colon (field_tail f.2)) = Some (f.1, field_tail f.2) ∧
  strip f.1 = f.1 ∧ strip (field_tail f.2) = f.2.
Proof.
  intros Hf. split_and!.
  - apply partition_on_app. intros c Hc. apply bool_decide_eq_false. by eapply key_char.
  - apply strip_lacks. intros c Hc. by eapply key_char.
  - destruct Hf as [_ Hv]. unfold field_tail, is_empty. case_bool_decide as E; [by rewrite E|]. by apply strip_space_first.
Qed.

(** ** A line of fields, joined by [sep] *)

Section line.
Context (sep : Ascii.ascii) (Hsep : is_space sep = true).

Definition line_text (fs : list (string * string)) : string := join (String sep "") (map field_text fs).

(** The parts of the line once it is stripped: the last one loses its trailing space. *)
Fixpoint stripped_parts (fs : list (string * string)) : list string :=
  match fs with
  | [] => []
  | [f] => [f.1 +:+ String colon (field_tail f.2)]
  | f :: fs => field_text f :: stripped_parts fs
  end.

Lemma stripped_parts_first f fs : ∃ rest, join (String sep "") (stripped_parts (f :: fs)) = f.1 +:+ String colon rest.
Proof.
  destruct fs as [|g fs]; cbn [stripped_parts].
  - by eexists.
  - assert (∃ y ys, stripped_parts (g :: fs) = y :: ys) as (y & ys & E) by (destruct fs; cbn; by eauto).
    cbn [stripped_parts] in E. rewrite E, join_cons. unfold field_text. rewrite app_assoc_str, append_cons. by eexists.
Qed.

Lemma stripped_parts_nonempty f fs : join (String sep "") (stripped_parts (f :: fs)) ≠ "".
Proof. destruct (stripped_parts_first f fs) as [rest ->]. by destruct f as [[|] ?]. Qed.

Lemma rstrip_line f fs : (∀ g, g ∈ f :: fs → field_ok g) →
  rstrip_by is_space (line_text (f :: fs)) = join (String sep "") (stripped_parts (f :: fs)).
Proof.
  revert f. induction fs as [|g fs IH]; intros f Hok; [apply rstrip_field, Hok; by left|].
  unfold line_text in *. cbn [map] in *. rewrite join_cons. change (stripped_parts (f :: g :: fs)) with (field_text f :: stripped_parts (g :: fs)).
  assert (E : rstrip_by is_space (String sep (join (String sep "") (field_text g :: map field_text fs))) =
              String sep (join (String sep "") (stripped_parts (g :: fs)))).
  { rewrite <-IH by (intros; apply Hok; by right). apply rstrip_cons.
    rewrite IH by (intros; apply Hok; by right). apply stripped_parts_nonempty. }
  rewrite rstrip_app; rewrite E; [|done]. by destruct fs.
Qed.

Lemma strip_line f fs : (∀ g, g ∈ f :: fs → field_ok g) →
  strip (line_text (f :: fs)) = join (String sep "") (stripped_parts (f :: fs)).
Proof.
  intros Hok. unfold strip, strip_by. rewrite <-rstrip_line by done. f_equal.
  assert (∃ rest, line_text (f :: fs) = f.1 +:+ String colon rest) as [rest ->].
  { unfold line_text. destruct fs; cbn [map]; [by eexists|]. rewrite join_cons. unfold field_text at 1. rewrite app_assoc_str, append_cons. by eexists. }
  apply lstrip_field, Hok. by left.
Qed.

(** Each part strips to the text of its field. *)
Lemma stripped_parts_spec fs : (∀ g, g ∈ fs → field_ok g) →
  Forall2 (λ part f, strip part = f.1 +:+ String colon (field_tail f.2)) (stripped_parts fs) fs.
Proof.
  induction fs as [|f [|g fs] IH]; intros Hok; [constructor|constructor; [|constructor]|constructor; [|apply IH]].
  - apply strip_field_again, Hok. by left.
  - apply strip_field, Hok. by left.
  - intros h Hh. apply Hok. by right.
Qed.

Lemma field_text_lacks p f : p colon = false → p space = false → lacks p f.1 → lacks p f.2 → lacks p (field_text f).
Proof. intros Hc Hs H1 H2. apply lacks_app; [done|]. apply lacks_cons. split; [done|]. by apply lacks_cons. Qed.

Lemma line_lacks p fs : p sep = false → p colon = false → p space = false →
  (∀ f, f ∈ fs → lacks p f.1 ∧ lacks p f.2) → lacks p (line_text fs).
Proof.
  intros Hs Hc Hsp H. apply lacks_join; [done|]. intros x (f & -> & Hf)%elem_of_map. destruct (H f Hf). by apply field_text_lacks.
Qed.

Lemma split_line f fs : sep ≠ colon → sep ≠ space → (∀ g, g ∈ f :: fs → lacks (λ d, bool_decide (d = sep)) g.1 ∧ lacks (λ d, bool_decide (d = sep)) g.2) →
  split_on sep (join (String sep "") (stripped_parts (f :: fs))) = stripped_parts (f :: fs).
Proof.
  intros Hc Hs H. apply split_on_join; [by destruct fs|].
  assert (Hcd : bool_decide (colon = sep) = false) by (apply bool_decide_eq_false; congruence).
  assert (Hsd : bool_decide (space = sep) = false) by (apply bool_decide_eq_false; congruence).
  revert f H. induction fs as [|g fs IH]; intros f H x Hx.
  - apply list_elem_of_singleton in Hx as ->. destruct (H f) as [H1 H2]; [by left|].
    apply lacks_app; [done|]. apply lacks_cons. split; [done|]. unfold field_tail. destruct (is_empty f.2); [intros c Hd; done|by apply lacks_cons].
  - change (stripped_parts (f :: g :: fs)) with (field_text f :: stripped_parts (g :: fs)) in Hx.
    apply elem_of_cons in Hx as [->|Hx].
    + destruct (H f) as [H1 H2]; [by left|]. by apply field_text_lacks.
    + eapply IH; [|exact Hx]. intros h Hh. apply H. by right.
Qed.
End line.

Lemma starts_with_app p s : starts_with p (p +:+ s) = true.
Proof. induction p as [|c p IH]; [by destruct s|]. rewrite append_cons. cbn [starts_with]. by rewrite bool_decide_true. Qed.

Lemma strip_space_ahead c s : is_space c = true → strip (String c s) = strip s.
Proof. intros H. unfold strip, strip_by. cbn [lstrip_by]. by rewrite H. Qed.
End TextLines.
