(* ===== verification/KafkaReplication.v ===== *)
(** * Replication of Kafka topics

    shared/libs/python-common/kafka_replication.py: reading what kafka-topics
    reports, finding topics with too few replicas, and the plan that restores
    them; scripts/kafka_replication.py runs it.  The tools' output is a
    parameter of the model; [describe] prints it in the documented format, so
    that reading it back can be stated. *)

From Stdlib Require Import Ascii.
From S2P Require Import Prelude PyValue PyJson PyText TextLines.
Import PyJson PyText TextLines.

Module KafkaReplication.

Definition TARGET_REPLICATION_FACTOR : Z := 3.
Definition TARGET_MIN_INSYNC_REPLICAS : Z := 2.

(** Partition to brokers, in the order the dictionaries were filled. *)
Record Topic := { name : string; partitions : list (Z * list Z); isr : list (Z * list Z) }.

Definition size (replicas : list Z) : Z := Z.of_nat (length replicas).

Definition replication_factor (t : Topic) : Z :=
  match partitions t with
  | [] => 0
  | p :: ps => foldl (λ acc q, Z.min acc (size q.2)) (size p.2) ps
  end.

Definition under_replicated_partitions (t : Topic) (target : Z) : list Z :=
  sort_le Z.leb (omap (λ '(p, r), if size r <? target then Some p else None) (partitions t)).

Definition out_of_sync_partitions (t : Topic) : list Z :=
  sort_le Z.leb (omap (λ '(p, replicas), if size (default replicas (dict_get (isr t) p)) <? size replicas then Some p else None) (partitions t)).

(** ** Reading [kafka-topics --describe] *)

(** The fields of one line. *)
Definition add_field (fields : list (string * string)) (part : string) : list (string * string) :=
  match partition_on colon (strip part) with
  | Some (key, value) => dict_set fields (strip key) (strip value)
  | None => fields
  end.

Definition fields_of (line : string) : list (string * string) := foldl add_field [] (split_on tab line).

(** [_int_list]; [None] is the [ValueError]. *)
Definition _int_list (value : string) : option (list Z) :=
  mapM (parse_int 10) (List.filter (λ v, negb (is_empty (strip v))) (split_on comma value)).

Definition set_partition (p : Z) (replicas in_sync : list Z) (t : Topic) : Topic :=
  {| name := name t; partitions := dict_set (partitions t) p replicas; isr := dict_set (isr t) p in_sync |}.

Definition has_topic (n : string) (topics : list Topic) : bool := existsb (λ t, name t =?s n) topics.

(** One line of the report; [topics] are the values of [topics] in [order]. *)
Definition read_line (topics : list Topic) (raw : string) : option (list Topic) :=
  let line := strip raw in
  if is_empty line || negb (starts_with "Topic:" line) then Some topics
  else
    let fields := fields_of line in
    match dict_get fields "Topic" with
    | None => Some topics
    | Some n =>
        let topics := if has_topic n topics then topics else topics ++ [{| name := n; partitions := []; isr := [] |}] in
        match dict_get fields "Partition" with
        | None => Some topics
        | Some p =>
            partition ← parse_int 10 p;
            replicas ← _int_list (default "" (dict_get fields "Replicas"));
            in_sync ← _int_list (default "" (dict_get fields "Isr"));
            Some (update_where (λ t, name t =?s n) (set_partition partition replicas in_sync) topics)
        end
    end.

Fixpoint read_lines (topics : list Topic) (lines : list string) : option (list Topic) :=
  match lines with
  | [] => Some topics
  | line :: lines => topics ← read_line topics line; read_lines topics lines
  end.

Definition parse_describe (output : string) : option (list Topic) := read_lines [] (splitlines output).

Definition is_internal (name : string) : bool := starts_with "__" name || starts_with "_" name.

(** ** Planning *)

Definition find_under_replicated (topics : list Topic) (target : Z) : list Topic :=
  List.filter (λ t, replication_factor t <? target) topics.

(** [ordered[(start + i) % len(ordered)]] *)
Definition broker_at (ordered : list Z) (k : Z) : Z := default 0 (ordered !! Z.to_nat (k mod Z.of_nat (length ordered))).

Definition plan_replicas (partition : Z) (brokers : list Z) (target : Z) : string + list Z :=
  if size brokers <? target
  then inl ("cannot place " +:+ dec target +:+ " replicas on " +:+ dec (size brokers) +:+
            " broker(s): a partition may not have two replicas on one broker")
  else if bool_decide (brokers = []) then inl "integer modulo by zero"
  else
    let ordered := sort_le Z.leb brokers in
    let start := partition mod Z.of_nat (length ordered) in
    inr (map (λ i, broker_at ordered (start + Z.of_nat i)) (seq 0 (Z.to_nat target))).

Record assignment := { as_topic : string; as_partition : Z; as_replicas : list Z }.

Definition plan_topic (brokers : list Z) (target : Z) (t : Topic) : string + list assignment :=
  foldr (λ p acc,
    match plan_replicas p brokers target, acc with
    | inr rs, inr l => inr ({| as_topic := name t; as_partition := p; as_replicas := rs |} :: l)
    | inl e, _ => inl e
    | _, inl e => inl e
    end) (inr []) (sort_le Z.leb (partitions t).*1).

Definition plan_reassignment (topics : list Topic) (brokers : list Z) (target : Z) : string + list assignment :=
  foldr (λ t acc,
    match plan_topic brokers target t, acc with
    | inr l, inr l' => inr (l ++ l')
    | inl e, _ => inl e
    | _, inl e => inl e
    end) (inr []) (sort_by name topics).

(** [f"...partitions={[...]}"] *)
Definition show_ints (l : list Z) : string := "[" +:+ join ", " (map dec l) +:+ "]".

Definition summarise (topics : list Topic) (target : Z) : string :=
  let under := find_under_replicated topics target in
  let out_of_sync := List.filter (λ t, negb (bool_decide (out_of_sync_partitions t = []))) topics in
  let head := dec (Z.of_nat (length topics)) +:+ " topic(s), target replication factor " +:+ dec target in
  join (String newline "")
    (if bool_decide (under = []) && bool_decide (out_of_sync = [])
     then [head; "  all topics have " +:+ dec target +:+ " replicas and a full ISR"]
     else head ::
       map (λ t, "  UNDER-REPLICATED  " +:+ name t +:+ ": rf=" +:+ dec (replication_factor t) +:+
                 " partitions=" +:+ show_ints (under_replicated_partitions t target)) under ++
       map (λ t, "  OUT-OF-SYNC       " +:+ name t +:+ ": partitions=" +:+ show_ints (out_of_sync_partitions t)) out_of_sync).

(** ** The script (scripts/kafka_replication.py) *)

Definition BROKERS : list Z := [1; 2; 3].

(** What [--fix] submits, given the brokers ZooKeeper lists. *)
Definition fix_plan (live : list Z) (topics : list Topic) : string + list assignment :=
  if size live <? TARGET_REPLICATION_FACTOR
  then inl ("refusing to plan " +:+ dec TARGET_REPLICATION_FACTOR +:+ " replicas with " +:+ dec (size live) +:+
            " broker(s) up -- start them all first")
  else plan_reassignment (find_under_replicated topics TARGET_REPLICATION_FACTOR) BROKERS TARGET_REPLICATION_FACTOR.

(** The topic once Kafka has carried a plan out. *)
Definition reassigned (plan : list assignment) (t : Topic) : Topic :=
  {| name := name t; isr := isr t;
     partitions := map (λ '(p, rs),
       (p, match List.find (λ a, (as_topic a =?s name t) && (as_partition a =? p)) plan with
           | Some a => as_replicas a | None => rs end)) (partitions t) |}.

(** *** The report itself, in the format parse_describe documents *)

Definition csv (l : list Z) : string := join (String comma "") (map dec l).

Definition leader_text (replicas : list Z) : string := match replicas with b :: _ => dec b | [] => "none" end.

Definition header_fields (config : list (string * string)) (t : Topic) : list (string * string) := ("Topic", name t) :: config.

Definition partition_fields (t : Topic) (e : Z * list Z) : list (string * string) :=
  [("Topic", name t); ("Partition", dec e.1); ("Leader", leader_text e.2); ("Replicas", csv e.2);
   ("Isr", csv (default [] (dict_get (isr t) e.1)))].

Definition report_lines (config : Topic → list (string * string)) (t : Topic) : list string :=
  line_text tab (header_fields (config t) t) :: map (λ e, String tab (line_text tab (partition_fields t e))) (partitions t).

Definition describe (config : Topic → list (string * string)) (topics : list Topic) : string :=
  lines_text (concat (map (report_lines config) topics)).

(** ** The plan is right *)

Section placing.
Context (brokers : list Z).

Lemma broker_at_lookup ordered k : ordered ≠ [] →
  ordered !! Z.to_nat (k mod Z.of_nat (length ordered)) = Some (broker_at ordered k).
Proof.
  intros Hne. unfold broker_at. assert (0 < length ordered)%nat by (destruct ordered; cbn; [done|lia]).
  destruct (ordered !! _) eqn:E; [done|]. apply lookup_ge_None in E.
  pose proof (Z.mod_pos_bound k (Z.of_nat (length ordered)) ltac:(lia)). lia.
Qed.

Lemma broker_at_elem ordered k : ordered ≠ [] → broker_at ordered k ∈ ordered.
Proof. intros Hne. eapply list_elem_of_lookup_2, broker_at_lookup, Hne. Qed.

(** Consecutive places hold different brokers until the list wraps around. *)
Lemma broker_at_inj ordered s i j : NoDup ordered → ordered ≠ [] → (i < length ordered)%nat → (j < length ordered)%nat →
  broker_at ordered (s + Z.of_nat i) = broker_at ordered (s + Z.of_nat j) → i = j.
Proof.
  intros Hnd Hne Hi Hj E. pose proof (broker_at_lookup ordered (s + Z.of_nat i) Hne) as E1.
  pose proof (broker_at_lookup ordered (s + Z.of_nat j) Hne) as E2. rewrite E in E1.
  pose proof (NoDup_lookup _ _ _ _ Hnd E1 E2) as Em.
  set (n := Z.of_nat (length ordered)) in *. assert (0 < n) by lia.
  pose proof (Z.mod_pos_bound (s + Z.of_nat i) n ltac:(lia)). pose proof (Z.mod_pos_bound (s + Z.of_nat j) n ltac:(lia)).
  assert (Hm : (s + Z.of_nat i) mod n = (s + Z.of_nat j) mod n) by lia.
  pose proof (Z.div_mod (s + Z.of_nat i) n ltac:(lia)) as D1. pose proof (Z.div_mod (s + Z.of_nat j) n ltac:(lia)) as D2.
  rewrite Hm in D1. set (q1 := (s + Z.of_nat i) / n) in *. set (q2 := (s + Z.of_nat j) / n) in *.
  set (r := (s + Z.of_nat j) mod n) in *. clearbody q1 q2 r. assert (q1 = q2) by nia. nia.
Qed.

Lemma broker_at_mod ordered s k : ordered ≠ [] → broker_at ordered (s mod Z.of_nat (length ordered) + k) = broker_at ordered (s + k).
Proof.
  intros Hne. unfold broker_at. assert (0 < length ordered)%nat by (destruct ordered; cbn; [done|lia]).
  by rewrite Z.add_mod_idemp_l by lia.
Qed.

Definition placed (partition target : Z) : list Z :=
  map (λ i, broker_at (sort_le Z.leb brokers) (partition + Z.of_nat i)) (seq 0 (Z.to_nat target)).

Lemma sorted_perm : sort_le Z.leb brokers ≡ₚ brokers.
Proof. apply sort_le_perm. Qed.

Lemma sorted_ne : brokers ≠ [] → sort_le Z.leb brokers ≠ [].
Proof. intros Hne E. apply Hne. apply Permutation_nil_r. rewrite <- E. symmetry. apply sorted_perm. Qed.

Lemma plan_placed partition target : brokers ≠ [] → target ≤ size brokers → plan_replicas partition brokers target = inr (placed partition target).
Proof.
  intros Hne Ht. unfold plan_replicas, placed. rewrite (proj2 (Z.ltb_ge _ _)) by done. rewrite bool_decide_false by done. f_equal.
  apply map_ext. intros i. by apply broker_at_mod, sorted_ne.
Qed.

Lemma placed_ok partition target : NoDup brokers → brokers ≠ [] → 0 ≤ target ≤ size brokers →
  size (placed partition target) = target ∧ NoDup (placed partition target) ∧ placed partition target ⊆ brokers.
Proof.
  intros Hnd Hne Ht. unfold size, placed in *.
  assert (Hlen : length (sort_le Z.leb brokers) = length brokers) by apply Permutation_length, sorted_perm.
  split_and!.
  - rewrite length_map, length_seq. lia.
  - apply NoDup_fmap_2_strong; [|apply NoDup_seq]. intros i j Hi Hj. apply elem_of_seq in Hi, Hj.
    apply broker_at_inj; [by rewrite sorted_perm|by apply sorted_ne|lia|lia].
  - intros b (i & -> & _)%elem_of_map. eapply elem_of_Permutation_proper; [symmetry; apply sorted_perm|]. by apply broker_at_elem, sorted_ne.
Qed.

(** Any run of as many partitions as there are brokers is led by each once. *)
Lemma leaders_spread partition target : NoDup brokers → brokers ≠ [] → 0 < target ≤ size brokers →
  map (λ i, head (placed (partition + Z.of_nat i) target)) (seq 0 (length brokers)) ≡ₚ map Some brokers.
Proof.
  intros Hnd Hne Ht.
  assert (E : map (λ i, head (placed (partition + Z.of_nat i) target)) (seq 0 (length brokers)) = map Some (placed partition (size brokers))).
  { unfold placed, size. rewrite Nat2Z.id, map_map. apply map_ext. intros i.
    destruct (Z.to_nat target) eqn:En; [lia|]. cbn. by rewrite Z.add_0_r. }
  rewrite E. apply fmap_Permutation. destruct (placed_ok partition (size brokers) Hnd Hne) as (Hs & Hn & Hsub); [lia|].
  apply submseteq_length_Permutation; [by apply NoDup_submseteq|]. unfold size in *. lia.
Qed.

(** *** What a plan contains *)

Definition assign (target : Z) (t : Topic) (p : Z) : assignment :=
  {| as_topic := name t; as_partition := p; as_replicas := placed p target |}.

Definition topic_plan (target : Z) (t : Topic) : list assignment := map (assign target t) (sort_le Z.leb (partitions t).*1).

Lemma plan_topic_eq target t : brokers ≠ [] → target ≤ size brokers → plan_topic brokers target t = inr (topic_plan target t).
Proof.
  intros Hne Ht. unfold plan_topic, topic_plan. induction (sort_le _ _) as [|p ps IH]; [done|].
  cbn [foldr]. by rewrite IH, plan_placed.
Qed.

Lemma plan_reassignment_eq topics target : brokers ≠ [] → target ≤ size brokers →
  plan_reassignment topics brokers target = inr (concat (map (topic_plan target) (sort_by name topics))).
Proof.
  intros Hne Ht. unfold plan_reassignment. induction (sort_by _ _) as [|t ts IH]; [done|].
  cbn [foldr]. by rewrite IH, plan_topic_eq.
Qed.

Lemma elem_plan topics target a : a ∈ concat (map (topic_plan target) (sort_by name topics)) ↔
  ∃ t p, t ∈ topics ∧ p ∈ (partitions t).*1 ∧ a = assign target t p.
Proof.
  rewrite elem_of_concat_map. unfold topic_plan. split.
  - intros (t & Ht & Ha). rewrite sort_by_perm in Ht. apply elem_of_map in Ha as (p & -> & Hp). rewrite sort_le_perm in Hp. by exists t, p.
  - intros (t & p & Ht & Hp & ->). exists t. rewrite sort_by_perm. split; [done|]. apply elem_of_map. exists p. by rewrite sort_le_perm.
Qed.

Definition target_of (plan : list assignment) (n : string) (p : Z) : option assignment :=
  List.find (λ a, (as_topic a =?s n) && (as_partition a =? p)) plan.

Lemma planned topics target t p : t ∈ topics → p ∈ (partitions t).*1 →
  ∃ a, target_of (concat (map (topic_plan target) (sort_by name topics))) (name t) p = Some a ∧ as_replicas a = placed p target.
Proof.
  intros Ht Hp. unfold target_of. destruct (List.find _ _) as [a|] eqn:E.
  - exists a. split; [done|]. apply find_elem in E as [(t' & p' & _ & _ & ->)%elem_plan Hm]. cbn in *. bool_to_prop. by subst.
  - eapply find_none_elem in E; [|apply elem_plan; by eauto 6]. cbn in E. rewrite bool_decide_true, Z.eqb_refl in E by done. done.
Qed.

Lemma unplanned topics target t p : NoDup (map name topics) → t ∈ topics → target ≤ replication_factor t →
  target_of (concat (map (topic_plan target) (sort_by name (find_under_replicated topics target)))) (name t) p = None.
Proof.
  intros Hnd Ht Hrf. unfold target_of. destruct (List.find _ _) as [a|] eqn:E; [|done]. exfalso.
  apply find_elem in E as [(t' & p' & Hu & _ & ->)%elem_plan Hm]. cbn in Hm. bool_to_prop.
  unfold find_under_replicated in Hu. apply elem_of_filter_bool in Hu as [Hu Hlt].
  assert (t' = t) as -> by (eapply map_key_inj; by eauto). lia.
Qed.

Lemma dict_get_map (f : Z → list Z → list Z) (d : list (Z * list Z)) k :
  dict_get (map (λ '(p, rs), (p, f p rs)) d) k = f k <$> dict_get d k.
Proof. induction d as [|[q rs] d IH]; [done|]. cbn [map dict_get]. by destruct (decide (k = q)) as [->|]. Qed.

Lemma factor_ge t target : partitions t ≠ [] → (∀ q, q ∈ partitions t → target ≤ size q.2) → target ≤ replication_factor t.
Proof.
  unfold replication_factor. destruct (partitions t) as [|p ps]; [done|]. intros _ H.
  assert (H0 : target ≤ size p.2) by (apply H; by left). assert (Hs : ∀ q, q ∈ ps → target ≤ size q.2) by (intros; apply H; by right).
  clear H. revert H0. generalize (size p.2). induction ps as [|q ps IH]; intros m Hm; [done|]. cbn [foldl].
  apply IH; [intros; apply Hs; by right|]. pose proof (Hs q (list_elem_of_here _ _)). lia.
Qed.

Lemma reassigned_partitions topics target t : t ∈ topics →
  partitions (reassigned (concat (map (topic_plan target) (sort_by name topics))) t) =
  map (λ '(p, rs), (p, placed p target)) (partitions t).
Proof.
  intros Ht. cbn. apply map_ext_in. intros [p rs] Hp%list_elem_of_In. f_equal.
  destruct (planned topics target t p Ht) as (a & Ea & Ha); [by apply (list_elem_of_fmap_2 fst _ (p, rs))|].
  unfold target_of in Ea. by rewrite Ea.
Qed.
End placing.

(** *** The cluster after a plan *)

(** Who leads partition [p]: the first broker of its list. *)
Definition leader (t : Topic) (p : Z) : option Z := dict_get (partitions t) p ≫= head.

(** The plan made for the under-replicated topics repairs them: once it is
    carried out no topic is under-replicated, every partition of a replanned
    topic is on exactly [target] different brokers of the list, any run of as
    many consecutive partitions as there are brokers is led by each broker
    once, and the topics that had enough replicas keep theirs. *)
Theorem reassignment_restores_replication (topics : list Topic) (brokers : list Z) (target : Z) :
  NoDup brokers → 0 < target ≤ size brokers → NoDup (map name topics) → (∀ t, t ∈ topics → partitions t ≠ []) →
  ∃ plan, plan_reassignment (find_under_replicated topics target) brokers target = inr plan ∧
    find_under_replicated (map (reassigned plan) topics) target = [] ∧
    (∀ t, t ∈ topics → target ≤ replication_factor t → reassigned plan t = t) ∧
    ∀ t, t ∈ find_under_replicated topics target →
      (∀ p rs, (p, rs) ∈ partitions (reassigned plan t) → size rs = target ∧ NoDup rs ∧ rs ⊆ brokers) ∧
      ∀ start, (∀ i, (i < length brokers)%nat → start + Z.of_nat i ∈ (partitions t).*1) →
        map (λ i, leader (reassigned plan t) (start + Z.of_nat i)) (seq 0 (length brokers)) ≡ₚ map Some brokers.
Proof.
  intros Hnd Ht Hn Hpar. assert (Hne : brokers ≠ []) by (intros ->; unfold size in Ht; cbn in Ht; lia).
  eexists. split; [apply plan_reassignment_eq; [done|lia]|].
  set (plan := concat _). set (under := find_under_replicated topics target) in *.
  assert (Hparts : ∀ t, t ∈ under → partitions (reassigned plan t) = map (λ '(p, rs), (p, placed brokers p target)) (partitions t))
    by (intros; by apply reassigned_partitions).
  assert (Hkeep : ∀ t, t ∈ topics → target ≤ replication_factor t → reassigned plan t = t).
  { intros t Hin Hrf. destruct t as [n ps ins]. unfold reassigned. f_equal. cbn [name partitions isr].
    rewrite <- (map_id ps) at 2. apply map_ext. intros [p rs].
    pose proof (unplanned brokers topics target _ p Hn Hin Hrf) as E. unfold target_of in E. cbn [name] in E.
    subst plan under. by rewrite E. }
  assert (Hok : ∀ t p rs, t ∈ under → (p, rs) ∈ partitions (reassigned plan t) → size rs = target ∧ NoDup rs ∧ rs ⊆ brokers).
  { intros t p rs Hu Hp. rewrite Hparts in Hp by done. apply elem_of_map in Hp as ([q rs'] & [= -> ->] & _). apply placed_ok; [done..|lia]. }
  split_and!; [|done|].
  - apply filter_none. intros t' (t & -> & Hin)%elem_of_map. apply Z.ltb_ge.
    destruct (Z.lt_ge_cases (replication_factor t) target) as [Hlt|Hge]; [|by rewrite Hkeep].
    assert (Hu : t ∈ under) by (apply elem_of_filter_bool; split; [done|by apply Z.ltb_lt]).
    apply factor_ge; [intros E; apply (Hpar t Hin); by apply (fmap_nil_inv _ _ E)|].
    intros [p rs] Hp. destruct (Hok t p rs Hu Hp) as [E _]. cbn. lia.
  - intros t Hu. split; [intros p rs; exact (Hok t p rs Hu)|]. intros start Hrun.
    rewrite (map_ext_in _ (λ i, head (placed brokers (start + Z.of_nat i) target))); [by apply leaders_spread|].
    intros i Hi%list_elem_of_In%elem_of_seq.
    unfold leader. rewrite Hparts, dict_get_map by done.
    destruct (proj2 (dict_get_is_Some (partitions t) (start + Z.of_nat i)) ltac:(apply Hrun; lia)) as [rs ->]. done.
Qed.

(** ** The report reads back *)

Section reading.
Context (config : Topic → list (string * string)).

(** What Kafka promises of a topic: a name without white space, a different
    number for each partition, an in-sync list for each, and header fields that
    do not look like the topic's or a partition's. *)
Record topic_ok (t : Topic) : Prop := {
  name_plain : lacks is_space (name t);
  partitions_distinct : NoDup (partitions t).*1;
  isr_complete : (isr t).*1 = (partitions t).*1;
  config_ok : ∀ f, f ∈ config t → field_ok f ∧ lacks is_line_break f.2 ∧ has_char tab f.2 = false;
  config_distinct : NoDup (config t).*1;
  config_apart : "Topic" ∉ (config t).*1 ∧ "Partition" ∉ (config t).*1 }.

(** A field that fits on a line of the report. *)
Definition fits (f : string * string) : Prop :=
  field_ok f ∧ lacks is_line_break f.2 ∧ has_char tab f.2 = false.

Lemma fits_plain k v : lacks (λ c, is_space c || bool_decide (c = colon)) k → lacks is_space v → fits (k, v).
Proof.
  intros Hk Hv. split_and!; [split; [done|by apply lacks_trimmed]| |].
  - intros c Hc. by apply space_line_break, Hv.
  - destruct (has_char tab v) eqn:E; [|done]. by apply Hv in E.
Qed.

Lemma csv_no_space l : lacks is_space (csv l).
Proof. apply lacks_join; [done|]. intros x (z & -> & _)%elem_of_map. apply dec_no_space. Qed.

Lemma fits_literal k v : forallb (λ c, negb (is_space c || bool_decide (c = colon))) (String.list_ascii_of_string k) = true →
  lacks is_space v → fits (k, v).
Proof.
  intros Hk. by apply fits_plain, lacks_literal.
Qed.

Lemma partition_fits t e f : lacks is_space (name t) → f ∈ partition_fields t e → fits f.
Proof.
  intros Hn Hf. unfold partition_fields in Hf. elem_cases Hf; (apply fits_literal; [reflexivity|]);
    [done|apply dec_no_space| |apply csv_no_space|apply csv_no_space].
  destruct (e.2); cbn; [|apply dec_no_space]. intros c Hc. cbn in Hc. repeat case_bool_decide; by subst.
Qed.

Lemma header_fits t f : topic_ok t → f ∈ header_fields (config t) t → fits f.
Proof. intros Ht [->|Hf]%elem_of_cons; [apply fits_literal; [reflexivity|apply Ht]|by apply (config_ok t Ht)]. Qed.

Lemma fits_no_tab f : fits f → lacks (λ d, bool_decide (d = tab)) f.1 ∧ lacks (λ d, bool_decide (d = tab)) f.2.
Proof.
  intros (Hok & _ & Htab). split; [|by apply lacks_char]. intros c Hc. apply bool_decide_eq_false. intros ->.
  by destruct (key_char f tab Hok Hc).
Qed.

Lemma fits_one_line fs : (∀ f, f ∈ fs → fits f) → lacks is_line_break (line_text tab fs).
Proof.
  intros H. apply line_lacks; [done..|]. intros f Hf. destruct (H f Hf) as (Hok & Hl & _). split; [|done].
  intros c Hc. by apply space_line_break, (key_char f c Hok).
Qed.

(** Reading the fields of a stripped line. *)
Lemma fields_of_line f fs : (∀ g, g ∈ f :: fs → fits g) → NoDup (f :: fs).*1 → fields_of (strip (line_text tab (f :: fs))) = f :: fs.
Proof.
  intros Hok Hnd. rewrite strip_line by (intros; by apply Hok). unfold fields_of.
  rewrite split_line by first [intros; by apply fits_no_tab, Hok | vm_compute; discriminate].
  assert (G : ∀ parts fs d, Forall2 (λ part f, strip part = f.1 +:+ String colon (field_tail f.2)) parts fs →
    (∀ g, g ∈ fs → fits g) → NoDup (d ++ fs).*1 → foldl add_field d parts = d ++ fs).
  { clear. intros parts fs d HF. revert d. induction HF as [|part g parts fs E _ IH]; intros d Hok Hnd; [by rewrite app_nil_r|].
    cbn [foldl]. destruct (partition_field g) as (E1 & E2 & E3); [by apply Hok; left|]. unfold add_field at 2. rewrite E, E1, E2, E3.
    assert (Hg : g.1 ∉ d.*1) by (rewrite fmap_app in Hnd; apply NoDup_app in Hnd as (_ & Hd & _); intros Hin; eapply Hd; [done|by left]).
    rewrite dict_set_new by done. rewrite <-(surjective_pairing g), IH; [by rewrite <-app_assoc|intros; apply Hok; by right|].
    by rewrite <-app_assoc. }
  apply (G _ (f :: fs) []); [by apply stripped_parts_spec; intros; apply Hok|done|done].
Qed.

Lemma int_list_csv l : _int_list (csv l) = Some l.
Proof.
  unfold _int_list, csv. destruct l as [|z l]; [reflexivity|].
  assert (Hc : ∀ x, x ∈ map dec (z :: l) → lacks (λ d, bool_decide (d = comma)) x).
  { intros x (y & -> & _)%elem_of_map. intros c Hd. apply bool_decide_eq_false. intros ->. apply dec_digits in Hd. change (code comma) with 44 in Hd. lia. }
  rewrite split_on_join by done. rewrite filter_all.
  - apply mapM_Some_2. apply Forall2_fmap_l, Forall_Forall2_diag, Forall_forall. intros y _. apply parse_int_dec.
  - intros x (y & -> & _)%elem_of_map. rewrite strip_lacks by apply dec_no_space. unfold is_empty. rewrite bool_decide_false; [done|].
    intros E. pose proof (parse_int_dec y) as Hy. by rewrite E in Hy.
Qed.

Lemma read_lines_app topics l1 l2 : read_lines topics (l1 ++ l2) = read_lines topics l1 ≫= λ ts, read_lines ts l2.
Proof. revert topics. induction l1 as [|l l1 IH]; intros topics; [done|]. cbn [read_lines app]. destruct (read_line topics l); cbn; [apply IH|done]. Qed.

Lemma has_topic_false n topics : n ∉ map name topics → has_topic n topics = false.
Proof.
  intros H. apply not_true_iff_false. unfold has_topic. rewrite existsb_exists. intros (t & Ht & E). bool_to_prop.
  apply H, elem_of_map. exists t. by rewrite list_elem_of_In.
Qed.

Lemma has_topic_last n topics x : name x = n → has_topic n (topics ++ [x]) = true.
Proof. intros <-. unfold has_topic. rewrite existsb_app. cbn. by rewrite bool_decide_true, orb_true_r. Qed.

Lemma update_last n g topics x : n ∉ map name topics → name x = n → update_where (λ t, name t =?s n) g (topics ++ [x]) = topics ++ [g x].
Proof.
  intros Hn Hx. unfold update_where. rewrite map_app. cbn. rewrite bool_decide_true by done. f_equal.
  rewrite <- (map_id topics) at 2. apply map_ext_in. intros t Ht. rewrite bool_decide_false; [done|].
  intros E. apply Hn, elem_of_map. exists t. by rewrite list_elem_of_In.
Qed.

(** What [read_line] does with a line that carries a topic's name. *)
Definition read_fields (topics : list Topic) (n : string) (fields : list (string * string)) : option (list Topic) :=
  let topics := if has_topic n topics then topics else topics ++ [{| name := n; partitions := []; isr := [] |}] in
  match dict_get fields "Partition" with
  | None => Some topics
  | Some p =>
      partition ← parse_int 10 p;
      replicas ← _int_list (default "" (dict_get fields "Replicas"));
      in_sync ← _int_list (default "" (dict_get fields "Isr"));
      Some (update_where (λ t, name t =?s n) (set_partition partition replicas in_sync) topics)
  end.

Lemma read_topic_line topics raw n fs : strip raw = strip (line_text tab (("Topic", n) :: fs)) →
  (∀ f, f ∈ ("Topic", n) :: fs → fits f) → NoDup ("Topic" :: fs.*1) → read_line topics raw = read_fields topics n (("Topic", n) :: fs).
Proof.
  intros Hraw Hok Hnd. unfold read_line. rewrite Hraw, fields_of_line by done.
  assert (∃ rest, strip (line_text tab (("Topic", n) :: fs)) = "Topic:" +:+ rest) as [rest ->].
  { rewrite strip_line by (intros; by apply Hok). destruct (stripped_parts_first tab ("Topic", n) fs) as [rest ->].
    by exists rest. }
  rewrite starts_with_app. reflexivity.
Qed.

Lemma read_header topics t : topic_ok t → name t ∉ map name topics →
  read_line topics (line_text tab (header_fields (config t) t)) = Some (topics ++ [{| name := name t; partitions := []; isr := [] |}]).
Proof.
  intros Ht Hn. unfold header_fields. rewrite (read_topic_line topics _ (name t) (config t)); [|done|..].
  - unfold read_fields. rewrite has_topic_false by done. cbn [dict_get].
    destruct (config_apart t Ht) as [_ Hp]. destruct (decide ("Partition" = "Topic")); [done|].
    destruct (dict_get (config t) "Partition") eqn:E; [|done]. destruct Hp. apply dict_get_is_Some. by rewrite E.
  - intros f Hf. by apply (header_fits t).
  - constructor; [apply (config_apart t Ht)|apply (config_distinct t Ht)].
Qed.

Lemma read_partition topics t x e : topic_ok t → name x = name t → name t ∉ map name topics →
  read_line (topics ++ [x]) (String tab (line_text tab (partition_fields t e))) =
  Some (topics ++ [set_partition e.1 e.2 (default [] (dict_get (isr t) e.1)) x]).
Proof.
  intros Ht Hx Hn. rewrite (read_topic_line _ _ (name t) (tail (partition_fields t e))).
  - change (("Topic", name t) :: tail (partition_fields t e)) with (partition_fields t e). unfold read_fields.
    rewrite has_topic_last by done.
    assert (dict_get (partition_fields t e) "Partition" = Some (dec e.1)) as -> by reflexivity.
    assert (dict_get (partition_fields t e) "Replicas" = Some (csv e.2)) as -> by reflexivity.
    assert (dict_get (partition_fields t e) "Isr" = Some (csv (default [] (dict_get (isr t) e.1)))) as -> by reflexivity.
    cbn [from_option id]. rewrite parse_int_dec, !int_list_csv. cbn [mbind option_bind]. by rewrite update_last.
  - by apply strip_space_ahead.
  - intros f Hf. eapply partition_fits; [apply Ht|exact Hf].
  - by_compute.
Qed.

Lemma read_partitions topics t l x : topic_ok t → name x = name t → name t ∉ map name topics →
  read_lines (topics ++ [x]) (map (λ e, String tab (line_text tab (partition_fields t e))) l) =
  Some (topics ++ [foldl (λ x e, set_partition e.1 e.2 (default [] (dict_get (isr t) e.1)) x) x l]).
Proof.
  intros Ht Hx Hn. revert x Hx. induction l as [|e l IH]; intros x Hx; [done|]. cbn [map read_lines].
  rewrite read_partition by done. cbn [mbind option_bind foldl]. by apply IH.
Qed.

Lemma dict_rebuilt (d : list (Z * list Z)) : NoDup d.*1 → (λ k, (k, default [] (dict_get d k))) <$> d.*1 = d.
Proof.
  intros Hd. rewrite <-list_fmap_compose. transitivity (id <$> d); [|apply list_fmap_id]. apply Forall_fmap_ext_1, Forall_forall.
  intros [k v] Hin. cbn. by rewrite (elem_dict_get d k v).
Qed.

Lemma partitions_rebuilt n (side : Z → list Z) l ps is' : NoDup (ps ++ l).*1 → is'.*1 = ps.*1 →
  foldl (λ x e, set_partition e.1 e.2 (side e.1) x) {| name := n; partitions := ps; isr := is' |} l =
  {| name := n; partitions := ps ++ l; isr := is' ++ ((λ k, (k, side k)) <$> l.*1) |}.
Proof.
  revert ps is'. induction l as [|[k v] l IH]; intros ps is' Hnd Hk; [by rewrite !app_nil_r|]. cbn [foldl fst snd].
  assert (Hnew : k ∉ ps.*1).
  { rewrite fmap_app in Hnd. apply NoDup_app in Hnd as (_ & Hd & _). intros Hin. eapply Hd; [done|by left]. }
  unfold set_partition at 2. cbn [name partitions isr]. rewrite !dict_set_new by (done || by rewrite Hk).
  rewrite IH; [by rewrite <-!app_assoc|by rewrite <-app_assoc|by rewrite !fmap_app, Hk].
Qed.

Lemma read_topic topics t : topic_ok t → name t ∉ map name topics →
  read_lines topics (report_lines config t) = Some (topics ++ [t]).
Proof.
  intros Ht Hn. unfold report_lines. cbn [read_lines]. rewrite read_header by done. cbn [mbind option_bind].
  rewrite read_partitions by done. pose proof (partitions_rebuilt (name t) (λ k, default [] (dict_get (isr t) k)) (partitions t) [] []) as E.
  cbn beta in E. rewrite E by (done || by apply partitions_distinct). cbn [app].
  rewrite <- (isr_complete t Ht), dict_rebuilt by (rewrite isr_complete by done; by apply partitions_distinct). by destruct t.
Qed.
End reading.

(** What [kafka-topics --describe] prints is read back to exactly the
    topics it printed: every partition with its replicas, leader first, and its
    in-sync brokers, in the order printed, whatever else the header lines carry. *)
Theorem topic_report_reads_back (config : Topic → list (string * string)) (topics : list Topic) :
  (∀ t, t ∈ topics → topic_ok config t) → NoDup (map name topics) → parse_describe (describe config topics) = Some topics.
Proof.
  intros Hok Hnd. unfold parse_describe, describe. rewrite splitlines_text.
  - assert (G : ∀ acc, NoDup (map name (acc ++ topics)) → read_lines acc (concat (map (report_lines config) topics)) = Some (acc ++ topics)).
    { clear Hnd. induction topics as [|t ts IH]; intros acc Hnd; [by rewrite app_nil_r|]. cbn [map concat].
      rewrite read_lines_app, read_topic; [|apply Hok; by left|].
      - cbn [mbind option_bind]. rewrite IH; [by rewrite <-app_assoc|intros; apply Hok; by right|by rewrite <-app_assoc].
      - rewrite map_app in Hnd. apply NoDup_app in Hnd as (_ & Hd & _). intros Hin. eapply Hd; [done|by left]. }
    by apply (G []).
  - intros l (t & Ht & Hl)%elem_of_concat_map. unfold report_lines in Hl. apply elem_of_cons in Hl as [->|Hl].
    + apply fits_one_line. intros f Hf. eapply header_fits; [by apply Hok|exact Hf].
    + apply elem_of_map in Hl as (e & -> & _). apply lacks_cons. split; [reflexivity|]. apply fits_one_line.
      intros f Hf. eapply partition_fits; [apply (Hok t Ht)|exact Hf].
Qed.

(** Two topics from the one-broker days and one already replicated. *)
Definition orders_topic : Topic := {| name := "orders"; partitions := [(0, [1]); (1, [1]); (2, [1])]; isr := [] |}.
Definition carts_topic : Topic := {| name := "carts"; partitions := [(0, [3; 1; 2])]; isr := [] |}.

Definition sample_config (t : Topic) : list (string * string) :=
  [("PartitionCount", dec (Z.of_nat (length (partitions t)))); ("Configs", "")].

Definition synced_topic : Topic := {| name := "orders"; partitions := [(0, [1; 2]); (1, [2; 1])]; isr := [(0, [1]); (1, [2; 1])] |}.

Lemma synced_topic_ok : topic_ok sample_config synced_topic.
Proof.
  split; [by apply lacks_literal|by_compute|reflexivity| |by_compute|split; by_compute].
  intros f [->|[->|[]%elem_of_nil]%elem_of_cons]%elem_of_cons; apply fits_literal; by (reflexivity || apply lacks_literal).
Qed.

Lemma topic_report_reads_back_witness :
  parse_describe (describe sample_config [synced_topic]) = Some [synced_topic].
Proof.
  apply (topic_report_reads_back sample_config [synced_topic]); [|by_compute].
  intros t [->|[]%elem_of_nil]%elem_of_cons. exact synced_topic_ok.
Defined.

Lemma reassignment_restores_replication_witness :
  ∃ plan, plan_reassignment (find_under_replicated [orders_topic; carts_topic] 3) BROKERS 3 = inr plan ∧
    find_under_replicated (map (reassigned plan) [orders_topic; carts_topic]) 3 = [] ∧
    reassigned plan carts_topic = carts_topic ∧
    (∀ p rs, (p, rs) ∈ partitions (reassigned plan orders_topic) → size rs = 3 ∧ NoDup rs ∧ rs ⊆ BROKERS) ∧
    map (λ i, leader (reassigned plan orders_topic) (0 + Z.of_nat i)) (seq 0 3) ≡ₚ map Some BROKERS.
Proof.
  destruct (reassignment_restores_replication [orders_topic; carts_topic] BROKERS 3) as (plan & Hplan & Hall & Hkeep & Hnew);
    [by_compute|by_compute|by_compute|by intros t [->|[->|[]%elem_of_nil]%elem_of_cons]%elem_of_cons|].
  exists plan. split_and!; [exact Hplan|exact Hall| | |].
  - apply Hkeep; [by right; left|vm_compute; discriminate].
  - exact (proj1 (Hnew orders_topic ltac:(by left))).
  - apply (proj2 (Hnew orders_topic ltac:(by left))). intros i Hi. do 3 (destruct i; [by_compute|]). cbn in Hi. lia.
Defined.

(** The script checks how many brokers are up, and then plans on the three ids
    written in it: with brokers 1, 2 and 4 up it assigns replicas to broker 3. *)
Example plan_may_use_a_dead_broker :
  match fix_plan [1; 2; 4] [orders_topic] with
  | inr plan => existsb (λ a, in_listb 3 (as_replicas a)) plan
  | inl _ => false
  end = true.
Proof. reflexivity. Qed.
End KafkaReplication.
