(* ===== verification/RedisTopology.v ===== *)
(** * Where Redis is, and whether it can fail over

    shared/libs/python-common/redis_topology.py: the sentinel list, the choice
    between Sentinel and a direct connection, and the judgements of
    [INFO replication] and of the sentinel quorum.  The redis client is not
    modelled: [make_client] gives what it is built from. *)

From Stdlib Require Import Ascii.
From S2P Require Import Prelude PyValue PyJson PyText TextLines.
Import PyJson PyText TextLines.

Module RedisTopology.

Definition DEFAULT_MASTER_NAME : string := "mymaster".
Definition DEFAULT_QUORUM : Z := 2.

Record Decision := { ok : bool; detail : string }.

Definition refused (d : string) : Decision := {| ok := false; detail := d |}.

(** ** Configuration *)

(** One entry; [inl] is the [ValueError]. *)
Definition parse_host (chunk : string) : string + (string * Z) :=
  match rpartition_on colon chunk with
  | None | Some ("", _) =>
      inl ("sentinel entry " +:+ repr_str chunk +:+ " is not host:port; a sentinel list with a typo silently shrinks the quorum")
  | Some (host, port) =>
      match parse_int 10 port with
      | Some p => inr (host, p)
      | None => inl ("sentinel entry " +:+ repr_str chunk +:+ " has a non-numeric port")
      end
  end.

Fixpoint parse_hosts (chunks : list string) : string + list (string * Z) :=
  match chunks with
  | [] => inr []
  | chunk :: chunks =>
      if is_empty (strip chunk) then parse_hosts chunks
      else match parse_host (strip chunk) with
           | inl e => inl e
           | inr h => match parse_hosts chunks with inl e => inl e | inr hs => inr (h :: hs) end
           end
  end.

Definition parse_sentinel_hosts (value : option string) : string + list (string * Z) :=
  match value with
  | None => inr []
  | Some v => if is_empty (strip v) then inr [] else parse_hosts (split_on comma v)
  end.

(** [url and url.strip()] *)
Definition given (url : option string) : bool := match url with Some u => negb (is_empty (strip u)) | None => false end.

Inductive mode := sentinel | direct.

Definition connection_mode (redis_url sentinel_hosts : option string) : string + mode :=
  match parse_sentinel_hosts sentinel_hosts with
  | inl e => inl e
  | inr (_ :: _) => inr sentinel
  | inr [] =>
      if given redis_url then inr direct
      else inl "neither REDIS_SENTINELS nor REDIS_URL is set. Rule 8: no default endpoint for shared infrastructure."
  end.

(** What the client is built from: a URL, or the primary the sentinels name. *)
Inductive client :=
| from_url (url : string) (db : Z)
| master_for (sentinels : list (string * Z)) (name : string) (db : Z).

Definition make_client (redis_url sentinel_hosts : option string) (master_name : string) (db : Z) : string + client :=
  match connection_mode redis_url sentinel_hosts with
  | inl e => inl e
  | inr direct => inr (from_url (default "" redis_url) db)
  | inr sentinel =>
      match parse_sentinel_hosts sentinel_hosts with
      | inl e => inl e
      | inr hosts => inr (master_for hosts master_name db)
      end
  end.

(** ** [INFO replication] *)

Inductive info_value := Text (s : string) | Count (n : Z).

Definition info := list (string * info_value).

Definition read_info_line (d : info) (raw : string) : info :=
  let line := strip raw in
  if is_empty line || starts_with "#" line then d
  else match partition_on colon line with
       | None => d
       | Some (key, value) => dict_set d (strip key) (Text (strip value))
       end.

Definition convert (d : info) (key : string) : info :=
  match dict_get d key with
  | Some (Text s) => match parse_int 10 s with Some n => dict_set d key (Count n) | None => d end
  | _ => d
  end.

Definition counters : list string := ["connected_slaves"; "master_repl_offset"; "slave_repl_offset"].

Definition parse_info_replication (text : string) : info :=
  foldl convert (foldl read_info_line [] (splitlines text)) counters.

Definition is_text (v : option info_value) (s : string) : bool :=
  match v with Some (Text t) => t =?s s | _ => false end.

Definition is_primary (i : info) : bool := is_text (dict_get i "role") "master".

Definition replica_count (i : info) : Z := match dict_get i "connected_slaves" with Some (Count n) => n | _ => 0 end.

(** [f"{value!r}"] *)
Definition repr_info (v : option info_value) : string :=
  match v with None => "None" | Some (Text s) => repr_str s | Some (Count n) => dec n end.

Definition check_replication (primary_info replica_info : info) : Decision :=
  if negb (is_primary primary_info)
  then refused ("the node expected to be primary reports role=" +:+ repr_info (dict_get primary_info "role"))
  else if is_primary replica_info
  then refused "both nodes report role=master: split brain, two writable Redises accepting different data"
  else if negb (is_text (dict_get replica_info "master_link_status") "up")
  then refused ("replica is not linked to the primary (master_link_status=" +:+ repr_info (dict_get replica_info "master_link_status") +:+
                "); role:slave comes from config, not from a successful handshake")
  else if replica_count primary_info <? 1
  then refused "the primary reports 0 connected replicas while the replica believes it is linked"
  else {| ok := true; detail := "primary has a linked replica" |}.

Definition check_sentinel_quorum (sentinel_count quorum reachable : Z) : Decision :=
  if sentinel_count <? quorum
  then refused ("quorum " +:+ dec quorum +:+ " exceeds the " +:+ dec sentinel_count +:+ " sentinel(s) configured: no failover can ever be agreed")
  else if sentinel_count <? 3
  then refused (dec sentinel_count +:+ " sentinel(s) cannot survive losing one and still form a majority; three is the minimum")
  else if reachable <? quorum
  then refused ("only " +:+ dec reachable +:+ " of " +:+ dec sentinel_count +:+ " sentinels reachable, below the quorum of " +:+ dec quorum +:+
                ": a primary failure now is an outage, not a failover")
  else {| ok := true; detail := dec reachable +:+ "/" +:+ dec sentinel_count +:+ " sentinels reachable, quorum " +:+ dec quorum |}.

(** ** The sentinel list *)

Definition host_text (h : string * Z) : string := h.1 +:+ String colon (dec h.2).

Definition host_ok (h : string * Z) : Prop := h.1 ≠ "" ∧ lacks is_space h.1 ∧ has_char comma h.1 = false.

Lemma rpartition_app sep a b : has_char sep b = false → rpartition_on sep (a +:+ String sep b) = Some (a, b).
Proof.
  intros Hb. assert (E : rpartition_on sep b = None).
  { induction b as [|c b IH]; [done|]. cbn in Hb |- *. apply orb_false_iff in Hb as [Hc Hb]. rewrite IH by done.
    bool_to_prop. by rewrite bool_decide_false. }
  induction a as [|c a IH].
  - rewrite append_nil. cbn [rpartition_on]. by rewrite E, bool_decide_true.
  - rewrite append_cons. cbn [rpartition_on]. by rewrite IH.
Qed.

Lemma dec_lacks_char c z : is_space c = false → code c < 45 ∨ 57 < code c → has_char c (dec z) = false.
Proof. intros _ Hc. destruct (has_char c (dec z)) eqn:E; [|done]. apply dec_digits in E. lia. Qed.

Lemma host_no_space h : host_ok h → lacks is_space (host_text h).
Proof. intros (_ & Hs & _). apply lacks_app; [done|]. apply lacks_cons. split; [done|apply dec_no_space]. Qed.

Lemma parse_host_text h : host_ok h → parse_host (host_text h) = inr h.
Proof.
  intros (Hne & _ & _). unfold parse_host, host_text. rewrite rpartition_app by (apply dec_lacks_char; [done|by right]).
  rewrite parse_int_dec. destruct h as [[|c h] p]; done.
Qed.

Lemma parse_hosts_text hosts : (∀ h, h ∈ hosts → host_ok h) → parse_hosts (map host_text hosts) = inr hosts.
Proof.
  induction hosts as [|h hosts IH]; intros Hok; [done|]. cbn [map parse_hosts].
  assert (Hh : host_ok h) by (apply Hok; by left). rewrite strip_lacks by by apply host_no_space.
  assert (is_empty (host_text h) = false) as -> by (apply bool_decide_eq_false; destruct h as [[|] ?]; [by destruct Hh|done]).
  rewrite parse_host_text, IH by (done || intros; apply Hok; by right). done.
Qed.

(** The list every service is given reads back to the sentinels it names. *)
Theorem sentinel_list_reads_back (hosts : list (string * Z)) :
  (∀ h, h ∈ hosts → host_ok h) → parse_sentinel_hosts (Some (join (String comma "") (map host_text hosts))) = inr hosts.
Proof.
  intros Hok. unfold parse_sentinel_hosts. case_match eqn:E.
  - destruct hosts as [|h hosts]; [done|]. apply bool_decide_eq_true in E. exfalso. revert E.
    rewrite strip_lacks by (apply lacks_join; [done|]; intros x (y & -> & Hy)%elem_of_map; by apply host_no_space, Hok).
    assert (Hh : host_ok h) by (apply Hok; by left). destruct h as [[|c h] p]; [by destruct Hh|]. by destruct hosts.
  - destruct hosts as [|h hosts]; [done|]. rewrite split_on_join; [by apply parse_hosts_text|done|].
    intros x (y & -> & Hy)%elem_of_map. destruct (Hok y Hy) as (_ & _ & Hc). apply lacks_app; [by apply lacks_char|].
    apply lacks_cons. split; [done|]. apply lacks_char, dec_lacks_char; [done|by left].
Qed.

(** A list that is accepted has one sentinel for each entry that is not blank. *)
Lemma no_sentinel_is_dropped v hosts : parse_sentinel_hosts (Some v) = inr hosts →
  length hosts = length (List.filter (λ c, negb (is_empty (strip c))) (split_on comma v)) ∨ (strip v = "" ∧ hosts = []).
Proof.
  unfold parse_sentinel_hosts. case_match eqn:E; [intros [= <-]; right; by apply bool_decide_eq_true in E|]. left. clear E.
  revert hosts H. induction (split_on comma v) as [|c cs IH]; intros hosts H; cbn in *; [by simplify_eq|].
  destruct (is_empty (strip c)); cbn; [by apply IH|].
  destruct (parse_host (strip c)); [done|]. destruct (parse_hosts cs); [done|]. simplify_eq. cbn. f_equal. by apply IH.
Qed.

(** ** Reading [INFO replication], and what the pair is judged by *)

Definition carriage : Ascii.ascii := Ascii.ascii_of_N 13.

Definition entry_text (e : string * string) : string := e.1 +:+ String colon e.2.

(** The section as Redis sends it: a heading, then [key:value] lines ended by CR LF. *)
Definition info_text (fields : list (string * string)) : string :=
  foldr (λ l rest, l +:+ String carriage (String newline rest)) "" ("# Replication" :: map entry_text fields).

Record entry_ok (e : string * string) : Prop := {
  entry_key : lacks (λ c, is_space c || bool_decide (c = colon) || bool_decide (c = "#"%char)) e.1;
  entry_value : trimmed e.2;
  entry_line : lacks is_line_break e.2 }.

Lemma splitlines_crlf l rest : lacks is_line_break l → splitlines (l +:+ String carriage (String newline rest)) = l :: splitlines rest.
Proof.
  induction l as [|c l IH]; intros H; [reflexivity|]. apply lacks_cons in H as [Hc H]. rewrite append_cons. cbn [splitlines].
  by rewrite Hc, IH.
Qed.

Lemma entry_key_char e c : entry_ok e → has_char c e.1 = true → is_space c = false ∧ c ≠ colon ∧ c ≠ "#"%char.
Proof. intros [Hk _ _] Hc. apply Hk in Hc. apply orb_false_iff in Hc as [[? ?]%orb_false_iff ?]. by bool_to_prop. Qed.

Lemma entry_no_break e : entry_ok e → lacks is_line_break (entry_text e).
Proof.
  intros He. apply lacks_app; [intros c Hc; by apply space_line_break, (entry_key_char e c He)|].
  apply lacks_cons. split; [done|apply He].
Qed.

Lemma strip_entry e : entry_ok e → strip (entry_text e) = entry_text e.
Proof.
  intros He. unfold strip, strip_by, entry_text.
  assert (lstrip_by is_space (e.1 +:+ String colon e.2) = e.1 +:+ String colon e.2) as ->.
  { destruct e as [[|c k] v]; [done|]. cbn [fst]. rewrite append_cons. apply lstrip_ok.
    eapply (entry_key_char (String c k, v) c He). cbn. by rewrite bool_decide_true. }
  assert (E : rstrip_by is_space (String colon e.2) = String colon e.2) by (rewrite rstrip_keep; [by rewrite (proj2 (entry_value e He))|done]).
  rewrite rstrip_app; by rewrite E.
Qed.

Lemma read_entry d e : entry_ok e → read_info_line d (entry_text e) = dict_set d e.1 (Text e.2).
Proof.
  intros He. unfold read_info_line. rewrite strip_entry by done.
  assert (is_empty (entry_text e) || starts_with "#" (entry_text e) = false) as ->.
  { destruct e as [[|c k] v]; [done|].
    destruct (entry_key_char (String c k, v) c He) as (_ & _ & Hc); [cbn; by rewrite bool_decide_true|].
    apply orb_false_iff. split; [by apply bool_decide_eq_false|]. unfold entry_text. cbn [fst]. rewrite append_cons. cbn [starts_with].
    by rewrite bool_decide_false. }
  unfold entry_text. rewrite partition_on_app by (intros c Hc; apply bool_decide_eq_false; by eapply entry_key_char).
  rewrite strip_lacks by (intros c Hc; by eapply entry_key_char). by rewrite trimmed_strip by apply He.
Qed.

Definition texts (fields : list (string * string)) : info := foldl (λ d e, dict_set d e.1 (Text e.2)) [] fields.

Lemma read_info_text fields : (∀ e, e ∈ fields → entry_ok e) →
  parse_info_replication (info_text fields) = foldl convert (texts fields) counters.
Proof.
  intros Hok. unfold parse_info_replication. f_equal. unfold info_text. cbn [foldr]. rewrite splitlines_crlf by by apply lacks_literal.
  cbn [foldl]. assert (read_info_line [] "# Replication" = []) as -> by reflexivity. unfold texts.
  generalize (@nil (string * info_value)). induction fields as [|e fields IH]; intros d; [done|]. cbn [map foldr].
  assert (He : entry_ok e) by (apply Hok; by left). rewrite splitlines_crlf by by apply entry_no_break. cbn [foldl].
  rewrite read_entry by done. apply IH. intros. apply Hok. by right.
Qed.

Lemma get_texts fields k : NoDup fields.*1 → dict_get (texts fields) k = Text <$> dict_get fields k.
Proof.
  unfold texts. assert (G : ∀ d, NoDup fields.*1 →
    dict_get (foldl (λ d e, dict_set d e.1 (Text e.2)) d fields) k =
    match dict_get fields k with Some v => Some (Text v) | None => dict_get d k end).
  { induction fields as [|[k' v] fields IH]; intros d Hnd; [done|]. cbn [foldl fst snd].
    apply NoDup_cons in Hnd as [Hk Hnd]. rewrite IH by done. cbn [dict_get]. destruct (decide (k = k')) as [->|Hne].
    - destruct (dict_get fields k') eqn:E; [|by rewrite dict_get_set_eq]. destruct Hk. by apply dict_get_is_Some.
    - destruct (dict_get fields k); [done|]. by rewrite dict_get_set_ne. }
  intros Hnd. rewrite G by done. by destruct (dict_get fields k).
Qed.

Lemma convert_other d key k : k ≠ key → dict_get (convert d key) k = dict_get d k.
Proof. intros H. unfold convert. repeat case_match; try done. by rewrite dict_get_set_ne. Qed.

Lemma convert_this d key : dict_get (convert d key) key =
  match dict_get d key with
  | Some (Text s) => match parse_int 10 s with Some n => Some (Count n) | None => Some (Text s) end
  | v => v
  end.
Proof. unfold convert. destruct (dict_get d key) as [[s|n]|] eqn:E; [|done|done]. destruct (parse_int 10 s); [by rewrite dict_get_set_eq|done]. Qed.

Section node.
Context (fields : list (string * string)) (Hok : ∀ e, e ∈ fields → entry_ok e) (Hnd : NoDup fields.*1).

Notation reported := (parse_info_replication (info_text fields)).

Lemma reported_text k : k ∉ counters → dict_get reported k = Text <$> dict_get fields k.
Proof.
  intros Hk. rewrite read_info_text by done. rewrite <-get_texts by done. unfold counters in *. cbn [foldl].
  apply not_elem_of_cons in Hk as [H1 [H2 [H3 _]%not_elem_of_cons]%not_elem_of_cons]. by rewrite !convert_other.
Qed.

Lemma reported_is_text k s : k ∉ counters → is_text (dict_get reported k) s = bool_decide (dict_get fields k = Some s).
Proof.
  intros Hk. rewrite reported_text by done. unfold is_text. destruct (dict_get fields k) as [v|]; cbn; [|done].
  apply bool_decide_ext. split; congruence.
Qed.

Lemma reported_replicas : replica_count reported = default 0 (dict_get fields "connected_slaves" ≫= parse_int 10).
Proof.
  unfold replica_count. rewrite read_info_text by done. unfold counters. cbn [foldl]. rewrite !(convert_other _ _ "connected_slaves") by done.
  rewrite convert_this, get_texts by done. destruct (dict_get fields "connected_slaves") as [s|]; cbn; [|done]. by destruct (parse_int 10 s).
Qed.
End node.

(** A pair is reported as replicating exactly when the primary says it is
    master and has at least one replica connected, the other node is not a
    master too, and the other node's own link to its primary is up: the text of
    [INFO replication] as Redis sends it is read field by field. *)
Theorem redis_pair_is_judged_by_its_links (p r : list (string * string)) :
  (∀ e, e ∈ p → entry_ok e) → NoDup p.*1 → (∀ e, e ∈ r → entry_ok e) → NoDup r.*1 →
  ok (check_replication (parse_info_replication (info_text p)) (parse_info_replication (info_text r))) = true ↔
  dict_get p "role" = Some "master" ∧ dict_get r "role" ≠ Some "master" ∧
  dict_get r "master_link_status" = Some "up" ∧ 1 ≤ default 0 (dict_get p "connected_slaves" ≫= parse_int 10).
Proof.
  intros Hp Hnp Hr Hnr. unfold check_replication, is_primary.
  rewrite !reported_is_text by (done || by_compute). rewrite reported_replicas by done.
  repeat case_bool_decide; cbn [negb ok refused]; try (split; [done|naive_solver]).
  destruct (Z.ltb_spec (default 0 (dict_get p "connected_slaves" ≫= parse_int 10)) 1); cbn; split; naive_solver lia.
Qed.

Definition primary_fields : list (string * string) := [("role", "master"); ("connected_slaves", "1"); ("master_repl_offset", "840")].
Definition replica_fields : list (string * string) := [("role", "slave"); ("master_host", "redis-primary"); ("master_link_status", "up"); ("slave_repl_offset", "840")].

Lemma entry_literal e : forallb (λ c, negb (is_space c || bool_decide (c = colon) || bool_decide (c = "#"%char))) (String.list_ascii_of_string e.1) = true →
  forallb (λ c, negb (is_space c)) (String.list_ascii_of_string e.2) = true → entry_ok e.
Proof.
  intros Hk Hv%lacks_literal. split; [by apply lacks_literal|by apply lacks_trimmed|]. intros c Hc. by apply space_line_break, Hv.
Qed.

Lemma redis_pair_is_judged_by_its_links_witness :
  ok (check_replication (parse_info_replication (info_text primary_fields)) (parse_info_replication (info_text replica_fields))) = true.
Proof.
  apply (redis_pair_is_judged_by_its_links primary_fields replica_fields); [|by_compute| |by_compute|split_and!; [by_compute|by_compute|by_compute|vm_compute; discriminate]].
  - intros e He. unfold primary_fields in He. elem_cases He; by apply entry_literal.
  - intros e He. unfold replica_fields in He. elem_cases He; by apply entry_literal.
Defined.

(** ** The quorum *)

(** When Sentinel really fails over: the quorum agrees that the primary is
    down, and a majority of all sentinels elects the one that promotes. *)
Definition can_fail_over (sentinel_count quorum reachable : Z) : Prop := quorum ≤ reachable ∧ sentinel_count / 2 + 1 ≤ reachable.

(** On the platform's three sentinels with its quorum of two the check is exact. *)
Lemma quorum_check_exact_for_three reachable : ok (check_sentinel_quorum 3 DEFAULT_QUORUM reachable) = true ↔ can_fail_over 3 DEFAULT_QUORUM reachable.
Proof.
  unfold check_sentinel_quorum, can_fail_over, DEFAULT_QUORUM. cbn. change (3 `div` 2) with 1. destruct (Z.ltb_spec reachable 2); cbn; split; (done || lia).
Qed.

(** With five sentinels and the same quorum two reachable ones pass the check,
    and cannot elect a leader. *)
Example quorum_check_passes_without_majority :
  ok (check_sentinel_quorum 5 DEFAULT_QUORUM 2) = true ∧ ¬ can_fail_over 5 DEFAULT_QUORUM 2.
Proof. split; [reflexivity|]. unfold can_fail_over, DEFAULT_QUORUM. change (5 `div` 2) with 2. lia. Qed.

(** With a quorum of at least a majority the check is exact. *)
Lemma quorum_check_exact n q reachable : n / 2 + 1 ≤ q → q ≤ n → 3 ≤ n →
  ok (check_sentinel_quorum n q reachable) = true ↔ can_fail_over n q reachable.
Proof.
  intros Hm Hq Hn. unfold check_sentinel_quorum, can_fail_over. rewrite (proj2 (Z.ltb_ge n q)), (proj2 (Z.ltb_ge n 3)) by done.
  destruct (Z.ltb_spec reachable q); cbn; split; (done || lia).
Qed.
End RedisTopology.
