(* ===== verification/Float64.v ===== *)
(** * Python floats

    A [float] is a rational, and every operation is the exact one followed by
    [rnd], rounding to the nearest number with a 53-bit significand, ties to
    even: IEEE 754 binary64 without its limits on the exponent, which no value
    of the program comes near.  Infinities and NaN are not values here.  What
    the proofs use of rounding: it is monotone, odd, exact on numbers that fit,
    and its relative error is at most 2^-53. *)

From Stdlib Require Import QArith Qround Qabs Qpower Qfield Lqa.
From S2P Require Import Prelude.

Module Float64.
Local Open Scope Q_scope.

Ltac qlra := Lqa.lra.
Ltac qnra := Lqa.nra.

Notation float := Q (only parsing).

Definition pow2 (k : Z) : Q := 2 ^ k.

(** To the nearest integer, ties to even. *)
Definition rne (x : Q) : Z :=
  let f := Qfloor x in
  match Qcompare (x - inject_Z f) (1 # 2) with
  | Lt => f
  | Gt => (f + 1)%Z
  | Eq => if Z.even f then f else (f + 1)%Z
  end.

(** The exponent of a positive number: [pow2 e <= x < pow2 (e + 1)]. *)
Definition mag (x : Q) : Z :=
  let e := (Z.log2 (Qnum x) - Z.log2 (QDen x))%Z in
  if Qle_bool (pow2 e) x then e else (e - 1)%Z.

Definition rnd_pos (x : Q) : Q := inject_Z (rne (x * pow2 (52 - mag x))) * pow2 (mag x - 52).

Definition rnd (x : Q) : Q :=
  let x := Qred x in
  Qred (match Qnum x with Z0 => 0 | Zpos _ => rnd_pos x | Zneg _ => - rnd_pos (- x) end).

Definition fadd (a b : float) : float := rnd (a + b).
Definition fsub (a b : float) : float := rnd (a - b).
Definition fmul (a b : float) : float := rnd (a * b).
Definition fdiv (a b : float) : float := rnd (a / b).
Definition fneg (a : float) : float := Qred (- a).

(** [float(z)] of an integer *)
Definition of_Z (z : Z) : float := rnd (inject_Z z).

Definition fltb (a b : float) : bool := negb (Qle_bool b a).
Definition fleb (a b : float) : bool := Qle_bool a b.

(** [min(a, b)] and [max(a, b)]: the first argument unless the second is strictly better. *)
Definition fmin (a b : float) : float := if fltb b a then b else a.
Definition fmax (a b : float) : float := if fltb a b then b else a.

(** [round(x, 4)] *)
Definition round4 (x : float) : float := rnd (inject_Z (rne (x * 10000)) / 10000).

(** A rational that rounding leaves alone, in lowest terms. *)
Definition is_float (x : Q) : Prop := rnd x = x.

(** ** Rounding to an integer *)

Lemma rne_bounds x : (Qfloor x <= rne x <= Qfloor x + 1)%Z.
Proof. unfold rne. destruct (Qcompare _ _); [destruct (Z.even _)| |]; lia. Qed.

Lemma rne_int z : rne (inject_Z z) = z.
Proof.
  unfold rne. rewrite Qfloor_Z. assert (E : Qcompare (inject_Z z - inject_Z z) (1 # 2) = Lt) by (apply (proj1 (Qlt_alt _ _)); qlra). by rewrite E.
Qed.

Lemma rne_mono x y : x <= y → (rne x <= rne y)%Z.
Proof.
  intros H. pose proof (Qfloor_resp_le x y H) as Hf. pose proof (rne_bounds x) as Bx. pose proof (rne_bounds y) as By.
  destruct (Z.eq_dec (Qfloor x) (Qfloor y)) as [E|]; [|lia]. unfold rne. rewrite E.
  destruct (Qcompare_spec (x - inject_Z (Qfloor y)) (1 # 2)), (Qcompare_spec (y - inject_Z (Qfloor y)) (1 # 2));
    try destruct (Z.even (Qfloor y)); try lia; exfalso; qlra.
Qed.

Lemma rne_near x : Qabs (inject_Z (rne x) - x) <= 1 # 2.
Proof.
  pose proof (Qfloor_le x) as Hl. pose proof (Qlt_floor x) as Hu. rewrite inject_Z_plus in Hu. apply Qabs_Qle_condition.
  unfold rne. destruct (Qcompare_spec (x - inject_Z (Qfloor x)) (1 # 2)); [destruct (Z.even _)| |]; rewrite ?inject_Z_plus;
    change (inject_Z 1) with 1 in *; split; qlra.
Qed.

#[export] Instance rne_proper : Proper (Qeq ==> eq) rne.
Proof. intros x y E. apply Z.le_antisymm; apply rne_mono; qlra. Qed.

(** ** Powers of two *)

Lemma pow2_pos k : 0 < pow2 k.
Proof. apply Qpower_0_lt. qlra. Qed.

Lemma pow2_add a b : pow2 (a + b) == pow2 a * pow2 b.
Proof. apply Qpower_plus. qlra. Qed.

Lemma pow2_inv k : pow2 k * pow2 (- k) == 1.
Proof. rewrite <-pow2_add. by replace (k + - k)%Z with 0%Z by lia. Qed.

Lemma pow2_le a b : (a <= b)%Z → pow2 a <= pow2 b.
Proof. intros H. apply Qpower_le_compat_l; [done|qlra]. Qed.

Lemma pow2_lt_inv a b : pow2 a < pow2 b → (a < b)%Z.
Proof. intros H. destruct (Z.lt_ge_cases a b) as [|Hge]; [done|]. apply pow2_le in Hge. qlra. Qed.

Lemma pow2_Z k : (0 <= k)%Z → pow2 k == inject_Z (2 ^ k).
Proof. intros H. unfold pow2. rewrite Zpower_Qpower by done. reflexivity. Qed.

(** ** The exponent of a positive number *)

Lemma log2_pow2 n : (0 < n)%Z → pow2 (Z.log2 n) <= inject_Z n < pow2 (Z.log2 n + 1).
Proof.
  intros Hn. pose proof (Z.log2_nonneg n). destruct (Z.log2_spec n Hn) as [H1 H2]. rewrite !pow2_Z by lia.
  rewrite <-Zle_Qle, <-Zlt_Qlt. by rewrite Z.add_1_r.
Qed.

Lemma mag_spec x : 0 < x → pow2 (mag x) <= x < pow2 (mag x + 1).
Proof.
  intros Hx. destruct x as [n d]. assert (Hn : (0 < n)%Z) by (unfold Qlt in Hx; cbn in Hx; lia).
  unfold mag. cbn [Qnum Qden]. set (e := (Z.log2 n - Z.log2 (Z.pos d))%Z).
  destruct (log2_pow2 n Hn) as [Hn1 Hn2]. destruct (log2_pow2 (Z.pos d) ltac:(lia)) as [Hd1 Hd2].
  assert (Hdq : 0 < inject_Z (Z.pos d)) by done.
  assert (E : (n # d) * inject_Z (Z.pos d) == inject_Z n) by (unfold Qeq; cbn; lia).
  assert (Hhi : n # d < pow2 (e + 1)).
  { apply (Qmult_lt_r _ _ (inject_Z (Z.pos d))); [done|]. rewrite E. eapply Qlt_le_trans; [exact Hn2|].
    replace (Z.log2 n + 1)%Z with (e + 1 + Z.log2 (Z.pos d))%Z by lia. rewrite pow2_add. pose proof (pow2_pos (e + 1)). qnra. }
  assert (Hlo : pow2 (e - 1) <= n # d).
  { apply (Qmult_le_r _ _ (inject_Z (Z.pos d))); [done|]. rewrite E. eapply Qle_trans; [|exact Hn1].
    replace (Z.log2 n) with (e - 1 + (Z.log2 (Z.pos d) + 1))%Z by lia. rewrite pow2_add. pose proof (pow2_pos (e - 1)). qnra. }
  destruct (Qle_bool (pow2 e) (n # d)) eqn:Eb; [apply Qle_bool_iff in Eb; done|].
  split; [done|]. replace (e - 1 + 1)%Z with e by lia. apply Qnot_le_lt. intros H. apply Qle_bool_iff in H. congruence.
Qed.

Lemma mag_mono x y : 0 < x → x <= y → (mag x <= mag y)%Z.
Proof.
  intros Hx Hxy. assert (Hy : 0 < y) by qlra. destruct (mag_spec x Hx), (mag_spec y Hy).
  assert (mag x < mag y + 1)%Z by (apply pow2_lt_inv; qlra). lia.
Qed.

Lemma mag_unique x e : 0 < x → pow2 e <= x < pow2 (e + 1) → mag x = e.
Proof.
  intros Hx [H1 H2]. destruct (mag_spec x Hx).
  assert (mag x < e + 1)%Z by (apply pow2_lt_inv; qlra). assert (e < mag x + 1)%Z by (apply pow2_lt_inv; qlra). lia.
Qed.

(** ** Rounding a positive number *)

Section positive.

(** The number scaled to an integer part of 53 bits. *)
Definition scaled (x : Q) : Q := x * pow2 (52 - mag x).

Lemma scaled_range x : 0 < x → pow2 52 <= scaled x < pow2 53.
Proof.
  intros Hx. destruct (mag_spec x Hx) as [H1 H2]. unfold scaled. pose proof (pow2_pos (52 - mag x)) as Hp. split.
  - replace 52%Z with (mag x + (52 - mag x))%Z at 1 by lia. rewrite pow2_add. qnra.
  - replace 53%Z with (mag x + 1 + (52 - mag x))%Z by lia. rewrite pow2_add. qnra.
Qed.

Lemma rne_scaled x : 0 < x → (2 ^ 52 <= rne (scaled x) <= 2 ^ 53)%Z.
Proof.
  intros Hx. destruct (scaled_range x Hx) as [H1 H2]. rewrite <-(rne_int (2 ^ 52)), <-(rne_int (2 ^ 53)).
  rewrite !pow2_Z in * by done. split; apply rne_mono; qlra.
Qed.

Lemma rnd_pos_eq x : rnd_pos x = inject_Z (rne (scaled x)) * pow2 (mag x - 52).
Proof. reflexivity. Qed.

Lemma unscale x : x == scaled x * pow2 (mag x - 52).
Proof.
  unfold scaled. rewrite <-Qmult_assoc, <-pow2_add. replace (52 - mag x + (mag x - 52))%Z with 0%Z by lia.
  change (pow2 0) with 1. ring.
Qed.

Lemma rnd_pos_range x : 0 < x → pow2 (mag x) <= rnd_pos x <= pow2 (mag x + 1).
Proof.
  intros Hx. destruct (rne_scaled x Hx) as [H1 H2]. rewrite Zle_Qle in H1, H2. rewrite <-pow2_Z in H1, H2 by done.
  rewrite rnd_pos_eq. pose proof (pow2_pos (mag x - 52)) as Hp. split.
  - replace (mag x) with (52 + (mag x - 52))%Z at 1 by lia. rewrite pow2_add. qnra.
  - replace (mag x + 1)%Z with (53 + (mag x - 52))%Z by lia. rewrite pow2_add. qnra.
Qed.

Lemma rnd_pos_pos x : 0 < x → 0 < rnd_pos x.
Proof. intros Hx. destruct (rnd_pos_range x Hx). pose proof (pow2_pos (mag x)). qlra. Qed.

Lemma rnd_pos_mono x y : 0 < x → x <= y → rnd_pos x <= rnd_pos y.
Proof.
  intros Hx Hxy. assert (Hy : 0 < y) by qlra. pose proof (mag_mono x y Hx Hxy) as Hm.
  destruct (Z.eq_dec (mag x) (mag y)) as [E|Hne].
  - rewrite !rnd_pos_eq. unfold scaled. rewrite E. pose proof (pow2_pos (52 - mag y)). pose proof (pow2_pos (mag y - 52)) as Hp.
    assert (Hr : (rne (x * pow2 (52 - mag y)) <= rne (y * pow2 (52 - mag y)))%Z) by (apply rne_mono; qnra).
    rewrite Zle_Qle in Hr. qnra.
  - destruct (rnd_pos_range x Hx) as [_ Hx2], (rnd_pos_range y Hy) as [Hy1 _].
    pose proof (pow2_le (mag x + 1) (mag y) ltac:(lia)). qlra.
Qed.

Lemma rnd_pos_err x : 0 < x → Qabs (rnd_pos x - x) <= pow2 (-53) * x.
Proof.
  intros Hx. destruct (mag_spec x Hx) as [Hm _]. pose proof (rne_near (scaled x)) as Hn. apply Qabs_Qle_condition in Hn.
  pose proof (pow2_pos (mag x - 52)) as Hp. pose proof (unscale x) as Hu.
  assert (Eh : pow2 (mag x - 52) * (1 # 2) == pow2 (-53) * pow2 (mag x)).
  { change (1 # 2) with (pow2 (-1)). rewrite <-!pow2_add. by replace (mag x - 52 + -1)%Z with (-53 + mag x)%Z by lia. }
  pose proof (pow2_pos (-53)) as H53. apply Qabs_Qle_condition. rewrite rnd_pos_eq.
  set (s := scaled x) in *. set (r := inject_Z (rne s)) in *. set (p := pow2 (mag x - 52)) in *. set (u := pow2 (-53)) in *.
  clearbody s r p u. assert (u * pow2 (mag x) <= u * x) by qnra. split; qnra.
Qed.

(** Equal numbers round alike. *)
Lemma rnd_pos_proper x y : 0 < x → x == y → rnd_pos x == rnd_pos y.
Proof. intros Hx E. apply Qle_antisym; apply rnd_pos_mono; qlra. Qed.

(** A number whose scaled form is an integer is left alone. *)
Lemma rnd_pos_exact x z : 0 < x → scaled x == inject_Z z → rnd_pos x == x.
Proof. intros Hx Hz. rewrite rnd_pos_eq, Hz, rne_int, <-Hz. symmetry. apply unscale. Qed.

(** Up to 53 bits times a power of two. *)
Lemma rnd_pos_dyadic m k : (0 < m <= 2 ^ 53)%Z → rnd_pos (inject_Z m * pow2 k) == inject_Z m * pow2 k.
Proof.
  intros Hm. assert (Hbelow : ∀ m k, (0 < m < 2 ^ 53)%Z → rnd_pos (inject_Z m * pow2 k) == inject_Z m * pow2 k).
  { clear. intros m k [Hm1 Hm2]. assert (Hq : 0 < inject_Z m) by (by rewrite Zlt_Qlt in Hm1).
    pose proof (pow2_pos k) as Hk. assert (Hx : 0 < inject_Z m * pow2 k) by qnra.
    assert (Hmag : (mag (inject_Z m * pow2 k) < 53 + k)%Z).
    { destruct (mag_spec _ Hx) as [H _]. apply pow2_lt_inv. eapply Qle_lt_trans; [exact H|]. rewrite pow2_add.
      rewrite Zlt_Qlt, <-pow2_Z in Hm2 by done. qnra. }
    set (x := inject_Z m * pow2 k) in *. apply (rnd_pos_exact x (m * 2 ^ (k + (52 - mag x)))); [done|].
    unfold scaled. unfold x at 1. rewrite inject_Z_mult, <-pow2_Z by lia. rewrite pow2_add. ring. }
  destruct (Z.eq_dec m (2 ^ 53)) as [->|]; [|apply Hbelow; lia].
  assert (E : inject_Z (2 ^ 53) * pow2 k == inject_Z (2 ^ 52) * pow2 (k + 1)).
  { rewrite <-!pow2_Z, <-!pow2_add by done. by replace (53 + k)%Z with (52 + (k + 1))%Z by lia. }
  assert (Hx : 0 < inject_Z (2 ^ 53) * pow2 k) by (pose proof (pow2_pos k); assert (0 < inject_Z (2 ^ 53)) by done; qnra).
  rewrite (rnd_pos_proper _ _ Hx E), E. apply Hbelow. lia.
Qed.
End positive.

(** ** Rounding *)

Lemma rnd_ext x y : x == y → rnd x = rnd y.
Proof. intros E. unfold rnd. by rewrite (Qred_complete x y E). Qed.

#[export] Instance rnd_proper : Proper (Qeq ==> eq) rnd.
Proof. intros x y. apply rnd_ext. Qed.

#[export] Instance rnd_proper_Q : Proper (Qeq ==> Qeq) rnd.
Proof. intros x y E. by rewrite (rnd_ext x y E). Qed.

Lemma rnd_gt0 x : 0 < x → rnd x == rnd_pos x.
Proof.
  intros Hx. unfold rnd. rewrite Qred_correct. pose proof (Qred_correct x) as E. destruct (Qred x) as [n d].
  assert (H : 0 < n # d) by qlra. unfold Qlt in H. cbn in H. destruct n; [lia| |lia]. apply rnd_pos_proper; [qlra|done].
Qed.

Lemma rnd_lt0 x : x < 0 → rnd x == - rnd_pos (- x).
Proof.
  intros Hx. unfold rnd. rewrite Qred_correct. pose proof (Qred_correct x) as E. destruct (Qred x) as [n d].
  assert (H : n # d < 0) by qlra. unfold Qlt in H. cbn in H. destruct n as [| |n]; [lia|lia|]. cbn [Qnum].
  apply Qopp_comp, rnd_pos_proper; [|by apply Qopp_comp]. qlra.
Qed.

Lemma rnd_0 : rnd 0 = 0.
Proof. reflexivity. Qed.

Lemma rnd_mono x y : x <= y → rnd x <= rnd y.
Proof.
  intros Hxy. destruct (Q_dec x 0) as [[Hx|Hx]|Hx], (Q_dec y 0) as [[Hy|Hy]|Hy]; try (exfalso; qlra);
    rewrite ?Hx, ?Hy, ?rnd_0; rewrite ?(rnd_lt0 x), ?(rnd_lt0 y), ?(rnd_gt0 x), ?(rnd_gt0 y) by done.
  - pose proof (rnd_pos_mono (- y) (- x) ltac:(qlra) ltac:(qlra)). qlra.
  - pose proof (rnd_pos_pos (- x) ltac:(qlra)). pose proof (rnd_pos_pos y Hy). qlra.
  - pose proof (rnd_pos_pos (- x) ltac:(qlra)). qlra.
  - by apply rnd_pos_mono.
  - pose proof (rnd_pos_pos y Hy). qlra.
  - apply Qle_refl.
Qed.

Lemma rnd_opp x : rnd (- x) == - rnd x.
Proof.
  destruct (Q_dec x 0) as [[Hx|Hx]|Hx].
  - rewrite rnd_gt0, rnd_lt0 by qlra. ring.
  - rewrite rnd_lt0, rnd_gt0 by qlra. apply Qopp_comp, rnd_pos_proper; [qlra|ring].
  - rewrite Hx. change (- 0) with 0. rewrite rnd_0. ring.
Qed.

(** The relative error of one operation. *)
Definition ulp : Q := pow2 (-53).

Lemma rnd_err x : Qabs (rnd x - x) <= ulp * Qabs x.
Proof.
  destruct (Q_dec x 0) as [[Hx|Hx]|Hx].
  - rewrite rnd_lt0 by done. rewrite (Qabs_neg x) by qlra. rewrite <-Qabs_opp.
    assert (E : - (- rnd_pos (- x) - x) == rnd_pos (- x) - - x) by ring. rewrite E. apply rnd_pos_err. qlra.
  - rewrite rnd_gt0 by done. rewrite (Qabs_pos x) by qlra. by apply rnd_pos_err.
  - rewrite Hx, rnd_0. done.
Qed.

Lemma rnd_exact m k : (Z.abs m <= 2 ^ 53)%Z → rnd (inject_Z m * pow2 k) == inject_Z m * pow2 k.
Proof.
  intros Hm. pose proof (pow2_pos k) as Hk. destruct (Z.lt_trichotomy m 0) as [H|[->|H]].
  - assert (Hq : inject_Z m < 0) by (rewrite Zlt_Qlt in H; done). rewrite rnd_lt0 by qnra.
    assert (E : - (inject_Z m * pow2 k) == inject_Z (- m) * pow2 k) by (rewrite inject_Z_opp; ring).
    assert (Hx : 0 < - (inject_Z m * pow2 k)) by qnra.
    rewrite (rnd_pos_proper _ _ Hx E), rnd_pos_dyadic by lia. rewrite inject_Z_opp. ring.
  - assert (E : inject_Z 0 * pow2 k == 0) by ring. by rewrite E, rnd_0.
  - assert (Hq : 0 < inject_Z m) by (rewrite Zlt_Qlt in H; done). rewrite rnd_gt0 by qnra. apply rnd_pos_dyadic. lia.
Qed.

(** What rounding returns, it leaves alone. *)
Lemma rnd_dyadic x : ∃ m k, (Z.abs m <= 2 ^ 53)%Z ∧ rnd x == inject_Z m * pow2 k.
Proof.
  destruct (Q_dec x 0) as [[Hx|Hx]|Hx].
  - pose proof (rne_scaled (- x) ltac:(qlra)). exists (- rne (scaled (- x)))%Z, (mag (- x) - 52)%Z. split; [lia|].
    rewrite rnd_lt0, inject_Z_opp by done. rewrite rnd_pos_eq. ring.
  - pose proof (rne_scaled x Hx). exists (rne (scaled x)), (mag x - 52)%Z. split; [lia|]. by rewrite rnd_gt0.
  - exists 0%Z, 0%Z. split; [lia|]. by rewrite Hx, rnd_0.
Qed.

Lemma rnd_reduced x : Qred (rnd x) = rnd x.
Proof. apply Qred_complete, Qred_correct. Qed.

Lemma rnd_rnd x : rnd (rnd x) = rnd x.
Proof.
  rewrite <-(rnd_reduced (rnd x)). transitivity (Qred (rnd x)); [|apply rnd_reduced]. apply Qred_complete.
  destruct (rnd_dyadic x) as (m & k & Hm & E). rewrite (rnd_ext _ _ E), (rnd_exact m k Hm). by symmetry.
Qed.

Lemma float_fix x y : is_float y → x == y → rnd x = y.
Proof. intros Hy E. by rewrite (rnd_ext x y E). Qed.

Lemma rnd_nonneg x : 0 <= x → 0 <= rnd x.
Proof. intros H. rewrite <-rnd_0. by apply rnd_mono. Qed.

(** Rounding keeps a number between two floats. *)
Lemma rnd_between a b x : is_float a → is_float b → a <= x <= b → a <= rnd x <= b.
Proof. unfold is_float. intros Ha Hb [H1 H2]. split; [rewrite <-Ha|rewrite <-Hb]; by apply rnd_mono. Qed.

Lemma rnd_ge a x : is_float a → a <= x → a <= rnd x.
Proof. unfold is_float. intros Ha H. rewrite <-Ha. by apply rnd_mono. Qed.

Lemma rnd_le b x : is_float b → x <= b → rnd x <= b.
Proof. unfold is_float. intros Hb H. rewrite <-Hb. by apply rnd_mono. Qed.

Lemma of_Z_exact z : (Z.abs z <= 2 ^ 53)%Z → of_Z z == inject_Z z.
Proof.
  intros Hz. unfold of_Z. assert (E : inject_Z z == inject_Z z * pow2 0) by (change (pow2 0) with 1; ring).
  rewrite E at 2. rewrite (rnd_ext _ _ E). by apply rnd_exact.
Qed.

(** ** Comparisons and bounds *)

Lemma fltb_spec a b : reflect (a < b) (fltb a b).
Proof.
  unfold fltb. destruct (Qle_bool b a) eqn:E; cbn; constructor.
  - apply Qle_bool_iff in E. qlra.
  - apply Qnot_le_lt. intros H. apply Qle_bool_iff in H. congruence.
Qed.

Lemma fleb_spec a b : reflect (a <= b) (fleb a b).
Proof. unfold fleb. destruct (Qle_bool a b) eqn:E; constructor; [by apply Qle_bool_iff|]. intros H. apply Qle_bool_iff in H. congruence. Qed.

(** [max(low, min(high, value))] *)
Definition clamp (value low high : float) : float := fmax low (fmin high value).

Lemma clamp_range v low high : low <= high → low <= clamp v low high <= high.
Proof.
  intros H. unfold clamp, fmax, fmin. set (m := if fltb v high then v else high).
  assert (Hm : m <= high) by (subst m; destruct (fltb_spec v high); qlra). destruct (fltb_spec low m); qlra.
Qed.

Lemma clamp_id v low high : low < v → v < high → clamp v low high = v.
Proof.
  intros H1 H2. unfold clamp, fmax, fmin. destruct (fltb_spec v high); [|exfalso; qlra]. destruct (fltb_spec low v); [done|exfalso; qlra].
Qed.

(** The product of nonnegative floats, from below and from above. *)
Lemma fmul_mono a b c d : 0 <= a → 0 <= c → a <= b → c <= d → fmul a c <= fmul b d.
Proof. intros. unfold fmul. apply rnd_mono. qnra. Qed.

Lemma fmul_nonneg a b : 0 <= a → 0 <= b → 0 <= fmul a b.
Proof. intros. unfold fmul. apply rnd_nonneg. qnra. Qed.

Lemma fmul_near a b : 0 <= a * b → (1 - ulp) * (a * b) <= fmul a b <= (1 + ulp) * (a * b).
Proof.
  intros H. unfold fmul. pose proof (rnd_err (a * b)) as E. rewrite (Qabs_pos (a * b)) in E by done.
  apply Qabs_Qle_condition in E. qlra.
Qed.

(** Proofs reason about rounding by its lemmas; closed terms are evaluated with [vm_compute]. *)
#[global] Opaque rnd.

Ltac float_eq := vm_compute; reflexivity.

(** ** The mathematical library

    [math] calls the C library, which promises no correct rounding.  What the
    proofs rely on: a square is not negative, [exp] of a number that is not
    positive and a power of one half with an exponent that is not negative are
    between 0 and 1. *)

Class Libm := {
  math_exp : float → float;
  math_pow : float → float → float;
  math_sin : float → float;
  math_cos : float → float;
  math_sqrt : float → float;
  math_atan2 : float → float → float;
  math_radians : float → float;
}.

Class LibmLaws `{Libm} : Prop := {
  exp_unit x : x <= 0 → 0 <= math_exp x <= 1;
  square_nonneg x : 0 <= math_pow x 2;
  half_power_unit y : 0 <= y → 0 <= math_pow (1 # 2) y <= 1;
}.

(** Rational functions of the right shape, to compute with. *)
#[local] Instance coarse_libm : Libm := {|
  math_exp x := if fltb x 0 then rnd (1 / (1 - x)) else 1;
  math_pow x y := if Qeq_bool y 2 then fmul x x else if fltb 0 y then rnd (1 / (1 + y)) else 1;
  math_sin x := x;
  math_cos x := 1;
  math_sqrt x := x;
  math_atan2 x y := rnd (x / (1 + y));
  math_radians x := rnd (x / 57) |}.

Lemma inv_unit x : 0 <= x → 0 <= rnd (1 / (1 + x)) <= 1.
Proof.
  intros Hx. apply rnd_between; [float_eq|float_eq|]. assert (Hp : 0 < 1 + x) by qlra. split.
  - apply Qle_shift_div_l; [done|]. qlra.
  - apply Qle_shift_div_r; [done|]. qlra.
Qed.

#[local] Instance coarse_laws : LibmLaws.
Proof.
  split; cbn [math_exp math_pow coarse_libm].
  - intros x Hx. destruct (fltb_spec x 0); [|qlra]. assert (E : 1 - x == 1 + - x) by ring. rewrite (rnd_ext _ _ (Qdiv_comp _ _ (Qeq_refl 1) _ _ E)).
    apply inv_unit. qlra.
  - intros x. cbn [Qeq_bool]. unfold fmul. apply rnd_nonneg. qnra.
  - intros y Hy. destruct (Qeq_bool y 2); [by compute|]. destruct (fltb_spec 0 y); [|qlra]. by apply inv_unit.
Qed.
End Float64.
