(* ===== verification/RankingRules.v ===== *)
(** * Ranking of search results

    services/search-service/app/services/ranking_rules.py: one score, the
    product of the relevance of the text, the quality of the seller, the decay
    of distance and the interests of the buyer.  Scores are Python floats
    (Float64); the mathematical library is the class [Libm]. *)

From Stdlib Require Import QArith Lqa.
From stdpp Require sorting.
From S2P Require Import Prelude PyValue Float64.
Import Float64.

Module RankingRules.
Local Open Scope Q_scope.

Definition DISTANCE_SCALE_KM : float := 10.
Definition DISTANCE_FLOOR : float := rnd (80 # 100).
Definition QUALITY_MIN : float := rnd (7 # 10).
Definition QUALITY_MAX : float := rnd (13 # 10).
Definition PERSONALISATION_MIN : float := rnd (9 # 10).
Definition PERSONALISATION_MAX : float := rnd (115 # 100).
Definition RATING_SCALE : float := 5.
Definition RATING_NEUTRAL : float := 7 # 2.
Definition REVIEW_CONFIDENCE_AT : float := 20.

(** The [ValueError]s, with the number their message quotes. *)
Inductive ranking_error :=
| DistanceNegative (distance_km : float)
| ScaleNotPositive
| RatingOutside (rating : float)
| RelevanceNegative (text_relevance : float)
| MathDomain.

(** The dictionary [quality_boost] reads: a missing key and [None] are alike. *)
Record QualityInputs := {
  rating : option float; review_count : option Z; confidence : option float;
  on_time_dispatch_rate : option float; cancellation_rate : option float; return_rate : option float;
}.

Definition or_zero (o : option float) : float := default 0 o.

Section rules.
Context `{Libm}.

Definition distance_decay_at (distance_km : option float) (scale_km floor : float) : ranking_error + float :=
  match distance_km with
  | None => inr 1
  | Some d =>
      if fltb d 0 then inl (DistanceNegative d)
      else if fleb scale_km 0 then inl ScaleNotPositive
      else
        let decay := math_exp (fmul (- (1 # 2)) (math_pow (fdiv d scale_km) 2)) in
        inr (fadd floor (fmul (fsub 1 floor) decay))
  end.

Definition distance_decay (distance_km : option float) : ranking_error + float :=
  distance_decay_at distance_km DISTANCE_SCALE_KM DISTANCE_FLOOR.

Definition rating_component (rating : option float) (review_count : option Z) : ranking_error + float :=
  match rating with
  | None => inr 1
  | Some r =>
      if negb (fleb 0 r && fleb r RATING_SCALE) then inl (RatingOutside r)
      else
        let count := of_Z (Z.max 0 (default 0%Z review_count)) in
        let confidence := fdiv count (fadd count REVIEW_CONFIDENCE_AT) in
        let raw := fdiv (fsub r RATING_NEUTRAL) (fmax RATING_NEUTRAL (fsub RATING_SCALE RATING_NEUTRAL)) in
        inr (fadd 1 (fmul (fmul raw confidence) (rnd (3 # 10))))
  end.

Definition fulfilment (inputs : QualityInputs) : float :=
  let on_time := clamp (or_zero (on_time_dispatch_rate inputs)) 0 1 in
  let cancellation := clamp (or_zero (cancellation_rate inputs)) 0 1 in
  let returns := clamp (or_zero (return_rate inputs)) 0 1 in
  fsub (fsub (fmul (fsub on_time (rnd (90 # 100))) (rnd (10 # 100)))
             (fmul (fsub cancellation (rnd (5 # 100))) (rnd (30 # 100))))
       (fmul (fsub returns (rnd (10 # 100))) (rnd (40 # 100))).

Definition quality_boost (inputs : option QualityInputs) : ranking_error + float :=
  match inputs with
  | None => inr 1
  | Some i =>
      match rating_component (rating i) (review_count i) with
      | inl e => inl e
      | inr boost =>
          let confidence := clamp (or_zero (confidence i)) 0 1 in
          let boost := if fltb 0 confidence then fadd boost (fmul (fulfilment i) confidence) else boost in
          inr (clamp boost QUALITY_MIN QUALITY_MAX)
      end
  end.

Definition personalisation_boost (affinity : option float) : float :=
  match affinity with
  | None => 1
  | Some a => fadd PERSONALISATION_MIN (fmul (fsub PERSONALISATION_MAX PERSONALISATION_MIN) (clamp a 0 1))
  end.

Definition final_score (text_relevance : float) (quality_inputs : option QualityInputs)
    (distance_km affinity : option float) : ranking_error + float :=
  if fltb text_relevance 0 then inl (RelevanceNegative text_relevance)
  else match quality_boost quality_inputs with
  | inl e => inl e
  | inr q =>
      match distance_decay distance_km with
      | inl e => inl e
      | inr d => inr (fmul (fmul (fmul text_relevance q) d) (personalisation_boost affinity))
      end
  end.

(** ** Ordering *)

Record candidate (Doc : Type) := Candidate {
  cd_id : option string; cd_relevance : float; cd_quality : option QualityInputs;
  cd_distance_km : option float; cd_affinity : option float; cd_source : Doc;
}.
Arguments Candidate {_} _ _ _ _ _ _.
Arguments cd_id {_} _.
Arguments cd_relevance {_} _.
Arguments cd_quality {_} _.
Arguments cd_distance_km {_} _.
Arguments cd_affinity {_} _.
Arguments cd_source {_} _.

Section rank.
Context {Doc : Type}.

(** [str(c.get("id", ""))] of a candidate that has the key. *)
Definition id_text (c : candidate Doc) : string := default "None" (cd_id c).

Definition score_of (c : candidate Doc) : ranking_error + float :=
  final_score (cd_relevance c) (cd_quality c) (cd_distance_km c) (cd_affinity c).

Fixpoint score_all (candidates : list (candidate Doc)) : ranking_error + list (candidate Doc * float) :=
  match candidates with
  | [] => inr []
  | c :: cs =>
      match score_of c with
      | inl e => inl e
      | inr score => match score_all cs with inl e => inl e | inr scored => inr ((c, score) :: scored) end
      end
  end.

(** [(-score, id)] in the order of tuples. *)
Definition ranks_before (a b : candidate Doc * float) : bool :=
  fltb b.2 a.2 || (Qeq_bool a.2 b.2 && String.leb (id_text a.1) (id_text b.1)).

Definition rank (candidates : list (candidate Doc)) : ranking_error + list (candidate Doc * float) :=
  match score_all candidates with inl e => inl e | inr scored => inr (sort_le ranks_before scored) end.
End rank.

Definition haversine_km (lat1 lon1 lat2 lon2 : option float) : ranking_error + option float :=
  match lat1, lon1, lat2, lon2 with
  | Some lat1, Some lon1, Some lat2, Some lon2 =>
      let radius_km := rnd (63710088 # 10000) in
      let phi1 := math_radians lat1 in
      let phi2 := math_radians lat2 in
      let d_phi := math_radians (fsub lat2 lat1) in
      let d_lambda := math_radians (fsub lon2 lon1) in
      let a := fadd (math_pow (math_sin (fdiv d_phi 2)) 2)
                    (fmul (fmul (math_cos phi1) (math_cos phi2)) (math_pow (math_sin (fdiv d_lambda 2)) 2)) in
      if fltb a 0 || fltb (fsub 1 a) 0 then inl MathDomain
      else inr (Some (fmul (fmul 2 radius_km) (math_atan2 (math_sqrt a) (math_sqrt (fsub 1 a)))))
  | _, _, _, _ => inr None
  end.
End rules.
Arguments Candidate {_} _ _ _ _ _ _.
Arguments cd_id {_} _.
Arguments cd_relevance {_} _.
Arguments cd_quality {_} _.
Arguments cd_distance_km {_} _.
Arguments cd_affinity {_} _.
Arguments cd_source {_} _.

(** ** The range of each factor *)

Section ranges.
Context `{LibmLaws}.

(** The most the buyer's interests can multiply by. *)
Definition personalisation_top : float := personalisation_boost (Some 1).

Lemma decay_range d v : distance_decay d = inr v → DISTANCE_FLOOR <= v <= 1.
Proof.
  unfold distance_decay, distance_decay_at. destruct d as [d|]; [|intros <-%(inj inr); by vm_compute].
  destruct (fltb d 0); [done|]. change (fleb DISTANCE_SCALE_KM 0) with false. cbv iota. intros <-%(inj inr).
  set (e := math_exp _). assert (He : 0 <= e <= 1).
  { apply exp_unit. unfold fmul. rewrite <-rnd_0. apply rnd_mono. pose proof (square_nonneg (fdiv d DISTANCE_SCALE_KM)). qnra. }
  unfold fadd. assert (Hf : is_float DISTANCE_FLOOR) by float_eq.
  assert (Hr : fmul (fsub 1 DISTANCE_FLOOR) 0 <= fmul (fsub 1 DISTANCE_FLOOR) e <= fmul (fsub 1 DISTANCE_FLOOR) 1).
  { assert (Hs : 0 <= fsub 1 DISTANCE_FLOOR) by by vm_compute.
    split; apply fmul_mono; first [exact Hs | apply Qle_refl | apply He]. }
  assert (E0 : fmul (fsub 1 DISTANCE_FLOOR) 0 = 0) by float_eq. rewrite E0 in Hr. split.
  - apply rnd_ge; [done|qlra].
  - assert (E1 : rnd (DISTANCE_FLOOR + fmul (fsub 1 DISTANCE_FLOOR) 1) = 1) by float_eq.
    apply Qle_trans with (rnd (DISTANCE_FLOOR + fmul (fsub 1 DISTANCE_FLOOR) 1)); [apply rnd_mono; qlra|]. rewrite E1. apply Qle_refl.
Qed.

Lemma quality_range i v : quality_boost i = inr v → QUALITY_MIN <= v <= QUALITY_MAX.
Proof.
  unfold quality_boost. destruct i as [i|]; [|intros <-%(inj inr); by vm_compute].
  destruct (rating_component _ _); [done|]. intros <-%(inj inr). apply clamp_range. by vm_compute.
Qed.

Lemma personalisation_range a : PERSONALISATION_MIN <= personalisation_boost a <= personalisation_top.
Proof.
  destruct a as [a|]; [|by vm_compute]. unfold personalisation_top, personalisation_boost.
  destruct (clamp_range a 0 1 ltac:(by vm_compute)) as [H1 H2]. change (clamp 1 0 1) with 1.
  assert (Hm : fmul (fsub PERSONALISATION_MAX PERSONALISATION_MIN) 0 <= fmul (fsub PERSONALISATION_MAX PERSONALISATION_MIN) (clamp a 0 1)
               <= fmul (fsub PERSONALISATION_MAX PERSONALISATION_MIN) 1).
  { assert (Hs : 0 <= fsub PERSONALISATION_MAX PERSONALISATION_MIN) by by vm_compute.
    split; apply fmul_mono; first [exact Hs | apply Qle_refl | exact H1 | exact H2]. }
  assert (E : fmul (fsub PERSONALISATION_MAX PERSONALISATION_MIN) 0 = 0) by float_eq. rewrite E in Hm.
  unfold fadd. split; [|apply rnd_mono; qlra].
  apply rnd_ge; [float_eq|qlra].
Qed.

Lemma score_factors r q d a s : final_score r q d a = inr s →
  ∃ b v, quality_boost q = inr b ∧ distance_decay d = inr v ∧ 0 <= r ∧
    s = fmul (fmul (fmul r b) v) (personalisation_boost a).
Proof.
  unfold final_score. destruct (fltb_spec r 0); [done|]. destruct (quality_boost q) as [|b]; [done|].
  destruct (distance_decay d) as [|v]; [done|]. intros <-%(inj inr). exists b, v. split_and!; [done|done|qlra|done].
Qed.

(** Three roundings. *)
Lemma score_near r b v p : 0 <= r → 0 <= b → 0 <= v → 0 <= p →
  (1 - ulp) * (1 - ulp) * (1 - ulp) * (r * b * v * p) <= fmul (fmul (fmul r b) v) p <= (1 + ulp) * (1 + ulp) * (1 + ulp) * (r * b * v * p).
Proof.
  intros Hr Hb Hv Hp. assert (Hu : 0 < ulp < 1) by done.
  assert (H1 : 0 <= r * b) by qnra. pose proof (fmul_near r b H1) as [L1 U1]. pose proof (fmul_nonneg r b Hr Hb) as N1.
  set (x := fmul r b) in *. assert (H2 : 0 <= x * v) by qnra. pose proof (fmul_near x v H2) as [L2 U2]. pose proof (fmul_nonneg x v N1 Hv) as N2.
  set (y := fmul x v) in *. assert (H3 : 0 <= y * p) by qnra. pose proof (fmul_near y p H3) as [L3 U3].
  clearbody x y. set (z := fmul y p) in *. clearbody z. set (u := ulp) in *. clearbody u.
  assert (A1 : (1 - u) * (r * b) * v <= x * v) by qnra. assert (A2 : x * v <= (1 + u) * (r * b) * v) by qnra.
  assert (B1 : (1 - u) * ((1 - u) * (r * b) * v) <= y) by qnra. assert (B2 : y <= (1 + u) * ((1 + u) * (r * b) * v)) by qnra.
  assert (C1 : (1 - u) * ((1 - u) * (r * b) * v) * p <= y * p) by qnra. assert (C2 : y * p <= (1 + u) * ((1 + u) * (r * b) * v) * p) by qnra.
  split; qnra.
Qed.

Lemma product_mono r b b' v v' p p' : 0 <= r → 0 <= b → 0 <= v → 0 <= p → b <= b' → v <= v' → p <= p' →
  r * b * v * p <= r * b' * v' * p'.
Proof.
  intros Hr Hb Hv Hp Lb Lv Lp. assert (H1 : r * b <= r * b') by qnra. assert (N1 : 0 <= r * b) by qnra.
  set (x := r * b) in *. set (x' := r * b') in *. clearbody x x'.
  assert (H2 : x * v <= x' * v') by qnra. assert (N2 : 0 <= x * v) by qnra. set (y := x * v) in *. set (y' := x' * v') in *. clearbody y y'. qnra.
Qed.

(** Whatever the seller, the distance and the buyer, a score is within these
    multiples of the relevance. *)
Definition score_low : Q := (1 - ulp) * (1 - ulp) * (1 - ulp) * (QUALITY_MIN * DISTANCE_FLOOR * PERSONALISATION_MIN).
Definition score_high : Q := (1 + ulp) * (1 + ulp) * (1 + ulp) * (QUALITY_MAX * 1 * personalisation_top).

Lemma score_bounds r q d a s : final_score r q d a = inr s → score_low * r <= s <= score_high * r.
Proof.
  intros (b & v & Hb%quality_range & Hv%decay_range & Hr & ->)%score_factors. pose proof (personalisation_range a) as Hp.
  assert (Q0 : 0 < QUALITY_MIN) by by vm_compute. assert (D0 : 0 < DISTANCE_FLOOR) by by vm_compute.
  assert (P0 : 0 < PERSONALISATION_MIN) by by vm_compute.
  destruct (score_near r b v (personalisation_boost a)) as [Hlo Hhi]; [done|qlra|qlra|qlra|].
  pose proof (product_mono r QUALITY_MIN b DISTANCE_FLOOR v PERSONALISATION_MIN (personalisation_boost a)
    Hr ltac:(qlra) ltac:(qlra) ltac:(qlra) ltac:(qlra) ltac:(qlra) ltac:(qlra)) as M1.
  pose proof (product_mono r b QUALITY_MAX v 1 (personalisation_boost a) personalisation_top
    Hr ltac:(qlra) ltac:(qlra) ltac:(qlra) ltac:(qlra) ltac:(qlra) ltac:(qlra)) as M2.
  assert (U1 : 0 < (1 - ulp) * (1 - ulp) * (1 - ulp)) by by vm_compute. assert (U2 : 0 < (1 + ulp) * (1 + ulp) * (1 + ulp)) by by vm_compute.
  unfold score_low, score_high. set (l := (1 - ulp) * (1 - ulp) * (1 - ulp)) in *. set (h := (1 + ulp) * (1 + ulp) * (1 + ulp)) in *.
  clearbody l h. set (pb := personalisation_boost a) in *. clearbody pb. set (s := fmul (fmul (fmul r b) v) pb) in *. clearbody s.
  set (m := r * b * v * pb) in *. clearbody m. split; qnra.
Qed.

(** Nothing makes up for a third of the relevance. *)
Lemma three_times_relevant ra qa da aa sa rb qb db ab sb :
  final_score ra qa da aa = inr sa → final_score rb qb db ab = inr sb → 3 * rb <= ra → 0 < ra → sb < sa.
Proof.
  intros [La _]%score_bounds [_ Ub]%score_bounds H3 Ha. assert (Hc : score_high < 3 * score_low) by by vm_compute.
  assert (Hh : 0 < score_high) by by vm_compute. set (l := score_low) in *. set (h := score_high) in *. clearbody l h. qnra.
Qed.

(** Distance never outweighs a quality that is a quarter better: with the same
    relevance and the same interest, the better shop wins from anywhere. *)
Lemma better_shop_wins r qa da qb db a ba bb sa sb : 0 < r →
  quality_boost qa = inr ba → quality_boost qb = inr bb → (126 # 100) * bb <= ba →
  final_score r qa da a = inr sa → final_score r qb db a = inr sb → sb < sa.
Proof.
  intros Hr Ea Eb Hq Ha Hb. apply score_factors in Ha as (b & v & Hba & Hv%decay_range & _ & ->). apply score_factors in Hb as (b' & v' & Hbb & Hv'%decay_range & _ & ->).
  rewrite Ea in Hba. apply (inj inr) in Hba. subst b. rewrite Eb in Hbb. apply (inj inr) in Hbb. subst b'.
  apply quality_range in Ea, Eb. pose proof (personalisation_range a) as Hp. set (p := personalisation_boost a) in *. clearbody p.
  assert (Q0 : 0 < QUALITY_MIN) by by vm_compute. assert (D0 : 0 < DISTANCE_FLOOR) by by vm_compute.
  assert (P0 : 0 < PERSONALISATION_MIN) by by vm_compute.
  destruct (score_near r ba v p) as [Lo _]; [qlra|qlra|qlra|qlra|]. destruct (score_near r bb v' p) as [_ Hi]; [qlra|qlra|qlra|qlra|].
  pose proof (product_mono r ((126 # 100) * bb) ba DISTANCE_FLOOR v p p ltac:(qlra) ltac:(qlra) ltac:(qlra) ltac:(qlra) ltac:(qlra) ltac:(qlra) ltac:(qlra)) as M1.
  pose proof (product_mono r bb bb v' 1 p p ltac:(qlra) ltac:(qlra) ltac:(qlra) ltac:(qlra) ltac:(qlra) ltac:(qlra) ltac:(qlra)) as M2.
  assert (Hc : (1 + ulp) * (1 + ulp) * (1 + ulp) < (1 - ulp) * (1 - ulp) * (1 - ulp) * ((126 # 100) * DISTANCE_FLOOR)) by by vm_compute.
  assert (U1 : 0 < (1 - ulp) * (1 - ulp) * (1 - ulp)) by by vm_compute. assert (U2 : 0 < (1 + ulp) * (1 + ulp) * (1 + ulp)) by by vm_compute.
  set (l := (1 - ulp) * (1 - ulp) * (1 - ulp)) in *. set (h := (1 + ulp) * (1 + ulp) * (1 + ulp)) in *. clearbody l h.
  assert (Hm : 0 < r * bb * p) by (assert (0 < r * bb) by qnra; set (x := r * bb) in *; clearbody x; qnra).
  set (m := r * bb * p) in *. assert (E1 : r * ((126 # 100) * bb) * DISTANCE_FLOOR * p == (126 # 100) * DISTANCE_FLOOR * m) by (subst m; ring).
  assert (E2 : r * bb * 1 * p == m) by (subst m; ring). rewrite E1 in M1. rewrite E2 in M2. clearbody m.
  set (da' := DISTANCE_FLOOR) in *. set (sa := fmul (fmul (fmul r ba) v) p) in *. set (sb := fmul (fmul (fmul r bb) v') p) in *. clearbody sa sb.
  set (xa := r * ba * v * p) in *. set (xb := r * bb * v' * p) in *. clearbody xa xb da'.
  assert (A : h * m < l * ((126 # 100) * da') * m) by qnra. assert (B : l * ((126 # 100) * da' * m) <= l * xa) by qnra. assert (C : h * xb <= h * m) by qnra. qlra.
Qed.

(** ** The unknown is neutral *)

Lemma unknown_scores_its_relevance r : is_float r → 0 <= r → final_score r None None None = inr r.
Proof.
  intros Hf Hr. unfold final_score. destruct (fltb_spec r 0); [exfalso; qlra|]. cbn [quality_boost distance_decay distance_decay_at personalisation_boost].
  assert (E : fmul r 1 = r) by (apply float_fix; [done|ring]). by rewrite !E.
Qed.
End ranges.

(** ** The order of the results *)

Section order.
Context `{LibmLaws} {Doc : Type}.
Implicit Types (c : candidate Doc) (x y : candidate Doc * float) (cs : list (candidate Doc)).

Lemma ranks_before_spec x y : ranks_before x y = true ↔ y.2 < x.2 ∨ x.2 == y.2 ∧ String.leb (id_text x.1) (id_text y.1) = true.
Proof.
  unfold ranks_before. rewrite orb_true_iff, andb_true_iff, Qeq_bool_iff.
  by destruct (fltb_spec y.2 x.2) as [Hlt|Hlt]; intuition.
Qed.

Lemma ranks_before_total x y : ranks_before x y = false → ranks_before y x = true.
Proof.
  intros Hn. apply not_true_iff_false in Hn. rewrite ranks_before_spec in *.
  destruct (Q_dec x.2 y.2) as [[Hlt|Hlt]|E]; [by left|by destruct Hn; left|]. right. split; [by symmetry|].
  destruct (String.leb_total (id_text x.1) (id_text y.1)) as [Hl|]; [|done]. destruct Hn. by right.
Qed.

#[local] Instance ranks_before_trans : Transitive (in_order (ranks_before (Doc := Doc))).
Proof.
  intros x y z. unfold in_order. rewrite !ranks_before_spec. intros [H1|[E1 L1]] [H2|[E2 L2]]; [left; qlra..|].
  right. split; [by rewrite E1|by eapply text_leb_trans].
Qed.

Lemma score_all_spec cs scored : score_all cs = inr scored ↔ Forall2 (λ c x, x.1 = c ∧ score_of c = inr x.2) cs scored.
Proof.
  revert scored. induction cs as [|c cs IH]; intros scored; cbn.
  - split; [intros <-%(inj inr); constructor|intros Hf; by inversion Hf].
  - destruct (score_of c) as [e|s] eqn:E.
    + split; [done|]. intros Hf. inversion Hf as [|? ? ? ? [_ Hs]]. congruence.
    + destruct (score_all cs) as [e|l] eqn:El.
      * split; [done|]. intros Hf. inversion Hf as [|? ? ? l' _ Hl]; subst. apply IH in Hl. done.
      * split; [intros <-%(inj inr); constructor; [done|by apply IH]|]. intros Hf. inversion Hf as [|? [c' s'] ? l' [Ec Hs] Hl].
        cbn in Ec, Hs. subst. apply IH in Hl. apply (inj inr) in Hl. rewrite E in Hs. apply (inj inr) in Hs. by subst.
Qed.

Lemma score_all_fst cs scored : score_all cs = inr scored → map fst scored = cs.
Proof. intros Hs%score_all_spec. induction Hs as [|c x cs l [<- _] _ IH]; cbn; [done|by rewrite IH]. Qed.

Lemma score_all_perm cs cs' scored : cs' ≡ₚ cs → score_all cs = inr scored → ∃ scored', score_all cs' = inr scored' ∧ scored' ≡ₚ scored.
Proof.
  intros Hp Hs%score_all_spec. symmetry in Hp. destruct (Permutation_Forall2 Hp Hs) as (l & Hl & Hf). exists l. split; [by apply score_all_spec|by symmetry].
Qed.

Lemma rank_inv cs out : rank cs = inr out → ∃ scored, score_all cs = inr scored ∧ out = sort_le ranks_before scored.
Proof. unfold rank. destruct (score_all cs) as [|l]; [done|]. intros <-%(inj inr). by exists l. Qed.

Lemma rank_strongly_sorted cs out : rank cs = inr out → StronglySorted (in_order ranks_before) out.
Proof.
  intros (scored & _ & ->)%rank_inv. apply Sorted_StronglySorted; [apply ranks_before_trans|]. apply sort_le_sorted, ranks_before_total.
Qed.

Lemma strongly_sorted_lookup {A} (R : A → A → Prop) l i j u v : StronglySorted R l → l !! i = Some u → l !! j = Some v → (i < j)%nat → R u v.
Proof.
  intros Hs. revert i j. induction Hs as [|a l _ IH Ha]; intros i j Hi Hj Hij; [done|]. destruct j as [|j]; [lia|]. destruct i as [|i]; cbn in *.
  - simplify_eq. rewrite Forall_forall in Ha. by eapply Ha, list_elem_of_lookup_2.
  - eapply IH; [done..|lia].
Qed.

Lemma rank_elem cs out x : rank cs = inr out → x ∈ out → x.1 ∈ cs ∧ score_of x.1 = inr x.2.
Proof.
  intros (scored & Hs & ->)%rank_inv. rewrite sort_le_perm. intros Hx. apply score_all_spec in Hs.
  apply list_elem_of_lookup in Hx as (i & Hi). destruct (Forall2_lookup_r _ _ _ _ _ Hs Hi) as (c & Hc & <- & Hsc).
  split; [by eapply list_elem_of_lookup_2|done].
Qed.

(** C30 — Ranking returns every candidate exactly once with its score, the best
    score first and equal scores by id; and when the ids differ the answer does
    not depend on the order in which the candidates came. *)
Theorem ranking_is_canonical (cs : list (candidate Doc)) (out : list (candidate Doc * float)) :
  rank cs = inr out →
  map fst out ≡ₚ cs ∧ (∀ c s, (c, s) ∈ out → score_of c = inr s) ∧
  (∀ i j a b, (i < j)%nat → out !! i = Some a → out !! j = Some b →
    b.2 < a.2 ∨ a.2 == b.2 ∧ String.leb (id_text a.1) (id_text b.1) = true) ∧
  (NoDup (map id_text cs) → ∀ cs', cs' ≡ₚ cs → rank cs' = inr out).
Proof.
  intros Hr. pose proof (rank_strongly_sorted cs out Hr) as Hsort. split_and!.
  - destruct (rank_inv cs out Hr) as (scored & Hs & ->). rewrite <-(score_all_fst cs scored Hs). apply fmap_Permutation, sort_le_perm.
  - intros c s Hx. by apply (rank_elem cs out (c, s)).
  - intros i j a b Hij Hi Hj. apply ranks_before_spec. exact (strongly_sorted_lookup _ out i j a b Hsort Hi Hj Hij).
  - intros Hid cs' Hp. destruct (rank_inv cs out Hr) as (scored & Hs & ->). destruct (score_all_perm cs cs' scored Hp Hs) as (scored' & Hs' & Hp').
    unfold rank. rewrite Hs'. f_equal. apply (sorting.Sorted_unique_strong (in_order ranks_before)); [|apply sort_le_sorted, ranks_before_total..|by rewrite !sort_le_perm].
    intros x y Hx Hy Hxy%ranks_before_spec Hyx%ranks_before_spec. rewrite sort_le_perm in Hx, Hy. rewrite Hp' in Hx.
    assert (Eid : id_text x.1 = id_text y.1) by (destruct Hxy as [?|[? ?]], Hyx as [?|[? ?]]; [exfalso; qlra..|by apply text_leb_antisym]).
    rewrite <-(score_all_fst cs scored Hs), map_map in Hid. by apply (map_key_inj (λ x, id_text x.1) scored).
Qed.

(** C12 — Relevance comes first, then the shop, then distance: in a ranking a
    candidate three times as relevant as another stands before it, whatever
    their sellers, distances and buyer; of two with the same relevance and the
    same interest, the one from a seller whose quality is better by a quarter
    (1.26) stands first, however far it is. *)
Theorem relevance_then_quality_then_distance (cs : list (candidate Doc)) (out : list (candidate Doc * float)) (i j : nat) a b :
  rank cs = inr out → out !! i = Some a → out !! j = Some b → 0 < cd_relevance a.1 →
  3 * cd_relevance b.1 <= cd_relevance a.1 ∨
  cd_relevance b.1 = cd_relevance a.1 ∧ cd_affinity b.1 = cd_affinity a.1 ∧
    (∃ qa qb, quality_boost (cd_quality a.1) = inr qa ∧ quality_boost (cd_quality b.1) = inr qb ∧ (126 # 100) * qb <= qa) →
  (i < j)%nat.
Proof.
  intros Hr Hi Hj Hpos Hcase. pose proof (rank_strongly_sorted cs out Hr) as Hsort.
  destruct (rank_elem cs out a Hr) as [_ Ha]; [by eapply list_elem_of_lookup_2|].
  destruct (rank_elem cs out b Hr) as [_ Hb]; [by eapply list_elem_of_lookup_2|]. unfold score_of in Ha, Hb.
  assert (Hlt : b.2 < a.2).
  { destruct Hcase as [H3|(Er & Ea & qa & qb & Hqa & Hqb & Hq)]; [by eapply three_times_relevant|]. rewrite Er, Ea in Hb.
    exact (better_shop_wins _ _ _ _ _ _ qa qb _ _ Hpos Hqa Hqb Hq Ha Hb). }
  destruct (Nat.lt_trichotomy i j) as [|[->|Hji]]; [done| |].
  - rewrite Hi in Hj. simplify_eq. exfalso. qlra.
  - pose proof (strongly_sorted_lookup _ out j i b a Hsort Hj Hi Hji) as Hba. apply ranks_before_spec in Hba as [?|[? _]]; exfalso; qlra.
Qed.
End order.

(** ** An excellent shop forty kilometres away, and a mediocre one next door *)

#[local] Existing Instances coarse_libm coarse_laws.

Definition excellent : QualityInputs :=
  {| rating := Some (rnd (48 # 10)); review_count := Some 200%Z; confidence := Some (rnd (9 # 10));
     on_time_dispatch_rate := Some 1; cancellation_rate := Some 0; return_rate := Some 0 |}.
Definition mediocre : QualityInputs :=
  {| rating := Some (5 # 2); review_count := Some 200%Z; confidence := Some (rnd (9 # 10));
     on_time_dispatch_rate := Some (1 # 2); cancellation_rate := Some (1 # 4); return_rate := Some (1 # 2) |}.

Definition next_door : candidate string := Candidate (Some "p1") 2 (Some mediocre) (Some 0) None "next door".
Definition far_away : candidate string := Candidate (Some "p2") 2 (Some excellent) (Some 40) None "far away".
Definition off_topic : candidate string := Candidate (Some "p0") (1 # 2) (Some excellent) (Some 0) (Some 1) "off topic".

Definition results : list (candidate string * float) :=
  match rank [next_door; off_topic; far_away] with inr out => out | inl _ => [] end.

Lemma ranking_is_canonical_witness :
  map (λ x, cd_source x.1) results = ["far away"; "next door"; "off topic"] ∧
  rank [far_away; next_door; off_topic] = inr results.
Proof.
  split; [vm_compute; reflexivity|].
  apply (ranking_is_canonical [next_door; off_topic; far_away] results); [vm_compute; reflexivity|by_compute|].
  apply (Permutation_cons_append [next_door; off_topic]).
Defined.

Lemma relevance_then_quality_then_distance_witness : (0 < 1)%nat ∧ (1 < 2)%nat.
Proof.
  split.
  - apply (relevance_then_quality_then_distance [next_door; off_topic; far_away] results 0 1 (far_away, default 0 (snd <$> results !! 0%nat)) (next_door, default 0 (snd <$> results !! 1%nat)));
      [vm_compute; reflexivity..|by vm_compute|].
    right. split_and!; [reflexivity|reflexivity|]. eexists _, _. split_and!; [vm_compute; reflexivity|vm_compute; reflexivity|]. vm_compute. discriminate.
  - apply (relevance_then_quality_then_distance [next_door; off_topic; far_away] results 1 2 (next_door, default 0 (snd <$> results !! 1%nat)) (off_topic, default 0 (snd <$> results !! 2%nat)));
      [vm_compute; reflexivity..|by vm_compute|]. left. vm_compute. discriminate.
Defined.
End RankingRules.
