(* ===== verification/SellerMetrics.v ===== *)
(** * Seller performance

    services/order-saga, app/services/seller_metrics.py, the read
    [seller_performance] of saga_orchestrator.py, and reviews_client.py, which
    asks the reviews service for a rating behind a breaker. *)

From Stdlib Require Import QArith Lqa.
From S2P Require Import Prelude PyValue OrderDb Resilience CatalogService Float64 RankingRules.
Import OrderDb Resilience CatalogService Float64 RankingRules.

Module SellerMetrics.
Local Open Scope Q_scope.

Definition ON_TIME_DISPATCH_HOURS : float := 24.
Definition PRIOR_WEIGHT : Z := 20.
Definition PRIOR_ON_TIME_RATE : float := rnd (90 # 100).
Definition PRIOR_CANCELLATION_RATE : float := rnd (5 # 100).
Definition PRIOR_RETURN_RATE : float := rnd (10 # 100).

Definition COMMITTED : list string := ["CONFIRMED"; "DISPATCHED"; "DELIVERED"; "SETTLED"; "RTO_IN_TRANSIT"; "RETURNED"].
Definition CONCLUDED : list string := ["DELIVERED"; "SETTLED"; "RETURNED"].
Definition RETURNED : list string := ["RETURNED"].

Record Metrics := {
  seller_order_count : Z; committed_count : Z; concluded_count : Z;
  m_on_time_dispatch_rate : float; m_cancellation_rate : float; m_return_rate : float; m_confidence : float;
}.

(** [shrink] of counts; [None] is the [ValueError] of a negative count. *)
Definition shrink (successes observations : Z) (prior_rate : float) : option float :=
  if (observations <? 0)%Z || (PRIOR_WEIGHT <? 0)%Z then None
  else
    let total := (observations + PRIOR_WEIGHT)%Z in
    Some (if (total =? 0)%Z then prior_rate
          else fdiv (fadd (of_Z successes) (fmul prior_rate (of_Z PRIOR_WEIGHT))) (of_Z total)).

Definition hours_between (earlier later : option Z) : option float :=
  match earlier, later with
  | Some e, Some l => Some (fdiv (rnd (inject_Z (l - e) / 1000000)) 3600)
  | _, _ => None
  end.

(** What [seller_performance] reads of a seller order. *)
Record order := { o_status : string; o_confirmed_at : option Z; o_dispatched_at : option Z }.

Definition count (l : list order) : Z := Z.of_nat (length l).
Definition is_some {A} (o : option A) : bool := match o with Some _ => true | None => false end.

Definition committed (orders : list order) : list order := List.filter (λ o, o_status o in_ COMMITTED) orders.
Definition concluded (orders : list order) : list order := List.filter (λ o, o_status o in_ CONCLUDED) orders.
Definition cancelled_after_commit (orders : list order) : list order :=
  List.filter (λ o, (o_status o =?s "CANCELLED") && is_some (o_confirmed_at o)) orders.
Definition returned (orders : list order) : list order := List.filter (λ o, o_status o in_ RETURNED) (concluded orders).
Definition dispatched (orders : list order) : list order := List.filter (λ o, is_some (o_dispatched_at o)) (committed orders).

Definition is_on_time (o : order) : bool :=
  match hours_between (o_confirmed_at o) (o_dispatched_at o) with None => true | Some h => fleb h ON_TIME_DISPATCH_HOURS end.

(** [observations / (observations + PRIOR_WEIGHT)], a quotient of integers. *)
Definition confidence_of (observations : Z) : float :=
  if (observations =? 0)%Z then 0 else rnd (inject_Z observations / inject_Z (observations + PRIOR_WEIGHT)).

Definition compute_metrics (orders : list order) : option Metrics :=
  cancellation_rate ← shrink (count (cancelled_after_commit orders)) (count (committed orders) + count (cancelled_after_commit orders)) PRIOR_CANCELLATION_RATE;
  return_rate ← shrink (count (returned orders)) (count (concluded orders)) PRIOR_RETURN_RATE;
  on_time_rate ← shrink (count (List.filter is_on_time (dispatched orders))) (count (dispatched orders)) PRIOR_ON_TIME_RATE;
  Some {| seller_order_count := count orders; committed_count := count (committed orders); concluded_count := count (concluded orders);
          m_on_time_dispatch_rate := on_time_rate; m_cancellation_rate := cancellation_rate; m_return_rate := return_rate;
          m_confidence := confidence_of (Z.max (Z.max (count (committed orders)) (count (concluded orders))) (count (dispatched orders))) |}.

(** A float as JSON writes it and reads it back: its denominator is a power of two. *)
Definition json_of_float (x : float) : json := JFloat (FFin (Qnum x) (- Z.log2 (QDen x))).

(** [as_dict] *)
Definition as_dict (m : Metrics) : list (string * json) :=
  [("seller_order_count", JInt (seller_order_count m)); ("committed_count", JInt (committed_count m)); ("concluded_count", JInt (concluded_count m));
   ("on_time_dispatch_rate", json_of_float (round4 (m_on_time_dispatch_rate m))); ("cancellation_rate", json_of_float (round4 (m_cancellation_rate m)));
   ("return_rate", json_of_float (round4 (m_return_rate m))); ("confidence", json_of_float (round4 (m_confidence m)))].

Definition quality_inputs (m : Metrics) (rating review_count : json) : list (string * json) :=
  [("on_time_dispatch_rate", json_of_float (m_on_time_dispatch_rate m)); ("cancellation_rate", json_of_float (m_cancellation_rate m));
   ("return_rate", json_of_float (m_return_rate m)); ("confidence", json_of_float (m_confidence m)); ("rating", rating); ("review_count", review_count)].

(** ** The rating (reviews_client.py) *)

(** [(rating, review_count)]; [inl] is a body that is JSON and not an object. *)
Definition unknown : string + json * json := inr (JNull, JNull).

Definition fetch_seller_rating (now later : Z) (a : http_answer) (b : AsyncCircuitBreaker) : AsyncCircuitBreaker * (string + json * json) :=
  match enter now b with
  | (b, Some _) => (b, unknown)
  | (b, None) =>
      match a with
      | NoAnswer _ => (leave later (Some None) b, unknown)
      | Answer status body =>
          (leave later None b,
           if negb (status =? 200)%Z then unknown
           else match body with
                | Some (JObj d) => inr (obj_get d "rating", obj_get d "review_count")
                | Some _ => inl "AttributeError"
                | None => unknown
                end)
      end
  end.

(** ** The read (saga_orchestrator.py) *)

Definition order_of (so : SellerOrder) : order :=
  {| o_status := so_status so; o_confirmed_at := so_confirmed_at so; o_dispatched_at := so_dispatched_at so |}.

Definition seller_performance (seller_id : string) (rows : list SellerOrder) (ratings : string + json * json) : string + list (string * json) :=
  match compute_metrics (map order_of (List.filter (λ so, so_seller_id so =?s seller_id) rows)) with
  | None => inl "ValueError"
  | Some metrics =>
      match ratings with
      | inl e => inl e
      | inr (rating, review_count) =>
          inr (("seller_id", JStr seller_id) :: as_dict metrics ++
               [("rating", rating); ("review_count", review_count); ("quality", JObj (quality_inputs metrics rating review_count))])
      end
  end.

(** ** A rate and its prior *)

Lemma count_nonneg l : (0 <= count l)%Z.
Proof. unfold count. lia. Qed.

Lemma filter_count p l : (count (List.filter p l) <= count l)%Z.
Proof. unfold count. induction l as [|x l IH]; cbn; [lia|]. destruct (p x); cbn; lia. Qed.

(** The exact value behind [shrink], before its last two roundings. *)
Definition prior_share (prior : float) : float := fmul prior (of_Z PRIOR_WEIGHT).

Lemma shrink_eq s n prior : (0 <= n)%Z → shrink s n prior = Some (fdiv (fadd (of_Z s) (prior_share prior)) (of_Z (n + PRIOR_WEIGHT))).
Proof.
  intros Hn. unfold shrink. rewrite (proj2 (Z.ltb_ge n 0)) by done. cbn [orb]. unfold PRIOR_WEIGHT at 1. cbn [Z.ltb Z.compare].
  rewrite (proj2 (Z.eqb_neq _ _)) by (unfold PRIOR_WEIGHT; lia). done.
Qed.

Definition small (n : Z) : Prop := (0 <= n < 2 ^ 52)%Z.

Lemma of_Z_small z : (0 <= z <= 2 ^ 53)%Z → of_Z z == inject_Z z.
Proof. intros Hz. apply of_Z_exact. lia. Qed.

(** The priors amount to 18, 1 and 2 pseudo-observations exactly. *)
Definition pseudo (prior : float) (k : Z) : Prop := (0 <= k <= 19)%Z ∧ prior_share prior = inject_Z k.

Lemma priors : pseudo PRIOR_ON_TIME_RATE 18 ∧ pseudo PRIOR_CANCELLATION_RATE 1 ∧ pseudo PRIOR_RETURN_RATE 2.
Proof. split_and!; (split; [lia|float_eq]). Qed.

(** One rounding of the exact quotient. *)
Lemma shrink_exact s n prior k : pseudo prior k → (0 <= s <= n)%Z → small n →
  shrink s n prior = Some (rnd (inject_Z (s + k) / inject_Z (n + 20))).
Proof.
  intros [Hk Ek] Hs [Hn1 Hn2]. rewrite shrink_eq by done. rewrite Ek. f_equal. unfold fdiv, fadd, PRIOR_WEIGHT. apply rnd_ext.
  rewrite (of_Z_small (n + 20)) by lia. rewrite (rnd_ext _ (inject_Z (s + k))); [|rewrite of_Z_small by lia; by rewrite inject_Z_plus].
  fold (of_Z (s + k)). by rewrite (of_Z_small (s + k)) by lia.
Qed.

Lemma quotient_le a b c d : (0 < b)%Z → (0 < d)%Z → (a * d <= c * b)%Z → inject_Z a / inject_Z b <= inject_Z c / inject_Z d.
Proof.
  intros Hb Hd H. assert (Hbq : 0 < inject_Z b) by (unfold Qlt; cbn; lia). assert (Hdq : 0 < inject_Z d) by (unfold Qlt; cbn; lia).
  apply Qle_shift_div_l; [done|]. assert (E : inject_Z a / inject_Z b * inject_Z d == inject_Z a * inject_Z d / inject_Z b) by (field; intros E; rewrite E in Hbq; qlra).
  rewrite E.   apply Qle_shift_div_r; [done|]. rewrite <-!inject_Z_mult, <-Zle_Qle. done.
Qed.

Lemma shrink_unit s n prior k : pseudo prior k → (0 <= s <= n)%Z → small n → ∃ v, shrink s n prior = Some v ∧ 0 <= v <= 1.
Proof.
  intros Hp Hs Hn. rewrite (shrink_exact s n prior k) by done. eexists. split; [done|]. destruct Hp as [Hk _].
  apply rnd_between; [float_eq|float_eq|]. split.
  - apply (quotient_le 0 1); lia.
  - apply (quotient_le _ _ 1 1); lia.
Qed.

(** One more observation: against, and in favour. *)
Lemma shrink_against s n prior k v v' : pseudo prior k → (0 <= s <= n)%Z → small (n + 1) →
  shrink s n prior = Some v → shrink (s + 1) (n + 1) prior = Some v' → v <= v'.
Proof.
  intros Hp Hs Hn. assert (small n) by (unfold small in *; lia). rewrite !(shrink_exact _ _ prior k) by (done || lia).
  intros <-%(inj Some) <-%(inj Some). destruct Hp as [Hk _]. apply rnd_mono, quotient_le; nia.
Qed.

Lemma shrink_in_favour s n prior k v v' : pseudo prior k → (0 <= s <= n)%Z → small (n + 1) →
  shrink s n prior = Some v → shrink s (n + 1) prior = Some v' → v' <= v.
Proof.
  intros Hp Hs Hn. assert (small n) by (unfold small in *; lia). rewrite !(shrink_exact _ _ prior k) by (done || lia).
  intros <-%(inj Some) <-%(inj Some). destruct Hp as [Hk _]. apply rnd_mono, quotient_le; nia.
Qed.

(** ** The record of a seller *)

Lemma count_snoc p l o : count (List.filter p (l ++ [o])) = (count (List.filter p l) + (if p o then 1 else 0))%Z.
Proof. unfold count. rewrite List.filter_app, length_app. cbn. destruct (p o); cbn; lia. Qed.

Lemma filter_filter {A} (p q : A → bool) l : List.filter p (List.filter q l) = List.filter (λ x, q x && p x) l.
Proof. induction l as [|x l IH]; [done|]. cbn. destruct (q x); cbn; [destruct (p x); by rewrite IH|done]. Qed.

Lemma filter_le {A} (p q : A → bool) l : (∀ x, p x = true → q x = true) → (length (List.filter p l) <= length (List.filter q l))%nat.
Proof. intros H. induction l as [|x l IH]; [done|]. cbn. destruct (p x) eqn:E; [rewrite (H x E); cbn; lia|destruct (q x); cbn; lia]. Qed.

Definition few (orders : list order) : Prop := (count orders < 2 ^ 51)%Z.

Lemma few_small p orders : few orders → small (count (List.filter p orders)).
Proof. intros Hf. pose proof (filter_count p orders). pose proof (count_nonneg (List.filter p orders)). unfold few, small in *. lia. Qed.

Lemma committed_apart orders : (count (committed orders) + count (cancelled_after_commit orders) <= count orders)%Z.
Proof.
  unfold committed, cancelled_after_commit, count. induction orders as [|o orders IH]; [done|]. cbn.
  destruct (o_status o =?s "CANCELLED") eqn:E; bool_to_prop.
  - rewrite E. change ("CANCELLED" in_ COMMITTED) with false. cbn. destruct (is_some _); cbn; lia.
  - cbn. destruct (o_status o in_ COMMITTED); cbn; lia.
Qed.

(** The three rates as functions of the counts, all of them defined. *)
Lemma metrics_shape orders : few orders → ∃ c r t, compute_metrics orders = Some
  {| seller_order_count := count orders; committed_count := count (committed orders); concluded_count := count (concluded orders);
     m_on_time_dispatch_rate := t; m_cancellation_rate := c; m_return_rate := r;
     m_confidence := confidence_of (Z.max (Z.max (count (committed orders)) (count (concluded orders))) (count (dispatched orders))) |} ∧
  shrink (count (cancelled_after_commit orders)) (count (committed orders) + count (cancelled_after_commit orders)) PRIOR_CANCELLATION_RATE = Some c ∧
  shrink (count (returned orders)) (count (concluded orders)) PRIOR_RETURN_RATE = Some r ∧
  shrink (count (List.filter is_on_time (dispatched orders))) (count (dispatched orders)) PRIOR_ON_TIME_RATE = Some t ∧
  0 <= c <= 1 ∧ 0 <= r <= 1 ∧ 0 <= t <= 1.
Proof.
  intros Hf. destruct priors as (P1 & P2 & P3). pose proof (committed_apart orders) as Ha.
  destruct (shrink_unit (count (cancelled_after_commit orders)) (count (committed orders) + count (cancelled_after_commit orders)) _ _ P2) as (c & Ec & Hc).
  { pose proof (count_nonneg (cancelled_after_commit orders)). pose proof (count_nonneg (committed orders)). lia. }
  { pose proof (count_nonneg (cancelled_after_commit orders)). pose proof (count_nonneg (committed orders)). unfold few, small in *. lia. }
  destruct (shrink_unit (count (returned orders)) (count (concluded orders)) _ _ P3) as (r & Er & Hr).
  { unfold returned. split; [apply count_nonneg|apply filter_count]. }
  { by apply few_small. }
  destruct (shrink_unit (count (List.filter is_on_time (dispatched orders))) (count (dispatched orders)) _ _ P1) as (t & Et & Ht).
  { split; [apply count_nonneg|apply filter_count]. }
  { unfold dispatched, committed. rewrite filter_filter. by apply few_small. }
  exists c, r, t. unfold compute_metrics. rewrite Ec, Er, Et. done.
Qed.

Lemma confidence_unit n : (0 <= n)%Z → 0 <= confidence_of n <= 1.
Proof.
  intros Hn. unfold confidence_of. destruct (Z.eqb_spec n 0); [by vm_compute|]. unfold PRIOR_WEIGHT.
  apply rnd_between; [float_eq|float_eq|]. split; [apply (quotient_le 0 1)|apply (quotient_le _ _ 1 1)]; lia.
Qed.

Lemma snoc_irrelevant {A} (p : A → bool) l o : p o = false → List.filter p (l ++ [o]) = List.filter p l.
Proof. intros E. rewrite List.filter_app. cbn. by rewrite E, app_nil_r. Qed.

(** Seller metrics are a record and not a rumour: every rate is defined
    and between 0 and 1; with no record the rates are exactly the priors and the
    confidence is 0; an order the seller never accepted changes no rate; and one
    more returned parcel never improves the return rate, one more delivered
    never worsens it, and one more accepted order cancelled never improves the
    cancellation rate. *)
Theorem seller_metrics_are_fair (orders : list order) : (count orders + 1 < 2 ^ 51)%Z →
  ∃ m, compute_metrics orders = Some m ∧
  0 <= m_on_time_dispatch_rate m <= 1 ∧ 0 <= m_cancellation_rate m <= 1 ∧ 0 <= m_return_rate m <= 1 ∧ 0 <= m_confidence m <= 1 ∧
  (committed orders = [] → cancelled_after_commit orders = [] → concluded orders = [] →
    m_on_time_dispatch_rate m = PRIOR_ON_TIME_RATE ∧ m_cancellation_rate m = PRIOR_CANCELLATION_RATE ∧ m_return_rate m = PRIOR_RETURN_RATE ∧ m_confidence m = 0) ∧
  (∀ o, ∃ m', compute_metrics (orders ++ [o]) = Some m' ∧
    ((o_status o in_ COMMITTED) = false → (o_status o in_ CONCLUDED) = false → (o_status o = "CANCELLED" → o_confirmed_at o = None) →
      (m_on_time_dispatch_rate m', m_cancellation_rate m', m_return_rate m', m_confidence m') =
      (m_on_time_dispatch_rate m, m_cancellation_rate m, m_return_rate m, m_confidence m)) ∧
    (o_status o = "RETURNED" → m_return_rate m <= m_return_rate m') ∧
    (o_status o = "DELIVERED" → m_return_rate m' <= m_return_rate m) ∧
    (o_status o = "CANCELLED" → is_some (o_confirmed_at o) = true → m_cancellation_rate m <= m_cancellation_rate m')).
Proof.
  intros Hf2. assert (Hf : few orders) by (unfold few; lia).
  destruct (metrics_shape orders Hf) as (c & r & t & Em & Ec & Er & Et & Hc & Hr & Ht). eexists. split; [exact Em|].
  cbn [m_on_time_dispatch_rate m_cancellation_rate m_return_rate m_confidence]. split_and!; try apply Hc; try apply Hr; try apply Ht.
  - apply confidence_unit. pose proof (count_nonneg (dispatched orders)). lia.
  - apply confidence_unit. pose proof (count_nonneg (dispatched orders)). lia.
  - intros E1 E2 E3. unfold returned, dispatched in *. rewrite E1, E2, E3 in *. cbn in Ec, Er, Et.
    apply (inj Some) in Ec, Er, Et. subst c r t. vm_compute. done.
  - intros o. assert (Hl : count (orders ++ [o]) = (count orders + 1)%Z) by (unfold count; rewrite length_app; cbn; lia).
    assert (Hf' : few (orders ++ [o])) by (unfold few; lia).
    destruct (metrics_shape (orders ++ [o]) Hf') as (c' & r' & t' & Em' & Ec' & Er' & Et' & _). eexists. split; [exact Em'|].
    cbn [m_on_time_dispatch_rate m_cancellation_rate m_return_rate m_confidence]. destruct priors as (P1 & P2 & P3). split_and!.
    + intros N1 N2 N3.
      assert (F1 : committed (orders ++ [o]) = committed orders) by by apply snoc_irrelevant.
      assert (F2 : concluded (orders ++ [o]) = concluded orders) by by apply snoc_irrelevant.
      assert (F3 : cancelled_after_commit (orders ++ [o]) = cancelled_after_commit orders).
      { apply snoc_irrelevant. destruct (o_status o =?s "CANCELLED") eqn:E; [|done]. bool_to_prop. by rewrite N3. }
      unfold returned, dispatched in *. rewrite F1, F2, F3 in *. congruence.
    + intros Eo. eapply (shrink_against _ _ _ _ _ _ P3); [|by apply (few_small (λ o, o_status o in_ CONCLUDED)) in Hf'; rewrite count_snoc, Eo in Hf'|exact Er|].
      * unfold returned. split; [apply count_nonneg|apply filter_count].
      * unfold returned, concluded in *. rewrite filter_filter in *. rewrite !count_snoc, Eo in Er'. exact Er'.
    + intros Eo. eapply (shrink_in_favour _ _ _ _ _ _ P3); [|by apply (few_small (λ o, o_status o in_ CONCLUDED)) in Hf'; rewrite count_snoc, Eo in Hf'|exact Er|].
      * unfold returned. split; [apply count_nonneg|apply filter_count].
      * unfold returned, concluded in *. rewrite filter_filter in *. rewrite !count_snoc, Eo in Er'. by rewrite Z.add_0_r in Er'.
    + intros Eo Eok. pose proof (committed_apart orders) as Ha. eapply (shrink_against _ _ _ _ _ _ P2); [| |exact Ec|].
      * pose proof (count_nonneg (cancelled_after_commit orders)). pose proof (count_nonneg (committed orders)). lia.
      * pose proof (count_nonneg (cancelled_after_commit orders)). pose proof (count_nonneg (committed orders)). unfold small. lia.
      * unfold committed, cancelled_after_commit in *. rewrite !count_snoc, Eo, Eok in Ec'. cbn in Ec'. by rewrite Z.add_0_r, Z.add_assoc in Ec'.
Qed.

Definition parcel (status : string) : order := {| o_status := status; o_confirmed_at := Some 0%Z; o_dispatched_at := Some 3600000000%Z |}.

(** One returned order of one is not a return rate of one. *)
Example one_return_is_not_a_hundred_per_cent :
  match compute_metrics [parcel "RETURNED"] with Some m => fltb (m_return_rate m) (15 # 100) | None => false end = true.
Proof. vm_compute. reflexivity. Qed.

Lemma seller_metrics_are_fair_witness : ∃ m, compute_metrics [parcel "DELIVERED"; parcel "RETURNED"] = Some m ∧ 0 <= m_return_rate m <= 1.
Proof.
  destruct (seller_metrics_are_fair [parcel "DELIVERED"; parcel "RETURNED"]) as (m & Em & _ & _ & Hr & _); [vm_compute; reflexivity|].
  exists m. split; [exact Em|exact Hr].
Defined.
End SellerMetrics.
