(* ===== verification/Personalisation.v ===== *)
(** * What a buyer has shown interest in

    Module [AffinityRules]: shared/libs/python-common/affinity_rules.py, which
    builds a profile from a buyer's history, and scores a product with it.
    Module [Personalisation]: services/personalisation-service,
    app/services/behaviour_service.py and the identity check of its routes, over
    the table of events.  Times are microseconds. *)

From Stdlib Require Import QArith Lqa.
From stdpp Require sorting.
From S2P Require Import Prelude PyValue Session Float64 RankingRules.
Import Float64 RankingRules.

Module AffinityRules.
Local Open Scope Q_scope.

Definition EVENT_WEIGHTS : list (string * float) := [("view", 1); ("cart_add", 3); ("purchase", 8)].
Definition HALF_LIFE_DAYS : float := 30.
Definition MIN_EVENTS_FOR_AFFINITY : float := 5.
Definition MAX_SINGLE_AFFINITY : float := rnd (85 # 100).
Definition CATEGORY_WEIGHT : float := rnd (7 # 10).
Definition SELLER_WEIGHT : float := rnd (3 # 10).
Definition NEUTRAL_AFFINITY : float := rnd (4 # 10).

Record BehaviourEvent := { ev_kind : string; ev_category_id : option string; ev_seller_id : option string; ev_occurred_at : Z }.

Record AffinityProfile := { categories : list (string * float); sellers : list (string * float); total_weight : float }.

(** [profile.known] *)
Definition known (p : AffinityProfile) : bool := fleb MIN_EVENTS_FOR_AFFINITY (total_weight p).

(** [if text:] for an optional text *)
Definition named (o : option string) : option string :=
  match o with Some s => if is_empty s then None else Some s | None => None end.

Section profile.
Context `{Libm}.

(** [(now - occurred_at).total_seconds()] *)
Definition total_seconds (us : Z) : float := rnd (inject_Z us / 1000000).

(** [None] is the [ValueError] of a half life that is not positive. *)
Definition decay_factor (occurred_at now : Z) (half_life_days : float) : option float :=
  if fleb half_life_days 0 then None
  else
    let age_days := fdiv (total_seconds (now - occurred_at)) 86400 in
    Some (if fleb age_days 0 then 1 else math_pow (1 # 2) (fdiv age_days half_life_days)).

Definition add_weight (weights : list (string * float)) (key : option string) (w : float) : list (string * float) :=
  match named key with
  | Some k => dict_set weights k (fadd (default 0 (dict_get weights k)) w)
  | None => weights
  end.

(** [categories], [sellers] and [total] of the loop. *)
Definition tally : Type := list (string * float) * list (string * float) * float.

Definition count_event (now : Z) (half_life_days : float) (acc : tally) (e : BehaviourEvent) : option tally :=
  match dict_get EVENT_WEIGHTS (ev_kind e) with
  | None => Some acc
  | Some w =>
      decay ← decay_factor (ev_occurred_at e) now half_life_days;
      let w := fmul w decay in
      Some (add_weight acc.1.1 (ev_category_id e) w, add_weight acc.1.2 (ev_seller_id e) w, fadd acc.2 w)
  end.

Fixpoint count_events (now : Z) (half_life_days : float) (acc : tally) (events : list BehaviourEvent) : option tally :=
  match events with
  | [] => Some acc
  | e :: es => acc ← count_event now half_life_days acc e; count_events now half_life_days acc es
  end.

(** [max(weights.values())] of a dictionary that is not empty. *)
Definition strongest (first : float) (rest : list (string * float)) : float := foldl (λ m e, fmax m e.2) first rest.

Definition _normalise (weights : list (string * float)) : list (string * float) :=
  match weights with
  | [] => []
  | e :: es =>
      let top := strongest e.2 es in
      if fleb top 0 then [] else map (λ e, (e.1, fdiv e.2 top)) weights
  end.

Definition build_profile_at (events : list BehaviourEvent) (now : Z) (half_life_days : float) : option AffinityProfile :=
  acc ← count_events now half_life_days ([], [], 0) events;
  Some {| categories := _normalise acc.1.1; sellers := _normalise acc.1.2; total_weight := acc.2 |}.

Definition build_profile (events : list BehaviourEvent) (now : Z) : option AffinityProfile :=
  build_profile_at events now HALF_LIFE_DAYS.
End profile.

Definition score_in (weights : list (string * float)) (key : option string) : option float :=
  match named key with Some k => dict_get weights k | None => None end.

Definition affinity_for (profile : option AffinityProfile) (category_id seller_id : option string) : option float :=
  match profile with
  | None => None
  | Some p =>
      if negb (known p) then None
      else match score_in (categories p) category_id, score_in (sellers p) seller_id with
      | None, None => Some NEUTRAL_AFFINITY
      | c, s =>
          Some (fmin MAX_SINGLE_AFFINITY
            (fadd (fmul CATEGORY_WEIGHT (default NEUTRAL_AFFINITY c)) (fmul SELLER_WEIGHT (default NEUTRAL_AFFINITY s))))
      end
  end.

(** The wire form. *)
Record ProfileDict := { pd_categories : list (string * float); pd_sellers : list (string * float); pd_known : bool }.

Definition stronger (a b : string * float) : bool := fleb b.2 a.2.

Definition _top (weights : list (string * float)) (limit : nat) : list (string * float) := take limit (sort_le stronger weights).

Definition profile_as_dict_at (profile : AffinityProfile) (limit : nat) : ProfileDict :=
  {| pd_categories := _top (categories profile) limit; pd_sellers := _top (sellers profile) limit; pd_known := known profile |}.

Definition profile_as_dict (profile : AffinityProfile) : ProfileDict := profile_as_dict_at profile 20.

Definition profile_from_dict (data : option ProfileDict) : option AffinityProfile :=
  match data with
  | None => None
  | Some d =>
      if negb (pd_known d) then None
      else Some {| categories := pd_categories d; sellers := pd_sellers d; total_weight := MIN_EVENTS_FOR_AFFINITY |}
  end.

Definition US_PER_DAY : Z := 86400 * 1000000.

Definition retention_cutoff (now days : Z) : Z := (now - days * US_PER_DAY)%Z.

(** ** Weights *)

Definition unit_weights (ws : list (string * float)) : Prop := ∀ k w, (k, w) ∈ ws → 0 <= w <= 1.
Definition positive_weights (ws : list (string * float)) : Prop := ∀ k w, (k, w) ∈ ws → 0 <= w.

Lemma fmax_ge a b : a <= fmax a b ∧ b <= fmax a b.
Proof. unfold fmax. destruct (fltb_spec a b); split; qlra. Qed.

Lemma strongest_ge first rest : first <= strongest first rest ∧ ∀ e, e ∈ rest → e.2 <= strongest first rest.
Proof.
  unfold strongest. revert first. induction rest as [|x rest IH]; intros first; cbn; [split; [apply Qle_refl|by intros e ?%elem_of_nil]|].
  destruct (IH (fmax first x.2)) as [H1 H2]. destruct (fmax_ge first x.2) as [F1 F2]. split; [qlra|].
  intros e [->|He]%elem_of_cons; [qlra|by apply H2].
Qed.

Lemma strongest_in first rest : strongest first rest = first ∨ ∃ e, e ∈ rest ∧ strongest first rest = e.2.
Proof.
  unfold strongest. revert first. induction rest as [|x rest IH]; intros first; cbn; [by left|].
  destruct (IH (fmax first x.2)) as [->|(e & He & ->)]; [|right; exists e; split; [by right|done]].
  unfold fmax. destruct (fltb first x.2); [right; exists x; split; [by left|done]|by left].
Qed.

(** Normalised weights are between 0 and 1, and the strongest is exactly 1. *)
Lemma normalise_unit ws : positive_weights ws → unit_weights (_normalise ws).
Proof.
  intros Hp k w. unfold _normalise. destruct ws as [|e es]; [by intros ?%elem_of_nil|].
  destruct (fleb_spec (strongest e.2 es) 0) as [|Hs]; [by intros ?%elem_of_nil|]. apply Qnot_le_lt in Hs.
  intros ([k' v] & [= -> ->] & Hin)%elem_of_map. destruct (strongest_ge e.2 es) as [G1 G2].
  assert (Hv : v <= strongest e.2 es) by (apply elem_of_cons in Hin as [<-|Hin]; [done|by apply (G2 (k', v))]).
  pose proof (Hp k' v Hin) as H0. cbn [snd]. unfold fdiv. apply rnd_between; [float_eq|float_eq|]. split.
  - apply Qle_shift_div_l; [done|]. qlra.
  - apply Qle_shift_div_r; [done|]. qlra.
Qed.

Lemma normalise_top ws : _normalise ws = [] ∨ ∃ k, (k, 1) ∈ _normalise ws.
Proof.
  unfold _normalise. destruct ws as [|e es]; [by left|]. destruct (fleb_spec (strongest e.2 es) 0) as [|Hs]; [by left|]. right.
  apply Qnot_le_lt in Hs. assert (E1 : fdiv (strongest e.2 es) (strongest e.2 es) = 1).
  { unfold fdiv. apply float_fix; [float_eq|]. apply Qmult_inv_r. intros E. qlra. }
  destruct (strongest_in e.2 es) as [E|(x & Hx & E)]; rewrite E in *.
  - exists e.1. apply elem_of_map. exists e. split; [by rewrite E1|by left].
  - exists x.1. apply elem_of_map. exists x. split; [by rewrite E1|by right].
Qed.

Lemma normalise_keys ws : _normalise ws = [] ∨ (_normalise ws).*1 = ws.*1.
Proof.
  unfold _normalise. destruct ws as [|e es]; [by left|]. destruct (fleb _ 0); [by left|]. right. rewrite <-list_fmap_compose. by apply list_fmap_ext.
Qed.

(** ** Profiles *)

Section build.
Context `{LibmLaws}.

Lemma decay_unit occurred now : ∃ d, decay_factor occurred now HALF_LIFE_DAYS = Some d ∧ 0 <= d <= 1.
Proof.
  unfold decay_factor. change (fleb HALF_LIFE_DAYS 0) with false. cbv iota. eexists. split; [done|].
  set (age := fdiv _ _). destruct (fleb_spec age 0) as [|Ha]; [by vm_compute|]. apply Qnot_le_lt in Ha. apply half_power_unit.
  unfold fdiv. apply rnd_nonneg. apply Qle_shift_div_l; [by vm_compute|]. qlra.
Qed.

Lemma dict_set_elem {V} (d : list (string * V)) k v k' v' : (k', v') ∈ dict_set d k v → (k', v') = (k, v) ∨ (k', v') ∈ d.
Proof.
  induction d as [|[k0 v0] d IH]; cbn; [intros Hx%list_elem_of_singleton; by left|]. destruct (decide (k = k0)) as [->|].
  - intros [E|Hx]%elem_of_cons; [by left|by right; right].
  - intros [E|Hx]%elem_of_cons; [right; rewrite E; by left|]. destruct (IH Hx); [by left|by right; right].
Qed.

Lemma add_weight_positive ws key w : positive_weights ws → 0 <= w → positive_weights (add_weight ws key w).
Proof.
  intros Hp Hw. unfold add_weight. destruct (named key) as [k|]; [|done]. intros k' w' Hin.
  apply dict_set_elem in Hin as [[= -> ->]|Hin]; [|by eapply Hp]. unfold fadd. apply rnd_nonneg.
  destruct (dict_get ws k) as [v|] eqn:E; cbn [default from_option id]; [|qlra]. apply dict_get_elem, Hp in E. unfold id. qlra.
Qed.

Lemma add_weight_nodup ws key w : NoDup ws.*1 → NoDup (add_weight ws key w).*1.
Proof. intros Hn. unfold add_weight. destruct (named key); [by apply dict_set_nodup|done]. Qed.

Definition tally_ok (acc : tally) : Prop :=
  positive_weights acc.1.1 ∧ positive_weights acc.1.2 ∧ NoDup (acc.1.1).*1 ∧ NoDup (acc.1.2).*1 ∧ 0 <= acc.2.

Lemma known_weight k w : dict_get EVENT_WEIGHTS k = Some w → 0 <= w.
Proof. intros Hk%dict_get_elem. unfold EVENT_WEIGHTS in Hk. elem_cases Hk; by vm_compute. Qed.

Lemma count_event_ok now acc e : tally_ok acc → ∃ acc', count_event now HALF_LIFE_DAYS acc e = Some acc' ∧ tally_ok acc'.
Proof.
  intros (P1 & P2 & N1 & N2 & Ht). unfold count_event. destruct (dict_get EVENT_WEIGHTS (ev_kind e)) as [w|] eqn:E; [|by exists acc].
  apply known_weight in E. destruct (decay_unit (ev_occurred_at e) now) as (d & -> & Hd). cbn [mbind option_bind]. eexists. split; [done|].
  assert (Hw : 0 <= fmul w d) by (apply fmul_nonneg; [done|apply Hd]). unfold tally_ok. cbn [fst snd].
  split_and!; [by apply add_weight_positive|by apply add_weight_positive|by apply add_weight_nodup|by apply add_weight_nodup|].
  unfold fadd. apply rnd_nonneg. qlra.
Qed.

Lemma count_events_ok now events acc : tally_ok acc → ∃ acc', count_events now HALF_LIFE_DAYS acc events = Some acc' ∧ tally_ok acc'.
Proof.
  revert acc. induction events as [|e es IH]; intros acc Hok; [by exists acc|]. cbn [count_events].
  destruct (count_event_ok now acc e Hok) as (acc' & -> & Hok'). by apply IH.
Qed.

Record profile_ok (p : AffinityProfile) : Prop := {
  po_categories : unit_weights (categories p); po_sellers : unit_weights (sellers p);
  po_category_keys : NoDup (categories p).*1; po_seller_keys : NoDup (sellers p).*1;
  po_top : categories p = [] ∨ ∃ c, dict_get (categories p) c = Some 1;
  po_top_seller : sellers p = [] ∨ ∃ s, dict_get (sellers p) s = Some 1;
}.

(** A history always gives a profile, with weights between 0 and 1. *)
Lemma build_profile_ok events now : ∃ p, build_profile events now = Some p ∧ profile_ok p.
Proof.
  unfold build_profile, build_profile_at. destruct (count_events_ok now events ([], [], 0)) as (acc & -> & P1 & P2 & N1 & N2 & _).
  { split_and!; [by intros ? ? ?%elem_of_nil|by intros ? ? ?%elem_of_nil|constructor|constructor|done]. }
  cbn [mbind option_bind]. eexists. split; [done|]. assert (Hn : ∀ ws, NoDup ws.*1 → NoDup (_normalise ws).*1).
  { intros ws Hws. destruct (normalise_keys ws) as [-> | ->]; [constructor|done]. }
  split; cbn [categories sellers]; [by apply normalise_unit|by apply normalise_unit|by apply Hn|by apply Hn|..].
  - destruct (normalise_top acc.1.1) as [|(c & Hc)]; [by left|]. right. exists c. by apply elem_dict_get; [apply Hn|].
  - destruct (normalise_top acc.1.2) as [|(c & Hc)]; [by left|]. right. exists c. by apply elem_dict_get; [apply Hn|].
Qed.
End build.

(** ** Scores of a product *)

(** The affinity of a product whose category or seller is in the profile. *)
Definition mix (c s : float) : float := fmin MAX_SINGLE_AFFINITY (fadd (fmul CATEGORY_WEIGHT c) (fmul SELLER_WEIGHT s)).

Lemma fmin_le a b : fmin a b <= a ∧ fmin a b <= b.
Proof. unfold fmin. destruct (fltb_spec b a); split; qlra. Qed.

Lemma fmin_mono a b b' : b <= b' → fmin a b <= fmin a b'.
Proof. intros Hb. unfold fmin. destruct (fltb_spec b a), (fltb_spec b' a); qlra. Qed.

Lemma mix_mono c c' s s' : 0 <= c → 0 <= s → c <= c' → s <= s' → mix c s <= mix c' s'.
Proof.
  intros Hc Hs Lc Ls. unfold mix, fadd. apply fmin_mono, rnd_mono.
  pose proof (fmul_mono CATEGORY_WEIGHT CATEGORY_WEIGHT c c' ltac:(by vm_compute) Hc ltac:(apply Qle_refl) Lc).
  pose proof (fmul_mono SELLER_WEIGHT SELLER_WEIGHT s s' ltac:(by vm_compute) Hs ltac:(apply Qle_refl) Ls). qlra.
Qed.

Lemma boost_mono a b : a <= b → personalisation_boost (Some a) <= personalisation_boost (Some b).
Proof.
  intros Hab. unfold personalisation_boost, fadd. apply rnd_mono.
  assert (Hc : clamp a 0 1 <= clamp b 0 1).
  { unfold clamp. pose proof (fmin_mono 1 a b Hab). unfold fmax. destruct (fltb_spec 0 (fmin 1 a)), (fltb_spec 0 (fmin 1 b)); qlra. }
  destruct (clamp_range a 0 1 ltac:(by vm_compute)) as [Ha _].
  pose proof (fmul_mono (fsub PERSONALISATION_MAX PERSONALISATION_MIN) (fsub PERSONALISATION_MAX PERSONALISATION_MIN) (clamp a 0 1) (clamp b 0 1)
    ltac:(by vm_compute) Ha ltac:(apply Qle_refl) Hc). qlra.
Qed.

Lemma affinity_mix p c s : known p = true → (score_in (categories p) c, score_in (sellers p) s) ≠ (None, None) →
  affinity_for (Some p) c s = Some (mix (default NEUTRAL_AFFINITY (score_in (categories p) c)) (default NEUTRAL_AFFINITY (score_in (sellers p) s))).
Proof. intros Hk Hne. unfold affinity_for. rewrite Hk. cbn [negb]. by destruct (score_in (categories p) c), (score_in (sellers p) s). Qed.

Lemma affinity_cases p c s : known p = true →
  affinity_for (Some p) c s = Some NEUTRAL_AFFINITY ∨
  affinity_for (Some p) c s = Some (mix (default NEUTRAL_AFFINITY (score_in (categories p) c)) (default NEUTRAL_AFFINITY (score_in (sellers p) s))).
Proof.
  intros Hk. unfold affinity_for. rewrite Hk. cbn [negb]. destruct (score_in (categories p) c), (score_in (sellers p) s); [by right..|by left].
Qed.

(** An interest is known for both, and no stronger in the first; or for neither. *)
Definition no_stronger (a b : option float) : Prop :=
  match a, b with Some x, Some y => x <= y | None, None => True | _, _ => False end.

Lemma no_stronger_default a b : no_stronger a b → default NEUTRAL_AFFINITY a <= default NEUTRAL_AFFINITY b.
Proof. destruct a, b; cbn; [done|done|done|intros _; apply Qle_refl]. Qed.

Lemma score_in_named ws k : k ≠ "" → score_in ws (Some k) = dict_get ws k.
Proof. intros Hk. unfold score_in, named, is_empty. by rewrite bool_decide_false. Qed.

Lemma score_in_unit ws k v : unit_weights ws → score_in ws k = Some v → 0 <= v <= 1.
Proof. unfold score_in. intros Hu. destruct (named k); [|done]. intros Hg%dict_get_elem. by eapply Hu. Qed.

Lemma default_unit ws k : unit_weights ws → 0 <= default NEUTRAL_AFFINITY (score_in ws k).
Proof. intros Hu. destruct (score_in ws k) as [v|] eqn:E; [by apply (score_in_unit _ _ _ Hu E)|by vm_compute]. Qed.

(** A stronger interest in both dimensions never scores lower. *)
Lemma affinity_mono p c c' s s' : known p = true → unit_weights (categories p) → unit_weights (sellers p) →
  no_stronger (score_in (categories p) c) (score_in (categories p) c') → no_stronger (score_in (sellers p) s) (score_in (sellers p) s') →
  personalisation_boost (affinity_for (Some p) c s) <= personalisation_boost (affinity_for (Some p) c' s').
Proof.
  intros Hk Hc Hs Lc Ls. pose proof (default_unit _ c Hc) as Uc. pose proof (default_unit _ s Hs) as Us.
  assert (Hm : personalisation_boost (Some (mix (default NEUTRAL_AFFINITY (score_in (categories p) c)) (default NEUTRAL_AFFINITY (score_in (sellers p) s))))
    <= personalisation_boost (Some (mix (default NEUTRAL_AFFINITY (score_in (categories p) c')) (default NEUTRAL_AFFINITY (score_in (sellers p) s'))))).
  { apply boost_mono, mix_mono; [done|done|by apply no_stronger_default|by apply no_stronger_default]. }
  destruct (score_in (categories p) c) eqn:E1, (score_in (sellers p) s) eqn:E2; cbn [default from_option] in Hm.
  4: { unfold affinity_for. rewrite Hk, E1, E2. destruct (score_in (categories p) c'), (score_in (sellers p) s'); done || apply Qle_refl. }
  all: rewrite affinity_mix, E1, E2 by (done || by rewrite E1, E2); rewrite affinity_mix; [done|done|].
  all: by destruct (score_in (categories p) c'), (score_in (sellers p) s').
Qed.

(** The factor of a product whose interests mix to more, or to less, than a neutral one. *)
Lemma mix_raises c s c0 s0 : 0 <= c0 → 0 <= s0 → c0 <= c → s0 <= s → 1 < personalisation_boost (Some (mix c0 s0)) → 1 < personalisation_boost (Some (mix c s)).
Proof. intros Hc Hs Lc Ls Hlt. apply Qlt_le_trans with (1 := Hlt). by apply boost_mono, mix_mono. Qed.

Lemma mix_lowers c s c1 s1 : 0 <= c → 0 <= s → c <= c1 → s <= s1 → personalisation_boost (Some (mix c1 s1)) < 1 → personalisation_boost (Some (mix c s)) < 1.
Proof. intros Hc Hs Lc Ls Hlt. apply Qle_lt_trans with (2 := Hlt). by apply boost_mono, mix_mono. Qed.

(** C36 — Personalisation nudges: for the profile of any history, a product's
    affinity is between 0 and 0.85, and with neither its category nor its seller
    known the factor is exactly 1.  A stronger interest, in the category or in
    the seller, never lowers the factor.  The buyer's strongest category raises
    it whoever the seller is, and the strongest seller raises it where the
    category is unknown; a category, or a seller, of weight at most 0.39 lowers
    it where the other is unknown, under what a product of a category and a
    seller never looked at gets. *)
Theorem personalisation_nudges `{LibmLaws} (events : list BehaviourEvent) (now : Z) :
  ∃ p, build_profile events now = Some p ∧ (known p = false → ∀ c s, affinity_for (Some p) c s = None) ∧
  (known p = true →
    (∀ c s a, affinity_for (Some p) c s = Some a → 0 <= a <= MAX_SINGLE_AFFINITY) ∧
    (∀ c s, score_in (categories p) c = None → score_in (sellers p) s = None → personalisation_boost (affinity_for (Some p) c s) = 1) ∧
    (∀ c c' s s', no_stronger (score_in (categories p) c) (score_in (categories p) c') →
      no_stronger (score_in (sellers p) s) (score_in (sellers p) s') →
      personalisation_boost (affinity_for (Some p) c s) <= personalisation_boost (affinity_for (Some p) c' s')) ∧
    (categories p = [] ∨ ∃ c, dict_get (categories p) c = Some 1 ∧ (c ≠ "" → ∀ s,
      1 < personalisation_boost (affinity_for (Some p) (Some c) s))) ∧
    (sellers p = [] ∨ ∃ s, dict_get (sellers p) s = Some 1 ∧ (s ≠ "" → ∀ c, score_in (categories p) c = None →
      1 < personalisation_boost (affinity_for (Some p) c (Some s)))) ∧
    (∀ c s w, score_in (categories p) c = Some w → w <= 39 # 100 → score_in (sellers p) s = None →
      personalisation_boost (affinity_for (Some p) c s) < 1) ∧
    (∀ c s w, score_in (sellers p) s = Some w → w <= 39 # 100 → score_in (categories p) c = None →
      personalisation_boost (affinity_for (Some p) c s) < 1)).
Proof.
  destruct (build_profile_ok events now) as (p & Ep & [Uc Us _ _ Tc Ts]). exists p. split; [done|]. split; [intros Hk c s; unfold affinity_for; by rewrite Hk|].
  intros Hk. assert (Hn : 0 <= NEUTRAL_AFFINITY) by by vm_compute. split_and!.
  - intros c s a Ha. destruct (affinity_cases p c s Hk) as [E|E]; rewrite E in Ha; apply (inj Some) in Ha; subst a; [by vm_compute|].
    split; [|apply fmin_le]. apply Qle_trans with (mix 0 0); [by vm_compute|]. apply mix_mono; [done|done|by apply default_unit|by apply default_unit].
  - intros c s E1 E2. unfold affinity_for. rewrite Hk, E1, E2. float_eq.
  - intros c c' s s'. by apply affinity_mono.
  - destruct Tc as [|(c & Hc)]; [by left|]. right. exists c. split; [done|]. intros Hne s. rewrite <-(score_in_named _ _ Hne) in Hc.
    rewrite affinity_mix by (done || by rewrite Hc). rewrite Hc. apply (mix_raises _ _ 1 0); [done|done|apply Qle_refl|by apply default_unit|by vm_compute].
  - destruct Ts as [|(s & Hs)]; [by left|]. right. exists s. split; [done|]. intros Hne c Ec. rewrite <-(score_in_named _ _ Hne) in Hs.
    rewrite affinity_mix by (done || by rewrite Hs, Ec). rewrite Hs, Ec. by vm_compute.
  - intros c s w E1 Hw Es. rewrite affinity_mix by (done || by rewrite E1). rewrite E1, Es.
    apply (mix_lowers _ _ (39 # 100) NEUTRAL_AFFINITY); [apply (score_in_unit _ _ _ Uc E1)|done|done|apply Qle_refl|by vm_compute].
  - intros c s w E1 Hw Ec. rewrite affinity_mix by (done || by rewrite E1, Ec). rewrite E1, Ec.
    apply (mix_lowers _ _ NEUTRAL_AFFINITY (39 # 100)); [done|apply (score_in_unit _ _ _ Us E1)|apply Qle_refl|done|by vm_compute].
Qed.

(** ** Over the wire *)

Lemma dict_get_perm {V} (d d' : list (string * V)) k : NoDup d.*1 → d ≡ₚ d' → dict_get d k = dict_get d' k.
Proof.
  intros Hn Hp. assert (Hn' : NoDup d'.*1) by (rewrite <-Hp; done). destruct (dict_get d k) as [v|] eqn:E.
  - apply dict_get_elem in E. rewrite Hp in E. symmetry. by apply elem_dict_get.
  - destruct (dict_get d' k) as [v|] eqn:E'; [|done]. apply dict_get_elem in E'. rewrite <-Hp in E'. by rewrite (elem_dict_get d k v Hn E') in E.
Qed.

Lemma stronger_total a b : stronger a b = false → stronger b a = true.
Proof. unfold stronger. destruct (fleb_spec b.2 a.2), (fleb_spec a.2 b.2); try done. intros _. exfalso. qlra. Qed.

#[local] Instance stronger_trans : Transitive (in_order stronger).
Proof.
  intros a b c. unfold in_order, stronger. destruct (fleb_spec b.2 a.2), (fleb_spec c.2 b.2), (fleb_spec c.2 a.2); try done. exfalso. qlra.
Qed.

(** What the wire keeps is at least as strong as what it drops. *)
Lemma top_keeps_the_strongest ws n : ∃ dropped, ws ≡ₚ _top ws n ++ dropped ∧ ∀ a b, a ∈ _top ws n → b ∈ dropped → b.2 <= a.2.
Proof.
  exists (drop n (sort_le stronger ws)). unfold _top. rewrite take_drop. split; [symmetry; apply sort_le_perm|].
  assert (Hs : StronglySorted (in_order stronger) (sort_le stronger ws)) by (apply Sorted_StronglySorted; [apply stronger_trans|apply sort_le_sorted, stronger_total]).
  intros a b Ha Hb. rewrite <-(take_drop n (sort_le stronger ws)) in Hs.
  apply sorting.StronglySorted_app in Hs as (Hab & _). specialize (Hab a b Ha Hb). unfold in_order, stronger in Hab. by destruct (fleb_spec b.2 a.2).
Qed.

Lemma top_get ws n k v : NoDup ws.*1 → dict_get (_top ws n) k = Some v → dict_get ws k = Some v.
Proof.
  intros Hn Hg. destruct (top_keeps_the_strongest ws n) as (dropped & Hp & _). apply elem_dict_get; [done|]. rewrite Hp. apply elem_of_app. left. by apply dict_get_elem.
Qed.

Lemma top_all ws n k : NoDup ws.*1 → (length ws <= n)%nat → dict_get (_top ws n) k = dict_get ws k.
Proof.
  intros Hn Hl. unfold _top. rewrite take_ge by (by rewrite (Permutation_length (sort_le_perm stronger ws))).
  symmetry. apply dict_get_perm; [done|]. symmetry. apply sort_le_perm.
Qed.

(** [kept] is what the wire keeps of the weights [ws]: twenty of them, or all
    where there are no more, each with its weight, and none weaker than one left out. *)
Record strongest_kept (ws kept : list (string * float)) : Prop := {
  sk_number : length kept = (20 `min` length ws)%nat;
  sk_keys : NoDup kept.*1;
  sk_weights : ∀ k v, dict_get kept k = Some v → dict_get ws k = Some v;
  sk_strongest : ∀ k v k' v', dict_get kept k = None → dict_get ws k = Some v → dict_get kept k' = Some v' → v <= v';
}.

Lemma top_strongest_kept ws : NoDup ws.*1 → strongest_kept ws (_top ws 20).
Proof.
  intros Hn. destruct (top_keeps_the_strongest ws 20) as (dropped & Hp & Hle). split.
  - unfold _top. by rewrite length_take, (Permutation_length (sort_le_perm stronger ws)).
  - rewrite Hp, fmap_app in Hn. by apply NoDup_app in Hn as [Hn _].
  - intros k v. by apply top_get.
  - intros k v k' v' Hk Hv Hk'. apply dict_get_elem in Hv, Hk'. rewrite Hp in Hv. apply elem_of_app in Hv as [Hv|Hv]; [|by apply (Hle (k', v') (k, v))].
    apply (list_elem_of_fmap_2 fst) in Hv. destruct (dict_get_is_Some (_top ws 20) k) as [_ Hx]. destruct (Hx Hv). congruence.
Qed.

(** C39 — A profile means the same to search as to the service that built it:
    search receives one exactly when the service has enough to go on; one with
    at most twenty categories and twenty sellers gives every product the same
    affinity after the wire; of a larger one each dimension keeps exactly its
    twenty strongest, with their weights. *)
Theorem profile_survives_the_wire `{LibmLaws} (events : list BehaviourEvent) (now : Z) :
  ∃ p, build_profile events now = Some p ∧
  let received := profile_from_dict (Some (profile_as_dict p)) in
  (received = None ↔ known p = false) ∧
  ((length (categories p) <= 20)%nat → (length (sellers p) <= 20)%nat → ∀ c s, affinity_for received c s = affinity_for (Some p) c s) ∧
  (∀ q, received = Some q → known q = true ∧ strongest_kept (categories p) (categories q) ∧ strongest_kept (sellers p) (sellers q)).
Proof.
  destruct (build_profile_ok events now) as (p & Ep & Hp). exists p. split; [done|]. cbn zeta. unfold profile_from_dict, profile_as_dict, profile_as_dict_at.
  cbn [pd_known pd_categories pd_sellers].
  assert (Ek' : known {| categories := _top (categories p) 20; sellers := _top (sellers p) 20; total_weight := MIN_EVENTS_FOR_AFFINITY |} = true) by float_eq.
  split_and!.
  - by destruct (known p).
  - intros Hc Hs c s. destruct (known p) eqn:Ek; cbn [negb]; [|unfold affinity_for; by rewrite Ek].
    unfold affinity_for. rewrite Ek, Ek'. cbn [negb categories sellers].
    assert (E : ∀ ws k, NoDup ws.*1 → (length ws <= 20)%nat → score_in (_top ws 20) k = score_in ws k).
    { intros ws k Hn Hl. unfold score_in. destruct (named k); [by apply top_all|done]. }
    by rewrite !E by (done || apply Hp).
  - intros q. destruct (known p); cbn [negb]; [|done]. intros <-%(inj Some). split; [done|]. cbn [categories sellers].
    split; apply top_strongest_kept, Hp.
Qed.

(** Four looks at one category, and one at another: the other ranks below a
    category the buyer never looked at, which is neutral. *)
#[local] Existing Instances coarse_libm coarse_laws.

Definition look (category : string) : BehaviourEvent :=
  {| ev_kind := "view"; ev_category_id := Some category; ev_seller_id := None; ev_occurred_at := 0 |}.

Definition looked : option AffinityProfile := build_profile [look "shoes"; look "shoes"; look "shoes"; look "shoes"; look "books"] 0.

Example a_look_demotes :
  affinity_for looked (Some "garden") None = Some NEUTRAL_AFFINITY ∧
  fltb (personalisation_boost (affinity_for looked (Some "books") None)) (personalisation_boost (affinity_for looked (Some "garden") None)) = true.
Proof. split; vm_compute; reflexivity. Qed.

Lemma personalisation_nudges_witness : ∃ p, looked = Some p ∧ known p = true ∧ personalisation_boost (affinity_for (Some p) (Some "books") None) < 1.
Proof.
  destruct (personalisation_nudges [look "shoes"; look "shoes"; look "shoes"; look "shoes"; look "books"] 0) as (p & Ep & _ & Hp).
  exists p. split; [exact Ep|]. assert (Hk : known p = true) by (apply (inj Some) in Ep; subst p; vm_compute; reflexivity).
  split; [exact Hk|]. destruct (Hp Hk) as (_ & _ & _ & _ & _ & Hlow & _). apply (Hlow (Some "books") None (1 # 4)).
  - apply (inj Some) in Ep. subst p. vm_compute. reflexivity.
  - vm_compute. discriminate.
  - apply (inj Some) in Ep. subst p. vm_compute. reflexivity.
Defined.

Lemma profile_survives_the_wire_witness : ∃ p, looked = Some p ∧
  affinity_for (profile_from_dict (Some (profile_as_dict p))) (Some "shoes") None = affinity_for (Some p) (Some "shoes") None.
Proof.
  destruct (profile_survives_the_wire [look "shoes"; look "shoes"; look "shoes"; look "shoes"; look "books"] 0) as (p & Ep & _ & Hp & _).
  exists p. split; [exact Ep|]. apply (inj Some) in Ep. apply Hp; subst p; vm_compute; lia.
Defined.
End AffinityRules.

(** ** The service *)

Module Personalisation.
Import AffinityRules.

Definition PROFILE_EVENT_LIMIT : nat := 500.

Record BehaviourEventRow := {
  br_id : string; br_buyer_id : string; br_kind : string; br_product_id : option string;
  br_category_id : option string; br_seller_id : option string; br_occurred_at : Z;
}.

(** The table of events. *)
Definition events_table : Type := list BehaviourEventRow.

(** [require_buyer]: the identity the gateway put on the request. *)
Definition require_buyer (x_user_id : option string) : exn + string :=
  match named x_user_id with
  | Some b => inr b
  | None => inl (Http 401 "no buyer identity on this request; the gateway supplies x-user-id from the verified token")
  end.

Record BehaviourRequest := { bq_kind : string; bq_product_id : option string; bq_category_id : option string; bq_seller_id : option string }.

(** [uuid.UUID(str(buyer_id))] *)
Definition buyer_uuid (buyer_id : string) : M events_table string :=
  match UUID buyer_id with Some b => ret b | None => raise (Raised "ValueError") end.

Definition unknown_kind (kind : string) : exn :=
  Http 422 ("unknown behaviour kind " +:+ repr_str kind +:+ "; expected one of ['cart_add', 'purchase', 'view']").

Section handlers.
Context (fault : events_table → option string).

Definition record (buyer_id : string) (request : BehaviourRequest) (new_id : string) (now : Z) : M events_table string :=
  if bool_decide (dict_get EVENT_WEIGHTS (bq_kind request) = None) then raise (unknown_kind (bq_kind request))
  else
    buyer <- buyer_uuid buyer_id ;;
    exec (λ d, d ++ [{| br_id := new_id; br_buyer_id := buyer; br_kind := bq_kind request; br_product_id := bq_product_id request;
                        br_category_id := bq_category_id request; br_seller_id := bq_seller_id request; br_occurred_at := now |}]) ;;;
    commit fault ;;;
    ret (bq_kind request).

Definition forget (buyer_id : string) : M events_table Z :=
  buyer <- buyer_uuid buyer_id ;;
  gone <- query (List.filter (λ r, br_buyer_id r =?s buyer)) ;;
  exec (List.filter (λ r, negb (br_buyer_id r =?s buyer))) ;;;
  commit fault ;;;
  ret (Z.of_nat (length gone)).

Definition sweep_expired (days now : Z) : M events_table Z :=
  old <- query (List.filter (λ r, br_occurred_at r <? retention_cutoff now days)) ;;
  exec (List.filter (λ r, negb (br_occurred_at r <? retention_cutoff now days))) ;;;
  commit fault ;;;
  ret (Z.of_nat (length old)).
End handlers.

Definition newest_first (a b : BehaviourEventRow) : bool := br_occurred_at b <=? br_occurred_at a.

(** The rows a profile is built from.  Rows of the same instant come in the
    order of the table; PostgreSQL may return them in any order. *)
Definition history (buyer : string) (d : events_table) : list BehaviourEventRow :=
  take PROFILE_EVENT_LIMIT (sort_le newest_first (List.filter (λ r, br_buyer_id r =?s buyer) d)).

Definition event_of (r : BehaviourEventRow) : BehaviourEvent :=
  {| ev_kind := br_kind r; ev_category_id := br_category_id r; ev_seller_id := br_seller_id r; ev_occurred_at := br_occurred_at r |}.

Definition affinity_profile `{Libm} (buyer_id : string) (now : Z) : M events_table ProfileDict :=
  buyer <- buyer_uuid buyer_id ;;
  rows <- query (history buyer) ;;
  match build_profile (map event_of rows) now with
  | Some p => ret (profile_as_dict p)
  | None => raise (Raised "ValueError")
  end.

(** ** What the table goes through *)

Section runs.
Context `{LibmLaws}.

(** Requests, with the identity from the gateway, and sweeps. *)
Inductive request :=
| Record_ (user : option string) (body : BehaviourRequest) (new_id : string) (now : Z) (fault : events_table → option string)
| Forget (user : option string) (fault : events_table → option string)
| Sweep (days now : Z) (fault : events_table → option string).

Definition serve (d : events_table) (r : request) : events_table :=
  match r with
  | Record_ user body new_id now fault =>
      match require_buyer user with inr b => (run (record fault b body new_id now) d).1 | inl _ => d end
  | Forget user fault => match require_buyer user with inr b => (run (forget fault b) d).1 | inl _ => d end
  | Sweep days now fault => (run (sweep_expired fault days now) d).1
  end.

(** Requests of this buyer that record something. *)
Definition records_for (buyer : string) (r : request) : bool :=
  match r with
  | Record_ (Some user) _ _ _ _ => bool_decide (UUID user = Some buyer)
  | _ => false
  end.

Definition own (buyer : string) (d : events_table) : events_table := List.filter (λ r, br_buyer_id r =?s buyer) d.

Lemma own_app buyer d d' : own buyer (d ++ d') = own buyer d ++ own buyer d'.
Proof. apply List.filter_app. Qed.

Lemma own_none buyer d : own buyer (List.filter (λ r, negb (br_buyer_id r =?s buyer)) d) = [].
Proof. apply filter_none. intros r [_ Hr]%elem_of_filter_bool. by apply negb_true_iff in Hr. Qed.

Lemma filter_nil {A} (p q : A → bool) l : List.filter p l = [] → List.filter p (List.filter q l) = [].
Proof.
  intros E. apply filter_none. intros x [Hx _]%elem_of_filter_bool. apply not_true_iff_false. intros Hp.
  assert (Hin : x ∈ List.filter p l) by by apply elem_of_filter_bool. by rewrite E in Hin; apply elem_of_nil in Hin.
Qed.

(** A buyer with nothing recorded stays so until they record something. *)
Lemma serve_stays_empty buyer d r : records_for buyer r = false → own buyer d = [] → own buyer (serve d r) = [].
Proof.
  intros Hr Hd. destruct r as [user body new_id now fault|user fault|days now fault]; cbn [serve].
  - destruct user as [u|]; [|done]. unfold require_buyer, named. destruct (is_empty u); [done|].
    unfold run, record, buyer_uuid. destruct (bool_decide _); [done|]. cbn [records_for] in Hr. bool_to_prop.
    destruct (UUID u) as [b|] eqn:Eu; [|done]. unfold bind at 1, ret at 1. rewrite bind_exec, bind_commit. cbn [working committed].
    destruct (fault _); [done|]. cbn -[own app]. rewrite own_app, Hd. cbn. rewrite bool_decide_false by congruence. done.
  - unfold require_buyer. destruct (named user) as [u|]; [|done]. unfold run, forget, buyer_uuid.
    destruct (UUID u) as [b|]; [|done]. unfold bind at 1, ret at 1. rewrite bind_query, bind_exec, bind_commit. cbn [working committed].
    destruct (fault _); [done|]. cbn. by apply filter_nil.
  - unfold run, sweep_expired. rewrite bind_query, bind_exec, bind_commit. cbn [working committed].
    destruct (fault _); [done|]. cbn. by apply filter_nil.
Qed.

Lemma empty_profile buyer now d : own buyer d = [] →
  ∃ p, build_profile (map event_of (history buyer d)) now = Some p ∧ known p = false.
Proof. intros Hd. unfold history. unfold own in Hd. rewrite Hd. eexists. split; [reflexivity|]. by vm_compute. Qed.

(** C23 — Forgetting is total: once a buyer's deletion commits, nothing of what
    they did is in the table, and until they record something again, whatever
    other buyers do and however often the table is swept, their profile gives
    every product the same factor as an anonymous search: exactly 1. *)
Theorem forgotten_buyer_is_anonymous (user buyer : string) (d : events_table) (fault : events_table → option string) (later : list request) (now : Z) :
  UUID user = Some buyer → user ≠ "" → fault (List.filter (λ r, negb (br_buyer_id r =?s buyer)) d) = None →
  (∀ r, r ∈ later → records_for buyer r = false) →
  let d' := foldl serve (serve d (Forget (Some user) fault)) later in
  (∀ r, r ∈ d' → br_buyer_id r ≠ buyer) ∧
  ∃ profile, run (affinity_profile user now) d' = (d', inr profile) ∧
    ∀ c s, affinity_for (profile_from_dict (Some profile)) c s = None ∧ personalisation_boost (affinity_for (profile_from_dict (Some profile)) c s) = 1%Q.
Proof.
  intros Eu Hne Hf Hlater. cbn zeta. set (d' := foldl serve _ later).
  assert (Hown : own buyer d' = []).
  { subst d'. assert (H1 : own buyer (serve d (Forget (Some user) fault)) = []).
    { cbn [serve]. unfold require_buyer, named, is_empty. rewrite bool_decide_false by done. unfold run, forget, buyer_uuid. rewrite Eu.
      unfold bind at 1, ret at 1. rewrite bind_query, bind_exec, bind_commit. cbn [working committed]. rewrite Hf. cbn. apply own_none. }
    revert H1. generalize (serve d (Forget (Some user) fault)). induction later as [|r later IH]; intros d0 H1; [done|]. cbn [foldl].
    apply IH; [intros; apply Hlater; by right|]. apply serve_stays_empty; [apply Hlater; by left|done]. }
  split.
  - intros r Hr E. assert (Hin : r ∈ own buyer d') by (apply elem_of_filter_bool; split; [done|by rewrite bool_decide_true]).
    rewrite Hown in Hin. by apply elem_of_nil in Hin.
  - destruct (empty_profile buyer now d' Hown) as (p & Ep & Hk). exists (profile_as_dict p). split.
    + unfold run, affinity_profile, buyer_uuid. rewrite Eu. unfold bind at 1, ret at 1. rewrite bind_query. cbn [working]. by rewrite Ep.
    + intros c s. unfold profile_from_dict, profile_as_dict, profile_as_dict_at. cbn [pd_known]. by rewrite Hk.
Qed.

(** Nobody else's behaviour is in a profile. *)
Lemma profiles_are_private buyer d d' : own buyer d = own buyer d' → history buyer d = history buyer d'.
Proof. unfold history, own. by intros ->. Qed.
End runs.

#[local] Existing Instances coarse_libm coarse_laws.

Definition ann : string := "00000000-0000-0000-0000-0000000000aa".
Definition bob : string := "00000000-0000-0000-0000-0000000000bb".

Definition seen (user category : string) (n : nat) : request :=
  Record_ (Some user) {| bq_kind := "purchase"; bq_product_id := None; bq_category_id := Some category; bq_seller_id := None |} (unary_id n) (Z.of_nat n) (λ _, None).

Definition visits : events_table := foldl serve [] [seen ann "books" 0; seen bob "shoes" 1; seen ann "books" 2].

Lemma forgotten_buyer_is_anonymous_witness :
  length (own ann visits) = 2%nat ∧
  (∀ r, r ∈ foldl serve (serve visits (Forget (Some ann) (λ _, None))) [seen bob "books" 3; Sweep 365 4 (λ _, None)] → br_buyer_id r ≠ ann).
Proof.
  split; [vm_compute; reflexivity|].
  apply (forgotten_buyer_is_anonymous ann ann visits (λ _, None) [seen bob "books" 3; Sweep 365 4 (λ _, None)] 5); [vm_compute; reflexivity|done|reflexivity|].
  intros r Hr. elem_cases Hr; vm_compute; reflexivity.
Defined.
End Personalisation.
