(* ===== verification/SearchEngine.v ===== *)
(** * One search, from the request to the page

    services/search-service: app/services/search_engine.py, and the two lookups
    it makes on the way, quality_lookup.py and affinity_lookup.py, with their
    breakers, cache and clocks.  The engine that matches text is an argument.
    An exception nothing handles, which the framework answers 500, is [None]. *)

From Stdlib Require Import QArith Lqa.
From Stdlib Require Zpow_facts.
From stdpp Require Import gmap.
From S2P Require Import Prelude PyValue Session OrderDb Resilience CatalogService ReadModel StreamProcessor PriceBoard Float64 RankingRules SellerMetrics Personalisation.
Import Float64 RankingRules AffinityRules.

Module SearchEngine.
Import OrderDb Resilience CatalogService ReadModel SearchRules.

(** ** What is asked of the engine *)

(** The buyer's request, as the route passes it on. *)
Record SearchRequest := {
  query : string; page : Z; size : Z; shop : option string;
  buyer_lat : option float; buyer_lon : option float; buyer_id : option string;
}.

Inductive filter_clause :=
| Term (f : string) (v : json)
| Exists (f : string)
| MustNotTerm (f : string) (v : json).

(** [sb_text] is the text of the [multi_match]; [None] is [match_all]. *)
Record search_body := { sb_from : Z; sb_size : Z; sb_text : option string; sb_filter : list filter_clause }.

Definition body_of (r : SearchRequest) : search_body := {|
  sb_from := (page r - 1) * size r;
  sb_size := size r;
  sb_text := if is_empty (query r) then None else Some (query r);
  sb_filter :=
    [Term "is_active" (JBool true); Exists "sku"; MustNotTerm "seller_may_sell" (JBool false)] ++
    match named (shop r) with Some s => [Term "seller_id" (JStr s)] | None => [] end |}.

Definition holds {Ix} `{SearchIndex Ix} (doc : string → option json) (c : filter_clause) : bool :=
  match c with
  | Term f v => term (doc f) v
  | Exists f => StreamProcessor.exists_field (doc f)
  | MustNotTerm f v => negb (term (doc f) v)
  end.

(** The filter of the body is what [searchable] says of a document. *)
Lemma body_filter_is_searchable {Ix} `{SearchIndex Ix} (r : SearchRequest) (ix : Ix) id :
  forallb (holds (field ix id)) (sb_filter (body_of r)) = StreamProcessor.searchable (shop r) ix id.
Proof.
  unfold body_of, StreamProcessor.searchable, named. cbn [sb_filter]. rewrite forallb_app. cbn [forallb holds].
  rewrite andb_true_r, !andb_assoc. f_equal. destruct (shop r) as [s|]; [|done]. destruct (is_empty s) eqn:E; cbn [orb forallb holds]; [done|by rewrite andb_true_r].
Qed.

(** A hit: its score and its document. *)
Record hit := { h_score : option float; h_source : list (string * json) }.

(** ** Reading JSON *)

Section reading.
Context (repr : json → string) (float_of_text : string → option pyfloat).

(** [float(v)]; what it makes of a text is a parameter. *)
Definition py_float (v : json) : option pyfloat :=
  match v with
  | JBool b => Some (FFin (Z.b2z b) 0)
  | JInt z => Some (FFin z 0)
  | JFloat f => Some f
  | JStr s => float_of_text s
  | JNull | JList _ | JObj _ => None
  end.

Definition value_of (m e : Z) : float := rnd (inject_Z m * pow2 e)%Q.

(** [_clamp(f, 0.0, 1.0)] orders infinities and NaN as here. *)
Definition within_unit (f : pyfloat) : float :=
  match f with FFin m e => value_of m e | FInf true => 0 | FInf false | FNan => 1 end.

(** [float(inputs.get(k) or 0.0)], for a number that is clamped next. *)
Definition read_share (v : json) : option (option float) :=
  if truthy v then f ← py_float v; Some (Some (within_unit f)) else Some None.

(** A number, for a comparison or for [math]. *)
Definition number (v : json) : option float :=
  match v with
  | JBool _ | JInt _ | JFloat _ => match py_float v with Some (FFin m e) => Some (value_of m e) | _ => None end
  | _ => None
  end.

(** The rating is checked before anything else is read. *)
Definition read_rating (v : json) : option (option float) :=
  match v with
  | JNull => Some None
  | _ => r ← number v; if fleb 0 r && fleb r RATING_SCALE then Some (Some r) else None
  end.

(** [int(review_count or 0)], read only for a seller with a rating. *)
Definition read_count (rating : option float) (v : json) : option (option Z) :=
  match rating with
  | None => Some None
  | Some _ => if truthy v then match py_int v with inr z => Some (Some z) | inl _ => None end else Some None
  end.

(** The other shares are read only when the confidence is positive. *)
Definition read_unless (skip : bool) (v : json) : option (option float) := if skip then Some None else read_share v.

(** What [quality_boost] reads of its argument. *)
Definition read_quality (v : json) : option (option QualityInputs) :=
  if negb (truthy v) then Some None
  else match v with
  | JObj d =>
      r ← read_rating (obj_get d "rating");
      n ← read_count r (obj_get d "review_count");
      c ← read_share (obj_get d "confidence");
      let skip := negb (fltb 0 (clamp (or_zero c) 0 1)) in
      t ← read_unless skip (obj_get d "on_time_dispatch_rate");
      x ← read_unless skip (obj_get d "cancellation_rate");
      b ← read_unless skip (obj_get d "return_rate");
      Some (Some {| rating := r; review_count := n; confidence := c;
                    on_time_dispatch_rate := t; cancellation_rate := x; return_rate := b |})
  | _ => None
  end.

(** [{str(k): float(v) for k, v in (d or {}).items()}]; a weight that is not
    finite is outside the model. *)
Definition read_weight (kv : string * json) : option (string * float) :=
  match py_float kv.2 with Some (FFin m e) => Some (kv.1, value_of m e) | _ => None end.

Definition read_weights (v : json) : option (list (string * float)) :=
  if negb (truthy v) then Some [] else match v with JObj d => mapM read_weight d | _ => None end.

(** [profile_from_dict] of what came over the wire. *)
Definition profile_of_json (v : json) : option (option AffinityProfile) :=
  if negb (truthy v) then Some None
  else match v with
  | JObj d =>
      if negb (truthy (obj_get d "known")) then Some None
      else
        c ← read_weights (obj_get d "categories");
        s ← read_weights (obj_get d "sellers");
        Some (profile_from_dict (Some {| pd_categories := c; pd_sellers := s; pd_known := true |}))
  | _ => None
  end.

(** [str(v)] of a key that was given. *)
Definition key_of (v : json) : option string := if truthy v then Some (py_str repr v) else None.

(** ** The two lookups *)

(** What the module keeps between searches. *)
Record lookups := { quality_breaker : AsyncCircuitBreaker; affinity_breaker : AsyncCircuitBreaker; quality_cache : gmap string (Z * json) }.

Definition with_quality_breaker (b : AsyncCircuitBreaker) (st : lookups) : lookups :=
  {| quality_breaker := b; affinity_breaker := affinity_breaker st; quality_cache := quality_cache st |}.
Definition with_affinity_breaker (b : AsyncCircuitBreaker) (st : lookups) : lookups :=
  {| quality_breaker := quality_breaker st; affinity_breaker := b; quality_cache := quality_cache st |}.
Definition with_cache (c : gmap string (Z * json)) (st : lookups) : lookups :=
  {| quality_breaker := quality_breaker st; affinity_breaker := affinity_breaker st; quality_cache := c |}.

(** One call: the clock where it is read, the answer, and what other searches
    do to the shared state while this one waits. *)
Record exchange := {
  checked_at : Z; asked_at : Z; answered_at : Z; stored_at : Z;
  answer : http_answer; meanwhile : lookups → lookups;
}.

Definition CACHE_TTL_US : Z := 60 * 1000000.
Definition MAX_LOOKUPS_PER_QUERY : nat := 25.

Definition _cached (now : Z) (seller_id : string) (st : lookups) : lookups * option json :=
  match quality_cache st !! seller_id with
  | None => (st, None)
  | Some (expires_at, value) =>
      if (expires_at <? now)%Z then (with_cache (delete seller_id (quality_cache st)) st, None) else (st, Some value)
  end.

(** The inner [JNull] is the [None] of a failure. *)
Definition _fetch (x : exchange) (st : lookups) : lookups * option json :=
  match enter (asked_at x) (quality_breaker st) with
  | (b, Some _) => (with_quality_breaker b st, Some JNull)
  | (b, None) =>
      let st := meanwhile x (with_quality_breaker b st) in
      match answer x with
      | NoAnswer _ => (with_quality_breaker (leave (answered_at x) (Some None) (quality_breaker st)) st, Some JNull)
      | Answer status body =>
          (with_quality_breaker (leave (answered_at x) None (quality_breaker st)) st,
           if negb (status =? 200)%Z then Some JNull
           else match body with Some (JObj d) => Some (obj_get d "quality") | _ => None end)
      end
  end.

(** [unique]: the texts of the ids, the first time each is met. *)
Fixpoint unique_ids (seen : list string) (seller_ids : list json) : list string :=
  match seller_ids with
  | [] => seen
  | v :: vs =>
      let known := match v with JStr s => s in_ seen | _ => false end in
      unique_ids (if truthy v && negb known then seen ++ [py_str repr v] else seen) vs
  end.

Fixpoint resolve (exchanges : nat → exchange) (i fetched : nat) (ids : list string) (resolved : gmap string json) (st : lookups)
    : lookups * option (gmap string json) :=
  match ids with
  | [] => (st, Some resolved)
  | s :: ids =>
      let x := exchanges i in
      match _cached (checked_at x) s st with
      | (st, Some v) => resolve exchanges (S i) fetched ids (<[s := v]> resolved) st
      | (st, None) =>
          if (MAX_LOOKUPS_PER_QUERY <=? fetched)%nat then resolve exchanges (S i) fetched ids resolved st
          else match _fetch x st with
          | (st, None) => (st, None)
          | (st, Some JNull) => resolve exchanges (S i) (S fetched) ids resolved st
          | (st, Some q) =>
              resolve exchanges (S i) (S fetched) ids (<[s := q]> resolved)
                (with_cache (<[s := ((stored_at x + CACHE_TTL_US)%Z, q)]> (quality_cache st)) st)
          end
      end
  end.

Definition quality_for (exchanges : nat → exchange) (seller_ids : list json) (st : lookups) : lookups * option (gmap string json) :=
  resolve exchanges 0 0 (unique_ids [] seller_ids) ∅ st.

(** [JNull] is the [None] of an anonymous search and of every failure. *)
Definition fetch_profile (x : exchange) (buyer_id : option string) (st : lookups) : lookups * json :=
  match named buyer_id with
  | None => (st, JNull)
  | Some _ =>
      match enter (asked_at x) (affinity_breaker st) with
      | (b, Some _) => (with_affinity_breaker b st, JNull)
      | (b, None) =>
          let st := meanwhile x (with_affinity_breaker b st) in
          match answer x with
          | NoAnswer _ => (with_affinity_breaker (leave (answered_at x) (Some None) (affinity_breaker st)) st, JNull)
          | Answer status body =>
              (with_affinity_breaker (leave (answered_at x) None (affinity_breaker st)) st,
               if negb (status =? 200)%Z then JNull else default JNull body)
          end
      end
  end.

(** ** The page *)

(** What pydantic makes of a value where an integer is declared. *)
Context (as_int : json → option Z).
Context `{Libm}.

Record SearchResultItem := {
  it_product_id : string; it_name : string; it_description : option string;
  it_price_cents : option Z; it_price_source : string; it_seller_id : option string; it_quantity_available : Z;
}.

Record SearchResponse := { total_hits : Z; items : list SearchResultItem }.

Definition source_get (source : list (string * json)) (k : string) : json := obj_get source k.

Definition distance_to (lat lon : option float) (source : list (string * json)) : option (option float) :=
  let location := source_get source "seller_location" in
  let between lat2 lon2 :=
    match lat, lon, lat2, lon2 with
    | None, _, _, _ | _, None, _, _ | _, _, JNull, _ | _, _, _, JNull => Some None
    | Some lat, Some lon, _, _ =>
        lat2 ← number lat2;
        lon2 ← number lon2;
        match haversine_km (Some lat) (Some lon) (Some lat2) (Some lon2) with inr d => Some d | inl _ => None end
    end in
  if truthy location then match location with JObj d => between (obj_get d "lat") (obj_get d "lon") | _ => None end
  else between JNull JNull.

Definition projected (source : list (string * json)) : bool := has_seller_signals (dict_get source).

Definition quality_json (fallback : gmap string json) (source : list (string * json)) : json :=
  if projected source then JObj (quality_from_document (dict_get source))
  else match key_of (source_get source "seller_id") with
  | Some s => default JNull (fallback !! s)
  | None => JNull
  end.

(** [unprojected] *)
Definition to_resolve (hits : list hit) : list json :=
  List.filter truthy (map (λ h, source_get (h_source h) "seller_id") (List.filter (λ h, negb (projected (h_source h))) hits)).

Definition candidate_of (r : SearchRequest) (profile : option AffinityProfile) (fallback : gmap string json) (h : hit)
    : option (candidate (list (string * json))) :=
  let source := h_source h in
  distance_km ← distance_to (buyer_lat r) (buyer_lon r) source;
  quality ← read_quality (quality_json fallback source);
  Some (Candidate
    (match source_get source "product_id" with JNull => None | v => Some (py_str repr v) end)
    (or_zero (h_score h)) quality distance_km
    (affinity_for profile (key_of (source_get source "category_id")) (key_of (source_get source "seller_id")))
    source).

Definition text_of (v : json) : option string := match v with JStr s => Some s | _ => None end.
Definition optional_text (v : json) : option (option string) := match v with JNull => Some None | JStr s => Some (Some s) | _ => None end.

(** [SearchResultItem(...)]; [None] is a [ValidationError]. *)
Definition item_of (source : list (string * json)) : option SearchResultItem :=
  let price := effective_price (source_get source) in
  product_id ← text_of (source_get source "product_id");
  name ← text_of (source_get source "name");
  description ← optional_text (source_get source "description");
  seller_id ← optional_text (source_get source "seller_id");
  quantity_available ← match dict_get source "quantity_available" with None => Some 0%Z | Some v => as_int v end;
  Some {| it_product_id := product_id; it_name := name; it_description := description; it_price_cents := price.1;
          it_price_source := price.2; it_seller_id := seller_id; it_quantity_available := quantity_available |}.

Definition page_of (r : SearchRequest) (total : Z) (profile : option AffinityProfile) (fallback : gmap string json) (hits : list hit)
    : option SearchResponse :=
  candidates ← mapM (candidate_of r profile fallback) hits;
  match rank candidates with
  | inl _ => None
  | inr ranked =>
      items ← mapM (λ c, item_of (cd_source c.1)) ranked;
      Some {| total_hits := total; items := items |}
  end.

(** [None] of the engine is an exception of its client. *)
Definition search_products (engine : search_body → option (Z * list hit)) (r : SearchRequest)
    (affinity : exchange) (quality : nat → exchange) (st : lookups) : lookups * option SearchResponse :=
  match engine (body_of r) with
  | None => (st, None)
  | Some (total, hits) =>
      let (st, data) := fetch_profile affinity (buyer_id r) st in
      match profile_of_json data with
      | None => (st, None)
      | Some profile =>
          let unprojected := to_resolve hits in
          let (st, fallback) := if bool_decide (length unprojected = 0%nat) then (st, Some ∅) else quality_for quality unprojected st in
          match fallback with
          | None => (st, None)
          | Some fallback => (st, page_of r total profile fallback hits)
          end
      end
  end.

(** The route: half a coordinate is refused. *)
Definition perform_search (engine : search_body → option (Z * list hit)) (r : SearchRequest)
    (affinity : exchange) (quality : nat → exchange) (st : lookups) : lookups * (exn + SearchResponse) :=
  match buyer_lat r, buyer_lon r with
  | Some _, None | None, Some _ =>
      (st, inl (Http 422 "lat and lon must be given together; one without the other is not a location"))
  | _, _ =>
      let (st, res) := search_products engine r affinity quality st in
      (st, match res with Some p => inr p | None => inl (Raised "Exception") end)
  end.

(** ** A page is its hits, in some order *)

Lemma mapM_perm {A B} (f : A → option B) l l' k : l ≡ₚ l' → mapM f l = Some k → ∃ k', mapM f l' = Some k' ∧ k ≡ₚ k'.
Proof. intros Hp Hk%mapM_Some. destruct (Permutation_Forall2 Hp Hk) as (k' & Hk' & Hf). exists k'. split; [by apply mapM_Some|done]. Qed.

Lemma mapM_ok {A B} (f : A → option B) l : (∀ x, x ∈ l → is_Some (f x)) → is_Some (mapM f l).
Proof.
  intros Hf. induction l as [|x l IH]; [by eexists|]. destruct (Hf x) as [y Hy]; [by left|].
  destruct IH as [k Hk]; [intros z Hz; apply Hf; by right|]. exists (y :: k). apply mapM_Some. constructor; [done|by apply mapM_Some].
Qed.

Lemma mapM_each {A B} (f : A → option B) l k x : mapM f l = Some k → x ∈ l → is_Some (f x).
Proof.
  intros Hk%mapM_Some (i & Hi)%list_elem_of_lookup. destruct (Forall2_lookup_l _ _ _ _ _ Hk Hi) as (y & _ & Hy). by exists y.
Qed.

(** A quality that could be read can be scored. *)
Lemma read_scored v q : read_quality v = Some q → ∃ b, quality_boost q = inr b.
Proof.
  unfold read_quality. destruct (negb (truthy v)); [intros <-%(inj Some); by eexists|]. destruct v as [|b|z|f|s|l|d]; try done.
  intros (r & Hr & Hq)%bind_Some. intros. apply bind_Some in Hq as (n & _ & Hq). apply bind_Some in Hq as (c & _ & Hq).
  apply bind_Some in Hq as (t & _ & Hq). apply bind_Some in Hq as (x & _ & Hq). apply bind_Some in Hq as (b & _ & Hq). apply (inj Some) in Hq. subst q.
  unfold quality_boost, rating_component. cbn [rating]. destruct r as [r|]; [|by eexists].
  assert (E : fleb 0 r && fleb r RATING_SCALE = true).
  { unfold read_rating in Hr. destruct (obj_get d "rating"); try done; apply bind_Some in Hr as (r' & _ & Hr); destruct (_ && _) eqn:E'; congruence. }
  rewrite E. by eexists.
Qed.

Record renders (r : SearchRequest) (fallback : gmap string json) (h : hit) : Prop := {
  re_quality : is_Some (read_quality (quality_json fallback (h_source h)));
  re_distance : ∃ d v, distance_to (buyer_lat r) (buyer_lon r) (h_source h) = Some d ∧ distance_decay d = inr v;
  re_score : (0 <= or_zero (h_score h))%Q;
  re_item : is_Some (item_of (h_source h));
}.

Lemma candidate_source r profile fallback h c : candidate_of r profile fallback h = Some c → cd_source c = h_source h.
Proof. unfold candidate_of. intros (d & _ & (q & _ & <-%(inj Some))%bind_Some)%bind_Some. done. Qed.

Lemma renders_spec r profile fallback h :
  renders r fallback h ↔ ∃ c s, candidate_of r profile fallback h = Some c ∧ score_of c = inr s ∧ is_Some (item_of (h_source h)).
Proof.
  split.
  - intros [[q Hq] (d & v & Hd & Hv) Hs Hi]. destruct (read_scored _ _ Hq) as (b & Hb).
    unfold candidate_of. rewrite Hd. cbn [mbind option_bind]. rewrite Hq. cbn [mbind option_bind]. do 2 eexists. split; [reflexivity|]. split; [|done].
    unfold score_of, final_score. cbn [cd_relevance cd_quality cd_distance_km cd_affinity]. destruct (fltb_spec (or_zero (h_score h)) 0); [exfalso; qlra|].
    rewrite Hb, Hv. reflexivity.
  - intros (c & s & Hc & Hs & Hi). unfold candidate_of in Hc. apply bind_Some in Hc as (d & Hd & Hc). apply bind_Some in Hc as (q & Hq & Hc).
    apply (inj Some) in Hc. subst c. unfold score_of in Hs. cbn [cd_relevance cd_quality cd_distance_km cd_affinity] in Hs. unfold final_score in Hs.
    destruct (fltb_spec (or_zero (h_score h)) 0) as [|Hn]; [done|]. destruct (quality_boost q); [done|].
    destruct (distance_decay d) as [|v] eqn:Ev; [done|]. split; [by eexists|by exists d, v|qlra|done].
Qed.

Lemma page_inv r total profile fallback hits p : page_of r total profile fallback hits = Some p →
  total_hits p = total ∧ (∀ h, h ∈ hits → renders r fallback h) ∧ ∃ l, mapM (λ h, item_of (h_source h)) hits = Some l ∧ items p ≡ₚ l.
Proof.
  unfold page_of. intros (cs & Hcs & Hp)%bind_Some. destruct (rank cs) as [|ranked] eqn:Hr; [done|].
  apply bind_Some in Hp as (its & Hits & Hp). apply (inj Some) in Hp. subst p. cbn [total_hits items]. split; [done|].
  destruct (rank_inv cs ranked Hr) as (scored & Hscored & ->). pose proof (score_all_fst cs scored Hscored) as Hfst.
  destruct (mapM_perm _ _ scored _ (sort_le_perm ranks_before scored) Hits) as (l & Hl & Hperm).
  assert (Hsrc : mapM (λ h, item_of (h_source h)) hits = Some l).
  { apply mapM_Some. apply mapM_Some in Hl, Hcs. rewrite <-Hfst in Hcs. clear -Hl Hcs. revert hits Hcs.
    induction Hl as [|[c s] i scored l Hi _ IH]; intros hits Hcs; inversion Hcs as [|h ? hits' ? Hc Hcs']; subst; constructor; [|by apply IH].
    cbn in Hi. by rewrite <-(candidate_source _ _ _ _ _ Hc). }
  split; [|by exists l]. intros h Hh. apply (renders_spec r profile).
  apply mapM_Some in Hcs. apply score_all_spec in Hscored. apply list_elem_of_lookup in Hh as Hh'. destruct Hh' as (i & Hi).
  destruct (Forall2_lookup_l _ _ _ _ _ Hcs Hi) as (c & Hci & Hc). destruct (Forall2_lookup_l _ _ _ _ _ Hscored Hci) as ([c' s] & _ & _ & Hs).
  exists c, s. split_and!; [done|done|]. exact (mapM_each _ _ _ h Hsrc Hh).
Qed.

Lemma page_ok r total profile fallback hits : (∀ h, h ∈ hits → renders r fallback h) → is_Some (page_of r total profile fallback hits).
Proof.
  intros Hall. assert (Hh : ∀ h, h ∈ hits → ∃ c s, candidate_of r profile fallback h = Some c ∧ score_of c = inr s ∧ is_Some (item_of (h_source h))).
  { intros h Hh. by apply renders_spec, Hall. }
  destruct (mapM_ok (candidate_of r profile fallback) hits) as [cs Hcs]; [intros h (c & s & Hc & _)%Hh; by exists c|].
  unfold page_of. rewrite Hcs. cbn [mbind option_bind]. apply mapM_Some in Hcs.
  assert (Hcand : ∀ c, c ∈ cs → ∃ s, score_of c = inr s ∧ is_Some (item_of (cd_source c))).
  { intros c (i & Hi)%list_elem_of_lookup. destruct (Forall2_lookup_r _ _ _ _ _ Hcs Hi) as (h & Hhi & Hc).
    destruct (Hh h) as (c' & s & Hc' & Hs & Hitem); [by eapply list_elem_of_lookup_2|]. rewrite Hc' in Hc. apply (inj Some) in Hc. subst c'.
    exists s. split; [done|]. by rewrite (candidate_source _ _ _ _ _ Hc'). }
  assert (Hscore : ∃ scored, score_all cs = inr scored).
  { clear -Hcand. induction cs as [|c cs IH]; [by eexists|]. destruct (Hcand c) as (s & Hs & _); [by left|]. cbn. rewrite Hs.
    destruct IH as (scored & ->); [intros; apply Hcand; by right|]. by eexists. }
  destruct Hscore as (scored & Hscored). unfold rank. rewrite Hscored.
  destruct (mapM_ok (λ c : candidate _ * float, item_of (cd_source c.1)) (sort_le ranks_before scored)) as [its ->]; [|by eexists].
  intros x Hx. rewrite sort_le_perm in Hx. apply (list_elem_of_fmap_2 fst) in Hx.
  assert (Hin : x.1 ∈ cs) by (by rewrite <-(score_all_fst cs scored Hscored)). by destruct (Hcand _ Hin) as (_ & _ & ?).
Qed.

(** ** What the services answer can be read *)

Lemma pow2_den (x : Q) k m : (x == inject_Z m * pow2 k)%Q → Qred x = x → Zpos (Qden x) = (2 ^ Z.log2 (Zpos (Qden x)))%Z.
Proof.
  intros Ex Hred. assert (Hdiv : (Zpos (Qden x) | 2 ^ Z.of_nat (Z.to_nat (- k)))%Z).
  { assert (Hg : Z.gcd (Qnum x) (Zpos (Qden x)) = 1%Z).
    { rewrite <-Hred. apply gcd_Qred. }
    apply (Z.gauss _ (Qnum x)); [|by rewrite Z.gcd_comm].
    destruct (Z.le_gt_cases 0 k) as [Hk|Hk].
    - rewrite pow2_Z in Ex by done. rewrite <-inject_Z_mult in Ex. unfold Qeq in Ex. cbn in Ex. rewrite Z.mul_1_r in Ex.
      rewrite Ex. apply Z.divide_mul_l. apply Z.divide_mul_r. apply Z.divide_refl.
    - rewrite Z2Nat.id by lia. assert (E : (x * inject_Z (2 ^ (- k)) == inject_Z m)%Q).
      { rewrite Ex, <-pow2_Z by lia. rewrite <-Qmult_assoc, pow2_inv. apply Qmult_1_r. }
      unfold Qeq, Qmult in E. cbn in E. rewrite Z.mul_1_r, Pos.mul_1_r in E. rewrite E. apply Z.divide_factor_r. }
  destruct (Zpow_facts.Zdivide_power_2 (Zpos (Qden x)) 2 (Z.of_nat (Z.to_nat (- k)))) as (q & Hq); [lia|lia|apply Znumtheory.prime_2|done|].
  rewrite Hq. destruct (Z.le_gt_cases 0 q) as [H0|H0]; [by rewrite Z.log2_pow2|]. rewrite Z.pow_neg_r in Hq by done. lia.
Qed.

(** A float survives its JSON text. *)
Lemma json_float_value x : is_float x → number (SellerMetrics.json_of_float x) = Some x.
Proof.
  intros Hx. unfold number, SellerMetrics.json_of_float, py_float, value_of. f_equal. destruct (rnd_dyadic x) as (m & k & _ & Em). rewrite Hx in Em.
  pose proof (rnd_reduced x) as Hred. rewrite Hx in Hred. pose proof (pow2_den x k m Em Hred) as Hden. apply float_fix; [done|].
  assert (E : (pow2 (- Z.log2 (Zpos (Qden x))) * inject_Z (Zpos (Qden x)) == 1)%Q).
  { rewrite Hden at 2. rewrite <-pow2_Z by apply Z.log2_nonneg. rewrite Qmult_comm. apply pow2_inv. }
  assert (Hd : (0 < inject_Z (Zpos (Qden x)))%Q) by done.
  transitivity (inject_Z (Qnum x) / inject_Z (Zpos (Qden x)))%Q; [|].
  - apply (Qmult_inj_r _ _ (inject_Z (Zpos (Qden x)))); [intros E0; rewrite E0 in Hd; qlra|]. rewrite <-Qmult_assoc, E. field. intros E0. rewrite E0 in Hd. qlra.
  - rewrite <-Qmake_Qdiv. by destruct x.
Qed.

(** A rating the reviews service can give, or none. *)
Definition fair_rating (rating review_count : json) : Prop :=
  rating = JNull ∨ ∃ x n, is_float x ∧ (0 <= x <= RATING_SCALE)%Q ∧ rating = SellerMetrics.json_of_float x ∧ review_count = JInt n.

(** The quality order-saga computes. *)
Definition fair (v : json) : Prop :=
  ∃ m rating review_count, v = JObj (SellerMetrics.quality_inputs m rating review_count) ∧ fair_rating rating review_count.

Lemma read_share_float x : ∃ o, read_share (SellerMetrics.json_of_float x) = Some o.
Proof. unfold read_share. destruct (truthy _); by eexists. Qed.

Lemma read_unless_float skip x : ∃ o, read_unless skip (SellerMetrics.json_of_float x) = Some o.
Proof. unfold read_unless. destruct skip; [by eexists|apply read_share_float]. Qed.

Lemma fair_rating_reads rating n : fair_rating rating n → ∃ r c, read_rating rating = Some r ∧ read_count r n = Some c.
Proof.
  intros [-> | (x & z & Hx & [H0 H5] & -> & ->)]; [by exists None, None|]. exists (Some x). unfold read_rating.
  change (match SellerMetrics.json_of_float x with JNull => Some None | _ => r ← number (SellerMetrics.json_of_float x); if fleb 0 r && fleb r RATING_SCALE then Some (Some r) else None end)
    with (r ← number (SellerMetrics.json_of_float x); if fleb 0 r && fleb r RATING_SCALE then Some (Some r) else None).
  rewrite json_float_value by done. cbn [mbind option_bind]. destruct (fleb_spec 0 x); [|done]. destruct (fleb_spec x RATING_SCALE); [|done].
  cbn [andb]. unfold read_count. destruct (truthy (JInt z)); by eexists.
Qed.

Lemma fair_readable v : fair v → is_Some (read_quality v).
Proof.
  intros (m & rating & n & -> & Hr). destruct (fair_rating_reads _ _ Hr) as (r & c & Er & Ec). unfold read_quality, SellerMetrics.quality_inputs.
  change (negb (truthy (JObj _))) with false. cbv iota.
  change (obj_get _ "rating") with rating. change (obj_get _ "review_count") with n. rewrite Er. cbn [mbind option_bind]. rewrite Ec. cbn [mbind option_bind].
  change (obj_get _ "confidence") with (SellerMetrics.json_of_float (SellerMetrics.m_confidence m)).
  change (obj_get _ "on_time_dispatch_rate") with (SellerMetrics.json_of_float (SellerMetrics.m_on_time_dispatch_rate m)).
  change (obj_get _ "cancellation_rate") with (SellerMetrics.json_of_float (SellerMetrics.m_cancellation_rate m)).
  change (obj_get _ "return_rate") with (SellerMetrics.json_of_float (SellerMetrics.m_return_rate m)).
  repeat match goal with
  | |- context [read_share (SellerMetrics.json_of_float ?x)] => let o := fresh "o" in let E := fresh "E" in destruct (read_share_float x) as [o E]; rewrite E; cbn [mbind option_bind]
  | |- context [read_unless ?s (SellerMetrics.json_of_float ?x)] => let o := fresh "o" in let E := fresh "E" in destruct (read_unless_float s x) as [o E]; rewrite E; cbn [mbind option_bind]
  end. by eexists.
Qed.

(** The reply of order-saga to a question about a seller. *)
Definition performance_reply (body : option json) : Prop :=
  ∃ seller rows rating n d, fair_rating rating n ∧
    SellerMetrics.seller_performance seller rows (inr (rating, n)) = inr d ∧ body = Some (JObj d).

Lemma performance_quality body : performance_reply body → ∃ d, body = Some (JObj d) ∧ fair (obj_get d "quality").
Proof.
  intros (seller & rows & rating & n & d & Hr & Hd & ->). exists d. split; [done|]. unfold SellerMetrics.seller_performance in Hd.
  destruct (SellerMetrics.compute_metrics _) as [m|]; [|done]. apply (inj inr) in Hd. subst d. by exists m, rating, n.
Qed.

(** The reply of the personalisation service. *)
Definition weight_json (kw : string * float) : string * json := (kw.1, SellerMetrics.json_of_float kw.2).

Definition profile_json (buyer : string) (p : ProfileDict) : json :=
  JObj [("buyer_id", JStr buyer); ("categories", JObj (map weight_json (pd_categories p))); ("sellers", JObj (map weight_json (pd_sellers p)));
        ("known", JBool (pd_known p))].

Definition float_weights (ws : list (string * float)) : Prop := Forall (λ kw, is_float kw.2) ws.

Lemma weights_read_back ws : float_weights ws → read_weights (JObj (map weight_json ws)) = Some ws.
Proof.
  intros Hf. unfold read_weights. destruct (truthy (JObj (map weight_json ws))) eqn:Et.
  - cbn [negb]. apply mapM_Some. clear Et. induction Hf as [|[k w] ws Hw _ IH]; [constructor|]. cbn [map]. constructor; [|done].
    cbn in Hw. pose proof (json_float_value w Hw) as E. unfold read_weight, weight_json. cbn [fst snd]. cbn in E |- *. congruence.
  - destruct ws; [done|]. cbn in Et. done.
Qed.

(** What personalisation sends is what search reads. *)
Lemma profile_read_back buyer p : float_weights (pd_categories p) → float_weights (pd_sellers p) →
  profile_of_json (profile_json buyer p) = Some (profile_from_dict (Some p)).
Proof.
  intros Hc Hs. unfold profile_of_json, profile_json. change (negb (truthy (JObj _))) with false. cbv iota.
  change (obj_get _ "known") with (JBool (pd_known p)). change (obj_get _ "categories") with (JObj (map weight_json (pd_categories p))).
  change (obj_get _ "sellers") with (JObj (map weight_json (pd_sellers p))). cbn [truthy].
 
  unfold profile_from_dict. destruct (pd_known p); cbn [negb]; [|done]. rewrite !weights_read_back by done. done.
Qed.

Lemma normalise_floats ws : float_weights (_normalise ws).
Proof.
  unfold _normalise, float_weights. destruct ws as [|e es]; [constructor|]. destruct (fleb _ 0); [constructor|].
  apply Forall_forall. intros x (y & -> & _)%elem_of_map. cbn [snd]. apply rnd_rnd.
Qed.

Lemma top_floats ws n : float_weights ws → float_weights (_top ws n).
Proof.
  unfold float_weights, _top. rewrite !Forall_forall. intros Hf x Hx. apply Hf. rewrite <-(sort_le_perm stronger ws), <-(take_drop n (sort_le stronger ws)).
  apply elem_of_app. by left.
Qed.

Definition profile_reply (body : option json) : Prop :=
  ∃ buyer events now p, build_profile events now = Some p ∧ body = Some (profile_json buyer (profile_as_dict p)).

Lemma profile_reply_reads body : profile_reply body → ∃ v o, body = Some v ∧ profile_of_json v = Some o.
Proof.
  intros (buyer & events & now & p & Hp & ->). do 2 eexists. split; [done|]. apply profile_read_back; cbn [pd_categories pd_sellers profile_as_dict profile_as_dict_at];
    apply top_floats; unfold build_profile, build_profile_at in Hp; apply bind_Some in Hp as (acc & _ & Hp); apply (inj Some) in Hp; subst p; apply normalise_floats.
Qed.

(** ** Lookups that answer honestly, or not at all *)

Definition cache_fair (st : lookups) : Prop := ∀ s e v, quality_cache st !! s = Some (e, v) → fair v.

(** No answer, a refusal, a bad status and a late answer are all allowed. *)
Record honest (reply : option json → Prop) (x : exchange) : Prop := {
  ho_meanwhile : ∀ st, cache_fair st → cache_fair (meanwhile x st);
  ho_answer : ∀ body, answer x = Answer 200 body → reply body;
}.

Lemma cached_fair now s st : cache_fair st →
  cache_fair (_cached now s st).1 ∧ ∀ v, (_cached now s st).2 = Some v → fair v.
Proof.
  intros Hst. unfold _cached. destruct (quality_cache st !! s) as [[e v]|] eqn:E; [|done].
  destruct (e <? now)%Z; cbn [fst snd]; split; try done.
  - intros s' e' v'. cbn [with_cache quality_cache]. rewrite lookup_delete_Some. intros [_ Hl]. by eapply Hst.
  - intros v' <-%(inj Some). by eapply Hst.
Qed.

Lemma fetch_fair x st : honest performance_reply x → cache_fair st →
  cache_fair (_fetch x st).1 ∧ ∃ q, (_fetch x st).2 = Some q ∧ (q = JNull ∨ fair q).
Proof.
  intros [Hm Ha] Hst. unfold _fetch. destruct (enter (asked_at x) (quality_breaker st)) as [b [refused|]]; [split; [done|eexists; by split; [|left]]|].
  assert (Hst' : cache_fair (meanwhile x (with_quality_breaker b st))) by by apply Hm.
  destruct (answer x) as [e|status body] eqn:E; [split; [done|eexists; by split; [|left]]|]. cbn [fst snd]. split; [done|].
  destruct (Z.eqb_spec status 200) as [->|]; [|eexists; by split; [|left]]. cbn [negb].
  destruct (performance_quality body (Ha body eq_refl)) as (d & -> & Hf). eexists. by split; [|right].
Qed.

Lemma resolve_fair xs : (∀ i, honest performance_reply (xs i)) → ∀ ids i fetched resolved st, cache_fair st →
  (∀ s q, resolved !! s = Some q → fair q) →
  ∃ resolved', (resolve xs i fetched ids resolved st).2 = Some resolved' ∧ ∀ s q, resolved' !! s = Some q → fair q.
Proof.
  intros Hxs. induction ids as [|s ids IH]; intros i fetched resolved st Hst Hres; [by exists resolved|]. cbn [resolve].
  assert (Hadd : ∀ v, fair v → ∀ s' q, <[s := v]> resolved !! s' = Some q → fair q).
  { intros v Hv s' q [[_ <-]|[_ Hl]]%lookup_insert_Some; [done|by eapply Hres]. }
  destruct (cached_fair (checked_at (xs i)) s st Hst) as [Hst' Hv]. destruct (_cached (checked_at (xs i)) s st) as [st' [v|]]; cbn [fst snd] in *.
  - apply IH; [done|]. apply Hadd. by apply Hv.
  - destruct (MAX_LOOKUPS_PER_QUERY <=? fetched)%nat; [by apply IH|].
    destruct (fetch_fair (xs i) st' (Hxs i) Hst') as [Hst'' (q & Hq & Hf)]. destruct (_fetch (xs i) st') as [st2 o]; cbn [fst snd] in *. subst o.
    destruct Hf as [-> | Hf]; [by apply IH|].
    assert (Hgo : cache_fair (with_cache (<[s := ((stored_at (xs i) + CACHE_TTL_US)%Z, q)]> (quality_cache st2)) st2)).
    { intros s' e' v'. cbn [with_cache quality_cache]. intros [[_ [= _ <-]]|[_ Hl]]%lookup_insert_Some; [done|by eapply Hst'']. }
    destruct q; (apply IH; [done|by apply Hadd]) || by apply IH.
Qed.

Lemma profile_fair x buyer st : honest profile_reply x → cache_fair st →
  cache_fair (fetch_profile x buyer st).1 ∧ ∃ o, profile_of_json (fetch_profile x buyer st).2 = Some o.
Proof.
  intros [Hm Ha] Hst. unfold fetch_profile. destruct (named buyer); [|split; [done|by eexists]].
  destruct (enter (asked_at x) (affinity_breaker st)) as [b [refused|]]; [split; [done|by eexists]|].
  assert (Hst' : cache_fair (meanwhile x (with_affinity_breaker b st))) by by apply Hm.
  destruct (answer x) as [e|status body] eqn:E; [split; [done|by eexists]|]. cbn [fst snd]. split; [done|].
  destruct (Z.eqb_spec status 200) as [->|]; [|by eexists]. cbn [negb]. destruct (profile_reply_reads body (Ha body eq_refl)) as (v & o & -> & Ho). by exists o.
Qed.

(** ** The search *)

Lemma renders_fair r fallback h : (∀ s q, fallback !! s = Some q → fair q) → renders r ∅ h ↔ renders r fallback h.
Proof.
  intros Hf. assert (Hq : is_Some (read_quality (quality_json ∅ (h_source h))) ↔ is_Some (read_quality (quality_json fallback (h_source h)))).
  { unfold quality_json. destruct (projected (h_source h)); [done|]. destruct (key_of _) as [s|]; [|done]. rewrite lookup_empty. cbn [default from_option].
    destruct (fallback !! s) as [q|] eqn:E; [|done]. apply Hf, fair_readable in E. unfold id. split; [done|by eexists]. }
  split; intros [H1 H2 H3 H4]; (split; [by apply Hq|done..]).
Qed.

(** With honest lookups the page is that of some fair qualities. *)
Lemma search_shape engine r affinity quality st total hits :
  engine (body_of r) = Some (total, hits) → honest profile_reply affinity → (∀ i, honest performance_reply (quality i)) → cache_fair st →
  ∃ profile fallback, (∀ s q, fallback !! s = Some q → fair q) ∧
    (search_products engine r affinity quality st).2 = page_of r total profile fallback hits.
Proof.
  intros He Ha Hq Hst. unfold search_products. rewrite He.
  destruct (profile_fair affinity (buyer_id r) st Ha Hst) as [Hst' (profile & Hp)]. destruct (fetch_profile affinity (buyer_id r) st) as [st' data]. cbn [fst snd] in *.
  rewrite Hp. exists profile. case_bool_decide; [by exists ∅|]. unfold quality_for.
  destruct (resolve_fair quality Hq (unique_ids [] (to_resolve hits)) 0 0 ∅ st' Hst') as (fallback & Hf & Hall); [by intros s q ?%lookup_empty_Some|].
  destruct (resolve _ _ _ _ _ st') as [st2 o]. cbn [fst snd] in *. subst o. by exists fallback.
Qed.

(** No lookup gets a usable answer, from its service or from the cache. *)
Record silent (x : exchange) : Prop := {
  si_meanwhile : ∀ st, quality_cache st = ∅ → quality_cache (meanwhile x st) = ∅;
  si_answer : ∀ body, answer x ≠ Answer 200 body;
}.

Lemma silent_profile x buyer st : silent x → quality_cache st = ∅ →
  (fetch_profile x buyer st).2 = JNull ∧ quality_cache (fetch_profile x buyer st).1 = ∅.
Proof.
  intros [Hm Ha] Hst. unfold fetch_profile. destruct (named buyer); [|done].
  destruct (enter (asked_at x) (affinity_breaker st)) as [b [refused|]]; [done|].
  destruct (answer x) as [e|status body] eqn:E; cbn [fst snd quality_cache with_affinity_breaker].
  - split; [done|by apply Hm].
  - split; [|by apply Hm]. destruct (Z.eqb_spec status 200) as [->|]; [by destruct (Ha body)|done].
Qed.

Lemma silent_fetch x st : silent x → quality_cache st = ∅ → (_fetch x st).2 = Some JNull ∧ quality_cache (_fetch x st).1 = ∅.
Proof.
  intros [Hm Ha] Hst. unfold _fetch. destruct (enter (asked_at x) (quality_breaker st)) as [b [refused|]]; [done|].
  destruct (answer x) as [e|status body] eqn:E; cbn [fst snd quality_cache with_quality_breaker].
  - split; [done|by apply Hm].
  - split; [|by apply Hm]. destruct (Z.eqb_spec status 200) as [->|]; [by destruct (Ha body)|done].
Qed.

Lemma silent_resolve xs : (∀ i, silent (xs i)) → ∀ ids i fetched resolved st, quality_cache st = ∅ →
  (resolve xs i fetched ids resolved st).2 = Some resolved.
Proof.
  intros Hxs. induction ids as [|s ids IH]; intros i fetched resolved st Hst; [done|]. cbn [resolve].
  unfold _cached. rewrite Hst, lookup_empty. destruct (MAX_LOOKUPS_PER_QUERY <=? fetched)%nat; [by apply IH|].
  destruct (silent_fetch (xs i) st (Hxs i) Hst) as [E Hst']. destruct (_fetch (xs i) st) as [st' o]. cbn [fst snd] in *. subst o. by apply IH.
Qed.

Lemma silent_search engine r affinity quality st total hits : silent affinity → (∀ i, silent (quality i)) → quality_cache st = ∅ →
  engine (body_of r) = Some (total, hits) → (search_products engine r affinity quality st).2 = page_of r total None ∅ hits.
Proof.
  intros Ha Hq Hst He. unfold search_products. rewrite He. destruct (silent_profile affinity (buyer_id r) st Ha Hst) as [Ej Hst'].
  destruct (fetch_profile affinity (buyer_id r) st) as [st' data]. cbn [fst snd] in *. subst data. cbn [profile_of_json truthy negb].
  case_bool_decide; [done|]. unfold quality_for.
  pose proof (silent_resolve quality Hq (unique_ids [] (to_resolve hits)) 0 0 ∅ st' Hst') as E.
  destruct (resolve _ _ _ _ _ st') as [st2 o]. cbn [snd] in E. by subst o.
Qed.

Definition anonymous (r : SearchRequest) : SearchRequest :=
  {| query := query r; page := page r; size := size r; shop := shop r; buyer_lat := buyer_lat r; buyer_lon := buyer_lon r; buyer_id := None |}.

(** C14 — An outage costs a search its order and nothing else: whatever the two
    lookups answer, as long as they answer what their services compute or not
    at all, whatever state their breakers are in and whatever concurrent
    searches do to them, a search that succeeds would have succeeded with any
    other answers, with the same total and the same items up to order; and with
    no usable answer at all it is the search of an anonymous buyer. *)
Theorem outage_costs_only_order (engine : search_body → option (Z * list hit)) (r : SearchRequest)
    (affinity affinity' : exchange) (quality quality' : nat → exchange) (st st' : lookups) (p : SearchResponse) :
  honest profile_reply affinity → (∀ i, honest performance_reply (quality i)) → cache_fair st →
  honest profile_reply affinity' → (∀ i, honest performance_reply (quality' i)) → cache_fair st' →
  (search_products engine r affinity quality st).2 = Some p →
  (∃ p', (search_products engine r affinity' quality' st').2 = Some p' ∧ total_hits p' = total_hits p ∧ items p' ≡ₚ items p) ∧
  (silent affinity' → (∀ i, silent (quality' i)) → quality_cache st' = ∅ →
    (search_products engine r affinity' quality' st').2 = (search_products engine (anonymous r) affinity' quality' st').2).
Proof.
  intros Ha Hq Hst Ha' Hq' Hst' Hp. destruct (engine (body_of r)) as [[total hits]|] eqn:He; [|by unfold search_products in Hp; rewrite He in Hp].
  split.
  - destruct (search_shape engine r affinity quality st total hits He Ha Hq Hst) as (profile & fallback & Hf & E). rewrite E in Hp.
    destruct (search_shape engine r affinity' quality' st' total hits He Ha' Hq' Hst') as (profile' & fallback' & Hf' & ->).
    apply page_inv in Hp as (Ht & Hr & l & Hl & Hperm). destruct (page_ok r total profile' fallback' hits) as [p' Hp'].
    { intros h Hh. apply renders_fair; [done|]. apply (renders_fair r fallback); [done|by apply Hr]. }
    exists p'. split; [done|]. apply page_inv in Hp' as (Ht' & _ & l' & Hl' & Hperm'). rewrite Hl in Hl'. apply (inj Some) in Hl'. subst l'.
    split; [by rewrite Ht, Ht'|by rewrite Hperm, Hperm'].
  - intros Hsa Hsq Hc. rewrite (silent_search engine r affinity' quality' st' total hits) by done.
    rewrite (silent_search engine (anonymous r) affinity' quality' st' total hits) by done. done.
Qed.
End reading.

(** ** Concrete searches *)

#[local] Existing Instances coarse_libm coarse_laws.

Definition whole_number (v : json) : option Z := match v with JInt z => Some z | _ => None end.

Definition product_hit (id seller : string) (score : float) : hit :=
  {| h_score := Some score; h_source := [("product_id", JStr id); ("name", JStr id); ("seller_id", JStr seller); ("price_cents", JInt 500)] |}.

(** Two products the query matches equally well. *)
Definition two_hits (b : search_body) : option (Z * list hit) := Some (2%Z, [product_hit "a" "s1" 4; product_hit "b" "s2" 4]).

Definition keyboards : SearchRequest :=
  {| query := "keyboard"; page := 1; size := 20; shop := None; buyer_lat := None; buyer_lon := None; buyer_id := None |}.

Definition fresh : lookups :=
  let b := new_breaker FAILURE_THRESHOLD RESET_TIMEOUT_US 10 in {| quality_breaker := b; affinity_breaker := b; quality_cache := ∅ |}.

Definition replies (a : http_answer) : exchange :=
  {| checked_at := 0; asked_at := 0; answered_at := 1; stored_at := 1; answer := a; meanwhile := λ st, st |}.

Definition parcel_of (seller status : string) : SellerOrder :=
  {| so_id := "x"; so_order_id := "o"; so_seller_id := seller; so_status := status; so_status_reason := None; so_subtotal_cents := 5;
     so_currency := "BDT"; so_item_count := 1; so_confirmed_at := Some 0%Z; so_dispatched_at := Some 0%Z; so_delivered_at := None;
     so_settled_at := None; so_courier_name := None; so_tracking_code := None; so_created_at := 0; so_updated_at := 0 |}.

(** The first shop's parcels come back; nothing is known of the second. *)
Definition performance (seller : string) (rows : list SellerOrder) : http_answer :=
  match SellerMetrics.seller_performance seller rows (inr (JNull, JNull)) with inr d => Answer 200 (Some (JObj d)) | inl _ => Answer 500 None end.

Definition live (i : nat) : exchange :=
  replies (performance (if decide (i = 0%nat) then "s1" else "s2") (repeat (parcel_of "s1" "RETURNED") 40)).

Definition dead (i : nat) : exchange := replies (NoAnswer "ConnectTimeout").

Definition search (quality : nat → exchange) : lookups * option SearchResponse :=
  search_products (λ _, "") (λ _, None) whole_number two_hits keyboards (dead 0) quality fresh.

Definition found_ids (p : option SearchResponse) : option (list string) := map it_product_id ∘ items <$> p.

(** The returns put the first shop second; without the lookup the ids decide. *)
Example returns_sink_a_shop : found_ids (search live).2 = Some ["b"; "a"] ∧ found_ids (search dead).2 = Some ["a"; "b"].
Proof. split; vm_compute; reflexivity. Qed.

(** A reply that is not JSON, under a status of 200, fails the whole search. *)
Example garbled_quality_fails_the_search : (search (λ _, replies (Answer 200 None))).2 = None.
Proof. vm_compute. reflexivity. Qed.

(** A shop with no orders and no rating is exactly average. *)
Example new_shop_is_average :
  match SellerMetrics.seller_performance "s" [] (inr (JNull, JNull)) with
  | inr d => match read_quality (λ _, None) (obj_get d "quality") with Some q => quality_boost q | None => inl MathDomain end
  | inl _ => inl MathDomain
  end = inr 1%Q.
Proof. vm_compute. reflexivity. Qed.

Lemma live_is_honest i : honest performance_reply (live i).
Proof.
  split; [done|]. intros body. unfold live, performance. cbn [answer replies].
  destruct (SellerMetrics.seller_performance _ _ _) as [|d] eqn:E; [done|]. intros [= <-]. do 5 eexists. split; [by left|]. by split; [exact E|].
Qed.

Lemma dead_is_honest reply i : honest reply (dead i).
Proof. by split. Qed.

Lemma outage_costs_only_order_witness : ∃ p p', (search live).2 = Some p ∧ (search dead).2 = Some p' ∧ items p' ≡ₚ items p.
Proof.
  assert (Hfresh : cache_fair fresh) by (intros s e v [= ]).
  pose proof (proj1 returns_sink_a_shop) as F. destruct (search live).2 as [p|] eqn:E; [|discriminate F].
  destruct (outage_costs_only_order (λ _, "") (λ _, None) whole_number two_hits keyboards (dead 0) (dead 0) live dead fresh fresh p
    (dead_is_honest _ 0) live_is_honest Hfresh (dead_is_honest _ 0) (dead_is_honest _) Hfresh E) as [(p' & Ep & _ & Hp) _].
  exists p, p'. split; [reflexivity|]. split; [exact Ep|exact Hp].
Defined.
End SearchEngine.
