(* ===== verification/Tracing.v ===== *)
(** * Traces across the outbox

    shared/libs/python-common/tracing.py and outbox.py: the identifiers of the
    active span go into the payload of an outbox row when it is inserted, and a
    consumer continues the trace they name.  Also auth.py and the lazy exports of
    the package (__init__.py).  The OpenTelemetry library is an argument: the
    context of the active span, and the span a tracer starts under a parent. *)

From Stdlib Require Import Ascii.
From S2P Require Import Prelude PyValue PyJson PyText.
Import PyJson PyText.

Module Tracing.

Definition TRACE_ID_FIELD := "_trace_id".
Definition SPAN_ID_FIELD := "_span_id".

(** A span context, as OpenTelemetry gives it. *)
Record SpanContext := { trace_id : Z; span_id : Z; is_valid : bool }.

(** [format(n, '032x')] with the width as an argument, for an [n] that is not negative. *)
Definition format_hex (width : nat) (n : Z) : string := hex_fixed (Nat.max width (Z.to_nat (Z.log2 n / 4 + 1))) n "".

Definition payload := list (string * json).

(** [d.update(e)] *)
Definition dict_update (d e : payload) : payload := foldl (λ d kv, dict_set d kv.1 kv.2) d e.

(** What the library answers about the active span: [None] is an exception, a
    missing installation included. *)
Definition active := option (option SpanContext).

Definition current_trace_context (now : active) : payload :=
  match now with
  | Some (Some ctx) =>
      if is_valid ctx
      then [(TRACE_ID_FIELD, JStr (format_hex 32 (trace_id ctx))); (SPAN_ID_FIELD, JStr (format_hex 16 (span_id ctx)))]
      else []
  | _ => []
  end.

Definition inject_trace_context (now : active) (p : payload) : payload := dict_update p (current_trace_context now).

(** The [before_insert] listener, on the payload of the row. *)
Definition _inject (now : active) (target : option payload) : option payload :=
  match current_trace_context now with
  | [] => target
  | ctx => Some (dict_update (default [] target) ctx)
  end.

(** [int(raw, 16)]; anything but a text is a [TypeError]. *)
Definition hex_int (raw : json) : option Z := match raw with JStr s => parse_int 16 s | _ => None end.

(** The parent the consumer's span is started under; [None] is a span with no
    explicit parent.  [context] is the constructor of the library. *)
Definition parent_of (context : Z → Z → option SpanContext) (p : payload) : option SpanContext :=
  let raw_trace := obj_get p TRACE_ID_FIELD in
  let raw_span := obj_get p SPAN_ID_FIELD in
  if truthy raw_trace && truthy raw_span then
    t ← hex_int raw_trace;
    s ← hex_int raw_span;
    context t s
  else None.

(** How a row is inserted: through the mapped class of a service that registered
    the listener, or by a raw statement (the reaper of the order service, the
    sweeps of the cart service), or in a service that registers none (sellers,
    media, reviews, audit). *)
Inductive row_writer := Listened | Unlistened.
#[export] Instance row_writer_eq : EqDecision row_writer. Proof. solve_decision. Defined.

(** What a row holds after the insert, [now] being the active span. *)
Definition stored (writer : row_writer) (now : active) (p : option payload) : payload :=
  default [] match writer with Listened => _inject now p | Unlistened => p end.

(** [context] makes the library's span context out of two identifiers;
    [start_span n parent] is the span the tracer starts for the [n]-th message,
    with no parent a new root; [serve] is the span in which a service handles the
    HTTP request made under another (opentelemetry's instrumentation of httpx
    and FastAPI, on both sides of the call). *)
Section consumer.
Context (context : Z → Z → option SpanContext) (start_span : nat → option SpanContext → SpanContext) (serve : SpanContext → SpanContext).

Definition start_consumer_span (n : nat) (p : payload) : SpanContext := start_span n (parent_of context p).

(** The row number [n], inserted in a span, and the consumer's span for it. *)
Definition hop (n : nat) (span : SpanContext) (row : row_writer * option payload) : SpanContext :=
  start_consumer_span n (stored row.1 (Some (Some span)) row.2).

(** The consumers' spans of a chain of rows, each inserted by the service that
    serves the call made while the last one is handled. *)
Fixpoint journey (n : nat) (span : SpanContext) (rows : list (row_writer * option payload)) : list SpanContext :=
  match rows with
  | [] => []
  | row :: rows => let s := hop n span row in s :: journey (S n) (serve s) rows
  end.

(** The traces such a chain is expected to show: a row the listener saw stays in
    the trace of its writer, and any other starts the trace of a new root. *)
Fixpoint expected_traces (n : nat) (t : Z) (rows : list (row_writer * option payload)) : list Z :=
  match rows with
  | [] => []
  | row :: rows =>
      let t := match row.1 with Listened => t | Unlistened => trace_id (start_span n None) end in
      t :: expected_traces (S n) t rows
  end.
End consumer.

(** ** Building a message (outbox.py) *)

Record OutboxDict := {
  od_id : string; od_aggregate_type : string; od_aggregate_id : string; od_type : string; od_payload : payload; od_created_at : string;
}.

Definition set_missing (d : payload) (k : string) (v : json) : payload :=
  match dict_get d k with Some _ => d | None => dict_set d k v end.

(** The caller's dictionary is completed in place and put into the message. *)
Definition build_outbox_message (now : active) (message_id now_iso : string)
    (aggregate_type aggregate_id event_type : string) (payload_dict : payload) : payload * OutboxDict :=
  let p := set_missing payload_dict "id" (JStr message_id) in
  let p := set_missing p "type" (JStr event_type) in
  let p := set_missing p "timestamp" (JStr now_iso) in
  let p := dict_update p (current_trace_context now) in
  (p, {| od_id := message_id; od_aggregate_type := aggregate_type; od_aggregate_id := aggregate_id; od_type := event_type;
         od_payload := p; od_created_at := now_iso |}).

(** ** Setting tracing up *)

(** What happens on the way: the SDK is missing, or installing the provider fails. *)
Record installation := { sdk_imports : bool; provider_installs : bool }.

(** [_configured], and the endpoint the exporter was given, if one was installed. *)
Definition setup_tracing (argument environment : option string) (i : installation) (_configured : bool) : bool * option string :=
  if _configured then (true, None)
  else
    let given := match argument with Some e => if is_empty e then environment else argument | None => environment end in
    match given with
    | Some e =>
        if is_empty e then (false, None)
        else if negb (sdk_imports i) then (false, None)
        else if provider_installs i then (true, Some (rstrip_by (λ c, bool_decide (c = "/"%char)) e +:+ "/v1/traces")) else (false, None)
    | None => (false, None)
    end.

(** ** Tokens (auth.py) *)

Inductive jwt_error := ExpiredSignatureError | InvalidTokenError | OtherError.

Definition default_algorithms : list string := ["HS256"; "RS256"].

(** [inl] is an exception that is passed on. *)
Definition verify_jwt (decode : string → string → list string → jwt_error + payload)
    (token secret_or_public_key : string) (algorithms : list string) : jwt_error + option payload :=
  match decode token secret_or_public_key algorithms with
  | inr decoded_payload => inr (Some decoded_payload)
  | inl ExpiredSignatureError | inl InvalidTokenError => inr None
  | inl OtherError => inl OtherError
  end.

(** ** Lazy exports (__init__.py) *)

Definition __all__ : list string :=
  ["verify_jwt"; "BaseOutboxPayload"; "build_outbox_message"; "KafkaAvroConsumer"; "outbox_cleanup_loop"; "prune_outbox_once";
   "start_outbox_cleanup"; "setup_tracing"; "inject_trace_context"; "enable_outbox_trace_injection"; "start_consumer_span"; "get_tracer"].

Definition _LAZY_EXPORTS : list (string * string) :=
  [("verify_jwt", ".auth"); ("BaseOutboxPayload", ".outbox"); ("build_outbox_message", ".outbox"); ("KafkaAvroConsumer", ".kafka_client");
   ("outbox_cleanup_loop", ".retention"); ("prune_outbox_once", ".retention"); ("start_outbox_cleanup", ".retention");
   ("setup_tracing", ".tracing"); ("inject_trace_context", ".tracing"); ("enable_outbox_trace_injection", ".tracing");
   ("start_consumer_span", ".tracing"); ("get_tracer", ".tracing")].

(** The package's own names, filled on the first use of each; [import] gives a
    name out of a module, or fails. *)
Definition __getattr__ {V} (import : string → string → string + V) (name : string) (globals : list (string * V)) : list (string * V) * (string + V) :=
  match dict_get _LAZY_EXPORTS name with
  | None => (globals, inl "AttributeError")
  | Some module_path =>
      match import module_path name with
      | inl e => (globals, inl e)
      | inr value => (dict_set globals name value, inr value)
      end
  end.

(** A name is first looked for among the package's own. *)
Definition getattr {V} (import : string → string → string + V) (name : string) (globals : list (string * V)) : list (string * V) * (string + V) :=
  match dict_get globals name with Some v => (globals, inr v) | None => __getattr__ import name globals end.

Lemma every_export_is_defined : Forall (λ n, is_Some (dict_get _LAZY_EXPORTS n)) __all__ ∧ _LAZY_EXPORTS.*1 = __all__.
Proof. split; [repeat (constructor; [by eexists|]); constructor|reflexivity]. Qed.

(** A heavy module is imported only for the names that need it, and once for a name. *)
Lemma import_happens_once {V} (import : string → string → string + V) name globals globals' v :
  getattr import name globals = (globals', inr v) → ∀ import', getattr import' name globals' = (globals', inr v).
Proof.
  unfold getattr, __getattr__. destruct (dict_get globals name) as [w|] eqn:E; [intros [= <- <-] import'; by rewrite E|].
  destruct (dict_get _LAZY_EXPORTS name); [|done]. destruct (import _ _) as [e|w]; [done|]. intros [= <- <-] import'. by rewrite dict_get_set_eq.
Qed.

(** ** Hexadecimal text reads back *)

Lemma hex_digit d : 0 ≤ d < 16 → digit_of (hex_char d) = Some d ∧ hex_char d ≠ "_"%char ∧ hex_char d ≠ "x"%char ∧ hex_char d ≠ "X"%char ∧
  hex_char d ≠ "-"%char ∧ hex_char d ≠ "+"%char ∧ is_space (hex_char d) = false.
Proof.
  intros Hd. assert (Hc : d ∈ map Z.of_nat (seq 0 16)).
  { apply list_elem_of_fmap. exists (Z.to_nat d). split; [lia|]. apply elem_of_seq. lia. }
  cbn in Hc. elem_cases Hc; by_compute || (split_and!; done).
Qed.

Lemma digits_hex n z tail acc us : (0 < n)%nat → 0 ≤ z →
  digits 16 (hex_fixed n z tail) acc us = digits 16 tail (acc * 16 ^ Z.of_nat n + z mod 16 ^ Z.of_nat n) false.
Proof.
  revert z tail. induction n as [|n IH]; intros z tail Hn Hz; [lia|]. cbn [hex_fixed].
  assert (Hland : Z.land z 15 = z mod 16) by (change 15 with (Z.ones 4); by rewrite Z.land_ones).
  assert (Hshift : Z.shiftr z 4 = z / 16) by by rewrite Z.shiftr_div_pow2.
  rewrite Hland, Hshift. pose proof (Z.mod_pos_bound z 16 ltac:(lia)) as Hm. pose proof (Z.div_mod z 16 ltac:(lia)) as Hdm.
  destruct (hex_digit (z mod 16) Hm) as (Hdig & Hus & _).
  assert (Hone : ∀ acc us, digits 16 (String (hex_char (z mod 16)) tail) acc us = digits 16 tail (acc * 16 + z mod 16) false).
  { intros acc' us'. cbn [digits]. rewrite bool_decide_false by done. rewrite Hdig. by rewrite (proj2 (Z.ltb_lt _ _)) by lia. }
  destruct n as [|n]; [cbn [hex_fixed]; rewrite Hone; by rewrite Z.pow_1_r|].
  rewrite IH by (lia || apply Z.div_pos; lia). rewrite Hone. f_equal.
  set (k := Z.of_nat (S n)). assert (E : Z.of_nat (S (S n)) = k + 1) by lia. rewrite E, Z.pow_add_r, Z.pow_1_r by lia.
  assert (Hp : 0 < 16 ^ k) by (apply Z.pow_pos_nonneg; lia).
  rewrite (Z.mul_comm (16 ^ k) 16). rewrite Z.rem_mul_r by lia. ring.
Qed.

Lemma hex_fixed_head n z tail : (0 < n)%nat → ∃ d s, 0 ≤ d < 16 ∧ hex_fixed n z tail = String (hex_char d) s.
Proof.
  revert z tail. induction n as [|n IH]; intros z tail Hn; [lia|]. cbn [hex_fixed].
  assert (Hd : 0 ≤ Z.land z 15 < 16) by (change 15 with (Z.ones 4); rewrite Z.land_ones by lia; apply Z.mod_pos_bound; lia).
  destruct n as [|n]; [by eexists _, _|]. apply IH. lia.
Qed.

Lemma hex_fixed_no_space n z tail : lacks is_space tail → lacks is_space (hex_fixed n z tail).
Proof.
  revert z tail. induction n as [|n IH]; intros z tail Ht; [done|]. cbn [hex_fixed]. apply IH, lacks_cons. split; [|done].
  apply hex_digit. change 15 with (Z.ones 4). rewrite Z.land_ones by lia. apply Z.mod_pos_bound. lia.
Qed.

Lemma unsigned_hex n z : (0 < n)%nat → 0 ≤ z → unsigned_int 16 (hex_fixed n z "") = Some (z mod 16 ^ Z.of_nat n).
Proof.
  intros Hn Hz. pose proof (digits_hex n z "" 0 true Hn Hz) as Hd. cbn [digits] in Hd. rewrite Z.add_0_l in Hd. rewrite <-Hd.
  destruct (hex_fixed n z "") as [|c [|x s]] eqn:E; [done|done|]. unfold unsigned_int.
  assert (Hx : x ≠ "x"%char ∧ x ≠ "X"%char).
  { destruct n as [|[|n]]; [lia|by cbn in E|].
    assert (Hgo : ∀ m w t, ∃ d1 s1, hex_fixed (S (S m)) w t = String (hex_char d1) s1 ∧ ∃ d2 s2, 0 ≤ d2 < 16 ∧ s1 = String (hex_char d2) s2).
    { induction m as [|m IH]; intros w t.
      - cbn [hex_fixed]. do 2 eexists. split; [reflexivity|]. do 2 eexists. split; [|reflexivity].
        change 15 with (Z.ones 4). rewrite Z.land_ones by lia. apply Z.mod_pos_bound. lia.
      - cbn [hex_fixed] in *. apply IH. }
    destruct (Hgo n z "") as (d1 & s1 & E1 & d2 & s2 & Hd2 & ->). rewrite E1 in E. injection E as _ <- _. by apply hex_digit in Hd2 as (_ & _ & ? & ? & _). }
  destruct Hx as [Hx1 Hx2]. rewrite (bool_decide_false (x = "x"%char)), (bool_decide_false (x = "X"%char)) by done. by rewrite andb_false_r.
Qed.

(** [int(format(n, '032x'), 16)] is [n], whatever the width. *)
Lemma parse_format_hex width n : 0 ≤ n → parse_int 16 (format_hex width n) = Some n.
Proof.
  intros Hn. unfold format_hex. set (k := Nat.max width _). assert (Hk : (0 < k)%nat) by (pose proof (Z.div_pos (Z.log2 n) 4 (Z.log2_nonneg n) ltac:(lia)); subst k; lia).
  assert (Hlt : n < 16 ^ Z.of_nat k).
  { destruct (Z.eq_dec n 0) as [->|]; [apply Z.pow_pos_nonneg; lia|]. apply Z.lt_le_trans with (2 ^ (Z.log2 n + 1)); [apply Z.log2_spec; lia|].
    change 16 with (2 ^ 4). rewrite <-Z.pow_mul_r by lia. apply Z.pow_le_mono_r; [lia|]. pose proof (Z.log2_nonneg n). subst k.
    pose proof (Z.div_mod (Z.log2 n) 4 ltac:(lia)). pose proof (Z.mod_pos_bound (Z.log2 n) 4 ltac:(lia)). lia. }
  unfold parse_int. rewrite strip_lacks by (apply hex_fixed_no_space; by intros c).
  pose proof (unsigned_hex k n Hk Hn) as Hu. rewrite Z.mod_small in Hu by lia.
  destruct (hex_fixed_head k n "" Hk) as (d & s & Hd & E). rewrite E in *. apply hex_digit in Hd as (_ & _ & _ & _ & Hm & Hp & _).
  by rewrite !bool_decide_false.
Qed.

Lemma format_hex_nonempty width n : format_hex width n ≠ "".
Proof.
  unfold format_hex. pose proof (Z.div_pos (Z.log2 n) 4 (Z.log2_nonneg n) ltac:(lia)). destruct (hex_fixed_head (Nat.max width (Z.to_nat (Z.log2 n / 4 + 1))) n "") as (d & s & _ & ->); [lia|done].
Qed.

(** ** Payloads *)

Lemma dict_update_get (d e : payload) k : k ∉ e.*1 → dict_get (dict_update d e) k = dict_get d k.
Proof.
  unfold dict_update. revert d. induction e as [|[k' v] e IH]; intros d Hk; [done|]. cbn. apply not_elem_of_cons in Hk as [Hne Hk].
  rewrite IH by done. apply dict_get_set_ne. by intros ->.
Qed.

Lemma context_keys now k : k ≠ TRACE_ID_FIELD → k ≠ SPAN_ID_FIELD → k ∉ (current_trace_context now).*1.
Proof.
  intros H1 H2. unfold current_trace_context. destruct now as [[ctx|]|]; [|by apply not_elem_of_nil..].
  destruct (is_valid ctx); [|by apply not_elem_of_nil]. cbn. by rewrite !not_elem_of_cons; split_and!; [| |apply not_elem_of_nil].
Qed.

(** The rest of a payload is not touched. *)
Lemma inject_keeps now target k : k ≠ TRACE_ID_FIELD → k ≠ SPAN_ID_FIELD →
  dict_get (default [] (_inject now target)) k = dict_get (default [] target) k.
Proof.
  intros H1 H2. pose proof (context_keys now k H1 H2) as Hk. unfold _inject. destruct (current_trace_context now) as [|c ctx] eqn:E; [done|].
  rewrite <-E in *. cbn [default from_option]. by apply dict_update_get.
Qed.

Lemma inject_ids ctx target : is_valid ctx = true →
  let p := default [] (_inject (Some (Some ctx)) target) in
  dict_get p TRACE_ID_FIELD = Some (JStr (format_hex 32 (trace_id ctx))) ∧ dict_get p SPAN_ID_FIELD = Some (JStr (format_hex 16 (span_id ctx))).
Proof.
  intros Hv. cbn zeta. unfold _inject, current_trace_context. rewrite Hv. unfold dict_update. cbn [foldl default from_option id fst snd].
  split; [rewrite dict_get_set_ne by done|]; apply dict_get_set_eq.
Qed.

(** With no span recording, the row is stored as it was. *)
Lemma no_span_no_change now target : current_trace_context now = [] → _inject now target = target.
Proof. unfold _inject. by intros ->. Qed.

(** The identifiers of a valid context are positive. *)
Definition well_formed (c : SpanContext) : Prop := is_valid c = true ∧ 0 < trace_id c ∧ 0 < span_id c.

(** What opentelemetry documents of the spans it makes: identifiers of a valid
    context are kept by the constructor, a span belongs to the trace of its
    parent and a root to one of its own, and the traceparent header carries the
    trace to the service that serves a call. *)
Record otel_ok (context : Z → Z → option SpanContext) (start_span : nat → option SpanContext → SpanContext) (serve : SpanContext → SpanContext) : Prop := {
  oo_context : ∀ t s, 0 < t → 0 < s → ∃ c, context t s = Some c ∧ trace_id c = t ∧ span_id c = s ∧ well_formed c;
  oo_child : ∀ n c, well_formed c → trace_id (start_span n (Some c)) = trace_id c ∧ well_formed (start_span n (Some c));
  oo_root : ∀ n, well_formed (start_span n None);
  oo_serve : ∀ c, well_formed c → trace_id (serve c) = trace_id c ∧ well_formed (serve c);
}.

(** A payload without the trace's identifier. *)
Definition untraced (p : option payload) : Prop := dict_get (default [] p) TRACE_ID_FIELD = None.

Lemma untraced_parent context p : untraced p → parent_of context (stored Unlistened None p) = None.
Proof. unfold untraced, parent_of, obj_get, stored. by intros ->. Qed.

Lemma parent_is_producer context ctx target : well_formed ctx →
  parent_of context (default [] (_inject (Some (Some ctx)) target)) = context (trace_id ctx) (span_id ctx).
Proof.
  intros (Hv & Ht & Hs). destruct (inject_ids ctx target Hv) as [E1 E2]. unfold parent_of, obj_get. rewrite E1, E2. cbn [default from_option id truthy].
  unfold is_empty. rewrite !bool_decide_false by apply format_hex_nonempty. cbn [negb andb hex_int].
  rewrite !parse_format_hex by lia. done.
Qed.

(** A chain of rows, followed from one consumer to the next. *)
Lemma journey_traces context start_span serve n span rows : otel_ok context start_span serve → well_formed span →
  Forall (λ row : row_writer * option payload, row.1 = Unlistened → untraced row.2) rows →
  map trace_id (journey context start_span serve n span rows) = expected_traces start_span n (trace_id span) rows.
Proof.
  intros [Hc Hs Hr Hv]. revert n span. induction rows as [|[writer p] rows IH]; intros n span Hspan Hall; [done|]. apply Forall_cons_iff in Hall as [Hp Hrows].
  cbn [journey map expected_traces fst]. cbn [fst snd] in Hp.
  assert (Hhop : trace_id (hop context start_span n span (writer, p)) = match writer with Listened => trace_id span | Unlistened => trace_id (start_span n None) end
    ∧ well_formed (hop context start_span n span (writer, p))).
  { unfold hop, start_consumer_span, stored. cbn [fst snd]. destruct writer.
    - destruct (Hspan) as (Hvalid & Ht & Hi). rewrite (parent_is_producer context span p Hspan).
      destruct (Hc _ _ Ht Hi) as (c & -> & <- & _ & Hw). by apply Hs.
    - rewrite (untraced_parent context p (Hp eq_refl) : parent_of context (default [] p) = None). by split; [|apply Hr]. }
  destruct Hhop as [Ht Hw]. destruct (Hv _ Hw) as [Et Hw']. rewrite Ht. f_equal. by rewrite (IH (S n) _ Hw' Hrows), Et, Ht.
Qed.

Lemma expected_all_listened start_span n t rows : Forall (λ row : row_writer * option payload, row.1 = Listened) rows →
  expected_traces start_span n t rows = replicate (length rows) t.
Proof. revert n. induction rows as [|[w p] rows IH]; intros n; [done|]. intros [E Hrows]%Forall_cons_iff. cbn in *. subst w. by rewrite IH. Qed.

(** C38 — Rows carry the trace: a row inserted where the listener is registered,
    in a recording span, takes its consumer's parent from exactly that span,
    whatever its payload held (identifiers of another trace included), and keeps
    everything else its handlers read; outside a recording span it is stored as it
    is.  A row of a raw statement or of a service without the listener is stored
    as it is, and without identifiers its consumer gets no parent.  So, over
    opentelemetry's propagation from a parent to its child and over HTTP, a chain
    of rows stays in one trace as long as the listener sees every row, and a row
    it does not see starts a new one there. *)
Theorem rows_carry_the_trace (context : Z → Z → option SpanContext) (start_span : nat → option SpanContext → SpanContext) (serve : SpanContext → SpanContext)
    (span : SpanContext) (rows : list (row_writer * option payload)) :
  well_formed span → otel_ok context start_span serve →
  Forall (λ row : row_writer * option payload, row.1 = Unlistened → untraced row.2) rows →
  (∀ writer p, well_formed writer → parent_of context (stored Listened (Some (Some writer)) p) = context (trace_id writer) (span_id writer)) ∧
  (∀ now p k, k ≠ TRACE_ID_FIELD → k ≠ SPAN_ID_FIELD → dict_get (stored Listened now p) k = dict_get (default [] p) k) ∧
  (∀ now p, current_trace_context now = [] → stored Listened now p = default [] p) ∧
  (∀ now p, stored Unlistened now p = default [] p ∧ (untraced p → parent_of context (stored Unlistened now p) = None)) ∧
  (∀ n, map trace_id (journey context start_span serve n span rows) = expected_traces start_span n (trace_id span) rows) ∧
  (Forall (λ row : row_writer * option payload, row.1 = Listened) rows → ∀ n s, s ∈ journey context start_span serve n span rows → trace_id s = trace_id span).
Proof.
  intros Hspan Hotel Hrows. split_and!.
  - intros writer p. apply parent_is_producer.
  - intros now p k. apply inject_keeps.
  - intros now p Hnow. unfold stored. by rewrite no_span_no_change.
  - intros now p. split; [done|]. apply untraced_parent.
  - intros n. by apply journey_traces.
  - intros Hall n s Hin. apply (list_elem_of_fmap_2 trace_id) in Hin.
    pose proof (journey_traces context start_span serve n span rows Hotel Hspan Hrows) as E. unfold map in E. unfold fmap, list_fmap in Hin. rewrite E, expected_all_listened in Hin by done.
    by apply elem_of_replicate in Hin as [-> _].
Qed.

(** ** Messages *)

Lemma set_missing_get d k v k' : dict_get (set_missing d k v) k' = if decide (k' = k) then Some (default v (dict_get d k)) else dict_get d k'.
Proof.
  unfold set_missing. destruct (decide (k' = k)) as [->|Hne].
  - destruct (dict_get d k) as [w|] eqn:E; [by rewrite E|apply dict_get_set_eq].
  - destruct (dict_get d k); [done|]. by apply dict_get_set_ne.
Qed.

(** A message always has an id, a type and a time; what the caller had set stays. *)
Lemma message_is_complete now message_id now_iso aggregate_type aggregate_id event_type d :
  let m := build_outbox_message now message_id now_iso aggregate_type aggregate_id event_type d in
  m.1 = od_payload m.2 ∧
  dict_get m.1 "id" = Some (default (JStr message_id) (dict_get d "id")) ∧
  dict_get m.1 "type" = Some (default (JStr event_type) (dict_get d "type")) ∧
  dict_get m.1 "timestamp" = Some (default (JStr now_iso) (dict_get d "timestamp")).
Proof.
  cbn zeta. unfold build_outbox_message. cbn [fst snd od_payload]. split; [done|].
  rewrite !dict_update_get by (apply context_keys; done). rewrite !set_missing_get. cbn. repeat (rewrite decide_True by done || rewrite decide_False by done). done.
Qed.

(** ** Set-up *)

(** Once configured it stays so and installs nothing again; without an endpoint
    or the SDK nothing is installed. *)
Lemma tracing_is_set_up_once argument environment i : setup_tracing argument environment i true = (true, None).
Proof. done. Qed.

Lemma tracing_installs_iff argument environment i b endpoint :
  setup_tracing argument environment i b = (true, Some endpoint) → b = false ∧ sdk_imports i = true ∧ provider_installs i = true.
Proof.
  unfold setup_tracing. destruct b; [done|]. destruct (match argument with Some e => _ | None => _ end) as [e|]; [|done].
  destruct (is_empty e), (sdk_imports i), (provider_installs i); done.
Qed.

(** ** A chain of two rows *)

Definition sample_context (t s : Z) : option SpanContext := Some {| trace_id := t; span_id := s; is_valid := true |}.
Definition sample_start (n : nat) (parent : option SpanContext) : SpanContext :=
  match parent with
  | Some p => {| trace_id := trace_id p; span_id := span_id p + 1; is_valid := true |}
  | None => {| trace_id := 7 + Z.of_nat n; span_id := 1; is_valid := true |}
  end.
Definition sample_serve (c : SpanContext) : SpanContext := {| trace_id := trace_id c; span_id := 2 * span_id c; is_valid := is_valid c |}.
Definition checkout : SpanContext := {| trace_id := 2 ^ 127 + 10; span_id := 255; is_valid := true |}.

Example rows_carry_the_ids :
  _inject (Some (Some checkout)) (Some [("order_id", JStr "o"); (TRACE_ID_FIELD, JStr "stale")]) =
  Some [("order_id", JStr "o"); (TRACE_ID_FIELD, JStr "8000000000000000000000000000000a"); (SPAN_ID_FIELD, JStr "00000000000000ff")].
Proof. vm_compute. reflexivity. Qed.

Definition sample_rows : list (row_writer * option payload) :=
  [(Listened, None); (Listened, Some [("order_id", JStr "o"); (TRACE_ID_FIELD, JStr "stale")]); (Unlistened, Some [("order_id", JStr "o")]); (Listened, None)].

(** The third row is the reaper's: it and what follows are a trace of their own. *)
Lemma rows_carry_the_trace_witness :
  expected_traces sample_start 0 (2 ^ 127 + 10) sample_rows = [2 ^ 127 + 10; 2 ^ 127 + 10; 9; 9] ∧
  map trace_id (journey sample_context sample_start sample_serve 0 checkout sample_rows) = expected_traces sample_start 0 (trace_id checkout) sample_rows.
Proof.
  split; [vm_compute; reflexivity|].
  apply (rows_carry_the_trace sample_context sample_start sample_serve checkout sample_rows).
  - split; [reflexivity|]. split; cbn; lia.
  - split.
    + intros t s Ht Hs. eexists. split; [reflexivity|]. repeat split; assumption.
    + intros n c (Hv & Ht & Hs). split; [reflexivity|]. split; [reflexivity|]. split; cbn; lia.
    + intros n. split; [reflexivity|]. split; cbn; lia.
    + intros c (Hv & Ht & Hs). split; [reflexivity|]. split; [exact Hv|]. split; cbn; lia.
  - repeat (constructor; [intros E; first [discriminate E | reflexivity]|]). constructor.
Defined.
End Tracing.
