(* ===== verification/SearchMapping.v ===== *)
(** * The mapping of the product index

    workers/stream-processor, app/indexers/es_client.py: the index is created
    with its mapping, or the fields it lacks are added to the one it has, by
    requests that may fail while the engine starts, and may have worked when
    they seem to fail.  An index is what its mapping says of each field: a type,
    or none for an object. *)

From stdpp Require Import gmap.
From S2P Require Import Prelude PyValue ReadModel.
Import ReadModel.

Module SearchMapping.

(** The properties of an index; [None] is a field with no ["type"] of its own. *)
Notation properties := (gmap string (option string)).

(** [None] is an index that does not exist. *)
Definition index := option properties.

Definition INDEX_MAPPING : list (string * string) :=
  [("product_id", "keyword"); ("seller_id", "keyword"); ("sku", "keyword"); ("category_id", "keyword");
   ("name", "text"); ("description", "text"); ("price_cents", "integer"); ("base_price_cents", "integer");
   ("quantity_available", "integer"); ("is_active", "boolean"); ("updated_at", "date");
   ("seller_may_sell", "boolean"); ("seller_rating", "float"); ("seller_review_count", "integer");
   ("seller_on_time_dispatch_rate", "float"); ("seller_cancellation_rate", "float"); ("seller_return_rate", "float");
   ("seller_confidence", "float"); ("seller_location", "geo_point"); ("seller_signals_updated_at", "date")].

(** A mapping as the engine stores it. *)
Definition stored_mapping (fields : list (string * string)) : properties := Some <$> list_to_map fields.

(** A request that changes the index: done, or an exception, after which it may
    have taken effect. *)
Inductive outcome := Done | Fails (error : string) (applied : bool).

(** What is logged on the way. *)
Record report := { unreadable : option string; conflicting : list string; added : list string; not_added : option string }.

Definition missing (m : properties) : list (string * string) := List.filter (λ f, bool_decide (m !! f.1 = None)) INDEX_MAPPING.

Definition conflicts (m : properties) : list string :=
  (List.filter (λ f, match m !! f.1 with Some t => negb (bool_decide (t = Some f.2)) | None => false end) INDEX_MAPPING).*1.

(** [put_mapping] adds the fields it is given, none of which exists. *)
Definition extend (m : properties) : properties := m ∪ stored_mapping (missing m).

(** [read] is the exception of [get_mapping], if it raises. *)
Definition _apply_new_mapping_fields (read : option string) (put : outcome) (m : properties) : properties * report :=
  match read with
  | Some e => (m, {| unreadable := Some e; conflicting := []; added := []; not_added := None |})
  | None =>
      let fields := missing m in
      if bool_decide (fields = []) then (m, {| unreadable := None; conflicting := conflicts m; added := []; not_added := None |})
      else match put with
      | Done => (extend m, {| unreadable := None; conflicting := conflicts m; added := fields.*1; not_added := None |})
      | Fails e applied => (if applied then extend m else m, {| unreadable := None; conflicting := conflicts m; added := []; not_added := Some e |})
      end
  end.

(** One round of the loop: the exception of [indices.exists], what other
    workers do before the creation, and how the other requests end. *)
Record attempt := {
  at_exists : option string; at_meanwhile : index → index; at_create : outcome; at_read : option string; at_put : outcome;
}.

Inductive usable := Created | AlreadyThere (r : report).

(** [inl] is the [RuntimeError], with the last exception; the list is as long as
    [max_attempts]. *)
Fixpoint ensure_index_exists (attempts : list attempt) (last_error : option string) (ix : index) : index * (option string + usable) :=
  match attempts with
  | [] => (ix, inl last_error)
  | a :: rest =>
      match at_exists a with
      | Some e => ensure_index_exists rest (Some e) ix
      | None =>
          match ix with
          | Some m => let '(m, r) := _apply_new_mapping_fields (at_read a) (at_put a) m in (Some m, inr (AlreadyThere r))
          | None =>
              match at_meanwhile a None with
              | Some m => ensure_index_exists rest (Some "resource_already_exists_exception") (Some m)
              | None =>
                  match at_create a with
                  | Done => (Some (stored_mapping INDEX_MAPPING), inr Created)
                  | Fails e applied => ensure_index_exists rest (Some e) (if applied then Some (stored_mapping INDEX_MAPPING) else None)
                  end
              end
          end
      end
  end.

Definition MAX_ATTEMPTS : nat := 30.

(** ** Lemmas *)

Lemma mapping_keys : NoDup INDEX_MAPPING.*1.
Proof. by_compute. Qed.

Lemma stored_lookup fields f t : NoDup fields.*1 → (f, t) ∈ fields → stored_mapping fields !! f = Some (Some t).
Proof. intros Hn Hin. unfold stored_mapping. rewrite lookup_fmap, (elem_of_list_to_map_1 fields f t) by done. done. Qed.

Lemma stored_none fields f : f ∉ fields.*1 → stored_mapping fields !! f = None.
Proof. intros Hn. unfold stored_mapping. by rewrite lookup_fmap, not_elem_of_list_to_map_1. Qed.

Lemma missing_spec m f t : (f, t) ∈ missing m ↔ (f, t) ∈ INDEX_MAPPING ∧ m !! f = None.
Proof.
  unfold missing. rewrite elem_of_filter_bool. cbn [fst]. rewrite bool_decide_eq_true. tauto.
Qed.

Lemma missing_keys m : NoDup (missing m).*1.
Proof.
  unfold missing. pose proof mapping_keys as Hn. induction INDEX_MAPPING as [|f fs IH]; [constructor|]. cbn in Hn |- *. apply NoDup_cons in Hn as [Hf Hn].
  case_bool_decide; [|by apply IH]. cbn. constructor; [|by apply IH]. intros Hin. apply Hf.
  apply list_elem_of_fmap in Hin as (g & -> & [Hg _]%elem_of_filter_bool). apply list_elem_of_fmap. by exists g.
Qed.

(** A field that exists keeps its type; one that does not gets the wanted one. *)
Lemma extend_lookup m f t : (f, t) ∈ INDEX_MAPPING → extend m !! f = match m !! f with Some u => Some u | None => Some (Some t) end.
Proof.
  intros Hin. unfold extend. destruct (m !! f) as [u|] eqn:E.
  - by apply lookup_union_Some_l.
  - rewrite lookup_union_r by done. apply stored_lookup; [apply missing_keys|]. by apply missing_spec.
Qed.

Lemma extend_grows m : m ⊆ extend m.
Proof. apply map_union_subseteq_l. Qed.

Lemma conflicts_spec m f : f ∈ conflicts m ↔ ∃ t u, (f, t) ∈ INDEX_MAPPING ∧ m !! f = Some u ∧ u ≠ Some t.
Proof.
  unfold conflicts. rewrite list_elem_of_fmap. split.
  - intros ([g t] & -> & [Hin Hc]%elem_of_filter_bool). cbn [fst snd] in *. destruct (m !! g) as [u|] eqn:E; [|done]. bool_to_prop. by exists t, u.
  - intros (t & u & Hin & E & Hne). exists (f, t). split; [done|]. apply elem_of_filter_bool. split; [done|]. cbn [fst snd]. rewrite E.
    by rewrite bool_decide_false.
Qed.

Lemma extend_complete m f t : (f, t) ∈ INDEX_MAPPING → f ∉ conflicts m → extend m !! f = Some (Some t).
Proof.
  intros Hin Hc. rewrite (extend_lookup m f t Hin). destruct (m !! f) as [u|] eqn:E; [|done]. f_equal.
  destruct (decide (u = Some t)) as [|Hne]; [done|]. destruct Hc. apply conflicts_spec. by exists t, u.
Qed.

Lemma nothing_missing m : missing m = [] → extend m = m.
Proof. intros E. unfold extend. rewrite E. unfold stored_mapping. cbn. rewrite fmap_empty. apply map_union_empty. Qed.

Lemma apply_grows read put m : m ⊆ (_apply_new_mapping_fields read put m).1.
Proof.
  unfold _apply_new_mapping_fields. destruct read; [done|]. case_bool_decide; [done|]. destruct put as [|e applied]; [apply extend_grows|].
  cbn [fst]. destruct applied; [apply extend_grows|done].
Qed.

(** When reading and extending both worked, only what is reported differs. *)
Lemma apply_complete read put m m' r : _apply_new_mapping_fields read put m = (m', r) → unreadable r = None → not_added r = None →
  m' = extend m ∧ conflicting r = conflicts m.
Proof.
  unfold _apply_new_mapping_fields. destruct read as [e|]; [by intros [= <- <-]|]. case_bool_decide as E.
  - intros [= <- <-] _ _. by rewrite nothing_missing.
  - destruct put as [|e applied]; [by intros [= <- <-]|by intros [= <- <-]].
Qed.

(** What an index holds after, of what it held before. *)
Definition grows (ix ix' : index) : Prop := ∀ m, ix = Some m → ∃ m', ix' = Some m' ∧ m ⊆ m'.

Lemma grows_refl ix : grows ix ix.
Proof. intros m ->. by exists m. Qed.

(** ** The index *)

(** A round that does not start the worker: the engine did not answer whether
    the index exists, the creation failed, or another worker created it first. *)
Definition failed_round (a : attempt) : Prop :=
  at_exists a = None → at_meanwhile a None = None → ∃ e applied, at_create a = Fails e applied.

(** Every field of the mapping has its type, or is reported and keeps another. *)
Definition typed (m : properties) (r : report) : Prop := ∀ f t, (f, t) ∈ INDEX_MAPPING →
  (f ∉ conflicting r ∧ m !! f = Some (Some t)) ∨ (f ∈ conflicting r ∧ ∃ u, m !! f = Some u ∧ u ≠ Some t).

Lemma apply_typed read put m m' r : _apply_new_mapping_fields read put m = (m', r) → unreadable r = None → not_added r = None → typed m' r.
Proof.
  intros E Hu Hn f t Hin. destruct (apply_complete _ _ _ _ _ E Hu Hn) as [-> Er]. rewrite Er.
  destruct (decide (f ∈ conflicts m)) as [Hc|Hc]; [right|left; split; [done|by apply extend_complete]]. split; [done|].
  apply conflicts_spec in Hc as (t' & u & Hin' & Eu & Hne). exists u. assert (t' = t) as ->.
  { pose proof (elem_dict_get _ _ _ mapping_keys Hin). pose proof (elem_dict_get _ _ _ mapping_keys Hin'). congruence. }
  split; [|done]. by rewrite (extend_lookup m f t Hin), Eu.
Qed.

Lemma ensure_grows attempts last_error ix : grows ix (ensure_index_exists attempts last_error ix).1.
Proof.
  revert last_error ix. induction attempts as [|a rest IH]; intros last_error ix; [apply grows_refl|]. cbn [ensure_index_exists].
  destruct (at_exists a); [apply IH|]. destruct ix as [m|]; [|by intros m].
  pose proof (apply_grows (at_read a) (at_put a) m) as Hg. destruct (_apply_new_mapping_fields _ _ m) as [m' r]. intros m0 [= <-]. by exists m'.
Qed.

(** The mapping only grows: whatever requests fail, and whether or not a
    failed one took effect, a field the index has keeps its type; when the
    worker starts, the index exists, and if its last requests were answered every
    field of the mapping has its type there, except those reported as
    conflicting, which have another; and a worker that does not start reports an
    error and has failed in every round. *)
Theorem mapping_only_grows (attempts : list attempt) (last_error : option string) (ix : index) :
  let '(ix', res) := ensure_index_exists attempts last_error ix in
  grows ix ix' ∧
  match res with
  | inr Created => ix = None ∧ ix' = Some (stored_mapping INDEX_MAPPING)
  | inr (AlreadyThere r) => ∃ m', ix' = Some m' ∧ (unreadable r = None → not_added r = None → typed m' r)
  | inl e => (attempts ≠ [] → is_Some e) ∧ ∀ a, a ∈ attempts → failed_round a
  end.
Proof.
  pose proof (ensure_grows attempts last_error ix) as Hg. destruct (ensure_index_exists attempts last_error ix) as [ix' res] eqn:E.
  split; [done|]. clear Hg. revert last_error ix E. induction attempts as [|a rest IH]; intros last_error ix; cbn [ensure_index_exists].
  { intros [= <- <-]. split; [done|]. by intros a ?%not_elem_of_nil. }
  assert (Hretry : ∀ e ix0, ensure_index_exists rest (Some e) ix0 = (ix', res) → (ix0 = None → ix = None) → (failed_round a) →
    match res with
    | inr Created => ix = None ∧ ix' = Some (stored_mapping INDEX_MAPPING)
    | inr (AlreadyThere r) => ∃ m', ix' = Some m' ∧ (unreadable r = None → not_added r = None → typed m' r)
    | inl e => (a :: rest ≠ [] → is_Some e) ∧ ∀ b, b ∈ a :: rest → failed_round b
    end).
  { intros e ix0 E Hix Ha. specialize (IH _ _ E). destruct res as [e'|[|r]]; [|by destruct IH as [H0 ->]; auto|done]. destruct IH as [He Hf]. split.
    - intros _. destruct rest as [|b rest]; [|by apply He]. cbn in E. injection E as _ <-. by eexists.
    - intros b [->|Hb]%elem_of_cons; [done|by apply Hf]. }
  destruct (at_exists a) as [e|] eqn:Ea.
  { intros E. apply (Hretry e ix E); [done|]. intros E'. congruence. }
  destruct ix as [m|].
  - destruct (_apply_new_mapping_fields (at_read a) (at_put a) m) as [m' r] eqn:E. intros [= <- <-]. exists m'. split; [done|]. by eapply apply_typed.
  - destruct (at_meanwhile a None) as [m|] eqn:Em.
    + intros E. apply (Hretry _ _ E); [done|]. intros _ E'. congruence.
    + destruct (at_create a) as [|e applied] eqn:Ec; [by intros [= <- <-]|]. intros E. apply (Hretry _ _ E); [done|]. intros _ _. by exists e, applied.
Qed.

(** ** The fields the writers own *)

(** All of them but one have a type; [catalog_updated_at] is left to the
    engine's guess. *)
Lemma owned_fields_are_mapped : ∀ f, f ∈ PRODUCT_FIELD_OWNERS.*1 → f ≠ "catalog_updated_at" → f ∈ INDEX_MAPPING.*1.
Proof. intros f Hf Hne. unfold PRODUCT_FIELD_OWNERS in Hf. cbn in Hf. elem_cases Hf; by_compute || done. Qed.

Example catalog_updated_at_is_not_mapped : is_Some (owner_of "catalog_updated_at") ∧ "catalog_updated_at" ∉ INDEX_MAPPING.*1.
Proof. split; [by eexists|by_compute]. Qed.

(** Nothing is mapped that no writer owns. *)
Lemma mapped_fields_are_owned : ∀ f, f ∈ INDEX_MAPPING.*1 → is_Some (owner_of f).
Proof. intros f Hf. unfold INDEX_MAPPING in Hf. cbn in Hf. elem_cases Hf; by eexists. Qed.

(** An index from before the location existed, whose first write made it an
    object: the other fields are added, the location is reported. *)
Definition old_index : properties := stored_mapping (List.filter (λ f, negb (f.1 =?s "seller_location")) (take 12 INDEX_MAPPING)) ∪ {[ "seller_location" := None ]}.

Definition upgraded : properties * report := _apply_new_mapping_fields None Done old_index.

Example an_object_stays_an_object :
  conflicting upgraded.2 = ["seller_location"] ∧ upgraded.1 !! "seller_location" = Some None ∧ upgraded.1 !! "seller_rating" = Some (Some "float").
Proof. split_and!; vm_compute; reflexivity. Qed.
End SearchMapping.
