(* ===== verification/K8sGenerate.v ===== *)
(** * Kubernetes manifests from the compose topology

    scripts/generate_k8s.py: the documents it writes.  Documents are JSON values;
    YAML, the file system and docker are outside: what [docker compose config]
    prints and which services have an ORM are arguments. *)

From Stdlib Require Import Ascii.
From S2P Require Import Prelude PyValue PyJson PyText.
Import PyJson PyText.

Module Generate.

Definition NAMESPACE := "ecommerce".
Definition REGISTRY := "ecommerce-platform".
Definition IMAGE_TAG := "latest".

(** A set in the source: a name that contained both would be given whichever
    comes first. *)
Definition SECRET_KEYS : list string := ["JWT_SECRET"; "POSTGRES_PASSWORD"].
Definition SECRET_SUFFIXES : list string := ["_SECRET"; "_PASSWORD"; "_TOKEN"; "_API_KEY"; "_PRIVATE_KEY"].
Definition SECRET_NAME := "ecommerce-secrets".

Definition secret_key_for (name : string) : option string :=
  match List.find (λ known, contains known name) SECRET_KEYS with
  | Some known => Some known
  | None => if existsb (λ suffix, ends_with suffix name) SECRET_SUFFIXES then Some name else None
  end.

Definition INFRA : list string := ["postgres"; "redis"; "kafka"; "zookeeper"; "elasticsearch"; "schema-registry"; "jaeger"; "debezium"].
Definition WORKERS : list string :=
  ["saga-dispatcher"; "stream-processor"; "webhook-handler"; "notification-worker"; "dlq-reprocessor"; "reindex-worker"].
Definition EDGE : list string := ["api-gateway"; "bff-shop"; "bff-checkout"; "websocket-gateway"].

Definition obj (kvs : list (string * json)) : json := JObj kvs.

Definition quantities (cpu memory : string) : json := obj [("cpu", JStr cpu); ("memory", JStr memory)].

Definition RESOURCES (size : string) : json :=
  if size =?s "edge" then obj [("requests", quantities "100m" "192Mi"); ("limits", quantities "1000m" "768Mi")]
  else obj [("requests", quantities "50m" "128Mi"); ("limits", quantities "500m" "512Mi")].

(** What the generator reads of a service of the compose configuration: the
    [target]s of its ports, and whether it has a [build]. *)
Record compose_service := { environment : list (string * json); ports : list Z; build : bool; command : json }.

Definition rewrite_host (value : string) : string := replace "//localhost:" "//127.0.0.1:" value.

(** *** [DSN_CREDENTIALS]

    Each run of the pattern ends at a character it excludes, so a match at a
    position is the longest runs, or none. *)

Fixpoint span (p : ascii → bool) (s : string) : string * string :=
  match s with
  | EmptyString => ("", "")
  | String c s' => if p c then let (a, b) := span p s' in (String c a, b) else ("", s)
  end.

Definition scheme_char (c : ascii) : bool := ((97 <=? code c) && (code c <=? 122)) || bool_decide (c = "+"%char).
Definition user_char (c : ascii) : bool := negb (bool_decide (c = ":"%char) || bool_decide (c = "/"%char) || bool_decide (c = "@"%char)).
Definition pw_char (c : ascii) : bool := negb (bool_decide (c = "@"%char)).

(** [[a-z+]+://] *)
Definition match_scheme (s : string) : option (string * string) :=
  match span scheme_char s with
  | (EmptyString, _) => None
  | (scheme, String c1 (String c2 (String c3 rest))) =>
      if bool_decide (c1 = ":"%char) && bool_decide (c2 = "/"%char) && bool_decide (c3 = "/"%char) then Some (scheme, rest) else None
  | _ => None
  end.

(** One or more of [p], and then [stop]. *)
Definition match_until (p : ascii → bool) (stop : ascii) (s : string) : option (string * string) :=
  match span p s with
  | (EmptyString, _) | (_, EmptyString) => None
  | (word, String c rest) => if bool_decide (c = stop) then Some (word, rest) else None
  end.

(** A match at the start of the text: scheme, user, and what follows the ["@"]. *)
Definition match_dsn (s : string) : option (string * string * string) :=
  '(scheme, r) ← match_scheme s;
  '(user, r) ← match_until user_char ":"%char r;
  '(_, r) ← match_until pw_char "@"%char r;
  Some (scheme, user, r).

(** [DSN_CREDENTIALS.search(v)] *)
Fixpoint has_dsn (s : string) : bool :=
  match match_dsn s with Some _ => true | None => match s with EmptyString => false | String _ s' => has_dsn s' end end.

(** What a match is replaced with. *)
Definition interpolated (scheme user : string) : string := scheme +:+ "://" +:+ user +:+ ":$(POSTGRES_PASSWORD)@".

(** [DSN_CREDENTIALS.sub]; [skip] counts the characters of the match that are
    still to be passed over. *)
Fixpoint sub_dsn_from (skip : nat) (s : string) : string :=
  match s with
  | EmptyString => EmptyString
  | String c s' =>
      match skip with
      | S k => sub_dsn_from k s'
      | O =>
          match match_dsn s with
          | Some (scheme, user, rest) => interpolated scheme user +:+ sub_dsn_from (String.length s' - String.length rest) s'
          | None => String c (sub_dsn_from 0 s')
          end
      end
  end.

Definition sub_dsn (s : string) : string := sub_dsn_from 0 s.

Section generator.
Context (repr : json → string) (has_orm : string → bool).

(** [v = "" if v is None else str(v)] *)
Definition env_text (v : json) : string := match v with JNull => "" | _ => py_str repr v end.

(** [cfg], [secrets] and [needs_pg]; the variables of a service have distinct names. *)
Definition split : Type := list (string * string) * list (string * string) * bool.

Definition split_variable (acc : split) (kv : string * json) : split :=
  let '(cfg, secrets, needs_pg) := acc in
  let v := env_text kv.2 in
  match secret_key_for kv.1 with
  | Some hit => (cfg, secrets ++ [(kv.1, hit)], needs_pg)
  | None => (cfg ++ [(kv.1, rewrite_host (if has_dsn v then sub_dsn v else v))], secrets, needs_pg || has_dsn v)
  end.

Definition split_env (env : list (string * json)) : split := foldl split_variable ([], [], false) env.

Definition secret_ref (name key : string) : json :=
  obj [("name", JStr name); ("valueFrom", obj [("secretKeyRef", obj [("name", JStr SECRET_NAME); ("key", JStr key)])])].

Definition plain (kv : string * string) : json := obj [("name", JStr kv.1); ("value", JStr kv.2)].

Definition container_env (s : split) : list json :=
  let '(cfg, secrets, needs_pg) := s in
  (if needs_pg && negb (existsb (λ x, x.1 =?s "POSTGRES_PASSWORD") secrets) then [secret_ref "POSTGRES_PASSWORD" "POSTGRES_PASSWORD"] else []) ++
  map (λ x, secret_ref x.1 x.2) secrets ++
  map plain (sort_by (λ x, x.1) cfg).

Definition probe (port initial period timeout failures : Z) : json :=
  obj [("httpGet", obj [("path", JStr "/health"); ("port", JInt port)]); ("initialDelaySeconds", JInt initial); ("periodSeconds", JInt period);
       ("timeoutSeconds", JInt timeout); ("failureThreshold", JInt failures)].

(** [readiness, liveness] *)
Definition probes (port : option Z) : json * json :=
  match port with
  | None => (obj [], obj [])
  | Some p => (probe p 5 5 3 3, probe p 30 20 5 5)
  end.

Definition security_context : json :=
  obj [("allowPrivilegeEscalation", JBool false); ("runAsNonRoot", JBool true); ("runAsUser", JInt 1000);
       ("capabilities", obj [("drop", JList [JStr "ALL"])])].

Definition image_of (name : string) : string := REGISTRY +:+ "-" +:+ name +:+ ":" +:+ IMAGE_TAG.

Definition container (name : string) (svc : compose_service) (port : option Z) : list (string * json) :=
  let (readiness, liveness) := probes port in
  [("name", JStr name); ("image", JStr (image_of name)); ("imagePullPolicy", JStr "IfNotPresent");
   ("env", JList (container_env (split_env (environment svc))));
   ("resources", RESOURCES (if name in_ EDGE then "edge" else "default")); ("securityContext", security_context)] ++
  (if truthy (command svc) then [("command", command svc)] else []) ++
  match port with
  | Some p => [("ports", JList [obj [("containerPort", JInt p); ("name", JStr "http")]]); ("readinessProbe", readiness); ("livenessProbe", liveness)]
  | None => []
  end.

Definition newline : string := String (Ascii.ascii_of_N 10) "".

Definition schema_init_code : string :=
  join newline ["import asyncio"; "from app.database import engine, Base"; "import app.models"; "async def m():";
    "    async with engine.begin() as c:"; "        await c.run_sync(Base.metadata.create_all)"; "asyncio.run(m())"; "print('schema ready')"; ""].

Definition init_containers (name : string) (env : list json) : list json :=
  if has_orm name && existsb (λ e, match e with JObj d => match obj_get d "name" with JStr n => n =?s "DATABASE_URL" | _ => false end | _ => false end) env
  then [obj [("name", JStr "schema-init"); ("image", JStr (image_of name)); ("imagePullPolicy", JStr "IfNotPresent");
             ("command", JList [JStr "python"; JStr "-c"; JStr schema_init_code]); ("env", JList env);
             ("resources", obj [("requests", quantities "50m" "128Mi"); ("limits", quantities "500m" "256Mi")]);
             ("securityContext", security_context)]]
  else [].

Definition pod_labels (name : string) : json :=
  obj [("app", JStr name); ("tier", JStr (if name in_ WORKERS then "worker" else "service"))].

Definition pod_spec (name : string) (svc : compose_service) (port : option Z) : json :=
  let init := init_containers name (container_env (split_env (environment svc))) in
  obj ((if bool_decide (length init = 0%nat) then [] else [("initContainers", JList init)]) ++
       [("containers", JList [obj (container name svc port)]); ("securityContext", obj [("fsGroup", JInt 1000)]);
        ("terminationGracePeriodSeconds", JInt 30)]).

Definition deployment (name : string) (svc : compose_service) (port : option Z) : json :=
  obj [("apiVersion", JStr "apps/v1"); ("kind", JStr "Deployment");
       ("metadata", obj [("name", JStr name); ("namespace", JStr NAMESPACE); ("labels", pod_labels name)]);
       ("spec", obj [("replicas", JInt 1); ("selector", obj [("matchLabels", obj [("app", JStr name)])]);
         ("strategy", obj [("type", JStr "RollingUpdate"); ("rollingUpdate", obj [("maxUnavailable", JInt 0); ("maxSurge", JInt 1)])]);
         ("template", obj [("metadata", obj [("labels", pod_labels name)]); ("spec", pod_spec name svc port)])])].

Definition service (name : string) (port : Z) : json :=
  obj [("apiVersion", JStr "v1"); ("kind", JStr "Service");
       ("metadata", obj [("name", JStr name); ("namespace", JStr NAMESPACE); ("labels", obj [("app", JStr name)])]);
       ("spec", obj [("type", JStr "ClusterIP"); ("selector", obj [("app", JStr name)]);
         ("ports", JList [obj [("name", JStr "http"); ("port", JInt port); ("targetPort", JInt port); ("protocol", JStr "TCP")]])])].

Definition MIGRATION_TARGETS : list (string * list string) :=
  [("001_add_idempotency_result_id.sql", ["order_db"; "inventory_db"; "payment_ledger_db"; "fraud_db"; "cart_db"]);
   ("002_cart_db_create_cart_state.sql", ["cart_db"]); ("003_promo_db_create_tables.sql", ["promo_db"]);
   ("004_outbox_for_audit_and_media.sql", ["audit_db"; "media_meta_db"]); ("005_dispatcher_processed_state.sql", ["order_db"]);
   ("006_dispatcher_claim_lease.sql", ["order_db"])].

Definition dollar_quoted (s : string) : string := String quote2 "" +:+ "$" +:+ s +:+ String quote2 "".

Definition migration_step (fn db : string) : string :=
  "echo " +:+ String quote2 "" +:+ "--> " +:+ fn +:+ " -> " +:+ db +:+ String quote2 "" +:+ newline +:+
  "psql -v ON_ERROR_STOP=1 -h " +:+ dollar_quoted "PGHOST" +:+ " -U " +:+ dollar_quoted "PGUSER" +:+ " -d " +:+ db +:+ " -f /migrations/" +:+ fn.

Definition migration_script : string :=
  "set -euo pipefail" +:+ newline +:+ "echo " +:+ String quote2 "" +:+ "waiting for postgres..." +:+ String quote2 "" +:+ newline +:+
  "until pg_isready -h " +:+ dollar_quoted "PGHOST" +:+ " -U " +:+ dollar_quoted "PGUSER" +:+ " >/dev/null 2>&1; do sleep 2; done" +:+ newline +:+
  "echo " +:+ String quote2 "" +:+ "postgres ready" +:+ String quote2 "" +:+ newline +:+
  join newline (concat (map (λ t, map (migration_step t.1) t.2) MIGRATION_TARGETS)) +:+ newline +:+
  "echo " +:+ String quote2 "" +:+ "ALL MIGRATIONS APPLIED" +:+ String quote2 "" +:+ newline.

(** [files] are the names and texts of migrations/*.sql, sorted by name. *)
Definition migration_job (files : list (string * string)) : list json :=
  [obj [("apiVersion", JStr "v1"); ("kind", JStr "ConfigMap"); ("metadata", obj [("name", JStr "db-migrations"); ("namespace", JStr NAMESPACE)]);
        ("data", obj (map (λ f, (f.1, JStr f.2)) files))];
   obj [("apiVersion", JStr "batch/v1"); ("kind", JStr "Job"); ("metadata", obj [("name", JStr "db-migrate"); ("namespace", JStr NAMESPACE)]);
        ("spec", obj [("backoffLimit", JInt 3); ("ttlSecondsAfterFinished", JInt 3600);
          ("template", obj [("metadata", obj [("labels", obj [("app", JStr "db-migrate"); ("tier", JStr "job")])]);
            ("spec", obj [("restartPolicy", JStr "Never");
              ("containers", JList [obj [("name", JStr "psql"); ("image", JStr "postgres:15-alpine");
                ("command", JList [JStr "sh"; JStr "-c"; JStr migration_script]);
                ("env", JList [plain ("PGHOST", "postgres"); plain ("PGUSER", "admin"); secret_ref "PGPASSWORD" "POSTGRES_PASSWORD"]);
                ("volumeMounts", JList [obj [("name", JStr "migrations"); ("mountPath", JStr "/migrations")]]);
                ("resources", obj [("requests", quantities "50m" "64Mi"); ("limits", quantities "500m" "256Mi")])]]);
              ("volumes", JList [obj [("name", JStr "migrations"); ("configMap", obj [("name", JStr "db-migrations")])]])])])])]].

Definition port_of (svc : compose_service) : option Z := match ports svc with [] => None | p :: _ => Some p end.

Definition generated (name : string) (svc : compose_service) : bool := negb (name in_ INFRA) && build svc.

(** A file under infrastructure/k8s, and the documents in it. *)
Definition file : Type := string * list json.

Definition service_file (name : string) (svc : compose_service) : file :=
  ((if name in_ WORKERS then "workers" else "services") +:+ "/" +:+ name +:+ ".yaml",
   deployment name svc (port_of svc) :: match port_of svc with Some p => [service name p] | None => [] end).

(** The files [main] writes. *)
Definition main (services : list (string * compose_service)) (migrations : list (string * string)) : list file :=
  map (λ s, service_file s.1 s.2) (List.filter (λ s, generated s.1 s.2) (sort_by (λ s, s.1) services)) ++
  [("jobs/db-migrate.yaml", migration_job migrations)].
End generator.
End Generate.
