(* ===== verification/BootstrapSchema.v ===== *)
(** * Bringing every database to the current schema

    scripts/bootstrap_schema.py: the four phases, over whatever docker and psql
    answer.  [exec] gives the answer to a command and what it left behind; the
    texts of migrations/ and which services have a models.py are arguments.
    What is printed, and the standard error it quotes, is left out. *)

From S2P Require Import Prelude PyValue PyText TextLines K8sGenerate.
Import PyText TextLines.

Definition SERVICES : list (string * string) :=
  [("catalog-service", "catalog_db"); ("user-service", "user_db"); ("pricing-service", "pricing_db");
   ("promotion-service", "promo_db"); ("tax-service", "tax_db"); ("cart-service", "cart_db");
   ("inventory-service", "inventory_db"); ("fraud-service", "fraud_db"); ("payment-service", "payment_ledger_db");
   ("order-saga", "order_db"); ("reviews-service", "review_db"); ("personalisation-service", "behaviour_db");
   ("delivery-quote-service", "delivery_quote_db"); ("fulfillment-service", "fulfillment_db");
   ("notification-service", "notification_db"); ("media-service", "media_meta_db");
   ("seller-service", "seller_db"); ("audit-service", "audit_db")].

Definition MIGRATIONS : list (string * list string) :=
  [("001_add_idempotency_result_id.sql", ["order_db"; "inventory_db"; "payment_ledger_db"; "fraud_db"; "cart_db"]);
   ("002_cart_db_create_cart_state.sql", ["cart_db"]); ("003_promo_db_create_tables.sql", ["promo_db"]);
   ("004_outbox_for_audit_and_media.sql", ["audit_db"; "media_meta_db"]);
   ("005_dispatcher_processed_state.sql", ["order_db"]); ("006_dispatcher_claim_lease.sql", ["order_db"]);
   ("007_payment_db_processed_webhooks.sql", ["payment_ledger_db"]);
   ("008_notification_db_delivery_state.sql", ["notification_db"]);
   ("009_catalog_db_sku_and_is_active.sql", ["catalog_db"]); ("010_cart_db_cart_state_updated_at.sql", ["cart_db"]);
   ("011_inventory_db_reservations.sql", ["inventory_db"]); ("012_catalog_db_seller_id.sql", ["catalog_db"]);
   ("013_media_db_asset_purpose.sql", ["media_meta_db"]); ("014_seller_db_onboarding.sql", ["seller_db"]);
   ("015_seller_db_platform_seller.sql", ["seller_db"]); ("016_order_db_seller_orders.sql", ["order_db"]);
   ("017_order_db_cod_lifecycle.sql", ["order_db"]); ("018_fulfillment_db_shipments.sql", ["fulfillment_db"]);
   ("019_payment_db_escrow_ledger.sql", ["payment_ledger_db"]); ("020_order_db_outbox_retry_state.sql", ["order_db"]);
   ("021_review_db_reviews.sql", ["review_db"]); ("022_behaviour_db_events.sql", ["behaviour_db"]);
   ("023_review_db_moderation.sql", ["review_db"])].

Definition newline : string := Generate.newline.

Definition LEDGER_DDL : string :=
  join newline ["";
    "CREATE TABLE IF NOT EXISTS public.schema_migrations (";
    "    filename    text                     NOT NULL PRIMARY KEY,";
    "    applied_at  timestamp with time zone NOT NULL DEFAULT NOW()";
    ");"; ""].

(** ** Commands *)

(** The command lines the script runs, with the database, container or text
    each carries. *)
Inductive command :=
| PgIsReady
| ListDatabases
| CreateDatabase (db : string)
| Inspect (container : string)
| CreateAll (container : string)
| Psql (db sql : string)
| PsqlInput (db text : string)
| Query (db sql : string).

(** [failures]: one constructor per message. *)
Inductive failure :=
| CannotCreate (db : string)
| ModelDdl (service : string)
| Ledger (db : string)
| MissingFile (filename : string)
| Migration (filename db : string)
| Verify (db label : string).

Definition container_of (service : string) : string := "ecommerce-platform-" +:+ service +:+ "-1".

Definition insert_row (filename : string) : string :=
  "INSERT INTO schema_migrations (filename) VALUES ('" +:+ filename +:+ "') ON CONFLICT (filename) DO NOTHING;".

Definition has_column (table column : string) : string :=
  "SELECT 1 FROM information_schema.columns WHERE table_name='" +:+ table +:+ "' AND column_name='" +:+ column +:+ "'".

Definition has_table (table : string) : string :=
  "SELECT 1 FROM information_schema.tables WHERE table_name='" +:+ table +:+ "'".

Definition checks : list (string * string * string) :=
  [("order_db", has_column "outbox_messages" "processed_at", "outbox_messages.processed_at");
   ("order_db", has_column "outbox_messages" "claimed_at", "outbox_messages.claimed_at");
   ("order_db", has_table "processed_events", "processed_events");
   ("order_db", has_table "order_saga_states", "order_saga_states");
   ("cart_db", has_table "cart_state", "cart_state");
   ("promo_db", has_table "promotions", "promotions");
   ("payment_ledger_db", has_column "idempotency_keys" "result_id", "idempotency_keys.result_id");
   ("inventory_db", has_table "inventory_items", "inventory_items")].

Section bootstrap.
Context {W : Type} (exec : W → command → completed * W).
Context (has_models : string → bool) (migration_text : string → option string).

(** The world outside, the commands run so far with their answers, and
    [failures]. *)
Record state := { world : W; log : list (command * completed); failures : list failure }.

Definition run (c : command) (s : state) : completed * state :=
  let (r, w) := exec (world s) c in (r, {| world := w; log := log s ++ [(c, r)]; failures := failures s |}).

Definition fail (f : failure) (s : state) : state := {| world := world s; log := log s; failures := failures s ++ [f] |}.

(** [None] is the [sys.exit]. *)
Fixpoint wait_for_postgres (timeout : nat) (s : state) : option state :=
  match timeout with
  | O => None
  | S timeout => let (r, s) := run PgIsReady s in if succeeded r then Some s else wait_for_postgres timeout s
  end.

(** [present] *)
Definition names_of (text : string) : list string := List.filter (λ l, negb (is_empty l)) (map strip (splitlines text)).

Definition create_missing (present : list string) (s : state) (service : string * string) : state :=
  if service.2 in_ present then s
  else let (r, s) := run (CreateDatabase service.2) s in if succeeded r then s else fail (CannotCreate service.2) s.

Definition phase_databases (s : state) : state :=
  let (existing, s) := run ListDatabases s in
  foldl (create_missing (names_of (stdout existing))) s (sort_by snd SERVICES).

(** [live_dbs] is a set; the services have distinct databases. *)
Definition model_ddl (acc : list string * state) (service : string * string) : list string * state :=
  let (live_dbs, s) := acc in
  let (r, s) := run (Inspect (container_of service.1)) s in
  if negb (succeeded r) then (live_dbs, s)
  else if negb (has_models service.1) then (live_dbs, s)
  else let (r, s) := run (CreateAll (container_of service.1)) s in
       if succeeded r then (live_dbs ++ [service.2], s) else (live_dbs, fail (ModelDdl service.1) s).

Definition phase_models (s : state) : list string * state := foldl model_ddl ([], s) SERVICES.

Definition make_ledger (s : state) (db : string) : state :=
  let (r, s) := run (Psql db LEDGER_DDL) s in if succeeded r then s else fail (Ledger db) s.

Definition apply_to (live_dbs : list string) (filename text : string) (s : state) (db : string) : state :=
  if negb (db in_ live_dbs) then s
  else let (r, s) := run (PsqlInput db text) s in
       if succeeded r then (run (Psql db (insert_row filename)) s).2 else fail (Migration filename db) s.

Definition apply_migration (live_dbs : list string) (s : state) (m : string * list string) : state :=
  match migration_text m.1 with
  | None => fail (MissingFile m.1) s
  | Some text => foldl (apply_to live_dbs m.1 text) s m.2
  end.

(** [sorted({...})]: each database once. *)
Definition targets (live_dbs : list string) : list string :=
  sort_by id (remove_dups (List.filter (λ db, db in_ live_dbs) (concat (map snd MIGRATIONS)))).

Definition phase_migrations (live_dbs : list string) (s : state) : state :=
  foldl (apply_migration live_dbs) (foldl make_ledger s (targets live_dbs)) MIGRATIONS.

Definition check_one (live_dbs : list string) (s : state) (check : string * string * string) : state :=
  let '(db, sql, label) := check in
  if negb (db in_ live_dbs) then s
  else let (r, s) := run (Query db sql) s in if strip (stdout r) =?s "1" then s else fail (Verify db label) s.

Definition verify (live_dbs : list string) (s : state) : state := foldl (check_one live_dbs) s checks.

(** The databases whose service ran, and the last state; the script exits 0
    exactly when it has no failures. *)
Definition main (w : W) : option (list string * state) :=
  s ← wait_for_postgres 90 {| world := w; log := []; failures := [] |};
  let (live_dbs, s) := phase_models (phase_databases s) in
  Some (live_dbs, verify live_dbs (phase_migrations live_dbs s)).
End bootstrap.

(** ** What a complete bootstrap has done *)

(** What a command that succeeded has made of a database. *)
Inductive step := Created | Modelled | Ledgered | Applied (text : string).

Definition effect (db : string) (entry : command * completed) : list step :=
  if negb (succeeded entry.2) then []
  else match entry.1 with
       | CreateDatabase d => if d =?s db then [Created] else []
       | CreateAll c => if existsb (λ s, (container_of s.1 =?s c) && (s.2 =?s db)) SERVICES then [Modelled] else []
       | Psql d sql => if (d =?s db) && (sql =?s LEDGER_DDL) then [Ledgered] else []
       | PsqlInput d text => if d =?s db then [Applied text] else []
       | _ => []
       end.

Definition history (db : string) (log : list (command * completed)) : list step := concat (map (effect db) log).

Section complete.
Context {W : Type} (exec : W → command → completed * W).
Context (has_models : string → bool) (migration_text : string → option string).
Implicit Types s t : state (W := W).

(** The state after some commands, when none of the phase failed. *)
Definition extends s t (P : list (command * completed) → Prop) : Prop :=
  failures t = [] → failures s = [] ∧ ∃ new, log t = log s ++ new ∧ P new.

Lemma extends_none s (P : list (command * completed) → Prop) : P [] → extends s s P.
Proof. intros HP Hf. split; [done|]. exists []. by rewrite app_nil_r. Qed.

Lemma extends_trans s t u (P Q R : list (command * completed) → Prop) :
  extends s t P → extends t u Q → (∀ a b, P a → Q b → R (a ++ b)) → extends s u R.
Proof.
  intros H1 H2 HR Hf. destruct (H2 Hf) as (Ht & b & Eb & HQ). destruct (H1 Ht) as (Hs & a & Ea & HP). split; [done|].
  exists (a ++ b). split; [by rewrite Eb, Ea, app_assoc|by apply HR].
Qed.

Lemma extends_weaken s t (P Q : list (command * completed) → Prop) : extends s t P → (∀ l, P l → Q l) → extends s t Q.
Proof. intros H HQ Hf. destruct (H Hf) as (Hs & new & E & HP). split; [done|]. exists new. split; [done|by apply HQ]. Qed.

Lemma extends_run c s (P : list (command * completed) → Prop) :
  P [(c, (run exec c s).1)] → extends s (run exec c s).2 P.
Proof. unfold run. destruct (exec (world s) c) as [r w]. cbn. intros HP Hf. split; [done|]. by exists [(c, r)]. Qed.

Lemma extends_fail s t f P : extends s (fail f t) P.
Proof. intros Hf. by apply app_nil in Hf as [_ ?]. Qed.

(** A loop, each round of which contributes to the history of one database. *)
Lemma extends_foldl {A} (body : state → A → state) (db : string) (adds : A → list step) xs s :
  (∀ s x, extends s (body s x) (λ l, history db l = adds x)) →
  extends s (foldl body s xs) (λ l, history db l = concat (map adds xs)).
Proof.
  intros Hb. revert s. induction xs as [|x xs IH]; intros s; [by apply extends_none|]. cbn [foldl map concat].
  apply (extends_trans _ _ _ _ _ _ (Hb s x) (IH _)). intros a b Ha Hbb. unfold history in *. by rewrite map_app, concat_app, Ha, Hbb.
Qed.

Lemma run_cases c s (k : completed → state → state) P :
  (∀ r t, extends s t (λ l, l = [(c, r)]) → extends s (k r t) P) → extends s (let (r, t) := run exec c s in k r t) P.
Proof.
  intros H. pose proof (extends_run c s (λ l, l = [(c, (run exec c s).1)]) eq_refl) as E.
  destruct (run exec c s) as [r t]. by apply H.
Qed.

(** *** The phases *)

Lemma history_app db l l' : history db (l ++ l') = history db l ++ history db l'.
Proof. unfold history. by rewrite map_app, concat_app. Qed.

Lemma concat_single {A B} (f : A → string) key (x : list B) l :
  NoDup (map f l) → concat (map (λ a, if f a =?s key then x else []) l) = if key in_ map f l then x else [].
Proof.
  induction l as [|a l IH]; intros H; [done|]. cbn [map] in *. apply NoDup_cons in H as [Ha H]. cbn [concat]. rewrite IH by done.
  unfold in_listb. destruct (decide (f a = key)) as [<-|Hne].
  - rewrite bool_decide_true by done. rewrite bool_decide_false by done. rewrite bool_decide_true by left. apply app_nil_r.
  - rewrite bool_decide_false by done. cbn [app]. erewrite bool_decide_ext; [done|]. rewrite elem_of_cons. naive_solver.
Qed.

Lemma databases_phase db s :
  db ∈ SERVICES.*2 →
  let existing := (run exec ListDatabases s).1 in
  extends s (phase_databases exec s) (λ l, (ListDatabases, existing) ∈ l ∧
    history db l = if db in_ names_of (stdout existing) then [] else [Created]).
Proof.
  intros Hdb existing. unfold phase_databases. subst existing.
  pose proof (extends_run ListDatabases s (λ l, l = [(ListDatabases, (run exec ListDatabases s).1)]) eq_refl) as Ht.
  destruct (run exec ListDatabases s) as [existing t]. cbn [fst snd] in *. set (present := names_of (stdout existing)).
  assert (Hb : ∀ s x, extends s (create_missing exec present s x)
    (λ l, history db l = if x.2 =?s db then (if db in_ present then [] else [Created]) else [])).
  { intros u x. unfold create_missing. destruct (x.2 in_ present) eqn:Ex.
    - apply extends_none. case_bool_decide; [subst|done]. by rewrite Ex.
    - apply run_cases. intros r v Hv. destruct (succeeded r) eqn:Er; [|apply extends_fail]. apply (extends_weaken _ _ _ _ Hv).
      intros l ->. unfold history, effect. cbn [map fst snd concat]. rewrite Er. cbn [negb]. case_bool_decide; [subst; by rewrite Ex|done]. }
  apply (extends_trans _ _ _ _ _ _ Ht (extends_foldl _ db _ _ _ Hb)). intros a b -> E. split; [left|].
  cbn [app]. change (history db (?e :: b)) with (effect db e ++ history db b). rewrite E, concat_single by by_compute.
  replace (effect db _) with (@nil step) by (unfold effect; by destruct (succeeded _)). cbn [app].
  assert ((db in_ map snd (sort_by snd SERVICES)) = true) as ->; [|done]. apply bool_decide_eq_true.
  change (db ∈ (sort_by snd SERVICES).*2). by rewrite sort_by_perm.
Qed.

Lemma container_of_inj a b : container_of a = container_of b → a = b.
Proof.
  unfold container_of. intros H%(inj (String.append "ecommerce-platform-")). revert b H.
  induction a as [|c a IH]; intros b H; destruct b as [|d b]; cbn in H; [done| | |].
  - destruct b as [|? [|]]; discriminate H.
  - destruct a as [|? [|]]; discriminate H.
  - injection H as -> H. f_equal. by apply IH.
Qed.

Lemma create_all_effect service d db r :
  (service, d) ∈ SERVICES → succeeded r = true →
  effect db (CreateAll (container_of service), r) = if d =?s db then [Modelled] else [].
Proof.
  intros Hs Hr. unfold effect. cbn [fst snd]. rewrite Hr. cbn [negb].
  assert (existsb (λ x, (container_of x.1 =?s container_of service) && (x.2 =?s db)) SERVICES = (d =?s db)) as ->; [|done].
  apply eq_true_iff_eq. rewrite existsb_exists. split.
  - intros ([n d'] & Hin%list_elem_of_In & [E1%bool_decide_eq_true%container_of_inj E2%bool_decide_eq_true]%andb_true_iff). cbn in *. subst.
    apply bool_decide_eq_true. apply (elem_dict_get SERVICES) in Hs, Hin; [congruence|by_compute..].
  - intros ->%bool_decide_eq_true. exists (service, db). split; [by apply list_elem_of_In|]. cbn. by rewrite !bool_decide_true.
Qed.

(** A service whose models did not run was not there to run them. *)
Definition skipped (l : list (command * completed)) (service : string) : Prop :=
  has_models service = false ∨ ∃ r, (Inspect (container_of service), r) ∈ l ∧ succeeded r = false.

Lemma skipped_app l l' service : skipped l service ∨ skipped l' service → skipped (l ++ l') service.
Proof. intros [[H|(r & H & E)]|[H|(r & H & E)]]; [by left|right|by left|right]; exists r; split; [apply elem_of_app; auto|done|apply elem_of_app; auto|done]. Qed.

Lemma model_step db service d live s :
  (service, d) ∈ SERVICES →
  ∃ new t, model_ddl exec has_models (live, s) (service, d) = (live ++ new, t) ∧ (new = [] ∨ new = [d]) ∧
    extends s t (λ l, (history db l = if db in_ new then [Modelled] else []) ∧ (new = [] → skipped l service)).
Proof.
  intros Hs. unfold model_ddl. cbn [fst snd]. set (c := Inspect (container_of service)).
  pose proof (extends_run c s (λ l, l = [(c, (run exec c s).1)]) eq_refl) as E1. destruct (run exec c s) as [r t]. cbn [fst snd] in E1.
  assert (H1 : history db [(c, r)] = []) by (unfold history, effect; cbn; by destruct (negb (succeeded r))).
  destruct (succeeded r) eqn:Er; cbn [negb].
  2: { exists [], t. rewrite app_nil_r. split_and!; [done|by left|]. apply (extends_weaken _ _ _ _ E1). intros l ->.
       split; [done|]. intros _. right. exists r. split; [left|done]. }
  destruct (has_models service) eqn:Em; cbn [negb].
  2: { exists [], t. rewrite app_nil_r. split_and!; [done|by left|]. apply (extends_weaken _ _ _ _ E1). intros l ->. split; [done|by left]. }
  set (c2 := CreateAll (container_of service)).
  pose proof (extends_run c2 t (λ l, l = [(c2, (run exec c2 t).1)]) eq_refl) as E2.
  destruct (run exec c2 t) as [r2 u]. cbn [fst snd] in E2. destruct (succeeded r2) eqn:Er2.
  - exists [d], u. split_and!; [done|by right|]. apply (extends_trans _ _ _ _ _ _ E1 E2). intros a b -> ->. split; [|done].
    rewrite history_app, H1. unfold history. cbn [map concat app]. unfold c2. rewrite (create_all_effect _ d) by done. rewrite app_nil_r.
    unfold in_listb. erewrite bool_decide_ext; [done|]. rewrite list_elem_of_singleton. naive_solver.
  - exists [], (fail (ModelDdl service) u). rewrite app_nil_r. split_and!; [done|by left|apply extends_fail].
Qed.

Lemma models_loop db xs live s :
  (∀ x, x ∈ xs → x ∈ SERVICES) → NoDup xs.*2 →
  ∃ new t, foldl (model_ddl exec has_models) (live, s) xs = (live ++ new, t) ∧ (∀ d, d ∈ new → d ∈ xs.*2) ∧
    extends s t (λ l, (history db l = if db in_ new then [Modelled] else []) ∧
      (∀ service d, (service, d) ∈ xs → d ∉ new → skipped l service)).
Proof.
  revert live s. induction xs as [|[service d] xs IH]; intros live s Hxs Hn.
  - exists [], s. rewrite app_nil_r. split_and!; [done|done|]. apply extends_none. split; [done|]. by intros ? ? ?%not_elem_of_nil.
  - csimpl in Hn. apply NoDup_cons in Hn as [Hd Hn]. cbn [foldl].
    destruct (model_step db service d live s) as (n1 & t1 & -> & Hn1 & E1); [apply Hxs; left|].
    destruct (IH (live ++ n1) t1 (λ x Hx, Hxs x (list_elem_of_further _ _ _ Hx)) Hn) as (n2 & t2 & -> & Hn2 & E2).
    exists (n1 ++ n2), t2. rewrite app_assoc. split_and!; [done| |].
    + intros e [He|He]%elem_of_app; csimpl; [|right; by apply Hn2]. destruct Hn1 as [-> | ->]; [by apply not_elem_of_nil in He|].
      apply list_elem_of_singleton in He as ->. left.
    + apply (extends_trans _ _ _ _ _ _ E1 E2). intros a b [Ha Ha'] [Hb Hb']. split.
      * rewrite history_app, Ha, Hb. unfold in_listb. destruct (decide (db ∈ n1)) as [H1|H1].
        -- rewrite !(bool_decide_true (db ∈ n1)), (bool_decide_true (db ∈ n1 ++ n2)) by (done || by apply elem_of_app; left).
           rewrite bool_decide_false; [by rewrite app_nil_r|]. intros H2%Hn2. destruct Hn1 as [-> | ->]; [by apply not_elem_of_nil in H1|].
           apply list_elem_of_singleton in H1 as ->. done.
        -- rewrite (bool_decide_false (db ∈ n1)) by done. cbn [app]. erewrite bool_decide_ext; [done|]. rewrite elem_of_app. naive_solver.
      * intros sv e [[= -> ->]|Hin]%elem_of_cons He; apply skipped_app.
        -- left. apply Ha'. destruct Hn1 as [-> | ->]; [done|]. exfalso. apply He, elem_of_app. left. by left.
        -- right. apply (Hb' _ _ Hin). intros Hx. apply He, elem_of_app. by right.
Qed.

Lemma models_phase db s :
  ∃ live t, phase_models exec has_models s = (live, t) ∧
    extends s t (λ l, (history db l = if db in_ live then [Modelled] else []) ∧
      (∀ service d, (service, d) ∈ SERVICES → d ∉ live → skipped l service)).
Proof.
  destruct (models_loop db SERVICES [] s) as (new & t & E & _ & H); [done|by_compute|]. by exists new, t.
Qed.

Lemma targets_spec live db : db ∈ targets live ↔ db ∈ live ∧ db ∈ concat (map snd MIGRATIONS).
Proof.
  unfold targets. rewrite sort_by_perm, elem_of_remove_dups, elem_of_filter_bool. unfold in_listb. rewrite bool_decide_eq_true. tauto.
Qed.

Lemma ledger_loop db live s :
  extends s (foldl (make_ledger exec) s (targets live)) (λ l, history db l = if db in_ targets live then [Ledgered] else []).
Proof.
  assert (Hb : ∀ s x, extends s (make_ledger exec s x) (λ l, history db l = if id x =?s db then [Ledgered] else [])).
  { intros u x. unfold make_ledger. apply run_cases. intros r t Ht. destruct (succeeded r) eqn:Er; [|apply extends_fail].
    apply (extends_weaken _ _ _ _ Ht). intros l ->. unfold history, effect. cbn [map fst snd concat]. rewrite Er. cbn [negb].
    rewrite (bool_decide_true (LEDGER_DDL = LEDGER_DDL)), andb_true_r by done. by rewrite app_nil_r. }
  apply (extends_weaken _ _ _ _ (extends_foldl _ db _ _ _ Hb)). intros l ->. rewrite concat_single; rewrite map_id; [done|].
  unfold targets. rewrite sort_by_perm. apply NoDup_remove_dups.
Qed.

(** What a migration does to a live database. *)
Definition applies (db : string) (m : string * list string) : list step :=
  match migration_text m.1 with Some text => if db in_ m.2 then [Applied text] else [] | None => [] end.

Lemma insert_no_effect db d filename r : effect db (Psql d (insert_row filename), r) = [].
Proof. unfold effect. cbn [fst snd]. destruct (negb (succeeded r)); [done|]. by rewrite andb_false_r. Qed.

Lemma migration_step db live m s :
  NoDup m.2 →
  extends s (apply_migration exec migration_text live s m)
    (λ l, history db l = (if db in_ live then applies db m else []) ∧ is_Some (migration_text m.1)).
Proof.
  intros Hm. unfold apply_migration, applies. destruct (migration_text m.1) as [text|] eqn:Et; [|apply extends_fail].
  assert (Hb : ∀ s x, extends s (apply_to exec live m.1 text s x)
    (λ l, history db l = if id x =?s db then (if db in_ live then [Applied text] else []) else [])).
  { intros u x. unfold apply_to. cbn [id]. destruct (x in_ live) eqn:Ex; cbn [negb].
    - apply run_cases. intros r t Ht. destruct (succeeded r) eqn:Er; [|apply extends_fail].
      apply (extends_trans _ _ _ _ _ _ Ht (extends_run (Psql x (insert_row m.1)) t (λ l, history db l = []) ltac:(unfold history; cbn [map concat]; by rewrite insert_no_effect))).
      intros a b -> Hbb. rewrite history_app, Hbb, app_nil_r. unfold history, effect. cbn [map fst snd concat]. rewrite Er. cbn [negb].
      case_bool_decide; [subst x; by rewrite Ex|done].
    - apply extends_none. case_bool_decide; [subst x; by rewrite Ex|done]. }
  apply (extends_weaken _ _ _ _ (extends_foldl _ db _ _ _ Hb)). intros l ->. split; [|done].
  rewrite concat_single; rewrite map_id; [|done]. by destruct (db in_ m.2), (db in_ live).
Qed.

Lemma migrations_phase db live s :
  extends s (phase_migrations exec migration_text live s)
    (λ l, history db l = (if db in_ targets live then [Ledgered] else []) ++ (if db in_ live then concat (map (applies db) MIGRATIONS) else []) ∧
      Forall (λ m, is_Some (migration_text m.1)) MIGRATIONS).
Proof.
  assert (Hloop : ∀ ms t, Forall (λ m, NoDup m.2) ms → extends t (foldl (apply_migration exec migration_text live) t ms)
    (λ l, history db l = (if db in_ live then concat (map (applies db) ms) else []) ∧ Forall (λ m, is_Some (migration_text m.1)) ms)).
  { intros ms t Hms. revert t. induction Hms as [|m ms Hm _ IH]; intros t; [apply extends_none; by destruct (db in_ live)|]. cbn [foldl].
    apply (extends_trans _ _ _ _ _ _ (migration_step db live m t Hm) (IH _)). intros a b [Ha Ha'] [Hb Hb'].
    split; [|by constructor]. rewrite history_app, Ha, Hb. by destruct (db in_ live). }
  assert (Hn : Forall (λ m : string * list string, NoDup m.2) MIGRATIONS) by by_compute.
  apply (extends_trans _ _ _ _ _ _ (ledger_loop db live s) (Hloop _ _ Hn)). intros a b Ha [Hb Hb']. split; [|done].
  by rewrite history_app, Ha, Hb.
Qed.

Lemma verify_phase db live s :
  extends s (verify exec live s) (λ l, history db l = [] ∧
    ∀ d sql label, (d, sql, label) ∈ checks → d ∈ live → ∃ r, (Query d sql, r) ∈ l ∧ strip (stdout r) = "1").
Proof.
  unfold verify. revert s. induction checks as [|[[d sql] label] cs IH]; intros s.
  - apply extends_none. split; [done|]. by intros ? ? ? ?%not_elem_of_nil.
  - cbn [foldl]. assert (H1 : extends s (check_one exec live s (d, sql, label)) (λ l, history db l = [] ∧ (d ∈ live → ∃ r, (Query d sql, r) ∈ l ∧ strip (stdout r) = "1"))).
    { unfold check_one, in_listb. case_bool_decide as Hd; cbn [negb]; [|by apply extends_none]. apply run_cases. intros r t Ht.
      case_bool_decide as Hr; [|apply extends_fail]. apply (extends_weaken _ _ _ _ Ht). intros l ->. split.
      - unfold history, effect. cbn. by destruct (negb (succeeded r)).
      - intros _. exists r. split; [left|done]. }
    apply (extends_trans _ _ _ _ _ _ H1 (IH _)). intros a b [Ha Ha'] [Hb Hb']. split; [by rewrite history_app, Ha, Hb|].
    intros e q lb [[= -> -> ->]|Hin]%elem_of_cons He.
    + destruct (Ha' He) as (r & Hr & E). exists r. split; [|done]. apply elem_of_app. by left.
    + destruct (Hb' _ _ _ Hin He) as (r & Hr & E). exists r. split; [|done]. apply elem_of_app. by right.
Qed.

Lemma wait_phase db n s t :
  wait_for_postgres exec n s = Some t → failures t = failures s ∧ history db (log t) = history db (log s).
Proof.
  revert s. induction n as [|n IH]; intros s; [done|]. cbn [wait_for_postgres]. unfold run.
  destruct (exec (world s) PgIsReady) as [r w].
  assert (E : history db (log s ++ [(PgIsReady, r)]) = history db (log s)).
  { rewrite history_app. unfold history at 2, effect. cbn. destruct (negb (succeeded r)); apply app_nil_r. }
  destruct (succeeded r); [by intros [= <-]|]. intros [E1 E2]%IH. split; [done|]. by rewrite E2.
Qed.

(** What a current database has been through, in this order. *)
Definition upgrades (db : string) : list step :=
  (if db in_ concat (map snd MIGRATIONS) then [Ledgered] else []) ++ concat (map (applies db) MIGRATIONS).

(** C19 — A bootstrap that ends without failures has brought every database to
    the current schema, whatever docker and psql answer: each one existed or was
    created; each database whose service was there had its models created, then
    its ledger, then every migration that targets it, each once, successfully and
    in the order of the list; each check on such a database answered 1; no
    migration file is missing; and a service whose models did not run was not
    there to run them. *)
Theorem complete_means_current w live s :
  main exec has_models migration_text w = Some (live, s) → failures s = [] →
  Forall (λ m, is_Some (migration_text m.1)) MIGRATIONS ∧
  (∃ existing, (ListDatabases, existing) ∈ log s ∧ ∀ service db, (service, db) ∈ SERVICES →
     history db (log s) = (if db in_ names_of (stdout existing) then [] else [Created]) ++ (if db in_ live then Modelled :: upgrades db else []) ∧
     (db ∉ live → skipped (log s) service)) ∧
  (∀ db sql label, (db, sql, label) ∈ checks → db ∈ live → ∃ r, (Query db sql, r) ∈ log s ∧ strip (stdout r) = "1").
Proof.
  unfold main. destruct (wait_for_postgres _ _ _) as [s0|] eqn:E0; [|done]. cbn [mbind option_bind].
  destruct (phase_models _ _ _) as [live' s2] eqn:E2. intros [= -> <-] Hf.
  assert (Hall : ∀ service db, (service, db) ∈ SERVICES →
    let existing := (run exec ListDatabases s0).1 in let l := log (verify exec live (phase_migrations exec migration_text live s2)) in
    (ListDatabases, existing) ∈ l ∧
    history db l = (if db in_ names_of (stdout existing) then [] else [Created]) ++ (if db in_ live then Modelled :: upgrades db else []) ∧
    (db ∉ live → skipped l service)).
  { intros service db Hdb existing l. destruct (verify_phase db live _ Hf) as (Hf3 & n4 & E4 & H4 & _).
    destruct (migrations_phase db live _ Hf3) as (Hf2 & n3 & E3 & H3 & _).
    destruct (models_phase db (phase_databases exec s0)) as (live' & t & E2' & H2). rewrite E2 in E2'. injection E2' as <- <-.
    destruct (H2 Hf2) as (Hf1 & n2 & El2 & Hh2 & Hskip).
    destruct (databases_phase db s0 (list_elem_of_fmap_2 snd _ _ Hdb) Hf1) as (_ & n1 & El1 & Hin & H1).
    destruct (wait_phase db _ _ _ E0) as [_ Hh0]. subst l. rewrite E4, E3, El2, El1. split_and!.
    - do 3 (apply elem_of_app; left). apply elem_of_app. by right.
    - rewrite !history_app, Hh0, H1, Hh2, H3, H4, app_nil_r. cbn [app]. rewrite <-app_assoc. f_equal. unfold upgrades.
      assert ((db in_ targets live) = (db in_ live) && (db in_ concat (map snd MIGRATIONS))) as ->.
      { unfold in_listb. rewrite <-bool_decide_and. apply bool_decide_ext, targets_spec. }
      by destruct (db in_ live).
    - intros Hd. do 2 (apply skipped_app; left). apply skipped_app. right. by apply (Hskip _ db). }
  destruct (verify_phase "" live _ Hf) as (Hf3 & n4 & E4 & _ & Hchecks). destruct (migrations_phase "" live _ Hf3) as (_ & _ & _ & _ & Htexts).
  split_and!; [done| |].
  - exists (run exec ListDatabases s0).1. split; [apply (Hall "catalog-service" "catalog_db"); left|]. intros service db H. by apply Hall.
  - intros db sql label Hc Hl. destruct (Hchecks _ _ _ Hc Hl) as (r & Hr & E). exists r. split; [|done]. rewrite E4. apply elem_of_app. by right.
Qed.
End complete.

(** *** On examples *)

(** A server: the databases it has, and the containers docker knows. *)
Definition server (databases containers : list string) (w : list string) (c : command) : completed * list string :=
  match c with
  | ListDatabases => ({| returncode := 0; stdout := join newline (databases ++ w) |}, w)
  | CreateDatabase db => ({| returncode := 0; stdout := "" |}, w ++ [db])
  | Inspect c => ({| returncode := if existsb (λ s, container_of s =?s c) containers then 0 else 1; stdout := "running" |}, w)
  | Query _ _ => ({| returncode := 0; stdout := "1" |}, w)
  | _ => ({| returncode := 0; stdout := "" |}, w)
  end.

Lemma complete_means_current_witness :
  let exec := server ["postgres"; "order_db"] ["order-saga"; "tax-service"] in
  let s := match main exec (λ _, true) (λ f, Some f) [] with Some (_, s) => s | None => {| world := []; log := []; failures := [] |} end in
  history "order_db" (log s) = Modelled :: upgrades (λ f, Some f) "order_db" ∧
  history "tax_db" (log s) = [Created; Modelled].
Proof.
  intros exec s. assert (E : main exec (λ _, true) (λ f, Some f) [] = Some (["tax_db"; "order_db"], s)) by (vm_compute; reflexivity).
  destruct (complete_means_current exec (λ _, true) (λ f, Some f) [] _ s E) as (_ & (existing & Hin & H) & _); [vm_compute; reflexivity|].
  assert (Eo : stdout existing = join newline ["postgres"; "order_db"]).
  { clear -Hin. assert (F : Forall (λ e, match e.1 with ListDatabases => stdout e.2 = join newline ["postgres"; "order_db"] | _ => True end) (log s)).
    { vm_compute. repeat constructor. }
    exact (proj1 (Forall_forall _ _) F _ Hin). }
  destruct (H "order-saga" "order_db") as [H1 _]; [by_compute|]. destruct (H "tax-service" "tax_db") as [H2 _]; [by_compute|].
  rewrite Eo in H1, H2. split; [rewrite H1|rewrite H2]; vm_compute; reflexivity.
Defined.

(** With no service running, nothing but databases is made, and the bootstrap is
    complete. *)
Example nothing_runs :
  option_map (λ r, (r.1, failures r.2, concat (map (λ d, history d (log r.2)) ["order_db"; "tax_db"]))) (main (server [] []) (λ _, true) (λ f, Some f) []) =
  Some ([], [], [Created; Created]).
Proof. vm_compute. reflexivity. Qed.

(** A failed migration does not stop the later ones from being applied. *)
Definition failing (text : string) (w : list string) (c : command) : completed * list string :=
  match c with
  | PsqlInput _ t => ({| returncode := if t =?s text then 3 else 0; stdout := "" |}, w)
  | _ => server ["order_db"] ["order-saga"] w c
  end.

Example later_migrations_still_run :
  option_map (λ r, (failures r.2, length (history "order_db" (log r.2))))
    (main (failing "001_add_idempotency_result_id.sql") (λ _, true) (λ f, Some f) []) =
  Some ([Migration "001_add_idempotency_result_id.sql" "order_db"], 7%nat).
Proof. vm_compute. reflexivity. Qed.

(** Nor is a row that could not be written in schema_migrations noticed. *)
Definition no_rows (w : list string) (c : command) : completed * list string :=
  match c with
  | Psql _ sql => ({| returncode := if sql =?s LEDGER_DDL then 0 else 1; stdout := "" |}, w)
  | _ => server ["order_db"] ["order-saga"] w c
  end.

Example missing_rows_go_unnoticed : option_map (λ r, failures r.2) (main no_rows (λ _, true) (λ f, Some f) []) = Some [].
Proof. vm_compute. reflexivity. Qed.

(** The Job of the generated manifests stops where this list stood at 006. *)
Example the_job_stops_at_006 : Generate.MIGRATION_TARGETS = take 6 MIGRATIONS ∧ length MIGRATIONS = 23%nat.
Proof. split; reflexivity. Qed.
