(* ===== verification/FixReplication.v ===== *)
(** * Repairing the replication of Kafka

    scripts/kafka_replication.py over whatever the broker's tools answer, and on
    a cluster that does what it is told (class [Cluster]).  What is printed is
    left out. *)

From Stdlib Require Import Ascii.
From S2P Require Import Prelude PyValue PyJson PyText TextLines KafkaReplication.
Import PyJson PyText TextLines.

Module FixReplication.
Import KafkaReplication.

(** What the script asks of the broker's container. *)
Inductive command :=
| BrokerIds
| Describe
| Stage (plan : list assignment)
| Execute
| VerifyPlan.

(** How a run ends: [main] returns, [sys.exit] with a message (status 1), or an
    exception. *)
Inductive fatal := ToolFailed | TooFewBrokers (up : Z) | NotStaged | NotFinished.
Inductive ending := Returned (code : Z) | Fatal (why : fatal) | Raised.

(** [line[1:-1]] *)
Definition inner (line : string) : string := String.substring 1 (String.length line - 2) line.

Definition is_id_list (line : string) : bool := starts_with "[" line && ends_with "]" line.

Fixpoint broker_ids (lines : list string) : option (list Z) :=
  match lines with
  | [] => Some []
  | line :: lines =>
      let line := strip line in
      if is_id_list line then sort_le Z.leb <$> _int_list (inner line) else broker_ids lines
  end.

Section script.
Context {W : Type} (exec : W → command → completed * W).

(** A step of the script: the world it leaves, and an early end or a value. *)
Definition M (A : Type) : Type := W → (ending + A) * W.

Definition ret {A} (a : A) : M A := λ w, (inr a, w).
Definition stop {A} (e : ending) : M A := λ w, (inl e, w).
Definition bind {A B} (m : M A) (k : A → M B) : M B := λ w, match m w with (inl e, w) => (inl e, w) | (inr a, w) => k a w end.

Notation "x <- m ; k" := (bind m (λ x, k)) (at level 90, m at next level, right associativity).

Definition or_raise {A} (o : option A) : M A := match o with Some a => ret a | None => stop Raised end.

Definition kafka (check : bool) (c : command) : M string := λ w,
  let (r, w) := exec w c in if check && negb (succeeded r) then (inl (Fatal ToolFailed), w) else (inr (stdout r), w).

Definition describe_all : M (list Topic) := out <- kafka true Describe; or_raise (parse_describe out).

Definition live_broker_ids : M (list Z) := out <- kafka false BrokerIds; or_raise (broker_ids (splitlines out)).

Definition stage (plan : list assignment) : M () := λ w,
  let (r, w) := exec w (Stage plan) in if succeeded r then (inr (), w) else (inl (Fatal NotStaged), w).

Fixpoint wait_until_copied (attempts : nat) : M () :=
  match attempts with
  | O => stop (Fatal NotFinished)
  | S attempts =>
      verify <- kafka false VerifyPlan;
      if contains "is still in progress" verify then wait_until_copied attempts else ret ()
  end.

Definition reassign (topics : list Topic) : M () :=
  plan <- or_raise (match plan_reassignment topics BROKERS TARGET_REPLICATION_FACTOR with inr p => Some p | inl _ => None end);
  _ <- stage plan;
  _ <- kafka true Execute;
  wait_until_copied 60.

Definition main (fix_ : bool) : M Z :=
  live <- live_broker_ids;
  if fix_ && (size live <? TARGET_REPLICATION_FACTOR) then stop (Fatal (TooFewBrokers (size live)))
  else
    topics <- describe_all;
    let under := find_under_replicated topics TARGET_REPLICATION_FACTOR in
    if bool_decide (length under = 0%nat) then ret 0
    else if negb fix_ then ret 1
    else
      _ <- reassign under;
      after <- describe_all;
      let remaining := find_under_replicated after TARGET_REPLICATION_FACTOR in
      _ <- describe_all;
      ret (if bool_decide (length remaining = 0%nat) then 0 else 1).
End script.

(** ** The list of brokers is read back *)

Lemma substring_app a b : String.substring 0 (String.length a) (a +:+ b) = a.
Proof. induction a as [|c a IH]; [by destruct b|]. rewrite append_cons. cbn [String.length String.substring]. by rewrite IH. Qed.

Lemma inner_brackets s : inner ("[" +:+ s +:+ "]") = s.
Proof.
  unfold inner. change ("[" +:+ ?x) with (String "["%char x). cbn [String.length String.substring]. rewrite string_length_app. cbn.
  replace (String.length s + 1 - 1)%nat with (String.length s) by lia. apply substring_app.
Qed.

Lemma join_comma_space x xs : join ", " (x :: xs) = join (String comma "") (x :: map (String space) xs).
Proof. revert x. induction xs as [|y xs IH]; intros x; [done|]. cbn [map]. rewrite join_cons. change (join ", " (x :: y :: xs)) with (x +:+ String comma (String space (join ", " (y :: xs)))).
  rewrite (IH y). destruct xs; reflexivity. Qed.

Lemma lacks_dec p z : (∀ c, 45 ≤ code c ≤ 57 → p c = false) → lacks p (dec z).
Proof. intros H c Hc. apply H. apply dec_digits in Hc. lia. Qed.

Lemma parse_int_space z : parse_int 10 (String space (dec z)) = Some z.
Proof. rewrite <-(parse_int_dec z). unfold parse_int. by rewrite strip_space_ahead. Qed.

Lemma dec_not_blank z : negb (is_empty (strip (dec z))) = true.
Proof.
  rewrite strip_lacks by apply dec_no_space. unfold is_empty. rewrite bool_decide_false; [done|].
  intros E. pose proof (parse_int_dec z) as H. by rewrite E in H.
Qed.

Lemma id_list_read ids : _int_list (inner (show_ints ids)) = Some ids.
Proof.
  unfold show_ints. rewrite inner_brackets. unfold _int_list. destruct ids as [|z ids]; [reflexivity|]. cbn [map]. rewrite join_comma_space.
  assert (Hd : ∀ y, lacks (λ d, bool_decide (d = comma)) (dec y)).
  { intros y. apply lacks_dec. intros c Hc. apply bool_decide_eq_false. intros ->. change (code comma) with 44 in Hc. lia. }
  rewrite split_on_join; [|done|].
  2: { intros x [->|(y & -> & (u & -> & _)%elem_of_map)%elem_of_map]%elem_of_cons; [done|]. apply lacks_cons. by split. }
  rewrite map_map, filter_all.
  - cbn [mapM]. rewrite parse_int_dec. cbn [mbind option_bind]. 
    assert (mapM (parse_int 10) (map (λ x, String space (dec x)) ids) = Some ids) as ->; [|done].
    apply mapM_Some_2, Forall2_fmap_l, Forall_Forall2_diag, Forall_forall. intros y _. apply parse_int_space.
  - intros x [->|(y & -> & _)%elem_of_map]%elem_of_cons; [apply dec_not_blank|]. rewrite strip_space_ahead by done. apply dec_not_blank.
Qed.

Lemma ends_with_app a b : ends_with b (a +:+ b) = true.
Proof. induction a as [|c a IH]; [rewrite append_nil; destruct b; cbn [ends_with]; by rewrite bool_decide_true|]. rewrite append_cons. cbn [ends_with]. by rewrite IH, orb_true_r. Qed.

Lemma show_ints_line ids : lacks is_line_break (show_ints ids).
Proof.
  unfold show_ints. apply lacks_app; [by apply lacks_literal|]. apply lacks_app; [|by apply lacks_literal].
  destruct ids as [|z ids]; [by apply lacks_literal|]. cbn [map]. rewrite join_comma_space.
  assert (Hd : ∀ y, lacks is_line_break (dec y)) by (intros y c Hc; by apply space_line_break, (dec_no_space y)).
  apply lacks_join; [done|]. intros x [->|(y & -> & (u & -> & _)%elem_of_map)%elem_of_map]%elem_of_cons; [done|].
  apply lacks_cons. by split.
Qed.

Lemma show_ints_strip ids : strip (show_ints ids) = show_ints ids.
Proof. apply trimmed_strip. split; [done|]. unfold show_ints. rewrite <-string_app_assoc. by apply rstrip_last. Qed.

(** The first line that looks like a list gives the brokers. *)
Lemma ids_after_noise noise ids :
  Forall (λ l, is_id_list (strip l) = false) noise → broker_ids (noise ++ [show_ints ids]) = Some (sort_le Z.leb ids).
Proof.
  induction 1 as [|l noise Hl _ IH]; cbn [app broker_ids]; [|by rewrite Hl]. rewrite show_ints_strip.
  assert (is_id_list (show_ints ids) = true) as ->; [|by rewrite id_list_read].
  unfold is_id_list. cbn [andb]. unfold show_ints. rewrite <-string_app_assoc. apply andb_true_iff. split; [|apply ends_with_app]. done.
Qed.

(** ** Exit status 0 *)

Lemma returned_zero {W} (exec : W → command → completed * W) fix_ w w' :
  main exec fix_ w = (inr 0, w') →
  ∃ w0 r topics, exec w0 Describe = (r, (exec w0 Describe).2) ∧ succeeded r = true ∧ parse_describe (stdout r) = Some topics ∧
    find_under_replicated topics TARGET_REPLICATION_FACTOR = [].
Proof.
  assert (Hd : ∀ u v topics, describe_all exec u = (inr topics, v) →
    ∃ r, exec u Describe = (r, (exec u Describe).2) ∧ succeeded r = true ∧ parse_describe (stdout r) = Some topics).
  { intros u v topics. unfold describe_all, bind, kafka, or_raise, ret, stop. destruct (exec u Describe) as [r u']. cbn.
    destruct (succeeded r) eqn:Er; [|done]. cbn. destruct (parse_describe (stdout r)) eqn:Ep; [|done]. intros [= -> ->]. by exists r. }
  unfold main. unfold bind at 1. destruct (live_broker_ids exec w) as [[?|live] w1]; [done|].
  destruct (fix_ && _); [done|]. unfold bind at 1. destruct (describe_all exec w1) as [[?|topics] w2] eqn:E1; [done|].
  case_bool_decide as Hn.
  - intros _. destruct (Hd _ _ _ E1) as (r & H1 & H2 & H3). exists w1, r, topics. by apply nil_length_inv in Hn.
  - destruct (negb fix_); [done|]. unfold bind at 1. destruct (reassign _ _ w2) as [[?|[]] w3]; [done|].
    unfold bind at 1. destruct (describe_all exec w3) as [[?|after] w4] eqn:E2; [done|].
    unfold bind. destruct (describe_all exec w4) as [[?|?] w5]; [done|]. case_bool_decide as Hr; [|done].
    intros _. destruct (Hd _ _ _ E2) as (r & H1 & H2 & H3). exists w3, r, after. by apply nil_length_inv in Hr.
Qed.

(** ** A cluster that does what it is told *)

Section cluster.
Context {W : Type} (exec : W → command → completed * W) (config : Topic → list (string * string)).

(** A topic once a plan is carried out; the in-sync lists keep up with the
    partitions. *)
Definition carried_out (plan : list assignment) (t t' : Topic) : Prop :=
  name t' = name t ∧ partitions t' = partitions (reassigned plan t) ∧
  ((isr t).*1 = (partitions t).*1 → (isr t').*1 = (partitions t').*1).

(** A plan whose replicas are all on brokers that are up. *)
Definition fits (plan : list assignment) (live : list Z) : Prop := ∀ a, a ∈ plan → as_replicas a ⊆ live.

(** What the script relies on: ZooKeeper's shell ends its answer with the list of
    the brokers that are up, the report shows the topics, and a plan is staged as
    it is written.  A plan that [fits] the brokers is started and copied before
    the sixtieth question, after which the topics are those of the plan; Kafka
    rejects any other (of what it leaves behind nothing is said). *)
Class Cluster := {
  topics_of : W → list Topic;
  live_of : W → list Z;
  staged_of : W → list assignment;
  future_of : W → list Topic;
  questions_of : W → nat;
  brokers_answer w : ∃ r noise ids, exec w BrokerIds = (r, w) ∧ stdout r = lines_text (noise ++ [show_ints ids]) ∧ ids ≡ₚ live_of w ∧
    Forall (λ l, lacks is_line_break l ∧ is_id_list (strip l) = false) noise;
  describe_answer w : ∃ r, exec w Describe = (r, w) ∧ succeeded r = true ∧ stdout r = describe config (topics_of w);
  stage_answer w plan : ∃ r w', exec w (Stage plan) = (r, w') ∧ succeeded r = true ∧ staged_of w' = plan ∧ topics_of w' = topics_of w ∧ live_of w' = live_of w;
  execute_answer w : fits (staged_of w) (live_of w) → ∃ r w', exec w Execute = (r, w') ∧ succeeded r = true ∧ (questions_of w' < 60)%nat ∧
    Forall2 (carried_out (staged_of w)) (topics_of w) (future_of w');
  execute_rejected w : ¬ fits (staged_of w) (live_of w) → ∃ r w', exec w Execute = (r, w') ∧ succeeded r = false;
  verify_answer w : ∃ r w', exec w VerifyPlan = (r, w') ∧ contains "is still in progress" (stdout r) = negb (Nat.eqb (questions_of w) 0) ∧
    (questions_of w = 0%nat → topics_of w' = future_of w) ∧
    (∀ n, questions_of w = S n → questions_of w' = n ∧ future_of w' = future_of w);
  header_answer t : (∀ f, f ∈ config t → field_ok f ∧ lacks is_line_break f.2 ∧ has_char tab f.2 = false) ∧ NoDup (config t).*1 ∧
    "Topic" ∉ (config t).*1 ∧ "Partition" ∉ (config t).*1 }.
Context {CL : Cluster}.

(** What Kafka promises of its topics. *)
Record topics_ok (topics : list Topic) : Prop := {
  names_distinct : NoDup (map name topics);
  names_plain t : t ∈ topics → lacks is_space (name t);
  keys_distinct t : t ∈ topics → NoDup (partitions t).*1;
  some_partition t : t ∈ topics → partitions t ≠ [];
  isr_matches t : t ∈ topics → (isr t).*1 = (partitions t).*1 }.

Lemma reassigned_keys plan t : (partitions (reassigned plan t)).*1 = (partitions t).*1.
Proof. unfold reassigned. cbn [partitions]. induction (partitions t) as [|[p rs] l IH]; [done|]. csimpl. by rewrite IH. Qed.

Lemma carried_out_names plan ts ts' : Forall2 (carried_out plan) ts ts' → map name ts' = map name ts.
Proof. induction 1 as [|t t' ts ts' (E & _) _ IH]; [done|]. cbn [map]. by rewrite IH, E. Qed.

Lemma carried_out_ok plan ts ts' : Forall2 (carried_out plan) ts ts' → topics_ok ts → topics_ok ts'.
Proof.
  intros H [H1 H2 H3 H4 H5]. pose proof (carried_out_names _ _ _ H) as En.
  assert (Hx : ∀ t', t' ∈ ts' → ∃ t, t ∈ ts ∧ carried_out plan t t').
  { intros t' (i & Hi)%list_elem_of_lookup. destruct (Forall2_lookup_r _ _ _ _ _ H Hi) as (t & Ht & Hc). exists t. split; [|done].
    by eapply list_elem_of_lookup_2. }
  assert (Hkeys : ∀ t t', carried_out plan t t' → (partitions t').*1 = (partitions t).*1) by (intros t t' (_ & -> & _); apply reassigned_keys).
  split; [by rewrite En|..]; intros t' (t & Ht & Hc)%Hx; pose proof Hc as (E1 & E2 & E3).
  - rewrite E1. by apply H2.
  - rewrite (Hkeys _ _ Hc). by apply H3.
  - rewrite E2. intros E. apply (H4 t Ht), (fmap_nil_inv fst). rewrite <-(reassigned_keys plan), E. done.
  - by apply E3, H5.
Qed.

Lemma describes w : topics_ok (topics_of w) → describe_all exec w = (inr (topics_of w), w).
Proof.
  intros [H1 H2 H3 H4 H5]. unfold describe_all, bind, kafka. destruct (describe_answer w) as (r & -> & -> & ->). cbn [andb negb].
  rewrite topic_report_reads_back; [done| |done]. intros t Ht. destruct (header_answer t) as (Hf & Hd & Ha). split; auto.
Qed.

(** *** Each step on such a cluster *)

Lemma brokers_found w : ∃ ids, live_broker_ids exec w = (inr ids, w) ∧ size ids = size (live_of w).
Proof.
  destruct (brokers_answer w) as (r & noise & ids & E & Er & Hs & Hn). exists (sort_le Z.leb ids).
  unfold live_broker_ids, bind, kafka. rewrite E. cbn [andb]. rewrite Er, splitlines_text.
  - rewrite ids_after_noise; [|eapply Forall_impl; [done|by intros l []]]. split; [done|]. unfold size in *. by rewrite sort_le_perm, Hs.
  - intros l [Hl|Hl]%elem_of_app; [by apply (proj1 (Forall_forall _ _) Hn)|]. apply list_elem_of_singleton in Hl as ->.
    apply show_ints_line.
Qed.

(** Every partition of a plan takes all the brokers the script names, so a plan
    with anything in it fits exactly when they are all up. *)
Lemma planned_replicas topics plan a : plan_reassignment topics BROKERS TARGET_REPLICATION_FACTOR = inr plan → a ∈ plan → as_replicas a ≡ₚ BROKERS.
Proof.
  rewrite plan_reassignment_eq by by_compute. intros [= <-] (t & p & _ & _ & ->)%elem_plan. cbn [assign as_replicas].
  destruct (placed_ok BROKERS p TARGET_REPLICATION_FACTOR) as (Hs & Hn & Hi); [by_compute..|].
  apply submseteq_length_Permutation; [by apply NoDup_submseteq|]. apply Nat2Z.inj_le. unfold size in Hs. rewrite Hs. by vm_compute.
Qed.

Lemma planned_fits topics plan live : plan_reassignment topics BROKERS TARGET_REPLICATION_FACTOR = inr plan →
  BROKERS ⊆ live → fits plan live.
Proof. intros Hp Hl a Ha. by rewrite (planned_replicas _ _ _ Hp Ha). Qed.

Lemma planned_needs topics plan live : plan_reassignment topics BROKERS TARGET_REPLICATION_FACTOR = inr plan →
  topics ≠ [] → (∀ t, t ∈ topics → partitions t ≠ []) → fits plan live → BROKERS ⊆ live.
Proof.
  intros Hp Hne Hparts Hfits. destruct topics as [|t ts]; [done|]. specialize (Hparts t ltac:(by left)).
  destruct (partitions t) as [|[p rs] ps] eqn:Et; [done|]. pose proof Hp as Hp'. rewrite plan_reassignment_eq in Hp by by_compute. apply (inj inr) in Hp as E.
  assert (Ha : assign BROKERS TARGET_REPLICATION_FACTOR t p ∈ plan).
  { rewrite <-E. apply (elem_plan BROKERS (t :: ts) TARGET_REPLICATION_FACTOR). exists t, p. split_and!; [by left|rewrite Et; by left|done]. }
  rewrite <-(planned_replicas _ _ _ Hp' Ha). by apply Hfits.
Qed.

Lemma copied n w : (questions_of w < n)%nat →
  ∃ w', wait_until_copied exec n w = (inr (), w') ∧ topics_of w' = future_of w.
Proof.
  revert w. induction n as [|n IH]; intros w Hn; [lia|]. cbn [wait_until_copied]. unfold bind, kafka.
  destruct (verify_answer w) as (r & w' & -> & E & H0 & HS). cbn [andb]. rewrite E.
  destruct (questions_of w) as [|m]; cbn [Nat.eqb negb].
  - exists w'. split; [done|by apply H0].
  - destruct (HS m eq_refl) as [Eq Ef]. destruct (IH w') as (w'' & E1 & E2); [lia|]. exists w''. by rewrite E2, Ef.
Qed.

Lemma reassigns w under plan :
  plan_reassignment under BROKERS TARGET_REPLICATION_FACTOR = inr plan → fits plan (live_of w) →
  ∃ w', reassign exec under w = (inr (), w') ∧ Forall2 (carried_out plan) (topics_of w) (topics_of w').
Proof.
  intros E Hfits. unfold reassign. rewrite E. cbn [or_raise]. unfold bind at 1, ret, bind at 1, stage.
  destruct (stage_answer w plan) as (r & w1 & -> & -> & Hst & Ht & Hl). unfold bind, kafka.
  destruct (execute_answer w1) as (r2 & w2 & -> & -> & Hq & Hf); [by rewrite Hst, Hl|]. cbn [andb negb].
  destruct (copied 60 w2 Hq) as (w3 & -> & E3). exists w3. split; [done|]. by rewrite E3, <-Ht, <-Hst.
Qed.

Lemma rejects w under plan :
  plan_reassignment under BROKERS TARGET_REPLICATION_FACTOR = inr plan → ¬ fits plan (live_of w) →
  ∃ w', reassign exec under w = (inl (Fatal ToolFailed), w').
Proof.
  intros E Hfits. unfold reassign. rewrite E. cbn [or_raise]. unfold bind at 1, ret, bind at 1, stage.
  destruct (stage_answer w plan) as (r & w1 & -> & -> & Hst & Ht & Hl). unfold bind, kafka.
  destruct (execute_rejected w1) as (r2 & w2 & -> & ->); [by rewrite Hst, Hl|]. by exists w2.
Qed.

(** The cluster once [plan] for its under-replicated topics is carried out. *)
Lemma repaired ts ts' plan : topics_ok ts →
  plan_reassignment (find_under_replicated ts TARGET_REPLICATION_FACTOR) BROKERS TARGET_REPLICATION_FACTOR = inr plan →
  Forall2 (carried_out plan) ts ts' →
  find_under_replicated ts' TARGET_REPLICATION_FACTOR = [] ∧
  ∀ i t t', ts !! i = Some t → ts' !! i = Some t' → TARGET_REPLICATION_FACTOR ≤ replication_factor t → partitions t' = partitions t.
Proof.
  intros Hok Ep HF. destruct (reassignment_restores_replication ts BROKERS TARGET_REPLICATION_FACTOR) as (plan' & Ep' & Hnone & Hkeep & _);
    [by_compute|by_compute|apply Hok|apply Hok|]. rewrite Ep in Ep'. injection Ep' as <-. split.
  - apply filter_none. intros t' (i & Hi)%list_elem_of_lookup. destruct (Forall2_lookup_r _ _ _ _ _ HF Hi) as (t & Ht & (_ & E & _)).
    assert (Hin : reassigned plan t ∈ map (reassigned plan) ts) by (apply elem_of_map; exists t; split; [done|by eapply list_elem_of_lookup_2]).
    destruct (replication_factor t' <? TARGET_REPLICATION_FACTOR) eqn:Hlt; [|done]. exfalso. apply (not_elem_of_nil (reassigned plan t)).
    rewrite <-Hnone. apply elem_of_filter_bool. split; [done|]. unfold replication_factor in *. by rewrite <-E.
  - intros i t t' Ht Ht' Hrf. destruct (Forall2_lookup_lr _ _ _ _ _ _ HF Ht Ht') as (_ & -> & _). rewrite Hkeep; [done| |done].
    by eapply list_elem_of_lookup_2.
Qed.

(** C16 — On a cluster that does what it is told, [--fix] succeeds when brokers
    1, 2 and 3 are up: with topics under distinct names and at least one partition
    each, the script reads the report, stages and runs a plan if one is needed,
    waits for the copying and exits 0; then no topic has a partition with fewer
    than three replicas, no topic was lost, and the topics that had enough keep
    their replicas.  With fewer than three brokers up it refuses at once; with
    three or more up but not those three, a topic to repair makes it stop with
    the tool's error, because Kafka rejects the plan. *)
Theorem fix_repairs_the_cluster w :
  topics_ok (topics_of w) →
  (BROKERS ⊆ live_of w → ∃ w', main exec true w = (inr 0, w') ∧ map name (topics_of w') = map name (topics_of w) ∧
    find_under_replicated (topics_of w') TARGET_REPLICATION_FACTOR = [] ∧
    ∀ i t t', topics_of w !! i = Some t → topics_of w' !! i = Some t' → TARGET_REPLICATION_FACTOR ≤ replication_factor t →
      partitions t' = partitions t) ∧
  (size (live_of w) < TARGET_REPLICATION_FACTOR → main exec true w = (inl (Fatal (TooFewBrokers (size (live_of w)))), w)) ∧
  (TARGET_REPLICATION_FACTOR ≤ size (live_of w) → ¬ BROKERS ⊆ live_of w → find_under_replicated (topics_of w) TARGET_REPLICATION_FACTOR ≠ [] →
    ∃ w', main exec true w = (inl (Fatal ToolFailed), w')).
Proof.
  intros Hok. destruct (brokers_found w) as (ids & Eids & Esize).
  set (under := find_under_replicated (topics_of w) _).
  destruct (reassignment_restores_replication (topics_of w) BROKERS TARGET_REPLICATION_FACTOR) as (plan & Ep & _);
    [by_compute|by_compute|apply Hok|apply Hok|]. split_and!.
  - intros Hl. assert (Hs : TARGET_REPLICATION_FACTOR ≤ size (live_of w)).
    { unfold size. change TARGET_REPLICATION_FACTOR with (Z.of_nat (length BROKERS)). apply inj_le, submseteq_length, NoDup_submseteq; [by_compute|done]. }
    unfold main. unfold bind at 1. rewrite Eids, Esize, (proj2 (Z.ltb_ge _ _)) by done. cbn [andb]. unfold bind at 1. rewrite describes by done. fold under. case_bool_decide as Hu.
    { exists w. apply nil_length_inv in Hu. split_and!; [done..|]. intros i t t' E E'. congruence. }
    cbn [negb]. destruct (reassigns w under plan Ep) as (w' & Er & HF); [by eapply planned_fits|]. exists w'. unfold bind at 1. rewrite Er.
    pose proof (carried_out_ok _ _ _ HF Hok) as Hok'. destruct (repaired _ _ _ Hok Ep HF) as [Hz Hkeep].
    unfold bind at 1. rewrite describes by done. unfold bind. rewrite describes by done. rewrite Hz. cbn. split_and!; [done| |done|done].
    by eapply carried_out_names.
  - intros Hs. unfold main. unfold bind at 1. by rewrite Eids, Esize, (proj2 (Z.ltb_lt _ _)).
  - intros Hs Hl Hu. unfold main. unfold bind at 1. rewrite Eids, Esize, (proj2 (Z.ltb_ge _ _)) by done. cbn [andb]. unfold bind at 1. rewrite describes by done. fold under in Hu |- *.
    case_bool_decide as Hn; [by apply nil_length_inv in Hn|]. cbn [negb]. unfold bind at 1.
    destruct (rejects w under plan Ep) as (w' & ->); [|by exists w']. intros Hfits. apply Hl. eapply planned_needs; [exact Ep|done| |done].
    intros t [Ht _]%elem_of_filter_bool. by apply Hok.
Qed.
End cluster.

(** *** A cluster *)

Definition headers (t : Topic) : list (string * string) := [("PartitionCount", dec (Z.of_nat (length (partitions t))))].

(** Its topics, the plan in the file, and how often it will say that it is
    still copying; brokers [up] are registered. *)
Definition fitsb (plan : list assignment) (live : list Z) : bool := forallb (λ a, forallb (λ b, in_listb b live) (as_replicas a)) plan.

Lemma fitsb_spec plan live : fitsb plan live = true ↔ fits plan live.
Proof.
  unfold fitsb, fits. rewrite forallb_forall. split.
  - intros H a Ha%list_elem_of_In b Hb%list_elem_of_In. specialize (H a Ha). rewrite forallb_forall in H. specialize (H b Hb). by apply bool_decide_eq_true in H.
  - intros H a Ha%list_elem_of_In. apply forallb_forall. intros b Hb%list_elem_of_In. apply bool_decide_eq_true. by apply (H a).
Qed.

Definition demo (up : list Z) (w : list Topic * list assignment * nat) (c : command) : completed * (list Topic * list assignment * nat) :=
  let '(topics, plan, n) := w in
  let answer s := {| returncode := 0; stdout := s |} in
  match c with
  | BrokerIds => (answer (lines_text ["Connecting to zookeeper:2181"; ""; "WATCHER::"; show_ints up]), w)
  | Describe => (answer (describe headers topics), w)
  | Stage plan => (answer "", (topics, plan, n))
  | Execute =>
      if fitsb plan up then (answer "Successfully started partition reassignments", (topics, plan, 2%nat))
      else ({| returncode := 1; stdout := "" |}, w)
  | VerifyPlan =>
      match n with
      | O => (answer "Reassignment is complete.", (map (reassigned plan) topics, plan, O))
      | S n => (answer "Reassignment of partition orders-0 is still in progress.", (topics, plan, n))
      end
  end.

#[export] Instance demo_cluster up : Cluster (demo up) headers.
Proof.
  refine {| topics_of w := w.1.1; live_of w := up; staged_of w := w.1.2; questions_of w := w.2; future_of w := map (reassigned w.1.2) w.1.1 |}.
  - intros [[topics plan] n]. eexists _, ["Connecting to zookeeper:2181"; ""; "WATCHER::"], up. split_and!; [reflexivity..|].
    repeat constructor; by apply lacks_literal.
  - intros [[topics plan] n]. by eexists.
  - intros [[topics old] n] plan. by eexists _, (topics, plan, n).
  - intros [[topics plan] n] Hfits%fitsb_spec. cbn [fst snd] in Hfits. eexists _, (topics, plan, 2%nat). cbn [demo]. rewrite Hfits. split_and!; [reflexivity..|cbn; lia|]. cbn [fst snd].
    apply Forall2_fmap_r, Forall_Forall2_diag, Forall_forall. intros t _. change (carried_out plan t (reassigned plan t)).
    split_and!; [done..|]. by rewrite reassigned_keys.
  - intros [[topics plan] n]. cbn [fst snd demo]. rewrite <-fitsb_spec. destruct (fitsb plan up); [by intros []|]. intros _. by eexists _, _.
  - intros [[topics plan] [|n]]; cbn [fst snd].
    + by eexists _, (map (reassigned plan) topics, plan, O).
    + exists {| returncode := 0; stdout := "Reassignment of partition orders-0 is still in progress." |}, (topics, plan, n).
      split_and!; [reflexivity..|done|]. by intros m [= <-].
  - intros t. split_and!; [|apply NoDup_singleton|by_compute|by_compute].
    intros f ->%list_elem_of_singleton. apply fits_plain; [by apply lacks_literal|apply dec_no_space].
Defined.

(** With brokers 1, 2 and 3 up the topic is repaired; with 1, 2 and 4 it is not. *)
Lemma fix_repairs_the_cluster_witness :
  (∃ w', main (demo [3; 1; 2]) true ([synced_topic], [], 0%nat) = (inr 0, w') ∧
    find_under_replicated (topics_of (demo [3; 1; 2]) headers w') TARGET_REPLICATION_FACTOR = []) ∧
  ∃ w', main (demo [1; 2; 4]) true ([synced_topic], [], 0%nat) = (inl (Fatal ToolFailed), w').
Proof.
  split.
  - destruct (fix_repairs_the_cluster (demo [3; 1; 2]) headers ([synced_topic], [], 0%nat)) as [Hfix _]; [|destruct Hfix as (w' & E & _ & H & _); [by_compute|by exists w']].
    split; [by_compute|..]; intros t ->%list_elem_of_singleton; [by apply lacks_literal|by_compute|done|done].
  - destruct (fix_repairs_the_cluster (demo [1; 2; 4]) headers ([synced_topic], [], 0%nat)) as (_ & _ & Hrej); [|apply Hrej; [by_compute|by_compute|done]].
    split; [by_compute|..]; intros t ->%list_elem_of_singleton; [by apply lacks_literal|by_compute|done|done].
Defined.

(** Two brokers are not enough to plan on, and nothing is asked after that. *)
Example two_brokers_are_refused :
  (main (λ (w : list command) c, ({| returncode := 0; stdout := lines_text ["[1, 2]"] |}, w ++ [c])) true []) =
  (inl (Fatal (TooFewBrokers 2)), [BrokerIds]).
Proof. vm_compute. reflexivity. Qed.
End FixReplication.
