(* ===== verification/CheckRedis.v ===== *)
(** * Checking Redis and its sentinels

    scripts/check_redis.py over whatever redis-cli and docker answer.  What is
    printed, beyond the failures, is left out. *)

From Stdlib Require Import Ascii.
From S2P Require Import Prelude PyValue PyJson PyText TextLines RedisTopology.
Import PyJson PyText TextLines.

Module CheckRedis.
Import RedisTopology.

Definition NODES : list string := ["ecommerce-platform-redis-1"; "ecommerce-platform-redis-replica-1"].
Definition SENTINELS : list string := map (λ n, "ecommerce-platform-redis-sentinel-" +:+ dec n +:+ "-1") [1; 2; 3].
Definition MASTER_NAME : string := "mymaster".

Inductive command :=
| RedisCli (container : string) (args : list string) (port : Z)
| ContainerIp (container : string).

Section script.
(** What a command answers, and in which order a set of texts is walked. *)
Context {W : Type} (exec : W → command → completed * W) (set_order : list string → list string).

Definition redis_cli (container : string) (args : list string) (port : Z) (w : W) : string * W :=
  let (r, w) := exec w (RedisCli container args port) in (if succeeded r then stdout r else "", w).

Definition container_ip (container : string) (w : W) : string * W :=
  let (r, w) := exec w (ContainerIp container) in (strip (stdout r), w).

Definition count (x : string) (l : list string) : nat := length (List.filter (λ y, y =?s x) l).

(** [max(xs, key=key)]: the first of the greatest; [max([])] is not reached. *)
Definition max_by (key : string → nat) (xs : list string) : string :=
  match xs with
  | [] => ""
  | x :: xs => foldl (λ best y, if (key best <? key y)%nat then y else best) x xs
  end.

Definition ask_sentinel (acc : list string * W) (name : string) : list string * W :=
  let (answers, w) := acc in
  let (output, w) := redis_cli name ["sentinel"; "get-master-addr-by-name"; MASTER_NAME] 26379 w in
  match List.filter (λ l, negb (is_empty l)) (map strip (splitlines output)) with
  | line :: _ => (answers ++ [line], w)
  | [] => (answers, w)
  end.

Definition most_common (answers : list string) : string :=
  max_by (λ a, count a answers) (set_order (remove_dups answers)).

Definition primary_address (w : W) : string * W :=
  let (answers, w) := foldl ask_sentinel ([], w) SENTINELS in
  (if bool_decide (length answers = 0%nat) then "" else most_common answers, w).

Definition declared (k : nat) : string := default "" (NODES !! k).

(** The primary, the replica, and the address: [names] are the nodes still to
    be compared. *)
Fixpoint identify (address : string) (names : list string) (w : W) : (string * string * string) * W :=
  match names with
  | [] => ((declared 0, declared 1, address), w)
  | name :: names =>
      let (ip, w) := container_ip name w in
      if is_empty ip then identify address names w
      else
        let (ip, w) := container_ip name w in
        if ip =?s address then ((name, default "" (head (List.filter (λ n, negb (n =?s name)) NODES)), address), w)
        else identify address names w
  end.

Definition identify_nodes (w : W) : (string * string * string) * W :=
  let (address, w) := primary_address w in identify address NODES w.

Definition poll_sentinel (acc : Z * W) (name : string) : Z * W :=
  let (reachable, w) := acc in
  let (output, w) := redis_cli name ["sentinel"; "master"; MASTER_NAME] 26379 w in
  (if is_empty (strip output) then reachable else reachable + 1, w).

(** The details of the decisions that failed; the script exits 0 when there are
    none. *)
Definition main (w : W) : list string * W :=
  let '((primary, replica, address), w) := identify_nodes w in
  let (text, w) := redis_cli primary ["info"; "replication"] 6379 w in
  let primary_info := parse_info_replication text in
  let (text, w) := redis_cli replica ["info"; "replication"] 6379 w in
  let replica_info := parse_info_replication text in
  let decision := check_replication primary_info replica_info in
  let failures := if ok decision then [] else [detail decision] in
  let (reachable, w) := foldl poll_sentinel (0, w) SENTINELS in
  let decision := check_sentinel_quorum (Z.of_nat (length SENTINELS)) DEFAULT_QUORUM reachable in
  (failures ++ if ok decision then [] else [detail decision], w).
End script.

(** ** Whose health is reported *)

Lemma max_by_greatest key a xs : NoDup xs → a ∈ xs → (∀ x, x ∈ xs → x ≠ a → (key x < key a)%nat) → max_by key xs = a.
Proof.
  assert (Hkeep : ∀ xs, (∀ x, x ∈ xs → x ≠ a → (key x < key a)%nat) → foldl (λ best y, if (key best <? key y)%nat then y else best) a xs = a).
  { intros ys. induction ys as [|y ys IH]; intros H; [done|]. cbn [foldl]. destruct (Nat.ltb_spec (key a) (key y)) as [Hlt|_].
    - destruct (decide (y = a)) as [->|Hne]; [lia|]. pose proof (H y (list_elem_of_here _ _) Hne). lia.
    - apply IH. intros x Hx. apply H. by right. }
  assert (Hfind : ∀ ys b, NoDup ys → a ∈ ys → (key b < key a)%nat → (∀ x, x ∈ ys → x ≠ a → (key x < key a)%nat) →
    foldl (λ best y, if (key best <? key y)%nat then y else best) b ys = a).
  { intros ys. induction ys as [|y ys IH]; intros b Hn Ha Hb H; [by apply not_elem_of_nil in Ha|]. apply NoDup_cons in Hn as [Hy Hn].
    cbn [foldl]. destruct (decide (y = a)) as [->|Hne].
    - rewrite (proj2 (Nat.ltb_lt _ _)) by done. apply Hkeep. intros x Hx. apply H. by right.
    - apply elem_of_cons in Ha as [->|Ha]; [done|]. apply IH; [done|done| |intros x Hx; apply H; by right].
      destruct (Nat.ltb (key b) (key y)); [|done]. apply H; [by left|done]. }
  destruct xs as [|x xs]; intros Hn Ha H; [by apply not_elem_of_nil in Ha|]. apply NoDup_cons in Hn as [Hx Hn]. cbn [max_by].
  destruct (decide (x = a)) as [->|Hne]; [apply Hkeep; intros y Hy; apply H; by right|].
  apply elem_of_cons in Ha as [->|Ha]; [done|]. apply Hfind; [done|done|apply H; [by left|done]|intros y Hy; apply H; by right].
Qed.

Lemma count_apart a b l : a ≠ b → (count a l + count b l ≤ length l)%nat.
Proof.
  intros Hne. unfold count. induction l as [|x l IH]; [done|]. cbn [List.filter length].
  repeat case_bool_decide; cbn [length]; (congruence || lia).
Qed.

(** A majority decides, in whatever order the set is walked. *)
Lemma majority_decides set_order a answers :
  (∀ l, set_order l ≡ₚ l) → (length answers < 2 * count a answers)%nat → most_common set_order answers = a.
Proof.
  intros Ho Hm. apply max_by_greatest.
  - rewrite Ho. apply NoDup_remove_dups.
  - rewrite Ho, elem_of_remove_dups. destruct (decide (a ∈ answers)) as [|Hn]; [done|]. exfalso. unfold count in Hm.
    rewrite filter_none in Hm; [cbn in Hm; lia|]. intros x Hx. apply bool_decide_eq_false. by intros ->.
  - intros x _ Hne. pose proof (count_apart a x answers (not_eq_sym Hne)). lia.
Qed.

Section report.
Context (answer : command → completed) (set_order : list string → list string).

(** While nothing changes, a command has one answer. *)
Notation fixed := (λ (w : ()) c, (answer c, w)).

Definition cli (container : string) (args : list string) (port : Z) : string :=
  let r := answer (RedisCli container args port) in if succeeded r then stdout r else "".

Definition ip (container : string) : string := strip (stdout (answer (ContainerIp container))).

(** The address a sentinel gives, if it gives one. *)
Definition named (sentinel : string) : option string :=
  head (List.filter (λ l, negb (is_empty l)) (map strip (splitlines (cli sentinel ["sentinel"; "get-master-addr-by-name"; MASTER_NAME] 26379)))).

Definition info_of (node : string) : info := parse_info_replication (cli node ["info"; "replication"] 6379).

Definition answered (sentinel : string) : bool := negb (is_empty (strip (cli sentinel ["sentinel"; "master"; MASTER_NAME] 26379))).

Lemma asked l acc : foldl (ask_sentinel fixed) (acc, ()) l = (acc ++ omap named l, ()).
Proof.
  revert acc. induction l as [|n l IH]; intros acc; [by rewrite app_nil_r|]. cbn [foldl omap list_omap]. unfold ask_sentinel at 2, redis_cli, named.
  fold (cli n ["sentinel"; "get-master-addr-by-name"; MASTER_NAME] 26379). destruct (List.filter _ _) as [|a ls]; cbn [head]; [apply IH|].
  rewrite IH, <-app_assoc. done.
Qed.

Lemma polled l k : foldl (poll_sentinel fixed) (k, ()) l = (k + Z.of_nat (length (List.filter answered l)), ()).
Proof.
  revert k. induction l as [|n l IH]; intros k; [by rewrite Z.add_0_r|]. cbn [foldl List.filter]. unfold poll_sentinel at 2, redis_cli, answered at 1.
  fold (cli n ["sentinel"; "master"; MASTER_NAME] 26379). destruct (is_empty _); rewrite IH; cbn [negb length]; f_equal; lia.
Qed.

(** check_redis.py judges the node the sentinels promoted, not the one named
    first: when two of the three sentinels name the address of a node, the report
    has no failures exactly when that node is a primary to which the other node is
    linked as a replica, by their own [INFO], and two sentinels answer; neither the
    order of the containers nor that of the set of answers matters. *)
Theorem report_is_about_the_promoted_node p r :
  (∀ l, set_order l ≡ₚ l) → (p, r) ∈ [(declared 0, declared 1); (declared 1, declared 0)] →
  ip p ≠ "" → ip p ≠ ip r → (2 ≤ count (ip p) (omap named SENTINELS))%nat →
  (main fixed set_order ()).1 = [] ↔
  ok (check_replication (info_of p) (info_of r)) = true ∧ (2 ≤ length (List.filter answered SENTINELS))%nat.
Proof.
  intros Ho Hpr Hp Hne Hc.
  assert (Hlen : (length (omap named SENTINELS) ≤ 3)%nat).
  { change 3%nat with (length SENTINELS). generalize SENTINELS. induction l as [|n l IH]; [done|]. cbn [omap list_omap]. destruct (named n); cbn [length]; lia. }
  assert (Ea : primary_address fixed set_order () = (ip p, ())).
  { unfold primary_address. rewrite asked. cbn [app]. rewrite majority_decides with (a := ip p) by (done || lia).
    rewrite bool_decide_false; [done|]. intros E%nil_length_inv. rewrite E in Hc. vm_compute in Hc. lia. }
  assert (Ei : identify_nodes fixed set_order () = ((p, r, ip p), ())).
  { unfold identify_nodes. rewrite Ea. assert (Hpe : is_empty (ip p) = false) by by apply bool_decide_eq_false.
    assert (Hip : ∀ n, container_ip fixed n () = (ip n, ())) by done. change NODES with [declared 0; declared 1]. cbn [identify].
    rewrite !Hip. clear -Hpr Hpe Hne. elem_cases Hpr.
    - rewrite Hpe, bool_decide_true by done. done.
    - rewrite Hpe, bool_decide_true, bool_decide_false by done. by destruct (is_empty (ip (declared 0))). }
  unfold main. rewrite Ei. cbn [fst snd]. unfold redis_cli. fold (cli p ["info"; "replication"] 6379) (cli r ["info"; "replication"] 6379).
  fold (info_of p) (info_of r). rewrite polled. cbn [fst].
  change (Z.of_nat (length SENTINELS)) with 3. destruct (ok (check_replication _ _)).
  - cbn [app]. pose proof (quorum_check_exact_for_three (0 + Z.of_nat (length (List.filter answered SENTINELS)))) as Hq.
    unfold can_fail_over, DEFAULT_QUORUM in *. destruct (ok (check_sentinel_quorum _ _ _)).
    + split; [|done]. intros _. split; [done|]. apply proj1 in Hq. specialize (Hq eq_refl). lia.
    + split; [done|]. intros [_ H]. apply proj2 in Hq. discriminate Hq. change (3 `div` 2) with 1. lia.
  - split; [done|]. by intros [? _].
Qed.
End report.

(** *** On examples *)

(** After a failover: the second node leads. *)
Definition after_failover (c : command) : completed :=
  {| returncode := 0;
     stdout := match c with
       | ContainerIp n => if n =?s declared 0 then "172.18.0.4" else "172.18.0.5"
       | RedisCli n ("info" :: _) _ => if n =?s declared 1 then info_text primary_fields else info_text replica_fields
       | RedisCli n ["sentinel"; "master"; _] _ => "name"
       | RedisCli n _ _ => if n =?s "ecommerce-platform-redis-sentinel-1-1" then "172.18.0.4" else "172.18.0.5"
       end |}.

Lemma report_is_about_the_promoted_node_witness : (main (λ (w : ()) c, (after_failover c, w)) id ()).1 = [].
Proof.
  apply (report_is_about_the_promoted_node after_failover id (declared 1) (declared 0)); [done|by right; left|done|done|vm_compute; lia|].
  split; [vm_compute; reflexivity|vm_compute; lia].
Defined.

(** With one sentinel down and the other two apart, the set's order decides. *)
Definition mid_failover (c : command) : completed :=
  match c with
  | RedisCli "ecommerce-platform-redis-sentinel-3-1" _ _ => {| returncode := 1; stdout := "" |}
  | _ => after_failover c
  end.

Example a_tie_depends_on_the_order :
  (primary_address (λ (w : ()) c, (mid_failover c, w)) id ()).1 = "172.18.0.4" ∧
  (primary_address (λ (w : ()) c, (mid_failover c, w)) reverse ()).1 = "172.18.0.5".
Proof. split; vm_compute; reflexivity. Qed.
End CheckRedis.
