(* ===== verification/Routing.v ===== *)
(** * Routes and the checks of endpoints

    What the services' app/routes share: which declared route a request is for,
    and the checks an endpoint makes before it calls its handler.  The framework
    is an argument where a theorem is about it.  Request bodies arrive
    validated. *)

From S2P Require Import Prelude PyValue Session.

(** ** Paths *)

Module Routing.

(** A part of a declared path: itself, a parameter of type [uuid.UUID], or one
    of type [str]. *)
Inductive segment := Lit (s : string) | Uuid (name : string) | Text (name : string).

Record route := { verb : string; pattern : list segment; endpoint : string }.

(** Whether a part of a path has the shape of a declared one; the type of a
    parameter is only looked at once the route is chosen. *)
Definition shape (p : segment) (s : string) : bool :=
  match p with Lit l => l =?s s | _ => negb (is_empty s) end.

Fixpoint fits (ps : list segment) (path : list string) : bool :=
  match ps, path with
  | [], [] => true
  | p :: ps, s :: path => shape p s && fits ps path
  | _, _ => false
  end.

(** The route a request is for: the first declared whose verb and path fit. *)
Definition first_declared (rs : list route) (v : string) (path : list string) : option route :=
  List.find (λ r, (verb r =?s v) && fits (pattern r) path) rs.

(** A path meant for a route: its own words, and proper values for parameters. *)
Definition value_for (p : segment) (s : string) : Prop :=
  match p with Lit l => s = l | Uuid _ => is_Some (UUID s) | Text _ => s ≠ "" end.

(** No path meant for the second part has the shape of the first. *)
Definition apart (p q : segment) : bool :=
  match p, q with
  | Lit a, Lit b => negb (a =?s b)
  | Lit a, Uuid _ => bool_decide (UUID a = None)
  | _, _ => false
  end.

Fixpoint never_both (ps qs : list segment) : bool :=
  match ps, qs with
  | [], [] => false
  | p :: ps, q :: qs => apart p q || never_both ps qs
  | _, _ => true
  end.

(** No route is hidden by one declared before it. *)
Fixpoint unhidden (rs : list route) : bool :=
  match rs with
  | [] => true
  | r :: rs => forallb (λ q, negb (verb r =?s verb q) || never_both (pattern r) (pattern q)) rs && unhidden rs
  end.

Lemma value_shape p s : value_for p s → shape p s = true.
Proof.
  destruct p; cbn.
  - intros ->. by apply bool_decide_eq_true.
  - intros [u Hu]. unfold is_empty. apply negb_true_iff, bool_decide_eq_false. by intros ->.
  - intros H. unfold is_empty. by apply negb_true_iff, bool_decide_eq_false.
Qed.

Lemma values_fit ps path : Forall2 value_for ps path → fits ps path = true.
Proof. induction 1 as [|p s ps path H _ IH]; [done|]. cbn. by rewrite value_shape. Qed.

Lemma apart_shape p q s : apart p q = true → value_for q s → shape p s = false.
Proof.
  destruct p as [a| |], q as [b| |]; cbn; try done.
  - intros H ->. apply negb_true_iff in H. done.
  - intros H%bool_decide_eq_true [u Hu]. apply bool_decide_eq_false. intros ->. congruence.
Qed.

Lemma never_both_fits ps qs path : never_both ps qs = true → Forall2 value_for qs path → fits ps path = false.
Proof.
  intros H Hv. revert ps H. induction Hv as [|q s qs path Hq _ IH]; intros [|p ps] H; try done.
  cbn [never_both fits] in *. apply orb_true_iff in H as [H|H].
  - by rewrite (apart_shape _ _ _ H Hq).
  - rewrite IH by done. apply andb_false_r.
Qed.

Lemma unhidden_found rs r path :
  unhidden rs = true → r ∈ rs → Forall2 value_for (pattern r) path → first_declared rs (verb r) path = Some r.
Proof.
  unfold first_declared. induction rs as [|r0 rs IH]; intros H Hr Hp; [by apply not_elem_of_nil in Hr|].
  cbn [unhidden] in H. apply andb_true_iff in H as [H0 H]. cbn [List.find]. apply elem_of_cons in Hr as [->|Hr].
  - by rewrite bool_decide_true, values_fit.
  - rewrite forallb_forall in H0. apply list_elem_of_In in Hr as Hin. apply H0 in Hin. apply orb_true_iff in Hin as [Hv|Hv].
    + apply negb_true_iff in Hv. rewrite Hv. by apply IH.
    + rewrite (never_both_fits _ _ _ Hv Hp), andb_false_r. by apply IH.
Qed.
End Routing.
Import Routing.

(** ** The checks endpoints share *)

Section checks.
Context {D : Type}.

(** [Header(..., alias="Idempotency-Key")], and the test of each endpoint. *)
Definition with_key {A} (header : option string) (k : string → M D A) : M D A :=
  match header with
  | None => raise (Http 422 "Field required")
  | Some key => if is_empty key then raise (Http 400 "Idempotency-Key header is required") else k key
  end.

(** A path parameter of type [uuid.UUID]. *)
Definition with_uuid {A} (parse : string → option string) (text : string) (k : string → M D A) : M D A :=
  match parse text with Some u => k u | None => raise (Http 422 "Input should be a valid UUID") end.

(** A number given to [LIMIT]; the database refuses a negative one. *)
Definition with_limit {A} (limit : Z) (k : nat → M D A) : M D A :=
  if limit <? 0 then raise (Raised "LIMIT must not be negative") else k (Z.to_nat limit).

Lemma uncommitting_key {A} header (k : string → M D A) : (∀ key, uncommitting (k key)) → uncommitting (with_key header k).
Proof. intros H. unfold with_key. destruct header as [key|]; [destruct (is_empty key)|]; auto using uncommitting_raise. Qed.

Lemma uncommitting_uuid {A} parse text (k : string → M D A) : (∀ u, uncommitting (k u)) → uncommitting (with_uuid parse text k).
Proof. intros H. unfold with_uuid. destruct (parse text); auto using uncommitting_raise. Qed.

Lemma run_key {A} header (k : string → M D A) d :
  (run (with_key header k) d).1 = d ∨ ∃ key, header = Some key ∧ key ≠ "" ∧ run (with_key header k) d = run (k key) d.
Proof.
  unfold with_key. destruct header as [key|]; [|by left]. unfold is_empty. case_bool_decide as E; [by left|]. right. by exists key.
Qed.

Lemma run_uuid {A} parse text (k : string → M D A) d :
  (run (with_uuid parse text k) d).1 = d ∨ ∃ u, parse text = Some u ∧ run (with_uuid parse text k) d = run (k u) d.
Proof. unfold with_uuid. destruct (parse text) as [u|]; [right; by exists u|by left]. Qed.
End checks.
