(* ===== verification/SellerRoutes.v ===== *)
(** * The HTTP surface of seller-service

    app/routes/sellers.py: every endpoint, and the proof that what they do is
    what [SellerService.serve] says.  [parse] is what the framework makes of a
    path parameter declared as a UUID. *)

From S2P Require Import Prelude PyValue Session Routing SellerRules SellerService.
Import Routing.

Module SellerRoutes.
Import SellerRules SellerService.

Section endpoints.
Context (parse : string → option string) (uuid4 : nat → string) (fault : db → option string).

Definition register_endpoint (request : SellerRegisterRequest) (idempotency_key : option string) (now : Z) : M db SellerResponse :=
  with_key idempotency_key (λ key, register_seller uuid4 fault request key now).

(** [Query(50, ge=1, le=200)] *)
Definition list_endpoint (status : option string) (limit : Z) : M db (list SellerResponse) :=
  if (1 <=? limit) && (limit <=? 200) then list_sellers status (Z.to_nat limit) else raise (Http 422 "limit").

Definition get_endpoint (seller_id : string) : M db SellerResponse := with_uuid parse seller_id get_seller.
Definition permission_endpoint (seller_id : string) : M db (list (string * json)) := with_uuid parse seller_id get_permission.
Definition documents_endpoint (seller_id : string) (request : list DocumentRef) (now : Z) : M db SellerResponse :=
  with_uuid parse seller_id (λ u, submit_documents fault u request now).
Definition start_review_endpoint (seller_id : string) (now : Z) : M db SellerResponse :=
  with_uuid parse seller_id (λ u, start_review fault u now).
Definition review_result_endpoint (seller_id : string) (approved : bool) (reason : option string) (now : Z) : M db SellerResponse :=
  with_uuid parse seller_id (λ u, record_review_result fault u approved reason now).
Definition contract_endpoint (seller_id : string) (version now : Z) : M db SellerResponse :=
  with_uuid parse seller_id (λ u, accept_contract fault u version now).
Definition suspend_endpoint (seller_id reason : string) (now : Z) : M db SellerResponse :=
  with_uuid parse seller_id (λ u, suspend_seller fault u reason now).
Definition reinstate_endpoint (seller_id : string) (now : Z) : M db SellerResponse :=
  with_uuid parse seller_id (λ u, reinstate_seller fault u now).
Definition ban_endpoint (seller_id reason : string) (now : Z) : M db SellerResponse :=
  with_uuid parse seller_id (λ u, ban_seller fault u reason now).
Definition update_location (seller_id : string) (request : SellerLocationRequest) (now : Z) : M db SellerResponse :=
  with_uuid parse seller_id (λ u, set_location fault u request now).
Definition commission_endpoint (seller_id : string) : M db (list (string * json)) := with_uuid parse seller_id get_commission.
End endpoints.

Definition router : list route :=
  let id := Uuid "seller_id" in
  [{| verb := "POST"; pattern := []; endpoint := "register_endpoint" |};
   {| verb := "GET"; pattern := []; endpoint := "list_endpoint" |};
   {| verb := "GET"; pattern := [id]; endpoint := "get_endpoint" |};
   {| verb := "GET"; pattern := [id; Lit "permission"]; endpoint := "permission_endpoint" |};
   {| verb := "POST"; pattern := [id; Lit "documents"]; endpoint := "documents_endpoint" |};
   {| verb := "POST"; pattern := [id; Lit "review"]; endpoint := "start_review_endpoint" |};
   {| verb := "POST"; pattern := [id; Lit "review"; Lit "result"]; endpoint := "review_result_endpoint" |};
   {| verb := "POST"; pattern := [id; Lit "contract"]; endpoint := "contract_endpoint" |};
   {| verb := "POST"; pattern := [id; Lit "suspend"]; endpoint := "suspend_endpoint" |};
   {| verb := "POST"; pattern := [id; Lit "reinstate"]; endpoint := "reinstate_endpoint" |};
   {| verb := "POST"; pattern := [id; Lit "ban"]; endpoint := "ban_endpoint" |};
   {| verb := "PATCH"; pattern := [id; Lit "location"]; endpoint := "update_location" |};
   {| verb := "GET"; pattern := [id; Lit "commission"]; endpoint := "commission_endpoint" |}].

(** What a client can send. *)
Inductive call :=
| Register_ (request : SellerRegisterRequest) (idempotency_key : option string)
| List_ (status : option string) (limit : Z)
| Get_ (seller_id : string)
| Permission_ (seller_id : string)
| Documents_ (seller_id : string) (request : list DocumentRef)
| StartReview_ (seller_id : string)
| ReviewResult_ (seller_id : string) (approved : bool) (reason : option string)
| Contract_ (seller_id : string) (version : Z)
| Suspend_ (seller_id reason : string)
| Reinstate_ (seller_id : string)
| Ban_ (seller_id reason : string)
| Location_ (seller_id : string) (request : SellerLocationRequest)
| Commission_ (seller_id : string).

(** The database after a call. *)
Definition after_call (parse : string → option string) (uuid4 : nat → string) (fault : db → option string) (now : Z) (c : call) (d : db) : db :=
  match c with
  | Register_ request key => (run (register_endpoint uuid4 fault request key now) d).1
  | List_ status limit => (run (list_endpoint status limit) d).1
  | Get_ id => (run (get_endpoint parse id) d).1
  | Permission_ id => (run (permission_endpoint parse id) d).1
  | Documents_ id request => (run (documents_endpoint parse fault id request now) d).1
  | StartReview_ id => (run (start_review_endpoint parse fault id now) d).1
  | ReviewResult_ id approved reason => (run (review_result_endpoint parse fault id approved reason now) d).1
  | Contract_ id version => (run (contract_endpoint parse fault id version now) d).1
  | Suspend_ id reason => (run (suspend_endpoint parse fault id reason now) d).1
  | Reinstate_ id => (run (reinstate_endpoint parse fault id now) d).1
  | Ban_ id reason => (run (ban_endpoint parse fault id reason now) d).1
  | Location_ id request => (run (update_location parse fault id request now) d).1
  | Commission_ id => (run (commission_endpoint parse id) d).1
  end.

Lemma load_reads id : uncommitting (_load id).
Proof. unfold _load. monadic. Qed.

Lemma reads_keep d : (∀ id, (run (get_seller id) d).1 = d) ∧ (∀ id, (run (get_permission id) d).1 = d) ∧
  (∀ id, (run (get_commission id) d).1 = d) ∧ ∀ st n, (run (list_sellers st n) d).1 = d.
Proof.
  split_and!; intros; apply run_uncommitting.
  - unfold get_seller, _document_types. apply uncommitting_bind; [apply load_reads|]. intros s. monadic.
  - unfold get_permission. apply uncommitting_bind; [apply load_reads|]. intros s. monadic.
  - unfold get_commission. apply uncommitting_bind; [apply load_reads|]. intros s. case_match; monadic.
  - unfold list_sellers. destruct st; [destruct (_ && _)|]; monadic.
Qed.

(** Over HTTP the service does what [serve] says, or nothing: what holds of
    every history of [seller_step] holds of every history of calls. *)
Theorem calls_are_served parse uuid4 fault now c d :
  after_call parse uuid4 fault now c d = d ∨ seller_step uuid4 d (after_call parse uuid4 fault now c d).
Proof.
  assert (Hu : ∀ text (k : string → M db SellerResponse) (q : string → request), (∀ u, k u = serve uuid4 fault now (q u)) →
    (run (with_uuid parse text k) d).1 = d ∨ seller_step uuid4 d (run (with_uuid parse text k) d).1).
  { intros text k q Hk. destruct (run_uuid parse text k d) as [E|(u & _ & ->)]; [by left|]. right. rewrite Hk. constructor. }
  destruct (reads_keep d) as (H1 & H2 & H3 & H4).
  destruct c as [r key|st n|id|id|id docs|id|id ap why|id v|id why|id|id why|id place|id]; cbn [after_call].
  - destruct (run_key key (λ key, register_seller uuid4 fault r key now) d) as [E|(k & _ & _ & E)]; unfold register_endpoint; [by left|].
    rewrite E. right. exact (seller_request uuid4 d fault now (Register r k)).
  - left. unfold list_endpoint. destruct (_ && _); [apply H4|done].
  - left. unfold get_endpoint. destruct (run_uuid parse id get_seller d) as [E|(u & _ & ->)]; auto.
  - left. unfold permission_endpoint. destruct (run_uuid parse id get_permission d) as [E|(u & _ & ->)]; auto.
  - by apply Hu with (λ u, Submit u docs).
  - by apply Hu with Start.
  - by apply Hu with (λ u, Verdict u ap why).
  - by apply Hu with (λ u, Accept u v).
  - by apply Hu with (λ u, SuspendSeller u why).
  - by apply Hu with ReinstateSeller.
  - by apply Hu with (λ u, BanSeller u why).
  - by apply Hu with (λ u, Relocate u place).
  - left. unfold commission_endpoint. destruct (run_uuid parse id get_commission d) as [E|(u & _ & ->)]; auto.
Qed.
End SellerRoutes.
