(* ===== verification/MediaRoutes.v ===== *)
(** * The HTTP surface of media-service

    app/routes/media.py: every endpoint, and the proof that what they do is what
    [MediaService.serve] says. *)

From S2P Require Import Prelude PyValue Session Routing MediaRules MediaService.
Import Routing.

Module MediaRoutes.
Import MediaRules MediaService.

Section endpoints.
Context (parse : string → option string) (uuid4 : nat → string) (sign : string → string → string) (host bucket : string).
Context (fault : db → option string).

Definition register_endpoint (request : MediaRegisterRequest) (idempotency_key : option string) (now : Z) : M db MediaResponse :=
  with_key idempotency_key (λ key, register_media uuid4 fault request key now).
Definition get_endpoint (media_id : string) : M db MediaResponse := with_uuid parse media_id get_media.
Definition location_endpoint (media_id : string) : M db (string * string) := with_uuid parse media_id (get_location host bucket).
Definition start_scan_endpoint (media_id : string) (now : Z) : M db MediaResponse := with_uuid parse media_id (λ u, start_scan fault u now).
Definition scan_result_endpoint (media_id : string) (infected : bool) (detail : option string) (now : Z) : M db MediaResponse :=
  with_uuid parse media_id (λ u, record_scan_result fault u infected detail now).
Definition delete_endpoint (media_id : string) (now : Z) : M db MediaResponse := with_uuid parse media_id (λ u, delete_media fault u now).
Definition upload_url_endpoint (media_id : string) (now : Z) : M db Upload := with_uuid parse media_id (λ u, get_upload_url sign fault u now).
End endpoints.

Definition router : list route :=
  let id := Uuid "media_id" in
  [{| verb := "POST"; pattern := []; endpoint := "register_endpoint" |};
   {| verb := "GET"; pattern := [id]; endpoint := "get_endpoint" |};
   {| verb := "GET"; pattern := [id; Lit "location"]; endpoint := "location_endpoint" |};
   {| verb := "POST"; pattern := [id; Lit "scan"]; endpoint := "start_scan_endpoint" |};
   {| verb := "POST"; pattern := [id; Lit "scan"; Lit "result"]; endpoint := "scan_result_endpoint" |};
   {| verb := "DELETE"; pattern := [id]; endpoint := "delete_endpoint" |};
   {| verb := "POST"; pattern := [id; Lit "upload-url"]; endpoint := "upload_url_endpoint" |}].

Inductive call :=
| Register_ (request : MediaRegisterRequest) (idempotency_key : option string)
| Get_ (media_id : string)
| Location_ (media_id : string)
| StartScan_ (media_id : string)
| ScanResult_ (media_id : string) (infected : bool) (detail : option string)
| Delete_ (media_id : string)
| UploadUrl_ (media_id : string).

Definition after_call (parse : string → option string) (uuid4 : nat → string) (sign : string → string → string) (host bucket : string)
    (fault : db → option string) (now : Z) (c : call) (d : db) : db :=
  match c with
  | Register_ request key => (run (register_endpoint uuid4 fault request key now) d).1
  | Get_ id => (run (get_endpoint parse id) d).1
  | Location_ id => (run (location_endpoint parse host bucket id) d).1
  | StartScan_ id => (run (start_scan_endpoint parse fault id now) d).1
  | ScanResult_ id infected why => (run (scan_result_endpoint parse fault id infected why now) d).1
  | Delete_ id => (run (delete_endpoint parse fault id now) d).1
  | UploadUrl_ id => (run (upload_url_endpoint parse sign fault id now) d).1
  end.

Lemma media_reads_keep host bucket d : (∀ id, (run (get_media id) d).1 = d) ∧ ∀ id, (run (get_location host bucket id) d).1 = d.
Proof.
  assert (Hl : ∀ id, uncommitting (_load id)) by (intros id; unfold _load; monadic).
  split; intros id; apply run_uncommitting.
  - unfold get_media. apply uncommitting_bind; [apply Hl|]. intros a. monadic.
  - unfold get_location. apply uncommitting_bind; [apply Hl|]. intros a. repeat case_match; monadic.
Qed.

(** As [SellerRoutes.calls_are_served], for [MediaService.media_step]. *)
Theorem media_calls_are_served parse uuid4 sign host bucket fault now c d :
  let d' := after_call parse uuid4 sign host bucket fault now c d in d' = d ∨ media_step uuid4 sign d d'.
Proof.
  assert (Hu : ∀ A text (k : string → M db A) (q : string → request), (∀ u, (run (k u) d).1 = serve uuid4 sign fault now (q u) d) →
    (run (with_uuid parse text k) d).1 = d ∨ media_step uuid4 sign d (run (with_uuid parse text k) d).1).
  { intros A text k q Hk. destruct (run_uuid parse text k d) as [E|(u & _ & ->)]; [by left|]. right. rewrite Hk. constructor. }
  destruct (media_reads_keep host bucket d) as (H1 & H2). cbv zeta.
  destruct c as [r key|id|id|id|id infected why|id|id]; cbn [after_call].
  - destruct (run_key key (λ key, register_media uuid4 fault r key now) d) as [E|(k & _ & _ & E)]; unfold register_endpoint; [by left|].
    rewrite E. right. exact (media_request uuid4 sign d fault now (Register r k)).
  - left. unfold get_endpoint. destruct (run_uuid parse id get_media d) as [E|(u & _ & ->)]; auto.
  - left. unfold location_endpoint. destruct (run_uuid parse id (get_location host bucket) d) as [E|(u & _ & ->)]; auto.
  - by apply Hu with StartScan.
  - by apply Hu with (λ u, Verdict u infected why).
  - by apply Hu with DeleteMedia.
  - by apply Hu with UploadUrl.
Qed.
End MediaRoutes.
