(* ===== verification/OrderRoutes.v ===== *)
(** * The HTTP surface of order-saga

    app/routes/orders.py: every endpoint, and the proof that each call is a step
    of [OrderSystem.order_step] or changes nothing.  The seller-metrics endpoint
    is [SellerMetrics.seller_performance]. *)

From S2P Require Import Prelude PyValue Session Routing OrderDb SagaOrchestrator OrderReads OrderSystem.
Import Routing.

Module OrderRoutes.
Import OrderDb SagaOrchestrator OrderReads OrderSystem.

Section endpoints.
Context (parse : string → option string) (uuid4 : nat → string) (repr : json → string) (fault : OrderDb.t → option string).

Definition create_order_endpoint (request : CreateOrderRequest) (idempotency_key : option string) (now : Z) : M OrderDb.t OrderSagaState :=
  with_key idempotency_key (λ key, start_saga uuid4 repr fault request key now).

(** [order_id] is a text here: the endpoint reads it as a UUID itself. *)
Definition saga_event_endpoint (order_id event_type : string) (idempotency_key : option string) (now : Z) : M OrderDb.t OrderSagaState :=
  match idempotency_key with
  | None => raise (Http 422 "Field required")
  | Some key => process_saga_event_endpoint uuid4 fault order_id event_type key now
  end.

(** [status: str = None, limit: int = 50] *)
Definition list_seller_orders_endpoint (seller_id : string) (status : option string) (limit : option Z) : M OrderDb.t (Z * list SellerOrderView) :=
  with_uuid parse seller_id (λ u, list_seller_orders u status (default 50 limit)).
Definition get_purchase_endpoint (seller_order_id : string) : M OrderDb.t Purchase := with_uuid parse seller_order_id get_purchase.
Definition get_seller_order_endpoint (seller_order_id : string) : M OrderDb.t SellerOrderView := with_uuid parse seller_order_id get_seller_order.
Definition seller_orders_endpoint (order_id : string) : M OrderDb.t OrderBreakdown := with_uuid parse order_id get_seller_orders.

(** [SellerOrderActionRequest()] *)
Definition no_request : SellerOrderActionRequest := {| req_reason := None; req_courier_name := None; req_tracking_code := None |}.

Definition seller_order_action_endpoint (order_id seller_order_id action : string) (request : option SellerOrderActionRequest) (now : Z)
    : M OrderDb.t (list (string * json)) :=
  with_uuid parse order_id (λ o, with_uuid parse seller_order_id (λ s,
    transition_seller_order uuid4 fault o s action (Some (default no_request request)) now)).
End endpoints.

Definition router : list route :=
  [{| verb := "POST"; pattern := []; endpoint := "create_order_endpoint" |};
   {| verb := "POST"; pattern := [Text "order_id"; Lit "events"]; endpoint := "process_saga_event_endpoint" |};
   {| verb := "GET"; pattern := [Lit "seller-metrics"]; endpoint := "seller_metrics_endpoint" |};
   {| verb := "GET"; pattern := [Lit "seller-orders"]; endpoint := "list_seller_orders_endpoint" |};
   {| verb := "GET"; pattern := [Lit "seller-orders"; Uuid "seller_order_id"; Lit "purchase"]; endpoint := "get_purchase_endpoint" |};
   {| verb := "GET"; pattern := [Lit "seller-orders"; Uuid "seller_order_id"]; endpoint := "get_seller_order_endpoint" |};
   {| verb := "GET"; pattern := [Uuid "order_id"; Lit "seller-orders"]; endpoint := "seller_orders_endpoint" |};
   {| verb := "POST"; pattern := [Uuid "order_id"; Lit "seller-orders"; Uuid "seller_order_id"; Text "action"];
      endpoint := "seller_order_action_endpoint" |}].

Inductive call :=
| Create_ (request : CreateOrderRequest) (idempotency_key : option string)
| Event_ (order_id event_type : string) (idempotency_key : option string)
| List_ (seller_id : string) (status : option string) (limit : option Z)
| Purchase_ (seller_order_id : string)
| SellerOrder_ (seller_order_id : string)
| SellerOrders_ (order_id : string)
| Action_ (order_id seller_order_id action : string) (request : option SellerOrderActionRequest).

Definition after_call (parse : string → option string) (uuid4 : nat → string) (repr : json → string) (fault : OrderDb.t → option string) (now : Z)
    (c : call) (d : OrderDb.t) : OrderDb.t :=
  match c with
  | Create_ request key => (run (create_order_endpoint uuid4 repr fault request key now) d).1
  | Event_ order_id ty key => (run (saga_event_endpoint uuid4 fault order_id ty key now) d).1
  | List_ seller_id st n => (run (list_seller_orders_endpoint parse seller_id st n) d).1
  | Purchase_ id => (run (get_purchase_endpoint parse id) d).1
  | SellerOrder_ id => (run (get_seller_order_endpoint parse id) d).1
  | SellerOrders_ id => (run (seller_orders_endpoint parse id) d).1
  | Action_ o s action request => (run (seller_order_action_endpoint parse uuid4 fault o s action request now) d).1
  end.

Lemma order_reads_keep d : (∀ id st n, (run (list_seller_orders id st n) d).1 = d) ∧ (∀ id, (run (get_purchase id) d).1 = d) ∧
  (∀ id, (run (get_seller_order id) d).1 = d) ∧ ∀ id, (run (get_seller_orders id) d).1 = d.
Proof.
  split_and!; intros; apply run_uncommitting.
  - unfold list_seller_orders, _lines_for. case_match; monadic.
  - unfold get_purchase. monadic.
  - unfold get_seller_order, _lines_for. monadic.
  - unfold get_seller_orders. monadic.
Qed.

(** As [SellerRoutes.calls_are_served], for [OrderSystem.order_step]. *)
Theorem order_calls_are_served parse uuid4 repr fault now c d :
  let d' := after_call parse uuid4 repr fault now c d in d' = d ∨ order_step uuid4 repr fault d d'.
Proof.
  destruct (order_reads_keep d) as (H1 & H2 & H3 & H4). cbv zeta.
  destruct c as [r key|o ty key|id st n|id|id|id|o s action r]; cbn [after_call].
  - unfold create_order_endpoint. destruct (run_key key (λ key, start_saga uuid4 repr fault r key now) d) as [E|(k & _ & _ & E)]; [by left|].
    rewrite E. right. constructor.
  - unfold saga_event_endpoint, process_saga_event_endpoint. destruct key as [key|]; [|by left]. destruct (is_empty key); [by left|].
    destruct (UUID o); [right; constructor|by left].
  - left. unfold list_seller_orders_endpoint. destruct (run_uuid parse id (λ u, list_seller_orders u st (default 50 n)) d) as [E|(u & _ & ->)]; auto.
  - left. unfold get_purchase_endpoint. destruct (run_uuid parse id get_purchase d) as [E|(u & _ & ->)]; auto.
  - left. unfold get_seller_order_endpoint. destruct (run_uuid parse id get_seller_order d) as [E|(u & _ & ->)]; auto.
  - left. unfold seller_orders_endpoint. destruct (run_uuid parse id get_seller_orders d) as [E|(u & _ & ->)]; auto.
  - unfold seller_order_action_endpoint, with_uuid. destruct (parse o); [|by left]. destruct (parse s); [right; constructor|by left].
Qed.
End OrderRoutes.
