(* ===== verification/ReviewRoutes.v ===== *)
(** * The HTTP surface of reviews-service

    app/routes/reviews.py: every endpoint, with the identity it asks for; and,
    over the four services, that no route is hidden by another. *)

From S2P Require Import Prelude PyValue Session Routing ReviewService SellerRoutes MediaRoutes OrderRoutes.
Import Routing.

Module ReviewRoutes.
Import ReviewService.

(** [Depends(require_buyer)]: dependencies are solved before the other
    parameters are judged. *)
Definition with_buyer {A} (x_user_id : option string) (k : string → M db A) : M db A :=
  match x_user_id with
  | Some u => if is_empty u then raise (Http 401 "no buyer identity on this request; the gateway supplies x-user-id from the verified token") else k u
  | None => raise (Http 401 "no buyer identity on this request; the gateway supplies x-user-id from the verified token")
  end.

Section endpoints.
Context (parse : string → option string) (uuid4 : nat → string) (fromisoformat : string → option (Z * option Z)) (repr : json → string).
Context (fault : db → option string).

(** [answer] is what order-saga says of the purchase. *)
Definition submit (x_user_id : option string) (request : SubmitRequest) (idempotency_key : option string) (answer : reply) (now : Z) : M db ReviewView :=
  with_buyer x_user_id (λ buyer, submit_review uuid4 fromisoformat repr fault buyer request idempotency_key answer now).
Definition edit (review_id : string) (x_user_id : option string) (request : EditRequest) (now : Z) : M db ReviewView :=
  with_buyer x_user_id (λ buyer, with_uuid parse review_id (λ u, edit_review repr fault u buyer request now)).
Definition product_summary_endpoint (product_id : string) : M db Summary := with_uuid parse product_id product_summary.
Definition product_reviews_endpoint (product_id : string) (limit : option Z) : M db (list ReviewView) :=
  with_uuid parse product_id (λ u, with_limit (default 20 limit) (list_for_product u)).
Definition seller_summary_endpoint (seller_id : string) : M db Summary := with_uuid parse seller_id seller_summary.
Definition report (review_id : string) (x_user_id : option string) (reason : string) (note : option string) (now : Z) : M db (Z * string) :=
  with_buyer x_user_id (λ reporter, with_uuid parse review_id (λ u, report_review fault u reporter reason note now)).
Definition mine (x_user_id : option string) : M db (list ReviewView) := with_buyer x_user_id (λ buyer, my_reviews buyer 50).
Definition queue (limit : option Z) : M db (list QueueEntry) := with_limit (default 50 limit) moderation_queue.
Definition moderate (review_id decision : string) (note : option string) (now : Z) : M db ReviewView :=
  with_uuid parse review_id (λ u, moderate_review fault u decision note now).

(** Without an identity nothing is submitted, edited or reported. *)
Lemma no_identity_no_change who d :
  who = None ∨ who = Some "" →
  (∀ request key answer now, (run (submit who request key answer now) d).1 = d) ∧
  (∀ id request now, (run (edit id who request now) d).1 = d) ∧
  ∀ id reason note now, (run (report id who reason note now) d).1 = d.
Proof.
  assert (Hb : ∀ A (k : string → M db A), who = None ∨ who = Some "" → (run (with_buyer who k) d).1 = d) by (by intros A k [-> | ->]).
  intros Hw. split_and!; intros; by apply Hb.
Qed.
End endpoints.

Definition router : list route :=
  [{| verb := "POST"; pattern := []; endpoint := "submit" |};
   {| verb := "PATCH"; pattern := [Uuid "review_id"]; endpoint := "edit" |};
   {| verb := "GET"; pattern := [Lit "products"; Uuid "product_id"; Lit "summary"]; endpoint := "product_summary_endpoint" |};
   {| verb := "GET"; pattern := [Lit "products"; Uuid "product_id"]; endpoint := "product_reviews_endpoint" |};
   {| verb := "GET"; pattern := [Lit "sellers"; Uuid "seller_id"; Lit "summary"]; endpoint := "seller_summary_endpoint" |};
   {| verb := "POST"; pattern := [Uuid "review_id"; Lit "report"]; endpoint := "report" |};
   {| verb := "GET"; pattern := [Lit "mine"]; endpoint := "mine" |};
   {| verb := "GET"; pattern := [Lit "moderation"; Lit "queue"]; endpoint := "queue" |};
   {| verb := "POST"; pattern := [Lit "moderation"; Uuid "review_id"]; endpoint := "moderate" |}].
End ReviewRoutes.

(** ** No route is hidden *)

Definition routers : list (list route) := [SellerRoutes.router; MediaRoutes.router; OrderRoutes.router; ReviewRoutes.router].

(** Every endpoint can be reached: when the framework takes the first declared
    route that fits, a request for a route, with its own words in the path and
    proper values for its parameters, is given to that route and not to one
    declared before it. *)
Theorem every_route_is_reached (dispatch : list route → string → list string → option route) rs r path :
  (∀ rs v path, dispatch rs v path = first_declared rs v path) →
  rs ∈ routers → r ∈ rs → Forall2 value_for (pattern r) path → dispatch rs (verb r) path = Some r.
Proof.
  intros Hd Hrs Hr Hp. rewrite Hd. apply unhidden_found; [|done|done]. unfold routers in Hrs. elem_cases Hrs; vm_compute; reflexivity.
Qed.

(** The order matters: a read of one review declared before [mine] would hide it,
    as the comment there warns. *)
Example mine_would_be_hidden :
  unhidden ({| verb := "GET"; pattern := [Uuid "review_id"]; endpoint := "get" |} :: ReviewRoutes.router) = false ∧
  unhidden (ReviewRoutes.router ++ [{| verb := "GET"; pattern := [Uuid "review_id"]; endpoint := "get" |}]) = true.
Proof. split; vm_compute; reflexivity. Qed.

(** A negative limit reaches the database and is answered with 500. *)
Example negative_limit_is_an_error product : (run (ReviewRoutes.product_reviews_endpoint Some product (Some (-1))) {|
    ReviewService.reviews := []; ReviewService.reports := []; ReviewService.rv_outbox := []; ReviewService.rv_keys := []; ReviewService.rv_draws := 0 |}).2 =
  inl (Raised "LIMIT must not be negative").
Proof. reflexivity. Qed.
