(* ===== verification/NotificationLoop.v ===== *)
(** * The notification worker's loop and its provider

    workers/notification-worker: app/providers.py, and what one round of
    [worker_loop] in main.py does with a batch: the rows in order, until one
    raises outside the guard around the provider; and the outer loop.  The
    provider answers with whatever the payload holds, which need not be a text.
    A payload arrives as the JSON object the scheduling service stored. *)

From S2P Require Import Prelude PyValue PyJson NotificationWorker.
Import PyJson NotificationRules NotificationWorker.

Module NotificationLoop.

(** [RecordingStubProvider.send] *)
Definition send (payload : list (string * json)) : json := default (JStr "delivered") (dict_get payload "simulate").

(** [get_provider(channel).send(...)]: one stub for all channels, with the name
    of the template put into a copy of the payload; what is not an object cannot
    be copied that way, and the adapter's exception is a result. *)
Definition provider_result (row : NotificationRecord) : json :=
  match n_payload row with
  | JObj kvs => send (dict_set kvs "template_name" (JStr (n_template_name row)))
  | _ => JStr "provider_error"
  end.

(** [x in frozenset]: lists and dictionaries cannot be looked up. *)
Definition hashable (v : json) : bool := match v with JList _ | JObj _ => false | _ => true end.

Section loop.
Context (repr : json → string).

(** [classify] on any result; [None] is the [TypeError]. *)
Definition classify_result (result : json) (attempt j max_attempts : Z) : option DeliveryDecision :=
  match result with
  | JStr s => Some (classify s attempt j max_attempts)
  | _ =>
      if negb (hashable result) then None
      else if max_attempts <=? attempt then
        Some {| disposition := FAILED; delay_seconds := None;
                d_detail := "giving up after " +:+ dec attempt +:+ " attempts, last failure: " +:+ py_str repr result |}
      else Some {| disposition := RETRY; delay_seconds := Some (backoff_delay attempt j);
                   d_detail := "retrying after unrecognised result " +:+ py_repr repr result |}
  end.

(** [process_one], up to the settlement; [None] is an exception that leaves it. *)
Definition verdict (row : NotificationRecord) (j : Z) : option (DeliveryDecision * bool) :=
  if negb (is_valid_channel (n_channel row)) then
    Some ({| disposition := FAILED; delay_seconds := None; d_detail := "unknown channel " +:+ repr_str (n_channel row) |}, false)
  else (λ d, (d, true)) <$> classify_result (provider_result row) (n_attempts row + 1) j MAX_ATTEMPTS.

(** The rows of a batch: the table, the records for which the provider was
    called, and whether the loop had to catch an exception. *)
Fixpoint process_batch (now j : Z) (batch table : list NotificationRecord) : list NotificationRecord * list string * bool :=
  match batch with
  | [] => (table, [], false)
  | row :: batch =>
      match verdict row j with
      | None => (table, [n_id row], true)
      | Some (decision, called) =>
          let '(table, calls, raised) := process_batch now j batch (settle (n_id row) decision now table) in
          (table, (if called then [n_id row] else []) ++ calls, raised)
      end
  end.

(** One round of [worker_loop]. *)
Definition round (locked : string → bool) (who : string) (now j : Z) (table : list NotificationRecord) : list NotificationRecord * list string * bool :=
  let (table, batch) := claim_batch locked now who table in process_batch now j batch table.

(** The loop: no exception ends it; [errors] counts them. *)
Definition worker_loop (locked : string → bool) (who : string) (j : Z) (times : list Z) (table : list NotificationRecord) (errors : Z)
    : list NotificationRecord * Z :=
  foldl (λ acc now, let '(table, _, raised) := round locked who now j acc.1 in (table, if raised then acc.2 + 1 else acc.2)) (table, errors) times.

(** ** A payload the provider cannot answer well *)

Definition poisonous (row : NotificationRecord) : Prop :=
  is_valid_channel (n_channel row) = true ∧ hashable (provider_result row) = false.

Lemma poison_raises row j : poisonous row → verdict row j = None.
Proof.
  intros [Hc Hh]. unfold verdict. rewrite Hc. cbn [negb]. unfold classify_result. by destruct (provider_result row).
Qed.

Lemma settle_other id d now table r : r ∈ table → n_id r ≠ id → r ∈ settle id d now table.
Proof.
  intros Hr Hne. unfold settle, update_where. apply elem_of_map. exists r. split; [|done]. by rewrite bool_decide_false.
Qed.

(** One such payload leaves the rest of its batch being sent: the records that
    follow it keep the status they were claimed with. *)
Lemma poison_strands_the_rest now j before row after table :
  poisonous row → NoDup (map n_id (before ++ row :: after)) → (∀ c, c ∈ row :: after → c ∈ table) →
  let '(table', _, raised) := process_batch now j (before ++ row :: after) table in
  raised = true ∧ ∀ c, c ∈ row :: after → c ∈ table'.
Proof.
  intros Hp. revert table. induction before as [|b before IH]; intros table Hn Ht.
  - cbn [app process_batch]. rewrite poison_raises by done. by split.
  - cbn [app map process_batch] in *. apply NoDup_cons in Hn as [Hb Hn].
    destruct (verdict b j) as [[d called]|]; [|by split].
    specialize (IH (settle (n_id b) d now table) Hn). destruct (process_batch _ _ _ _) as [[t' calls] raised].
    apply IH. intros c Hc. apply settle_other; [by apply Ht|]. intros E. apply Hb. rewrite <-E. apply elem_of_map. exists c.
    split; [done|]. apply elem_of_app. by right.
Qed.

(** A text result is judged as [classify] says. *)
Lemma text_results_are_classified row j s :
  is_valid_channel (n_channel row) = true → provider_result row = JStr s →
  verdict row j = Some ((decide_on row (Some s) j).1, true).
Proof. intros Hc E. unfold verdict, decide_on. by rewrite Hc, E. Qed.
End loop.

(** *** On an example *)

Definition scheduled_with (i : string) (payload : list (string * json)) : NotificationRecord :=
  {| n_id := i; n_user_id := "u"; n_channel := "email"; n_template_name := "welcome"; n_status := "PENDING";
     n_payload := JObj payload; n_attempts := 0; n_next_attempt_at := None; n_claimed_at := None; n_claimed_by := None;
     n_delivered_at := None; n_last_error := None; n_created_at := 1 |}.

(** The caller of notification-service chooses the payload: one with a list in
    it stops its own delivery and that of everyone after it, for good. *)
Example one_payload_stops_its_batch :
  let '(table, errors) := worker_loop (λ _, "") (λ _, false) "w" 0 [10; 4000000000]
    [scheduled_with "n1" []; scheduled_with "n2" [("simulate", JList [])]; scheduled_with "n3" []] 0 in
  map n_status table = ["DELIVERED"; "SENDING"; "SENDING"] ∧ errors = 1.
Proof. vm_compute. by split. Qed.
End NotificationLoop.
