(* ===== verification/ReindexLoop.v ===== *)
(** * The loop of the reindex worker

    workers/reindex-worker/app/main.py, [reindex_loop]: a first backfill and
    reaping pass, then one of each per interval.  A pass ends, is stopped by an
    exception of the database, or has not ended; the errors of an interval are
    caught, those of the first pass are not. *)

From S2P Require Import Prelude PyValue PyJson Session ReadModel CatalogService ReindexWorker.
Import CatalogService ReindexRules ReindexWorker.

Module ReindexLoop.

(** Around one turn of the loop: the table batch by batch, what else happens,
    and the clock of the reaping pass. *)
Record turn := {
  tables_read : nat → option cdb;
  around_rows : nat → row_weather;
  clock : Z;
  search_fails : bool;
  around_hits : nat → hit_weather;
}.

(** The task sleeps until the next interval, idles until it is restarted, is
    still in a pass, or is gone with an exception nobody awaits. *)
Inductive task := Sleeping | Idle | InPass | Dead.

Section loop.
Context {Ix : Type} `{SearchIndex Ix}.
Context (isoformat : Z → string) (fromisoformat : string → option stamp).
Context (fuel batch : nat) (reap_orphans : bool) (grace : Z) (undated : bool).

(** [run_pass] and then [reap_pass]. *)
Definition both_passes (t : turn) (ix0 : Ix) (x : stats) : ending * Ix * stats :=
  let '(e, st, x) := run_pass isoformat fromisoformat fuel batch (tables_read t) (around_rows t) ix0 x in
  match e with
  | Finished =>
      let (rst, x) := reap_pass fromisoformat reap_orphans grace (clock t) undated (search_fails t) (around_hits t) (ix st) x in
      (Finished, rix rst, x)
  | e => (e, ix st, x)
  end.

(** The body of [while True]. *)
Definition next_turn (s : task * Ix * stats) (t : turn) : task * Ix * stats :=
  match s with
  | (Sleeping, ix0, x) =>
      let '(e, ix1, x) := both_passes t ix0 x in
      match e with
      | Finished => (Sleeping, ix1, x)
      | Stopped => (Sleeping, ix1, count_errors 1 x)
      | OutOfFuel => (InPass, ix1, x)
      end
  | s => s
  end.

Definition first_turn (interval : Z) (t : turn) (ix0 : Ix) (x : stats) : task * Ix * stats :=
  let '(e, ix1, x) := both_passes t ix0 x in
  (match e with
   | Finished => if interval <=? 0 then Idle else Sleeping
   | Stopped => Dead
   | OutOfFuel => InPass
   end, ix1, x).

Definition reindex_loop (interval : Z) (first : turn) (later : list turn) (ix0 : Ix) (x : stats) : task * Ix * stats :=
  foldl next_turn (first_turn interval first ix0 x) later.

(** ** What the loop survives *)

Lemma only_sleepers_go_on s later : s.1.1 ≠ Sleeping → foldl next_turn s later = s.
Proof. destruct s as [[k i] x]. cbn [fst]. intros Hs. induction later as [|t l IH]; [done|]. by destruct k. Qed.

(** An exception in the first pass is the end of the worker's work: nothing is
    indexed or counted after it, whatever the interval. *)
Lemma a_first_failure_is_final interval first later ix0 x :
  (both_passes first ix0 x).1.1 = Stopped →
  reindex_loop interval first later ix0 x = (Dead, (both_passes first ix0 x).1.2, (both_passes first ix0 x).2).
Proof.
  intros E. unfold reindex_loop, first_turn. destruct (both_passes first ix0 x) as [[e i] y]. cbn in E. subst e. cbn [fst snd].
  by apply only_sleepers_go_on.
Qed.

(** A pass that ends in any way. *)
Definition ends (t : turn) : Prop := ∀ ix0 x, (both_passes t ix0 x).1.1 ≠ OutOfFuel.

Lemma turns_keep_sleeping later ix0 x : Forall ends later → (foldl next_turn (Sleeping, ix0, x) later).1.1 = Sleeping.
Proof.
  intros Hl. revert ix0 x. induction Hl as [|t later Ht _ IH]; intros ix0 x; [done|].
  cbn [foldl next_turn]. specialize (Ht ix0 x). destruct (both_passes t ix0 x) as [[[| |] i] y]; [apply IH..|done].
Qed.

(** Once the first turn is over, no failure ends the loop. *)
Lemma later_failures_are_survived interval first later ix0 x :
  0 < interval → (both_passes first ix0 x).1.1 = Finished → Forall ends later →
  (reindex_loop interval first later ix0 x).1.1 = Sleeping.
Proof.
  intros Hi E Hl. unfold reindex_loop, first_turn. destruct (both_passes first ix0 x) as [[e i] y]. cbn in E. subst e.
  rewrite (proj2 (Z.leb_gt _ _)) by lia. by apply turns_keep_sleeping.
Qed.
End loop.

(** A batch of at least one row and a table that stays below the fuel: such a
    pass ends (backfill_visits_every_product gives the rows it visits). *)
Lemma growing_pass_finishes {Ix : Type} `{SearchIndexLaws Ix} isoformat fromisoformat (d : nat → cdb) env batch N (ix0 : Ix) x :
  (1 ≤ batch)%nat → growing d N →
  (run_pass isoformat fromisoformat (S N) batch (λ n, Some (d n)) env ix0 x).1.1 = Finished.
Proof.
  intros Hb Ht. pose proof (λ n, growing_keys d N n Ht) as Hkeys. destruct Ht as [Hids Hsize Hgrow].
  unfold run_pass. set (st0 := {| ix := ix0; seen := []; n_indexed := 0; n_skipped := 0; n_errors := 0 |}).
  assert (Htr : on_track d 0 start (seen st0)) by (constructor; [constructor|by intros ? ?%not_elem_of_nil|done]).
  destruct (batches_finish isoformat fromisoformat env d batch N Hb Hkeys Hsize Hgrow (S N) 0 start st0 Htr) as (F1 & _); [cbn; lia|].
  destruct (batches _ _ _ _ _ _ _ _ _) as [e st]. by cbn in *.
Qed.

(** A turn over a table that can be read is a pass that finishes, so a loop
    whose table comes back goes on repairing. *)
Lemma readable_turns_finish {Ix : Type} `{SearchIndexLaws Ix} isoformat fromisoformat batch N reap_orphans grace undated
    (t : turn) (d : nat → cdb) (ix0 : Ix) x :
  (1 ≤ batch)%nat → growing d N → tables_read t = (λ n, Some (d n)) →
  (both_passes isoformat fromisoformat (S N) batch reap_orphans grace undated t ix0 x).1.1 = Finished.
Proof.
  intros Hb Ht E. unfold both_passes. rewrite E.
  pose proof (growing_pass_finishes isoformat fromisoformat d (around_rows t) batch N ix0 x Hb Ht) as F.
  destruct (run_pass _ _ _ _ _ _ _ _) as [[e st] y]. cbn in F. subst e. by destruct (reap_pass _ _ _ _ _ _ _ _ _).
Qed.

(** *** On an example *)

Definition sample_turn (up : bool) : turn :=
  {| tables_read := λ n, if up then Some (sample_table n) else None; around_rows := sample_weather; clock := 9000000001;
     search_fails := false; around_hits := λ n, {| others := []; catalog_now := Some (sample_table 0); delete_fails := false |} |}.

Definition sample_loop (first : turn) (later : list turn) : task * MapIndex.index * stats :=
  reindex_loop dec sample_from 4 2 true 3600 false 60 first later damaged no_stats.

(** The catalog database is away at the start and then back for good: nothing is
    ever indexed.  Away later on: the next turn repairs. *)
Example away_at_the_start_is_away_for_good :
  let '(t, i, x) := sample_loop (sample_turn false) [sample_turn true; sample_turn true] in
  t = Dead ∧ field i "p2" "sku" = None ∧ passes x = 0 ∧ errors x = 0.
Proof. vm_compute. by split_and!. Qed.

Example away_later_is_survived :
  let '(t, i, x) := sample_loop (sample_turn true) [sample_turn false; sample_turn true] in
  t = Sleeping ∧ field i "p2" "sku" = Some (JStr "K-2") ∧ passes x = 2 ∧ errors x = 1.
Proof. vm_compute. by split_and!. Qed.
End ReindexLoop.
