(* ===== verification/Connectors.v ===== *)
(** * Provisioning change data capture

    fix_connectors.py: one Debezium connector per outbox database, over whatever
    Kafka Connect answers, and on a Connect that keeps what it is given (class
    [Connect]).  What is printed is left out. *)

From stdpp Require Import gmap strings.
From S2P Require Import Prelude PyValue PyText BootstrapSchema.

Module Connectors.

Definition DATABASES : list (string * string) :=
  [("catalog_db", "catalog"); ("pricing_db", "pricing"); ("inventory_db", "inventory"); ("cart_db", "cart");
   ("order_db", "order"); ("payment_ledger_db", "payment"); ("fraud_db", "fraud"); ("fulfillment_db", "fulfillment");
   ("notification_db", "notification"); ("user_db", "user"); ("tax_db", "tax"); ("delivery_quote_db", "delivery_quote");
   ("promo_db", "promotion"); ("audit_db", "audit"); ("media_meta_db", "media"); ("seller_db", "seller"); ("review_db", "review")].

Definition config := list (string * string).

(** The constants read from the environment. *)
Record settings := { PG_USER : string; PG_PASSWORD : string; PG_HOST : string }.

Definition read_settings (getenv : string → option string) : settings :=
  {| PG_USER := default "admin" (getenv "POSTGRES_USER"); PG_PASSWORD := default "supersecret" (getenv "POSTGRES_PASSWORD");
     PG_HOST := default "postgres" (getenv "POSTGRES_HOST") |}.

(** [x or y] *)
Definition or_else (x : option string) (y : string) : string :=
  match x with Some s => if is_empty s then y else s | None => y end.

Definition build_config (env : settings) (db service_name : string) (pg_user pg_password pg_host : option string) : config :=
  [("connector.class", "io.debezium.connector.postgresql.PostgresConnector");
   ("tasks.max", "1");
   ("database.hostname", or_else pg_host (PG_HOST env));
   ("database.port", "5432");
   ("database.user", or_else pg_user (PG_USER env));
   ("database.password", or_else pg_password (PG_PASSWORD env));
   ("database.dbname", db);
   ("topic.prefix", service_name +:+ "_server");
   ("plugin.name", "pgoutput");
   ("table.include.list", "public.outbox_messages");
   ("slot.name", service_name +:+ "_slot");
   ("tombstones.on.delete", "false");
   ("transforms", "outbox");
   ("transforms.outbox.type", "io.debezium.transforms.outbox.EventRouter");
   ("transforms.outbox.route.topic.replacement", "${routedByValue}.events");
   ("transforms.outbox.table.field.event.id", "id");
   ("transforms.outbox.table.field.event.key", "aggregate_id");
   ("transforms.outbox.table.field.event.type", "type");
   ("transforms.outbox.table.field.event.payload", "payload");
   ("transforms.outbox.route.by.field", "aggregate_type");
   ("transforms.outbox.table.fields.additional.placement", "created_at:header:timestamp,type:header:eventType");
   ("key.converter", "org.apache.kafka.connect.storage.StringConverter");
   ("value.converter", "io.confluent.connect.avro.AvroConverter");
   ("value.converter.schema.registry.url", "http://schema-registry:8081")].

Definition connector_name (service_name : string) : string := service_name +:+ "-outbox-connector".

(** The requests to Kafka Connect. *)
Inductive request :=
| ListConnectors
| Create (name : string) (c : config)
| Update (name : string) (c : config).

Section script.
Context {W : Type} (exec : W → request → option Z * W) (env : settings).

(** Probes until one is answered 200; [None] when the given number of probes
    did not suffice. *)
Fixpoint wait_for_debezium (probes : nat) (w : W) : option W :=
  match probes with
  | O => None
  | S probes => let (status, w) := exec w ListConnectors in
                if bool_decide (status = Some 200) then Some w else wait_for_debezium probes w
  end.

(** The loop over [DATABASES]: the world, the failures, and whether a request
    raised, which ends the script. *)
Record progress := { world : W; failures : list string; raised : bool }.

Definition provision (s : progress) (entry : string * string) : progress :=
  if raised s then s
  else
    let name := connector_name entry.2 in
    let config := build_config env entry.1 entry.2 None None None in
    let done_ w := {| world := w; failures := failures s; raised := false |} in
    let failed w := {| world := w; failures := failures s ++ [name]; raised := false |} in
    let stopped w := {| world := w; failures := failures s; raised := true |} in
    match exec (world s) (Create name config) with
    | (None, w) => stopped w
    | (Some status, w) =>
        if status =? 201 then done_ w
        else if status =? 409 then
          match exec w (Update name config) with
          | (None, w) => stopped w
          | (Some status, w) => if (status =? 200) || (status =? 201) then done_ w else failed w
          end
        else failed w
    end.

Definition provision_connectors (w : W) : progress := foldl provision {| world := w; failures := []; raised := false |} DATABASES.

Definition exit_status (s : progress) : Z := if raised s then 1 else if bool_decide (failures s = []) then 0 else 1.

(** The exit status and the world left; [None] while still waiting. *)
Definition main (probes : nat) (w : W) : option (Z * W) :=
  w ← wait_for_debezium probes w;
  let s := provision_connectors w in
  Some (exit_status s, world s).

(** ** What a success means *)

(** A request that was answered. *)
Definition answered (r : request) (ok : Z → bool) : Prop := ∃ w status, (exec w r).1 = Some status ∧ ok status = true.

(** The connector of an entry was created, or was there and was updated. *)
Definition provisioned (entry : string * string) : Prop :=
  let name := connector_name entry.2 in
  let config := build_config env entry.1 entry.2 None None None in
  answered (Create name config) (λ s, s =? 201) ∨
  (answered (Create name config) (λ s, s =? 409) ∧ answered (Update name config) (λ s, (s =? 200) || (s =? 201))).

Lemma raised_stays s l : raised s = true → foldl provision s l = s.
Proof. intros Hr. induction l as [|e l IH]; [done|]. cbn [foldl]. unfold provision at 2. by rewrite Hr. Qed.

Lemma provision_grows s e : ∃ more, failures (provision s e) = failures s ++ more.
Proof.
  unfold provision. destruct (raised s); [exists []; by rewrite app_nil_r|].
  destruct (exec (world s) _) as [[c|] w]; [|exists []; by rewrite app_nil_r].
  destruct (c =? 201); [exists []; by rewrite app_nil_r|]. destruct (c =? 409); [|by eexists].
  destruct (exec w _) as [[c'|] w']; [|exists []; by rewrite app_nil_r].
  destruct (_ || _); [exists []; by rewrite app_nil_r|by eexists].
Qed.

Lemma provisions_grow l s : ∃ more, failures (foldl provision s l) = failures s ++ more.
Proof.
  revert s. induction l as [|e l IH]; intros s; [exists []; by rewrite app_nil_r|]. cbn [foldl].
  destruct (IH (provision s e)) as [m1 ->]. destruct (provision_grows s e) as [m2 ->]. exists (m2 ++ m1). by rewrite app_assoc.
Qed.

Lemma provision_success s e :
  raised (provision s e) = false → failures (provision s e) = [] → raised s = false ∧ failures s = [] ∧ provisioned e.
Proof.
  unfold provision, provisioned, answered. destruct (raised s) eqn:Er; [congruence|].
  set (name := connector_name e.2). set (c := build_config env e.1 e.2 None None None). intros H1 H2.
  destruct (exec (world s) (Create name c)) as [[k|] w] eqn:E1; [|done].
  destruct (k =? 201) eqn:Ek; [split_and!; [done..|]; left; exists (world s), k; by rewrite E1|].
  assert (Hne : ∀ x : string, failures s ++ [x] ≠ []) by (intros x H; by destruct (failures s)).
  destruct (k =? 409) eqn:E9; [|by apply Hne in H2].
  destruct (exec w (Update name c)) as [[k'|] w'] eqn:E2; [|done].
  destruct (_ || _) eqn:E3; [|by apply Hne in H2].
  split_and!; [done..|]. right. split; [exists (world s), k; by rewrite E1|exists w, k'; by rewrite E2].
Qed.

Lemma provisions_succeed l s :
  raised (foldl provision s l) = false → failures (foldl provision s l) = [] → Forall provisioned l.
Proof.
  induction l as [|e l IH] using rev_ind; [constructor|]. rewrite foldl_app. cbn [foldl]. intros H1 H2.
  destruct (provision_success _ _ H1 H2) as (H3 & H4 & He). apply Forall_app_2; [by apply IH|by constructor].
Qed.

Lemma exit_zero s : exit_status s = 0 → raised s = false ∧ failures s = [].
Proof. unfold exit_status. destruct (raised s); [done|]. case_bool_decide; by intros. Qed.

Lemma all_provisioned w : raised (provision_connectors w) = false → failures (provision_connectors w) = [] → Forall provisioned DATABASES.
Proof. unfold provision_connectors. apply provisions_succeed. Qed.

(** An exit status of 0 means that every database has its connector, each one
    created or updated with the configuration of the script. *)
Theorem success_is_complete probes w w' : main probes w = Some (0, w') → Forall provisioned DATABASES.
Proof.
  unfold main. destruct (wait_for_debezium probes w) as [w1|]; [|done]. cbn [mbind option_bind].
  pose proof (all_provisioned w1) as H. destruct (provision_connectors w1) as [w2 fs r]. intros [= E _].
  apply exit_zero in E as [E1 E2]. by apply H.
Qed.
End script.

(** ** On a Kafka Connect that keeps what it is given *)

(** What the REST interface documents: a connector that exists is not created
    again, an update sets the whole configuration, and neither touches another
    connector.  It answers before the given number of probes is over. *)
Class Connect {W : Type} (exec : W → request → option Z * W) := {
  connectors : W → gmap string config;
  starts_in : W → nat;
  list_answer w : ∃ status w', exec w ListConnectors = (status, w') ∧ connectors w' = connectors w ∧
    match starts_in w with O => status = Some 200 | S n => status ≠ Some 200 ∧ starts_in w' = n end;
  create_answer w name c : ∃ w', exec w (Create name c) = (Some (if connectors w !! name then 409 else 201), w') ∧
    connectors w' = (if connectors w !! name then connectors w else <[name := c]> (connectors w));
  update_answer w name c : ∃ status w', exec w (Update name c) = (Some status, w') ∧ (status = 200 ∨ status = 201) ∧
    connectors w' = <[name := c]> (connectors w);
}.

(** What the script declares. *)
Definition declared (env : settings) (entry : string * string) : string * config :=
  (connector_name entry.2, build_config env entry.1 entry.2 None None None).

Definition declarations (env : settings) : gmap string config := list_to_map (map (declared env) DATABASES).

Lemma declared_keys env : NoDup (map (declared env) DATABASES).*1.
Proof. by_compute. Qed.

Section connect.
Context {W : Type} (exec : W → request → option Z * W) (env : settings).
Context {CN : Connect exec}.

Lemma provision_one w fs e :
  ∃ w', provision exec env {| world := w; failures := fs; raised := false |} e = {| world := w'; failures := fs; raised := false |} ∧
    connectors w' = <[(declared env e).1 := (declared env e).2]> (connectors w).
Proof.
  unfold provision, declared. cbn [raised world failures fst snd].
  set (name := connector_name e.2). set (c := build_config env e.1 e.2 None None None).
  destruct (create_answer w name c) as (w1 & -> & E1). destruct (connectors w !! name) as [old|].
  - destruct (update_answer w1 name c) as (k & w2 & -> & Hk & E2). exists w2. split; [|by rewrite E2, E1].
    change (409 =? 201) with false. change (409 =? 409) with true. cbn [fst snd]. destruct Hk as [-> | ->]; done.
  - exists w1. done.
Qed.

Lemma provision_all l w fs :
  ∃ w', foldl (provision exec env) {| world := w; failures := fs; raised := false |} l = {| world := w'; failures := fs; raised := false |} ∧
    connectors w' = foldl (λ m e, <[(declared env e).1 := (declared env e).2]> m) (connectors w) l.
Proof.
  revert w. induction l as [|e l IH]; intros w; [by exists w|]. cbn [foldl].
  destruct (provision_one w fs e) as (w1 & -> & <-). apply IH.
Qed.

Lemma waits probes w : (starts_in w < probes)%nat → ∃ w', wait_for_debezium exec probes w = Some w' ∧ connectors w' = connectors w.
Proof.
  revert w. induction probes as [|n IH]; intros w Hn; [lia|]. cbn [wait_for_debezium].
  destruct (list_answer w) as (k & w' & -> & E & Hs). destruct (starts_in w) as [|m].
  - subst k. rewrite bool_decide_true by done. by exists w'.
  - destruct Hs as [Hk Hm]. rewrite bool_decide_false by done. destruct (IH w') as (w2 & E2 & E3); [lia|].
    exists w2. by rewrite E3.
Qed.

(** On such a Connect the script exits 0; afterwards every declared connector
    has the declared configuration, and every other one is as before. *)
Theorem connectors_are_as_declared probes w :
  (starts_in w < probes)%nat →
  ∃ w', main exec env probes w = Some (0, w') ∧ connectors w' = declarations env ∪ connectors w.
Proof.
  intros Hp. unfold main. destruct (waits probes w Hp) as (w1 & -> & <-). cbn [mbind option_bind].
  unfold provision_connectors. destruct (provision_all DATABASES w1 []) as (w2 & -> & E2). exists w2. split; [done|]. rewrite E2. clear E2.
  apply map_eq. intros k. unfold declarations. pose proof (declared_keys env) as Hn. revert Hn.
  generalize (connectors w1). induction DATABASES as [|e l IH]; intros m Hn.
  { cbn. by rewrite (left_id_L ∅ (∪)). }
  cbn [foldl map list_to_map foldr]. cbn [map fmap list_fmap] in Hn. apply NoDup_cons in Hn as [Hx Hn]. rewrite IH by done.
  destruct (decide (k = (declared env e).1)) as [->|Hne].
  - rewrite lookup_union_r by (by apply not_elem_of_list_to_map_1). rewrite lookup_insert_eq.
    symmetry. apply lookup_union_Some_l. apply lookup_insert_eq.
  - rewrite !lookup_union, lookup_insert_ne by done. cbn. rewrite (lookup_insert_ne _ _ k) by done. done.
Qed.

(** Running it again changes nothing. *)
Lemma provisioning_is_idempotent probes w w' :
  (starts_in w < probes)%nat → (starts_in w' < probes)%nat → main exec env probes w = Some (0, w') →
  ∃ w'', main exec env probes w' = Some (0, w'') ∧ connectors w'' = connectors w'.
Proof.
  intros H1 H2 E. destruct (connectors_are_as_declared probes w H1) as (v & E1 & C1). rewrite E in E1. injection E1 as <-.
  destruct (connectors_are_as_declared probes w' H2) as (v & E2 & C2). exists v. split; [done|].
  by rewrite C2, C1, (assoc_L (∪)), (idemp_L (∪)).
Qed.
End connect.

(** ** The configurations *)

(** No two connectors share a replication slot, a topic prefix or a database. *)
Lemma slots_are_distinct env :
  NoDup (map (λ e, dict_get (declared env e).2 "slot.name") DATABASES) ∧
  NoDup (map (λ e, dict_get (declared env e).2 "topic.prefix") DATABASES) ∧
  NoDup (map (λ e, dict_get (declared env e).2 "database.dbname") DATABASES).
Proof. split_and!; by_compute. Qed.

(** Every database the bootstrap builds is captured, except the one of the
    personalisation service, which has no outbox. *)
Lemma databases_are_captured : ∀ db, db ∈ SERVICES.*2 ↔ db ∈ DATABASES.*1 ∨ db = "behaviour_db".
Proof.
  assert (H : SERVICES.*2 ≡ₚ "behaviour_db" :: DATABASES.*1) by by_compute.
  intros db. rewrite H, elem_of_cons. tauto.
Qed.

(** *** On an example *)

(** The world: how many probes fail, and what Connect holds. *)
Definition toy_exec (w : nat * gmap string config) (r : request) : option Z * (nat * gmap string config) :=
  match r with
  | ListConnectors => match w.1 with O => (Some 200, w) | S n => (None, (n, w.2)) end
  | Create name c => match w.2 !! name with Some _ => (Some 409, w) | None => (Some 201, (w.1, <[name := c]> w.2)) end
  | Update name c => (Some 200, (w.1, <[name := c]> w.2))
  end.

#[export] Instance toy_connect : Connect toy_exec.
Proof.
  refine {| connectors := snd; starts_in := fst |}.
  - intros [[|n] m]; [by exists (Some 200), (O, m)|by exists None, (n, m)].
  - intros [n m] name c. cbn. destruct (m !! name); by eexists.
  - intros [n m] name c. exists 200, (n, <[name := c]> m). split; [done|]. split; [by left|done].
Defined.

Definition local : settings := read_settings (λ _, None).

Definition stale : gmap string config := {["order-outbox-connector" := [("slot.name", "debezium")]; "mine" := []]}.

Lemma connectors_are_as_declared_witness :
  ∃ w', main toy_exec local 4 (3%nat, stale) = Some (0, w') ∧ w'.2 !! "mine" = Some [] ∧
    (w'.2 !! "order-outbox-connector" ≫= λ c, dict_get c "slot.name") = Some "order_slot".
Proof.
  destruct (connectors_are_as_declared toy_exec local 4 (3%nat, stale)) as (w' & E & H); [cbn; lia|].
  exists w'. split; [exact E|]. change (connectors w') with w'.2 in H. rewrite H. split; vm_compute; reflexivity.
Defined.

(** A Connect that never answers 200 is waited for without end. *)
Lemma an_absent_connect_is_awaited {W} (exec : W → request → option Z * W) env probes w :
  (∀ v, (exec v ListConnectors).1 ≠ Some 200) → main exec env probes w = None.
Proof.
  intros H. unfold main. assert (E : wait_for_debezium exec probes w = None); [|by rewrite E].
  revert w. induction probes as [|n IH]; intros w; [done|]. cbn [wait_for_debezium]. specialize (H w) as Hw.
  destruct (exec w ListConnectors) as [k w']. by rewrite bool_decide_false.
Qed.
End Connectors.
