(* ===== verification/StorageBootstrap.v ===== *)
(** * The bucket and its policy

    scripts/bootstrap_storage.py with the policy of media_rules.py
    ([bucket_policy]), over whatever the object store answers and on one that
    keeps what it is given (class [ObjectStore]).  [json.dumps] and [json.loads]
    are arguments; what is printed is left out. *)

From Stdlib Require Import Ascii.
From S2P Require Import Prelude PyValue PyJson PyText TextLines MediaRules K8sValidate.
Import PyText TextLines MediaRules.

Module StorageBootstrap.

Definition bucket_policy (bucket : string) : json :=
  JObj [("Version", JStr "2012-10-17");
        ("Statement", JList [
           JObj [("Sid", JStr "PublicReadByPurpose"); ("Effect", JStr "Allow"); ("Principal", JObj [("AWS", JList [JStr "*"])]);
                 ("Action", JList [JStr "s3:GetObject"]); ("Resource", JList (map JStr (public_resources bucket)))]])].

(** ** The script *)

Inductive request := HeadBucket | CreateBucket | PutPolicy (text : string) | GetPolicy.

(** How a run ends: [main] returns, [sys.exit] with a message, an exception of
    the client with its code, or an answer that is not JSON. *)
Inductive ending := Returned (code : Z) | NoCredentials | Overlap | ClientError (code : string) | NotJson.

(** [os.getenv(a) or os.getenv(b)], when it is neither missing nor empty. *)
Definition either (a b : option string) : option string :=
  match a with
  | Some s => if is_empty s then b else Some s
  | None => b
  end.

Definition missing (v : option string) : bool := match v with Some s => is_empty s | None => true end.

Section script.
(** The answer to a request: the code of a [ClientError], or a text. *)
Context {W : Type} (exec : W → request → (string + string) * W).
Context (dumps : json → string) (loads : string → option json) (getenv : string → option string).

Definition BUCKET : string := default DEFAULT_BUCKET (getenv "S3_BUCKET").
Definition ACCESS_KEY : option string := either (getenv "S3_ACCESS_KEY") (getenv "MINIO_ROOT_USER").
Definition SECRET_KEY : option string := either (getenv "S3_SECRET_KEY") (getenv "MINIO_ROOT_PASSWORD").

(** Whether the bucket had to be created. *)
Definition ensure_bucket (w : W) : (ending + bool) * W :=
  match exec w HeadBucket with
  | (inr _, w) => (inr false, w)
  | (inl code, w) =>
      if negb (code in_ ["404"; "NoSuchBucket"]) then (inl (ClientError code), w)
      else match exec w CreateBucket with
           | (inl code, w) => (inl (ClientError code), w)
           | (inr _, w) => (inr true, w)
           end
  end.

Definition overlap : list string := List.filter (λ p, p in_ confidential_prefixes) public_prefixes.

Definition main (verify_only : bool) (w : W) : ending * W :=
  if missing ACCESS_KEY || missing SECRET_KEY then (NoCredentials, w)
  else
    let policy := bucket_policy BUCKET in
    if bool_decide (overlap ≠ []) then (Overlap, w)
    else if verify_only then
      match exec w GetPolicy with
      | (inl _, w) => (Returned 1, w)
      | (inr text, w) =>
          match loads text with
          | None => (NotJson, w)
          | Some live => (Returned (if Validate.py_eq live policy then 0 else 1), w)
          end
      end
    else match ensure_bucket w with
         | (inl e, w) => (e, w)
         | (inr _, w) =>
             match exec w (PutPolicy (dumps policy)) with
             | (inl code, w) => (ClientError code, w)
             | (inr _, w) => (Returned 0, w)
             end
         end.

(** A verification sends one request and decides from its answer alone. *)
Lemma verify_only_reads w : ∀ e w', main true w = (e, w') → w' = w ∨ w' = (exec w GetPolicy).2.
Proof.
  intros e w'. unfold main. destruct (_ || _); [intros [= _ <-]; by left|]. case_bool_decide; [intros [= _ <-]; by left|].
  destruct (exec w GetPolicy) as [[c|t] v]; [intros [= _ <-]; by right|]. destruct (loads t); intros [= _ <-]; by right.
Qed.
End script.

(** ** On an object store that keeps what it is given *)

(** No bucket, a bucket without a policy, or the text of its policy. *)
Class ObjectStore {W : Type} (exec : W → request → (string + string) * W) := {
  policy_of : W → option (option string);
  head_answer w : ∃ r w', exec w HeadBucket = (r, w') ∧ policy_of w' = policy_of w ∧
    match policy_of w with None => r = inl "404" ∨ r = inl "NoSuchBucket" | Some _ => ∃ t, r = inr t end;
  create_answer w : policy_of w = None → ∃ t w', exec w CreateBucket = (inr t, w') ∧ policy_of w' = Some None;
  put_answer w text : policy_of w ≠ None → ∃ t w', exec w (PutPolicy text) = (inr t, w') ∧ policy_of w' = Some (Some text);
  get_answer w : ∃ r w', exec w GetPolicy = (r, w') ∧ policy_of w' = policy_of w ∧
    match policy_of w with Some (Some text) => r = inr text | _ => ∃ code, r = inl code end;
}.

Lemma no_overlap : overlap = [].
Proof. by_compute. Qed.

Lemma list_alike l : (∀ v, v ∈ l → Validate.py_eq v v = true) → Validate.py_eq (JList l) (JList l) = true.
Proof.
  induction l as [|v l IH]; intros H; [done|].
  change (Validate.py_eq v v && Validate.py_eq (JList l) (JList l) = true). rewrite H by left. apply IH. intros x Hx. apply H. by right.
Qed.

Lemma obj_alike d : NoDup d.*1 → (∀ k v, (k, v) ∈ d → Validate.py_eq v v = true) → Validate.py_eq (JObj d) (JObj d) = true.
Proof.
  intros Hn H. cbn [Validate.py_eq]. rewrite Nat.eqb_refl. cbn [andb].
  enough (Hl : ∀ l, (∀ k v, (k, v) ∈ l → (k, v) ∈ d) →
    (fix all l := match l with
     | [] => true
     | (k, x) :: l => match dict_get d k with Some y => Validate.py_eq x y | None => false end && all l
     end) l = true) by (by apply Hl).
  induction l as [|[k v] l IH]; intros Hl; [done|]. assert (Hv : (k, v) ∈ d) by (apply Hl; left).
  rewrite (elem_dict_get d k v Hn Hv), (H k v Hv). apply IH. intros x y Hx. apply Hl. by right.
Qed.

Lemma policy_alike bucket : Validate.py_eq (bucket_policy bucket) (bucket_policy bucket) = true.
Proof.
  assert (Ht : ∀ l, Validate.py_eq (JList (map JStr l)) (JList (map JStr l)) = true).
  { intros l. apply list_alike. intros v (s & -> & _)%elem_of_map. apply Agreement.same_text. }
  unfold bucket_policy. apply obj_alike; [by_compute|]. intros k v Hv. elem_cases Hv; [apply Agreement.same_text|].
  apply list_alike. intros v Hv. elem_cases Hv. apply obj_alike; [by_compute|]. intros k v Hv.
  elem_cases Hv; [apply Agreement.same_text|apply Agreement.same_text|done|done|apply Ht].
Qed.

Section store.
Context {W : Type} (exec : W → request → (string + string) * W) {OS : ObjectStore exec}.
Context (dumps : json → string) (loads : string → option json) (getenv : string → option string).
Hypothesis credentials : missing (ACCESS_KEY getenv) = false ∧ missing (SECRET_KEY getenv) = false.
Notation policy := (bucket_policy (BUCKET getenv)).
Hypothesis json_reads_back : loads (dumps policy) = Some policy.

Lemma bucket_is_there w : ∃ made w', ensure_bucket exec w = (inr made, w') ∧ policy_of w' ≠ None.
Proof.
  unfold ensure_bucket. destruct (head_answer w) as (r & w1 & -> & E & Hr). destruct (policy_of w) as [p|] eqn:Ep.
  - destruct Hr as [t ->]. exists false, w1. by rewrite E.
  - destruct (create_answer w1 E) as (t & w2 & Ec & E2).
    destruct Hr as [-> | ->]; cbn; rewrite Ec; exists true, w2; by rewrite E2.
Qed.

(** Applying the policy succeeds from any state of the store; a verification
    afterwards reports that the policy matches; and one does not without it. *)
Theorem applied_policy_verifies w :
  (∃ w', main exec dumps loads getenv false w = (Returned 0, w') ∧ policy_of w' = Some (Some (dumps policy)) ∧
     ∃ w'', main exec dumps loads getenv true w' = (Returned 0, w'') ∧ policy_of w'' = policy_of w') ∧
  (∀ w', main exec dumps loads getenv true w = (Returned 0, w') →
     ∃ text live, policy_of w = Some (Some text) ∧ loads text = Some live ∧ Validate.py_eq live policy = true).
Proof.
  destruct credentials as [Ha Hs]. split.
  - destruct (bucket_is_there w) as (made & w1 & E1 & H1). destruct (put_answer w1 (dumps policy) H1) as (t & w2 & E2 & H2).
    exists w2. split; [|split; [done|]].
    + unfold main. rewrite Ha, Hs, no_overlap. cbn [orb]. rewrite bool_decide_false by tauto. by rewrite E1, E2.
    + destruct (get_answer w2) as (r & w3 & E3 & H3 & Hr). rewrite H2 in Hr. subst r. exists w3. split; [|done].
      unfold main. rewrite Ha, Hs, no_overlap. cbn [orb]. rewrite bool_decide_false by tauto.
      by rewrite E3, json_reads_back, policy_alike.
  - intros w'. unfold main. rewrite Ha, Hs, no_overlap. cbn [orb]. rewrite bool_decide_false by tauto.
    destruct (get_answer w) as (r & w1 & -> & _ & Hr). destruct (policy_of w) as [[text|]|]; [|by destruct Hr as [? ->]..].
    subst r. destruct (loads text) as [live|] eqn:El; [|done]. destruct (Validate.py_eq live policy) eqn:Ee; [|done].
    intros _. by exists text, live.
Qed.
End store.

(** ** What the policy opens *)

(** Whether a statement's resource, a prefix with a star, covers an object. *)
Definition covers (resource bucket key : string) : Prop :=
  ∃ prefix, resource = prefix +:+ "*" ∧ starts_with prefix ("arn:aws:s3:::" +:+ bucket +:+ "/" +:+ key) = true.

Lemma starts_with_chop a p s : starts_with (a +:+ p) (a +:+ s) = starts_with p s.
Proof. induction a as [|c a IH]; [done|]. rewrite !append_cons. cbn [starts_with]. by rewrite bool_decide_true, IH. Qed.

Lemma star_last p q : p +:+ "*" = q +:+ "*" → p = q.
Proof.
  revert q. induction p as [|c p IH]; intros [|d q] E; [done|by destruct q|by destruct p|].
  rewrite !append_cons in E. injection E as -> E. f_equal. by apply IH.
Qed.

Lemma starts_with_segment p s : starts_with (p +:+ "/") s = true ↔ ∃ r, s = p +:+ String "/" r.
Proof.
  split; [|by intros [r ->]; rewrite starts_with_chop].
  intros H. destruct (Text.starts_with_split _ _ H) as [r ->]. exists r. by rewrite string_app_assoc.
Qed.

(** Anonymous readers reach the objects of the public purposes and no others:
    whatever the bucket, the owner and the asset, some resource of the policy
    covers the key the service derives exactly when its purpose is not
    confidential. *)
Theorem policy_opens_public_purposes bucket purpose owner_id asset_id key :
  storage_key purpose owner_id asset_id = inr key →
  (∃ resource, resource ∈ public_resources bucket ∧ covers resource bucket key) ↔ is_confidential purpose = false.
Proof.
  intros Hk. rewrite <-(derived_key_is_guarded purpose owner_id asset_id key Hk).
  unfold storage_key in Hk. destruct (asset_purpose purpose) as [p|]; [|done]. injection Hk as <-.
  assert (Hp : lacks (λ d, bool_decide (d = "/"%char)) (prefix_of p)) by (apply lacks_char; by destruct p).
  set (tail := owner_id +:+ "/" +:+ asset_id).
  assert (Hf : first_segment (prefix_of p +:+ "/" +:+ tail) = prefix_of p).
  { unfold first_segment. change ("/" +:+ tail) with (String "/" tail). by rewrite split_on_app. }
  rewrite Hf. unfold public_resources.
  assert (Hpub : ∀ q, q ∈ public_prefixes → lacks (λ d, bool_decide (d = "/"%char)) q).
  { intros q Hq. apply lacks_char. unfold public_prefixes in Hq. apply elem_of_map in Hq as (x & -> & _). by destruct x. }
  split.
  - intros (r & (q & -> & Hq)%elem_of_map & (pre & E & Hs)). rewrite sort_by_perm in Hq. specialize (Hpub q Hq).
    assert (pre = "arn:aws:s3:::" +:+ bucket +:+ "/" +:+ (q +:+ "/")) as ->.
    { symmetry. apply star_last. by rewrite <-E, !string_app_assoc. }
    rewrite !starts_with_chop in Hs. apply (starts_with_segment q) in Hs as [r Er].
    assert (Hq' : first_segment (prefix_of p +:+ "/" +:+ tail) = q).
    { rewrite Er. unfold first_segment. by rewrite split_on_app. }
    congruence.
  - intros Hq. exists ("arn:aws:s3:::" +:+ bucket +:+ "/" +:+ prefix_of p +:+ "/*"). split.
    + apply elem_of_map. exists (prefix_of p). split; [done|]. by rewrite sort_by_perm.
    + exists ("arn:aws:s3:::" +:+ bucket +:+ "/" +:+ (prefix_of p +:+ "/")). split; [by rewrite !string_app_assoc|].
      rewrite !starts_with_chop. by destruct tail.
Qed.

(** *** On an example *)

Definition toy_exec (w : option (option string)) (r : request) : (string + string) * option (option string) :=
  match r, w with
  | HeadBucket, None => (inl "404", w)
  | HeadBucket, Some _ => (inr "", w)
  | CreateBucket, None => (inr "", Some None)
  | CreateBucket, Some _ => (inl "BucketAlreadyOwnedByYou", w)
  | PutPolicy _, None => (inl "NoSuchBucket", w)
  | PutPolicy text, Some _ => (inr "", Some (Some text))
  | GetPolicy, Some (Some text) => (inr text, w)
  | GetPolicy, _ => (inl "NoSuchBucketPolicy", w)
  end.

#[export] Instance toy_store : ObjectStore toy_exec.
Proof.
  refine {| policy_of := id |}.
  - intros [p|]; cbn; eexists _, _; (split; [reflexivity|]); (split; [done|]); [by eexists|by left].
  - intros [p|] E; [done|]. by eexists _, _.
  - intros [p|] text E; [|done]. by eexists _, _.
  - intros [[t|]|]; cbn; eexists _, _; (split; [reflexivity|]); (split; [done|]); [done|by eexists..].
Defined.

Lemma applied_policy_verifies_witness :
  let dumps v := match v with JObj _ => "policy" | _ => "" end in
  let loads s := if s =?s "policy" then Some (bucket_policy "media") else None in
  let getenv v := if contains "S3_BUCKET" v then None else Some "x" in
  ∃ w', main toy_exec dumps loads getenv false None = (Returned 0, w') ∧ policy_of w' = Some (Some "policy").
Proof.
  intros dumps loads getenv.
  destruct (applied_policy_verifies toy_exec dumps loads getenv) with (w := @None (option string)) as [(w' & E & H & _) _];
    [split; vm_compute; reflexivity|vm_compute; reflexivity|].
  exists w'. split; [exact E|exact H].
Defined.

(** The root account of MinIO stands in for keys of its own; without either
    nothing is asked of the store. *)
Example no_default_credentials :
  main toy_exec (λ _, "") (λ _, None) (λ _, None) false None = (NoCredentials, None) ∧
  (main toy_exec (λ _, "policy") (λ _, None) (λ v, if contains "MINIO" v then Some "x" else None) false None) = (Returned 0, Some (Some "policy")).
Proof. split; vm_compute; reflexivity. Qed.

(** A bucket of somebody else is an error, and is left alone. *)
Example forbidden_bucket :
  (main (λ (w : ()) r, (inl "403", w)) (λ _, "") (λ _, None) (λ _, Some "x") false ()).1 = ClientError "403".
Proof. vm_compute. reflexivity. Qed.
End StorageBootstrap.
