(* ===== verification/PlatformInit.v ===== *)
(** * Bringing the whole platform up

    scripts/init.py: its steps in order, over whatever docker, the other scripts
    and Kafka Connect answer.  [machine] gives what the script uses of the
    machine; [json.loads] is an argument.  What is printed is left out, and of
    [sys.exit] the kind of message is kept. *)

From S2P Require Import Prelude PyValue PyText TextLines K8sValidate.
Import PyText TextLines.

Module PlatformInit.

Definition newline : string := String newline "".

Definition INFRA : list string := ["postgres"; "redis"; "zookeeper"; "kafka"; "schema-registry"; "elasticsearch"; "debezium"].

(** The command lines, with what each carries. *)
Inductive command :=
| DestroyVolumes
| Up
| Health (svc : string)
| Running
| Exited
| ExitedNames
| Bootstrap
| Provision
| ListConnectors
| ConnectorStatus (c : string)
| RunTest (t : string).

Inductive fatal := CommandFailed | NotHealthy | ContainersExited (names : string) | SchemaFailed | ConnectorsFailed
| NotRunning (bad : list string) | TestsFailed (failed : list string).

(** [sys.exit] with a message, an exception, or rounds of waiting beyond those
    allowed for. *)
Inductive ending := Aborted | Fatal (why : fatal) | Raised | StillWaiting.

(** What the script does to the machine, in microseconds where time is meant. *)
Record machine (W : Type) := {
  exec : W → command → completed * W;
  clock : W → Z;
  sleep : Z → W → W;
  dotenv : W → option string;
  example : W → option string;
  write_dotenv : string → W → W;
}.
Arguments exec {_} _ _ _.
Arguments clock {_} _ _.
Arguments sleep {_} _ _ _.
Arguments dotenv {_} _ _.
Arguments example {_} _ _.
Arguments write_dotenv {_} _ _ _.

(** [ensure_env], from the text of the example. *)
Definition new_env (text secret : string) : string :=
  if contains "JWT_SECRET=" text
  then join newline (map (λ l, if starts_with "JWT_SECRET=" l then "JWT_SECRET=" +:+ secret else l) (splitlines text)) +:+ newline
  else text +:+ (newline +:+ "JWT_SECRET=" +:+ secret +:+ newline).

(** Iterating over a JSON value. *)
Definition iterate (v : json) : option (list json) :=
  match v with
  | JList l => Some l
  | JObj d => Some (map JStr d.*1)
  | JStr s => Some (map (λ c, JStr (String c "")) (String.list_ascii_of_string s))
  | _ => None
  end.

Definition text_of (v : json) : option string := match v with JStr s => Some s | _ => None end.

Definition tests : list string :=
  ["test_01_catalog_write_to_read_sync"; "test_02_cqrs_distributed_updates"; "test_03_saga_orchestrator"; "test_04_full_checkout_flow";
   "test_05_auxiliary_services"; "test_06_intra_mesh_connectivity"].

Section script.
Context {W : Type} (m : machine W) (loads : string → option json) (repr : json → string).
(** [sorted] on what is not all texts. *)
Context (sort_others : list json → option (list json)).

(** The world, and the commands run with their answers. *)
Record state := { world : W; log : list (command * completed) }.

Definition M (A : Type) : Type := state → (ending + A) * state.
Definition ret {A} (a : A) : M A := λ s, (inr a, s).
Definition stop {A} (e : ending) : M A := λ s, (inl e, s).
Definition bind {A B} (x : M A) (k : A → M B) : M B := λ s, match x s with (inl e, s) => (inl e, s) | (inr a, s) => k a s end.

Notation "x <- c ; k" := (bind c (λ x, k)) (at level 90, c at next level, right associativity).

Definition or_raise {A} (o : option A) : M A := match o with Some a => ret a | None => stop Raised end.
Definition act (f : W → W) : M () := λ s, (inr (), {| world := f (world s); log := log s |}).

Definition sh (c : command) (check : bool) : M completed := λ s,
  let (r, w) := exec m (world s) c in
  let s := {| world := w; log := log s ++ [(c, r)] |} in
  if check && negb (succeeded r) then (inl (Fatal CommandFailed), s) else (inr r, s).

Definition ensure_env (secret : string) : M () := λ s,
  match dotenv m (world s) with
  | Some _ => ret () s
  | None => (text <- or_raise (example m (world s)); act (write_dotenv m (new_env text secret))) s
  end.

Definition healthy (r : completed) : bool := strip (stdout r) in_ ["healthy"; "none"].

Fixpoint pending (svcs : list string) : M (list string) :=
  match svcs with
  | [] => ret []
  | svc :: svcs => r <- sh (Health svc) false; rest <- pending svcs; ret (if healthy r then rest else svc :: rest)
  end.

(** The loop of [wait_healthy], a given number of rounds at most. *)
Fixpoint wait_until (rounds : nat) (deadline : Z) : M () := λ s,
  if negb (clock m (world s) <? deadline) then stop (Fatal NotHealthy) s
  else match rounds with
       | O => stop StillWaiting s
       | S rounds =>
           (waiting <- pending INFRA;
            if bool_decide (waiting = []) then ret () else (_ <- act (sleep m 10000000); wait_until rounds deadline)) s
       end.

Definition wait_healthy (timeout : Z) (rounds : nat) : M () := λ s, wait_until rounds (clock m (world s) + timeout * 1000000) s.

Definition census : M () :=
  _ <- sh Running false;
  exited <- sh Exited false;
  if is_empty (strip (stdout exited)) then ret ()
  else names <- sh ExitedNames false; stop (Fatal (ContainersExited (strip (stdout names)))).

Definition sorted (l : list json) : option (list json) :=
  match mapM text_of l with Some texts => Some (map JStr (sort_by id texts)) | None => sort_others l end.

(** [[t["state"] for t in json.loads(raw).get("tasks", [])]] *)
Definition states (raw : string) : option (list json) :=
  status ← loads raw;
  tasks ← Validate.get status "tasks" (JList []);
  ts ← iterate tasks;
  mapM (λ t, Validate.item t "state") ts.

Definition running (states : list json) : bool := Validate.py_eq (JList states) (JList [JStr "RUNNING"]).

Fixpoint bad_connectors (names : list json) : M (list string) :=
  match names with
  | [] => ret []
  | c :: names =>
      raw <- sh (ConnectorStatus (py_str repr c)) false;
      st <- or_raise (states (stdout raw));
      rest <- bad_connectors names;
      ret (if running st then rest else py_str repr c :: rest)
  end.

Fixpoint run_tests (ts : list string) : M (list string) :=
  match ts with
  | [] => ret []
  | t :: ts => r <- sh (RunTest t) false; rest <- run_tests ts; ret (if succeeded r then rest else t :: rest)
  end.

Definition connectors : M () :=
  provision <- sh Provision false;
  if negb (succeeded provision) then stop (Fatal ConnectorsFailed)
  else
    _ <- act (sleep m 20000000);
    listed <- sh ListConnectors false;
    names <- or_raise (v ← loads (stdout listed); l ← iterate v; sorted l);
    bad <- bad_connectors names;
    if bool_decide (bad = []) then ret () else stop (Fatal (NotRunning bad)).

Definition verified (verify : bool) : M () :=
  if verify then failed <- run_tests tests; if bool_decide (failed = []) then ret () else stop (Fatal (TestsFailed failed)) else ret ().

Definition main (fresh verify : bool) (typed secret : string) (rounds : nat) : M () :=
  _ <- (if fresh then
          if negb (strip typed =?s "yes") then stop Aborted else _ <- sh DestroyVolumes false; ret ()
        else ret ());
  _ <- ensure_env secret;
  _ <- sh Up true;
  _ <- wait_healthy 300 rounds;
  _ <- census;
  bootstrap <- sh Bootstrap false;
  if negb (succeeded bootstrap) then stop (Fatal SchemaFailed)
  else _ <- connectors; verified verify.

(** ** What a platform that is ready has passed *)

(** A computation that returns has run commands of which this holds. *)
Definition returns {A} (x : M A) (P : A → list (command * completed) → Prop) : Prop :=
  ∀ s a s', x s = (inr a, s') → ∃ l, log s' = log s ++ l ∧ P a l.

Lemma returns_ret {A} (a : A) (P : A → list (command * completed) → Prop) : P a [] → returns (ret a) P.
Proof. intros H s b s' [= <- <-]. exists []. by rewrite app_nil_r. Qed.

Lemma returns_stop {A} e (P : A → list (command * completed) → Prop) : returns (stop e) P.
Proof. by intros s a s'. Qed.

Lemma returns_act f (P : () → list (command * completed) → Prop) : P () [] → returns (act f) P.
Proof. intros H s [] s' [= <-]. exists []. by rewrite app_nil_r. Qed.

Lemma returns_or_raise {A} (o : option A) (P : A → list (command * completed) → Prop) :
  (∀ a, o = Some a → P a []) → returns (or_raise o) P.
Proof. destruct o as [a|]; intros H; [by apply returns_ret, H|apply returns_stop]. Qed.

Lemma returns_sh c check (P : completed → list (command * completed) → Prop) :
  (∀ r, (check = true → succeeded r = true) → P r [(c, r)]) → returns (sh c check) P.
Proof.
  intros H s r s'. unfold sh. destruct (exec m (world s) c) as [r' w]. destruct check, (succeeded r') eqn:E; cbn; intros [= <- <-];
    (exists [(c, r')]; split; [done|]; apply H; intros; congruence).
Qed.

Lemma returns_bind {A B} (x : M A) (k : A → M B) P Q :
  returns x P → (∀ a l, P a l → returns (k a) (λ b l', Q b (l ++ l'))) → returns (bind x k) Q.
Proof.
  intros Hx Hk s b s'. unfold bind. destruct (x s) as [[e|a] s1] eqn:E; [done|]. intros E'.
  destruct (Hx _ _ _ E) as (l & El & Hl). destruct (Hk a l Hl _ _ _ E') as (l' & El' & Hq). exists (l ++ l'). by rewrite El', El, app_assoc.
Qed.

Lemma returns_weaken {A} (x : M A) (P Q : A → list (command * completed) → Prop) : returns x P → (∀ a l, P a l → Q a l) → returns x Q.
Proof. intros Hx H s a s' E. destruct (Hx _ _ _ E) as (l & El & Hl). exists l. split; [done|by apply H]. Qed.

(** A round of health questions. *)
Definition asked (svcs : list string) (l : list (command * completed)) : Prop := l.*1 = map Health svcs.

Lemma pending_returns svcs :
  returns (pending svcs) (λ waiting l, asked svcs l ∧ (waiting = [] → Forall (λ x, healthy x.2 = true) l)).
Proof.
  induction svcs as [|svc svcs IH]; [by apply returns_ret|]. cbn [pending].
  eapply returns_bind; [apply (returns_sh _ _ (λ r l, l = [(Health svc, r)])); done|]. intros r l ->.
  eapply returns_bind; [exact IH|]. intros rest l [Ha Hh]. apply returns_ret. rewrite app_nil_r. split.
  - unfold asked in *. cbn. by rewrite Ha.
  - destruct (healthy r) eqn:E; [|done]. intros Hr. constructor; [done|by apply Hh].
Qed.

(** The last round of the waiting. *)
Definition all_healthy (l : list (command * completed)) : Prop :=
  ∃ before final, l = before ++ final ∧ asked INFRA final ∧ Forall (λ x, healthy x.2 = true) final ∧
    Forall (λ x, ∃ svc, x.1 = Health svc) before.

Lemma asked_health svcs l : asked svcs l → Forall (λ x, ∃ svc, x.1 = Health svc) l.
Proof.
  intros Ha. apply Forall_forall. intros x Hx. assert (H : x.1 ∈ l.*1) by (apply list_elem_of_fmap; eauto).
  rewrite Ha in H. apply elem_of_map in H as (svc & E & _). by exists svc.
Qed.

Lemma wait_returns rounds deadline : returns (wait_until rounds deadline) (λ _, all_healthy).
Proof.
  induction rounds as [|n IH]; intros s a s'; cbn [wait_until]; (destruct (negb _); [done|]); [done|].
  revert s a s'. change (returns (bind (pending INFRA) (λ waiting,
    if bool_decide (waiting = []) then ret () else bind (act (sleep m 10000000)) (λ _, wait_until n deadline))) (λ _, all_healthy)).
  eapply returns_bind; [apply pending_returns|]. intros waiting l [Ha Hh]. case_bool_decide as Hw.
  - apply returns_ret. rewrite app_nil_r. exists [], l. split_and!; [done..|by apply Hh|done].
  - eapply returns_bind; [by apply (returns_act _ (λ _ l, l = []))|]. intros [] ? ->. eapply returns_weaken; [exact IH|].
    intros _ l' (before & final & -> & H1 & H2 & H3). exists (l ++ before), final. cbn. rewrite app_assoc.
    split_and!; [done..|]. apply Forall_app_2; [by eapply asked_health|done].
Qed.

(** The status of one connector. *)
Definition reported (c : json) (x : command * completed) : Prop :=
  x.1 = ConnectorStatus (py_str repr c) ∧ ∃ st, states (stdout x.2) = Some st ∧ running st = true.

Lemma bad_returns names : returns (bad_connectors names) (λ bad l, bad = [] → Forall2 reported names l).
Proof.
  induction names as [|c names IH]; [by apply returns_ret; intros|]. cbn [bad_connectors].
  eapply returns_bind; [apply (returns_sh _ _ (λ r l, l = [(ConnectorStatus (py_str repr c), r)])); done|]. intros r l ->.
  eapply returns_bind; [apply (returns_or_raise _ (λ st l, states (stdout r) = Some st ∧ l = [])); by intros|]. intros st ? [Est ->].
  eapply returns_bind; [exact IH|]. intros rest l Hl. apply returns_ret. rewrite app_nil_r. cbn [app].
  destruct (running st) eqn:Er; [|done]. intros Hr. constructor; [|by apply Hl]. split; [done|]. by exists st.
Qed.

Definition passed (t : string) (x : command * completed) : Prop := x.1 = RunTest t ∧ succeeded x.2 = true.

Lemma tests_return ts : returns (run_tests ts) (λ failed l, failed = [] → Forall2 passed ts l).
Proof.
  induction ts as [|t ts IH]; [by apply returns_ret; intros|]. cbn [run_tests].
  eapply returns_bind; [apply (returns_sh _ _ (λ r l, l = [(RunTest t, r)])); done|]. intros r l ->.
  eapply returns_bind; [exact IH|]. intros rest l Hl. apply returns_ret. rewrite app_nil_r. cbn [app].
  destruct (succeeded r) eqn:Er; [|done]. intros Hr. constructor; [done|by apply Hl].
Qed.

(** The part of the log after the containers are up. *)
Record connected (l : list (command * completed)) : Prop := {
  provisioned_first : ∃ rp rl names sts, l = (Provision, rp) :: (ListConnectors, rl) :: sts ∧ succeeded rp = true ∧
    (v ← loads (stdout rl); l ← iterate v; sorted l) = Some names ∧ Forall2 reported names sts }.

Lemma connectors_return : returns connectors (λ _, connected).
Proof.
  unfold connectors. eapply returns_bind; [apply (returns_sh _ _ (λ r l, l = [(Provision, r)])); done|]. intros rp l ->.
  destruct (succeeded rp) eqn:Ep; [|apply returns_stop]. cbn [negb].
  eapply returns_bind; [by apply (returns_act _ (λ _ l, l = []))|]. intros [] ? ->.
  eapply returns_bind; [apply (returns_sh _ _ (λ r l, l = [(ListConnectors, r)])); done|]. intros rl l ->.
  eapply returns_bind; [apply (returns_or_raise _ (λ names l, (v ← loads (stdout rl); l ← iterate v; sorted l) = Some names ∧ l = [])); by intros|].
  intros names ? [En ->]. eapply returns_bind; [apply bad_returns|]. intros bad l Hl. case_bool_decide; [|apply returns_stop].
  apply returns_ret. rewrite app_nil_r. split. exists rp, rl, names, l. split_and!; [done..|by apply Hl].
Qed.

(** The script says the platform is ready only when, in this order, the
    containers were started, every infrastructure container answered that it is
    healthy (or has no check) in one round, no container had exited, the schema
    bootstrap exited 0, the connectors were provisioned and each one the cluster
    lists has one running task, and, when asked, every test passed. *)
Theorem ready_means_checked fresh verify typed secret rounds s s' :
  main fresh verify typed secret rounds s = (inr (), s') →
  ∃ first up health census bootstrap cdc suite,
    log s' = log s ++ first ++ (Up, up) :: health ++ [(Running, census.1); (Exited, census.2)] ++ (Bootstrap, bootstrap) :: cdc ++ suite ∧
    (first = [] ∨ fresh = true ∧ strip typed = "yes" ∧ ∃ r, first = [(DestroyVolumes, r)]) ∧
    succeeded up = true ∧ all_healthy health ∧ strip (stdout census.2) = "" ∧ succeeded bootstrap = true ∧ connected cdc ∧
    (if verify then Forall2 passed tests suite else suite = []).
Proof.
  revert s s'. enough (H : returns (main fresh verify typed secret rounds) (λ _ l, ∃ first up health census bootstrap cdc suite,
    l = first ++ (Up, up) :: health ++ [(Running, census.1); (Exited, census.2)] ++ (Bootstrap, bootstrap) :: cdc ++ suite ∧
    (first = [] ∨ fresh = true ∧ strip typed = "yes" ∧ ∃ r, first = [(DestroyVolumes, r)]) ∧
    succeeded up = true ∧ all_healthy health ∧ strip (stdout census.2) = "" ∧ succeeded bootstrap = true ∧ connected cdc ∧
    (if verify then Forall2 passed tests suite else suite = []))).
  { intros s s' E. destruct (H _ _ _ E) as (l & El & f & u & h & c & b & k & t & -> & Hr). by exists f, u, h, c, b, k, t. }
  unfold main. eapply returns_bind.
  { apply (λ H, H : returns _ (λ _ first, first = [] ∨ fresh = true ∧ strip typed = "yes" ∧ ∃ r, first = [(DestroyVolumes, r)])).
    destruct fresh; [|by apply returns_ret; left]. destruct (strip typed =?s "yes") eqn:Et; [|apply returns_stop].
    eapply returns_bind; [apply (returns_sh _ _ (λ r l, l = [(DestroyVolumes, r)])); done|]. intros r l ->. apply returns_ret.
    right. apply bool_decide_eq_true in Et. split_and!; [done..|by exists r]. }
  intros [] first Hfirst. eapply returns_bind.
  { apply (λ H, H : returns _ (λ _ l, l = [])). intros s [] s' E. unfold ensure_env in E. destruct (dotenv m (world s)).
    - injection E as <-. exists []. by rewrite app_nil_r.
    - revert E. unfold or_raise, bind. destruct (example m (world s)); [|done]. intros [= <-]. exists []. by rewrite app_nil_r. }
  intros [] ? ->. eapply returns_bind; [apply (returns_sh _ _ (λ r l, succeeded r = true ∧ l = [(Up, r)])); intros; split; auto|].
  intros up ? [Hup ->]. eapply returns_bind; [intros s a s' E; exact (wait_returns _ _ _ _ _ E)|]. intros [] health Hh.
  eapply returns_bind.
  { apply (λ H, H : returns _ (λ _ l, ∃ r1 r2, l = [(Running, r1); (Exited, r2)] ∧ strip (stdout r2) = "")). unfold census.
    eapply returns_bind; [apply (returns_sh _ _ (λ r l, l = [(Running, r)])); done|]. intros r1 ? ->.
    eapply returns_bind; [apply (returns_sh _ _ (λ r l, l = [(Exited, r)])); done|]. intros r2 ? ->.
    destruct (strip (stdout r2)) eqn:E2; [apply returns_ret; by exists r1, r2|].
    eapply returns_bind; [by apply (returns_sh _ _ (λ _ _, True))|]. intros; apply returns_stop. }
  intros [] ? (r1 & r2 & -> & H2). eapply returns_bind; [apply (returns_sh _ _ (λ r l, l = [(Bootstrap, r)])); done|]. intros b ? ->.
  destruct (succeeded b) eqn:Eb; [|apply returns_stop]. cbn [negb]. eapply returns_bind; [apply connectors_return|]. intros [] cdc Hc.
  eapply returns_weaken with (P := λ _ suite, if verify then Forall2 passed tests suite else suite = []).
  { unfold verified. destruct verify; [|by apply returns_ret]. eapply returns_bind; [apply tests_return|].
    intros failed l Hl. case_bool_decide; [|apply returns_stop]. apply returns_ret. rewrite app_nil_r. by apply Hl. }
  intros [] suite Hs. exists first, up, health, (r1, r2), b, cdc, suite. by split_and!.
Qed.

(** ** Waiting ends *)

(** Commands do not turn the clock back, and a sleep lasts at least as long as
    it was asked for. *)
Definition time_passes : Prop :=
  (∀ w c, clock m w ≤ clock m (exec m w c).2) ∧ (∀ w n, clock m w + n ≤ clock m (sleep m n w)).

Lemma sh_clock c check s : time_passes → clock m (world s) ≤ clock m (world (sh c check s).2).
Proof.
  intros [H _]. unfold sh. specialize (H (world s) c). destruct (exec m (world s) c) as [r w]. by destruct (check && negb (succeeded r)).
Qed.

Lemma pending_clock svcs s : time_passes → ∃ waiting s', pending svcs s = (inr waiting, s') ∧ clock m (world s) ≤ clock m (world s').
Proof.
  intros Ht. revert s. induction svcs as [|svc svcs IH]; intros s; [by exists [], s|]. cbn [pending]. unfold bind at 1.
  pose proof (sh_clock (Health svc) false s Ht) as Hc. unfold sh in *. destruct (exec m (world s) (Health svc)) as [r w]. cbn [andb] in *.
  unfold bind. match goal with |- context [pending svcs ?s1] => destruct (IH s1) as (rest & s' & -> & Hs') end.
  eexists _, s'. split; [done|]. cbn [snd] in Hc. lia.
Qed.

(** Thirty-one rounds are as good as any number: [wait_healthy] asks, sleeps ten
    seconds and gives up after three hundred. *)
Lemma waiting_ends rounds s : time_passes → (31 ≤ rounds)%nat → ∀ s', wait_healthy 300 rounds s ≠ (inl StillWaiting, s').
Proof.
  intros Ht Hr. unfold wait_healthy.
  enough (H : ∀ n s deadline s', deadline - clock m (world s) < Z.of_nat n * 10000000 → wait_until n deadline s ≠ (inl StillWaiting, s')).
  { intros s'. apply H. lia. }
  intros n. induction n as [|n IH]; intros t deadline s' Hd; cbn [wait_until];
    (destruct (Z.ltb_spec (clock m (world t)) deadline) as [Hlt|?]; [|done]); [lia|]. cbn [negb].
  unfold bind at 1. destruct (pending_clock INFRA t Ht) as (waiting & t1 & -> & Ht1). case_bool_decide; [done|].
  unfold bind, act. apply IH. cbn [world]. destruct Ht as [_ Hsleep]. specialize (Hsleep (world t1) 10000000). lia.
Qed.

(** ** The environment file *)

Lemma an_environment_is_kept secret text s : dotenv m (world s) = Some text → ensure_env secret s = (inr (), s).
Proof. intros E. unfold ensure_env. by rewrite E. Qed.
End script.

Lemma splitlines_lacks n s : (String.length s ≤ n)%nat → ∀ l, l ∈ splitlines s → lacks is_line_break l.
Proof.
  revert s. induction n as [|n IH]; intros [|c s] Hn l Hl; cbn [String.length] in Hn; [by apply not_elem_of_nil in Hl|lia|by apply not_elem_of_nil in Hl|].
  cbn [splitlines] in Hl. destruct (is_line_break c) eqn:Ec.
  - apply elem_of_cons in Hl as [->|Hl]; [by intros d|]. destruct s as [|d s]; [by apply not_elem_of_nil in Hl|].
    cbn [String.length] in Hn. destruct (_ && _); [apply (IH s); [lia|done]|]. apply (IH (String d s)); [cbn [String.length]; lia|done].
  - destruct (splitlines s) as [|w ws] eqn:Es.
    + apply list_elem_of_singleton in Hl as ->. by apply lacks_cons.
    + assert (Hw : ∀ x, x ∈ w :: ws → lacks is_line_break x) by (intros x Hx; apply (IH s); [lia|by rewrite Es]).
      apply elem_of_cons in Hl as [->|Hl]; [apply lacks_cons; split; [done|apply Hw; left]|apply Hw; by right].
Qed.

Lemma splitlines_join ls : ls ≠ [] → (∀ l, l ∈ ls → lacks is_line_break l) → splitlines (join newline ls +:+ newline) = ls.
Proof.
  intros Hne Hl. rewrite <-(splitlines_text ls Hl) at 2. f_equal. clear Hl. induction ls as [|x ls IH]; [done|].
  destruct ls as [|y ls]; [done|]. cbn [join lines_text foldr] in *. rewrite !string_app_assoc.
  change (newline +:+ join newline (y :: ls) +:+ newline) with (String TextLines.newline (join newline (y :: ls) +:+ newline)).
  by rewrite IH.
Qed.

Lemma splitlines_last l : lacks is_line_break l → splitlines (l +:+ newline) = [l].
Proof. intros Hl. unfold newline. by rewrite splitlines_app. Qed.

Lemma splitlines_break l : lacks is_line_break l → splitlines (String TextLines.newline (l +:+ newline)) = [""; l].
Proof.
  intros Hl. cbn [splitlines]. change (is_line_break TextLines.newline) with true. cbn iota.
  destruct (l +:+ newline) eqn:E; [by destruct l|]. change (code TextLines.newline =? 13) with false. cbn [andb].
  by rewrite <-E, splitlines_last.
Qed.

Lemma splitlines_after n t l : (String.length t ≤ n)%nat → lacks is_line_break l →
  ∃ x ls, splitlines (t +:+ String TextLines.newline (l +:+ newline)) = x :: ls ++ [l].
Proof.
  intros Hn Hl. revert t Hn. induction n as [|n IH]; intros [|c t] Hn; cbn [String.length] in Hn; try lia;
    try (exists "", []; by apply splitlines_break).
  rewrite append_cons. cbn [splitlines]. destruct (is_line_break c).
  - destruct t as [|d t].
    + change ("" +:+ String TextLines.newline (l +:+ newline)) with (String TextLines.newline (l +:+ newline)).
      cbn beta iota. destruct (_ && _); [exists "", []; by rewrite splitlines_last|exists "", [""]; by rewrite splitlines_break].
    + cbn [String.length] in Hn. rewrite append_cons. destruct (_ && _).
      * destruct (IH t ltac:(lia)) as (x & ls & ->). by exists "", (x :: ls).
      * destruct (IH (String d t) ltac:(cbn [String.length]; lia)) as (x & ls & E). rewrite append_cons in E. rewrite E. by exists "", (x :: ls).
  - destruct (IH t ltac:(lia)) as (x & ls & ->). by exists (String c x), ls.
Qed.

(** A new environment has the secret when the example has a line for it, or does
    not mention it. *)
Lemma new_env_has_its_secret text secret :
  lacks is_line_break secret → contains "JWT_SECRET=" text = false ∨ (∃ l, l ∈ splitlines text ∧ starts_with "JWT_SECRET=" l = true) →
  ("JWT_SECRET=" +:+ secret) ∈ splitlines (new_env text secret).
Proof.
  intros Hs H. assert (Hl : lacks is_line_break ("JWT_SECRET=" +:+ secret)).
  { apply lacks_app; [by apply lacks_literal|done]. }
  unfold new_env. destruct (contains "JWT_SECRET=" text) eqn:Ec.
  - destruct H as [?|(l & Hin & Hst)]; [done|]. rewrite splitlines_join.
    + apply elem_of_map. exists l. split; [by rewrite Hst|done].
    + intros E. apply map_eq_nil in E. rewrite E in Hin. by apply not_elem_of_nil in Hin.
    + intros x (y & -> & Hy)%elem_of_map. destruct (starts_with _ y); [done|]. by eapply splitlines_lacks.
  - change (newline +:+ "JWT_SECRET=" +:+ secret +:+ newline) with (String TextLines.newline (("JWT_SECRET=" +:+ secret) +:+ newline)).
    destruct (splitlines_after (String.length text) text _ (le_n _) Hl) as (x & ls & ->). apply elem_of_cons. right.
    apply elem_of_app. right. left.
Qed.

(** An example that only mentions the variable gets none. *)
Example a_comment_swallows_the_secret :
  new_env (lines_text ["# set JWT_SECRET= before use"; "PORT=1"]) "5ec7e7" = lines_text ["# set JWT_SECRET= before use"; "PORT=1"].
Proof. vm_compute. reflexivity. Qed.

(** *** On an example *)

(** A machine on which everything answers well; time is the world. *)
Definition good_machine (status : string) : machine Z := {|
  exec w c := ({| returncode := 0; stdout := match c with Health _ => "healthy" | ListConnectors => "list" | ConnectorStatus _ => status | _ => "" end |}, w + 1);
  clock w := w; sleep n w := w + n; dotenv _ := Some ""; example _ := None; write_dotenv _ w := w;
|}.

Definition sample_loads (s : string) : option json :=
  if s =?s "list" then Some (JList [JStr "user-outbox-connector"; JStr "cart-outbox-connector"])
  else if s =?s "up" then Some (JObj [("tasks", JList [JObj [("state", JStr "RUNNING")]])])
  else if s =?s "down" then Some (JObj [("tasks", JList [])]) else None.

Definition sample_run (status : string) : ending + () :=
  (main (good_machine status) sample_loads (λ _, "") (λ _, None) false true "" "5ec7e7" 31 {| world := 0; log := [] |}).1.

Example ready_or_not :
  sample_run "up" = inr () ∧ sample_run "down" = inl (Fatal (NotRunning ["cart-outbox-connector"; "user-outbox-connector"])) ∧
  sample_run "unreadable" = inl Raised.
Proof. vm_compute. by split_and!. Qed.

(** The removal of the volumes is not looked at. *)
Definition stubborn_machine : machine Z := {|
  exec w c := match c with DestroyVolumes => ({| returncode := 1; stdout := "" |}, w) | _ => exec (good_machine "up") w c end;
  clock := clock (good_machine "up"); sleep := sleep (good_machine "up"); dotenv _ := Some ""; example _ := None; write_dotenv _ w := w;
|}.

Example volumes_may_survive :
  (main stubborn_machine sample_loads (λ _, "") (λ _, None) true false "yes" "5ec7e7" 31 {| world := 0; log := [] |}).1 = inr ().
Proof. vm_compute. reflexivity. Qed.
End PlatformInit.
