(* ===== verification/Retention.v ===== *)
(** * The retention loop of the outboxes

    shared/libs/python-common/retention.py, [outbox_cleanup_loop]: every hour one
    deletion ([prune_outbox_once] of CreateOnce), failures included, while the
    service goes on inserting. *)

From S2P Require Import Prelude PyValue Session CreateOnce.
Import CreateOnce.

Module Retention.

(** What happens to the table: a tick of the loop at a time, whose statement may
    fail, or an insert of the service. *)
Inductive event := Tick (now : Z) (fails : bool) | Insert (m : OutboxMessage).

Definition DEFAULT_INTERVAL_SECONDS : Z := 3600.

Section loop.
Context {Row : Type} (retention_days : Z).

(** The tables, and the rows purged so far. *)
Definition happens (s : tables Row * Z) (e : event) : tables Row * Z :=
  match e with
  | Tick _ true => s
  | Tick now false => let (d, removed) := prune_outbox_once retention_days now s.1 in (d, s.2 + removed)
  | Insert m => (Tables (co_rows s.1) (co_outbox s.1 ++ [m]) (co_keys s.1) (co_draws s.1), s.2)
  end.

Definition outbox_cleanup_loop (d : tables Row) (events : list event) : tables Row * Z := foldl happens (d, 0) events.

Definition window : Z := retention_days * US_PER_DAY.

(** A row within the window of every tick stays. *)
Lemma young_rows_stay events s m :
  m ∈ co_outbox s.1 → (∀ now fails, Tick now fails ∈ events → now - window ≤ msg_created_at m) → m ∈ co_outbox (foldl happens s events).1.
Proof.
  revert s. induction events as [|e events IH]; intros s Hm Hy; [done|]. cbn [foldl]. apply IH.
  - destruct e as [now [|]|m']; cbn; [done| |by apply elem_of_app; left].
    apply elem_of_filter_bool. split; [done|]. specialize (Hy now false ltac:(left)). unfold window in Hy. lia.
  - intros now fails Hin. eapply Hy. by right.
Qed.

(** Right after a tick that worked, no row is older than the window; only the
    outbox was touched, and the count grew by what went. *)
Lemma a_tick_prunes s now :
  let s' := happens s (Tick now false) in
  (∀ m, m ∈ co_outbox s'.1 → now - window ≤ msg_created_at m) ∧ co_rows s'.1 = co_rows s.1 ∧ co_keys s'.1 = co_keys s.1 ∧
  s'.2 - s.2 = Z.of_nat (length (co_outbox s.1)) - Z.of_nat (length (co_outbox s'.1)).
Proof.
  cbn. unfold window. split_and!; [|done..|].
  - intros m [_ Hm]%elem_of_filter_bool. lia.
  - induction (co_outbox s.1) as [|m l IH]; cbn; [lia|]. destruct (msg_created_at m <? _); cbn [negb length] in *; lia.
Qed.

(** However many ticks fail, the next one that works catches up. *)
Lemma failures_are_caught_up events s now m :
  m ∈ co_outbox (foldl happens s (events ++ [Tick now false])).1 → now - window ≤ msg_created_at m.
Proof. rewrite foldl_app. cbn [foldl]. apply a_tick_prunes. Qed.

(** With a tick each hour that works, no row outlives the window by more than
    the interval: between two ticks a row that is older was within the window at
    the first. *)
Lemma overdue_at_most_one_interval s t now m :
  m ∈ co_outbox (happens s (Tick t false)).1 → now ≤ t + DEFAULT_INTERVAL_SECONDS * 1000000 →
  now - msg_created_at m ≤ window + DEFAULT_INTERVAL_SECONDS * 1000000.
Proof. intros Hm Ht. apply (a_tick_prunes s t) in Hm. lia. Qed.
End loop.
End Retention.
